(* ===== verification/_CoqProject ===== *)
-Q . S2P
Prelude.v
FrameAlloc.v
Ring.v
Pmm64.v
Pipe64.v
Kstring.v
Netwire.v
Net.v
Tcp.v
Sched64.v
Paging64.v
Udphost.v
Dhcp.v
Dns.v
Dll.v
Kheap64.v
Kheapinv.v
Kheapspec.v
Ramfs64.v
Ramtree.v
Ramnames.v
Ramdata.v
Raminit.v
Ramspec.v
Proc64.v
Resv.v
Signal64.v
