(* ===== verification/Prelude.v ===== *)
(** * Novaris: a verification development of the kernel's core

    NovarisOS is a hobby operating system: a 32-bit kernel and, since then, a
    64-bit one, with a network stack and an emulated Linux interface.  This
    library models the parts of it whose logic is its own and whose state is
    in memory - the allocators, the page tables, the scheduler, the pipes, the
    network stack and its clients - as executable Rocq definitions translated
    from the C, and proves what makes each of them correct.

    ** The parts, and the code they model

    - [Prelude]: machine integers ([Z] with the wrap-around written out), C
      arrays as lists, counted loops and searches, the tactics and the hints.
    - [FrameAlloc]: the interface the frame allocator offers, through the
      abstract number of owners of each frame.  [Pmm64] ([kernel/pmm64.c])
      implements it; [Paging64] uses only the interface.
    - [Ring]: ring buffers, for [Pipe64], [Net] and [Tcp].
    - [Pmm64] ([kernel/pmm64.c]): the bitmap of physical frames with its
      reference counts: initialisation from the boot loader's memory map, the
      four ways to allocate, free and share.  State: the record [pmm], one
      field for each static variable.
    - [Pipe64] ([kernel/pipe64.c]): the pipe table, descriptors in flight, and
      the cascade of a close.
    - [Kstring] ([kernel/kstring.c]): memory, strings, decimal and hexadecimal.
    - [Netwire], [Net] ([include/net.h], [kernel/net.c]): byte order, the
      checksum, addresses; ARP, IPv4, ICMP, UDP.
    - [Tcp] ([kernel/tcp.c]): four connections over the interface [IpLayer].
    - [Udphost] ([net_poll]): the stack as one state, the instance of [IpLayer]
      that joins [Tcp] to [Net], and the interface [UdpHost] with its laws.
      [Dhcp] ([kernel/dhcp.c]) and [Dns] ([kernel/dns.c]) run on that interface.
    - [Sched64] ([kernel/sched64.c]): the thread table, the timer switch, the
      blocking calls, futexes, the FPU areas.
    - [Paging64] ([kernel/paging64.c]): the page tables, edited through the
      recursive slot.  Every access goes through the processor's own walk
      ([hw_walk]), so a wrong address is a page fault ([None]).
    - [Dll], [Kheap64], [Kheapinv], [Kheapspec] ([kernel/kheap64.c]): doubly
      linked lists in memory; the code of the kernel heap, over the interface
      [KernelMemory] to mapped words and page mapping; its invariant; what it
      promises, and a simple memory to run it on.  A computation ends with a
      result, with a page fault at an address, or out of fuel.
    - [Ramfs64], [Ramtree], [Ramnames], [Ramdata], [Raminit], [Ramspec]
      ([kernel/ramfs64.c]): the code of the RAM file system over the kernel
      heap and the frame allocator; the tree its node table is; what the
      operations on names do to the tree; where the bytes of a file are and
      what reading and writing do to them; the first tree; what the file
      system promises, and examples of where the code does otherwise.

    - [Proc64] ([kernel/proc64.c]): the process table over the pipes and the
      files, whose references a fork takes.
    - [Resv] (in [kernel/uspace64.c]): the list of reserved address ranges of
      a process; spilling a range to pages is a parameter, any function that
      may fail.
    - [Signal64] ([kernel/signal64.c]): masks, pending signals, handlers,
      delivery and return, over the interfaces [TaskView] (who is running,
      which [Sched64] and [Proc64] implement) and [UserMemory].

    A definition keeps the name of the C function it models; a function that
    changes static state takes the record of that state and returns the new
    one.  A pointer to an element of a table is its index.

    ** What the theorems show

    - Refinement: the frame allocator implements a map from frames to owner
      counts, the pipes implement queues, the UDP ports implement bounded
      FIFOs, the kernel heap a set of disjoint allocations whose contents it
      leaves alone.
    - Invariants and safety: initialisation frees exactly the frames
      whose last byte is available memory, and none that is in use; a
      context switch loses nothing of any thread; a TCP connection delivers a
      prefix of the peer's stream and moves along the edges of its state
      machine; mapping a page adds one translation and changes no other; a
      DHCP lease or DNS answer comes from the exchange it claims to.
    - The RAM file system: any sequence of calls keeps the node table a tree,
      if new names go into directories (which the code does not check);
      creating adds one entry, renaming moves one, an open file keeps its bytes
      when its name goes, and what is written reads back.
    - Processes and signals: a fork counts what it shares; a child's end is
      told to its parent once; the list of ranges changes by exactly the range
      it is asked for; masks never hold SIGKILL, which stays fatal whatever a
      process does; a handler is entered as a call would, and the return gives
      back the registers, the floating-point state and the mask.
    - Functional: what each operation answers, failures included, such as the
      ARP cache, the futex wake, the parsing of DHCP options and DNS records.
    - Equivalence with a reference: the scans of the frame bitmap, the page
      table walk in software, [kstrstr].
    - Round trips: TCP segments, encoded names, decimal numbers.
    - Bounds: nothing past a received datagram is read; a store changes
      exactly its bytes.
    - Termination and liveness: waits end when the clock does its part, a
      cascade of closes ends and loses no reference, a runnable thread gets the
      processor, an unanswered segment is given up.

    Every theorem with hypotheses is applied in a witness to a concrete state
    (a small machine, two hosts on a wire, a thread table).

    ** Choices

    - Loops that the C bounds by a condition take fuel.  Where the fuel can be
      seen to be enough it is part of the definition (a ring's size, a table's
      length, the header's size), and a theorem shows the loop ends by itself.
    - The clock is a value the environment moves.  A wait is a fold over an
      explicit list of what the world does meanwhile (ticks, frames, halts);
      [None] means it is still waiting.
    - Interrupts are taken at the points where the code halts or polls; the
      frames a card would deliver in an interrupt are delivered at the next
      poll.
    - The translation buffer is not modelled: the walk is made anew for each
      access, which is what the [invlpg] of the code are for.  Supervisor
      accesses ignore the write bit: what is above a table is made writable.
    - Memory that two components would share is kept apart where the code
      keeps it apart by position: the boot loader's memory map is read by both
      passes of [pmm64_init] as it was left; a store to one user page of
      [UserMemory] shows in no other, so no two pages are on one frame.
    - [paging64_map_huge] replaces a page table by a large page without
      returning the table's frame; the theorem on the direct map assumes none
      is there, as at boot.

    ** Not modelled

    The system call layer copies arguments and calls the parts above.  Address
    space cloning, page faults and the mapping calls of user space edit page
    tables of processes through the direct map, and are left out with the ELF
    loader and the local sockets.  FAT32 belongs to the 32-bit kernel, which
    with its POSIX layer is the predecessor of the parts modelled here.
    Drivers, CPU tables and boot code are port input and output; the desktop,
    the fonts and the shell are output; the Windows subset, the user programs,
    the tools and the generated byte arrays are left out. *)

From stdpp Require Export base tactics list numbers gmap.
From Stdlib Require Export ZArith Lia Bool.

#[global] Open Scope Z_scope.

(** ** Machine integers

    An unsigned integer of the program is a [Z] in range; the arithmetic of
    the C source wraps, and the wrap-around is written where it can happen. *)

Definition u8 (x : Z) : Z := x mod 2 ^ 8.
Definition u16 (x : Z) : Z := x mod 2 ^ 16.
Definition u32 (x : Z) : Z := x mod 2 ^ 32.
Definition u64 (x : Z) : Z := x mod 2 ^ 64.

(** The signed reading of a 32-bit word: [(int32_t)x]. *)
Definition i32 (x : Z) : Z :=
  let y := u32 x in if y <? 2 ^ 31 then y else y - 2 ^ 32.

(** A C condition: an integer is true when it is not zero. *)
Definition nz (x : Z) : bool := negb (x =? 0).

(** [v & ~(a - 1)] on 64-bit words: round down to a power of two. *)
Definition and_not64 (v m : Z) : Z := Z.land v (2 ^ 64 - 1 - m).

Definition is_byte (b : Z) : Prop := 0 <= b < 256.
Definition is_word (x : Z) : Prop := 0 <= x < 2 ^ 64.

(** ** Arrays

    A C array is a list; [zget] and [zset] are [a[i]] and [a[i] = v] for the
    integer index [i].  Out of range a read gives the default and a write
    does nothing, so each use is covered by a bound in the invariants. *)

Definition zget {A} `{!Inhabited A} (l : list A) (i : Z) : A := l !!! Z.to_nat i.
Definition zset {A} (l : list A) (i : Z) (v : A) : list A := <[Z.to_nat i := v]> l.
Definition zlen {A} (l : list A) : Z := Z.of_nat (length l).

(** [zslice off n l] is the [n] elements from [off] on, [zsplice off d l]
    is [l] with the elements of [d] stored from [off] on: the two halves of
    a [memcpy]. *)
Definition zslice {A} (off n : Z) (l : list A) : list A :=
  take (Z.to_nat n) (drop (Z.to_nat off) l).
Definition zsplice {A} (off : Z) (d l : list A) : list A :=
  take (Z.to_nat off) l ++ d ++ drop (Z.to_nat off + length d) l.

(** ** Loops

    [for_up n i body s] is [for (k = i; k < i + n; k++) body(k)], and
    [find_up n i p] the search [for (...) if (p(k)) break;], [None] when the
    loop runs to its end.  [find_down] is the search that walks down from
    [i], testing [i-1] first. *)

Fixpoint for_up {S} (n : nat) (i : Z) (body : Z -> S -> S) (s : S) : S :=
  match n with
  | O => s
  | S n' => for_up n' (i + 1) body (body i s)
  end.

Fixpoint find_up (n : nat) (i : Z) (p : Z -> bool) : option Z :=
  match n with
  | O => None
  | S n' => if p i then Some i else find_up n' (i + 1) p
  end.

Fixpoint find_down (n : nat) (i : Z) (p : Z -> bool) : option Z :=
  match n with
  | O => None
  | S n' => if p (i - 1) then Some (i - 1) else find_down n' (i - 1) p
  end.

(** How many of the [n] indices from [i] satisfy [p]. *)
Fixpoint count_up (n : nat) (i : Z) (p : Z -> bool) : Z :=
  match n with
  | O => 0
  | S n' => (if p i then 1 else 0) + count_up n' (i + 1) p
  end.

(** The sum of [f] over the [n] indices from [i]. *)
Fixpoint sum_up (n : nat) (i : Z) (f : Z -> Z) : Z :=
  match n with
  | O => 0
  | S n' => f i + sum_up n' (i + 1) f
  end.

(** A loop over a list that stops at the first failure: [return 0] from
    inside nested [for] loops. *)
Fixpoint fold_opt {A S} (f : S -> A -> option S) (s : S) (l : list A) : option S :=
  match l with
  | [] => Some s
  | a :: l' => match f s a with Some s' => fold_opt f s' l' | None => None end
  end.

(** The indices [i, i+1, ..., i+n-1] of a counted loop. *)
Definition zseq (i : Z) (n : nat) : list Z := seqZ i (Z.of_nat n).

(** ** Tactics *)

(** Reflect the boolean tests of the code in the hypotheses. *)
Ltac zbool :=
  repeat match goal with
  | H : nz _ = true |- _ => unfold nz in H
  | H : nz _ = false |- _ => unfold nz in H
  | H : negb _ = true |- _ => apply negb_true_iff in H
  | H : negb _ = false |- _ => apply negb_false_iff in H
  | H : _ && _ = true |- _ => apply andb_true_iff in H; destruct H
  | H : _ || _ = false |- _ => apply orb_false_iff in H; destruct H
  | H : (_ =? _)%Z = true |- _ => apply Z.eqb_eq in H
  | H : (_ =? _)%Z = false |- _ => apply Z.eqb_neq in H
  | H : (_ <? _)%Z = true |- _ => apply Z.ltb_lt in H
  | H : (_ <? _)%Z = false |- _ => apply Z.ltb_ge in H
  | H : (_ <=? _)%Z = true |- _ => apply Z.leb_le in H
  | H : (_ <=? _)%Z = false |- _ => apply Z.leb_gt in H
  end.

(** Case analysis on the [if]s and [match]es of the goal, the equations kept. *)
Ltac case_all :=
  repeat (case_match; simplify_eq/=); zbool.

(** Unfold the wrap-around away: the side conditions are bounds. *)
Ltac unwrap :=
  unfold u8, u16, u32, u64 in *;
  repeat (rewrite Z.mod_small by lia).

(** ** Wrap-around *)

Lemma u64_small x : 0 <= x < 2 ^ 64 -> u64 x = x.
Proof. intros. by apply Z.mod_small. Qed.

Lemma u32_small x : 0 <= x < 2 ^ 32 -> u32 x = x.
Proof. intros. by apply Z.mod_small. Qed.

Lemma u16_small x : 0 <= x < 2 ^ 16 -> u16 x = x.
Proof. intros. by apply Z.mod_small. Qed.

Lemma u8_small x : 0 <= x < 2 ^ 8 -> u8 x = x.
Proof. intros. by apply Z.mod_small. Qed.

Lemma u64_range x : 0 <= u64 x < 2 ^ 64.
Proof. apply Z.mod_pos_bound. lia. Qed.

Lemma u32_range x : 0 <= u32 x < 2 ^ 32.
Proof. apply Z.mod_pos_bound. lia. Qed.

Lemma u16_range x : 0 <= u16 x < 2 ^ 16.
Proof. apply Z.mod_pos_bound. lia. Qed.

Lemma u8_range x : 0 <= u8 x < 2 ^ 8.
Proof. apply Z.mod_pos_bound. lia. Qed.

Lemma nz_true x : nz x = true <-> x <> 0.
Proof. unfold nz. rewrite negb_true_iff, Z.eqb_neq. done. Qed.

Lemma nz_false x : nz x = false <-> x = 0.
Proof. unfold nz. rewrite negb_false_iff, Z.eqb_eq. done. Qed.

(** ** Arrays *)

Section arrays.
  Context {A : Type} `{!Inhabited A}.
  Implicit Types l : list A.

Lemma zlen_zset l i v : zlen (zset l i v) = zlen l.
Proof. unfold zlen, zset. by rewrite length_insert. Qed.

Lemma zget_zset_eq l i (v : A) : 0 <= i < zlen l -> zget (zset l i v) i = v.
Proof.
  unfold zlen, zget, zset. intros.
  apply list_lookup_total_insert_eq. lia.
Qed.

Lemma zget_zset_ne l i j v : 0 <= i -> 0 <= j -> i <> j -> zget (zset l i v) j = zget l j.
Proof.
  unfold zget, zset. intros.
  apply list_lookup_total_insert_ne. lia.
Qed.

Lemma zget_zset l i j v :
  0 <= i < zlen l -> 0 <= j ->
  zget (zset l i v) j = if i =? j then v else zget l j.
Proof.
  intros. destruct (Z.eqb_spec i j) as [->|].
  - by apply zget_zset_eq.
  - apply zget_zset_ne; lia.
Qed.

Lemma zget_replicate n (v : A) i : 0 <= i < Z.of_nat n -> zget (replicate n v) i = v.
Proof. unfold zget. intros. rewrite lookup_total_replicate_2; [done|lia]. Qed.

Lemma zget_Forall (P : A -> Prop) l i : Forall P l -> 0 <= i < zlen l -> P (zget l i).
Proof.
  unfold zget, zlen. intros HF Hi. apply (Forall_lookup_total_1 P); [done|lia].
Qed.

Lemma zset_Forall (P : A -> Prop) l i v : Forall P l -> P v -> Forall P (zset l i v).
Proof. intros. by apply Forall_insert. Qed.

Lemma zget_lookup l i v : 0 <= i -> l !! Z.to_nat i = Some v -> zget l i = v.
Proof. intros. unfold zget. by apply list_lookup_total_correct. Qed.

Lemma zlen_zslice off n (l : list A) :
  0 <= off -> 0 <= n -> off + n <= zlen l -> zlen (zslice off n l) = n.
Proof. unfold zlen, zslice. intros. rewrite length_take, length_drop. lia. Qed.

Lemma zlen_zsplice off d (l : list A) :
  0 <= off -> off + zlen d <= zlen l -> zlen (zsplice off d l) = zlen l.
Proof.
  unfold zlen, zsplice. intros. rewrite !length_app, length_take, length_drop. lia.
Qed.

Lemma zget_zslice off n l i :
  0 <= off -> 0 <= i < n -> zget (zslice off n l) i = zget l (off + i).
Proof.
  intros. unfold zget, zslice. rewrite !list_lookup_total_alt.
  rewrite lookup_take_lt by lia. rewrite lookup_drop.
  do 2 f_equal. lia.
Qed.

Lemma zget_zsplice off d l i :
  0 <= off -> off + zlen d <= zlen l -> 0 <= i ->
  zget (zsplice off d l) i =
    if (off <=? i) && (i <? off + zlen d) then zget d (i - off) else zget l i.
Proof.
  unfold zlen, zget, zsplice. intros. rewrite !list_lookup_total_alt.
  destruct (Z.leb_spec off i); [destruct (Z.ltb_spec i (off + Z.of_nat (length d)))|]; simpl.
  - rewrite lookup_app_r by (rewrite length_take; lia).
    rewrite length_take, lookup_app_l by lia.
    do 2 f_equal. lia.
  - rewrite lookup_app_r by (rewrite length_take; lia).
    rewrite length_take, lookup_app_r by lia. rewrite lookup_drop.
    do 2 f_equal. lia.
  - rewrite lookup_app_l by (rewrite length_take; lia).
    rewrite lookup_take_lt by lia. done.
Qed.

Lemma zget_app_r (l k : list A) i : 0 <= i -> zget (l ++ k) (zlen l + i) = zget k i.
Proof.
  unfold zget, zlen. intros Hi. rewrite !list_lookup_total_alt, lookup_app_r by lia.
  do 2 f_equal. lia.
Qed.

Lemma zget_app_l (l k : list A) i : 0 <= i < zlen l -> zget (l ++ k) i = zget l i.
Proof.
  unfold zget, zlen. intros Hi. by rewrite !list_lookup_total_alt, lookup_app_l by lia.
Qed.

Lemma zlen_app (l k : list A) : zlen (l ++ k) = zlen l + zlen k.
Proof. unfold zlen. rewrite length_app. lia. Qed.

Lemma zslice_app_r (l k : list A) off n :
  0 <= off -> zslice (zlen l + off) n (l ++ k) = zslice off n k.
Proof.
  intros. unfold zslice, zlen. rewrite drop_app.
  rewrite (drop_ge l) by lia. simpl. do 2 f_equal. lia.
Qed.

Lemma zslice_all (l : list A) n : zlen l <= n -> zslice 0 n l = l.
Proof. intros. unfold zslice, zlen in *. simpl. rewrite drop_0. apply take_ge. lia. Qed.

Lemma zslice_app_l (l k : list A) n : zlen l = n -> zslice 0 n (l ++ k) = l.
Proof. intros <-. unfold zslice, zlen. simpl. rewrite drop_0. apply take_app_length'. lia. Qed.

Lemma zlen_nonneg (l : list A) : 0 <= zlen l.
Proof. unfold zlen. lia. Qed.

Lemma zlist_eq (l k : list A) :
  zlen l = zlen k -> (forall i, 0 <= i < zlen l -> zget l i = zget k i) -> l = k.
Proof.
  unfold zlen, zget. intros Hlen Hget. apply list_eq_same_length with (n := length k); [lia|lia|].
  intros i x y Hi Hx Hy. specialize (Hget (Z.of_nat i)).
  rewrite Nat2Z.id in Hget. rewrite !list_lookup_total_alt, Hx, Hy in Hget.
  simpl in Hget. apply Hget. apply lookup_lt_Some in Hx. lia.
Qed.

Lemma zset_id (l : list A) i : zset l i (zget l i) = l.
Proof.
  unfold zset, zget. apply list_eq. intros k.
  destruct (decide (k = Z.to_nat i)) as [->|]; [|by rewrite list_lookup_insert_ne].
  destruct (l !! Z.to_nat i) eqn:Hl.
  - rewrite list_lookup_insert_eq by (by eapply lookup_lt_Some). by rewrite (list_lookup_total_correct _ _ _ Hl).
  - rewrite list_lookup_insert_None. tauto.
Qed.

Lemma zlen_cons (a : A) l : zlen (a :: l) = 1 + zlen l.
Proof. unfold zlen. simpl. lia. Qed.

(** What stands in the middle of a concatenation. *)
Lemma zget_mid (pre rest : list A) x k : zlen pre = k -> zget (pre ++ x :: rest) k = x.
Proof. intros <-. rewrite <-(Z.add_0_r (zlen pre)), zget_app_r by lia. done. Qed.

Lemma zslice_mid (pre v rest : list A) k n :
  zlen pre = k -> zlen v = n -> zslice k n (pre ++ v ++ rest) = v.
Proof.
  intros <- <-. rewrite <-(Z.add_0_r (zlen pre)), zslice_app_r by lia. by apply zslice_app_l.
Qed.

Lemma zslice_prefix l off n len :
  0 <= off -> off + n <= len -> zslice off n (zslice 0 len l) = zslice off n l.
Proof.
  intros. unfold zslice. change (Z.to_nat 0) with O. rewrite drop_0, skipn_firstn_comm, take_take.
  f_equal. lia.
Qed.

(** Two buffers that agree as far as [len]. *)
Lemma same_prefix_get (m m' : list A) len i :
  zslice 0 len m = zslice 0 len m' -> 0 <= i < len -> zget m i = zget m' i.
Proof.
  intros H Hi. rewrite <-(Z.add_0_l i), <-(zget_zslice 0 len m), <-(zget_zslice 0 len m') by lia. by rewrite H.
Qed.

Lemma same_prefix_slice (m m' : list A) len off n :
  zslice 0 len m = zslice 0 len m' -> 0 <= off -> off + n <= len -> zslice off n m = zslice off n m'.
Proof. intros H Ho Hn. by rewrite <-(zslice_prefix m off n len), <-(zslice_prefix m' off n len), H by done. Qed.
End arrays.

(** ** Loops *)

Lemma for_up_ind {S} (P : Z -> S -> Prop) body n i s :
  P i s ->
  (forall k t, i <= k < i + Z.of_nat n -> P k t -> P (k + 1) (body k t)) ->
  P (i + Z.of_nat n) (for_up n i body s).
Proof.
  revert i s. induction n as [|n IH]; intros i s H0 Hstep; simpl.
  - by rewrite Z.add_0_r.
  - replace (i + Z.of_nat (Datatypes.S n)) with ((i + 1) + Z.of_nat n) by lia.
    apply IH.
    + apply Hstep; [lia|done].
    + intros. apply Hstep; [lia|done].
Qed.

Lemma for_up_ext {S} (f g : Z -> S -> S) n i s :
  (forall k t, i <= k < i + Z.of_nat n -> f k t = g k t) -> for_up n i f s = for_up n i g s.
Proof.
  revert i s. induction n as [|n IH]; intros i s H; simpl; [done|].
  rewrite H by lia. apply IH. intros. apply H. lia.
Qed.

Lemma find_up_Some n i p k :
  find_up n i p = Some k ->
  i <= k < i + Z.of_nat n /\ p k = true /\ (forall j, i <= j < k -> p j = false).
Proof.
  revert i. induction n as [|n IH]; intros i; simpl; [done|].
  destruct (p i) eqn:Hp.
  - intros [= <-]. split_and!; [lia|lia|done|]. intros. lia.
  - intros (? & ? & Hmin)%IH. split_and!; [lia|lia|done|].
    intros j Hj. destruct (decide (j = i)) as [->|]; [done|]. apply Hmin. lia.
Qed.

Lemma find_up_None n i p :
  find_up n i p = None <-> (forall j, i <= j < i + Z.of_nat n -> p j = false).
Proof.
  revert i. induction n as [|n IH]; intros i; simpl.
  - split; [|done]. intros. lia.
  - destruct (p i) eqn:Hp.
    + split; [done|]. intros H. rewrite H in Hp; [done|lia].
    + rewrite IH. split; intros H j Hj.
      * destruct (decide (j = i)) as [->|]; [done|]. apply H. lia.
      * apply H. lia.
Qed.

Lemma find_up_first n i p k :
  i <= k < i + Z.of_nat n -> p k = true -> (forall j, i <= j < k -> p j = false) ->
  find_up n i p = Some k.
Proof.
  revert i. induction n as [|n IH]; intros i Hk Hp Hmin; simpl; [lia|].
  destruct (decide (i = k)) as [->|].
  - by rewrite Hp.
  - rewrite Hmin by lia. apply IH; [lia|done|]. intros. apply Hmin. lia.
Qed.

Lemma find_up_ext n i p q :
  (forall j, i <= j < i + Z.of_nat n -> p j = q j) -> find_up n i p = find_up n i q.
Proof.
  revert i. induction n as [|n IH]; intros i H; simpl; [done|].
  rewrite H by lia. destruct (q i); [done|]. apply IH. intros. apply H. lia.
Qed.

Lemma find_down_Some n i p k :
  find_down n i p = Some k ->
  i - Z.of_nat n <= k < i /\ p k = true /\ (forall j, k < j < i -> p j = false).
Proof.
  revert i. induction n as [|n IH]; intros i; simpl; [done|].
  destruct (p (i - 1)) eqn:Hp.
  - intros [= <-]. split_and!; [lia|lia|done|]. intros. lia.
  - intros (? & ? & Hmin)%IH. split_and!; [lia|lia|done|].
    intros j Hj. destruct (decide (j = i - 1)) as [->|]; [done|]. apply Hmin. lia.
Qed.

Lemma find_down_None n i p :
  find_down n i p = None <-> (forall j, i - Z.of_nat n <= j < i -> p j = false).
Proof.
  revert i. induction n as [|n IH]; intros i; simpl.
  - split; [|done]. intros. lia.
  - destruct (p (i - 1)) eqn:Hp.
    + split; [done|]. intros H. rewrite H in Hp; [done|lia].
    + rewrite IH. split; intros H j Hj.
      * destruct (decide (j = i - 1)) as [->|]; [done|]. apply H. lia.
      * apply H. lia.
Qed.

Lemma find_down_first n i p k :
  i - Z.of_nat n <= k < i -> p k = true -> (forall j, k < j < i -> p j = false) ->
  find_down n i p = Some k.
Proof.
  revert i. induction n as [|n IH]; intros i Hk Hp Hmin; simpl; [lia|].
  destruct (decide (i - 1 = k)) as [->|].
  - by rewrite Hp.
  - rewrite Hmin by lia. apply IH; [lia|done|]. intros. apply Hmin. lia.
Qed.

Lemma count_up_ext n i p q :
  (forall j, i <= j < i + Z.of_nat n -> p j = q j) -> count_up n i p = count_up n i q.
Proof.
  revert i. induction n as [|n IH]; intros i H; simpl; [done|].
  rewrite H by lia. f_equal. apply IH. intros. apply H. lia.
Qed.

Lemma count_up_app n m i p :
  count_up (n + m) i p = count_up n i p + count_up m (i + Z.of_nat n) p.
Proof.
  revert i. induction n as [|n IH]; intros i; cbn [count_up Nat.add].
  - by rewrite Z.add_0_r.
  - rewrite IH. replace (i + Z.of_nat (S n)) with (i + 1 + Z.of_nat n) by lia. lia.
Qed.

Lemma count_up_S n i p :
  count_up (S n) i p = count_up n i p + (if p (i + Z.of_nat n) then 1 else 0).
Proof.
  replace (S n) with (n + 1)%nat by lia. rewrite count_up_app. cbn [count_up]. lia.
Qed.

Lemma count_up_range n i p : 0 <= count_up n i p <= Z.of_nat n.
Proof.
  revert i. induction n as [|n IH]; intros i; simpl; [lia|].
  specialize (IH (i + 1)). destruct (p i); lia.
Qed.

(** Changing the predicate at one index of the range moves the count by the
    difference. *)
Lemma count_up_update n i p q k :
  i <= k < i + Z.of_nat n ->
  (forall j, i <= j < i + Z.of_nat n -> j <> k -> p j = q j) ->
  count_up n i p = count_up n i q + (if p k then 1 else 0) - (if q k then 1 else 0).
Proof.
  revert i. induction n as [|n IH]; intros i Hk Hext; simpl; [lia|].
  destruct (decide (i = k)) as [->|].
  - rewrite (count_up_ext n (k + 1) p q); [lia|]. intros. apply Hext; lia.
  - rewrite (Hext i) by lia. rewrite (IH (i + 1)); [lia|lia|]. intros. apply Hext; lia.
Qed.

Lemma count_up_true n i p :
  (forall j, i <= j < i + Z.of_nat n -> p j = true) -> count_up n i p = Z.of_nat n.
Proof.
  revert i. induction n as [|n IH]; intros i H; simpl; [done|].
  rewrite H by lia. rewrite IH; [lia|]. intros. apply H. lia.
Qed.

Lemma count_up_lt n i p k :
  i <= k < i + Z.of_nat n -> p k = false -> count_up n i p < Z.of_nat n.
Proof.
  intros Hk Hp. pose proof (count_up_update n i (fun j => if j =? k then true else p j) p k Hk) as H.
  cbv beta in H. rewrite Z.eqb_refl, Hp in H.
  pose proof (count_up_range n i (fun j => if j =? k then true else p j)).
  assert (forall j, i <= j < i + Z.of_nat n -> j <> k ->
    (if j =? k then true else p j) = p j) as Hext.
  { intros j _ Hj. by destruct (Z.eqb_spec j k). }
  specialize (H Hext). lia.
Qed.

Lemma sum_up_ext n i f g :
  (forall j, i <= j < i + Z.of_nat n -> f j = g j) -> sum_up n i f = sum_up n i g.
Proof.
  revert i. induction n as [|n IH]; intros i H; simpl; [done|].
  rewrite H by lia. f_equal. apply IH. intros. apply H. lia.
Qed.

Lemma sum_up_le n i f g :
  (forall j, i <= j < i + Z.of_nat n -> f j <= g j) -> sum_up n i f <= sum_up n i g.
Proof.
  revert i. induction n as [|n IH]; intros i H; simpl; [lia|].
  pose proof (H i ltac:(lia)). apply Z.add_le_mono; [done|]. apply IH. intros. apply H. lia.
Qed.

Lemma sum_up_const n i c : sum_up n i (fun _ => c) = Z.of_nat n * c.
Proof.
  revert i. induction n as [|n IH]; intros i; [done|]. cbn [sum_up]. rewrite IH. lia.
Qed.

(** Changing the summand at one index moves the sum by the difference. *)
Lemma sum_up_update n i f g k :
  i <= k < i + Z.of_nat n ->
  (forall j, i <= j < i + Z.of_nat n -> j <> k -> f j = g j) ->
  sum_up n i f = sum_up n i g + f k - g k.
Proof.
  revert i. induction n as [|n IH]; intros i Hk Hext; simpl; [lia|].
  destruct (decide (i = k)) as [->|].
  - rewrite (sum_up_ext n (k + 1) f g); [lia|]. intros. apply Hext; lia.
  - rewrite (Hext i) by lia. rewrite (IH (i + 1)); [lia|lia|]. intros. apply Hext; lia.
Qed.

Lemma fold_opt_app {A S} (f : S -> A -> option S) s l k :
  fold_opt f s (l ++ k) =
    match fold_opt f s l with Some s' => fold_opt f s' k | None => None end.
Proof.
  revert s. induction l as [|a l IH]; intros s; simpl; [done|].
  destruct (f s a); [apply IH|done].
Qed.

(** The invariant rule of an early-exit loop. *)
Lemma fold_opt_ind {A S} (P : list A -> S -> Prop) (f : S -> A -> option S) l s s' :
  P [] s ->
  (forall done a t t', P done t -> (exists rest, l = done ++ a :: rest) ->
     f t a = Some t' -> P (done ++ [a]) t') ->
  fold_opt f s l = Some s' -> P l s'.
Proof.
  intros H0 Hstep.
  assert (forall d r t, l = d ++ r -> P d t -> fold_opt f t r = Some s' -> P l s') as Hgen.
  { intros d r. revert d. induction r as [|a r IH]; intros d t -> Hd Hf; simpl in Hf.
    - rewrite app_nil_r. congruence.
    - destruct (f t a) as [t'|] eqn:Hfa; [|done].
      apply (IH (d ++ [a]) t'); [by rewrite <-app_assoc| |done].
      eapply Hstep; [exact Hd| |done]. eauto. }
  intros. eapply (Hgen [] l); done.
Qed.

(** Two fields side by side in a word. *)
Lemma lor_shiftl_add a b n : 0 <= n -> 0 <= b < 2 ^ n -> Z.lor (Z.shiftl a n) b = a * 2 ^ n + b.
Proof.
  intros Hn Hb. rewrite <-Z.shiftl_mul_pow2 by done.
  assert (Z.land (Z.shiftl a n) b = 0) as H0.
  { apply Z.bits_inj'. intros i Hi. rewrite Z.land_spec, Z.bits_0.
    destruct (decide (i < n)); [by rewrite Z.shiftl_spec_low|].
    assert (Z.testbit b i = false) as ->; [|by rewrite andb_false_r].
    destruct (decide (b = 0)) as [->|]; [apply Z.bits_0|].
    apply Z.bits_above_log2; [lia|]. apply Z.log2_lt_pow2; [lia|].
    apply Z.lt_le_trans with (2 ^ n); [lia|]. apply Z.pow_le_mono_r; lia. }
  rewrite <-Z.lxor_lor by done. symmetry. by apply Z.add_nocarry_lxor.
Qed.

Lemma lor_mul_add a b n : 0 <= n -> 0 <= b < 2 ^ n -> Z.lor (a * 2 ^ n) b = a * 2 ^ n + b.
Proof. intros. rewrite <-Z.shiftl_mul_pow2 by done. rewrite lor_shiftl_add by done. by rewrite Z.shiftl_mul_pow2. Qed.

(** A field of a word under its mask. *)
Lemma land_field v k n :
  0 <= k -> 0 <= n -> Z.land v (Z.shiftl (Z.ones n) k) = v / 2 ^ k mod 2 ^ n * 2 ^ k.
Proof.
  intros Hk Hn. rewrite <-Z.shiftl_mul_pow2, <-Z.land_ones, <-Z.shiftr_div_pow2 by done.
  apply Z.bits_inj'. intros i Hi. rewrite Z.land_spec. destruct (decide (i < k)).
  - rewrite !Z.shiftl_spec_low by done. apply andb_false_r.
  - rewrite !Z.shiftl_spec_high, Z.land_spec, Z.shiftr_spec by lia. by rewrite Z.sub_add.
Qed.

Lemma land_low v n : 0 <= n -> Z.land v (Z.ones n) = v mod 2 ^ n.
Proof. apply Z.land_ones. Qed.

Lemma pair_fst {A B} (x : A * B) a : fst x = a -> x = (a, snd x).
Proof. destruct x. simpl. by intros ->. Qed.

Create HintDb novaris.
Create Rewrite HintDb novaris.
#[export] Hint Resolve u64_range u32_range u16_range u8_range : novaris.
#[export] Hint Rewrite @zlen_zset : novaris.
