(* ===== verification/FrameAlloc.v ===== *)
(** * What the frame allocator promises to the rest of the kernel

    The page tables ([Paging64]) and the address spaces ([Vmspace64]) call the
    frame allocator through the functions of [include/pmm64.h] and rely on
    its contract, not on its bitmap.  [FrameAllocator] is that contract: the
    operations and, through the abstract number of owners of each frame,
    what each of them does.  [Pmm64] discharges it for the real allocator. *)

From S2P Require Import Prelude.

(** The outcome [(r, a')] of an allocation from [a]: a frame that had no owner
    and has one now, or 0 and no frame but frame 0 changed hands.  (Frame 0
    is in the first megabyte, which initialisation reserves; its address is
    the failure value.)  [fa_limit] is the number of frames there are. *)
Definition alloc_outcome {A} (ok : A -> Prop) (own : A -> Z -> Z)
    (a : A) (r : Z) (a' : A) : Prop :=
  ok a' /\
  ((exists f, 0 < f < 2 ^ 30 /\ r = f * 4096 /\ own a f = 0 /\
      forall g, own a' g = if g =? f then 1 else own a g) \/
   (r = 0 /\ forall g, g <> 0 -> own a' g = own a g)).

Class FrameAllocator (A : Type) := {
  fa_ok : A -> Prop;
  fa_owners : A -> Z -> Z;
  fa_ram : A -> Z -> bool;
  fa_limit : A -> Z;

  alloc_frame : A -> Z * A;
  alloc_high : A -> Z * A;
  alloc_user : A -> Z * A;
  free_frame : Z -> A -> A;
  ref_frame : Z -> A -> bool * A;
  frame_owners : Z -> A -> Z;
  owns_frame : Z -> A -> bool;

  fa_owners_range a f : fa_ok a -> 0 <= fa_owners a f <= 256;
  fa_owners_bound a f : fa_ok a -> 0 < fa_owners a f -> 0 <= f < 2 ^ 30;
  fa_alloc_frame a : fa_ok a ->
    alloc_outcome fa_ok fa_owners a (alloc_frame a).1 (alloc_frame a).2 /\
    fa_ram (alloc_frame a).2 = fa_ram a;
  fa_alloc_high a : fa_ok a ->
    alloc_outcome fa_ok fa_owners a (alloc_high a).1 (alloc_high a).2 /\
    fa_ram (alloc_high a).2 = fa_ram a;
  fa_alloc_user a : fa_ok a ->
    alloc_outcome fa_ok fa_owners a (alloc_user a).1 (alloc_user a).2 /\
    fa_ram (alloc_user a).2 = fa_ram a;
  fa_free_frame a p : fa_ok a -> 0 <= p ->
    fa_ok (free_frame p a) /\ fa_ram (free_frame p a) = fa_ram a /\
    forall g, fa_owners (free_frame p a) g =
      if g =? p / 4096 then Z.max 0 (fa_owners a g - 1) else fa_owners a g;
  fa_ref_frame a p : fa_ok a -> 0 <= p ->
    fa_ok (ref_frame p a).2 /\ fa_ram (ref_frame p a).2 = fa_ram a /\
    (ref_frame p a).1
      = (0 <? fa_owners a (p / 4096)) && (fa_owners a (p / 4096) <? 256) /\
    forall g, fa_owners (ref_frame p a).2 g =
      if (ref_frame p a).1 && (g =? p / 4096) then fa_owners a g + 1 else fa_owners a g;
  fa_frame_owners a p : fa_ok a -> 0 <= p -> frame_owners p a = fa_owners a (p / 4096);
  fa_owners_limit a f : fa_ok a -> 0 < fa_owners a f -> f < fa_limit a;
  fa_limit_alloc a : fa_ok a ->
    fa_limit (alloc_frame a).2 = fa_limit a /\ fa_limit (alloc_high a).2 = fa_limit a /\ fa_limit (alloc_user a).2 = fa_limit a;
  fa_limit_free a p : fa_ok a -> 0 <= p -> fa_limit (free_frame p a) = fa_limit a;
  fa_limit_ref a p : fa_ok a -> 0 <= p -> fa_limit (ref_frame p a).2 = fa_limit a;
  fa_owns_frame a p : fa_ok a -> 0 <= p -> owns_frame p a = fa_ram a (p / 4096)
}.
