(* ===== verification/Ring.v ===== *)
(** * Circular buffers with a head and a tail

    Several components keep a queue in an array of [size] slots with a [head]
    (the next slot to fill) and a [tail] (the oldest element), empty when the
    two are equal and full one short of [size].  [ring_seq] is the queue such
    an array holds; [ring_push] and [ring_pop] are what filling the head and
    moving the tail do to it. *)

From S2P Require Import Prelude.

Section ring.
  Context {A : Type} `{!Inhabited A} (size : Z) (Hsize : 1 < size).
  Implicit Types l : list A.

Definition ring_len (h t : Z) : Z := (h - t) mod size.

Definition ring_seq (l : list A) (h t : Z) : list A :=
  (fun k => zget l ((t + k) mod size)) <$> seqZ 0 (ring_len h t).

Lemma ring_len_range h t : 0 <= ring_len h t < size.
Proof using Hsize. apply Z.mod_pos_bound. lia. Qed.

Lemma ring_len_cases h t :
  0 <= h < size -> 0 <= t < size ->
  ring_len h t = if t <=? h then h - t else h - t + size.
Proof using Hsize.
  intros Hh Ht. unfold ring_len. destruct (Z.leb_spec t h); [apply Z.mod_small; lia|].
  rewrite <-(Z.mod_add (h - t) 1 size) by lia. rewrite Z.mod_small; lia.
Qed.

Lemma ring_seq_len l h t : zlen (ring_seq l h t) = ring_len h t.
Proof using Hsize.
  unfold ring_seq, zlen. rewrite length_fmap, length_seqZ. pose proof (ring_len_range h t). lia.
Qed.

Lemma ring_empty l t : ring_seq l t t = [].
Proof using Hsize. unfold ring_seq, ring_len. rewrite Z.sub_diag, Z.mod_0_l by lia. done. Qed.

Lemma ring_step h t :
  0 <= h < size -> 0 <= t < size -> (h + 1) mod size <> t ->
  ring_len ((h + 1) mod size) t = ring_len h t + 1 /\ ring_len h t < size - 1.
Proof using Hsize.
  intros Hh Ht Hne. pose proof (Z.mod_pos_bound (h + 1) size ltac:(lia)) as Hm.
  rewrite !ring_len_cases by done. destruct (decide (h + 1 = size)) as [E|].
  - rewrite E, Z.mod_same in * by lia.
    destruct (Z.leb_spec t 0), (Z.leb_spec t h); lia.
  - rewrite Z.mod_small in * by lia. destruct (Z.leb_spec t (h + 1)), (Z.leb_spec t h); lia.
Qed.

(** Full: one slot short of the array. *)
Lemma ring_full h t : 0 <= h < size -> (h + 1) mod size = t -> ring_len h t = size - 1.
Proof using Hsize.
  intros Hh Hf. pose proof (Z.mod_pos_bound (h + 1) size ltac:(lia)) as Hm.
  rewrite ring_len_cases by lia. destruct (decide (h + 1 = size)) as [E|].
  - rewrite E, Z.mod_same in Hf by lia. destruct (Z.leb_spec t h); lia.
  - rewrite Z.mod_small in Hf by lia. destruct (Z.leb_spec t h); lia.
Qed.

Lemma ring_push l h t v :
  zlen l = size -> 0 <= h < size -> 0 <= t < size -> (h + 1) mod size <> t ->
  ring_seq (zset l h v) ((h + 1) mod size) t = ring_seq l h t ++ [v].
Proof using Hsize.
  intros Hl Hh Ht Hne. destruct (ring_step h t Hh Ht Hne) as [Hs Hlt].
  pose proof (ring_len_range h t) as Hr. unfold ring_seq. rewrite Hs.
  replace (ring_len h t + 1) with (Z.of_nat (S (Z.to_nat (ring_len h t)))) by lia.
  rewrite seqZ_S, Z2Nat.id, fmap_app by lia. rewrite ring_len_cases in * by done.
  assert (forall k, 0 <= k -> (if t <=? h then h - t else h - t + size) = k -> (t + k) mod size = h) as Hk.
  { intros k Hk <-. destruct (Z.leb_spec t h); [rewrite Z.mod_small; lia|].
    replace (t + (h - t + size)) with (h + 1 * size) by lia. rewrite Z.mod_add by lia. by apply Z.mod_small. }
  f_equal.
  - apply list_fmap_ext. intros j i Hi. apply lookup_seqZ in Hi as [-> Hi].
    rewrite zget_zset_ne; [done|lia|apply Z.mod_pos_bound; lia|]. rewrite Z.add_0_l. intros Heq.
    pose proof (Z.div_mod (t + Z.of_nat j) size ltac:(lia)) as Hdm.
    assert (0 <= (t + Z.of_nat j) / size) by (apply Z.div_pos; lia).
    assert ((t + Z.of_nat j) / size < 2) by (apply Z.div_lt_upper_bound; destruct (Z.leb_spec t h); lia).
    assert ((t + Z.of_nat j) / size = 0 \/ (t + Z.of_nat j) / size = 1) as [E|E] by lia;
      rewrite E in Hdm; destruct (Z.leb_spec t h); lia.
  - simpl. f_equal. rewrite Z.add_0_l, (Hk (if t <=? h then h - t else h - t + size)) by (lia || done). apply zget_zset_eq. lia.
Qed.

Lemma ring_pop l h t :
  0 <= h < size -> 0 <= t < size -> t <> h ->
  ring_seq l h t = zget l t :: ring_seq l h ((t + 1) mod size) /\
  ring_len h ((t + 1) mod size) = ring_len h t - 1.
Proof using Hsize.
  intros Hh Ht Hne. pose proof (Z.mod_pos_bound (t + 1) size ltac:(lia)) as Hm.
  assert (ring_len h ((t + 1) mod size) = ring_len h t - 1) as Hl.
  { rewrite !ring_len_cases by done. destruct (decide (t + 1 = size)) as [E|].
    - rewrite E, Z.mod_same by lia. destruct (Z.leb_spec 0 h), (Z.leb_spec t h); lia.
    - rewrite Z.mod_small by lia. destruct (Z.leb_spec (t + 1) h), (Z.leb_spec t h); lia. }
  split; [|done]. unfold ring_seq. rewrite Hl. pose proof (ring_len_range h ((t + 1) mod size)).
  rewrite (seqZ_cons 0 (ring_len h t)) by lia. simpl. rewrite Z.add_0_r, (Z.mod_small t) by lia. f_equal.
  change (Z.succ 0) with 1. replace (Z.pred (ring_len h t)) with (ring_len h t - 1) by lia.
  rewrite <-(fmap_add_seqZ 1 0), <-list_fmap_compose. apply list_fmap_ext.
  intros _ i _. simpl. rewrite Zplus_mod_idemp_l. do 2 f_equal. lia.
Qed.
End ring.
