(* ===== verification/Pmm64.v ===== *)
(** * The physical frame allocator of the 64-bit kernel ([kernel/pmm64.c])

    [pmm] is the file's static state: the allocation bitmap, the table of
    extra owners and the RAM bitmap as byte arrays ([None] is a null
    pointer), the scan hints, the running count of used frames.  Each
    function of the file is a function on that state.  What the kernel reads
    from memory that the bootloader wrote (the memory map, the module list)
    is the argument [boot].  The serial lines that [watch_report] prints are
    output only and are not part of the state.

    The abstract view of the allocator is [owners s f], the number of owners
    of frame [f]; [FrameAllocator] states what the rest of the kernel relies
    on, and [pmm64_frame_allocator] discharges it. *)

From S2P Require Import Prelude FrameAlloc.

Definition PMM64_FRAME_SIZE : Z := 4096.
Definition PMM64_USER_RESERVE : Z := 2048.
Definition BOOT_WINDOW_BYTES : Z := 0x40000000.
Definition REF_MAX : Z := 255.
Definition MULTIBOOT_INFO_MODS : Z := 8.
Definition MULTIBOOT_INFO_MMAP : Z := 64.
Definition MULTIBOOT_MEMORY_AVAILABLE : Z := 1.

(** ** What the bootloader left in memory *)

Record multiboot_mmap_entry := {
  e_size : Z; e_addr : Z; e_len : Z; e_type : Z
}.

Record multiboot_module := { mod_start : Z; mod_end : Z }.

Record multiboot_info := {
  mb_flags : Z; mem_lower : Z; mem_upper : Z;
  mods_count : Z; mods_addr : Z;
  mmap_length : Z; mmap_addr : Z
}.

(** The reads through physical addresses below 4GB: a map entry, a module.
    They are functions of the address alone, so both passes over the map read
    the same entries: the allocator's own tables, which are cleared between
    the passes, are taken not to lie over the memory map (they are placed
    above the kernel image and the modules; nothing keeps them off the map). *)
Record boot_memory := {
  read_entry : Z -> multiboot_mmap_entry;
  read_module : Z -> multiboot_module
}.

(** ** State *)

Record pmm := mkPmm {
  bitmap : list Z;
  bitmap_phys_addr : Z;
  bitmap_size_bytes : Z;
  frame_count : Z;
  refs : option (list Z);
  refs_phys_addr : Z;
  refs_size_bytes : Z;
  ram : option (list Z);
  ram_phys_addr : Z;
  ram_size_bytes : Z;
  highest_addr : Z;
  double_frees : Z;
  alloc_hint : Z;
  high_hint : Z;
  ready : bool;
  used_count : Z;
  user_oom : bool;
  watch_phys : Z
}.

Definition set_bitmap (v : list Z) (s : pmm) : pmm :=
  mkPmm v (bitmap_phys_addr s) (bitmap_size_bytes s) (frame_count s) (refs s) (refs_phys_addr s) (refs_size_bytes s) (ram s) (ram_phys_addr s) (ram_size_bytes s) (highest_addr s) (double_frees s) (alloc_hint s) (high_hint s) (ready s) (used_count s) (user_oom s) (watch_phys s).
Definition set_bitmap_phys_addr (v : Z) (s : pmm) : pmm :=
  mkPmm (bitmap s) v (bitmap_size_bytes s) (frame_count s) (refs s) (refs_phys_addr s) (refs_size_bytes s) (ram s) (ram_phys_addr s) (ram_size_bytes s) (highest_addr s) (double_frees s) (alloc_hint s) (high_hint s) (ready s) (used_count s) (user_oom s) (watch_phys s).
Definition set_bitmap_size_bytes (v : Z) (s : pmm) : pmm :=
  mkPmm (bitmap s) (bitmap_phys_addr s) v (frame_count s) (refs s) (refs_phys_addr s) (refs_size_bytes s) (ram s) (ram_phys_addr s) (ram_size_bytes s) (highest_addr s) (double_frees s) (alloc_hint s) (high_hint s) (ready s) (used_count s) (user_oom s) (watch_phys s).
Definition set_frame_count (v : Z) (s : pmm) : pmm :=
  mkPmm (bitmap s) (bitmap_phys_addr s) (bitmap_size_bytes s) v (refs s) (refs_phys_addr s) (refs_size_bytes s) (ram s) (ram_phys_addr s) (ram_size_bytes s) (highest_addr s) (double_frees s) (alloc_hint s) (high_hint s) (ready s) (used_count s) (user_oom s) (watch_phys s).
Definition set_refs (v : option (list Z)) (s : pmm) : pmm :=
  mkPmm (bitmap s) (bitmap_phys_addr s) (bitmap_size_bytes s) (frame_count s) v (refs_phys_addr s) (refs_size_bytes s) (ram s) (ram_phys_addr s) (ram_size_bytes s) (highest_addr s) (double_frees s) (alloc_hint s) (high_hint s) (ready s) (used_count s) (user_oom s) (watch_phys s).
Definition set_refs_phys_addr (v : Z) (s : pmm) : pmm :=
  mkPmm (bitmap s) (bitmap_phys_addr s) (bitmap_size_bytes s) (frame_count s) (refs s) v (refs_size_bytes s) (ram s) (ram_phys_addr s) (ram_size_bytes s) (highest_addr s) (double_frees s) (alloc_hint s) (high_hint s) (ready s) (used_count s) (user_oom s) (watch_phys s).
Definition set_refs_size_bytes (v : Z) (s : pmm) : pmm :=
  mkPmm (bitmap s) (bitmap_phys_addr s) (bitmap_size_bytes s) (frame_count s) (refs s) (refs_phys_addr s) v (ram s) (ram_phys_addr s) (ram_size_bytes s) (highest_addr s) (double_frees s) (alloc_hint s) (high_hint s) (ready s) (used_count s) (user_oom s) (watch_phys s).
Definition set_ram (v : option (list Z)) (s : pmm) : pmm :=
  mkPmm (bitmap s) (bitmap_phys_addr s) (bitmap_size_bytes s) (frame_count s) (refs s) (refs_phys_addr s) (refs_size_bytes s) v (ram_phys_addr s) (ram_size_bytes s) (highest_addr s) (double_frees s) (alloc_hint s) (high_hint s) (ready s) (used_count s) (user_oom s) (watch_phys s).
Definition set_ram_phys_addr (v : Z) (s : pmm) : pmm :=
  mkPmm (bitmap s) (bitmap_phys_addr s) (bitmap_size_bytes s) (frame_count s) (refs s) (refs_phys_addr s) (refs_size_bytes s) (ram s) v (ram_size_bytes s) (highest_addr s) (double_frees s) (alloc_hint s) (high_hint s) (ready s) (used_count s) (user_oom s) (watch_phys s).
Definition set_ram_size_bytes (v : Z) (s : pmm) : pmm :=
  mkPmm (bitmap s) (bitmap_phys_addr s) (bitmap_size_bytes s) (frame_count s) (refs s) (refs_phys_addr s) (refs_size_bytes s) (ram s) (ram_phys_addr s) v (highest_addr s) (double_frees s) (alloc_hint s) (high_hint s) (ready s) (used_count s) (user_oom s) (watch_phys s).
Definition set_highest_addr (v : Z) (s : pmm) : pmm :=
  mkPmm (bitmap s) (bitmap_phys_addr s) (bitmap_size_bytes s) (frame_count s) (refs s) (refs_phys_addr s) (refs_size_bytes s) (ram s) (ram_phys_addr s) (ram_size_bytes s) v (double_frees s) (alloc_hint s) (high_hint s) (ready s) (used_count s) (user_oom s) (watch_phys s).
Definition set_double_frees (v : Z) (s : pmm) : pmm :=
  mkPmm (bitmap s) (bitmap_phys_addr s) (bitmap_size_bytes s) (frame_count s) (refs s) (refs_phys_addr s) (refs_size_bytes s) (ram s) (ram_phys_addr s) (ram_size_bytes s) (highest_addr s) v (alloc_hint s) (high_hint s) (ready s) (used_count s) (user_oom s) (watch_phys s).
Definition set_alloc_hint (v : Z) (s : pmm) : pmm :=
  mkPmm (bitmap s) (bitmap_phys_addr s) (bitmap_size_bytes s) (frame_count s) (refs s) (refs_phys_addr s) (refs_size_bytes s) (ram s) (ram_phys_addr s) (ram_size_bytes s) (highest_addr s) (double_frees s) v (high_hint s) (ready s) (used_count s) (user_oom s) (watch_phys s).
Definition set_high_hint (v : Z) (s : pmm) : pmm :=
  mkPmm (bitmap s) (bitmap_phys_addr s) (bitmap_size_bytes s) (frame_count s) (refs s) (refs_phys_addr s) (refs_size_bytes s) (ram s) (ram_phys_addr s) (ram_size_bytes s) (highest_addr s) (double_frees s) (alloc_hint s) v (ready s) (used_count s) (user_oom s) (watch_phys s).
Definition set_ready (v : bool) (s : pmm) : pmm :=
  mkPmm (bitmap s) (bitmap_phys_addr s) (bitmap_size_bytes s) (frame_count s) (refs s) (refs_phys_addr s) (refs_size_bytes s) (ram s) (ram_phys_addr s) (ram_size_bytes s) (highest_addr s) (double_frees s) (alloc_hint s) (high_hint s) v (used_count s) (user_oom s) (watch_phys s).
Definition set_used_count (v : Z) (s : pmm) : pmm :=
  mkPmm (bitmap s) (bitmap_phys_addr s) (bitmap_size_bytes s) (frame_count s) (refs s) (refs_phys_addr s) (refs_size_bytes s) (ram s) (ram_phys_addr s) (ram_size_bytes s) (highest_addr s) (double_frees s) (alloc_hint s) (high_hint s) (ready s) v (user_oom s) (watch_phys s).
Definition set_user_oom (v : bool) (s : pmm) : pmm :=
  mkPmm (bitmap s) (bitmap_phys_addr s) (bitmap_size_bytes s) (frame_count s) (refs s) (refs_phys_addr s) (refs_size_bytes s) (ram s) (ram_phys_addr s) (ram_size_bytes s) (highest_addr s) (double_frees s) (alloc_hint s) (high_hint s) (ready s) (used_count s) v (watch_phys s).
Definition set_watch_phys (v : Z) (s : pmm) : pmm :=
  mkPmm (bitmap s) (bitmap_phys_addr s) (bitmap_size_bytes s) (frame_count s) (refs s) (refs_phys_addr s) (refs_size_bytes s) (ram s) (ram_phys_addr s) (ram_size_bytes s) (highest_addr s) (double_frees s) (alloc_hint s) (high_hint s) (ready s) (used_count s) (user_oom s) v.
(** ** Bitmap *)

Definition bit_mask (bit : Z) : Z := u8 (Z.shiftl 1 (Z.land bit 7)).

Definition bitmap_test (s : pmm) (bit : Z) : Z :=
  Z.land (zget (bitmap s) (Z.shiftr bit 3)) (bit_mask bit).

Definition bitmap_set (bit : Z) (s : pmm) : pmm :=
  let m := bit_mask bit in
  let b := zget (bitmap s) (Z.shiftr bit 3) in
  let s := if negb (nz (Z.land b m)) && (bit <? frame_count s)
           then set_used_count (u64 (used_count s + 1)) s else s in
  set_bitmap (zset (bitmap s) (Z.shiftr bit 3) (Z.lor b m)) s.

Definition bitmap_clear (bit : Z) (s : pmm) : pmm :=
  let m := bit_mask bit in
  let b := zget (bitmap s) (Z.shiftr bit 3) in
  let s := if nz (Z.land b m) && (bit <? frame_count s)
           then set_used_count (u64 (used_count s - 1)) s else s in
  set_bitmap (zset (bitmap s) (Z.shiftr bit 3) (Z.land b (u8 (Z.lnot m)))) s.

(** The loop leaves at the first frame past [frame_count], so it runs over
    [count] frames or over those that remain, whichever is fewer. *)
Definition mark_range (start_frame count : Z) (used : bool) (s : pmm) : pmm :=
  for_up (Z.to_nat (Z.min count (frame_count s - start_frame))) start_frame
    (fun f s => if used then bitmap_set f s else bitmap_clear f s) s.

(** ** The Multiboot memory map *)

Fixpoint mmap_walk {S} (fuel : nat) (boot : boot_memory) (addr end_ : Z)
    (fn : Z -> Z -> S -> S) (s : S) : option S :=
  if addr <? end_ then
    match fuel with
    | O => None
    | Datatypes.S fuel' =>
        let e := read_entry boot addr in
        let s := if (e_type e =? MULTIBOOT_MEMORY_AVAILABLE) && (0 <? e_len e)
                 then fn (e_addr e) (u64 (e_addr e + e_len e)) s else s in
        mmap_walk fuel' boot (u64 (addr + (e_size e + 4))) end_ fn s
    end
  else Some s.

Definition for_each_available {S} (boot : boot_memory) (mbi : multiboot_info)
    (fn : Z -> Z -> S -> S) (s : S) : option S :=
  if negb (nz (Z.land (mb_flags mbi) MULTIBOOT_INFO_MMAP)) then
    let s := fn 0 (mem_lower mbi * 1024) s in
    Some (fn 0x100000 (0x100000 + mem_upper mbi * 1024) s)
  else
    mmap_walk (Z.to_nat (mmap_length mbi)) boot (mmap_addr mbi)
      (mmap_addr mbi + mmap_length mbi) fn s.

Definition note_highest (start end_ : Z) (s : pmm) : pmm :=
  if highest_addr s <? end_ then set_highest_addr end_ s else s.

Definition free_region (start end_ : Z) (s : pmm) : pmm :=
  let sf := start / PMM64_FRAME_SIZE in
  let ef := end_ / PMM64_FRAME_SIZE in
  let s := if sf <? ef then mark_range sf (ef - sf) false s else s in
  match ram s with
  | None => s
  | Some r =>
      set_ram (Some (for_up (Z.to_nat (Z.min ef (frame_count s) - sf)) sf
        (fun f r => zset r (Z.shiftr f 3)
           (Z.lor (zget r (Z.shiftr f 3)) (bit_mask f))) r)) s
  end.

Definition pmm64_reserve_region (start_addr end_addr : Z) (s : pmm) : pmm :=
  let sf := start_addr / PMM64_FRAME_SIZE in
  let ef := u64 (end_addr + PMM64_FRAME_SIZE - 1) / PMM64_FRAME_SIZE in
  if sf <? ef then mark_range sf (ef - sf) true s else s.

(** ** Initialisation *)

(** Above the kernel image and above every module the bootloader loaded,
    rounded up to a page. *)
Definition place_above (boot : boot_memory) (mbi : multiboot_info)
    (kernel_phys_end : Z) : Z :=
  let place :=
    if nz (Z.land (mb_flags mbi) MULTIBOOT_INFO_MODS) && nz (mods_count mbi) then
      for_up (Z.to_nat (mods_count mbi)) 0
        (fun i place =>
           let m := read_module boot (mods_addr mbi + i * 16) in
           if place <? mod_end m then mod_end m else place)
        kernel_phys_end
    else kernel_phys_end in
  and_not64 (u64 (place + PMM64_FRAME_SIZE - 1)) (PMM64_FRAME_SIZE - 1).

(** The end of [pmm64_init], once the tables are placed and every frame is
    marked used: free what the map vouches for, then take back the first
    megabyte, the kernel image and the tables themselves. *)
Definition init_claims (boot : boot_memory) (mbi : multiboot_info)
    (kernel_phys_start kernel_phys_end : Z) (s : pmm) : option pmm :=
  match for_each_available boot mbi free_region s with
  | None => None
  | Some s =>
    let s := mark_range 0 (0x100000 / PMM64_FRAME_SIZE) true s in
    let s := pmm64_reserve_region kernel_phys_start kernel_phys_end s in
    let s := pmm64_reserve_region (bitmap_phys_addr s)
               (ram_phys_addr s + ram_size_bytes s) s in
    Some (set_ready true s)
  end.

Definition pmm64_init (boot : boot_memory) (mbi : multiboot_info)
    (kernel_phys_start kernel_phys_end : Z) (s : pmm) : option pmm :=
  let s := set_ready false s in
  let s := set_highest_addr 0 s in
  let s := set_double_frees 0 s in
  let s := set_alloc_hint 0 s in
  match for_each_available boot mbi note_highest s with
  | None => None
  | Some s =>
    if highest_addr s =? 0 then Some s else
    let s := set_frame_count
               (u64 (highest_addr s + PMM64_FRAME_SIZE - 1) / PMM64_FRAME_SIZE) s in
    let s := set_bitmap_size_bytes ((frame_count s + 7) / 8) s in
    let s := set_high_hint (frame_count s) s in
    let place := place_above boot mbi kernel_phys_end in
    let s := set_refs_size_bytes (frame_count s) s in
    let s := set_ram_size_bytes ((frame_count s + 7) / 8) s in
    if BOOT_WINDOW_BYTES <?
         u64 (place + bitmap_size_bytes s + refs_size_bytes s + ram_size_bytes s) then
      Some (set_ram_phys_addr 0 (set_refs_phys_addr 0 (set_bitmap_phys_addr 0 s)))
    else
    let s := set_bitmap_phys_addr place s in
    let s := set_refs_phys_addr (place + bitmap_size_bytes s) s in
    let s := set_refs (Some (replicate (Z.to_nat (refs_size_bytes s)) 0)) s in
    let s := set_ram_phys_addr (refs_phys_addr s + refs_size_bytes s) s in
    let s := set_ram (Some (replicate (Z.to_nat (ram_size_bytes s)) 0)) s in
    let s := set_bitmap (replicate (Z.to_nat (bitmap_size_bytes s)) 0xFF) s in
    let s := set_used_count (frame_count s) s in
    init_claims boot mbi kernel_phys_start kernel_phys_end s
  end.

(** ** Allocation *)

(** The upward scan: a byte with every frame taken is passed in one test. *)
Fixpoint scan_up (fuel : nat) (s : pmm) (f stop : Z) : option Z :=
  if f <? stop then
    match fuel with
    | O => None
    | S fuel' =>
        if (Z.land f 7 =? 0) && (f + 8 <=? stop)
           && (zget (bitmap s) (Z.shiftr f 3) =? 0xFF)
        then scan_up fuel' s (f + 7 + 1) stop
        else if negb (nz (bitmap_test s f)) then Some f
        else scan_up fuel' s (f + 1) stop
    end
  else None.

(** The downward scan: [for (f = start; f-- > stop; )]. *)
Fixpoint scan_down (fuel : nat) (s : pmm) (f stop : Z) : option Z :=
  if stop <? f then
    match fuel with
    | O => None
    | S fuel' =>
        let f := f - 1 in
        if (Z.land f 7 =? 7) && (stop + 7 <=? f)
           && (zget (bitmap s) (Z.shiftr f 3) =? 0xFF)
        then scan_down fuel' s (f - 7) stop
        else if negb (nz (bitmap_test s f)) then Some f
        else scan_down fuel' s f stop
    end
  else None.

Definition pmm64_alloc_frame (s : pmm) : Z * pmm :=
  if negb (ready s) then (0, s) else
  let pass start stop := scan_up (Z.to_nat (stop - start)) s start stop in
  match (match pass (alloc_hint s) (frame_count s) with
         | Some f => Some f
         | None => pass 0 (alloc_hint s)
         end) with
  | Some f => (f * PMM64_FRAME_SIZE, set_alloc_hint (f + 1) (bitmap_set f s))
  | None => (0, s)
  end.

Definition pmm64_alloc_high (s : pmm) : Z * pmm :=
  if negb (ready s) then (0, s) else
  let s := if frame_count s <? high_hint s then set_high_hint (frame_count s) s else s in
  let pass start stop := scan_down (Z.to_nat (start - stop)) s start stop in
  match (match pass (high_hint s) 0 with
         | Some f => Some f
         | None => pass (frame_count s) (high_hint s)
         end) with
  | Some f => (f * PMM64_FRAME_SIZE, set_high_hint f (bitmap_set f s))
  | None => pmm64_alloc_frame s
  end.

Definition pmm64_free_frames (s : pmm) : Z :=
  if negb (ready s) then 0 else u64 (frame_count s - used_count s).

Definition pmm64_alloc_user (s : pmm) : Z * pmm :=
  if pmm64_free_frames s <? PMM64_USER_RESERVE then (0, set_user_oom true s) else
  let '(f, s) := pmm64_alloc_high s in
  (f, if f =? 0 then set_user_oom true s else s).

Definition pmm64_take_user_oom (s : pmm) : bool * pmm :=
  (user_oom s, set_user_oom false s).

Definition pmm64_alloc_above (min_phys : Z) (s : pmm) : Z * pmm :=
  let first := u64 (min_phys + PMM64_FRAME_SIZE - 1) / PMM64_FRAME_SIZE in
  if negb (ready s) then (0, s) else
  match find_up (Z.to_nat (frame_count s - first)) first
          (fun f => negb (nz (bitmap_test s f))) with
  | Some f => (f * PMM64_FRAME_SIZE, bitmap_set f s)
  | None => (0, s)
  end.

Definition pmm64_watch_frame (phys : Z) (s : pmm) : pmm :=
  set_watch_phys (and_not64 phys (PMM64_FRAME_SIZE - 1)) s.

(** ** Freeing and sharing *)

(** Both hints move to include the frame just returned. *)
Definition include_in_hints (f : Z) (s : pmm) : pmm :=
  let s := if f <? alloc_hint s then set_alloc_hint f s else s in
  if high_hint s <=? f then set_high_hint (f + 1) s else s.

Definition pmm64_free_frame (phys : Z) (s : pmm) : pmm :=
  let f := phys / PMM64_FRAME_SIZE in
  if negb (ready s) || (frame_count s <=? f) then s else
  if negb (nz (bitmap_test s f)) then set_double_frees (u64 (double_frees s + 1)) s else
  match refs s with
  | Some r =>
      if nz (zget r f) then set_refs (Some (zset r f (u8 (zget r f - 1)))) s else
      include_in_hints f (bitmap_clear f s)
  | None => include_in_hints f (bitmap_clear f s)
  end.

Definition pmm64_ref_frame (phys : Z) (s : pmm) : bool * pmm :=
  let f := phys / PMM64_FRAME_SIZE in
  match refs s with
  | None => (false, s)
  | Some r =>
      if negb (ready s) || (frame_count s <=? f) then (false, s) else
      if negb (nz (bitmap_test s f)) then (false, s) else
      if REF_MAX <=? zget r f then (false, s) else
      (true, set_refs (Some (zset r f (u8 (zget r f + 1)))) s)
  end.

Definition pmm64_frame_owners (phys : Z) (s : pmm) : Z :=
  let f := phys / PMM64_FRAME_SIZE in
  if negb (ready s) || (frame_count s <=? f) then 0 else
  if negb (nz (bitmap_test s f)) then 0 else
  1 + match refs s with Some r => zget r f | None => 0 end.

Definition pmm64_owns (phys : Z) (s : pmm) : bool :=
  let f := phys / PMM64_FRAME_SIZE in
  match ram s with
  | None => false
  | Some r =>
      if negb (ready s) || (frame_count s <=? f) then false else
      nz (Z.land (Z.shiftr (zget r (Z.shiftr f 3)) (Z.land f 7)) 1)
  end.

(** ** Counters *)

Definition pmm64_total_frames (s : pmm) : Z := if ready s then frame_count s else 0.
Definition pmm64_used_frames (s : pmm) : Z :=
  u64 (pmm64_total_frames s - pmm64_free_frames s).

Definition used_bits : list Z := [0; 1; 1; 2; 1; 2; 2; 3; 1; 2; 2; 3; 2; 3; 3; 4].

Definition byte_used (v : Z) : Z :=
  if v =? 0xFF then 8
  else zget used_bits (Z.land v 0xF) + zget used_bits (Z.shiftr v 4).

Definition pmm64_free_frames_scanned (s : pmm) : Z :=
  let whole := frame_count s / 8 in
  if negb (ready s) then 0 else
  let used := for_up (Z.to_nat whole) 0
    (fun b used => used + byte_used (zget (bitmap s) b)) 0 in
  let used := for_up (Z.to_nat (frame_count s - whole * 8)) (whole * 8)
    (fun f used => if nz (bitmap_test s f) then used + 1 else used) used in
  frame_count s - used.

(** ** The abstract view *)

(** The bit of frame [f] in a byte array. *)
Definition bset (bm : list Z) (f : Z) : bool := Z.testbit (zget bm (f / 8)) (f mod 8).

Definition frame_used (s : pmm) (f : Z) : bool := bset (bitmap s) f.

Definition extra (s : pmm) (f : Z) : Z :=
  match refs s with Some r => zget r f | None => 0 end.

Definition owners (s : pmm) (f : Z) : Z :=
  if (0 <=? f) && (f <? frame_count s) && frame_used s f then 1 + extra s f else 0.

Record pmm_ok (s : pmm) : Prop := {
  ok_count : 0 <= frame_count s <= 2 ^ 30;
  ok_bitmap : zlen (bitmap s) = (frame_count s + 7) / 8;
  ok_bytes : Forall is_byte (bitmap s);
  ok_refs : exists r, refs s = Some r /\ zlen r = frame_count s /\ Forall is_byte r;
  ok_refs_free : forall f, 0 <= f < frame_count s -> frame_used s f = false -> extra s f = 0;
  ok_ram : exists r, ram s = Some r /\ zlen r = (frame_count s + 7) / 8;
  ok_used : used_count s = count_up (Z.to_nat (frame_count s)) 0 (frame_used s);
  ok_alloc_hint : 0 <= alloc_hint s <= frame_count s;
  ok_high_hint : 0 <= high_hint s <= frame_count s
}.

(** [s'] differs from [s] only in the bitmap and the running count. *)
Definition only_bits (s s' : pmm) : Prop :=
  s' = set_bitmap (bitmap s') (set_used_count (used_count s') s).

(** ** Bits of the bitmap *)

Lemma land7 f : Z.land f 7 = f mod 8.
Proof. change 7 with (Z.ones 3). by rewrite Z.land_ones by lia. Qed.

Lemma shiftr3 f : Z.shiftr f 3 = f / 8.
Proof. by rewrite Z.shiftr_div_pow2 by lia. Qed.

Lemma bit_mask_pow f : bit_mask f = 2 ^ (f mod 8).
Proof.
  unfold bit_mask. rewrite land7, Z.shiftl_1_l. apply u8_small.
  pose proof (Z.mod_pos_bound f 8). split; [lia|].
  apply Z.pow_lt_mono_r; lia.
Qed.

Lemma land_pow2_nz x k : 0 <= k -> nz (Z.land x (2 ^ k)) = Z.testbit x k.
Proof.
  intros. destruct (Z.testbit x k) eqn:Hb.
  - apply nz_true. intros Heq.
    assert (Z.testbit (Z.land x (2 ^ k)) k = true) as Ht.
    { by rewrite Z.land_spec, Hb, Z.pow2_bits_true by lia. }
    rewrite Heq, Z.bits_0 in Ht. done.
  - apply nz_false. apply Z.bits_inj'. intros n Hn.
    rewrite Z.land_spec, Z.pow2_bits_eqb, Z.bits_0 by lia.
    destruct (Z.eqb_spec k n) as [->|]; [by rewrite Hb|by rewrite andb_false_r].
Qed.

Lemma bitmap_test_used s f : nz (bitmap_test s f) = frame_used s f.
Proof.
  unfold bitmap_test, frame_used, bset. rewrite bit_mask_pow, shiftr3.
  apply land_pow2_nz. pose proof (Z.mod_pos_bound f 8). lia.
Qed.

Lemma byte_lor a b : is_byte a -> is_byte b -> is_byte (Z.lor a b).
Proof.
  unfold is_byte. intros. assert (0 <= Z.lor a b) by (apply Z.lor_nonneg; lia).
  split; [lia|]. destruct (decide (Z.lor a b = 0)); [lia|].
  apply (Z.log2_lt_pow2 _ 8); [lia|]. rewrite Z.log2_lor by lia.
  apply Z.max_lub_lt.
  - destruct (decide (a = 0)) as [->|]; [done|apply Z.log2_lt_pow2; lia].
  - destruct (decide (b = 0)) as [->|]; [done|apply Z.log2_lt_pow2; lia].
Qed.

Lemma byte_land a b : is_byte a -> 0 <= b -> is_byte (Z.land a b).
Proof.
  unfold is_byte. intros. assert (0 <= Z.land a b) by (apply Z.land_nonneg; lia).
  split; [lia|]. destruct (decide (Z.land a b = 0)); [lia|].
  apply (Z.log2_lt_pow2 _ 8); [lia|]. pose proof (Z.log2_land a b ltac:(lia) ltac:(lia)).
  destruct (decide (a = 0)) as [->|]; [by rewrite Z.land_0_l in *|].
  assert (Z.log2 a < 8) by (apply Z.log2_lt_pow2; lia). lia.
Qed.

Lemma bit_mask_byte f : is_byte (bit_mask f).
Proof. unfold bit_mask, is_byte. pose proof (u8_range (Z.shiftl 1 (Z.land f 7))). lia. Qed.

Lemma bset_update bm f g v :
  0 <= f -> f / 8 < zlen bm -> 0 <= g ->
  (forall k, 0 <= k < 8 -> k <> f mod 8 -> Z.testbit v k = Z.testbit (zget bm (f / 8)) k) ->
  bset (zset bm (f / 8) v) g = if f =? g then Z.testbit v (f mod 8) else bset bm g.
Proof.
  intros Hf Hlen Hg Hv. unfold bset.
  pose proof (Z.div_pos f 8). pose proof (Z.div_pos g 8).
  rewrite zget_zset by lia.
  destruct (Z.eqb_spec f g) as [->|Hne]; [by rewrite Z.eqb_refl|].
  destruct (Z.eqb_spec (f / 8) (g / 8)) as [Heq|]; [|done].
  rewrite Heq in Hv. pose proof (Z.mod_pos_bound g 8). apply Hv; [lia|].
  intros Hm. apply Hne. rewrite (Z.div_mod f 8), (Z.div_mod g 8) by lia. lia.
Qed.

Lemma bset_lor bm f g :
  0 <= f -> f / 8 < zlen bm -> 0 <= g ->
  bset (zset bm (f / 8) (Z.lor (zget bm (f / 8)) (bit_mask f))) g = (f =? g) || bset bm g.
Proof.
  intros. pose proof (Z.mod_pos_bound f 8). rewrite bit_mask_pow, bset_update; [|done..|].
  - destruct (f =? g); [|done].
    by rewrite Z.lor_spec, Z.pow2_bits_true, orb_true_r by lia.
  - intros k ??. rewrite Z.lor_spec, Z.pow2_bits_false by lia. apply orb_false_r.
Qed.

Lemma bset_clear bm f g :
  0 <= f -> f / 8 < zlen bm -> 0 <= g ->
  bset (zset bm (f / 8) (Z.land (zget bm (f / 8)) (u8 (Z.lnot (bit_mask f))))) g
    = negb (f =? g) && bset bm g.
Proof.
  intros. pose proof (Z.mod_pos_bound f 8). unfold u8.
  assert (forall k, 0 <= k < 8 ->
    Z.testbit (Z.lnot (bit_mask f) mod 2 ^ 8) k = negb (f mod 8 =? k)) as Hm.
  { intros k Hk. rewrite Z.mod_pow2_bits_low, Z.lnot_spec, bit_mask_pow, Z.pow2_bits_eqb by lia.
    done. }
  rewrite bset_update; [|done..|].
  - destruct (f =? g); [|done].
    by rewrite Z.land_spec, Hm, Z.eqb_refl, andb_false_r by lia.
  - intros k ??. rewrite Z.land_spec, Hm by lia.
    destruct (Z.eqb_spec (f mod 8) k); [lia|apply andb_true_r].
Qed.

Lemma frame_byte_bound f n : 0 <= f < n -> 0 <= f / 8 < (n + 7) / 8.
Proof.
  intros. pose proof (Z.div_pos f 8). split; [lia|].
  apply Z.div_lt_upper_bound; [lia|].
  pose proof (Z.div_mod (n + 7) 8). pose proof (Z.mod_pos_bound (n + 7) 8). lia.
Qed.

(** Both updates touch the bitmap and the count, nothing else. *)
Lemma only_bits_refl s : only_bits s s.
Proof. by destruct s. Qed.

Lemma only_bits_trans s1 s2 s3 : only_bits s1 s2 -> only_bits s2 s3 -> only_bits s1 s3.
Proof. unfold only_bits. intros H12 H23. rewrite H23 at 1. rewrite H12 at 1. by destruct s1. Qed.

Lemma bitmap_set_only f s : only_bits s (bitmap_set f s).
Proof. unfold only_bits, bitmap_set. destruct (_ && _); by destruct s. Qed.

Lemma bitmap_clear_only f s : only_bits s (bitmap_clear f s).
Proof. unfold only_bits, bitmap_clear. destruct (_ && _); by destruct s. Qed.

Lemma bitmap_set_bm f s :
  bitmap (bitmap_set f s) =
    zset (bitmap s) (f / 8) (Z.lor (zget (bitmap s) (f / 8)) (bit_mask f)).
Proof. unfold bitmap_set. rewrite shiftr3. destruct (_ && _); by destruct s. Qed.

Lemma bitmap_clear_bm f s :
  bitmap (bitmap_clear f s) =
    zset (bitmap s) (f / 8) (Z.land (zget (bitmap s) (f / 8)) (u8 (Z.lnot (bit_mask f)))).
Proof. unfold bitmap_clear. rewrite shiftr3. destruct (_ && _); by destruct s. Qed.

Lemma bitmap_set_count f s :
  used_count (bitmap_set f s) =
    if negb (frame_used s f) && (f <? frame_count s)
    then u64 (used_count s + 1) else used_count s.
Proof.
  rewrite <-bitmap_test_used. unfold bitmap_set, bitmap_test.
  destruct (_ && _); by destruct s.
Qed.

Lemma bitmap_clear_count f s :
  used_count (bitmap_clear f s) =
    if frame_used s f && (f <? frame_count s)
    then u64 (used_count s - 1) else used_count s.
Proof.
  rewrite <-bitmap_test_used. unfold bitmap_clear, bitmap_test.
  destruct (_ && _); by destruct s.
Qed.

Lemma used_count_range s : pmm_ok s -> 0 <= used_count s <= frame_count s.
Proof.
  intros Hok. rewrite (ok_used _ Hok). pose proof (ok_count _ Hok).
  pose proof (count_up_range (Z.to_nat (frame_count s)) 0 (frame_used s)). lia.
Qed.

Section bits_of_ok.
  Context (s : pmm) (Hok : pmm_ok s) (f : Z) (Hf : 0 <= f < frame_count s).

Lemma set_used_spec g : 0 <= g -> frame_used (bitmap_set f s) g = (f =? g) || frame_used s g.
Proof.
  intros. unfold frame_used. rewrite bitmap_set_bm.
  pose proof (frame_byte_bound _ _ Hf). apply bset_lor; [lia| |lia].
  rewrite (ok_bitmap _ Hok). lia.
Qed.

Lemma clear_used_spec g :
  0 <= g -> frame_used (bitmap_clear f s) g = negb (f =? g) && frame_used s g.
Proof.
  intros. unfold frame_used. rewrite bitmap_clear_bm.
  pose proof (frame_byte_bound _ _ Hf). apply bset_clear; [lia| |lia].
  rewrite (ok_bitmap _ Hok). lia.
Qed.

Lemma bitmap_set_ok : pmm_ok (bitmap_set f s).
Proof.
  pose proof (used_count_range s Hok) as Hr. pose proof (bitmap_set_only f s) as Ho.
  pose proof (ok_count _ Hok) as Hc.
  assert (frame_count (bitmap_set f s) = frame_count s) as Hfc by (rewrite Ho; done).
  assert (extra (bitmap_set f s) = extra s) as He by (rewrite Ho; done).
  split; rewrite ?Hfc, ?He; try solve [apply Hok | rewrite Ho; simpl; apply Hok].
  - rewrite bitmap_set_bm, zlen_zset. apply Hok.
  - rewrite bitmap_set_bm. apply zset_Forall; [apply Hok|].
    apply byte_lor; [|apply bit_mask_byte]. apply zget_Forall; [apply Hok|].
    rewrite (ok_bitmap _ Hok). by apply frame_byte_bound.
  - intros g Hg Hu. rewrite set_used_spec in Hu by lia. zbool. by apply Hok.
  - rewrite bitmap_set_count, (ok_used _ Hok).
    rewrite (count_up_update _ 0 (frame_used (bitmap_set f s)) (frame_used s) f);
      [|lia|intros; rewrite set_used_spec by lia; by destruct (Z.eqb_spec f j); [lia|]].
    rewrite set_used_spec, Z.eqb_refl by lia. simpl.
    replace (f <? frame_count s) with true by (symmetry; apply Z.ltb_lt; lia).
    rewrite andb_true_r. destruct (frame_used s f); simpl; [lia|].
    rewrite u64_small; [lia|]. rewrite (ok_used _ Hok) in Hr. lia.
Qed.

Lemma bitmap_clear_ok : extra s f = 0 -> pmm_ok (bitmap_clear f s).
Proof.
  intros Hx. pose proof (used_count_range s Hok) as Hr. pose proof (bitmap_clear_only f s) as Ho.
  pose proof (ok_count _ Hok) as Hc.
  assert (frame_count (bitmap_clear f s) = frame_count s) as Hfc by (rewrite Ho; done).
  assert (extra (bitmap_clear f s) = extra s) as He by (rewrite Ho; done).
  split; rewrite ?Hfc, ?He; try solve [apply Hok | rewrite Ho; simpl; apply Hok].
  - rewrite bitmap_clear_bm, zlen_zset. apply Hok.
  - rewrite bitmap_clear_bm. apply zset_Forall; [apply Hok|].
    apply byte_land; [|apply u8_range]. apply zget_Forall; [apply Hok|].
    rewrite (ok_bitmap _ Hok). by apply frame_byte_bound.
  - intros g Hg Hu. rewrite clear_used_spec in Hu by lia.
    destruct (Z.eqb_spec f g) as [<-|]; [done|]. by apply Hok.
  - rewrite bitmap_clear_count, (ok_used _ Hok).
    assert (count_up (Z.to_nat (frame_count s)) 0 (frame_used (bitmap_clear f s)) =
      count_up (Z.to_nat (frame_count s)) 0 (frame_used s) - (if frame_used s f then 1 else 0))
      as Hup.
    { rewrite (count_up_update _ 0 (frame_used (bitmap_clear f s)) (frame_used s) f);
        [|lia|intros; rewrite clear_used_spec by lia; by destruct (Z.eqb_spec f j); [lia|]].
      rewrite clear_used_spec, Z.eqb_refl by lia. simpl. lia. }
    pose proof (count_up_range (Z.to_nat (frame_count s)) 0 (frame_used (bitmap_clear f s))).
    replace (f <? frame_count s) with true by (symmetry; apply Z.ltb_lt; lia).
    rewrite andb_true_r. destruct (frame_used s f); simpl; [|lia].
    rewrite u64_small; [lia|]. rewrite (ok_used _ Hok) in Hr. lia.
Qed.
End bits_of_ok.

(** ** Ranges *)

Lemma mark_range_spec s st n used :
  pmm_ok s -> 0 <= st ->
  (used = false -> forall f, st <= f < st + n -> f < frame_count s -> extra s f = 0) ->
  let s' := mark_range st n used s in
  pmm_ok s' /\ only_bits s s' /\
  forall g, 0 <= g < frame_count s ->
    frame_used s' g = if (st <=? g) && (g <? st + n) then used else frame_used s g.
Proof.
  intros Hok Hst Hx. unfold mark_range.
  set (m := Z.to_nat _).
  assert (forall t, only_bits s t -> frame_count t = frame_count s /\ extra t = extra s) as Hfr.
  { intros t ->. done. }
  pose proof (for_up_ind (fun k t =>
    pmm_ok t /\ only_bits s t /\ forall g, 0 <= g < frame_count s ->
      frame_used t g = if (st <=? g) && (g <? k) then used else frame_used s g)
    (fun f s => if used then bitmap_set f s else bitmap_clear f s) m st s) as Hind.
  destruct Hind as (Ho' & Hb & Hu).
  - split_and!; [done|apply only_bits_refl|]. intros g ?.
    destruct (Z.leb_spec st g), (Z.ltb_spec g st); simpl; (done || lia).
  - intros k t Hk (Ht & Hb & Hu). destruct (Hfr t Hb) as [Hfc He].
    assert (0 <= k < frame_count t) as Hkr by lia. destruct used.
    + split_and!; [by apply bitmap_set_ok|eapply only_bits_trans; [done|apply bitmap_set_only]|].
      intros g Hg. rewrite set_used_spec, Hu by (done || lia).
      destruct (Z.eqb_spec k g), (Z.leb_spec st g), (Z.ltb_spec g k), (Z.ltb_spec g (k + 1));
        simpl; (done || lia).
    + split_and!; [|eapply only_bits_trans; [done|apply bitmap_clear_only]|].
      * apply bitmap_clear_ok; [done|lia|]. rewrite He. apply Hx; [done|lia|lia].
      * intros g Hg. rewrite clear_used_spec, Hu by (done || lia).
        destruct (Z.eqb_spec k g), (Z.leb_spec st g), (Z.ltb_spec g k), (Z.ltb_spec g (k + 1));
          simpl; (done || lia).
  - split_and!; [done|done|]. intros g Hg. rewrite Hu by lia.
    destruct (Z.leb_spec st g), (Z.ltb_spec g (st + Z.of_nat m)), (Z.ltb_spec g (st + n));
      simpl; (done || lia).
Qed.

(** ** Scans *)

Lemma byte_full_used s f j :
  zget (bitmap s) (f / 8) = 255 -> f mod 8 = 0 -> 0 <= j < 8 -> frame_used s (f + j) = true.
Proof.
  intros Hb Hm Hj. unfold frame_used, bset.
  pose proof (Z.div_mod f 8).
  replace ((f + j) / 8) with (f / 8) by (apply (Z.div_unique _ _ _ j); lia).
  replace ((f + j) mod 8) with j by (apply (Z.mod_unique _ _ (f / 8)); lia).
  rewrite Hb. change 255 with (Z.ones 8). apply Z.ones_spec_low. lia.
Qed.

Lemma find_up_skip k n i p :
  (forall j, i <= j < i + Z.of_nat k -> p j = false) ->
  find_up (k + n) i p = find_up n (i + Z.of_nat k) p.
Proof.
  revert i. induction k as [|k IH]; intros i H; cbn [find_up Nat.add].
  - by rewrite Z.add_0_r.
  - rewrite H by lia. rewrite IH by (intros; apply H; lia). f_equal. lia.
Qed.

Lemma find_down_skip k n i p :
  (forall j, i - Z.of_nat k <= j < i -> p j = false) ->
  find_down (k + n) i p = find_down n (i - Z.of_nat k) p.
Proof.
  revert i. induction k as [|k IH]; intros i H; cbn [find_down Nat.add].
  - by rewrite Z.sub_0_r.
  - rewrite H by lia. rewrite IH by (intros; apply H; lia). f_equal. lia.
Qed.

(** The scans that pass a full byte in one test find what the bit-by-bit
    scan finds, and the fuel [stop - f] is enough. *)
Lemma scan_up_find fuel s f stop :
  0 <= f -> stop - f <= Z.of_nat fuel ->
  scan_up fuel s f stop
    = find_up (Z.to_nat (stop - f)) f (fun g => negb (frame_used s g)).
Proof.
  revert f. induction fuel as [|fuel IH]; intros f Hf Hfuel; cbn [scan_up].
  - destruct (Z.ltb_spec f stop); [lia|].
    by replace (Z.to_nat (stop - f)) with O by lia.
  - destruct (Z.ltb_spec f stop); [|by replace (Z.to_nat (stop - f)) with O by lia].
    rewrite bitmap_test_used, land7, shiftr3.
    destruct ((f mod 8 =? 0) && (f + 8 <=? stop) && (zget (bitmap s) (f / 8) =? 255)) eqn:Hskip.
    + zbool. rewrite IH by lia.
      replace (Z.to_nat (stop - f)) with (8 + Z.to_nat (stop - (f + 7 + 1)))%nat by lia.
      rewrite find_up_skip; [f_equal; lia|].
      intros j Hj. replace j with (f + (j - f)) by lia.
      by rewrite byte_full_used by lia.
    + replace (Z.to_nat (stop - f)) with (S (Z.to_nat (stop - (f + 1)))) by lia.
      cbn [find_up]. destruct (negb (frame_used s f)); [done|]. apply IH; lia.
Qed.

Lemma scan_down_find fuel s f stop :
  0 <= stop -> f - stop <= Z.of_nat fuel ->
  scan_down fuel s f stop
    = find_down (Z.to_nat (f - stop)) f (fun g => negb (frame_used s g)).
Proof.
  revert f. induction fuel as [|fuel IH]; intros f Hf Hfuel; cbn [scan_down].
  - destruct (Z.ltb_spec stop f); [lia|].
    by replace (Z.to_nat (f - stop)) with O by lia.
  - destruct (Z.ltb_spec stop f); [|by replace (Z.to_nat (f - stop)) with O by lia].
    rewrite bitmap_test_used, land7, shiftr3.
    destruct (((f - 1) mod 8 =? 7) && (stop + 7 <=? f - 1)
      && (zget (bitmap s) ((f - 1) / 8) =? 255)) eqn:Hskip.
    + zbool. rewrite IH by lia.
      replace (Z.to_nat (f - stop)) with (8 + Z.to_nat (f - 1 - 7 - stop))%nat by lia.
      rewrite find_down_skip; [f_equal; lia|].
      pose proof (Z.div_mod (f - 1) 8).
      intros j Hj. replace j with (f - 8 + (j - (f - 8))) by lia.
      rewrite byte_full_used; [done| | |lia].
      * replace ((f - 8) / 8) with ((f - 1) / 8); [done|].
        apply (Z.div_unique _ _ _ 0); lia.
      * symmetry. apply (Z.mod_unique _ _ ((f - 1) / 8)); lia.
    + replace (Z.to_nat (f - stop)) with (S (Z.to_nat (f - 1 - stop))) by lia.
      cbn [find_down]. destruct (negb (frame_used s (f - 1))); [done|]. apply IH; lia.
Qed.

(** ** The reference search

    First fit from a hint, upwards and then wrapping; and its mirror image. *)

Definition first_fit (s : pmm) : option Z :=
  match find_up (Z.to_nat (frame_count s - alloc_hint s)) (alloc_hint s)
          (fun g => negb (frame_used s g)) with
  | Some f => Some f
  | None => find_up (Z.to_nat (alloc_hint s)) 0 (fun g => negb (frame_used s g))
  end.

Definition last_fit (s : pmm) : option Z :=
  match find_down (Z.to_nat (high_hint s)) (high_hint s) (fun g => negb (frame_used s g)) with
  | Some f => Some f
  | None => find_down (Z.to_nat (frame_count s - high_hint s)) (frame_count s)
              (fun g => negb (frame_used s g))
  end.

Lemma first_fit_Some s f :
  pmm_ok s -> first_fit s = Some f -> 0 <= f < frame_count s /\ frame_used s f = false.
Proof.
  intros Hok. pose proof (ok_alloc_hint _ Hok). unfold first_fit.
  destruct (find_up _ (alloc_hint s) _) eqn:H1.
  - intros [= <-]. apply find_up_Some in H1 as (? & ? & _). zbool. split; [lia|done].
  - intros (? & ? & _)%find_up_Some. zbool. split; [lia|done].
Qed.

Lemma first_fit_None s :
  pmm_ok s -> first_fit s = None <-> forall f, 0 <= f < frame_count s -> frame_used s f = true.
Proof.
  intros Hok. pose proof (ok_alloc_hint _ Hok). unfold first_fit.
  destruct (find_up _ (alloc_hint s) _) eqn:H1.
  - apply find_up_Some in H1 as (? & ? & _). zbool. split; [done|].
    intros Hall. rewrite Hall in *; [done|lia].
  - rewrite find_up_None in H1. rewrite find_up_None. split; intros H2 f Hf.
    + apply negb_false_iff. destruct (decide (f < alloc_hint s)); [apply H2|apply H1]; lia.
    + rewrite H2; [done|lia].
Qed.

Lemma last_fit_Some s f :
  pmm_ok s -> last_fit s = Some f -> 0 <= f < frame_count s /\ frame_used s f = false.
Proof.
  intros Hok. pose proof (ok_high_hint _ Hok). unfold last_fit.
  destruct (find_down _ (high_hint s) _) eqn:H1.
  - intros [= <-]. apply find_down_Some in H1 as (? & ? & _). zbool. split; [lia|done].
  - intros (? & ? & _)%find_down_Some. zbool. split; [lia|done].
Qed.

Lemma last_fit_None s :
  pmm_ok s -> last_fit s = None <-> forall f, 0 <= f < frame_count s -> frame_used s f = true.
Proof.
  intros Hok. pose proof (ok_high_hint _ Hok). unfold last_fit.
  destruct (find_down _ (high_hint s) _) eqn:H1.
  - apply find_down_Some in H1 as (? & ? & _). zbool. split; [done|].
    intros Hall. rewrite Hall in *; [done|lia].
  - rewrite find_down_None in H1. rewrite find_down_None. split; intros H2 f Hf.
    + apply negb_false_iff. destruct (decide (f < high_hint s)); [apply H1|apply H2]; lia.
    + rewrite H2; [done|lia].
Qed.

Lemma alloc_frame_first_fit s :
  pmm_ok s -> ready s = true ->
  pmm64_alloc_frame s =
    match first_fit s with
    | Some f => (f * PMM64_FRAME_SIZE, set_alloc_hint (f + 1) (bitmap_set f s))
    | None => (0, s)
    end.
Proof.
  intros Hok Hr. pose proof (ok_alloc_hint _ Hok). unfold pmm64_alloc_frame, first_fit.
  rewrite Hr. simpl. rewrite !scan_up_find by lia. by rewrite Z.sub_0_r.
Qed.

Lemma alloc_high_last_fit s :
  pmm_ok s -> ready s = true ->
  pmm64_alloc_high s =
    match last_fit s with
    | Some f => (f * PMM64_FRAME_SIZE, set_high_hint f (bitmap_set f s))
    | None => (0, s)
    end.
Proof.
  intros Hok Hr. pose proof (ok_high_hint _ Hok). unfold pmm64_alloc_high.
  rewrite Hr. simpl. destruct (Z.ltb_spec (frame_count s) (high_hint s)); [lia|].
  rewrite !scan_down_find by lia. rewrite Z.sub_0_r.
  destruct (last_fit s) eqn:Hl; unfold last_fit in Hl; [by rewrite Hl|].
  rewrite Hl. rewrite alloc_frame_first_fit by done.
  replace (first_fit s) with (@None Z); [done|]. symmetry.
  apply first_fit_None; [done|]. by apply last_fit_None.
Qed.

(** ** Allocation, freeing and sharing in terms of owners *)


Lemma extra_range s f : pmm_ok s -> 0 <= f < frame_count s -> 0 <= extra s f < 256.
Proof.
  intros Hok Hf. unfold extra. destruct (ok_refs _ Hok) as (r & -> & Hl & HF).
  apply (zget_Forall is_byte); [done|lia].
Qed.

Lemma owners_in s f : 0 <= f < frame_count s ->
  owners s f = if frame_used s f then 1 + extra s f else 0.
Proof.
  intros. unfold owners.
  replace (0 <=? f) with true by (symmetry; apply Z.leb_le; lia).
  by replace (f <? frame_count s) with true by (symmetry; apply Z.ltb_lt; lia).
Qed.

Lemma owners_out s f : ~ 0 <= f < frame_count s -> owners s f = 0.
Proof.
  intros. unfold owners.
  destruct (Z.leb_spec 0 f), (Z.ltb_spec f (frame_count s)); simpl; (done || lia).
Qed.

Lemma owners_range_ok s f : pmm_ok s -> 0 <= owners s f <= 256.
Proof.
  intros Hok. destruct (decide (0 <= f < frame_count s)) as [Hf|Hf].
  - rewrite owners_in by done. pose proof (extra_range s f Hok Hf). destruct (frame_used s f); lia.
  - rewrite owners_out by done. lia.
Qed.

Lemma owners_zero_unused s f :
  pmm_ok s -> 0 <= f < frame_count s -> owners s f = 0 <-> frame_used s f = false.
Proof.
  intros Hok Hf. rewrite owners_in by done. pose proof (extra_range s f Hok Hf).
  destruct (frame_used s f); split; intros; (done || lia).
Qed.

(** Setting the bit of a free frame gives it one owner. *)
Lemma owners_set s f g :
  pmm_ok s -> 0 <= f < frame_count s -> frame_used s f = false ->
  owners (bitmap_set f s) g = if g =? f then 1 else owners s g.
Proof.
  intros Hok Hf Hu. pose proof (bitmap_set_only f s) as Ho.
  assert (frame_count (bitmap_set f s) = frame_count s) as Hfc by (rewrite Ho; done).
  assert (extra (bitmap_set f s) = extra s) as He by (rewrite Ho; done).
  destruct (decide (0 <= g < frame_count s)) as [Hg|Hg].
  - rewrite !owners_in, set_used_spec, He by (done || lia). rewrite (Z.eqb_sym g f).
    destruct (Z.eqb_spec f g) as [<-|]; simpl; [|done].
    by rewrite (ok_refs_free _ Hok f Hf Hu).
  - rewrite !owners_out by (rewrite ?Hfc; done). destruct (Z.eqb_spec g f); [lia|done].
Qed.

(** The hints are not part of the abstract state. *)
Lemma owners_hints s h k : owners (set_alloc_hint h (set_high_hint k s)) = owners s.
Proof. done. Qed.

Lemma pmm_ok_hints s h k :
  pmm_ok s -> 0 <= h <= frame_count s -> 0 <= k <= frame_count s ->
  pmm_ok (set_alloc_hint h (set_high_hint k s)).
Proof. intros Hok ??. split; simpl; try apply Hok; lia. Qed.

Lemma set_alloc_hint_id s h : set_alloc_hint h s = set_alloc_hint h (set_high_hint (high_hint s) s).
Proof. by destruct s. Qed.

Lemma set_high_hint_id s h : set_high_hint h s = set_alloc_hint (alloc_hint s) (set_high_hint h s).
Proof. by destruct s. Qed.

Lemma bitmap_set_fields f s :
  frame_count (bitmap_set f s) = frame_count s /\ ready (bitmap_set f s) = ready s /\
  alloc_hint (bitmap_set f s) = alloc_hint s /\ high_hint (bitmap_set f s) = high_hint s /\
  ram (bitmap_set f s) = ram s.
Proof. by rewrite bitmap_set_only. Qed.

Lemma bitmap_clear_fields f s :
  frame_count (bitmap_clear f s) = frame_count s /\ ready (bitmap_clear f s) = ready s /\
  alloc_hint (bitmap_clear f s) = alloc_hint s /\ high_hint (bitmap_clear f s) = high_hint s /\
  ram (bitmap_clear f s) = ram s.
Proof. by rewrite bitmap_clear_only. Qed.

(** What a successful allocation of frame [f] leaves. *)
Definition took (s : pmm) (f : Z) (s' : pmm) : Prop :=
  0 <= f < frame_count s /\ owners s f = 0 /\ pmm_ok s' /\
  frame_count s' = frame_count s /\ ready s' = ready s /\ ram s' = ram s /\
  forall g, owners s' g = if g =? f then 1 else owners s g.

Lemma took_set s f h k :
  pmm_ok s -> 0 <= f < frame_count s -> frame_used s f = false ->
  0 <= h <= frame_count s -> 0 <= k <= frame_count s ->
  took s f (set_alloc_hint h (set_high_hint k (bitmap_set f s))).
Proof.
  intros Hok Hf Hu Hh Hk. destruct (bitmap_set_fields f s) as (Hc & Hr & _ & _ & Hm).
  split_and!; [lia|lia|by apply owners_zero_unused| |done..|].
  - apply pmm_ok_hints; [by apply bitmap_set_ok|lia|lia].
  - intros g. rewrite owners_hints. by apply owners_set.
Qed.

Lemma alloc_frame_took s :
  pmm_ok s -> ready s = true ->
  (exists f, first_fit s = Some f /\ (pmm64_alloc_frame s).1 = f * PMM64_FRAME_SIZE /\
     took s f (pmm64_alloc_frame s).2) \/
  (first_fit s = None /\ pmm64_alloc_frame s = (0, s)).
Proof.
  intros Hok Hr. rewrite alloc_frame_first_fit by done.
  destruct (first_fit s) as [f|] eqn:Hff; [left|by right].
  destruct (first_fit_Some s f Hok Hff) as [Hf Hu]. pose proof (ok_high_hint _ Hok).
  exists f. split_and!; [done|done|]. simpl. rewrite set_alloc_hint_id.
  destruct (bitmap_set_fields f s) as (_ & _ & _ & -> & _). apply took_set; (done || lia).
Qed.

Lemma alloc_high_took s :
  pmm_ok s -> ready s = true ->
  (exists f, last_fit s = Some f /\ (pmm64_alloc_high s).1 = f * PMM64_FRAME_SIZE /\
     took s f (pmm64_alloc_high s).2) \/
  (last_fit s = None /\ pmm64_alloc_high s = (0, s)).
Proof.
  intros Hok Hr. rewrite alloc_high_last_fit by done.
  destruct (last_fit s) as [f|] eqn:Hff; [left|by right].
  destruct (last_fit_Some s f Hok Hff) as [Hf Hu]. pose proof (ok_alloc_hint _ Hok).
  exists f. split_and!; [done|done|]. simpl. rewrite set_high_hint_id.
  destruct (bitmap_set_fields f s) as (_ & _ & -> & _ & _). apply took_set; (done || lia).
Qed.

Lemma include_in_hints_eq f s :
  include_in_hints f s =
    set_alloc_hint (if f <? alloc_hint s then f else alloc_hint s)
      (set_high_hint (if high_hint s <=? f then f + 1 else high_hint s) s).
Proof.
  destruct s. unfold include_in_hints. simpl.
  destruct (f <? _); simpl; destruct (_ <=? f); done.
Qed.

Lemma free_frame_owners s p :
  pmm_ok s -> ready s = true -> 0 <= p ->
  let s' := pmm64_free_frame p s in
  pmm_ok s' /\ frame_count s' = frame_count s /\ ready s' = true /\ ram s' = ram s /\
  forall g, owners s' g =
    if g =? p / PMM64_FRAME_SIZE then Z.max 0 (owners s g - 1) else owners s g.
Proof.
  intros Hok Hr Hp. unfold pmm64_free_frame. rewrite Hr. simpl.
  set (f := p / PMM64_FRAME_SIZE).
  assert (0 <= f) as Hf0 by (apply Z.div_pos; unfold PMM64_FRAME_SIZE; lia).
  destruct (Z.leb_spec (frame_count s) f).
  { split_and!; [done..|]. intros g. destruct (Z.eqb_spec g f) as [->|]; [|done].
    rewrite owners_out by lia. done. }
  rewrite bitmap_test_used. destruct (frame_used s f) eqn:Hu; simpl.
  2: { split_and!; [by destruct Hok|done..|]. intros g. change (owners _ g) with (owners s g) at 1.
       destruct (Z.eqb_spec g f) as [->|]; [|done].
       rewrite (proj2 (owners_zero_unused s f Hok ltac:(lia)) Hu). done. }
  destruct (ok_refs _ Hok) as (r & Hrs & Hlen & Hby). rewrite Hrs.
  pose proof (extra_range s f Hok ltac:(lia)) as Hx. unfold extra in Hx. rewrite Hrs in Hx.
  destruct (nz (zget r f)) eqn:Hnz.
  - apply nz_true in Hnz. rewrite u8_small by lia.
    split_and!; [|done..|].
    + split; simpl; try apply Hok.
      * eexists. split_and!; [done|by rewrite zlen_zset|]. apply zset_Forall; [done|].
        unfold is_byte. lia.
      * intros g Hg Hgu. unfold extra. simpl. destruct (Z.eqb_spec f g) as [->|].
        { change (frame_used s g = false) in Hgu. congruence. }
        rewrite zget_zset_ne by lia. pose proof (ok_refs_free _ Hok g Hg Hgu) as Hz0.
        unfold extra in Hz0. by rewrite Hrs in Hz0.
    + intros g. destruct (decide (0 <= g < frame_count s)) as [Hg|Hg].
      * rewrite !owners_in by done. change (frame_used (set_refs _ s) g) with (frame_used s g).
        unfold extra. simpl. rewrite Hrs. rewrite zget_zset, (Z.eqb_sym g f) by lia.
        destruct (Z.eqb_spec f g) as [<-|]; [rewrite Hu; lia|done].
      * rewrite !owners_out by done. destruct (Z.eqb_spec g f); [lia|done].
  - apply nz_false in Hnz.
    destruct (bitmap_clear_fields f s) as (Hc & Hcr & Hah & Hhh & Hm).
    pose proof (ok_alloc_hint _ Hok). pose proof (ok_high_hint _ Hok).
    assert (extra s f = 0) as Hx0 by (unfold extra; by rewrite Hrs).
    rewrite include_in_hints_eq, Hah, Hhh.
    split_and!; [|exact Hc|by etrans; [exact Hcr|]|exact Hm|].
    + apply pmm_ok_hints; [apply bitmap_clear_ok; (done || lia)|..]; rewrite Hc;
        case_match; zbool; lia.
    + intros g. rewrite owners_hints.
      destruct (decide (0 <= g < frame_count s)) as [Hg|Hg].
      * rewrite !owners_in, clear_used_spec, (Z.eqb_sym g f) by (done || lia).
        assert (extra (bitmap_clear f s) = extra s) as -> by (by rewrite bitmap_clear_only).
        destruct (Z.eqb_spec f g) as [<-|]; simpl; [rewrite Hu, Hx0; done|done].
      * rewrite !owners_out by (rewrite ?Hc; done). destruct (Z.eqb_spec g f); [lia|done].
Qed.

Lemma ref_frame_owners s p :
  pmm_ok s -> ready s = true -> 0 <= p ->
  let '(b, s') := pmm64_ref_frame p s in
  pmm_ok s' /\ frame_count s' = frame_count s /\ ready s' = true /\ ram s' = ram s /\
  b = (0 <? owners s (p / PMM64_FRAME_SIZE)) && (owners s (p / PMM64_FRAME_SIZE) <? 256) /\
  forall g, owners s' g =
    if b && (g =? p / PMM64_FRAME_SIZE) then owners s g + 1 else owners s g.
Proof.
  intros Hok Hr Hp. unfold pmm64_ref_frame. rewrite Hr. simpl.
  set (f := p / PMM64_FRAME_SIZE).
  assert (0 <= f) as Hf0 by (apply Z.div_pos; unfold PMM64_FRAME_SIZE; lia).
  destruct (ok_refs _ Hok) as (r & Hrs & Hlen & Hby). rewrite Hrs.
  destruct (Z.leb_spec (frame_count s) f).
  { rewrite owners_out by lia. done. }
  rewrite bitmap_test_used, owners_in by lia.
  destruct (frame_used s f) eqn:Hu; simpl; [|done].
  pose proof (extra_range s f Hok ltac:(lia)) as Hx.
  assert (extra s f = zget r f) as Hxe by (unfold extra; by rewrite Hrs). rewrite Hxe in *.
  unfold REF_MAX. destruct (Z.leb_spec 255 (zget r f)).
  { replace (1 + zget r f <? 256) with false by (symmetry; apply Z.ltb_ge; lia).
    rewrite andb_false_r. done. }
  replace (1 + zget r f <? 256) with true by (symmetry; apply Z.ltb_lt; lia).
  replace (0 <? 1 + zget r f) with true by (symmetry; apply Z.ltb_lt; lia).
  rewrite u8_small by lia.
  split_and!; [|done..|].
  - split; simpl; try apply Hok.
    + eexists. split_and!; [done|by rewrite zlen_zset|]. apply zset_Forall; [done|].
      unfold is_byte. lia.
    + intros g Hg Hgu. unfold extra. simpl. destruct (Z.eqb_spec f g) as [->|].
      { change (frame_used s g = false) in Hgu. congruence. }
      rewrite zget_zset_ne by lia. pose proof (ok_refs_free _ Hok g Hg Hgu) as Hz0.
      unfold extra in Hz0. by rewrite Hrs in Hz0.
  - intros g. simpl. destruct (decide (0 <= g < frame_count s)) as [Hg|Hg].
    + rewrite !owners_in by done. change (frame_used (set_refs _ s) g) with (frame_used s g).
      unfold extra. simpl. rewrite Hrs, zget_zset, (Z.eqb_sym g f) by lia.
      destruct (Z.eqb_spec f g) as [<-|]; [rewrite Hu; lia|done].
    + rewrite !owners_out by done. destruct (Z.eqb_spec g f); [lia|done].
Qed.

(** ** The frames [Paging64] and [Vmspace64] see *)

Definition pmm_ready (s : pmm) : Prop := pmm_ok s /\ ready s = true.

Definition ram_bit (s : pmm) (f : Z) : bool :=
  match ram s with
  | Some r => (0 <=? f) && (f <? frame_count s) && bset r f
  | None => false
  end.

Lemma owns_ram_bit s p : pmm_ready s -> 0 <= p ->
  pmm64_owns p s = ram_bit s (p / PMM64_FRAME_SIZE).
Proof.
  intros [Hok Hr] Hp. unfold pmm64_owns, ram_bit. rewrite Hr.
  destruct (ok_ram _ Hok) as (r & -> & _). simpl.
  set (f := p / PMM64_FRAME_SIZE).
  assert (0 <= f) by (apply Z.div_pos; unfold PMM64_FRAME_SIZE; lia).
  replace (0 <=? f) with true by (symmetry; apply Z.leb_le; lia).
  rewrite Z.ltb_antisym. destruct (frame_count s <=? f); simpl; [done|].
  unfold bset. rewrite shiftr3, land7. change 1 with (2 ^ 0).
  by rewrite land_pow2_nz, Z.shiftr_spec by lia.
Qed.

Lemma took_outcome s f s' :
  pmm_ready s -> took s f s' ->
  alloc_outcome pmm_ready owners s (f * PMM64_FRAME_SIZE) s' /\ ram_bit s' = ram_bit s.
Proof.
  intros [Hok Hr] (Hf & H0 & Hok' & Hc & Hr' & Hm & Ho).
  split; [|unfold ram_bit; by rewrite Hm, Hc]. split; [split; [done|congruence]|].
  pose proof (ok_count _ Hok). unfold PMM64_FRAME_SIZE.
  destruct (decide (f = 0)) as [->|]; [right|left].
  - split; [done|]. intros g Hg. rewrite Ho. destruct (Z.eqb_spec g 0); [lia|done].
  - exists f. split_and!; (done || lia).
Qed.

Lemma same_outcome s : pmm_ready s ->
  alloc_outcome pmm_ready owners s 0 s /\ ram_bit s = ram_bit s.
Proof. intros. split; [|done]. split; [done|]. right. done. Qed.

Lemma alloc_frame_outcome s : pmm_ready s ->
  alloc_outcome pmm_ready owners s (pmm64_alloc_frame s).1 (pmm64_alloc_frame s).2 /\
  ram_bit (pmm64_alloc_frame s).2 = ram_bit s.
Proof.
  intros Hs. destruct (alloc_frame_took s) as [(f & _ & -> & Ht)|[_ ->]]; [apply Hs..| |].
  - by apply took_outcome.
  - by apply same_outcome.
Qed.

Lemma alloc_high_outcome s : pmm_ready s ->
  alloc_outcome pmm_ready owners s (pmm64_alloc_high s).1 (pmm64_alloc_high s).2 /\
  ram_bit (pmm64_alloc_high s).2 = ram_bit s.
Proof.
  intros Hs. destruct (alloc_high_took s) as [(f & _ & -> & Ht)|[_ ->]]; [apply Hs..| |].
  - by apply took_outcome.
  - by apply same_outcome.
Qed.

(** Setting the out-of-memory note changes nothing an owner can see. *)
Lemma outcome_oom s r s' b :
  alloc_outcome pmm_ready owners s r s' /\ ram_bit s' = ram_bit s ->
  alloc_outcome pmm_ready owners s r (set_user_oom b s') /\
  ram_bit (set_user_oom b s') = ram_bit s.
Proof.
  intros [[[Hok Hr] Ho] Hm]. split; [|exact Hm]. split; [|exact Ho].
  split; [|exact Hr]. destruct Hok. by split.
Qed.

Lemma alloc_user_outcome s : pmm_ready s ->
  alloc_outcome pmm_ready owners s (pmm64_alloc_user s).1 (pmm64_alloc_user s).2 /\
  ram_bit (pmm64_alloc_user s).2 = ram_bit s.
Proof.
  intros Hs. unfold pmm64_alloc_user. destruct (_ <? _).
  - apply (outcome_oom s 0 s true). by apply same_outcome.
  - pose proof (alloc_high_outcome s Hs) as Ho. destruct (pmm64_alloc_high s) as [f t]. simpl in *.
    destruct (f =? 0); [by apply outcome_oom|done].
Qed.

(** Nor does it change how many frames there are. *)
Lemma took_limit s f s' : took s f s' -> frame_count s' = frame_count s.
Proof. by intros (_ & _ & _ & Hc & _). Qed.

Lemma alloc_frame_limit s : pmm_ready s -> frame_count (pmm64_alloc_frame s).2 = frame_count s.
Proof. intros Hs. destruct (alloc_frame_took s) as [(f & _ & _ & Ht)|[_ E]]; [apply Hs..|by apply (took_limit _ f)|by rewrite E]. Qed.

Lemma alloc_high_limit s : pmm_ready s -> frame_count (pmm64_alloc_high s).2 = frame_count s.
Proof. intros Hs. destruct (alloc_high_took s) as [(f & _ & _ & Ht)|[_ E]]; [apply Hs..|by apply (took_limit _ f)|by rewrite E]. Qed.

Lemma alloc_user_limit s : pmm_ready s -> frame_count (pmm64_alloc_user s).2 = frame_count s.
Proof.
  intros Hs. unfold pmm64_alloc_user. destruct (_ <? _); [done|]. pose proof (alloc_high_limit s Hs) as Ho.
  destruct (pmm64_alloc_high s) as [f t]. cbn [snd] in *. by destruct (f =? 0).
Qed.

#[export] Instance pmm64_frame_allocator : FrameAllocator pmm.
Proof.
  refine {|
    fa_ok := pmm_ready; fa_owners := owners; fa_ram := ram_bit;
    alloc_frame := pmm64_alloc_frame; alloc_high := pmm64_alloc_high;
    alloc_user := pmm64_alloc_user; free_frame := pmm64_free_frame;
    ref_frame := pmm64_ref_frame; frame_owners := pmm64_frame_owners;
    owns_frame := pmm64_owns; fa_limit := frame_count
  |}.
  - intros a f [Hok _]. by apply owners_range_ok.
  - intros a f [Hok _] Hpos. pose proof (ok_count _ Hok).
    destruct (decide (0 <= f < frame_count a)); [lia|]. rewrite owners_out in Hpos by done. lia.
  - apply alloc_frame_outcome.
  - apply alloc_high_outcome.
  - apply alloc_user_outcome.
  - intros a p [Hok Hr] Hp.
    destruct (free_frame_owners a p Hok Hr Hp) as (Hok' & Hc & Hr' & Hm & Ho).
    split_and!; [by split|unfold ram_bit; by rewrite Hm, Hc|exact Ho].
  - intros a p [Hok Hr] Hp. pose proof (ref_frame_owners a p Hok Hr Hp) as H.
    destruct (pmm64_ref_frame p a) as [b a']. destruct H as (Hok' & Hc & Hr' & Hm & Hb & Ho).
    cbn [fst snd].
    split_and!; [by split|unfold ram_bit; by rewrite Hm, Hc|exact Hb|exact Ho].
  - intros a p [Hok Hr] Hp. unfold pmm64_frame_owners. rewrite Hr. simpl.
    change 4096 with PMM64_FRAME_SIZE. set (f := p / PMM64_FRAME_SIZE).
    assert (0 <= f) by (apply Z.div_pos; unfold PMM64_FRAME_SIZE; lia).
    destruct (Z.leb_spec (frame_count a) f); [by rewrite owners_out by lia|].
    rewrite bitmap_test_used, owners_in by lia. by destruct (frame_used a f).
  - intros a f [Hok _] Hpos. destruct (decide (0 <= f < frame_count a)); [lia|]. rewrite owners_out in Hpos by done. lia.
  - intros a Ha. split_and!; [by apply alloc_frame_limit|by apply alloc_high_limit|by apply alloc_user_limit].
  - intros a p [Hok Hr] Hp. by destruct (free_frame_owners a p Hok Hr Hp) as (_ & Hc & _).
  - intros a p [Hok Hr] Hp. pose proof (ref_frame_owners a p Hok Hr Hp) as H. destruct (pmm64_ref_frame p a) as [b a']. by destruct H as (_ & Hc & _).
  - intros a p Ha Hp. by apply owns_ram_bit.
Defined.

(** ** The abstract allocator *)

Inductive pmm_op :=
| OpAlloc | OpAllocHigh | OpAllocUser | OpAllocAbove (min_phys : Z)
| OpFree (phys : Z) | OpRef (phys : Z) | OpReserve (start_addr end_addr : Z)
| OpTakeOom.

Definition pmm_step (op : pmm_op) (s : pmm) : Z * pmm :=
  match op with
  | OpAlloc => pmm64_alloc_frame s
  | OpAllocHigh => pmm64_alloc_high s
  | OpAllocUser => pmm64_alloc_user s
  | OpAllocAbove m => pmm64_alloc_above m s
  | OpFree p => (0, pmm64_free_frame p s)
  | OpRef p => let '(b, s') := pmm64_ref_frame p s in ((if b then 1 else 0), s')
  | OpReserve a b => (0, pmm64_reserve_region a b s)
  | OpTakeOom => let '(b, s') := pmm64_take_user_oom s in ((if b then 1 else 0), s')
  end.

Definition op_valid (op : pmm_op) : Prop :=
  match op with
  | OpAllocAbove p | OpFree p | OpRef p => 0 <= p < 2 ^ 64
  | OpReserve a b => 0 <= a < 2 ^ 64 /\ 0 <= b < 2 ^ 64
  | _ => True
  end.

(** A map from frames below [n] to their number of owners. *)
Definition free_count (n : Z) (m : Z -> Z) : Z := count_up (Z.to_nat n) 0 (fun f => m f =? 0).

(** Which frames an allocation may return, and when it may refuse. *)
Definition may_take (n : Z) (op : pmm_op) (m : Z -> Z) (f : Z) : Prop :=
  0 <= f < n /\ m f = 0 /\
  match op with
  | OpAlloc | OpAllocHigh => True
  | OpAllocUser => PMM64_USER_RESERVE <= free_count n m
  | OpAllocAbove p => p <= f * PMM64_FRAME_SIZE \/ 2 ^ 64 - PMM64_FRAME_SIZE < p
  | _ => False
  end.

Definition may_refuse (n : Z) (op : pmm_op) (m : Z -> Z) : Prop :=
  match op with
  | OpAlloc | OpAllocHigh => forall f, 0 <= f < n -> m f <> 0
  | OpAllocUser => free_count n m < PMM64_USER_RESERVE
  | OpAllocAbove p => forall f, 0 <= f < n -> p <= f * PMM64_FRAME_SIZE -> m f <> 0
  | _ => False
  end.

Definition map_is (m m' : Z -> Z) (f : Z) (v : Z) : Prop :=
  forall g, m' g = if g =? f then v else m g.

Inductive owner_step (n : Z) : pmm_op -> (Z -> Z) -> Z -> (Z -> Z) -> Prop :=
| os_take op m f m' :
    may_take n op m f -> map_is m m' f 1 -> owner_step n op m (f * PMM64_FRAME_SIZE) m'
| os_refuse op m m' :
    may_refuse n op m -> (forall g, m' g = m g) -> owner_step n op m 0 m'
| os_release m p m' :
    0 < m (p / PMM64_FRAME_SIZE) ->
    map_is m m' (p / PMM64_FRAME_SIZE) (m (p / PMM64_FRAME_SIZE) - 1) ->
    owner_step n (OpFree p) m 0 m'
| os_release_unowned m p m' :
    m (p / PMM64_FRAME_SIZE) = 0 -> (forall g, m' g = m g) -> owner_step n (OpFree p) m 0 m'
| os_share m p m' :
    0 < m (p / PMM64_FRAME_SIZE) < 256 ->
    map_is m m' (p / PMM64_FRAME_SIZE) (m (p / PMM64_FRAME_SIZE) + 1) ->
    owner_step n (OpRef p) m 1 m'
| os_share_refused m p m' :
    (m (p / PMM64_FRAME_SIZE) = 0 \/ m (p / PMM64_FRAME_SIZE) = 256) ->
    (forall g, m' g = m g) -> owner_step n (OpRef p) m 0 m'
| os_reserve m a b m' :
    (forall g, m' g = if (0 <=? g) && (g <? n) && (m g =? 0)
                         && (a <? (g + 1) * PMM64_FRAME_SIZE) && (g * PMM64_FRAME_SIZE <? b)
                         && (b <=? 2 ^ 64 - PMM64_FRAME_SIZE)
                      then 1 else m g) ->
    owner_step n (OpReserve a b) m 0 m'
| os_oom m r m' :
    (forall g, m' g = m g) -> owner_step n OpTakeOom m r m'.

(** ** Counting *)

Lemma byte_used_popcount v : is_byte v -> byte_used v = count_up 8 0 (Z.testbit v).
Proof.
  intros Hv.
  assert (forallb (fun v => byte_used v =? count_up 8 0 (Z.testbit v)) (seqZ 0 256) = true) as H
    by (vm_compute; reflexivity).
  rewrite forallb_forall in H. apply Z.eqb_eq, H.
  apply list_elem_of_In, elem_of_seqZ. unfold is_byte in Hv. lia.
Qed.

Lemma count_up_shift n i k p : count_up n (i + k) p = count_up n i (fun j => p (j + k)).
Proof.
  revert i. induction n as [|n IH]; intros i; simpl; [done|].
  f_equal. rewrite <-IH. f_equal. lia.
Qed.

Lemma byte_used_frames s b :
  pmm_ok s -> 0 <= b < zlen (bitmap s) ->
  byte_used (zget (bitmap s) b) = count_up 8 (b * 8) (frame_used s).
Proof.
  intros Hok Hb. rewrite byte_used_popcount by (apply (zget_Forall is_byte); [apply Hok|done]).
  replace (b * 8) with (0 + b * 8) by lia. rewrite count_up_shift.
  apply count_up_ext. intros j Hj. unfold frame_used, bset.
  by rewrite Z.div_add, Z.div_small, Z.mod_add, Z.mod_small by lia.
Qed.

Lemma for_up_count n i (p : Z -> bool) (acc : Z) :
  for_up n i (fun f used => if p f then used + 1 else used) acc = acc + count_up n i p.
Proof.
  revert i acc. induction n as [|n IH]; intros i acc; simpl; [lia|].
  rewrite IH. destruct (p i); lia.
Qed.

Lemma free_count_unused s : pmm_ok s ->
  free_count (frame_count s) (owners s) = frame_count s - used_count s.
Proof.
  intros Hok. rewrite (ok_used _ Hok). pose proof (ok_count _ Hok).
  assert (forall n i (p : Z -> bool), count_up n i (fun f => negb (p f)) = Z.of_nat n - count_up n i p) as Hneg.
  { induction n as [|n IH]; intros; cbn [count_up]; [done|]. rewrite IH. destruct (p i); simpl; lia. }
  unfold free_count. rewrite (count_up_ext _ _ _ (fun f => negb (frame_used s f))).
  - rewrite Hneg. lia.
  - intros j Hj. pose proof (owners_zero_unused s j Hok ltac:(lia)).
    destruct (Z.eqb_spec (owners s j) 0), (frame_used s j); simpl; intuition congruence.
Qed.

Lemma free_frames_count s : pmm_ready s ->
  pmm64_free_frames s = free_count (frame_count s) (owners s).
Proof.
  intros [Hok Hr]. rewrite free_count_unused by done. unfold pmm64_free_frames. rewrite Hr. simpl.
  pose proof (ok_count _ Hok). pose proof (used_count_range s Hok). apply u64_small. lia.
Qed.

(** ** The reserved ranges *)

Definition in_pages (a b g : Z) : bool :=
  (a / PMM64_FRAME_SIZE <=? g) && (g <? u64 (b + PMM64_FRAME_SIZE - 1) / PMM64_FRAME_SIZE).

Lemma reserve_region_spec a b s :
  pmm_ok s -> 0 <= a ->
  let s' := pmm64_reserve_region a b s in
  pmm_ok s' /\ only_bits s s' /\
  forall g, 0 <= g < frame_count s -> frame_used s' g = in_pages a b g || frame_used s g.
Proof.
  intros Hok Ha. unfold pmm64_reserve_region, in_pages.
  set (sf := a / _). set (ef := u64 _ / _).
  assert (0 <= sf) by (apply Z.div_pos; unfold PMM64_FRAME_SIZE; lia).
  destruct (Z.ltb_spec sf ef).
  - destruct (mark_range_spec s sf (ef - sf) true) as (Ho & Hb & Hu); [done|done|done|].
    split_and!; [done|done|]. intros g Hg. rewrite Hu by done.
    replace (sf + (ef - sf)) with ef by lia. destruct (_ && _); [done|by destruct (frame_used s g)].
  - split_and!; [done|apply only_bits_refl|]. intros g Hg.
    destruct (Z.leb_spec sf g), (Z.ltb_spec g ef); simpl; (done || lia).
Qed.

Lemma in_pages_overlap a b g :
  0 <= a -> 0 <= b <= 2 ^ 64 - PMM64_FRAME_SIZE ->
  in_pages a b g = (a <? (g + 1) * PMM64_FRAME_SIZE) && (g * PMM64_FRAME_SIZE <? b).
Proof.
  unfold in_pages, PMM64_FRAME_SIZE. intros Ha Hb.
  rewrite u64_small by lia. f_equal.
  - pose proof (Z.div_mod a 4096). pose proof (Z.mod_pos_bound a 4096).
    destruct (Z.leb_spec (a / 4096) g), (Z.ltb_spec a ((g + 1) * 4096)); (done || lia).
  - pose proof (Z.div_mod (b + 4096 - 1) 4096). pose proof (Z.mod_pos_bound (b + 4096 - 1) 4096).
    destruct (Z.ltb_spec g ((b + 4096 - 1) / 4096)), (Z.ltb_spec (g * 4096) b); (done || lia).
Qed.

Lemma owners_only_bits s s' g :
  only_bits s s' -> (forall h, 0 <= h < frame_count s -> frame_used s h = true ->
    frame_used s' h = true) -> pmm_ok s ->
  owners s' g = if (0 <=? g) && (g <? frame_count s) && (owners s g =? 0) && frame_used s' g
                then 1 else owners s g.
Proof.
  intros Hb Hmono Hok.
  assert (frame_count s' = frame_count s /\ extra s' = extra s) as [Hc He] by (by rewrite Hb).
  destruct (decide (0 <= g < frame_count s)) as [Hg|Hg].
  - replace (0 <=? g) with true by (symmetry; apply Z.leb_le; lia).
    replace (g <? frame_count s) with true by (symmetry; apply Z.ltb_lt; lia).
    rewrite !owners_in, He by lia. pose proof (extra_range s g Hok Hg). simpl.
    destruct (frame_used s g) eqn:Hu.
    + rewrite (Hmono g Hg Hu). by replace (1 + extra s g =? 0) with false
        by (symmetry; apply Z.eqb_neq; lia).
    + simpl. destruct (frame_used s' g); [|done]. by rewrite (ok_refs_free _ Hok g Hg Hu).
  - rewrite !owners_out by (rewrite ?Hc; done).
    destruct (Z.leb_spec 0 g), (Z.ltb_spec g (frame_count s)); simpl; (done || lia).
Qed.

Lemma alloc_above_took min_phys s :
  pmm_ok s -> ready s = true -> 0 <= min_phys < 2 ^ 64 ->
  (exists f, (min_phys <= f * PMM64_FRAME_SIZE \/ 2 ^ 64 - PMM64_FRAME_SIZE < min_phys) /\
     (pmm64_alloc_above min_phys s).1 = f * PMM64_FRAME_SIZE /\
     took s f (pmm64_alloc_above min_phys s).2) \/
  (pmm64_alloc_above min_phys s = (0, s) /\
   forall f, 0 <= f < frame_count s -> min_phys <= f * PMM64_FRAME_SIZE -> frame_used s f = true).
Proof.
  intros Hok Hr Hm. unfold pmm64_alloc_above, PMM64_FRAME_SIZE in *. rewrite Hr. simpl.
  set (first := u64 _ / 4096).
  pose proof (u64_range (min_phys + 4096 - 1)) as Hu64.
  assert (0 <= first) as Hf0 by (apply Z.div_pos; lia).
  assert (min_phys <= first * 4096 \/ 2 ^ 64 - 4096 < min_phys) as Hfirst.
  { destruct (decide (2 ^ 64 - 4096 < min_phys)); [by right|left].
    unfold first. rewrite u64_small by lia.
    pose proof (Z.div_mod (min_phys + 4096 - 1) 4096).
    pose proof (Z.mod_pos_bound (min_phys + 4096 - 1) 4096). lia. }
  assert (first * 4096 <= min_phys + 4095) as Hfirst2.
  { unfold first. pose proof (Z.mul_div_le (u64 (min_phys + 4096 - 1)) 4096).
    unfold u64 in *. pose proof (Z.mod_le (min_phys + 4096 - 1) (2 ^ 64)). lia. }
  destruct (find_up _ _ _) as [f|] eqn:Hfind.
  - left. apply find_up_Some in Hfind as (Hr1 & Hp & _). rewrite bitmap_test_used in Hp. zbool.
    exists f. split_and!; [lia|done|]. simpl.
    destruct (bitmap_set_fields f s) as (_ & _ & Ha & Hh & _).
    pose proof (took_set s f (alloc_hint s) (high_hint s) Hok ltac:(lia) Hp
      (ok_alloc_hint _ Hok) (ok_high_hint _ Hok)) as Ht.
    rewrite <-Ha, <-Hh in Ht. by destruct (bitmap_set f s).
  - right. split; [done|]. rewrite find_up_None in Hfind. intros f Hf Hm'.
    specialize (Hfind f). rewrite bitmap_test_used in Hfind. zbool. apply negb_false_iff, Hfind. lia.
Qed.

(** ** The memory map *)

Record boot_ok (boot : boot_memory) (mbi : multiboot_info) : Prop := {
  bo_mmap_addr : 0 <= mmap_addr mbi < 2 ^ 32;
  bo_mmap_length : 0 <= mmap_length mbi < 2 ^ 32;
  bo_lower : 0 <= mem_lower mbi < 2 ^ 32;
  bo_upper : 0 <= mem_upper mbi < 2 ^ 32;
  bo_mods : 0 <= mods_count mbi < 2 ^ 32;
  bo_entry : forall p, 0 <= e_size (read_entry boot p) < 2 ^ 32 /\
                       0 <= e_addr (read_entry boot p) < 2 ^ 64;
  bo_module : forall p, 0 <= mod_end (read_module boot p) < 2 ^ 32
}.

(** The regions the map reports available, in the order of the calls. *)
Definition avail_regions (boot : boot_memory) (mbi : multiboot_info) : list (Z * Z) :=
  match for_each_available boot mbi (fun a b l => l ++ [(a, b)]) [] with
  | Some l => l | None => []
  end.

Definition region_has (g : Z) (r : Z * Z) : bool :=
  (r.1 / PMM64_FRAME_SIZE <=? g) && (g <? r.2 / PMM64_FRAME_SIZE).

Definition run_regions {S} (fn : Z -> Z -> S -> S) (s : S) (l : list (Z * Z)) : S :=
  fold_left (fun s r => fn r.1 r.2 s) l s.

(** Each step of the walk moves the address up by at least 4, so a fuel of
    the map's length in bytes is enough. *)
Lemma mmap_walk_regions boot mbi fuel addr :
  boot_ok boot mbi -> 0 <= addr ->
  mmap_addr mbi + mmap_length mbi - addr <= Z.of_nat fuel ->
  exists l, Forall (fun r => 0 <= r.1 /\ 0 <= r.2 < 2 ^ 64) l /\
    forall S (fn : Z -> Z -> S -> S) s,
      mmap_walk fuel boot addr (mmap_addr mbi + mmap_length mbi) fn s
        = Some (run_regions fn s l).
Proof.
  intros Hb. pose proof (bo_mmap_addr _ _ Hb). pose proof (bo_mmap_length _ _ Hb).
  revert addr. induction fuel as [|fuel IH]; intros addr Ha Hfuel.
  - exists []. split; [constructor|]. intros. cbn [mmap_walk].
    by destruct (Z.ltb_spec addr (mmap_addr mbi + mmap_length mbi)); [lia|].
  - destruct (Z.ltb_spec addr (mmap_addr mbi + mmap_length mbi)) as [Hlt|Hge].
    2: { exists []. split; [constructor|]. intros. cbn [mmap_walk].
         by destruct (Z.ltb_spec addr (mmap_addr mbi + mmap_length mbi)); [lia|]. }
    destruct (bo_entry _ _ Hb addr) as [Hsz Hea].
    set (e := read_entry boot addr) in *.
    destruct (IH (u64 (addr + (e_size e + 4)))) as (l & Hl & Heq);
      [apply u64_range|rewrite u64_small by lia; lia|].
    exists ((if (e_type e =? MULTIBOOT_MEMORY_AVAILABLE) && (0 <? e_len e)
             then [(e_addr e, u64 (e_addr e + e_len e))] else []) ++ l).
    split.
    + apply Forall_app. split; [|done]. destruct (_ && _); [|done].
      constructor; [|done]. simpl. split; [lia|apply u64_range].
    + intros S fn s. cbn [mmap_walk].
      destruct (Z.ltb_spec addr (mmap_addr mbi + mmap_length mbi)); [|lia].
      fold e. rewrite Heq. by destruct (_ && _).
Qed.

Lemma for_each_available_regions boot mbi :
  boot_ok boot mbi ->
  Forall (fun r => 0 <= r.1 /\ 0 <= r.2 < 2 ^ 64) (avail_regions boot mbi) /\
  forall S (fn : Z -> Z -> S -> S) s,
    for_each_available boot mbi fn s = Some (run_regions fn s (avail_regions boot mbi)).
Proof.
  intros Hb. pose proof (bo_lower _ _ Hb). pose proof (bo_upper _ _ Hb).
  pose proof (bo_mmap_addr _ _ Hb).
  assert (exists l, Forall (fun r => 0 <= r.1 /\ 0 <= r.2 < 2 ^ 64) l /\
    forall S (fn : Z -> Z -> S -> S) s,
      for_each_available boot mbi fn s = Some (run_regions fn s l)) as (l & Hl & Heq).
  { unfold for_each_available. destruct (negb _).
    - exists [(0, mem_lower mbi * 1024); (0x100000, 0x100000 + mem_upper mbi * 1024)].
      split; [|done]. repeat constructor; simpl; lia.
    - apply (mmap_walk_regions boot mbi _ (mmap_addr mbi)); [done|lia|lia]. }
  assert (avail_regions boot mbi = l) as ->; [|by split].
  unfold avail_regions. rewrite Heq. unfold run_regions.
  assert (forall k, fold_left (fun s r => s ++ [(r.1, r.2)]) l k = k ++ l) as ->; [|done].
  clear. induction l as [|[a b] l IH]; intros k; simpl; [by rewrite app_nil_r|].
  rewrite IH. by rewrite <-app_assoc.
Qed.

Lemma note_highest_run l s : exists h,
  run_regions note_highest s l = set_highest_addr h s.
Proof.
  revert s. induction l as [|[a b] l IH]; intros s; simpl.
  - exists (highest_addr s). by destruct s.
  - destruct (IH (note_highest a b s)) as [h Hh]. exists h. rewrite Hh.
    unfold note_highest. destruct (_ <? _); [by destruct s|done].
Qed.

(** ** Initialisation *)

Lemma bset_for_up_lor n sf r g :
  0 <= sf -> (forall f, sf <= f < sf + Z.of_nat n -> f / 8 < zlen r) -> 0 <= g ->
  let r' := for_up n sf (fun f r => zset r (Z.shiftr f 3)
              (Z.lor (zget r (Z.shiftr f 3)) (bit_mask f))) r in
  zlen r' = zlen r /\
  bset r' g = ((sf <=? g) && (g <? sf + Z.of_nat n)) || bset r g.
Proof.
  intros Hsf Hlen Hg. cbv zeta.
  apply (for_up_ind (fun k t => zlen t = zlen r /\
    bset t g = ((sf <=? g) && (g <? k)) || bset r g)).
  - split; [done|]. destruct (Z.leb_spec sf g), (Z.ltb_spec g sf); simpl; (done || lia).
  - intros k t Hk [Hl Hb]. rewrite zlen_zset. split; [done|].
    rewrite shiftr3, bset_lor, Hb by (try rewrite Hl; first [lia|apply Hlen; lia]).
    destruct (Z.eqb_spec k g), (Z.leb_spec sf g), (Z.ltb_spec g k), (Z.ltb_spec g (k + 1));
      simpl; (done || lia).
Qed.

(** [s'] differs from [s] only in the two bitmaps and the running count. *)
Definition only_maps (s s' : pmm) : Prop :=
  s' = set_bitmap (bitmap s') (set_used_count (used_count s') (set_ram (ram s') s)).

Lemma only_maps_trans s1 s2 s3 : only_maps s1 s2 -> only_maps s2 s3 -> only_maps s1 s3.
Proof. unfold only_maps. intros H12 H23. rewrite H23 at 1. rewrite H12 at 1. by destruct s1. Qed.

Lemma only_bits_maps s s' : only_bits s s' -> only_maps s s'.
Proof. unfold only_bits, only_maps. intros ->. by destruct s. Qed.

Lemma only_maps_set_ram s s' r : only_bits s s' -> only_maps s (set_ram r s').
Proof. unfold only_bits, only_maps. intros ->. by destruct s. Qed.

Lemma free_region_spec a b s :
  pmm_ok s -> 0 <= a -> (forall f, 0 <= f < frame_count s -> extra s f = 0) ->
  let s' := free_region a b s in
  pmm_ok s' /\ only_maps s s' /\
  forall g, 0 <= g < frame_count s ->
    frame_used s' g = negb (region_has g (a, b)) && frame_used s g /\
    ram_bit s' g = region_has g (a, b) || ram_bit s g.
Proof.
  intros Hok Ha Hx. unfold free_region, region_has, PMM64_FRAME_SIZE. cbn [fst snd].
  set (sf := a / 4096). set (ef := b / 4096).
  assert (0 <= sf) as Hsf by (apply Z.div_pos; lia).
  set (s1 := if sf <? ef then mark_range sf (ef - sf) false s else s).
  assert (pmm_ok s1 /\ only_bits s s1 /\ forall g, 0 <= g < frame_count s ->
    frame_used s1 g = negb ((sf <=? g) && (g <? ef)) && frame_used s g) as (Hok1 & Hb1 & Hu1).
  { unfold s1. destruct (Z.ltb_spec sf ef).
    - destruct (mark_range_spec s sf (ef - sf) false) as (Ho & Hb & Hu);
        [done|done|intros; apply Hx; lia|].
      split_and!; [done|done|]. intros g Hg. rewrite Hu by done.
      replace (sf + (ef - sf)) with ef by lia. by destruct (_ && _).
    - split_and!; [done|apply only_bits_refl|]. intros g Hg.
      destruct (Z.leb_spec sf g), (Z.ltb_spec g ef); simpl; (done || lia). }
  destruct (ok_ram _ Hok) as (r & Hr & Hlr).
  assert (frame_count s1 = frame_count s /\ ram s1 = Some r /\ extra s1 = extra s)
    as (Hc & Hr1 & He1) by (by rewrite Hb1).
  rewrite Hr1, Hc.
  set (n := Z.to_nat (Z.min ef (frame_count s) - sf)).
  assert (forall g, 0 <= g -> zlen (for_up n sf (fun f r => zset r (Z.shiftr f 3)
      (Z.lor (zget r (Z.shiftr f 3)) (bit_mask f))) r) = zlen r /\
    bset (for_up n sf (fun f r => zset r (Z.shiftr f 3)
      (Z.lor (zget r (Z.shiftr f 3)) (bit_mask f))) r) g
      = ((sf <=? g) && (g <? sf + Z.of_nat n)) || bset r g) as Hram.
  { intros g Hg. apply bset_for_up_lor; [done| |done].
    intros f Hf. rewrite Hlr. apply frame_byte_bound. lia. }
  split_and!.
  - split; simpl; try apply Hok1. eexists. split; [done|].
    rewrite (proj1 (Hram 0 ltac:(lia))), Hc. done.
  - by apply only_maps_set_ram.
  - intros g Hg. split; [by apply Hu1|].
    unfold ram_bit. simpl. rewrite Hr, Hc, (proj2 (Hram g ltac:(lia))).
    destruct (Z.leb_spec 0 g), (Z.ltb_spec g (frame_count s)); simpl; try lia.
    destruct (Z.leb_spec sf g), (Z.ltb_spec g (sf + Z.of_nat n)), (Z.ltb_spec g ef);
      simpl; (done || lia).
Qed.

Lemma free_regions_spec l s :
  pmm_ok s -> Forall (fun r : Z * Z => 0 <= r.1 /\ 0 <= r.2 < 2 ^ 64) l ->
  (forall f, 0 <= f < frame_count s -> extra s f = 0) ->
  let s' := run_regions free_region s l in
  pmm_ok s' /\ only_maps s s' /\
  forall g, 0 <= g < frame_count s ->
    frame_used s' g = negb (existsb (region_has g) l) && frame_used s g /\
    ram_bit s' g = existsb (region_has g) l || ram_bit s g.
Proof.
  revert s. induction l as [|[a b] l IH]; intros s Hok HF Hx; simpl.
  - split_and!; [done|by destruct s|done].
  - inversion HF as [|? ? [Ha _] HF']; subst. simpl in Ha.
    destruct (free_region_spec a b s Hok Ha Hx) as (Hok1 & Hm1 & Hg1).
    assert (frame_count (free_region a b s) = frame_count s /\ extra (free_region a b s) = extra s)
      as [Hc1 He1] by (by rewrite Hm1).
    destruct (IH (free_region a b s)) as (Hok2 & Hm2 & Hg2); [done|done|by rewrite Hc1, He1|].
    split_and!; [done|by eapply only_maps_trans|].
    intros g Hg. rewrite Hc1 in Hg2. destruct (Hg2 g Hg) as [-> ->], (Hg1 g Hg) as [-> ->].
    by destruct (region_has g (a, b)), (existsb (region_has g) l), (frame_used s g), (ram_bit s g).
Qed.

Lemma place_above_spec boot mbi ke :
  boot_ok boot mbi -> 0 <= ke < 2 ^ 40 ->
  let p := place_above boot mbi ke in
  ke <= p < 2 ^ 41 /\
  (nz (Z.land (mb_flags mbi) MULTIBOOT_INFO_MODS) = true ->
   forall i, 0 <= i < mods_count mbi -> mod_end (read_module boot (mods_addr mbi + i * 16)) <= p).
Proof.
  intros Hb Hke. unfold place_above. set (q := if _ && _ then _ else ke).
  pose proof (bo_mods _ _ Hb) as Hmc.
  assert (ke <= q < 2 ^ 40 + 2 ^ 32 /\ (nz (Z.land (mb_flags mbi) MULTIBOOT_INFO_MODS) = true ->
    forall i, 0 <= i < mods_count mbi -> mod_end (read_module boot (mods_addr mbi + i * 16)) <= q))
    as [Hq Hqm].
  { unfold q. destruct (nz (Z.land _ _)) eqn:Hfl; simpl; [|split; [lia|done]].
    destruct (nz (mods_count mbi)) eqn:Hn; [|apply nz_false in Hn; split; [lia|intros; lia]].
    pose proof (for_up_ind (fun k p => ke <= p < 2 ^ 40 + 2 ^ 32 /\
      forall i, 0 <= i < k -> mod_end (read_module boot (mods_addr mbi + i * 16)) <= p)
      (fun i p => let m := read_module boot (mods_addr mbi + i * 16) in
         if p <? mod_end m then mod_end m else p) (Z.to_nat (mods_count mbi)) 0 ke) as Hind.
    destruct Hind as [Hr Hm].
    - split; [lia|intros; lia].
    - intros k p Hk [Hp Hi]. pose proof (bo_module _ _ Hb (mods_addr mbi + k * 16)).
      cbv zeta. destruct (Z.ltb_spec p (mod_end (read_module boot (mods_addr mbi + k * 16)))).
      + split; [lia|]. intros i Hik. destruct (decide (i = k)) as [->|]; [lia|].
        specialize (Hi i ltac:(lia)). lia.
      + split; [lia|]. intros i Hik. destruct (decide (i = k)) as [->|]; [lia|]. apply Hi. lia.
    - split; [exact Hr|]. intros _ i Hi. apply Hm. lia. }
  assert (and_not64 (u64 (q + PMM64_FRAME_SIZE - 1)) (PMM64_FRAME_SIZE - 1)
          = (q + 4095) / 4096 * 4096) as ->.
  { unfold and_not64, PMM64_FRAME_SIZE. rewrite u64_small by lia.
    replace (q + 4096 - 1) with (q + 4095) by lia.
    change (2 ^ 64 - 1 - (4096 - 1)) with (Z.shiftl (Z.ones 52) 12).
    apply Z.bits_inj'. intros k Hk. rewrite Z.land_spec, <-Z.shiftr_div_pow2 with (n := 12) by lia.
    change 4096 with (2 ^ 12). rewrite <-Z.shiftl_mul_pow2, !Z.shiftl_spec by lia.
    destruct (decide (k < 12)).
    - rewrite !(Z.testbit_neg_r _ (k - 12)) by lia. apply andb_false_r.
    - rewrite Z.shiftr_spec by lia. replace (k - 12 + 12) with k by lia.
      destruct (decide (k < 64)).
      + rewrite Z.ones_spec_low by lia. apply andb_true_r.
      + rewrite Z.ones_spec_high by lia. rewrite andb_false_r. symmetry.
        apply Z.bits_above_log2; [lia|]. apply Z.lt_le_trans with 64; [|lia].
        destruct (decide (q + 4095 = 0)) as [->|]; [done|]. apply Z.log2_lt_pow2; lia. }
  pose proof (Z.div_mod (q + 4095) 4096). pose proof (Z.mod_pos_bound (q + 4095) 4096).
  split; [lia|]. intros Hfl i Hi. specialize (Hqm Hfl i Hi). lia.
Qed.

(** The state the second pass over the map starts from. *)
Lemma all_used_ok t n :
  0 <= n <= 2 ^ 30 -> frame_count t = n -> alloc_hint t = 0 -> high_hint t = n ->
  used_count t = n -> bitmap t = replicate (Z.to_nat ((n + 7) / 8)) 0xFF ->
  refs t = Some (replicate (Z.to_nat n) 0) ->
  ram t = Some (replicate (Z.to_nat ((n + 7) / 8)) 0) ->
  pmm_ok t /\ (forall f, 0 <= f < n -> extra t f = 0) /\
  (forall g, 0 <= g < n -> frame_used t g = true /\ ram_bit t g = false).
Proof.
  intros Hn Hc Hah Hhh Huc Hbm Hrf Hrm.
  assert (0 <= (n + 7) / 8) as Hby by (apply Z.div_pos; lia).
  assert (forall g, 0 <= g < n -> frame_used t g = true) as Hused.
  { intros g Hg. unfold frame_used, bset. rewrite Hbm.
    pose proof (frame_byte_bound g n Hg). rewrite zget_replicate by lia.
    change 255 with (Z.ones 8). apply Z.ones_spec_low. apply Z.mod_pos_bound. lia. }
  assert (forall f, 0 <= f < n -> extra t f = 0) as Hx.
  { intros f Hf. unfold extra. rewrite Hrf. apply zget_replicate. lia. }
  split_and!; [|done|].
  - split; rewrite ?Hc, ?Hah, ?Hhh, ?Huc, ?Hbm; try lia.
    + unfold zlen. rewrite length_replicate. lia.
    + apply Forall_replicate. unfold is_byte. lia.
    + eexists. split_and!; [done| |apply Forall_replicate; unfold is_byte; lia].
      unfold zlen. rewrite length_replicate. lia.
    + intros f Hf _. by apply Hx.
    + eexists. split; [done|]. unfold zlen. rewrite length_replicate. lia.
    + rewrite count_up_true; [lia|]. intros j Hj. apply Hused. lia.
  - intros g Hg. split; [by apply Hused|]. unfold ram_bit. rewrite Hrm, Hc.
    pose proof (frame_byte_bound g n Hg). unfold bset. rewrite zget_replicate by lia.
    rewrite Z.bits_0. by rewrite andb_false_r.
Qed.

(** Whether frame [g] lies inside an available region, from the first page
    the region touches to the last page it fills. *)
Definition avail_frame (boot : boot_memory) (mbi : multiboot_info) (g : Z) : bool :=
  existsb (region_has g) (avail_regions boot mbi).

Lemma init_claims_spec boot mbi ks ke t0 n :
  boot_ok boot mbi -> 0 <= ks -> pmm_ok t0 -> frame_count t0 = n ->
  0 <= bitmap_phys_addr t0 ->
  (forall f, 0 <= f < n -> extra t0 f = 0) ->
  (forall g, 0 <= g < n -> frame_used t0 g = true /\ ram_bit t0 g = false) ->
  exists s', init_claims boot mbi ks ke t0 = Some s' /\ pmm_ok s' /\ ready s' = true /\
    only_maps (set_ready true t0) s' /\
    forall g, 0 <= g < n ->
      frame_used s' g = in_pages (bitmap_phys_addr t0) (ram_phys_addr t0 + ram_size_bytes t0) g
        || (in_pages ks ke g || ((g <? 256) || negb (avail_frame boot mbi g))) /\
      ram_bit s' g = avail_frame boot mbi g.
Proof.
  intros Hb Hks Hok0 Hc0 Hbp Hx0 Hg0. destruct (for_each_available_regions boot mbi Hb) as [HF Hfor].
  unfold init_claims, avail_frame. rewrite Hfor.
  destruct (free_regions_spec _ t0 Hok0 HF) as (Hok1 & Hm1 & Hg1); [by rewrite Hc0|].
  set (t1 := run_regions free_region t0 _) in *.
  destruct (mark_range_spec t1 0 (0x100000 / PMM64_FRAME_SIZE) true Hok1) as (Hok2 & Hb2 & Hg2);
    [lia|done|].
  set (t2 := mark_range 0 _ true t1) in *.
  destruct (reserve_region_spec ks ke t2 Hok2 Hks) as (Hok3 & Hb3 & Hg3).
  set (t3 := pmm64_reserve_region ks ke t2) in *. cbv zeta.
  assert (only_maps t0 t3) as Hm3.
  { eapply only_maps_trans; [exact Hm1|].
    eapply only_maps_trans; apply only_bits_maps; eassumption. }
  destruct (reserve_region_spec (bitmap_phys_addr t3) (ram_phys_addr t3 + ram_size_bytes t3) t3
    Hok3) as (Hok4 & Hb4 & Hg4); [by rewrite Hm3|].
  set (t4 := pmm64_reserve_region (bitmap_phys_addr t3) _ t3) in *.
  assert (only_maps t0 t4) as Hm4.
  { eapply only_maps_trans; [exact Hm3|]. by apply only_bits_maps. }
  assert (frame_count t1 = n /\ frame_count t2 = n /\ frame_count t3 = n) as (Hc1 & Hc2 & Hc3).
  { rewrite Hb3. simpl. rewrite Hb2. simpl. by rewrite Hm1. }
  assert (ram t4 = ram t1 /\ frame_count t4 = frame_count t1) as [Hrm Hc4].
  { rewrite Hb4. simpl. rewrite Hb3. simpl. by rewrite Hb2. }
  assert (bitmap_phys_addr t3 = bitmap_phys_addr t0 /\
    ram_phys_addr t3 + ram_size_bytes t3 = ram_phys_addr t0 + ram_size_bytes t0) as [Hp3 He3]
    by (by rewrite Hm3).
  exists (set_ready true t4). split_and!; [done| |done| |].
  - destruct Hok4. by split.
  - unfold only_maps in *. rewrite Hm4 at 1. by destruct t0.
  - intros g Hg. rewrite Hc0 in Hg1. rewrite Hc1 in Hg2. rewrite Hc2 in Hg3. rewrite Hc3 in Hg4.
    destruct (Hg1 g Hg) as [Hu1 Hr1], (Hg0 g Hg) as [Hu0 Hr0]. split.
    + change (frame_used (set_ready true t4) g) with (frame_used t4 g).
      rewrite (Hg4 g Hg), (Hg3 g Hg), (Hg2 g Hg), Hu1, Hu0, Hp3, He3, andb_true_r.
      do 2 f_equal. change (0 + 0x100000 / PMM64_FRAME_SIZE) with 256.
      destruct (Z.leb_spec 0 g); [simpl|lia]. by destruct (g <? 256).
    + change (ram_bit (set_ready true t4) g) with (ram_bit t4 g).
      unfold ram_bit in *. rewrite Hrm, Hc4, Hr1. by rewrite Hr0, orb_false_r.
Qed.

(** A run of [pmm64_init] either reports not ready, or places the tables
    above the kernel and claims frames. *)
Lemma init_cases boot mbi ks ke s :
  boot_ok boot mbi -> 0 <= ks -> 0 <= ke < 2 ^ 40 ->
  let p := place_above boot mbi ke in
  exists s', pmm64_init boot mbi ks ke s = Some s' /\
    (ready s' = true ->
     pmm_ok s' /\ bitmap_phys_addr s' = p /\
     p <= ram_phys_addr s' + ram_size_bytes s' <= BOOT_WINDOW_BYTES /\
     forall g, 0 <= g < frame_count s' ->
       frame_used s' g = in_pages p (ram_phys_addr s' + ram_size_bytes s') g
         || (in_pages ks ke g || ((g <? 256) || negb (avail_frame boot mbi g))) /\
       ram_bit s' g = avail_frame boot mbi g).
Proof.
  intros Hb Hks Hke. destruct (for_each_available_regions boot mbi Hb) as [_ Hfor].
  destruct (place_above_spec boot mbi ke Hb Hke) as [Hpl _].
  unfold pmm64_init. rewrite Hfor.
  destruct (note_highest_run (avail_regions boot mbi)
    (set_alloc_hint 0 (set_double_frees 0 (set_highest_addr 0 (set_ready false s))))) as [h ->].
  cbn [highest_addr set_highest_addr set_alloc_hint].
  destruct (Z.eqb_spec h 0) as [|_]; [eexists; split; [done|]; done|].
  set (p := place_above boot mbi ke) in *. cbv zeta.
  set (n := u64 (h + PMM64_FRAME_SIZE - 1) / PMM64_FRAME_SIZE).
  simpl frame_count. simpl bitmap_size_bytes. simpl refs_size_bytes. simpl ram_size_bytes.
  set (nb := (n + 7) / 8).
  pose proof (u64_range (h + PMM64_FRAME_SIZE - 1)) as Hr64.
  assert (0 <= n < 2 ^ 52) as Hn.
  { unfold n, PMM64_FRAME_SIZE in *. split; [apply Z.div_pos; lia|].
    apply Z.div_lt_upper_bound; lia. }
  assert (0 <= nb < 2 ^ 52) as Hnb.
  { unfold nb. split; [apply Z.div_pos; lia|]. apply Z.div_lt_upper_bound; lia. }
  unfold BOOT_WINDOW_BYTES. rewrite u64_small by lia.
  destruct (Z.ltb_spec 0x40000000 (p + nb + n + nb)); [eexists; split; [done|]; done|].
  match goal with |- context [init_claims _ _ _ _ ?t] => set (t0 := t) end.
  destruct (all_used_ok t0 n) as (Hok0 & Hx0 & Hg0); [lia|done..|].
  destruct (init_claims_spec boot mbi ks ke t0 n) as (s' & Heq & Hok & Hr & Hm & Hg);
    [done|done|done|done|simpl; lia|done|done|].
  exists s'. split; [done|]. intros _.
  assert (frame_count s' = n /\ bitmap_phys_addr s' = p /\
    ram_phys_addr s' + ram_size_bytes s' = p + nb + n + nb) as (-> & -> & ->)
    by (rewrite Hm; done).
  split_and!; [done|done|lia|lia|exact Hg].
Qed.

(** ** Each operation refines the abstract one *)

Definition step_refines (s : pmm) (op : pmm_op) (r : Z) (s' : pmm) : Prop :=
  pmm_ready s' /\ frame_count s' = frame_count s /\
  owner_step (frame_count s) op (owners s) r (owners s').

Lemma took_refines s op f s' :
  pmm_ready s -> took s f s' -> may_take (frame_count s) op (owners s) f ->
  step_refines s op (f * PMM64_FRAME_SIZE) s'.
Proof.
  intros [Hok Hr] (_ & _ & Hok' & Hc & Hr' & _ & Ho) Hm.
  split_and!; [split; [done|congruence]|done|]. by apply os_take.
Qed.

Lemma refusal_refines s op :
  pmm_ready s -> may_refuse (frame_count s) op (owners s) -> step_refines s op 0 s.
Proof. intros. split_and!; [done..|]. by apply os_refuse. Qed.

Lemma all_used_owned s f :
  pmm_ok s -> 0 <= f < frame_count s -> frame_used s f = true -> owners s f <> 0.
Proof. intros Hok Hf Hu Hz. apply owners_zero_unused in Hz; [congruence|done..]. Qed.

Lemma refines_oom s op r s' b : step_refines s op r s' -> step_refines s op r (set_user_oom b s').
Proof. intros ([Hok Hr] & Hc & Ho). split_and!; [|done..]. split; [by destruct Hok|done]. Qed.

Lemma alloc_frame_refines s : pmm_ready s ->
  step_refines s OpAlloc (pmm64_alloc_frame s).1 (pmm64_alloc_frame s).2.
Proof.
  intros Hs. pose proof Hs as [Hok Hr].
  destruct (alloc_frame_took s Hok Hr) as [(f & _ & -> & Ht)|[Hff ->]].
  - apply took_refines; [done..|]. by destruct Ht as (? & ? & _).
  - apply refusal_refines; [done|]. rewrite first_fit_None in Hff by done.
    intros f Hf. by apply all_used_owned, Hff.
Qed.

Lemma alloc_high_refines s op : pmm_ready s ->
  match op with
  | OpAllocHigh => True
  | OpAllocUser => PMM64_USER_RESERVE <= free_count (frame_count s) (owners s)
  | _ => False
  end ->
  step_refines s op (pmm64_alloc_high s).1 (pmm64_alloc_high s).2.
Proof.
  intros Hs Hop. pose proof Hs as [Hok Hr].
  destruct (alloc_high_took s Hok Hr) as [(f & _ & -> & Ht)|[Hff ->]].
  - apply took_refines; [done..|]. destruct Ht as (? & ? & _). by destruct op.
  - apply refusal_refines; [done|]. rewrite last_fit_None in Hff by done.
    destruct op; try done; simpl in *.
    + intros f Hf. by apply all_used_owned, Hff.
    + pose proof (ok_count _ Hok). rewrite free_count_unused in Hop by done.
      rewrite (ok_used _ Hok), count_up_true in Hop by (intros; apply Hff; lia).
      unfold PMM64_USER_RESERVE in Hop. lia.
Qed.

Lemma alloc_user_refines s : pmm_ready s ->
  step_refines s OpAllocUser (pmm64_alloc_user s).1 (pmm64_alloc_user s).2.
Proof.
  intros Hs. unfold pmm64_alloc_user. rewrite free_frames_count by done.
  destruct (Z.ltb_spec (free_count (frame_count s) (owners s)) PMM64_USER_RESERVE) as [Hlt|Hge].
  - apply refines_oom. by apply refusal_refines.
  - pose proof (alloc_high_refines s OpAllocUser Hs Hge) as H.
    destruct (pmm64_alloc_high s) as [r s']. destruct (r =? 0); [by apply refines_oom|done].
Qed.

Lemma alloc_above_refines s m : pmm_ready s -> 0 <= m < 2 ^ 64 ->
  step_refines s (OpAllocAbove m) (pmm64_alloc_above m s).1 (pmm64_alloc_above m s).2.
Proof.
  intros Hs Hm. pose proof Hs as [Hok Hr].
  destruct (alloc_above_took m s Hok Hr Hm) as [(f & Hmf & -> & Ht)|[-> Hall]].
  - apply took_refines; [done..|]. by destruct Ht as (? & ? & _).
  - apply refusal_refines; [done|]. intros f Hf ?. by apply all_used_owned, Hall.
Qed.

Lemma free_frame_refines s p : pmm_ready s -> 0 <= p ->
  step_refines s (OpFree p) 0 (pmm64_free_frame p s).
Proof.
  intros [Hok Hr] Hp. destruct (free_frame_owners s p Hok Hr Hp) as (Hok' & Hc & Hr' & _ & Ho).
  split_and!; [done..|]. set (f := p / PMM64_FRAME_SIZE) in *.
  pose proof (owners_range_ok s f Hok). destruct (decide (owners s f = 0)) as [Hz|Hz].
  - apply os_release_unowned; [done|]. intros g. rewrite Ho.
    destruct (Z.eqb_spec g f) as [->|]; lia.
  - apply os_release; fold f; [lia|]. intros g. rewrite Ho.
    destruct (Z.eqb_spec g f) as [->|]; lia.
Qed.

Lemma ref_frame_refines s p : pmm_ready s -> 0 <= p ->
  let '(b, s') := pmm64_ref_frame p s in step_refines s (OpRef p) (if b then 1 else 0) s'.
Proof.
  intros [Hok Hr] Hp. pose proof (ref_frame_owners s p Hok Hr Hp) as H.
  destruct (pmm64_ref_frame p s) as [b s']. destruct H as (Hok' & Hc & Hr' & _ & Hb & Ho).
  split_and!; [done..|]. set (f := p / PMM64_FRAME_SIZE) in *.
  pose proof (owners_range_ok s f Hok). destruct b; symmetry in Hb; simpl in Ho.
  - zbool. apply os_share; fold f; [lia|]. intros g. rewrite Ho.
    destruct (Z.eqb_spec g f) as [->|]; lia.
  - apply os_share_refused; fold f; [|exact Ho]. apply andb_false_iff in Hb.
    destruct Hb; zbool; lia.
Qed.

(** Past [2^64 - 4096] rounding the end up wraps to page 0, and nothing is
    reserved. *)
Lemma in_pages_wrap a b g :
  0 <= g -> 2 ^ 64 - PMM64_FRAME_SIZE < b < 2 ^ 64 -> in_pages a b g = false.
Proof.
  unfold in_pages, PMM64_FRAME_SIZE. intros Hg Hb.
  replace (u64 (b + 4096 - 1) / 4096) with 0.
  - replace (g <? 0) with false by (symmetry; apply Z.ltb_ge; lia). apply andb_false_r.
  - symmetry. apply Z.div_small. unfold u64.
    replace (b + 4096 - 1) with (b + 4095 - 2 ^ 64 + 1 * 2 ^ 64) by lia.
    rewrite Z.mod_add, Z.mod_small by lia. lia.
Qed.

Lemma reserve_refines s a b : pmm_ready s -> 0 <= a < 2 ^ 64 -> 0 <= b < 2 ^ 64 ->
  step_refines s (OpReserve a b) 0 (pmm64_reserve_region a b s).
Proof.
  intros [Hok Hr] Ha Hb. destruct (reserve_region_spec a b s Hok) as (Hok' & Hbits & Hu); [lia|].
  assert (frame_count (pmm64_reserve_region a b s) = frame_count s) as Hc by (by rewrite Hbits).
  split_and!; [split; [done|by rewrite Hbits]|done|]. apply os_reserve. intros g.
  rewrite (owners_only_bits s _ g Hbits)
    by (try done; intros h Hh Hus; by rewrite Hu, Hus, orb_true_r).
  destruct (Z.leb_spec 0 g), (Z.ltb_spec g (frame_count s)); simpl; try done.
  destruct (Z.eqb_spec (owners s g) 0) as [Hz|]; simpl; [|done].
  apply owners_zero_unused in Hz; [|done..]. rewrite Hu, Hz, orb_false_r by lia.
  destruct (Z.leb_spec b (2 ^ 64 - PMM64_FRAME_SIZE)).
  - rewrite in_pages_overlap by (unfold PMM64_FRAME_SIZE in *; lia). by rewrite andb_true_r.
  - rewrite andb_false_r. by rewrite in_pages_wrap by lia.
Qed.

(** ** A small machine, for the witnesses

    Two megabytes of RAM reported by one map entry, a kernel of 64KB at 1MB. *)

Definition demo_mbi : multiboot_info := {|
  mb_flags := MULTIBOOT_INFO_MMAP; mem_lower := 0; mem_upper := 0;
  mods_count := 0; mods_addr := 0; mmap_length := 24; mmap_addr := 0x1000
|}.

Definition demo_boot : boot_memory := {|
  read_entry p := {| e_size := 20; e_addr := 0; e_len := 0x200000; e_type := 1 |};
  read_module p := {| mod_start := 0; mod_end := 0 |}
|}.

Definition pmm_zero : pmm :=
  mkPmm [] 0 0 0 None 0 0 None 0 0 0 0 0 0 false 0 false 0.

Definition demo_pmm : pmm := Eval vm_compute in
  match pmm64_init demo_boot demo_mbi 0x100000 0x110000 pmm_zero with
  | Some s => s | None => pmm_zero
  end.

Lemma demo_boot_ok : boot_ok demo_boot demo_mbi.
Proof. split; simpl; intros; lia. Qed.

Lemma demo_pmm_init :
  pmm64_init demo_boot demo_mbi 0x100000 0x110000 pmm_zero = Some demo_pmm.
Proof. vm_compute. reflexivity. Qed.

Lemma demo_pmm_ready : pmm_ready demo_pmm.
Proof.
  destruct (init_cases demo_boot demo_mbi 0x100000 0x110000 pmm_zero demo_boot_ok)
    as (s' & Heq & H); [lia|lia|].
  rewrite demo_pmm_init in Heq. injection Heq as <-.
  split; [by apply H|reflexivity].
Qed.


(** ** Properties *)

(** C1: every operation of the frame allocator, run on a well-formed state,
    leaves a well-formed state and implements the abstract map from frames to
    numbers of owners: an allocation takes a frame that has no owner and gives
    it exactly one, or refuses only when it may; a free drops one owner and
    the frame itself only with the last; sharing adds one owner up to 256; a
    reservation takes exactly the free frames it touches. *)
Theorem pmm64_refines_owner_map s op :
  pmm_ready s -> op_valid op ->
  let '(r, s') := pmm_step op s in
  pmm_ready s' /\ frame_count s' = frame_count s /\
  owner_step (frame_count s) op (owners s) r (owners s').
Proof.
  intros Hs Hv. destruct op as [| | |m|p|p|a b|]; cbn [pmm_step].
  - pose proof (alloc_frame_refines s Hs). by destruct (pmm64_alloc_frame s).
  - pose proof (alloc_high_refines s OpAllocHigh Hs I). by destruct (pmm64_alloc_high s).
  - pose proof (alloc_user_refines s Hs). by destruct (pmm64_alloc_user s).
  - pose proof (alloc_above_refines s m Hs Hv). by destruct (pmm64_alloc_above m s).
  - apply free_frame_refines; [done|]. simpl in Hv. lia.
  - simpl in Hv. pose proof (ref_frame_refines s p Hs ltac:(lia)).
    by destruct (pmm64_ref_frame p s).
  - destruct Hv. by apply reserve_refines.
  - apply (refines_oom s _ _ s). destruct Hs. split_and!; [done..|]. by apply os_oom.
Qed.

Lemma pmm64_refines_owner_map_witness :
  (pmm_step OpAllocHigh demo_pmm).1 = 0x1FF000 /\
  owner_step 512 OpAllocHigh (owners demo_pmm)
    (pmm_step OpAllocHigh demo_pmm).1 (owners (pmm_step OpAllocHigh demo_pmm).2).
Proof.
  pose proof (pmm64_refines_owner_map demo_pmm OpAllocHigh demo_pmm_ready I) as H.
  split; [vm_compute; reflexivity|]. exact (proj2 (proj2 H)).
Defined.



(** the running count of used frames never drifts from the bitmap: the
    free frames the counter reports, the free frames counted by the byte-table
    scan, and the number of frames with no owner are the same number. *)
Theorem pmm64_free_frames_exact s :
  pmm_ready s ->
  pmm64_free_frames_scanned s = pmm64_free_frames s /\
  pmm64_free_frames s = free_count (frame_count s) (owners s).
Proof.
  intros Hs. split; [|by apply free_frames_count]. rewrite free_frames_count by done.
  destruct Hs as [Hok Hr]. rewrite free_count_unused by done.
  unfold pmm64_free_frames_scanned. rewrite Hr. simpl.
  pose proof (ok_count _ Hok) as Hc. set (n := frame_count s) in *.
  pose proof (Z.div_pos n 8 ltac:(lia) ltac:(lia)) as Hw.
  pose proof (Z.mul_div_le n 8 ltac:(lia)) as Hw8.
  assert (for_up (Z.to_nat (n / 8)) 0 (fun b used => used + byte_used (zget (bitmap s) b)) 0
    = count_up (Z.to_nat (n / 8) * 8) 0 (frame_used s)) as ->.
  { pose proof (for_up_ind (fun k u => u = count_up (Z.to_nat k * 8) 0 (frame_used s))
      (fun b used => used + byte_used (zget (bitmap s) b)) (Z.to_nat (n / 8)) 0 0) as Hind.
    rewrite Z.add_0_l, Z2Nat.id in Hind by lia. apply Hind; [done|].
    intros k u Hk ->. rewrite byte_used_frames; [|done|].
    - replace (Z.to_nat (k + 1) * 8)%nat with (Z.to_nat k * 8 + 8)%nat by lia.
      rewrite count_up_app. do 2 f_equal. lia.
    - rewrite (ok_bitmap _ Hok). fold n. split; [lia|].
      apply Z.lt_le_trans with (n / 8); [lia|]. apply Z.div_le_mono; lia. }
  rewrite (ok_used _ Hok). fold n.
  replace (for_up (Z.to_nat (n - n / 8 * 8)) (n / 8 * 8) _ _) with
    (count_up (Z.to_nat (n / 8) * 8) 0 (frame_used s)
     + count_up (Z.to_nat (n - n / 8 * 8)) (n / 8 * 8) (frame_used s)).
  - replace (Z.to_nat n) with (Z.to_nat (n / 8) * 8 + Z.to_nat (n - n / 8 * 8))%nat by lia.
    rewrite count_up_app. do 3 f_equal; lia.
  - rewrite <-for_up_count. apply for_up_ext. intros k t _. by rewrite bitmap_test_used.
Qed.

Lemma pmm64_free_frames_exact_witness :
  pmm64_free_frames_scanned demo_pmm = pmm64_free_frames demo_pmm /\
  pmm64_free_frames demo_pmm = 239.
Proof.
  split; [apply (pmm64_free_frames_exact demo_pmm demo_pmm_ready)|vm_compute; reflexivity].
Defined.

(** the scans that pass eight taken frames in one test are the bit-by-bit
    searches: [pmm64_alloc_frame] takes the first free frame at or above its
    hint, wrapping once, [pmm64_alloc_high] the last free frame below its hint,
    wrapping once, so the fallback of [pmm64_alloc_high] to the low allocator
    never finds a frame. *)
Theorem pmm64_alloc_is_first_and_last_fit s :
  pmm_ready s ->
  (pmm64_alloc_frame s).1 = match first_fit s with Some f => f * PMM64_FRAME_SIZE | None => 0 end /\
  (pmm64_alloc_high s).1 = match last_fit s with Some f => f * PMM64_FRAME_SIZE | None => 0 end /\
  (last_fit s = None -> pmm64_alloc_frame s = (0, s)).
Proof.
  intros [Hok Hr]. rewrite alloc_frame_first_fit, alloc_high_last_fit by done.
  split_and!; [by destruct (first_fit s)|by destruct (last_fit s)|].
  intros Hl. replace (first_fit s) with (@None Z); [done|]. symmetry.
  apply first_fit_None; [done|]. by apply last_fit_None.
Qed.

Lemma pmm64_alloc_is_first_and_last_fit_witness :
  (pmm64_alloc_frame demo_pmm).1 = 0x111000 /\ (pmm64_alloc_high demo_pmm).1 = 0x1FF000.
Proof.
  destruct (pmm64_alloc_is_first_and_last_fit demo_pmm demo_pmm_ready) as (-> & -> & _).
  split; vm_compute; reflexivity.
Defined.

(** An available region that does not start on a page boundary: the frame it
    starts in the middle of is freed whole, although the first half of it is
    not available memory. *)
Definition odd_boot : boot_memory := {|
  read_entry p := {| e_size := 20; e_addr := 0x120800; e_len := 0x80000; e_type := 1 |};
  read_module p := {| mod_start := 0; mod_end := 0 |}
|}.

Lemma free_region_partial_head :
  exists s', pmm64_init odd_boot demo_mbi 0x100000 0x110000 pmm_zero = Some s' /\
    avail_regions odd_boot demo_mbi = [(0x120800, 0x1A0800)] /\
    ready s' = true /\ owners s' 0x120 = 0 /\ pmm64_owns 0x120000 s' = true.
Proof.
  eexists. split; [vm_compute; reflexivity|].
  repeat split; vm_compute; reflexivity.
Qed.
