(* ===== verification/Pipe64.v ===== *)
(** * Pipes ([kernel/pipe64.c])

    A pipe is a 64KB ring of bytes with counts of its read and write ends and
    a ring of sixteen batches of descriptors in flight (SCM_RIGHTS).  The
    table of pipes is the file's static state; the kernel heap that backs a
    ring and the node table that a file descriptor in flight refers to are
    the states [H] and [F] of the components that own them, reached through
    the interfaces [KernelHeap] and [NodeRefs].

    The abstract view: [contents] is the queue of bytes a pipe holds, oldest
    first, and [batches] the queue of descriptor batches.  [pipe64_read] and
    [pipe64_write] implement a bounded FIFO on the first, [pipe64_send_fds]
    and [pipe64_recv_fds] a bounded FIFO on the second. *)

From S2P Require Import Prelude.

Definition PIPE64_MAX : Z := 2048.
Definition PIPE64_BUF : Z := 65536.
Definition PIPE64_INFLIGHT : Z := 16.
Definition FD64_FILE : Z := 0.

(** ** What a pipe calls *)

(** The kernel heap: a pointer (0 when it is exhausted), and the bytes a
    fresh block happens to hold. *)
Class KernelHeap (H : Type) := {
  kmalloc64 : Z -> H -> Z * H;
  kfree64 : Z -> H -> H;
  block_bytes : H -> Z -> Z -> list Z;
  block_bytes_len h p n : 0 <= n -> zlen (block_bytes h p n) = n
}.

(** The file system's node references ([ramfs64_unref_node]). *)
Class NodeRefs (F : Type) := { ramfs64_unref_node : Z -> F -> F }.

(** ** State *)

Record fdpass64 := mkFd { fd_kind : Z; fd_node : Z; fd_pos : Z; fd_rx : Z; fd_tx : Z }.
Record batch64 := mkBatch { b_fds : list fdpass64; b_n : Z }.

#[export] Instance fdpass64_inhabited : Inhabited fdpass64 := populate (mkFd 0 0 0 0 0).
#[export] Instance batch64_inhabited : Inhabited batch64 := populate (mkBatch [] 0).

Record pipe64 := mkPipe {
  p_buf : Z;                    (* the block in the heap, 0 for none *)
  p_ring : list Z;              (* the bytes at [p_buf] *)
  p_head : Z; p_tail : Z; p_len : Z;
  p_readers : Z; p_writers : Z;
  p_inflight : list batch64; p_in_head : Z; p_in_count : Z;
  p_used : bool
}.

Definition pipe64_reset (u : bool) (b : Z) (r : list Z) (fl : list batch64) : pipe64 :=
  mkPipe b r 0 0 0 0 0 fl 0 0 u.

#[export] Instance pipe64_inhabited : Inhabited pipe64 := populate (pipe64_reset false 0 [] []).

Definition set_bytes (r : list Z) (h t l : Z) (q : pipe64) : pipe64 :=
  mkPipe (p_buf q) r h t l (p_readers q) (p_writers q) (p_inflight q) (p_in_head q)
    (p_in_count q) (p_used q).
Definition set_ends (r w : Z) (q : pipe64) : pipe64 :=
  mkPipe (p_buf q) (p_ring q) (p_head q) (p_tail q) (p_len q) r w (p_inflight q)
    (p_in_head q) (p_in_count q) (p_used q).
Definition set_queue (fl : list batch64) (h c : Z) (q : pipe64) : pipe64 :=
  mkPipe (p_buf q) (p_ring q) (p_head q) (p_tail q) (p_len q) (p_readers q) (p_writers q)
    fl h c (p_used q).
Definition set_dead (q : pipe64) : pipe64 :=
  mkPipe 0 (p_ring q) (p_head q) (p_tail q) 0 (p_readers q) (p_writers q)
    (p_inflight q) (p_in_head q) (p_in_count q) false.

Section pipe64.
  Context {H F : Type} `{!KernelHeap H, !NodeRefs F}.

Record pstate := mkP { pipes : list pipe64; heap : H; nodes : F }.

Definition set_pipes (ps : list pipe64) (s : pstate) : pstate := mkP ps (heap s) (nodes s).
Definition set_heap (h : H) (s : pstate) : pstate := mkP (pipes s) h (nodes s).
Definition set_nodes (f : F) (s : pstate) : pstate := mkP (pipes s) (heap s) f.

Definition pipe (s : pstate) (p : Z) : pipe64 := zget (pipes s) p.
Definition put (p : Z) (q : pipe64) (s : pstate) : pstate := set_pipes (zset (pipes s) p q) s.

(** ** Creation and ends *)

Definition pipe64_init (s : pstate) : pstate :=
  set_pipes (map (fun q => pipe64_reset false 0 (p_ring q) (p_inflight q)) (pipes s)) s.

Definition pipe64_valid (p : Z) (s : pstate) : bool :=
  (0 <=? p) && (p <? PIPE64_MAX) && p_used (pipe s p).

Definition pipe64_create (s : pstate) : Z * pstate :=
  match find_up (Z.to_nat PIPE64_MAX) 0 (fun i => negb (p_used (pipe s i))) with
  | None => (-1, s)
  | Some i =>
      let '(b, h) := kmalloc64 PIPE64_BUF (heap s) in
      let s := set_heap h s in
      if b =? 0
      then (-1, put i (mkPipe 0 (p_ring (pipe s i)) (p_head (pipe s i)) (p_tail (pipe s i))
                         (p_len (pipe s i)) (p_readers (pipe s i)) (p_writers (pipe s i))
                         (p_inflight (pipe s i)) (p_in_head (pipe s i)) (p_in_count (pipe s i))
                         (p_used (pipe s i))) s)
      else (i, put i (pipe64_reset true b (block_bytes h b PIPE64_BUF)
                        (p_inflight (pipe s i))) s)
  end.

Definition pipe64_ref (p : Z) (reader writer : bool) (s : pstate) : pstate :=
  if negb (pipe64_valid p s) then s else
  let q := pipe s p in
  put p (set_ends (if reader then p_readers q + 1 else p_readers q)
                  (if writer then p_writers q + 1 else p_writers q) q) s.

(** [while (in_count > 0) { for (k...) drop_inflight(&b->fds[k]); in_head++;
    in_count--; }] is [drain]; it and [pipe64_unref] call each other through
    the descriptors in flight.  [None] is "out of fuel". *)
Fixpoint pipe64_unref (fuel : nat) (p : Z) (reader writer : bool) (s : pstate)
    : option pstate :=
  match fuel with
  | O => None
  | S fuel' =>
    if negb (pipe64_valid p s) then Some s else
    let q := pipe s p in
    let s := put p (set_ends
        (if reader && (0 <? p_readers q) then p_readers q - 1 else p_readers q)
        (if writer && (0 <? p_writers q) then p_writers q - 1 else p_writers q) q) s in
    if (p_readers (pipe s p) =? 0) && (p_writers (pipe s p) =? 0) then
      match drain fuel' p s with
      | None => None
      | Some s => Some (put p (set_dead (pipe s p)) (set_heap (kfree64 (p_buf (pipe s p)) (heap s)) s))
      end
    else Some s
  end
with drain (fuel : nat) (p : Z) (s : pstate) : option pstate :=
  match fuel with
  | O => None
  | S fuel' =>
    if 0 <? p_in_count (pipe s p) then
      let b := zget (p_inflight (pipe s p)) (p_in_head (pipe s p)) in
      match fold_opt (fun s f => drop_inflight fuel' f s) s (zslice 0 (b_n b) (b_fds b)) with
      | None => None
      | Some s =>
          let q := pipe s p in
          drain fuel' p (put p (set_queue (p_inflight q) ((p_in_head q + 1) mod PIPE64_INFLIGHT)
                                  (p_in_count q - 1) q) s)
      end
    else Some s
  end
with drop_inflight (fuel : nat) (f : fdpass64) (s : pstate) : option pstate :=
  match fuel with
  | O => None
  | S fuel' =>
    if fd_kind f =? FD64_FILE then Some (set_nodes (ramfs64_unref_node (fd_node f) (nodes s)) s)
    else match pipe64_unref fuel' (fd_rx f) true false s with
         | None => None
         | Some s => pipe64_unref fuel' (fd_tx f) false true s
         end
  end.

(** ** Descriptors in flight *)

Definition pipe64_send_fds (p : Z) (fds : list fdpass64) (n : Z) (s : pstate) : Z * pstate :=
  if negb (pipe64_valid p s) || (n <=? 0) then (0, s) else
  if 8 <? n then (0, s) else
  let q := pipe s p in
  if PIPE64_INFLIGHT <=? p_in_count q then (0, s) else
  let slot := (p_in_head q + p_in_count q) mod PIPE64_INFLIGHT in
  let b := zget (p_inflight q) slot in
  let b := mkBatch (zsplice 0 (zslice 0 n fds) (b_fds b)) n in
  (1, put p (set_queue (zset (p_inflight q) slot b) (p_in_head q) (p_in_count q + 1) q) s).

(** The number taken and the descriptors copied out; [max] is the size of the
    caller's array. *)
Definition pipe64_recv_fds (fuel : nat) (p : Z) (max : Z) (s : pstate)
    : option (Z * list fdpass64 * pstate) :=
  if negb (pipe64_valid p s) || (p_in_count (pipe s p) =? 0) then Some (0, [], s) else
  let q := pipe s p in
  let b := zget (p_inflight q) (p_in_head q) in
  let n := if b_n b <? max then b_n b else max in
  let out := zslice 0 n (b_fds b) in
  match fold_opt (fun s f => drop_inflight fuel f s) s
          (zslice n (b_n b - n) (b_fds b)) with
  | None => None
  | Some s =>
      let q := pipe s p in
      Some (n, out,
        put p (set_queue (p_inflight q) ((p_in_head q + 1) mod PIPE64_INFLIGHT)
                 (p_in_count q - 1) q) s)
  end.

Definition pipe64_inflight (p : Z) (s : pstate) : Z :=
  if pipe64_valid p s then p_in_count (pipe s p) else 0.
Definition pipe64_available (p : Z) (s : pstate) : Z :=
  if pipe64_valid p s then p_len (pipe s p) else 0.
Definition pipe64_space (p : Z) (s : pstate) : Z :=
  if pipe64_valid p s then PIPE64_BUF - p_len (pipe s p) else 0.
Definition pipe64_readers (p : Z) (s : pstate) : Z :=
  if pipe64_valid p s then p_readers (pipe s p) else 0.
Definition pipe64_writers (p : Z) (s : pstate) : Z :=
  if pipe64_valid p s then p_writers (pipe s p) else 0.
Definition pipe64_live (s : pstate) : Z :=
  count_up (Z.to_nat PIPE64_MAX) 0 (fun i => p_used (pipe s i)).

(** ** Bytes *)

(** The copy loop of [pipe64_read]: runs up to the wrap, then from 0.  The
    result is the new head and the bytes copied out. *)
Fixpoint read_loop (fuel : nat) (ring : list Z) (head got n : Z) (out : list Z)
    : Z * Z * list Z :=
  match fuel with
  | O => (head, got, out)
  | S fuel' =>
    if got <? n then
      let run := PIPE64_BUF - head in
      let run := if n - got <? run then n - got else run in
      read_loop fuel' ring ((head + run) mod PIPE64_BUF) (got + run) n
        (out ++ zslice head run ring)
    else (head, got, out)
  end.

Definition pipe64_read (p : Z) (n : Z) (s : pstate) : Z * list Z * pstate :=
  if negb (pipe64_valid p s) then (-9, [], s) else
  let q := pipe s p in
  if p_len q =? 0 then
    if p_writers q =? 0 then (0, [], s) else (-11, [], s)
  else
  let n := if p_len q <? n then p_len q else n in
  let '(head, got, out) := read_loop (S (Z.to_nat n)) (p_ring q) (p_head q) 0 n [] in
  (got, out, put p (set_bytes (p_ring q) head (p_tail q) (p_len q - got) q) s).

Fixpoint write_loop (fuel : nat) (ring : list Z) (tail put_ n : Z) (data : list Z)
    : list Z * Z * Z :=
  match fuel with
  | O => (ring, tail, put_)
  | S fuel' =>
    if put_ <? n then
      let run := PIPE64_BUF - tail in
      let run := if n - put_ <? run then n - put_ else run in
      write_loop fuel' (zsplice tail (zslice put_ run data) ring)
        ((tail + run) mod PIPE64_BUF) (put_ + run) n data
    else (ring, tail, put_)
  end.

Definition pipe64_write (p : Z) (data : list Z) (s : pstate) : Z * pstate :=
  if negb (pipe64_valid p s) then (-9, s) else
  let q := pipe s p in
  if p_readers q =? 0 then (-32, s) else
  let room := PIPE64_BUF - p_len q in
  if room =? 0 then (-11, s) else
  let n := if room <? zlen data then room else zlen data in
  let '(ring, tail, written) := write_loop (S (Z.to_nat n)) (p_ring q) (p_tail q) 0 n data in
  (written, put p (set_bytes ring (p_head q) tail (p_len q + written) q) s).

(** ** The abstract pipe *)

(** [n] bytes of a ring from position [h] on, going round. *)
Definition ring_read (ring : list Z) (h n : Z) : list Z :=
  (fun i => zget ring ((h + i) mod PIPE64_BUF)) <$> seqZ 0 n.

Definition contents (q : pipe64) : list Z := ring_read (p_ring q) (p_head q) (p_len q).

(** The batches in flight, oldest first, each as the descriptors it carries. *)
Definition batches (q : pipe64) : list (list fdpass64) :=
  (fun i => let b := zget (p_inflight q) ((p_in_head q + i) mod PIPE64_INFLIGHT) in
            zslice 0 (b_n b) (b_fds b)) <$> seqZ 0 (p_in_count q).

Record ring_ok (q : pipe64) : Prop := {
  ro_ring : zlen (p_ring q) = PIPE64_BUF;
  ro_head : 0 <= p_head q < PIPE64_BUF;
  ro_len : 0 <= p_len q <= PIPE64_BUF;
  ro_tail : p_tail q = (p_head q + p_len q) mod PIPE64_BUF;
  ro_readers : 0 <= p_readers q;
  ro_writers : 0 <= p_writers q
}.

Record queue_ok (q : pipe64) : Prop := {
  qo_slots : zlen (p_inflight q) = PIPE64_INFLIGHT;
  qo_fds : Forall (fun b => zlen (b_fds b) = 8 /\ 0 <= b_n b <= 8) (p_inflight q);
  qo_head : 0 <= p_in_head q < PIPE64_INFLIGHT;
  qo_count : 0 <= p_in_count q <= PIPE64_INFLIGHT
}.

(** Every slot has room for its batches; a live pipe is also a ring. *)
Definition pipe_ok (q : pipe64) : Prop := queue_ok q /\ (p_used q = true -> ring_ok q).

Definition table_ok (s : pstate) : Prop :=
  zlen (pipes s) = PIPE64_MAX /\ Forall pipe_ok (pipes s).

(** [s'] agrees with [s] but for the pipe [p], which it keeps alive. *)
Definition only_pipe (p : Z) (s s' : pstate) : Prop :=
  heap s' = heap s /\ nodes s' = nodes s /\ zlen (pipes s') = zlen (pipes s) /\
  forall r, 0 <= r -> r <> p -> pipe s' r = pipe s r.

(** The abstract pipe and its operations.  [PRecv] is the reception with room
    for a whole batch, the only one the kernel asks for. *)
Record apipe := mkA {
  a_bytes : list Z; a_batches : list (list fdpass64); a_readers : Z; a_writers : Z
}.

Definition pipe_view (q : pipe64) : apipe :=
  mkA (contents q) (batches q) (p_readers q) (p_writers q).

Inductive pop := PRead (n : Z) | PWrite (data : list Z) | PSend (fds : list fdpass64) | PRecv.

(** Enough for any table: closing visits each of the 2048 * 16 batches at most
    once ([backlog_nonneg]), in three nested calls. *)
Definition UNREF_FUEL : nat := Z.to_nat 98306.

Definition pipe_op (p : Z) (o : pop) (s : pstate) : option (Z * list Z * list fdpass64 * pstate) :=
  match o with
  | PRead n => let '(r, out, s') := pipe64_read p n s in Some (r, out, [], s')
  | PWrite data => let '(r, s') := pipe64_write p data s in Some (r, [], [], s')
  | PSend fds => let '(r, s') := pipe64_send_fds p fds (zlen fds) s in Some (r, [], [], s')
  | PRecv => match pipe64_recv_fds UNREF_FUEL p 8 s with
             | Some (r, fds, s') => Some (r, [], fds, s')
             | None => None
             end
  end.

(** What the abstract byte queue answers, and what it holds afterwards. *)
Definition fifo_read (n writers : Z) (c : list Z) : Z * list Z * list Z :=
  if zlen c =? 0 then ((if writers =? 0 then 0 else -11), [], c)
  else let k := Z.min n (zlen c) in (k, take (Z.to_nat k) c, drop (Z.to_nat k) c).

Definition fifo_write (data : list Z) (readers : Z) (c : list Z) : Z * list Z :=
  if readers =? 0 then (-32, c)
  else if PIPE64_BUF - zlen c =? 0 then (-11, c)
  else let k := Z.min (zlen data) (PIPE64_BUF - zlen c) in (k, c ++ take (Z.to_nat k) data).

Definition fifo_send (fds : list fdpass64) (l : list (list fdpass64))
    : Z * list (list fdpass64) :=
  if (0 <? zlen fds) && (zlen fds <=? 8) && (zlen l <? PIPE64_INFLIGHT)
  then (1, l ++ [fds]) else (0, l).

Definition fifo_recv (l : list (list fdpass64))
    : Z * list fdpass64 * list (list fdpass64) :=
  match l with [] => (0, [], []) | b :: l' => (zlen b, b, l') end.

Definition fifo_op (o : pop) (a : apipe) : Z * list Z * list fdpass64 * apipe :=
  match o with
  | PRead n => let '(r, out, c) := fifo_read n (a_writers a) (a_bytes a) in
      (r, out, [], mkA c (a_batches a) (a_readers a) (a_writers a))
  | PWrite data => let '(r, c) := fifo_write data (a_readers a) (a_bytes a) in
      (r, [], [], mkA c (a_batches a) (a_readers a) (a_writers a))
  | PSend fds => let '(r, l) := fifo_send fds (a_batches a) in
      (r, [], [], mkA (a_bytes a) l (a_readers a) (a_writers a))
  | PRecv => let '(r, fds, l) := fifo_recv (a_batches a) in
      (r, [], fds, mkA (a_bytes a) l (a_readers a) (a_writers a))
  end.

(** An interleaving of operations on the table of pipes, and its trace: the
    pipe, the operation, and what it answered. *)
Definition event : Type := Z * pop * (Z * list Z * list fdpass64).

Fixpoint run_ops (l : list (Z * pop)) (s : pstate) : option (list event * pstate) :=
  match l with
  | [] => Some ([], s)
  | (p, o) :: l' =>
      match pipe_op p o s with
      | None => None
      | Some (r, out, fds, s') =>
          match run_ops l' s' with
          | None => None
          | Some (t, s'') => Some ((p, o, (r, out, fds)) :: t, s'')
          end
      end
  end.

(** The same on abstract pipes, one per index. *)
Fixpoint queue_run (l : list (Z * pop)) (A : Z -> apipe) : list event * (Z -> apipe) :=
  match l with
  | [] => ([], A)
  | (p, o) :: l' =>
      let '(r, out, fds, a) := fifo_op o (A p) in
      let '(t, A') := queue_run l' (fun q => if q =? p then a else A q) in
      ((p, o, (r, out, fds)) :: t, A')
  end.

(** The bytes a trace got into the pipe [p], and those it took out of it. *)
Fixpoint accepted (p : Z) (t : list event) : list Z :=
  match t with
  | [] => []
  | (p', o, (r, _, _)) :: t' =>
      (match o with PWrite data => if p' =? p then take (Z.to_nat r) data else [] | _ => [] end)
      ++ accepted p t'
  end.

Fixpoint delivered (p : Z) (t : list event) : list Z :=
  match t with
  | [] => []
  | (p', _, (_, out, _)) :: t' => (if p' =? p then out else []) ++ delivered p t'
  end.

(** ** References held by descriptors in flight

    Closing the last end of a pipe gives back the descriptors in flight in it,
    which may close other pipes.  The recursion ends because a descriptor in
    flight holds a reference: a pipe that is being closed has no end left, so
    no pending descriptor names it.  [refs_ok s C X] is that invariant while
    the pipes of [C] are closing and the descriptors [X] are in hand: the ends
    of each pipe are exactly those that descriptors refer to. *)

Definition names (rx : bool) (r : Z) (f : fdpass64) : Z :=
  if fd_kind f =? FD64_FILE then 0
  else if (if rx then fd_rx f else fd_tx f) =? r then 1 else 0.

Fixpoint named (rx : bool) (r : Z) (l : list fdpass64) : Z :=
  match l with [] => 0 | f :: l' => names rx r f + named rx r l' end.

Definition open_in (C : Z -> bool) (s : pstate) (i : Z) : bool :=
  p_used (pipe s i) && negb (C i).

(** References to [r] from descriptors in flight in the pipes outside [C]. *)
Definition pending (rx : bool) (s : pstate) (C : Z -> bool) (r : Z) : Z :=
  sum_up (Z.to_nat PIPE64_MAX) 0
    (fun i => if open_in C s i then named rx r (concat (batches (pipe s i))) else 0).

(** Batches in flight in the pipes outside [C]. *)
Definition backlog (s : pstate) (C : Z -> bool) : Z :=
  sum_up (Z.to_nat PIPE64_MAX) 0
    (fun i => if open_in C s i then p_in_count (pipe s i) else 0).

Definition end_count (rx : bool) (q : pipe64) : Z := if rx then p_readers q else p_writers q.

(** The ends of [r] that may be referred to: none of a pipe that is unused or
    closing. *)
Definition room (rx : bool) (s : pstate) (C : Z -> bool) (r : Z) : Z :=
  if open_in C s r then end_count rx (pipe s r) else 0.

Definition refs_ok (s : pstate) (C : Z -> bool) (X : list fdpass64) : Prop :=
  table_ok s /\
  forall rx r, 0 <= r < PIPE64_MAX -> pending rx s C r + named rx r X = room rx s C r.

(** The reference [pipe64_unref p reader writer] gives up, as a descriptor. *)
Definition ends_of (p : Z) (reader writer : bool) : fdpass64 :=
  mkFd 1 0 0 (if reader then p else -1) (if writer then p else -1).

(** An open pipe with no end: one just created. *)
Definition idle (s : pstate) (r : Z) : Prop :=
  p_used (pipe s r) = true /\ p_readers (pipe s r) = 0 /\ p_writers (pipe s r) = 0.

(** What a step of closing leaves: the invariant without the descriptors it
    dropped, no new backlog, the closing pipes as they were, and no pipe open
    that it took the last end of. *)
Definition closed_to (s s' : pstate) (C : Z -> bool) (X : list fdpass64) : Prop :=
  refs_ok s' C X /\ backlog s' C <= backlog s C /\
  (forall r, 0 <= r -> C r = true -> pipe s' r = pipe s r) /\
  forall r, 0 <= r -> idle s' r -> idle s r.

(** The life of descriptors: [X] are those in hand (in the descriptor tables of
    the processes), and every operation moves references between [X] and the
    pipes.  A descriptor may be taken apart into its ends ([fs_regroup]). *)
Definition no_pipe (r : Z) : bool := false.

Inductive fd_step : pstate * list fdpass64 -> pstate * list fdpass64 -> Prop :=
  | fs_create s X i s' : pipe64_create s = (i, s') -> fd_step (s, X) (s', X)
  | fs_ref s X p rd wr : pipe64_valid p s = true ->
      fd_step (s, X) (pipe64_ref p rd wr s, ends_of p rd wr :: X)
  | fs_io s X p o r out fds s' : pipe64_valid p s = true ->
      (exists n, o = PRead n /\ 0 <= n) \/ (exists data, o = PWrite data) ->
      pipe_op p o s = Some (r, out, fds, s') -> fd_step (s, X) (s', X)
  | fs_send s X p fds s' :
      pipe64_send_fds p fds (zlen fds) s = (1, s') -> fd_step (s, fds ++ X) (s', X)
  | fs_recv s X p r fds s' : pipe64_valid p s = true ->
      pipe64_recv_fds UNREF_FUEL p 8 s = Some (r, fds, s') -> fd_step (s, X) (s', fds ++ X)
  | fs_unref s X p rd wr s' :
      pipe64_unref UNREF_FUEL p rd wr s = Some s' -> fd_step (s, ends_of p rd wr :: X) (s', X)
  | fs_regroup s X Y : (forall rx r, 0 <= r -> named rx r X = named rx r Y) ->
      fd_step (s, X) (s, Y).

(** The static table before [pipe64_init]: the arrays have their declared sizes. *)
Definition table_sized (s : pstate) : Prop :=
  zlen (pipes s) = PIPE64_MAX /\
  Forall (fun q => zlen (p_inflight q) = PIPE64_INFLIGHT /\
                   Forall (fun b => zlen (b_fds b) = 8 /\ 0 <= b_n b <= 8) (p_inflight q)) (pipes s).

(** ** Rings *)

Lemma ring_read_len ring h n : 0 <= n -> zlen (ring_read ring h n) = n.
Proof. intros. unfold zlen, ring_read. rewrite length_fmap, length_seqZ. lia. Qed.

Lemma ring_read_get ring h n i :
  0 <= i < n -> zget (ring_read ring h n) i = zget ring ((h + i) mod PIPE64_BUF).
Proof.
  intros Hi. apply zget_lookup; [lia|]. unfold ring_read.
  rewrite list_lookup_fmap, lookup_seqZ_lt by lia. simpl. do 3 f_equal. lia.
Qed.

Lemma ring_read_app ring h n m :
  0 <= n -> 0 <= m ->
  ring_read ring h (n + m) = ring_read ring h n ++ ring_read ring ((h + n) mod PIPE64_BUF) m.
Proof.
  intros Hn Hm. unfold ring_read. rewrite seqZ_app by lia. rewrite fmap_app. f_equal.
  rewrite (Z.add_comm 0 n), <-(fmap_add_seqZ n 0), <-list_fmap_compose.
  apply list_fmap_ext. intros _ i _. simpl.
  f_equal. rewrite Zplus_mod_idemp_l. f_equal. lia.
Qed.

Lemma ring_read_straight ring h n :
  zlen ring = PIPE64_BUF -> 0 <= h -> 0 <= n -> h + n <= PIPE64_BUF ->
  zslice h n ring = ring_read ring h n.
Proof.
  intros Hl Hh Hn Hb. apply zlist_eq.
  - rewrite zlen_zslice, ring_read_len by lia. done.
  - intros i Hi. rewrite zlen_zslice in Hi by lia.
    rewrite zget_zslice, ring_read_get by lia. by rewrite Z.mod_small by lia.
Qed.

Lemma read_loop_spec fuel ring head got n out :
  zlen ring = PIPE64_BUF -> 0 <= head < PIPE64_BUF -> got <= n -> n - got <= Z.of_nat fuel ->
  read_loop fuel ring head got n out
    = ((head + (n - got)) mod PIPE64_BUF, n, out ++ ring_read ring head (n - got)).
Proof.
  intros Hl. revert head got out. induction fuel as [|fuel IH]; intros head got out Hh Hg Hf;
    cbn [read_loop].
  - replace n with got by lia. rewrite Z.sub_diag, Z.add_0_r, Z.mod_small by lia.
    unfold ring_read. simpl. by rewrite app_nil_r.
  - destruct (Z.ltb_spec got n).
    2: { replace n with got by lia. rewrite Z.sub_diag, Z.add_0_r, Z.mod_small by lia.
         unfold ring_read. simpl. by rewrite app_nil_r. }
    set (run := if n - got <? PIPE64_BUF - head then n - got else PIPE64_BUF - head).
    assert (0 < run /\ run <= n - got /\ head + run <= PIPE64_BUF) as (Hr0 & Hr1 & Hr2).
    { unfold run. destruct (Z.ltb_spec (n - got) (PIPE64_BUF - head)); lia. }
    pose proof (Z.mod_pos_bound (head + run) PIPE64_BUF ltac:(done)).
    rewrite IH by lia. rewrite Zplus_mod_idemp_l.
    rewrite ring_read_straight, <-app_assoc by lia.
    rewrite <-ring_read_app by lia.
    by replace (run + (n - (got + run))) with (n - got) by lia;
      replace (head + run + (n - (got + run))) with (head + (n - got)) by lia.
Qed.

(** After the copy loop of [pipe64_write] the [n] positions from the tail on
    hold the data and the others what they held. *)
Lemma write_loop_spec fuel ring tail w n data :
  zlen ring = PIPE64_BUF -> 0 <= tail < PIPE64_BUF -> 0 <= w <= n -> n - w <= Z.of_nat fuel ->
  n - w <= PIPE64_BUF -> n <= zlen data ->
  exists ring', write_loop fuel ring tail w n data
      = (ring', (tail + (n - w)) mod PIPE64_BUF, n) /\
    zlen ring' = PIPE64_BUF /\
    forall j, 0 <= j < PIPE64_BUF ->
      zget ring' ((tail + j) mod PIPE64_BUF) =
        if j <? n - w then zget data (w + j) else zget ring ((tail + j) mod PIPE64_BUF).
Proof.
  revert ring tail w. induction fuel as [|fuel IH]; intros ring tail w Hl Ht Hw Hf Hb Hd;
    cbn [write_loop].
  - exists ring. replace n with w by lia. rewrite Z.sub_diag, Z.add_0_r, Z.mod_small by lia.
    split_and!; [done|done|]. intros j Hj. by destruct (Z.ltb_spec j 0); [lia|].
  - destruct (Z.ltb_spec w n).
    2: { exists ring. replace n with w by lia. rewrite Z.sub_diag, Z.add_0_r, Z.mod_small by lia.
         split_and!; [done|done|]. intros j Hj. by destruct (Z.ltb_spec j 0); [lia|]. }
    set (run := if n - w <? PIPE64_BUF - tail then n - w else PIPE64_BUF - tail).
    assert (0 < run /\ run <= n - w /\ tail + run <= PIPE64_BUF) as (Hr0 & Hr1 & Hr2).
    { unfold run. destruct (Z.ltb_spec (n - w) (PIPE64_BUF - tail)); lia. }
    assert (zlen (zslice w run data) = run) as Hsl by (apply zlen_zslice; lia).
    pose proof (Z.mod_pos_bound (tail + run) PIPE64_BUF ltac:(done)).
    destruct (IH (zsplice tail (zslice w run data) ring) ((tail + run) mod PIPE64_BUF) (w + run))
      as (ring' & Heq & Hl' & Hg); [rewrite zlen_zsplice; lia|lia..|].
    exists ring'. rewrite Heq, Zplus_mod_idemp_l. split_and!.
    + do 3 f_equal. lia.
    + done.
    + intros j Hj.
      assert (forall k, 0 <= k < PIPE64_BUF ->
        zget (zsplice tail (zslice w run data) ring) k =
          if (tail <=? k) && (k <? tail + run) then zget data (w + (k - tail)) else zget ring k)
        as Hsp.
      { intros k Hk. rewrite zget_zsplice by lia. rewrite Hsl.
        destruct (Z.leb_spec tail k), (Z.ltb_spec k (tail + run)); simpl; try done.
        apply zget_zslice; lia. }
      destruct (Z.ltb_spec j run).
      * (* written by this run; the rest of the loop leaves it alone *)
        specialize (Hg (j - run + PIPE64_BUF) ltac:(lia)).
        rewrite Zplus_mod_idemp_l in Hg.
        replace (tail + run + (j - run + PIPE64_BUF)) with (tail + j + 1 * PIPE64_BUF) in Hg by lia.
        rewrite Z.mod_add, Z.mod_small in Hg by lia. rewrite Z.mod_small by lia.
        rewrite Hg, Hsp by lia.
        replace (j - run + PIPE64_BUF <? n - (w + run)) with false by (symmetry; apply Z.ltb_ge; lia).
        replace (j <? n - w) with true by (symmetry; apply Z.ltb_lt; lia).
        replace (tail <=? tail + j) with true by (symmetry; apply Z.leb_le; lia).
        replace (tail + j <? tail + run) with true by (symmetry; apply Z.ltb_lt; lia).
        simpl. f_equal. lia.
      * specialize (Hg (j - run) ltac:(lia)). rewrite Zplus_mod_idemp_l in Hg.
        replace (tail + run + (j - run)) with (tail + j) in Hg by lia. rewrite Hg.
        replace (j - run <? n - (w + run)) with (j <? n - w)
          by (destruct (Z.ltb_spec j (n - w)), (Z.ltb_spec (j - run) (n - (w + run))); lia).
        destruct (j <? n - w); [f_equal; lia|].
        rewrite Hsp by (apply Z.mod_pos_bound; lia).
        destruct (Z.leb_spec tail ((tail + j) mod PIPE64_BUF)); simpl; [|done].
        destruct (Z.ltb_spec ((tail + j) mod PIPE64_BUF) (tail + run)); [|done]. exfalso.
        destruct (decide (tail + j < PIPE64_BUF)); [rewrite Z.mod_small in *; lia|].
        replace (tail + j) with (tail + j - PIPE64_BUF + 1 * PIPE64_BUF) in * by lia.
        rewrite Z.mod_add, Z.mod_small in * by lia. lia.
Qed.

Arguments read_loop : simpl never.
Arguments write_loop : simpl never.

(** ** Reading and writing one pipe *)

Lemma pipe_put p q s r :
  zlen (pipes s) = PIPE64_MAX -> 0 <= p < PIPE64_MAX -> 0 <= r ->
  pipe (put p q s) r = if p =? r then q else pipe s r.
Proof. intros Hl Hp Hr. unfold pipe, put. simpl. apply zget_zset; lia. Qed.

Lemma pipe64_valid_range p s :
  pipe64_valid p s = true -> 0 <= p < PIPE64_MAX /\ p_used (pipe s p) = true.
Proof. unfold pipe64_valid. intros. zbool. done. Qed.

Lemma table_pipe_ok s p : table_ok s -> 0 <= p < PIPE64_MAX -> pipe_ok (pipe s p).
Proof. intros [Hl HF] Hp. unfold pipe. apply (zget_Forall pipe_ok); [done|lia]. Qed.

Lemma put_only p q s :
  table_ok s -> 0 <= p < PIPE64_MAX -> pipe_ok q ->
  table_ok (put p q s) /\ only_pipe p s (put p q s) /\ pipe (put p q s) p = q.
Proof.
  intros [Hl HF] Hp Hq. split_and!.
  - split; [unfold put; simpl; by rewrite zlen_zset|]. by apply zset_Forall.
  - split_and!; [done|done|unfold put; simpl; by rewrite zlen_zset|].
    intros r Hr Hne. rewrite pipe_put by done. by destruct (Z.eqb_spec p r); [lia|].
  - rewrite pipe_put by lia. by rewrite Z.eqb_refl.
Qed.

Lemma contents_len q : ring_ok q -> zlen (contents q) = p_len q.
Proof. intros Hq. apply ring_read_len. apply Hq. Qed.

Lemma take_ring_read ring h n m :
  0 <= n <= m -> take (Z.to_nat n) (ring_read ring h m) = ring_read ring h n.
Proof.
  intros Hn. replace m with (n + (m - n)) by lia. rewrite ring_read_app by lia.
  rewrite take_app_length'; [done|]. pose proof (ring_read_len ring h n). unfold zlen in *. lia.
Qed.

Lemma drop_ring_read ring h n m :
  0 <= n <= m ->
  drop (Z.to_nat n) (ring_read ring h m) = ring_read ring ((h + n) mod PIPE64_BUF) (m - n).
Proof.
  intros Hn. replace m with (n + (m - n)) at 1 by lia. rewrite ring_read_app by lia.
  rewrite drop_app_length'; [done|]. pose proof (ring_read_len ring h n). unfold zlen in *. lia.
Qed.

Lemma pipe64_read_spec p n s :
  table_ok s -> pipe64_valid p s = true -> 0 <= n ->
  let '(r, out, s') := pipe64_read p n s in
  table_ok s' /\ only_pipe p s s' /\ pipe64_valid p s' = true /\
  p_readers (pipe s' p) = p_readers (pipe s p) /\ p_writers (pipe s' p) = p_writers (pipe s p) /\
  batches (pipe s' p) = batches (pipe s p) /\
  (r, out, contents (pipe s' p)) = fifo_read n (p_writers (pipe s p)) (contents (pipe s p)).
Proof.
  intros Ht Hv Hn. destruct (pipe64_valid_range p s Hv) as [Hp Hu].
  destruct (table_pipe_ok s p Ht Hp) as [Hqo Hro]. specialize (Hro Hu).
  unfold pipe64_read, fifo_read. rewrite Hv, contents_len by done. simpl.
  set (q := pipe s p) in *. destruct (Z.eqb_spec (p_len q) 0) as [Hz|Hz].
  { by destruct (p_writers q =? 0). }
  set (k := if p_len q <? n then p_len q else n).
  assert (k = Z.min n (p_len q) /\ 0 <= k <= p_len q) as [Hk Hk2].
  { pose proof (ro_len _ Hro). unfold k. destruct (Z.ltb_spec (p_len q) n); lia. }
  rewrite <-Hk. clearbody k.
  rewrite read_loop_spec by (try apply Hro; lia). rewrite Z.sub_0_r. simpl.
  set (q' := set_bytes _ _ _ _ _).
  assert (ring_ok q') as Hro'.
  { pose proof (ro_len _ Hro). split; simpl; try apply Hro; [apply Z.mod_pos_bound; lia|lia|].
    rewrite Zplus_mod_idemp_l, (ro_tail _ Hro). f_equal. lia. }
  destruct (put_only p q' s Ht Hp) as (Ht' & Ho & Hpq); [by split; [destruct Hqo; split|]|].
  rewrite Hpq. split_and!; try done.
  - unfold pipe64_valid in *. rewrite Hpq. exact Hv.
  - unfold contents, q'. simpl. rewrite take_ring_read, drop_ring_read by lia. done.
Qed.

Lemma pipe64_write_spec p data s :
  table_ok s -> pipe64_valid p s = true ->
  let '(r, s') := pipe64_write p data s in
  table_ok s' /\ only_pipe p s s' /\ pipe64_valid p s' = true /\
  p_readers (pipe s' p) = p_readers (pipe s p) /\ p_writers (pipe s' p) = p_writers (pipe s p) /\
  batches (pipe s' p) = batches (pipe s p) /\
  (r, contents (pipe s' p)) = fifo_write data (p_readers (pipe s p)) (contents (pipe s p)).
Proof.
  intros Ht Hv. destruct (pipe64_valid_range p s Hv) as [Hp Hu].
  destruct (table_pipe_ok s p Ht Hp) as [Hqo Hro]. specialize (Hro Hu).
  unfold pipe64_write, fifo_write. rewrite Hv, contents_len by done. simpl.
  set (q := pipe s p) in *. destruct (Z.eqb_spec (p_readers q) 0); [done|].
  destruct (Z.eqb_spec (PIPE64_BUF - p_len q) 0) as [Hz|Hz]; [done|].
  pose proof (ro_len _ Hro) as Hlen.
  set (k := if PIPE64_BUF - p_len q <? zlen data then PIPE64_BUF - p_len q else zlen data).
  assert (k = Z.min (zlen data) (PIPE64_BUF - p_len q) /\ 0 <= k <= PIPE64_BUF - p_len q /\
    k <= zlen data) as (Hk & Hk2 & Hk3).
  { assert (0 <= zlen data) by (unfold zlen; lia).
    unfold k. destruct (Z.ltb_spec (PIPE64_BUF - p_len q) (zlen data)); lia. }
  rewrite <-Hk. clearbody k.
  assert (0 <= p_tail q < PIPE64_BUF) as Htl.
  { rewrite (ro_tail _ Hro). by apply Z.mod_pos_bound. }
  destruct (write_loop_spec (S (Z.to_nat k)) (p_ring q) (p_tail q) 0 k data)
    as (ring & -> & Hrl & Hrg); [apply Hro|lia..|].
  rewrite Z.sub_0_r in *.
  set (q' := set_bytes _ _ _ _ _).
  assert (ring_ok q') as Hro'.
  { split; simpl; try apply Hro; [done|lia|].
    rewrite (ro_tail _ Hro), Zplus_mod_idemp_l. f_equal. lia. }
  destruct (put_only p q' s Ht Hp) as (Ht' & Ho & Hpq); [by split; [destruct Hqo; split|]|].
  rewrite Hpq. split_and!; try done.
  { unfold pipe64_valid in *. rewrite Hpq. exact Hv. }
  f_equal. unfold contents, q'. simpl. pose proof (ro_head _ Hro) as Hh.
  rewrite ring_read_app by lia. rewrite <-(ro_tail _ Hro). f_equal; apply zlist_eq.
  - rewrite !ring_read_len by lia. done.
  - intros i Hi. rewrite ring_read_len in Hi by lia. rewrite !ring_read_get by lia.
    specialize (Hrg (i - p_len q + PIPE64_BUF) ltac:(lia)).
    rewrite (ro_tail _ Hro), Zplus_mod_idemp_l in Hrg.
    replace (p_head q + p_len q + (i - p_len q + PIPE64_BUF))
      with (p_head q + i + 1 * PIPE64_BUF) in Hrg by lia.
    rewrite Z.mod_add in Hrg by lia. rewrite Hrg.
    by replace (i - p_len q + PIPE64_BUF <? k) with false by (symmetry; apply Z.ltb_ge; lia).
  - rewrite ring_read_len by lia. unfold zlen in *. rewrite length_take. lia.
  - intros i Hi. rewrite ring_read_len in Hi by lia. rewrite ring_read_get, Hrg by lia.
    replace (i <? k) with true by (symmetry; apply Z.ltb_lt; lia).
    unfold zget. rewrite !list_lookup_total_alt, lookup_take_lt by lia. done.
Qed.

(** ** Descriptors in flight *)

Lemma batches_len q : queue_ok q -> zlen (batches q) = p_in_count q.
Proof.
  intros Hq. pose proof (qo_count _ Hq). unfold batches, zlen.
  rewrite length_fmap, length_seqZ. lia.
Qed.

Lemma pipe64_send_fds_spec p fds n s :
  table_ok s -> pipe64_valid p s = true -> zlen fds = n ->
  let '(r, s') := pipe64_send_fds p fds n s in
  table_ok s' /\ only_pipe p s s' /\ pipe64_valid p s' = true /\
  contents (pipe s' p) = contents (pipe s p) /\
  p_readers (pipe s' p) = p_readers (pipe s p) /\ p_writers (pipe s' p) = p_writers (pipe s p) /\
  (r, batches (pipe s' p)) = fifo_send fds (batches (pipe s p)).
Proof.
  intros Ht Hv Hn. destruct (pipe64_valid_range p s Hv) as [Hp Hu].
  destruct (table_pipe_ok s p Ht Hp) as [Hqo Hro].
  unfold pipe64_send_fds, fifo_send. rewrite Hv, Hn, batches_len by done. simpl. set (q := pipe s p) in *.
  destruct (Z.leb_spec n 0); [by replace (0 <? n) with false by (symmetry; apply Z.ltb_ge; lia)|].
  replace (0 <? n) with true by (symmetry; apply Z.ltb_lt; lia).
  destruct (Z.ltb_spec 8 n); [by replace (n <=? 8) with false by (symmetry; apply Z.leb_gt; lia)|].
  replace (n <=? 8) with true by (symmetry; apply Z.leb_le; lia).
  destruct (Z.leb_spec PIPE64_INFLIGHT (p_in_count q));
    [by replace (p_in_count q <? PIPE64_INFLIGHT) with false by (symmetry; apply Z.ltb_ge; lia)|].
  replace (p_in_count q <? PIPE64_INFLIGHT) with true by (symmetry; apply Z.ltb_lt; lia). simpl.
  set (slot := (p_in_head q + p_in_count q) mod PIPE64_INFLIGHT).
  pose proof (qo_count _ Hqo). pose proof (qo_head _ Hqo).
  assert (0 <= slot < PIPE64_INFLIGHT) as Hslot by (by apply Z.mod_pos_bound).
  set (b := zget (p_inflight q) slot).
  assert (zlen (b_fds b) = 8 /\ 0 <= b_n b <= 8) as [Hb8 Hbn].
  { apply (zget_Forall (fun b => zlen (b_fds b) = 8 /\ 0 <= b_n b <= 8)); [apply Hqo|].
    rewrite (qo_slots _ Hqo). done. }
  assert (zslice 0 n fds = fds) as Hfds.
  { unfold zslice, zlen in *. simpl. rewrite drop_0. apply take_ge. lia. }
  rewrite Hfds. set (b' := mkBatch _ _).
  assert (zlen (b_fds b') = 8 /\ zslice 0 n (b_fds b') = fds) as [Hb8' Hsl].
  { split; [simpl; rewrite zlen_zsplice; lia|]. simpl. unfold zslice, zsplice. simpl.
    rewrite ?take_0, ?drop_0. simpl. apply take_app_length'. unfold zlen in *. lia. }
  set (q' := set_queue _ _ _ _).
  assert (queue_ok q') as Hqo'.
  { split; simpl; [by rewrite zlen_zset; apply Hqo|apply zset_Forall; [apply Hqo|split; [done|simpl; lia]]|done|lia]. }
  destruct (put_only p q' s Ht Hp) as (Ht' & Ho & Hpq);
    [split; [done|intros Hu'; destruct (Hro Hu); by split]|].
  rewrite Hpq. split_and!; try done.
  { unfold pipe64_valid in *. rewrite Hpq. exact Hv. }
  f_equal. unfold batches, q'. simpl.
  replace (p_in_count q + 1) with (Z.of_nat (S (Z.to_nat (p_in_count q)))) by lia.
  rewrite seqZ_S, Z2Nat.id, fmap_app by lia. f_equal.
  - apply list_fmap_ext. intros j i Hi. apply lookup_seqZ in Hi as [-> Hi]. simpl.
    rewrite zget_zset_ne; [done|lia|apply Z.mod_pos_bound; lia|].
    unfold slot. intros Heq.
    pose proof (Z.mod_pos_bound (p_in_head q + p_in_count q) PIPE64_INFLIGHT ltac:(done)).
    unfold PIPE64_INFLIGHT in *.
    pose proof (Z.div_mod (p_in_head q + p_in_count q) 16).
    pose proof (Z.div_mod (p_in_head q + (0 + Z.of_nat j)) 16). lia.
  - simpl. fold slot. rewrite zget_zset_eq by (rewrite (qo_slots _ Hqo); done). simpl.
    f_equal. exact Hsl.
Qed.

(** ** Closing a pipe terminates *)

Lemma names_range rx r f : 0 <= names rx r f <= 1.
Proof. unfold names. repeat case_match; lia. Qed.

Lemma named_nonneg rx r l : 0 <= named rx r l.
Proof. induction l as [|f l IH]; simpl; [lia|]. pose proof (names_range rx r f). lia. Qed.

Lemma named_app rx r l k : named rx r (l ++ k) = named rx r l + named rx r k.
Proof. induction l as [|f l IH]; simpl; [done|]. rewrite IH. lia. Qed.

Lemma pending_nonneg rx s C r : 0 <= pending rx s C r.
Proof.
  pose proof (sum_up_le (Z.to_nat PIPE64_MAX) 0 (fun _ => 0)
    (fun i => if open_in C s i then named rx r (concat (batches (pipe s i))) else 0)) as Hle.
  rewrite sum_up_const in Hle. unfold pending. rewrite <-Hle; [lia|].
  intros j _. destruct (open_in C s j); [apply named_nonneg|lia].
Qed.

Lemma pipes_nat : Z.of_nat (Z.to_nat PIPE64_MAX) = PIPE64_MAX.
Proof. apply Z2Nat.id. done. Qed.

Lemma backlog_nonneg s C : table_ok s -> 0 <= backlog s C <= 32768.
Proof.
  intros Ht. unfold backlog.
  assert (forall j, 0 <= j < 0 + Z.of_nat (Z.to_nat PIPE64_MAX) ->
    0 <= (if open_in C s j then p_in_count (pipe s j) else 0) <= 16) as Hj.
  { rewrite pipes_nat. intros j Hj. destruct (open_in C s j); [|lia].
    destruct (table_pipe_ok s j Ht) as [Hq _]; [lia|]. exact (qo_count _ Hq). }
  pose proof pipes_nat as Hn. set (n := Z.to_nat PIPE64_MAX) in *. clearbody n.
  pose proof (sum_up_le n 0 (fun _ => 0) _ (fun j Hlt => proj1 (Hj j Hlt))) as Hlo.
  pose proof (sum_up_le n 0 _ (fun _ => 16) (fun j Hlt => proj2 (Hj j Hlt))) as Hhi.
  rewrite sum_up_const in Hlo, Hhi. rewrite Hn in Hlo, Hhi. unfold PIPE64_MAX in Hlo, Hhi. lia.
Qed.

(** Replacing one pipe moves the sums by that pipe's share. *)
Lemma put_sums C p q s :
  table_ok s -> 0 <= p < PIPE64_MAX ->
  let share f := fun (u : pipe64) => if p_used u && negb (C p) then f u else 0 in
  (forall rx r, pending rx (put p q s) C r = pending rx s C r
     + share (fun u => named rx r (concat (batches u))) q
     - share (fun u => named rx r (concat (batches u))) (pipe s p)) /\
  backlog (put p q s) C = backlog s C + share p_in_count q - share p_in_count (pipe s p).
Proof.
  intros [Hl _] Hp. cbv zeta.
  assert (forall i, 0 <= i -> pipe (put p q s) i = if p =? i then q else pipe s i) as Hpp
    by (intros; by apply pipe_put).
  split.
  - intros rx r. unfold pending. rewrite (sum_up_update _ 0 _
      (fun i => if open_in C s i then named rx r (concat (batches (pipe s i))) else 0) p).
    + unfold open_in. by rewrite Hpp, Z.eqb_refl by lia.
    + rewrite pipes_nat. lia.
    + rewrite pipes_nat. intros j Hj Hne. unfold open_in. rewrite Hpp by lia.
      by destruct (Z.eqb_spec p j); [lia|].
  - unfold backlog. rewrite (sum_up_update _ 0 _
      (fun i => if open_in C s i then p_in_count (pipe s i) else 0) p).
    + unfold open_in. by rewrite Hpp, Z.eqb_refl by lia.
    + rewrite pipes_nat. lia.
    + rewrite pipes_nat. intros j Hj Hne. unfold open_in. rewrite Hpp by lia.
      by destruct (Z.eqb_spec p j); [lia|].
Qed.

(** Adding [p] to the closing set takes its share out of the sums. *)
Lemma close_sums C p s :
  0 <= p < PIPE64_MAX -> p_used (pipe s p) = true -> C p = false ->
  let C' := fun r => (r =? p) || C r in
  (forall rx r, pending rx s C r = pending rx s C' r + named rx r (concat (batches (pipe s p)))) /\
  backlog s C = backlog s C' + p_in_count (pipe s p).
Proof.
  intros Hp Hu HC. cbv zeta. split.
  - intros rx r. unfold pending. rewrite (sum_up_update _ 0 _
      (fun i => if open_in (fun r => (r =? p) || C r) s i
                then named rx r (concat (batches (pipe s i))) else 0) p).
    + unfold open_in. rewrite Z.eqb_refl, Hu, HC. cbn [orb andb negb]. lia.
    + rewrite pipes_nat. lia.
    + rewrite pipes_nat. intros j Hj Hne. unfold open_in. by destruct (Z.eqb_spec j p); [lia|].
  - unfold backlog. rewrite (sum_up_update _ 0 _
      (fun i => if open_in (fun r => (r =? p) || C r) s i then p_in_count (pipe s i) else 0) p).
    + unfold open_in. rewrite Z.eqb_refl, Hu, HC. cbn [orb andb negb]. lia.
    + rewrite pipes_nat. lia.
    + rewrite pipes_nat. intros j Hj Hne. unfold open_in. by destruct (Z.eqb_spec j p); [lia|].
Qed.
Lemma pending_split rx C p s r :
  0 <= p < PIPE64_MAX -> p_used (pipe s p) = true -> C p = false ->
  pending rx s C r
    = pending rx s (fun r => (r =? p) || C r) r + named rx r (concat (batches (pipe s p))).
Proof. intros. by apply close_sums. Qed.

Lemma named_ends rx r p rd wr :
  0 <= r -> named rx r [ends_of p rd wr] = if (if rx then rd else wr) && (p =? r) then 1 else 0.
Proof.
  intros Hr. simpl. unfold names, ends_of. simpl. rewrite Z.add_0_r.
  destruct rx; [destruct rd|destruct wr]; simpl; try done; destruct r; (done || lia).
Qed.

(** A descriptor that refers to no pipe of the table. *)
Lemma refs_ok_drop s C f X : (forall rx r, 0 <= r < PIPE64_MAX -> names rx r f = 0) ->
  refs_ok s C (f :: X) -> refs_ok s C X.
Proof.
  intros Hf [Ht Hr]. split; [done|]. intros rx r Hrr. specialize (Hr rx r Hrr).
  simpl in Hr. rewrite Hf in Hr by done. lia.
Qed.

(** An end of a pipe that is not open, or of none. *)
Lemma refs_ok_stray s C p rd wr X : pipe64_valid p s = false ->
  refs_ok s C (ends_of p rd wr :: X) -> refs_ok s C X.
Proof.
  intros Hv Hr. apply refs_ok_drop with (f := ends_of p rd wr); [|done]. intros rx r Hrr.
  pose proof (proj2 Hr rx r Hrr) as He. pose proof (named_ends rx r p rd wr ltac:(lia)) as Hn.
  change (named rx r (ends_of p rd wr :: X)) with (names rx r (ends_of p rd wr) + named rx r X) in He.
  change (named rx r [ends_of p rd wr]) with (names rx r (ends_of p rd wr) + 0) in Hn.
  destruct (Z.eqb_spec p r) as [->|]; [|rewrite andb_false_r in Hn; lia].
  pose proof (names_range rx r (ends_of r rd wr)). pose proof (pending_nonneg rx s C r). pose proof (named_nonneg rx r X).
  unfold pipe64_valid in Hv. rewrite (proj2 (Z.leb_le 0 r)), (proj2 (Z.ltb_lt r PIPE64_MAX)) in Hv by lia. cbn [andb] in Hv.
  unfold room, open_in in He. rewrite Hv in He. cbn [andb] in He. lia.
Qed.

(** References to [r] in flight in the pipe [u] kept at index [p], less the
    ends of [r] it stands for. *)
Definition held (C : Z -> bool) (p : Z) (rx : bool) (r : Z) (u : pipe64) : Z :=
  if p_used u && negb (C p)
  then named rx r (concat (batches u)) - (if r =? p then end_count rx u else 0) else 0.

Lemma refs_ok_put s C X Y p q :
  refs_ok s C X -> 0 <= p < PIPE64_MAX -> pipe_ok q ->
  (forall rx r, 0 <= r < PIPE64_MAX ->
     held C p rx r q + named rx r Y = held C p rx r (pipe s p) + named rx r X) ->
  refs_ok (put p q s) C Y.
Proof.
  intros [Ht Hr] Hp Hq Hh. destruct (put_only p q s Ht Hp Hq) as (Ht' & Ho & Hpq).
  split; [done|]. intros rx r Hrr. specialize (Hr rx r Hrr). specialize (Hh rx r Hrr).
  destruct (put_sums C p q s Ht Hp) as [Hpend _]. rewrite (Hpend rx r).
  unfold held, room, open_in in *. destruct (Z.eqb_spec r p) as [->|Hne].
  - rewrite Hpq. repeat case_match; lia.
  - rewrite (proj2 (proj2 (proj2 Ho)) r) by lia. repeat case_match; lia.
Qed.

Lemma batches_cons q :
  queue_ok q -> 0 < p_in_count q ->
  let b := zget (p_inflight q) (p_in_head q) in
  let q' := set_queue (p_inflight q) ((p_in_head q + 1) mod PIPE64_INFLIGHT) (p_in_count q - 1) q in
  queue_ok q' /\ batches q = zslice 0 (b_n b) (b_fds b) :: batches q'.
Proof.
  intros Hq Hc. pose proof (qo_head _ Hq). pose proof (qo_count _ Hq). cbv zeta. split.
  - destruct Hq. split; simpl; try done; [by apply Z.mod_pos_bound|lia].
  - unfold batches. simpl.
    replace (seqZ 0 (p_in_count q)) with (0 :: seqZ 1 (p_in_count q - 1)).
    2: { rewrite (seqZ_cons 0) by lia. f_equal; lia. }
    simpl. rewrite Z.add_0_r, Z.mod_small by lia. f_equal.
    rewrite <-(fmap_add_seqZ 1 0), <-list_fmap_compose. apply list_fmap_ext.
    intros _ i _. simpl. rewrite Zplus_mod_idemp_l. do 2 f_equal; do 2 f_equal; lia.
Qed.

Lemma batches_nil q : p_in_count q = 0 -> batches q = [].
Proof. unfold batches. by intros ->. Qed.

Lemma unref_fuel : Z.of_nat UNREF_FUEL = 98306.
Proof. apply Z2Nat.id. lia. Qed.

#[local] Opaque UNREF_FUEL.

(** One level of closing, for a given fuel. *)
Definition unref_ends (n : nat) : Prop := forall s C X p rd wr,
  refs_ok s C (ends_of p rd wr :: X) -> C p = false \/ rd || wr = true ->
  2 + 3 * backlog s C <= Z.of_nat n ->
  exists s', pipe64_unref n p rd wr s = Some s' /\ closed_to s s' C X.

Definition drop_ends (n : nat) : Prop := forall s C X f,
  refs_ok s C (f :: X) -> 3 + 3 * backlog s C <= Z.of_nat n ->
  exists s', drop_inflight n f s = Some s' /\ closed_to s s' C X.

Definition drain_ends (n : nat) : Prop := forall s C X p,
  refs_ok s C (concat (batches (pipe s p)) ++ X) ->
  0 <= p < PIPE64_MAX -> p_used (pipe s p) = true -> C p = true ->
  1 + 3 * (backlog s C + p_in_count (pipe s p)) <= Z.of_nat n ->
  exists s', drain n p s = Some s' /\ refs_ok s' C X /\ backlog s' C <= backlog s C /\
    (forall r, 0 <= r -> r <> p -> C r = true -> pipe s' r = pipe s r) /\
    p_used (pipe s' p) = true /\ p_in_count (pipe s' p) = 0 /\
    forall r, 0 <= r -> r <> p -> idle s' r -> idle s r.

Lemma closed_to_trans s s1 s2 C X Y : closed_to s s1 C X -> closed_to s1 s2 C Y -> closed_to s s2 C Y.
Proof.
  intros (_ & Hb1 & Hp1 & Hi1) (Hr2 & Hb2 & Hp2 & Hi2). split; [exact Hr2|]. split; [lia|]. split.
  - intros r Hr0 HC. by rewrite Hp2, Hp1.
  - auto.
Qed.

Lemma fold_drop_ends n C Y l s :
  drop_ends n -> refs_ok s C (l ++ Y) -> 3 + 3 * backlog s C <= Z.of_nat n ->
  exists s', fold_opt (fun s f => drop_inflight n f s) s l = Some s' /\ closed_to s s' C Y.
Proof.
  intros Hn. revert s. induction l as [|f l IH]; intros s Hr Hf; simpl.
  { exists s. split; [done|]. split; [exact Hr|]. split; [lia|done]. }
  destruct (Hn s C (l ++ Y) f Hr Hf) as (s1 & -> & Hc1).
  destruct (IH s1 (proj1 Hc1)) as (s2 & -> & Hc2); [destruct Hc1; lia|].
  exists s2. split; [done|]. by apply (closed_to_trans s s1 _ _ (l ++ Y)).
Qed.

(** The heap and the node table are not part of the invariant. *)
Lemma pending_same rx s s' C r : pipes s = pipes s' -> pending rx s C r = pending rx s' C r.
Proof. intros Hs. apply sum_up_ext. intros j _. unfold open_in, pipe. by rewrite Hs. Qed.

Lemma backlog_same s s' C : pipes s = pipes s' -> backlog s C = backlog s' C.
Proof. intros Hs. apply sum_up_ext. intros j _. unfold open_in, pipe. by rewrite Hs. Qed.

Lemma closed_to_same s s' C X : pipes s' = pipes s -> refs_ok s C X -> closed_to s s' C X.
Proof.
  intros Hs [[Hl HF] Hr]. split; [|split].
  - split; [split; by rewrite Hs|]. intros rx r. rewrite (pending_same rx s' s) by done.
    replace (room rx s' C r) with (room rx s C r) by (unfold room, open_in, pipe; by rewrite Hs).
    apply Hr.
  - by rewrite (backlog_same s' s).
  - unfold idle, pipe. by rewrite Hs.
Qed.

Lemma drop_ends_S n : unref_ends n -> drop_ends (S n).
Proof.
  intros Hn s C X f Hr Hf. cbn [drop_inflight]. destruct (Z.eqb_spec (fd_kind f) FD64_FILE).
  { eexists. split; [done|]. apply closed_to_same; [done|]. apply (refs_ok_drop s C f); [|done].
    intros rx r _. unfold names. by rewrite (proj2 (Z.eqb_eq _ _)). }
  assert (refs_ok s C (ends_of (fd_rx f) true false :: ends_of (fd_tx f) false true :: X)) as Hr'.
  { destruct Hr as [Ht Hr]. split; [done|]. intros rx r Hrr. specialize (Hr rx r Hrr).
    pose proof (named_ends rx r (fd_rx f) true false ltac:(lia)) as H1.
    pose proof (named_ends rx r (fd_tx f) false true ltac:(lia)) as H2. simpl in *.
    assert (names rx r f = if (if rx then fd_rx f else fd_tx f) =? r then 1 else 0) as Hnm.
    { unfold names. by destruct (Z.eqb_spec (fd_kind f) FD64_FILE). }
    destruct rx; simpl in *; lia. }
  destruct (Hn _ _ _ _ _ _ Hr' (or_intror eq_refl) ltac:(lia)) as (s1 & -> & Hc1).
  destruct (Hn _ _ _ _ _ _ (proj1 Hc1) (or_intror eq_refl)) as (s2 & -> & Hc2); [destruct Hc1; lia|].
  exists s2. split; [done|]. by eapply closed_to_trans.
Qed.

Lemma drain_ends_S n : drop_ends n -> drain_ends n -> drain_ends (S n).
Proof.
  intros Hdrop Hn s C X p Hr Hp Hu HC Hf. cbn [drain].
  destruct (table_pipe_ok s p (proj1 Hr) Hp) as [Hq Hro].
  pose proof (backlog_nonneg s C (proj1 Hr)). pose proof (qo_count _ Hq).
  destruct (Z.ltb_spec 0 (p_in_count (pipe s p))) as [Hc|Hc].
  2: { exists s. rewrite batches_nil in Hr by lia. split_and!; try done. lia. }
  destruct (batches_cons _ Hq Hc) as [Hq' Hbs]. cbv zeta in Hbs.
  rewrite Hbs in Hr. simpl in Hr. rewrite <-app_assoc in Hr.
  destruct (fold_drop_ends n C _ _ s Hdrop Hr ltac:(lia)) as (s1 & -> & Hr1 & Hb1 & Hp1 & Hi1).
  rewrite (Hp1 p) by (lia || done). set (q' := set_queue _ _ _ _) in *.
  assert (pipe_ok q') as Hqok by (split; [done|]; intros; by destruct Hro).
  assert (refs_ok (put p q' s1) C (concat (batches q') ++ X)) as Hr2.
  { apply (refs_ok_put s1 C _ _ p q' Hr1); try done.
    intros rx r _. unfold held. rewrite HC, !andb_false_r. lia. }
  destruct (put_only p q' s1 (proj1 Hr1) Hp Hqok) as (_ & Ho & Hpq).
  destruct (put_sums C p q' s1 (proj1 Hr1) Hp) as [_ Hbp]. cbv zeta in Hbp.
  rewrite HC, !andb_false_r in Hbp.
  destruct (Hn (put p q' s1) C X p) as (s2 & Heq & Hr3 & Hb3 & Hp3 & Hu3 & Hc3 & Hi3); try done.
  - by rewrite Hpq.
  - by rewrite Hpq.
  - rewrite Hpq, Hbp. simpl. lia.
  - exists s2. split_and!; try done; [lia| |].
    + intros r Hr0 Hne HCr. rewrite Hp3 by done. rewrite (proj2 (proj2 (proj2 Ho))) by done.
      by apply Hp1.
    + intros r Hr0 Hne Hidle. apply Hi1; [done|]. specialize (Hi3 r Hr0 Hne Hidle).
      unfold idle in *. by rewrite (proj2 (proj2 (proj2 Ho))) in Hi3 by done.
Qed.

(** The pipe whose last end is gone leaves the table. *)
Lemma close_end C X p s s2 h :
  0 <= p < PIPE64_MAX -> C p = false -> refs_ok s2 (fun r => (r =? p) || C r) X ->
  p_used (pipe s2 p) = true -> p_in_count (pipe s2 p) = 0 ->
  backlog s2 (fun r => (r =? p) || C r) <= backlog s C ->
  (forall r, 0 <= r -> r <> p -> C r = true -> pipe s2 r = pipe s r) ->
  (forall r, 0 <= r -> r <> p -> idle s2 r -> idle s r) ->
  closed_to s (put p (set_dead (pipe s2 p)) (set_heap h s2)) C X.
Proof.
  intros Hp HC Hr Hu Hc Hb Hpipes Hidle.
  destruct (closed_to_same s2 (set_heap h s2) _ _ eq_refl Hr) as (Hr' & Hb' & _).
  pose proof (proj1 Hr') as Ht. pose proof (table_pipe_ok _ p Ht Hp) as [Hq _].
  set (q' := set_dead _).
  assert (pipe_ok q') as Hqok by (split; [by destruct Hq; split|done]).
  destruct (put_only p q' _ Ht Hp Hqok) as (Ht' & Ho & Hpq).
  destruct (put_sums C p q' _ Ht Hp) as [Hps Hbs]. cbv zeta in Hps, Hbs.
  rewrite HC, !andb_true_r in Hbs. change (p_used q') with false in *.
  change (pipe (set_heap h s2) p) with (pipe s2 p) in *. rewrite Hu in *.
  destruct (close_sums C p (set_heap h s2) Hp Hu HC) as [Hcp Hcb]. cbv zeta in Hcp, Hcb.
  change (pipe (set_heap h s2) p) with (pipe s2 p) in *. split; [split; [done|]|split; [lia|split]].
  - intros rx r Hrr. rewrite Hps, HC, Hcp. rewrite batches_nil by done. simpl.
    pose proof (proj2 Hr' rx r Hrr) as Hle. unfold room, open_in in *.
    destruct (Z.eqb_spec r p) as [->|]; [rewrite Hpq; simpl|].
    + rewrite andb_false_r in Hle. lia.
    + rewrite (proj2 (proj2 (proj2 Ho)) r) by lia. simpl in Hle. lia.
  - intros r Hr0 HCr. rewrite (proj2 (proj2 (proj2 Ho)) r) by congruence. apply Hpipes; congruence.
  - intros r Hr0. unfold idle at 1. destruct (decide (r = p)) as [->|Hne]; [by rewrite Hpq; intros [? _]|].
    rewrite (proj2 (proj2 (proj2 Ho)) r) by done. by apply Hidle.
Qed.

Lemma unref_ends_S n : drain_ends n -> unref_ends (S n).
Proof.
  intros Hn s C X p rd wr Hr Hrw Hf. cbn [pipe64_unref].
  destruct (pipe64_valid p s) eqn:Hv; simpl.
  2: { exists s. split; [done|]. apply closed_to_same; [done|]. by eapply refs_ok_stray. }
  destruct (pipe64_valid_range p s Hv) as [Hp Hu].
  pose proof (proj1 Hr) as Ht. destruct (table_pipe_ok s p Ht Hp) as [Hq Hro].
  specialize (Hro Hu). set (q' := set_ends _ _ _).
  (* the reference given up is counted, so [p] is not closing yet *)
  assert (forall rx : bool, (if rx then rd else wr) = true ->
    C p = false /\ 0 < end_count rx (pipe s p)) as Hcnt.
  { intros rx Hrx. pose proof (proj2 Hr rx p Hp) as Hc. unfold room, open_in in Hc. rewrite Hu in Hc.
    pose proof (named_ends rx p p rd wr ltac:(lia)) as Hne. rewrite Hrx, Z.eqb_refl in Hne.
    pose proof (pending_nonneg rx s C p). pose proof (named_nonneg rx p X).
    change (named rx p (ends_of p rd wr :: X))
      with (names rx p (ends_of p rd wr) + named rx p X) in Hc.
    simpl in Hne, Hc. destruct (C p); simpl in Hc; lia. }
  assert (C p = false) as HC.
  { destruct Hrw; [done|]. destruct rd; [by apply (Hcnt true)|].
    destruct wr; [by apply (Hcnt false)|done]. }
  assert (forall rx, end_count rx q' = end_count rx (pipe s p)
    - (if if rx then rd else wr then 1 else 0)) as Hends.
  { intros rx. specialize (Hcnt rx). destruct rx; simpl in *.
    - destruct rd; simpl; [|lia]. destruct (Z.ltb_spec 0 (p_readers (pipe s p))); [lia|].
      destruct (Hcnt eq_refl); lia.
    - destruct wr; simpl; [|lia]. destruct (Z.ltb_spec 0 (p_writers (pipe s p))); [lia|].
      destruct (Hcnt eq_refl); lia. }
  assert (pipe_ok q') as Hqok.
  { split; [by destruct Hq; split|]. intros _. destruct Hro. split; try done.
    - change (0 <= end_count true q'). rewrite Hends. simpl. specialize (Hcnt true). simpl in Hcnt.
      destruct rd; [destruct (Hcnt eq_refl)|]; lia.
    - change (0 <= end_count false q'). rewrite Hends. simpl. specialize (Hcnt false). simpl in Hcnt.
      destruct wr; [destruct (Hcnt eq_refl)|]; lia. }
  assert (refs_ok (put p q' s) C X) as Hr1.
  { apply (refs_ok_put s C _ _ p q' Hr); try done.
    intros rx r Hrr. unfold held. rewrite HC, (Hends rx).
    change (batches q') with (batches (pipe s p)). change (p_used q') with (p_used (pipe s p)).
    rewrite Hu. cbn [andb negb].
    pose proof (named_ends rx r p rd wr ltac:(lia)) as Hne. simpl in Hne |- *.
    rewrite Z.eqb_sym in Hne. destruct (r =? p); rewrite ?andb_true_r, ?andb_false_r in Hne; lia. }
  destruct (put_only p q' s Ht Hp Hqok) as (Ht1 & Ho & Hpq).
  destruct (put_sums C p q' s Ht Hp) as [_ Hb1]. cbv zeta in Hb1.
  rewrite HC, !andb_true_r in Hb1. simpl in Hb1.
  assert (~ (p_readers q' = 0 /\ p_writers q' = 0) -> forall r, 0 <= r -> idle (put p q' s) r -> idle s r) as Hkeep.
  { intros Hnz r Hr0. unfold idle. destruct (decide (r = p)) as [->|Hne]; [rewrite Hpq; tauto|]. by rewrite (proj2 (proj2 (proj2 Ho))) by done. }
  rewrite !Hpq. destruct (Z.eqb_spec (p_readers q') 0) as [Hz1|]; cbn [andb].
  2: { eexists. split; [done|]. split; [done|]. split; [lia|]. split; [intros r Hr0 HCr; apply Ho; [done|]; congruence|].
       apply Hkeep. lia. }
  destruct (Z.eqb_spec (p_writers q') 0) as [Hz2|].
  2: { eexists. split; [done|]. split; [done|]. split; [lia|]. split; [intros r Hr0 HCr; apply Ho; [done|]; congruence|].
       apply Hkeep. lia. }
  set (s1 := put p q' s) in *. set (C' := fun r => (r =? p) || C r).
  assert (p_used (pipe s1 p) = true) as Hu1 by (by rewrite Hpq).
  destruct (close_sums C p s1 Hp Hu1 HC) as [Hcp Hcb]. cbv zeta in Hcp, Hcb.
  assert (refs_ok s1 C' (concat (batches (pipe s1 p)) ++ X)) as Hr2.
  { split; [done|]. intros rx r Hrr. pose proof (proj2 Hr1 rx r Hrr) as Hc.
    rewrite Hcp in Hc. rewrite named_app. unfold room, open_in in *. unfold C' at 2.
    destruct (Z.eqb_spec r p) as [->|]; cbn [orb negb]; [|fold C' in Hc; lia].
    rewrite HC, Hpq in Hc. fold C' in Hc. rewrite andb_false_r, Hpq.
    assert (end_count rx q' = 0) as He by (by destruct rx).
    rewrite He in Hc. destruct (p_used q'); simpl in Hc; lia. }
  destruct (Hn s1 C' X p Hr2 Hp Hu1) as (s2 & -> & Hr3 & Hb3 & Hp3 & Hu3 & Hc3 & Hi3).
  { unfold C'. by rewrite Z.eqb_refl. }
  { fold C' in Hcb. lia. }
  eexists. split; [done|]. apply close_end; try done; [fold C' in Hcb |- *; pose proof (qo_count _ (proj1 Hqok)); rewrite Hpq in Hcb; lia| |].
  - intros r Hr0 Hne HCr. rewrite Hp3; [by apply Ho|done|done|]. unfold C'. by rewrite HCr, orb_true_r.
  - intros r Hr0 Hne Hidle. specialize (Hi3 r Hr0 Hne Hidle). unfold idle in *.
    by rewrite (proj2 (proj2 (proj2 Ho))) in Hi3 by done.
Qed.

Lemma closing_ends n : unref_ends n /\ drain_ends n /\ drop_ends n.
Proof.
  induction n as [|n (IHu & IHd & IHf)].
  - split_and!.
    + intros s C X p rd wr Hr _ Hf. pose proof (backlog_nonneg s C (proj1 Hr)). lia.
    + intros s C X p Hr Hp Hu HC Hf. pose proof (backlog_nonneg s C (proj1 Hr)).
      destruct (table_pipe_ok s p (proj1 Hr) Hp) as [Hq _]. pose proof (qo_count _ Hq). lia.
    + intros s C X f Hr Hf. pose proof (backlog_nonneg s C (proj1 Hr)). lia.
  - split; [by apply unref_ends_S|]. split; [by apply drain_ends_S|by apply drop_ends_S].
Qed.

(** ** Receiving descriptors *)

Lemma pipe64_recv_fds_spec fuel p s :
  table_ok s -> pipe64_valid p s = true ->
  exists r fds s', pipe64_recv_fds fuel p 8 s = Some (r, fds, s') /\
  table_ok s' /\ only_pipe p s s' /\ pipe64_valid p s' = true /\
  contents (pipe s' p) = contents (pipe s p) /\
  p_readers (pipe s' p) = p_readers (pipe s p) /\ p_writers (pipe s' p) = p_writers (pipe s p) /\
  (r, fds, batches (pipe s' p)) = fifo_recv (batches (pipe s p)).
Proof.
  intros Ht Hv. destruct (pipe64_valid_range p s Hv) as [Hp Hu].
  destruct (table_pipe_ok s p Ht Hp) as [Hq Hro]. pose proof (qo_count _ Hq).
  unfold pipe64_recv_fds. rewrite Hv. cbn [negb orb].
  destruct (Z.eqb_spec (p_in_count (pipe s p)) 0) as [Hz|Hz].
  { exists 0, [], s. rewrite batches_nil by done. done. }
  destruct (batches_cons _ Hq ltac:(lia)) as [Hq' Hbs]. cbv zeta in Hbs. rewrite Hbs.
  set (b := zget _ _) in *.
  assert (zlen (b_fds b) = 8 /\ 0 <= b_n b <= 8) as [Hb8 Hbn].
  { apply (zget_Forall (fun b => zlen (b_fds b) = 8 /\ 0 <= b_n b <= 8)); [apply Hq|].
    rewrite (qo_slots _ Hq). apply Hq. }
  replace (if b_n b <? 8 then b_n b else 8) with (b_n b)
    by (destruct (Z.ltb_spec (b_n b) 8); lia).
  rewrite Z.sub_diag. change (zslice (b_n b) 0 (b_fds b)) with (@nil fdpass64). cbn [fold_opt].
  set (q' := set_queue _ _ _ _) in *.
  destruct (put_only p q' s Ht Hp) as (Ht' & Ho & Hpq); [split; [done|by destruct Hro]|].
  eexists _, _, _. split; [done|]. rewrite Hpq. split; [done|]. split; [done|].
  split; [unfold pipe64_valid in *; rewrite Hpq; exact Hv|]. split; [done|].
  split; [done|]. split; [done|]. unfold fifo_recv. by rewrite zlen_zslice by lia.
Qed.

(** One operation, against the abstract pipe. *)
Lemma pipe_op_spec p o s :
  table_ok s -> pipe64_valid p s = true -> (forall n, o = PRead n -> 0 <= n) ->
  exists r out fds s', pipe_op p o s = Some (r, out, fds, s') /\
    table_ok s' /\ only_pipe p s s' /\ pipe64_valid p s' = true /\
    fifo_op o (pipe_view (pipe s p)) = (r, out, fds, pipe_view (pipe s' p)).
Proof.
  intros Ht Hv Hn. unfold pipe_view. destruct o as [n|data|fds|]; cbn [pipe_op fifo_op].
  - pose proof (pipe64_read_spec p n s Ht Hv (Hn n eq_refl)) as Hs.
    destruct (pipe64_read p n s) as [[r out] s'].
    destruct Hs as (? & ? & ? & Hrd & Hwr & Hb & Hc). exists r, out, [], s'.
    split_and!; try done. simpl. rewrite <-Hc. by rewrite Hrd, Hwr, Hb.
  - pose proof (pipe64_write_spec p data s Ht Hv) as Hs.
    destruct (pipe64_write p data s) as [r s'].
    destruct Hs as (? & ? & ? & Hrd & Hwr & Hb & Hc). exists r, [], [], s'.
    split_and!; try done. simpl. rewrite <-Hc. by rewrite Hrd, Hwr, Hb.
  - pose proof (pipe64_send_fds_spec p fds (zlen fds) s Ht Hv eq_refl) as Hs.
    destruct (pipe64_send_fds p fds (zlen fds) s) as [r s'].
    destruct Hs as (? & ? & ? & Hc & Hrd & Hwr & Hb). exists r, [], [], s'.
    split_and!; try done. simpl. rewrite <-Hb. by rewrite Hrd, Hwr, Hc.
  - destruct (pipe64_recv_fds_spec UNREF_FUEL p s Ht Hv)
      as (r & fds & s' & -> & ? & ? & ? & Hc & Hrd & Hwr & Hb).
    exists r, [], fds, s'. split_and!; try done. simpl. rewrite <-Hb. by rewrite Hrd, Hwr, Hc.
Qed.

(** ** The life of descriptors *)

Lemma refs_ok_pointwise s s' C X :
  refs_ok s C X -> table_ok s' -> (forall r, 0 <= r -> pipe s' r = pipe s r) -> refs_ok s' C X.
Proof.
  intros [Ht Hr] Ht' Hpp. split; [done|]. intros rx r Hrr.
  replace (room rx s' C r) with (room rx s C r) by (unfold room, open_in; by rewrite Hpp by lia).
  replace (pending rx s' C r) with (pending rx s C r); [by apply Hr|].
  apply sum_up_ext. intros j Hj. unfold open_in. by rewrite Hpp by lia.
Qed.

Lemma refs_ok_only s s' X Y p :
  refs_ok s no_pipe X -> 0 <= p < PIPE64_MAX -> table_ok s' -> only_pipe p s s' ->
  (forall rx r, 0 <= r < PIPE64_MAX ->
     held no_pipe p rx r (pipe s' p) + named rx r Y
       = held no_pipe p rx r (pipe s p) + named rx r X) ->
  refs_ok s' no_pipe Y.
Proof.
  intros Hr Hp Ht' (_ & _ & _ & Ho) Hh. pose proof (table_pipe_ok s' p Ht' Hp) as Hq.
  eapply (refs_ok_pointwise (put p (pipe s' p) s)); [by eapply refs_ok_put|done|].
  intros r Hr0. rewrite pipe_put by (done || apply Hr). destruct (Z.eqb_spec p r) as [->|]; [done|].
  apply Ho; [done|congruence].
Qed.

(** Moving descriptors between the hand and the queue of a live pipe. *)
Lemma refs_ok_queue s s' X Y p :
  refs_ok s no_pipe X -> table_ok s' -> only_pipe p s s' ->
  pipe64_valid p s = true -> pipe64_valid p s' = true ->
  p_readers (pipe s' p) = p_readers (pipe s p) -> p_writers (pipe s' p) = p_writers (pipe s p) ->
  (forall rx r, named rx r (concat (batches (pipe s' p))) + named rx r Y
     = named rx r (concat (batches (pipe s p))) + named rx r X) ->
  refs_ok s' no_pipe Y.
Proof.
  intros Hr Ht' Ho Hv Hv' Hrd Hwr Hb. apply pipe64_valid_range in Hv as [Hp Hu].
  apply pipe64_valid_range in Hv' as [_ Hu'].
  apply (refs_ok_only s s' X Y p Hr Hp Ht' Ho). intros rx r _. specialize (Hb rx r).
  unfold held. rewrite Hu, Hu'. cbn [andb negb no_pipe].
  assert (end_count rx (pipe s' p) = end_count rx (pipe s p)) as -> by (by destruct rx). lia.
Qed.

Lemma pipe64_init_ok s : table_sized s -> refs_ok (pipe64_init s) no_pipe [].
Proof.
  intros [Hl HF].
  assert (table_ok (pipe64_init s)) as Ht.
  { split; [unfold pipe64_init, zlen in *; simpl; by rewrite length_fmap|].
    unfold pipe64_init. simpl. apply Forall_fmap. eapply Forall_impl; [exact HF|].
    intros q [Hs Hb]. split; [|done]. by split. }
  split; [done|]. intros rx r Hrr.
  assert (forall j, p_used (pipe (pipe64_init s) j) = false) as Hu.
  { intros j. unfold pipe, zget, pipe64_init. simpl. rewrite list_lookup_total_alt.
    change (map ?f ?l) with (f <$> l). rewrite list_lookup_fmap.
    by destruct (pipes s !! Z.to_nat j). }
  unfold room, open_in. rewrite Hu. simpl. rewrite Z.add_0_r.
  unfold pending. rewrite (sum_up_ext _ _ _ (fun _ => 0)); [by rewrite sum_up_const, Z.mul_0_r|].
  intros j _. unfold open_in. by rewrite Hu.
Qed.

(** A created pipe is fresh: it was not in use, and holds nothing. *)
Lemma pipe64_create_spec s i s' X :
  refs_ok s no_pipe X -> pipe64_create s = (i, s') ->
  refs_ok s' no_pipe X /\
  (i <> -1 -> pipe64_valid i s = false /\ pipe64_valid i s' = true /\
     pipe_view (pipe s' i) = mkA [] [] 0 0 /\ forall r, 0 <= r -> r <> i -> pipe s' r = pipe s r).
Proof.
  intros Hr. unfold pipe64_create. destruct (find_up _ _ _) as [j|] eqn:Hf.
  2: { intros [= <- <-]. done. }
  apply find_up_Some in Hf as (Hj & Hu & _). rewrite pipes_nat in Hj. apply negb_true_iff in Hu.
  destruct (kmalloc64 PIPE64_BUF (heap s)) as [b h].
  pose proof (closed_to_same s (set_heap h s) _ _ eq_refl Hr) as (Hr' & _ & _).
  change (pipe (set_heap h s)) with (pipe s).
  destruct (table_pipe_ok s j (proj1 Hr) Hj) as [Hq _].
  destruct (b =? 0); intros [= <- <-]; split; try done.
  - apply (refs_ok_put _ _ X _ _ _ Hr' Hj).
    + split; [by destruct Hq; split|simpl; congruence].
    + intros rx r _. unfold held. simpl. rewrite Hu.
      change (pipe (set_heap h s)) with (pipe s). rewrite Hu. simpl. lia.
  - apply (refs_ok_put _ _ X _ _ _ Hr' Hj).
    + split; [by destruct Hq; split|]. intros _. split; simpl; try done.
      by apply block_bytes_len.
    + intros rx r _. unfold held. change (pipe (set_heap h s)) with (pipe s). rewrite Hu.
      unfold pipe64_reset. simpl. destruct (r =? j), rx; simpl; lia.
  - intros _. set (q := pipe64_reset _ _ _ _).
    assert (forall r, 0 <= r -> pipe (put j q (set_heap h s)) r = if j =? r then q else pipe s r)
      as Hpp by (intros; rewrite pipe_put by (apply Hr || done); done).
    unfold pipe64_valid. rewrite !Hpp, Z.eqb_refl, Hu, andb_false_r by lia. split; [done|].
    split; [rewrite !andb_true_iff, Z.leb_le, Z.ltb_lt; split; [lia|done]|].
    split; [done|]. intros r Hr0 Hne. rewrite Hpp by done. by destruct (Z.eqb_spec j r); [lia|].
Qed.

Lemma pipe64_ref_spec s p rd wr X :
  refs_ok s no_pipe X -> pipe64_valid p s = true ->
  refs_ok (pipe64_ref p rd wr s) no_pipe (ends_of p rd wr :: X).
Proof.
  intros Hr Hv. unfold pipe64_ref. rewrite Hv. cbn [negb].
  apply pipe64_valid_range in Hv as [Hp Hu]. destruct (table_pipe_ok s p (proj1 Hr) Hp) as [Hq Hro].
  specialize (Hro Hu). apply (refs_ok_put _ _ X); try done.
  - split; [by destruct Hq; split|]. intros _. destruct Hro.
    split; simpl; try done; case_match; lia.
  - intros rx r Hrr. unfold held. cbn [p_used set_ends]. rewrite Hu. cbn [andb negb no_pipe].
    pose proof (named_ends rx r p rd wr ltac:(lia)) as Hne.
    change (batches (set_ends ?a ?b ?q)) with (batches q).
    change (named rx r (ends_of p rd wr :: X)) with (names rx r (ends_of p rd wr) + named rx r X).
    simpl in Hne. rewrite Z.eqb_sym in Hne.
    destruct (r =? p), rx, rd, wr; simpl in Hne |- *; lia.
Qed.

(** Every step keeps the accounting. *)
Lemma fd_step_ok a b :
  fd_step a b -> refs_ok (fst a) no_pipe (snd a) -> refs_ok (fst b) no_pipe (snd b).
Proof.
  intros Hs Hr. pose proof (proj1 Hr) as Ht. destruct Hs as
    [s X i s' Hc|s X p rd wr Hv|s X p o r out fds s' Hv Ho Hop|s X p fds s' Hop
    |s X p r fds s' Hv Hop|s X p rd wr s' Hop|s X Y Heq]; cbn [fst snd] in *.
  - by eapply pipe64_create_spec.
  - by apply pipe64_ref_spec.
  - destruct (pipe_op_spec p o s Ht Hv) as (r' & out' & fds' & s1 & Heq & Ht' & Hon & Hv' & Hf).
    { intros n ->. destruct Ho as [(m & [= <-] & Hm)|(d & [=])]. done. }
    rewrite Hop in Heq. simplify_eq.
    assert (pipe_view (pipe s1 p) = mkA (contents (pipe s1 p)) (batches (pipe s p))
      (p_readers (pipe s p)) (p_writers (pipe s p))) as Hview.
    { destruct Ho as [(n & -> & _)|(d & ->)]; simpl in Hf; unfold pipe_view in *; simpl in Hf.
      - destruct (fifo_read _ _ _) as [[? ?] ?]. congruence.
      - destruct (fifo_write _ _ _) as [? ?]. congruence. }
    unfold pipe_view in Hview. injection Hview as Hb Hrd Hwr.
    eapply refs_ok_queue; [exact Hr|..]; try done. intros. by rewrite Hb.
  - destruct (pipe64_valid p s) eqn:Hv.
    2: { unfold pipe64_send_fds in Hop. by rewrite Hv in Hop. }
    pose proof (pipe64_send_fds_spec p fds (zlen fds) s Ht Hv eq_refl) as Hsp.
    rewrite Hop in Hsp. destruct Hsp as (Ht' & Hon & Hv' & _ & Hrd & Hwr & Hb).
    unfold fifo_send in Hb. destruct (_ && _); [|done]. injection Hb as Hb.
    eapply refs_ok_queue; [exact Hr|..]; try done. intros rx q. rewrite Hb.
    rewrite concat_app, !named_app. simpl. rewrite app_nil_r. lia.
  - destruct (pipe64_recv_fds_spec UNREF_FUEL p s Ht Hv)
      as (r' & fds' & s1 & Heq & Ht' & Hon & Hv' & _ & Hrd & Hwr & Hb).
    rewrite Hop in Heq. simplify_eq.
    eapply refs_ok_queue; [exact Hr|..]; try done. intros rx q. rewrite named_app.
    destruct (batches (pipe s p)); injection Hb as -> -> ->; simpl; [done|].
    rewrite named_app. lia.
  - pose proof unref_fuel. pose proof (backlog_nonneg s no_pipe Ht).
    destruct (proj1 (closing_ends UNREF_FUEL) s no_pipe X p rd wr) as (s1 & Heq & Hr1 & _);
      [done|by left|lia|]. rewrite Hop in Heq. injection Heq as ->. exact Hr1.
  - split; [done|]. intros rx r Hrr. rewrite <-Heq by lia. by apply Hr.
Qed.

Lemma fd_steps_ok s0 a :
  table_sized s0 -> rtc fd_step (pipe64_init s0, []) a -> refs_ok (fst a) no_pipe (snd a).
Proof.
  intros Hs0 Hsteps.
  assert (refs_ok (fst (pipe64_init s0, @nil fdpass64)) no_pipe []) as Hr by (by apply pipe64_init_ok).
  change (@nil fdpass64) with (snd (pipe64_init s0, @nil fdpass64)) in Hr at 2.
  revert Hr. induction Hsteps as [|a b c Hab _ IH]; [done|].
  intros Hr. apply IH. by eapply fd_step_ok.
Qed.

(** ** The properties *)

(** A list of operations on live pipes. *)
Definition ops_valid (l : list (Z * pop)) (s : pstate) : Prop :=
  Forall (fun x => pipe64_valid (fst x) s = true /\ forall n, snd x = PRead n -> 0 <= n) l.

Lemma only_pipe_valid p s s' r :
  only_pipe p s s' -> pipe64_valid p s' = true -> pipe64_valid r s = true ->
  pipe64_valid r s' = true.
Proof.
  intros (_ & _ & _ & Ho) Hp Hr. destruct (decide (r = p)) as [->|Hne]; [done|].
  pose proof (pipe64_valid_range r s Hr) as [Hrr _]. unfold pipe64_valid in *.
  by rewrite Ho by lia.
Qed.

Lemma ops_valid_step p l s s' :
  only_pipe p s s' -> pipe64_valid p s' = true -> ops_valid l s -> ops_valid l s'.
Proof.
  intros Ho Hp Hl. eapply Forall_impl; [exact Hl|]. intros x [Hv Hn]. split; [|done]. by eapply only_pipe_valid.
Qed.

(** One operation of the queue keeps the bytes in order. *)
Lemma fifo_op_bytes o a r out fds a' :
  fifo_op o a = (r, out, fds, a') ->
  a_bytes a ++ (match o with PWrite data => take (Z.to_nat r) data | _ => [] end)
    = out ++ a_bytes a'.
Proof.
  destruct o as [n|data|f|]; simpl.
  - unfold fifo_read. destruct (zlen (a_bytes a) =? 0); intros [= <- <- <- <-]; simpl;
      rewrite app_nil_r; [done|]. by rewrite take_drop.
  - unfold fifo_write. destruct (a_readers a =? 0); [|destruct (PIPE64_BUF - _ =? 0)];
      intros [= <- <- <- <-]; simpl; rewrite ?app_nil_r; done.
  - destruct (fifo_send _ _). intros [= <- <- <- <-]. by rewrite app_nil_r.
  - destruct (fifo_recv _) as [[? ?] ?]. intros [= <- <- <- <-]. by rewrite app_nil_r.
Qed.

(** C7: The pipes refine bounded queues: however reads, writes, and descriptors
    sent and received on the pipes interleave, every call answers what the
    abstract queues answer (short counts, end of file, EAGAIN and EPIPE
    included), and leaves in each pipe what its abstract queue holds. *)
Theorem pipe64_refines_queues l s A :
  table_ok s -> ops_valid l s ->
  (forall p, pipe64_valid p s = true -> A p = pipe_view (pipe s p)) ->
  exists t s' A', run_ops l s = Some (t, s') /\ queue_run l A = (t, A') /\
    forall p, pipe64_valid p s = true -> A' p = pipe_view (pipe s' p).
Proof.
  revert s A. induction l as [|[p o] l IH]; intros s A Ht Hl HA; [by exists [], s, A|].
  pose proof Hl as [[Hv Hn] Hl']%Forall_cons. cbn [fst snd] in Hv, Hn.
  destruct (pipe_op_spec p o s Ht Hv Hn) as (r & out & fds & s1 & Hop & Ht1 & Ho & Hv1 & Hf).
  cbn [run_ops queue_run]. rewrite Hop, (HA p Hv), Hf.
  destruct (IH s1 (fun q => if q =? p then pipe_view (pipe s1 p) else A q))
    as (t & s2 & A2 & -> & -> & HA2); [done|by eapply ops_valid_step|..].
  - intros q Hq. destruct (Z.eqb_spec q p) as [->|Hne]; [done|].
    pose proof (pipe64_valid_range q s1 Hq) as [Hqr _]. destruct Ho as (_ & _ & _ & Ho).
    rewrite Ho by lia. apply HA. unfold pipe64_valid in *. by rewrite <-Ho by lia.
  - eexists _, _, _. split; [done|]. split; [done|]. intros q Hq. apply HA2.
    by eapply only_pipe_valid.
Qed.

(** C32: No byte is lost, duplicated or reordered: over any interleaving of
    operations, what a pipe held and then accepted is exactly what it
    delivered followed by what it still holds, and it never holds more than
    its 64KB. *)
Theorem pipe64_stream_integrity l s t s' p :
  table_ok s -> ops_valid l s -> run_ops l s = Some (t, s') -> pipe64_valid p s = true ->
  contents (pipe s p) ++ accepted p t = delivered p t ++ contents (pipe s' p) /\
  zlen (contents (pipe s' p)) <= PIPE64_BUF.
Proof.
  intros Ht. revert s t Ht. induction l as [|[q o] l IH]; intros s t Ht Hl Hrun Hp.
  { injection Hrun as <- <-. simpl. rewrite app_nil_r. split; [done|].
    destruct (pipe64_valid_range p s Hp) as [Hpr Hu].
    destruct (table_pipe_ok s p Ht Hpr) as [_ Hro]. rewrite contents_len by auto. apply Hro, Hu. }
  pose proof Hl as [[Hv Hn] Hl']%Forall_cons. cbn [fst snd] in Hv, Hn.
  destruct (pipe_op_spec q o s Ht Hv Hn) as (r & out & fds & s1 & Hop & Ht1 & Ho & Hv1 & Hf).
  cbn [run_ops] in Hrun. rewrite Hop in Hrun.
  destruct (run_ops l s1) as [[t1 s2]|] eqn:Hrun1; [|done]. injection Hrun as <- <-.
  destruct (IH s1 t1 Ht1 (ops_valid_step _ _ _ _ Ho Hv1 Hl') Hrun1
    (only_pipe_valid _ _ _ _ Ho Hv1 Hp)) as [Heq Hb].
  split; [|done]. cbn [accepted delivered]. rewrite <-app_assoc, <-Heq.
  destruct (Z.eqb_spec q p) as [->|Hne].
  - pose proof (fifo_op_bytes _ _ _ _ _ _ Hf) as Hfb. cbn [pipe_view a_bytes] in Hfb.
    by rewrite !app_assoc, <-Hfb.
  - destruct (pipe64_valid_range p s Hp) as [Hpr _]. destruct Ho as (_ & _ & _ & Ho).
    rewrite Ho by lia. by destruct o.
Qed.

(** C33: Closing ends always returns, whatever chain of descriptors in flight it
    sets off, and loses no reference: in any state that the life of
    descriptors leads to, giving up an end in hand comes back within three
    nested calls for each batch in flight, and leaves the ends of every pipe
    exactly those that a descriptor in hand or in flight in an open pipe
    refers to.  So a pipe is closed when the last of these is gone: an open
    pipe without ends had none before (it was only just created), and one
    that is still referred to is open. *)
Theorem pipe64_unref_terminates s0 s X p rd wr fuel :
  table_sized s0 -> rtc fd_step (pipe64_init s0, []) (s, ends_of p rd wr :: X) ->
  2 + 3 * backlog s no_pipe <= Z.of_nat fuel ->
  exists s', pipe64_unref fuel p rd wr s = Some s' /\ table_ok s' /\
    (forall rx r, 0 <= r < PIPE64_MAX ->
       (if p_used (pipe s' r) then end_count rx (pipe s' r) else 0) = pending rx s' no_pipe r + named rx r X) /\
    (forall r, 0 <= r < PIPE64_MAX -> p_used (pipe s' r) = true -> p_readers (pipe s' r) = 0 -> p_writers (pipe s' r) = 0 ->
       p_used (pipe s r) = true /\ p_readers (pipe s r) = 0 /\ p_writers (pipe s r) = 0) /\
    (forall rx r, 0 <= r < PIPE64_MAX -> 0 < named rx r X -> pipe64_valid r s' = true) /\
    backlog s no_pipe <= 32768.
Proof.
  intros Hs0 Hsteps Hfuel. pose proof (fd_steps_ok _ _ Hs0 Hsteps) as Hr. cbn [fst snd] in Hr.
  pose proof (backlog_nonneg s no_pipe (proj1 Hr)).
  destruct (proj1 (closing_ends fuel) s no_pipe X p rd wr) as (s' & Heq & Hr' & _ & _ & Hi);
    [done|by left|lia|].
  assert (forall rx r, 0 <= r < PIPE64_MAX ->
    (if p_used (pipe s' r) then end_count rx (pipe s' r) else 0) = pending rx s' no_pipe r + named rx r X) as Hc.
  { intros rx r Hrr. rewrite (proj2 Hr' rx r Hrr). unfold room, open_in. cbn [no_pipe negb]. by rewrite andb_true_r. }
  exists s'. split; [exact Heq|]. split; [apply Hr'|]. split; [exact Hc|]. split; [|split; [|lia]].
  - intros r Hrr Hu H1 H2. by apply Hi; [lia|].
  - intros rx r Hrr Hn. specialize (Hc rx r Hrr). pose proof (pending_nonneg rx s' no_pipe r).
    unfold pipe64_valid. destruct (p_used (pipe s' r)); [|lia].
    rewrite !andb_true_iff, Z.leb_le, Z.ltb_lt. lia.
Qed.
End pipe64.

Arguments pstate : clear implicits.

Arguments mkP {H F}.

(** ** Witnesses: two pipes, the ends of the second sent over the first *)

#[local] Instance demo_heap : KernelHeap Z.
Proof.
  refine {| kmalloc64 := fun n h => (h, h + n); kfree64 := fun _ h => h;
            block_bytes := fun _ _ n => replicate (Z.to_nat n) 0 |}.
  intros _ _ n Hn. unfold zlen. rewrite length_replicate. lia.
Defined.

#[local] Instance demo_nodes : NodeRefs Z := {| ramfs64_unref_node := fun _ f => f - 1 |}.

Definition demo_slots : list batch64 := replicate 16 (mkBatch (replicate 8 (mkFd 0 0 0 0 0)) 0).
Definition demo_s0 : pstate Z Z :=
  mkP (replicate (Z.to_nat PIPE64_MAX) (pipe64_reset false 0 [] demo_slots)) 4096 0.

Definition demo_s1 : pstate Z Z := pipe64_ref 0 true true (snd (pipe64_create (pipe64_init demo_s0))).
Definition demo_s2 : pstate Z Z := pipe64_ref 1 true true (snd (pipe64_create demo_s1)).
Definition demo_s3 : pstate Z Z := snd (pipe64_send_fds 0 [ends_of 1 true true] 1 demo_s2).
Definition demo_ops : list (Z * pop) :=
  [(0, PWrite [1; 2; 3]); (1, PWrite [9]); (0, PRead 2); (0, PSend [ends_of 1 true true]);
   (0, PRead 5); (0, PRecv); (0, PRead 1)].

Lemma demo_sized : table_sized demo_s0.
Proof.
  split; [unfold zlen, demo_s0; cbn [pipes]; by rewrite length_replicate|].
  apply Forall_replicate. split; [done|]. by apply Forall_replicate.
Qed.

Lemma demo_steps2 :
  rtc fd_step (pipe64_init demo_s0, []) (demo_s2, [ends_of 1 true true; ends_of 0 true true]).
Proof.
  eapply rtc_l; [apply (fs_create _ _ 0 (snd (pipe64_create (pipe64_init demo_s0))))|].
  { apply pair_fst. by vm_compute. }
  eapply rtc_l; [apply (fs_ref _ _ 0 true true); by vm_compute|].
  eapply rtc_l; [apply (fs_create _ _ 1 (snd (pipe64_create demo_s1)))|].
  { apply pair_fst. by vm_compute. }
  eapply rtc_l; [apply (fs_ref _ _ 1 true true); by vm_compute|]. apply rtc_refl.
Qed.

Lemma demo_steps :
  rtc fd_step (pipe64_init demo_s0, []) (demo_s3, [ends_of 0 true true]).
Proof.
  eapply rtc_r; [apply demo_steps2|].
  apply (fs_send demo_s2 [ends_of 0 true true] 0 [ends_of 1 true true]).
  change (zlen _) with 1. apply pair_fst. by vm_compute.
Qed.

Lemma demo_table : table_ok demo_s2.
Proof. apply (fd_steps_ok _ _ demo_sized demo_steps2). Qed.

Lemma demo_ops_valid : ops_valid demo_ops demo_s2.
Proof.
  repeat (apply Forall_cons; split; [split; [by vm_compute|intros n [=]; lia]|]). by apply Forall_nil.
Qed.

Lemma pipe64_refines_queues_witness :
  table_ok demo_s2 /\ ops_valid demo_ops demo_s2 /\
  exists t s' A', run_ops demo_ops demo_s2 = Some (t, s') /\
    queue_run demo_ops (fun p => pipe_view (pipe demo_s2 p)) = (t, A') /\
    forall p, pipe64_valid p demo_s2 = true -> A' p = pipe_view (pipe s' p).
Proof.
  split; [exact demo_table|]. split; [exact demo_ops_valid|].
  apply (pipe64_refines_queues demo_ops demo_s2); [exact demo_table|exact demo_ops_valid|].
  intros p _. reflexivity.
Defined.

(** What the calls of [demo_ops] answer. *)
Example demo_answers :
  match run_ops demo_ops demo_s2 with
  | Some (t, _) => map snd t = [(3, [], []); (1, [], []); (2, [1; 2], []); (1, [], []); (1, [3], []);
                                (1, [], [ends_of 1 true true]); (-11, [], [])]
  | None => False
  end.
Proof. by vm_compute. Qed.

Lemma pipe64_stream_integrity_witness :
  match run_ops demo_ops demo_s2 with
  | Some (t, s') => contents (pipe demo_s2 0) ++ accepted 0 t = delivered 0 t ++ contents (pipe s' 0)
      /\ zlen (contents (pipe s' 0)) <= PIPE64_BUF
  | None => False
  end.
Proof.
  destruct (run_ops demo_ops demo_s2) as [[t s']|] eqn:Hrun.
  - apply (pipe64_stream_integrity demo_ops demo_s2 t s' 0);
      [exact demo_table|exact demo_ops_valid|exact Hrun|by vm_compute].
  - assert (match run_ops demo_ops demo_s2 with Some _ => true | None => false end = true) as H
      by (by vm_compute). rewrite Hrun in H. discriminate H.
Defined.

Lemma pipe64_unref_terminates_witness :
  rtc fd_step (pipe64_init demo_s0, []) (demo_s3, ends_of 0 true true :: []) /\
  exists s', pipe64_unref 5 0 true true demo_s3 = Some s' /\ table_ok s' /\
    forall rx r, 0 <= r < PIPE64_MAX ->
      (if p_used (pipe s' r) then end_count rx (pipe s' r) else 0) = pending rx s' no_pipe r + named rx r [].
Proof.
  split; [exact demo_steps|].
  destruct (pipe64_unref_terminates demo_s0 demo_s3 [] 0 true true 5) as (s' & H1 & H2 & H3 & _);
    [exact demo_sized|exact demo_steps|vm_compute; discriminate|].
  exists s'. exact (conj H1 (conj H2 H3)).
Defined.

(** Closing the first pipe closes the second, whose ends were in flight in it. *)
Example demo_chain :
  match pipe64_unref 10 0 true true demo_s3 with
  | Some s' => (pipe64_live demo_s3, pipe64_live s') = (2, 0)
  | None => False
  end.
Proof. by vm_compute. Qed.

(** A pipe whose own ends are in flight in it outlives every process: nothing
    in hand refers to it, and it is never freed. *)
Example demo_cycle :
  match pipe64_unref 10 0 true true (snd (pipe64_send_fds 0 [ends_of 0 true true] 1
          (pipe64_ref 0 true true demo_s1))) with
  | Some s' => (pipe64_live s', p_readers (pipe s' 0), p_writers (pipe s' 0)) = (1, 1, 1)
  | None => False
  end.
Proof. by vm_compute. Qed.
