(* ===== verification/Kstring.v ===== *)
(** * Strings, memory and numbers ([kernel/kstring.c])

    The primitives the rest of the kernel is written with.  A pointer that a
    function only reads through is the list of the bytes from it on, so that
    [*s] is the head ([deref]) and [s++] the tail; a byte past the end of the
    list reads as 0.  The functions that write take the whole memory (a list
    of bytes) and addresses in it.  Numbers keep their width: a quotient that
    does not fit makes the DIV instruction fault ([None]). *)

From S2P Require Import Prelude.

Definition deref (s : list Z) : Z := hd 0 s.

(** ** Memory *)

Definition copy_byte (dst src i : Z) (m : list Z) : list Z :=
  zset m (dst + i) (zget m (src + i)).

(** [rep movsq] then [rep movsb]. *)
Definition kmemcpy (dst src n : Z) (m : list Z) : list Z :=
  let words := n / 8 in
  let rest := n mod 8 in
  let m := for_up (Z.to_nat words) 0
             (fun w m => zsplice (dst + 8 * w) (zslice (src + 8 * w) 8 m) m) m in
  for_up (Z.to_nat rest) (8 * words) (copy_byte dst src) m.

Definition kmemmove (d s n : Z) (m : list Z) : list Z :=
  if (d =? s) || (n =? 0) then m
  else if d <? s then for_up (Z.to_nat n) 0 (copy_byte d s) m
  else for_up (Z.to_nat n) 0 (fun k m => copy_byte d s (n - k - 1) m) m.

(** The eight bytes of a word, lowest first. *)
Definition word_bytes (w : Z) : list Z := (fun k => u8 (Z.shiftr w (8 * k))) <$> seqZ 0 8.

Definition kmemset (dst value n : Z) (m : list Z) : list Z :=
  let pattern := u64 (value * ((2 ^ 64 - 1) / 255)) in
  let words := n / 8 in
  let rest := n mod 8 in
  let m := for_up (Z.to_nat words) 0
             (fun w m => zsplice (dst + 8 * w) (word_bytes pattern) m) m in
  for_up (Z.to_nat rest) (8 * words) (fun i m => zset m (dst + i) (u8 pattern)) m.

Fixpoint kmemcmp (a b : list Z) (n : nat) : Z :=
  match n with
  | O => 0
  | S n' => if negb (deref a =? deref b) then deref a - deref b else kmemcmp (tl a) (tl b) n'
  end.

Definition kmemchr (s : list Z) (c : Z) (n : nat) : option Z :=
  find_up n 0 (fun i => zget s i =? c).

(** ** Strings *)

Fixpoint kstrlen (s : list Z) : Z :=
  match s with [] => 0 | c :: s' => if nz c then 1 + kstrlen s' else 0 end.

Fixpoint kstrnlen (s : list Z) (max : nat) : Z :=
  match max with
  | O => 0
  | S max' => if nz (deref s) then 1 + kstrnlen (tl s) max' else 0
  end.

Fixpoint kstrcmp (a b : list Z) : Z :=
  match a with
  | [] => 0 - deref b
  | c :: a' => if nz c && (c =? deref b) then kstrcmp a' (tl b) else c - deref b
  end.

Fixpoint kstrncmp (a b : list Z) (n : nat) : Z :=
  match n with
  | O => 0
  | S n' =>
    if negb (deref a =? deref b) then deref a - deref b
    else if deref a =? 0 then 0 else kstrncmp (tl a) (tl b) n'
  end.

Fixpoint kstrncasecmp (a b : list Z) (n : nat) : Z :=
  match n with
  | O => 0
  | S n' =>
    let ca := deref a in
    let cb := deref b in
    let ca := if (65 <=? ca) && (ca <=? 90) then ca - 65 + 97 else ca in
    let cb := if (65 <=? cb) && (cb <=? 90) then cb - 65 + 97 else cb in
    if negb (ca =? cb) then ca - cb
    else if ca =? 0 then 0 else kstrncasecmp (tl a) (tl b) n'
  end.

Definition lower (c : Z) : Z := if (65 <=? c) && (c <=? 90) then c + 32 else c.

Fixpoint kstricmp (a b : list Z) : Z :=
  match a with
  | [] => lower 0 - lower (deref b)
  | c :: a' =>
    if nz c && (lower c =? lower (deref b)) then kstricmp a' (tl b)
    else lower c - lower (deref b)
  end.

(** The copy loop of [kstrcpy] and [kstrcat]; [None] would be a source without a NUL. *)
Fixpoint copy_string (fuel : nat) (out src : Z) (m : list Z) : option (list Z) :=
  match fuel with
  | O => None
  | S fuel' =>
    let c := zget m src in
    let m := zset m out c in
    if nz c then copy_string fuel' (out + 1) (src + 1) m else Some m
  end.

Definition kstrcpy (dst src : Z) (m : list Z) : option (list Z) :=
  copy_string (length m) dst src m.

(** The copy stops at [size - 1] bytes or at the NUL; [i] counts. *)
Fixpoint lcpy_loop (fuel : nat) (dst src size i : Z) (m : list Z) : Z * list Z :=
  match fuel with
  | O => (i, m)
  | S fuel' =>
    if (i + 1 <? size) && nz (zget m (src + i))
    then lcpy_loop fuel' dst src size (i + 1) (zset m (dst + i) (zget m (src + i)))
    else (i, m)
  end.

Definition kstrlcpy (dst src size : Z) (m : list Z) : list Z :=
  if size =? 0 then m else
  let '(i, m) := lcpy_loop (Z.to_nat size) dst src size 0 m in
  zset m (dst + i) 0.

Definition kstrcat (dst src : Z) (m : list Z) : option (list Z) :=
  copy_string (length m) (dst + kstrlen (drop (Z.to_nat dst) m)) src m.

(** The pointer into [s] as an index; [None] is NULL. *)
Fixpoint kstrchr_from (i : Z) (s : list Z) (c : Z) : option Z :=
  match s with
  | [] => if 0 =? c then Some i else None
  | x :: s' => if x =? c then Some i else if x =? 0 then None else kstrchr_from (i + 1) s' c
  end.
Definition kstrchr (s : list Z) (c : Z) : option Z := kstrchr_from 0 s c.

Fixpoint kstrrchr_from (i : Z) (found : option Z) (s : list Z) (c : Z) : option Z :=
  match s with
  | [] => if 0 =? c then Some i else found
  | x :: s' =>
    let found := if x =? c then Some i else found in
    if x =? 0 then found else kstrrchr_from (i + 1) found s' c
  end.
Definition kstrrchr (s : list Z) (c : Z) : option Z := kstrrchr_from 0 None s c.

(** The inner loop of [kstrstr]: true when the needle is used up. *)
Fixpoint strstr_here (h n : list Z) : bool :=
  match n with
  | [] => true
  | y :: n' =>
    if nz (deref h) && nz y && (deref h =? y) then strstr_here (tl h) n' else y =? 0
  end.

Fixpoint kstrstr_from (i : Z) (haystack needle : list Z) : option Z :=
  match haystack with
  | [] => None
  | x :: h' =>
    if nz x then
      if strstr_here haystack needle then Some i else kstrstr_from (i + 1) h' needle
    else None
  end.
Definition kstrstr (haystack needle : list Z) : option Z :=
  if deref needle =? 0 then Some 0 else kstrstr_from 0 haystack needle.

Definition kstr_ends_with_ci (s suffix : list Z) : bool :=
  let ls := u32 (kstrlen s) in
  let lx := u32 (kstrlen suffix) in
  if ls <? lx then false
  else kstricmp (drop (Z.to_nat (u32 (ls - lx))) s) suffix =? 0.

(** ** Numbers *)

(** The digits of [value], lowest first: [while (value > 0) tmp[i++] = ...]. *)
Fixpoint dec_digits (fuel : nat) (value : Z) : list Z :=
  match fuel with
  | O => []
  | S fuel' => if 0 <? value then (48 + value mod 10) :: dec_digits fuel' (value / 10) else []
  end.

(** The bytes written to [out], NUL included, and the length returned. *)
Definition ku32_to_dec (value : Z) : list Z * Z :=
  let tmp := (if value =? 0 then [48] else []) ++ dec_digits 11 value in
  (rev tmp ++ [0], zlen tmp).

Definition hex_digit (uppercase : bool) (d : Z) : Z :=
  if d <? 10 then 48 + d else (if uppercase then 65 else 97) + (d - 10).

Fixpoint hex_digits (fuel : nat) (uppercase : bool) (value : Z) : list Z :=
  match fuel with
  | O => []
  | S fuel' =>
    if 0 <? value
    then hex_digit uppercase (Z.land value 15) :: hex_digits fuel' uppercase (Z.shiftr value 4)
    else []
  end.

Definition ku32_to_hex (value : Z) (uppercase : bool) (width : Z) : list Z * Z :=
  let tmp := (if value =? 0 then [48] else []) ++ hex_digits 9 uppercase value in
  let i := zlen tmp in
  let pad := if i <? width then width - i else 0 in
  let out := replicate (Z.to_nat pad) 48 ++ rev tmp in
  (out ++ [0], zlen out).

(** DIV: the quotient and the remainder, or #DE. *)
Definition kdiv_hi_lo (hi lo divisor : Z) : option (Z * Z) :=
  let dividend := hi * 2 ^ 32 + lo in
  if (divisor =? 0) || (2 ^ 32 <=? dividend / divisor) then None
  else Some (dividend / divisor, dividend mod divisor).

Definition kdiv64 (value divisor : Z) : option (Z * Z) :=
  let hi := u32 (Z.shiftr value 32) in
  let lo := u32 value in
  match kdiv_hi_lo 0 hi divisor with
  | None => None
  | Some (q_hi, rem) =>
      match kdiv_hi_lo rem lo divisor with
      | None => None
      | Some (q_lo, rem) => Some (Z.lor (Z.shiftl q_hi 32) q_lo, rem)
      end
  end.

Fixpoint skip_blanks (s : list Z) : list Z :=
  match s with c :: s' => if (c =? 32) || (c =? 9) then skip_blanks s' else s | [] => [] end.

Fixpoint int_digits (v : Z) (s : list Z) : Z :=
  match s with
  | c :: s' => if (48 <=? c) && (c <=? 57) then int_digits (i32 (v * 10 + (c - 48))) s' else v
  | [] => v
  end.

Definition kstr_to_int (s : list Z) : Z :=
  let s := skip_blanks s in
  let '(neg, s) := if deref s =? 45 then (true, tl s)
                   else if deref s =? 43 then (false, tl s) else (false, s) in
  let v := int_digits 0 s in
  if neg then i32 (- v) else v.

(** ** What the functions promise *)

(** [l] is the C string at the pointer [s]: its bytes, then a NUL. *)
Definition c_string (s l : list Z) : Prop :=
  exists rest, s = l ++ 0 :: rest /\ Forall (fun c => 1 <= c < 256) l.

(** The first position of [needle] in [hay]: the reference [kstrstr] is
    measured against. *)
Definition occurs_at (needle hay : list Z) (i : Z) : Prop :=
  0 <= i /\ exists before after, hay = before ++ needle ++ after /\ zlen before = i.

(** [n] is written in decimal by [l], most significant digit first. *)
Definition dec_value (l : list Z) : Z := fold_left (fun v c => v * 10 + (c - 48)) l 0.

(** [t] is [m] with [f] stored at the addresses from [a] up to [b]. *)
Definition stored (f : Z -> Z) (a b : Z) (m t : list Z) : Prop :=
  zlen t = zlen m /\
  forall j, 0 <= j < zlen m -> zget t j = if (a <=? j) && (j <? b) then f j else zget m j.

(** ** Memory: every copy is a splice *)

Lemma stored_none f a m : stored f a a m m.
Proof.
  split; [done|]. intros j Hj.
  destruct (Z.leb_spec a j), (Z.ltb_spec j a); simpl; (done || lia).
Qed.

Lemma stored_splice a d m : 
  0 <= a -> a + zlen d <= zlen m -> stored (fun j => zget d (j - a)) a (a + zlen d) m (zsplice a d m).
Proof.
  intros Ha Hd. split; [by apply zlen_zsplice|]. intros j Hj. apply zget_zsplice; lia.
Qed.

Lemma stored_eq f a d m t :
  0 <= a -> a + zlen d <= zlen m -> stored f a (a + zlen d) m t ->
  (forall i, 0 <= i < zlen d -> f (a + i) = zget d i) -> t = zsplice a d m.
Proof.
  intros Ha Hd [Hl Hg] Hf. apply zlist_eq; [by rewrite zlen_zsplice|].
  intros i Hi. rewrite Hg, zget_zsplice by lia.
  destruct (Z.leb_spec a i), (Z.ltb_spec i (a + zlen d)); simpl; try done.
  rewrite <-Hf by lia. f_equal. lia.
Qed.

(** Two stores side by side. *)
Lemma stored_app f a b c m t u :
  a <= b <= c -> stored f a b m t -> stored f b c t u -> stored f a c m u.
Proof.
  intros Habc [Hl Hg] [Hl' Hg']. split; [congruence|]. intros j Hj.
  rewrite Hg' by lia. rewrite Hg by lia.
  destruct (Z.leb_spec a j), (Z.leb_spec b j), (Z.ltb_spec j b), (Z.ltb_spec j c);
    simpl; (done || lia).
Qed.

Lemma stored_app_down f a b c m t u :
  a <= b <= c -> stored f b c m t -> stored f a b t u -> stored f a c m u.
Proof.
  intros Habc [Hl Hg] [Hl' Hg']. split; [congruence|]. intros j Hj.
  rewrite Hg' by lia. rewrite Hg by lia.
  destruct (Z.leb_spec a j), (Z.leb_spec b j), (Z.ltb_spec j b), (Z.ltb_spec j c);
    simpl; (done || lia).
Qed.

Lemma stored_ext f g a b m t :
  (forall j, a <= j < b -> f j = g j) -> stored f a b m t -> stored g a b m t.
Proof.
  intros He [Hl Hg]. split; [done|]. intros j Hj. rewrite Hg by done.
  destruct (Z.leb_spec a j), (Z.ltb_spec j b); simpl; [apply He; lia|done..].
Qed.

Lemma stored_one i v m : 0 <= i < zlen m -> stored (fun _ => v) i (i + 1) m (zset m i v).
Proof.
  intros Hi. split; [apply zlen_zset|]. intros j Hj. rewrite zget_zset by lia.
  destruct (Z.eqb_spec i j), (Z.leb_spec i j), (Z.ltb_spec j (i + 1)); simpl; (done || lia).
Qed.

(** A loop that stores [f] block by block, upwards. *)
Lemma stored_loop f body a w n i m :
  0 <= w ->
  (forall k t, i <= k < i + Z.of_nat n -> stored f (a + w * i) (a + w * k) m t ->
     stored f (a + w * k) (a + w * (k + 1)) t (body k t)) ->
  stored f (a + w * i) (a + w * (i + Z.of_nat n)) m (for_up n i body m).
Proof.
  intros Hw Hbody.
  apply (for_up_ind (fun k t => stored f (a + w * i) (a + w * k) m t)); [apply stored_none|].
  intros k t Hk Ht. eapply stored_app; [|exact Ht|by apply Hbody]. nia.
Qed.

(** The source byte for the address [j] of a copy. *)
Definition from_src (d s : Z) (m : list Z) (j : Z) : Z := zget m (s + (j - d)).

(** A byte that no store has reached yet is the original one. *)
Lemma stored_unread f a b m t j :
  stored f a b m t -> 0 <= j < zlen m -> j < a \/ b <= j -> zget t j = zget m j.
Proof.
  intros [_ Hg] Hj Hout. rewrite Hg by done.
  destruct (Z.leb_spec a j), (Z.ltb_spec j b); simpl; (done || lia).
Qed.

Lemma copy_up_stored d s n i m :
  0 <= d -> 0 <= s -> 0 <= i -> d + i + Z.of_nat n <= zlen m -> s + i + Z.of_nat n <= zlen m ->
  d <= s \/ s + i + Z.of_nat n <= d + i ->
  stored (from_src d s m) (d + i) (d + (i + Z.of_nat n)) m (for_up n i (copy_byte d s) m).
Proof.
  intros Hd Hs Hi Hdn Hsn Hov.
  pose proof (stored_loop (from_src d s m) (copy_byte d s) d 1 n i m) as H.
  rewrite !Z.mul_1_l in H. apply H; [lia|]. clear H. intros k t Hk Ht. rewrite !Z.mul_1_l in *.
  replace (d + (k + 1)) with (d + k + 1) by lia. pose proof (proj1 Ht) as Hl.
  eapply stored_ext; [|apply stored_one; lia].
  intros j Hj. cbv beta. rewrite (stored_unread _ _ _ _ _ _ Ht) by lia. unfold from_src. f_equal. lia.
Qed.

Lemma copy_down_stored d s n m :
  0 <= d -> 0 <= s -> d + Z.of_nat n <= zlen m -> s + Z.of_nat n <= zlen m -> s <= d ->
  stored (from_src d s m) d (d + Z.of_nat n) m
    (for_up n 0 (fun k m => copy_byte d s (Z.of_nat n - k - 1) m) m).
Proof.
  intros Hd Hs Hdn Hsn Hov.
  pose proof (for_up_ind (fun k t => stored (from_src d s m) (d + (Z.of_nat n - k)) (d + Z.of_nat n) m t)
    (fun k m => copy_byte d s (Z.of_nat n - k - 1) m) n 0 m) as H.
  cbv beta in H. rewrite Z.add_0_l, Z.sub_diag, Z.add_0_r in H. apply H.
  - rewrite Z.sub_0_r. apply stored_none.
  - intros k t Hk Ht. eapply stored_app_down; [|exact Ht|]; [lia|]. pose proof (proj1 Ht) as Hl.
    replace (d + (Z.of_nat n - k)) with (d + (Z.of_nat n - (k + 1)) + 1) by lia. unfold copy_byte.
    replace (Z.of_nat n - (k + 1)) with (Z.of_nat n - k - 1) by lia.
    eapply stored_ext; [|apply stored_one; lia].
    intros j Hj. cbv beta. rewrite (stored_unread _ _ _ _ _ _ Ht) by lia. unfold from_src. f_equal. lia.
Qed.

Lemma copied_splice d s n m t :
  0 <= d -> 0 <= s -> 0 <= n -> d + n <= zlen m -> s + n <= zlen m ->
  stored (from_src d s m) d (d + n) m t -> t = zsplice d (zslice s n m) m.
Proof.
  intros Hd Hs Hn Hdn Hsn Ht. pose proof (zlen_zslice s n m Hs Hn Hsn) as Hl.
  eapply stored_eq; [lia|lia|by rewrite Hl|].
  intros i Hi. rewrite zget_zslice by lia. unfold from_src. f_equal. lia.
Qed.

Lemma div8 n : 0 <= n -> n = 8 * (n / 8) + n mod 8 /\ 0 <= n / 8 /\ 0 <= n mod 8 < 8.
Proof. intros. pose proof (Z.div_mod n 8). pose proof (Z.mod_pos_bound n 8). lia. Qed.

Lemma repeated_byte v a b c p :
  0 <= v < 256 -> p = a * (256 * c) + c + b -> 0 <= b -> 255 * b < c -> (v * p / c) mod 256 = v.
Proof.
  intros Hv -> Hb Hc.
  rewrite <-(Z.div_unique (v * (a * (256 * c) + c + b)) c (v + v * a * 256) (v * b)) by nia.
  rewrite Z.mod_add by lia. by apply Z.mod_small.
Qed.

Lemma word_bytes_pattern v i :
  is_byte v -> 0 <= i < 8 -> zget (word_bytes (u64 (v * ((2 ^ 64 - 1) / 255)))) i = v.
Proof.
  intros Hv Hi. unfold is_byte in Hv.
  assert (u64 (v * ((2 ^ 64 - 1) / 255)) = v * 72340172838076673) as ->.
  { rewrite u64_small; [done|]. change ((2 ^ 64 - 1) / 255) with 72340172838076673. lia. }
  unfold word_bytes. rewrite (zget_lookup _ i (u8 (Z.shiftr (v * 72340172838076673) (8 * i)))).
  - assert (i = 0 \/ i = 1 \/ i = 2 \/ i = 3 \/ i = 4 \/ i = 5 \/ i = 6 \/ i = 7) as Hcases by lia.
    rewrite Z.shiftr_div_pow2 by lia. unfold u8. change (2 ^ 8) with 256.
    destruct Hcases as [->|[->|[->|[->|[->|[->|[->| ->]]]]]]];
      match goal with |- (_ / ?c) mod _ = _ =>
        apply (repeated_byte v (72340172838076673 / (256 * c)) (72340172838076673 mod c));
          [exact Hv|by vm_compute..] end.
  - lia.
  - rewrite list_lookup_fmap, lookup_seqZ_lt by lia. simpl. do 3 f_equal. lia.
Qed.

Lemma word_bytes_len w : zlen (word_bytes w) = 8.
Proof. done. Qed.

Lemma kmemset_stored dst v n m :
  is_byte v -> 0 <= dst -> 0 <= n -> dst + n <= zlen m ->
  stored (fun _ => v) dst (dst + n) m (kmemset dst v n m).
Proof.
  intros Hv Hd Hn Hb. unfold kmemset. set (p := u64 _).
  pose proof (div8 n Hn) as (Hn8 & Hw & Hr).
  set (m1 := for_up (Z.to_nat (n / 8)) 0 _ m).
  assert (stored (fun _ => v) dst (dst + 8 * (n / 8)) m m1) as H1.
  { pose proof (stored_loop (fun _ => v) (fun w m => zsplice (dst + 8 * w) (word_bytes p) m)
      dst 8 (Z.to_nat (n / 8)) 0 m) as H. rewrite Z2Nat.id, Z.mul_0_r, Z.add_0_l, Z.add_0_r in H by lia.
    apply H; [lia|]. intros k t Hk Ht. pose proof (proj1 Ht) as Hl.
    eapply stored_ext; [|replace (dst + 8 * (k + 1)) with (dst + 8 * k + zlen (word_bytes p))
      by (rewrite word_bytes_len; lia); apply stored_splice; rewrite ?word_bytes_len; lia].
    intros j Hj. cbv beta. apply word_bytes_pattern; [done|lia]. }
  eapply stored_app; [|exact H1|]; [lia|]. pose proof (proj1 H1) as Hl.
  pose proof (stored_loop (fun _ => v) (fun i m => zset m (dst + i) (u8 p))
      dst 1 (Z.to_nat (n mod 8)) (8 * (n / 8)) m1) as H.
  rewrite Z2Nat.id, !Z.mul_1_l in H by lia. rewrite Hn8 at 2. apply H; [lia|].
  intros k t Hk Ht. rewrite !Z.mul_1_l, Z.add_assoc. pose proof (proj1 Ht) as Hl'.
  replace (u8 p) with v; [apply stored_one; lia|].
  rewrite <-(word_bytes_pattern v 0) at 1 by (done || lia). fold p.
  rewrite (zget_lookup _ 0 (u8 (Z.shiftr p 0))) by done. by rewrite Z.shiftr_0_r.
Qed.

Lemma kmemcpy_stored d s n m :
  0 <= d -> 0 <= s -> 0 <= n -> d + n <= zlen m -> s + n <= zlen m -> d <= s \/ s + n <= d ->
  stored (from_src d s m) d (d + n) m (kmemcpy d s n m).
Proof.
  intros Hd Hs Hn Hdn Hsn Hov. unfold kmemcpy.
  pose proof (div8 n Hn) as (Hn8 & Hw & Hr).
  set (m1 := for_up (Z.to_nat (n / 8)) 0 _ m).
  assert (stored (from_src d s m) d (d + 8 * (n / 8)) m m1) as H1.
  { pose proof (stored_loop (from_src d s m) (fun w m => zsplice (d + 8 * w) (zslice (s + 8 * w) 8 m) m)
      d 8 (Z.to_nat (n / 8)) 0 m) as H. rewrite Z2Nat.id, Z.mul_0_r, Z.add_0_l, Z.add_0_r in H by lia.
    apply H; [lia|]. intros k t Hk Ht. pose proof (proj1 Ht) as Hl.
    assert (zlen (zslice (s + 8 * k) 8 t) = 8) as H8 by (apply zlen_zslice; lia).
    eapply stored_ext; [|replace (d + 8 * (k + 1)) with (d + 8 * k + zlen (zslice (s + 8 * k) 8 t))
      by lia; apply stored_splice; lia].
    intros j Hj. cbv beta. rewrite zget_zslice by lia.
    rewrite (stored_unread _ _ _ _ _ _ Ht) by lia. unfold from_src. f_equal. lia. }
  eapply stored_app; [|exact H1|]; [lia|]. pose proof (proj1 H1) as Hl.
  pose proof (stored_loop (from_src d s m) (copy_byte d s) d 1 (Z.to_nat (n mod 8)) (8 * (n / 8)) m1) as H.
  rewrite Z2Nat.id, !Z.mul_1_l in H by lia. rewrite Hn8 at 2. apply H; [lia|]. clear H.
  intros k t Hk Ht. rewrite !Z.mul_1_l, Z.add_assoc in *. pose proof (proj1 Ht) as Hl'.
  eapply stored_ext; [|apply stored_one; lia]. intros j Hj. cbv beta.
  rewrite (stored_unread _ _ _ _ _ _ Ht) by lia. rewrite (stored_unread _ _ _ _ _ _ H1) by lia.
  unfold from_src. f_equal. lia.
Qed.

(** ** Strings *)

Lemma c_string_nil s : c_string s [] -> deref s = 0.
Proof. intros (rest & -> & _). done. Qed.

Lemma c_string_cons s x l : c_string s (x :: l) -> exists s', s = x :: s' /\ 1 <= x < 256 /\ c_string s' l.
Proof. intros (rest & -> & [Hx Hl]%Forall_cons). exists (l ++ 0 :: rest). split; [done|]. split; [done|]. by exists rest. Qed.

Lemma kstrlen_spec s l : c_string s l -> kstrlen s = zlen l.
Proof.
  revert s. induction l as [|x l IH]; intros s Hs.
  - destruct Hs as (rest & -> & _). done.
  - apply c_string_cons in Hs as (s' & -> & Hx & Hs). cbn [kstrlen].
    rewrite (proj2 (nz_true x)), (IH s') by (done || lia). unfold zlen. simpl. lia.
Qed.

(** Zero means equal. *)
Lemma kstrcmp_eq a b la lb : c_string a la -> c_string b lb -> kstrcmp a b = 0 <-> la = lb.
Proof.
  revert b la lb. induction a as [|x a IH]; intros b la lb Ha Hb; [by destruct Ha as ([|] & Ha & _); destruct la|].
  destruct la as [|y la], lb as [|z lb].
  - rewrite (c_string_nil _ Ha : x = 0). simpl. by rewrite (c_string_nil _ Hb).
  - rewrite (c_string_nil _ Ha : x = 0). apply c_string_cons in Hb as (s & -> & Hz & _). simpl. split; [lia|done].
  - apply c_string_cons in Ha as (s & [= -> ->] & Hy & _). simpl. rewrite (c_string_nil _ Hb).
    unfold nz. rewrite (proj2 (Z.eqb_neq y 0)) by lia. simpl. split; [lia|done].
  - apply c_string_cons in Ha as (s & [= -> ->] & Hy & Ha). apply c_string_cons in Hb as (s' & -> & Hz & Hb).
    simpl. unfold nz. rewrite (proj2 (Z.eqb_neq y 0)) by lia. cbn [negb andb].
    destruct (Z.eqb_spec y z) as [->|Hne].
    + rewrite (IH _ _ _ Ha Hb). split; congruence.
    + split; [lia|intros [= ->]; done].
Qed.

Lemma strstr_here_spec h n lh ln :
  c_string h lh -> c_string n ln -> strstr_here h n = true <-> ln `prefix_of` lh.
Proof.
  revert h n lh. induction ln as [|y ln IH]; intros h n lh Hh Hn.
  - destruct Hn as (rest & -> & _). simpl. rewrite !andb_false_r. split; [|done].
    intros _. apply prefix_nil.
  - apply c_string_cons in Hn as (n' & -> & Hy & Hn). cbn [strstr_here].
    rewrite (proj2 (nz_true y)) by lia. destruct lh as [|x lh].
    + rewrite (c_string_nil _ Hh). cbn [nz negb Z.eqb andb].
      destruct (Z.eqb_spec y 0); [lia|]. split; [done|]. by intros ?%prefix_nil_inv.
    + apply c_string_cons in Hh as (h' & -> & Hx & Hh). cbn [deref hd tl].
      rewrite (proj2 (nz_true x)) by lia. cbn [andb]. destruct (Z.eqb_spec x y) as [->|Hne].
      * rewrite (IH h' n' lh Hh Hn). split; [apply prefix_cons|apply prefix_cons_inv_2].
      * destruct (Z.eqb_spec y 0); [lia|]. split; [done|].
        intros Hp. by apply prefix_cons_inv_1 in Hp.
Qed.

Lemma occurs_at_0 ln lh : occurs_at ln lh 0 <-> ln `prefix_of` lh.
Proof.
  split.
  - intros (_ & before & after & -> & Hl). destruct before; [|unfold zlen in Hl; simpl in Hl; lia].
    by exists after.
  - intros [after ->]. split; [lia|]. by exists [], after.
Qed.

Lemma occurs_at_cons ln x lh i : 0 <= i -> occurs_at ln (x :: lh) (i + 1) <-> occurs_at ln lh i.
Proof.
  intros Hi. split.
  - intros (_ & before & after & Heq & Hl). destruct before as [|y before];
      [unfold zlen in Hl; simpl in Hl; lia|]. injection Heq as -> ->. split; [done|].
    exists before, after. split; [done|]. unfold zlen in *. simpl in Hl. lia.
  - intros (_ & before & after & -> & Hl). split; [lia|]. exists (x :: before), after.
    split; [done|]. unfold zlen in *. simpl. lia.
Qed.

Lemma kstrstr_from_spec k h n lh ln :
  c_string h lh -> c_string n ln -> ln <> [] ->
  match kstrstr_from k h n with
  | Some i => occurs_at ln lh (i - k) /\ forall j, occurs_at ln lh j -> i - k <= j
  | None => forall j, ~ occurs_at ln lh j
  end.
Proof.
  intros Hh Hn Hne. revert k h Hh. induction lh as [|x lh IH]; intros k h Hh.
  - destruct Hh as (rest & -> & _). simpl. intros j (_ & b & a & Heq & _).
    symmetry in Heq. apply app_nil in Heq as [_ [-> _]%app_nil]. done.
  - pose proof (strstr_here_spec h n (x :: lh) ln Hh Hn) as Hhere.
    pose proof (c_string_cons _ _ _ Hh) as (h' & -> & Hx & Hh'). cbn [kstrstr_from].
    rewrite (proj2 (nz_true x)) by lia. destruct (strstr_here (x :: h') n) eqn:Hs.
    + rewrite Z.sub_diag, occurs_at_0. split; [by apply Hhere|]. by intros j [Hj _].
    + assert (~ occurs_at ln (x :: lh) 0) as H0.
      { rewrite occurs_at_0, <-Hhere. done. }
      specialize (IH (k + 1) h' Hh').
      assert (forall j, occurs_at ln (x :: lh) j -> occurs_at ln lh (j - 1)) as Hj.
      { intros j Hj. pose proof (proj1 Hj). destruct (decide (j = 0)) as [->|]; [done|].
        apply (occurs_at_cons ln x); [lia|]. by rewrite Z.sub_add. }
      destruct (kstrstr_from (k + 1) h' n) as [i|].
      * destruct IH as [Hi Hmin]. pose proof (proj1 Hi). split.
        -- replace (i - k) with (i - (k + 1) + 1) by lia. by apply occurs_at_cons.
        -- intros j Hoj. specialize (Hmin _ (Hj j Hoj)). lia.
      * intros j Hoj. by apply (IH (j - 1)), Hj.
Qed.

(** ** Bounded copy *)

Lemma lcpy_loop_spec fuel dst src size i m l :
  0 <= i <= size - 1 -> size - 1 - i <= Z.of_nat fuel -> i <= zlen l -> 0 <= dst -> 0 <= src ->
  c_string (drop (Z.to_nat src) m) l -> dst + size <= zlen m ->
  dst + size <= src \/ src + zlen l + 1 <= dst ->
  forall t, stored (from_src dst src m) dst (dst + i) m t ->
  exists t', lcpy_loop fuel dst src size i t = (Z.min (zlen l) (size - 1), t') /\
    stored (from_src dst src m) dst (dst + Z.min (zlen l) (size - 1)) m t'.
Proof.
  intros Hi Hf Hil Hd Hs Hc Hb Hov.
  assert (forall j, 0 <= j <= zlen l -> src + j < zlen m /\
    nz (zget m (src + j)) = (j <? zlen l)) as Hsrc.
  { destruct Hc as (rest & Heq & Hl). intros j Hj.
    assert (drop (Z.to_nat src) m !! Z.to_nat j = if decide (j = zlen l) then Some 0 else l !! Z.to_nat j) as Hlk.
    { rewrite Heq. unfold zlen in *. case_decide as Hjl.
      - rewrite lookup_app_r by lia. by replace (Z.to_nat j - length l)%nat with 0%nat by lia.
      - by rewrite lookup_app_l by lia. }
    rewrite lookup_drop in Hlk. replace (Z.to_nat src + Z.to_nat j)%nat with (Z.to_nat (src + j)) in Hlk by lia.
    destruct (Z.ltb_spec j (zlen l)) as [Hlt|Hge]; case_decide; try lia.
    - destruct (lookup_lt_is_Some_2 l (Z.to_nat j)) as [x Hx]; [unfold zlen in *; lia|].
      rewrite Hx in Hlk. rewrite (zget_lookup _ _ x) by (lia || done).
      apply lookup_lt_Some in Hlk. rewrite Forall_forall in Hl.
      specialize (Hl x (list_elem_of_lookup_2 _ _ _ Hx)). rewrite nz_true. unfold zlen. lia.
    - rewrite (zget_lookup _ _ 0) by (lia || done). apply lookup_lt_Some in Hlk. unfold zlen. split; [lia|done]. }
  clear Hc. revert i Hi Hf Hil. induction fuel as [|fuel IH]; intros i Hi Hf Hil t Ht; cbn [lcpy_loop].
  { replace (Z.min _ _) with i by lia. by exists t. }
  pose proof (Hsrc i ltac:(lia)) as [Hin Hnz].
  rewrite (stored_unread _ _ _ _ _ _ Ht) by lia. rewrite Hnz.
  destruct (Z.ltb_spec (i + 1) size); [destruct (Z.ltb_spec i (zlen l))|]; simpl.
  - destruct (IH (i + 1) ltac:(lia) ltac:(lia) ltac:(lia) (zset t (dst + i) (zget m (src + i))))
      as (t' & -> & Ht'); [|by exists t'].
    eapply stored_app; [|exact Ht|]; [lia|]. rewrite Z.add_assoc. pose proof (proj1 Ht).
    eapply stored_ext; [|apply stored_one; lia].
    intros j Hj. unfold from_src. f_equal. lia.
  - replace (Z.min _ _) with i by lia. by exists t.
  - replace (Z.min _ _) with i by lia. by exists t.
Qed.

Lemma kstrlcpy_spec dst src size m l :
  0 < size -> 0 <= dst -> 0 <= src -> c_string (drop (Z.to_nat src) m) l -> dst + size <= zlen m ->
  dst + size <= src \/ src + zlen l + 1 <= dst ->
  kstrlcpy dst src size m = zsplice dst (take (Z.to_nat (size - 1)) l ++ [0]) m.
Proof.
  intros Hsz Hd Hs Hc Hb Hov. unfold kstrlcpy. destruct (Z.eqb_spec size 0); [lia|].
  assert (0 <= zlen l) as Hl0 by (unfold zlen; lia).
  destruct (lcpy_loop_spec (Z.to_nat size) dst src size 0 m l) with (t := m) as (t & -> & Ht); try done; try lia.
  { rewrite Z.add_0_r. apply stored_none. }
  set (k := Z.min (zlen l) (size - 1)) in *.
  assert (zlen (take (Z.to_nat (size - 1)) l) = k) as Htk.
  { unfold k, zlen in *. rewrite length_take. lia. }
  assert (zlen (take (Z.to_nat (size - 1)) l ++ [0]) = k + 1) as Hlen.
  { unfold zlen in *. rewrite length_app. simpl. lia. }
  pose proof (proj1 Ht) as Hlt.
  eapply (stored_eq (fun j => if j <? dst + k then from_src dst src m j else 0)); [lia|lia|..].
  - rewrite Hlen. eapply (stored_app _ dst (dst + k)); [lia|..].
    + eapply stored_ext; [|exact Ht]. intros j Hj. cbv beta. by rewrite (proj2 (Z.ltb_lt _ _)) by lia.
    + rewrite Z.add_assoc. eapply stored_ext; [|apply stored_one; lia].
      intros j Hj. cbv beta. by rewrite (proj2 (Z.ltb_ge _ _)) by lia.
  - intros i Hi. rewrite Hlen in Hi. destruct (Z.ltb_spec (dst + i) (dst + k)).
    + unfold from_src, zget. rewrite !list_lookup_total_alt.
      rewrite lookup_app_l by (unfold zlen in *; lia). rewrite lookup_take_lt by lia.
      destruct Hc as (rest & Heq & _).
      replace (Z.to_nat (src + (dst + i - dst))) with (Z.to_nat src + Z.to_nat i)%nat by lia.
      rewrite <-lookup_drop, Heq. by rewrite lookup_app_l by (unfold zlen in *; lia).
    + assert (i = k) as -> by lia. unfold zget. rewrite list_lookup_total_alt.
      rewrite lookup_app_r by (unfold zlen in *; lia).
      by replace (Z.to_nat k - length _)%nat with 0%nat by (unfold zlen in *; lia).
Qed.

(** ** Numbers *)

Definition is_digit (c : Z) : Prop := 48 <= c <= 57.

Lemma int_digits_app v l s :
  Forall is_digit l -> int_digits v (l ++ s) = int_digits (int_digits v l) s.
Proof.
  revert v. induction l as [|c l IH]; intros v Hl; [done|].
  apply Forall_cons in Hl as [Hc Hl]. unfold is_digit in Hc. cbn [int_digits app].
  replace ((48 <=? c) && (c <=? 57)) with true; [by apply IH|].
  symmetry. apply andb_true_iff. rewrite !Z.leb_le. lia.
Qed.

Lemma dec_digits_spec fuel v :
  0 <= v < 10 ^ Z.of_nat fuel ->
  Forall is_digit (dec_digits fuel v) /\ dec_value (rev (dec_digits fuel v)) = v /\
  (v < 2 ^ 31 -> int_digits 0 (rev (dec_digits fuel v)) = v) /\
  (length (dec_digits fuel v) <= fuel)%nat /\
  (0 < v -> exists d l, rev (dec_digits fuel v) = d :: l /\ 49 <= d <= 57).
Proof.
  revert v. induction fuel as [|fuel IH]; intros v Hv; cbn [dec_digits].
  { simpl in Hv. assert (v = 0) as -> by lia. repeat split; try done; lia. }
  destruct (Z.ltb_spec 0 v) as [Hpos|Hneg].
  2: { assert (v = 0) as -> by lia. split_and!; try done; simpl; lia. }
  pose proof (Z.mod_pos_bound v 10 ltac:(lia)) as Hm. pose proof (Z.div_mod v 10 ltac:(lia)) as Hdm.
  rewrite Nat2Z.inj_succ, Z.pow_succ_r in Hv by lia.
  destruct (IH (v / 10)) as (Hd & Hval & Hint & Hlen & Hlead).
  { split; [apply Z.div_pos; lia|apply Z.div_lt_upper_bound; lia]. }
  assert (Forall is_digit (rev (dec_digits fuel (v / 10)))) as Hdr by by apply Forall_rev.
  simpl. split_and!.
  - apply Forall_cons. split; [unfold is_digit; lia|done].
  - unfold dec_value in *. rewrite fold_left_app, Hval. cbn [fold_left]. lia.
  - intros Hb. rewrite int_digits_app, Hint by (done || nia). cbn [int_digits].
    replace ((48 <=? 48 + v mod 10) && (48 + v mod 10 <=? 57)) with true.
    2: { symmetry. apply andb_true_iff. rewrite !Z.leb_le. lia. }
    replace (v / 10 * 10 + (48 + v mod 10 - 48)) with v by lia.
    unfold i32. rewrite u32_small by lia. by rewrite (proj2 (Z.ltb_lt v (2 ^ 31)) Hb).
  - lia.
  - intros _. destruct (decide (v / 10 = 0)) as [H0|H0].
    + rewrite H0. exists (48 + v mod 10), []. split; [by destruct fuel|]. lia.
    + destruct Hlead as (d & l & -> & Hdl); [pose proof (Z.div_pos v 10); lia|].
      exists d, (l ++ [48 + v mod 10]). done.
Qed.

Lemma int_digits_end v : int_digits v [0] = v.
Proof. done. Qed.

(** A string that starts with a digit has nothing to skip. *)
Lemma kstr_to_int_digits d l :
  48 <= d <= 57 -> kstr_to_int (d :: l) = int_digits 0 (d :: l).
Proof.
  intros Hd. unfold kstr_to_int. cbn [skip_blanks].
  destruct (Z.eqb_spec d 32), (Z.eqb_spec d 9); [lia..|]. cbn [orb deref hd].
  destruct (Z.eqb_spec d 45); [lia|]. destruct (Z.eqb_spec d 43); [lia|]. done.
Qed.

Lemma kstr_to_int_minus d l :
  48 <= d <= 57 -> kstr_to_int (45 :: d :: l) = i32 (- int_digits 0 (d :: l)).
Proof. done. Qed.

(** ** The properties *)

(** C40: The memory primitives store exactly the [n] bytes asked for:
    [kmemmove] copies correctly however the two ranges overlap, [kmemcpy],
    word by word, when it is a move down or the ranges are disjoint, and
    [kmemset], word by word with its repeated pattern, fills with the byte. *)
Theorem kmem_stores_exactly d s n v m :
  0 <= d -> 0 <= s -> 0 <= n -> d + n <= zlen m -> s + n <= zlen m -> is_byte v ->
  kmemmove d s n m = zsplice d (zslice s n m) m /\
  (d <= s \/ s + n <= d -> kmemcpy d s n m = zsplice d (zslice s n m) m) /\
  kmemset d v n m = zsplice d (replicate (Z.to_nat n) v) m.
Proof.
  intros Hd Hs Hn Hdn Hsn Hv.
  assert (zlen (replicate (Z.to_nat n) v) = n) as Hrl by (unfold zlen; rewrite length_replicate; lia).
  split; [|split].
  - unfold kmemmove. destruct ((d =? s) || (n =? 0)) eqn:Heq.
    + apply (copied_splice d s n); try done. apply orb_true_iff in Heq as [<-%Z.eqb_eq | ->%Z.eqb_eq].
      * split; [done|]. intros j Hj. unfold from_src. replace (d + (j - d)) with j by lia. by case_match.
      * rewrite Z.add_0_r. apply stored_none.
    + zbool. apply (copied_splice d s n); try done. destruct (Z.ltb_spec d s).
      * pose proof (copy_up_stored d s (Z.to_nat n) 0 m) as Hst. rewrite Z.add_0_r, Z2Nat.id in Hst by lia.
        apply Hst; lia.
      * pose proof (copy_down_stored d s (Z.to_nat n) m) as Hst. rewrite Z2Nat.id in Hst by lia.
        apply Hst; lia.
  - intros Hov. apply (copied_splice d s n); try done. by apply kmemcpy_stored.
  - apply (stored_eq (fun _ => v)); rewrite ?Hrl; try done; [by apply kmemset_stored|].
    intros i Hi. rewrite zget_replicate; [done|lia].
Qed.

Lemma kmem_stores_exactly_witness :
  let m := seq 1 40 in let m := map Z.of_nat m in
  kmemmove 3 1 20 m = zsplice 3 (zslice 1 20 m) m /\
  (3 <= 1 \/ 1 + 20 <= 3 -> kmemcpy 3 1 20 m = zsplice 3 (zslice 1 20 m) m) /\
  kmemset 3 255 20 m = zsplice 3 (replicate (Z.to_nat 20) 255) m.
Proof. apply (kmem_stores_exactly 3 1 20 255); [lia..|done|done|done]. Defined.

(** [kstrstr] finds the first occurrence of the needle, and NULL exactly
    when there is none. *)
Theorem kstrstr_finds_first h n lh ln :
  c_string h lh -> c_string n ln ->
  match kstrstr h n with
  | Some i => occurs_at ln lh i /\ forall j, occurs_at ln lh j -> i <= j
  | None => forall j, ~ occurs_at ln lh j
  end.
Proof.
  intros Hh Hn. unfold kstrstr. destruct ln as [|y ln].
  - rewrite (c_string_nil n Hn). simpl. split; [|by intros j [Hj _]].
    apply occurs_at_0, prefix_nil.
  - pose proof Hn as (n' & Heq & Hy & _)%c_string_cons. rewrite Heq. cbn [deref hd].
    destruct (Z.eqb_spec y 0); [lia|]. rewrite <-Heq.
    pose proof (kstrstr_from_spec 0 h n lh (y :: ln) Hh Hn ltac:(done)) as H.
    destruct (kstrstr_from 0 h n); [|done]. by rewrite Z.sub_0_r in H.
Qed.

Lemma kstrstr_finds_first_witness :
  match kstrstr [97; 98; 97; 98; 99; 0; 7] [98; 99; 0] with
  | Some i => occurs_at [98; 99] [97; 98; 97; 98; 99] i /\
      forall j, occurs_at [98; 99] [97; 98; 97; 98; 99] j -> i <= j
  | None => forall j, ~ occurs_at [98; 99] [97; 98; 97; 98; 99] j
  end.
Proof.
  apply (kstrstr_finds_first [97; 98; 97; 98; 99; 0; 7] [98; 99; 0] [97; 98; 97; 98; 99] [98; 99]).
  - exists [7]. split; [reflexivity|]. repeat constructor; lia.
  - exists []. split; [reflexivity|]. repeat constructor; lia.
Defined.

(** A 32-bit number printed in decimal fits its buffer, denotes the number,
    and [kstr_to_int] reads it back, with either sign. *)
Theorem ku32_dec_roundtrip v :
  0 <= v < 2 ^ 32 ->
  exists l, ku32_to_dec v = (l ++ [0], zlen l) /\ Forall is_digit l /\ 1 <= zlen l <= 11 /\
    dec_value l = v /\ (v < 2 ^ 31 -> kstr_to_int (l ++ [0]) = v /\ kstr_to_int (45 :: l ++ [0]) = - v).
Proof.
  intros Hv. unfold ku32_to_dec.
  destruct (dec_digits_spec 11 v) as (Hd & Hval & Hint & Hlen & Hlead); [lia|].
  destruct (Z.eqb_spec v 0) as [->|Hne].
  { exists [48]. split; [done|]. split; [repeat constructor; unfold is_digit; lia|].
    split; [unfold zlen; simpl; lia|]. done. }
  destruct Hlead as (d & l & Hdl & Hdr); [lia|]. exists (d :: l).
  assert (Forall is_digit (d :: l)) as Hdd by (rewrite <-Hdl; by apply Forall_rev).
  assert (zlen (d :: l) = zlen (dec_digits 11 v)) as Hzl
    by (rewrite <-Hdl; unfold zlen; by rewrite length_rev).
  rewrite Hdl in Hval, Hint. split; [rewrite Hzl, <-Hdl; done|]. split; [done|].
  split; [rewrite Hzl; split; [rewrite <-Hzl; unfold zlen; simpl; lia|unfold zlen; lia]|]. split; [done|].
  intros Hb. change ((d :: l) ++ [0]) with (d :: l ++ [0]).
  rewrite kstr_to_int_digits, kstr_to_int_minus by lia.
  change (d :: l ++ [0]) with ((d :: l) ++ [0]).
  rewrite int_digits_app, int_digits_end, Hint by done. split; [done|].
  unfold i32, u32. destruct (decide (v = 0)); [lia|].
  replace ((- v) mod 2 ^ 32) with (2 ^ 32 - v).
  2: { rewrite <-(Z.mod_add (- v) 1), Z.mod_small by lia. lia. }
  destruct (Z.ltb_spec (2 ^ 32 - v) (2 ^ 31)); lia.
Qed.

Lemma ku32_dec_roundtrip_witness :
  exists l, ku32_to_dec 2147483647 = (l ++ [0], zlen l) /\ Forall is_digit l /\ 1 <= zlen l <= 11 /\
    dec_value l = 2147483647 /\
    (2147483647 < 2 ^ 31 -> kstr_to_int (l ++ [0]) = 2147483647 /\ kstr_to_int (45 :: l ++ [0]) = - 2147483647).
Proof. apply (ku32_dec_roundtrip 2147483647). lia. Defined.

(** Two chained DIV steps divide a 64-bit number by any non-zero 32-bit
    divisor, and neither can fault. *)
Theorem kdiv64_correct value divisor :
  0 <= value < 2 ^ 64 -> 0 < divisor < 2 ^ 32 ->
  kdiv64 value divisor = Some (value / divisor, value mod divisor).
Proof.
  intros Hv Hd. unfold kdiv64. rewrite Z.shiftr_div_pow2 by lia.
  assert (0 <= value / 2 ^ 32 < 2 ^ 32) as Hhi.
  { split; [apply Z.div_pos; lia|apply Z.div_lt_upper_bound; lia]. }
  rewrite u32_small by done. unfold u32. set (hi := value / 2 ^ 32) in *. set (lo := value mod 2 ^ 32).
  pose proof (Z.mod_pos_bound value (2 ^ 32) ltac:(lia)) as Hlo. fold lo in Hlo.
  assert (value = hi * 2 ^ 32 + lo) as Hval by (unfold hi, lo; pose proof (Z.div_mod value (2 ^ 32)); lia).
  unfold kdiv_hi_lo. destruct (Z.eqb_spec divisor 0); [lia|]. rewrite Z.mul_0_l, Z.add_0_l. cbn [orb].
  pose proof (Z.div_mod hi divisor ltac:(lia)) as Hq. pose proof (Z.mod_pos_bound hi divisor ltac:(lia)) as Hr.
  assert (0 <= hi / divisor) as Hq0 by (apply Z.div_pos; lia).
  destruct (Z.leb_spec (2 ^ 32) (hi / divisor)); [nia|]. set (r := hi mod divisor) in *.
  assert (0 <= (r * 2 ^ 32 + lo) / divisor < 2 ^ 32) as Hq2.
  { split; [apply Z.div_pos; lia|apply Z.div_lt_upper_bound; nia]. }
  destruct (Z.leb_spec (2 ^ 32) ((r * 2 ^ 32 + lo) / divisor)); [lia|].
  rewrite lor_shiftl_add by lia.
  replace value with (r * 2 ^ 32 + lo + (hi / divisor * 2 ^ 32) * divisor) by lia.
  rewrite Z.div_add, Z.mod_add by lia. do 2 f_equal. lia.
Qed.

Lemma kdiv64_correct_witness :
  kdiv64 18446744073709551615 4294967295 = Some (18446744073709551615 / 4294967295, 18446744073709551615 mod 4294967295).
Proof. apply kdiv64_correct; lia. Defined.

(** [kstrlcpy] never writes past the [size] bytes of its destination: it
    stores the longest prefix of the source that fits, and always a NUL. *)
Theorem kstrlcpy_bounded dst src size m l :
  0 < size -> 0 <= dst -> 0 <= src -> c_string (drop (Z.to_nat src) m) l -> dst + size <= zlen m ->
  dst + size <= src \/ src + zlen l + 1 <= dst ->
  kstrlcpy dst src size m = zsplice dst (take (Z.to_nat (size - 1)) l ++ [0]) m.
Proof. apply kstrlcpy_spec. Qed.

Lemma kstrlcpy_bounded_witness :
  kstrlcpy 8 0 4 [104; 101; 108; 108; 111; 0; 1; 1; 2; 2; 2; 2; 9]
    = zsplice 8 (take (Z.to_nat (4 - 1)) [104; 101; 108; 108; 111] ++ [0])
        [104; 101; 108; 108; 111; 0; 1; 1; 2; 2; 2; 2; 9].
Proof.
  apply (kstrlcpy_bounded 8 0 4 _ [104; 101; 108; 108; 111]); try (unfold zlen; simpl; lia).
  exists [1; 1; 2; 2; 2; 2; 9]. split; [reflexivity|]. repeat constructor; lia.
Defined.
