(* ===== verification/Netwire.v ===== *)
(** * What is on the wire: byte order, the checksum, addresses as text
    ([include/net.h], the first part of [kernel/net.c])

    A packed header is written in a little-endian machine's memory through
    [htons] and [htonl]: [le16] and [le32] are the bytes a store puts there,
    [rd16] and [rd32] the load of a field at an offset. *)

From S2P Require Import Prelude.

(** ** Byte order *)

Definition htons (v : Z) : Z := u16 (Z.lor (Z.shiftl v 8) (Z.shiftr v 8)).
Definition ntohs (v : Z) : Z := htons v.

Definition htonl (v : Z) : Z :=
  Z.lor (Z.lor (Z.lor (u32 (Z.shiftl (Z.land v 255) 24)) (u32 (Z.shiftl (Z.land v 65280) 8)))
    (Z.shiftr (Z.land v 16711680) 8)) (Z.shiftr (Z.land v 4278190080) 24).
Definition ntohl (v : Z) : Z := htonl v.

Definition le16 (v : Z) : list Z := [v mod 256; v / 256 mod 256].
Definition le32 (v : Z) : list Z :=
  [v mod 256; v / 256 mod 256; v / 65536 mod 256; v / 16777216 mod 256].
Definition rd16 (l : list Z) (off : Z) : Z := zget l off + 256 * zget l (off + 1).
Definition rd32 (l : list Z) (off : Z) : Z :=
  zget l off + 256 * zget l (off + 1) + 65536 * zget l (off + 2) + 16777216 * zget l (off + 3).

(** ** The checksum *)

(** [while (len > 1) { sum += (p[0] << 8) | p[1]; ... } if (len) ...] *)
Fixpoint checksum_loop (p : list Z) (sum : Z) : Z :=
  match p with
  | a :: b :: p' => checksum_loop p' (u32 (sum + Z.lor (Z.shiftl a 8) b))
  | [a] => u32 (sum + Z.shiftl a 8)
  | [] => sum
  end.

(** [while (sum >> 16) sum = (sum & 0xFFFF) + (sum >> 16)]. *)
Fixpoint fold_carries (fuel : nat) (sum : Z) : Z :=
  match fuel with
  | O => sum
  | S fuel' =>
    if nz (Z.shiftr sum 16)
    then fold_carries fuel' (Z.land sum 65535 + Z.shiftr sum 16) else sum
  end.

Definition net_checksum (data : list Z) (initial : Z) : Z :=
  65535 - u16 (fold_carries 3 (checksum_loop data initial)).

(** ** Addresses as text *)

Fixpoint put_dec_loop (fuel : nat) (v : Z) (out : list Z) : list Z :=
  match fuel with
  | O => out
  | S fuel' => if nz v then put_dec_loop fuel' (v / 10) (48 + v mod 10 :: out) else out
  end.

Definition put_dec (v : Z) : list Z := if nz v then put_dec_loop 4 v [] else [48].

Definition net_format_ip (ip : Z) : list Z :=
  put_dec (Z.land (Z.shiftr ip 24) 255) ++ [46] ++
  put_dec (Z.land (Z.shiftr ip 16) 255) ++ [46] ++
  put_dec (Z.land (Z.shiftr ip 8) 255) ++ [46] ++
  put_dec (Z.land ip 255) ++ [0].

(** The digits of one part: its value and the rest, or a part above 255. *)
Fixpoint parse_part (v : Z) (text : list Z) : option (Z * list Z) :=
  match text with
  | c :: text' =>
      if (48 <=? c) && (c <=? 57) then
        let v := v * 10 + (c - 48) in
        if 255 <? v then None else parse_part v text'
      else Some (v, text)
  | [] => Some (v, [])
  end.

(** The outer loop; [parts] are the parts read so far, in order. *)
Fixpoint parse_parts (fuel : nat) (parts : list Z) (text : list Z) : option (list Z * list Z) :=
  match fuel with
  | O => Some (parts, text)
  | S fuel' =>
    let c := hd 0 text in
    if nz c then
      if negb ((48 <=? c) && (c <=? 57)) then None else
      match parse_part 0 text with
      | None => None
      | Some (v, text) =>
          if hd 0 text =? 46 then parse_parts fuel' (parts ++ [v]) (tl text)
          else Some (parts ++ [v], text)
      end
    else Some (parts, text)
  end.

Definition net_parse_ip (text : list Z) : option Z :=
  match parse_parts 4 [] text with
  | None => None
  | Some (parts, text) =>
      if negb (zlen parts =? 4) || nz (hd 0 text) then None
      else Some (Z.lor (Z.lor (Z.lor (u32 (Z.shiftl (zget parts 0) 24))
             (u32 (Z.shiftl (zget parts 1) 16))) (u32 (Z.shiftl (zget parts 2) 8))) (zget parts 3))
  end.

(** ** Byte order: what the headers hold *)

Definition be16 (v : Z) : list Z := [v / 256 mod 256; v mod 256].
Definition be32 (v : Z) : list Z :=
  [v / 16777216 mod 256; v / 65536 mod 256; v / 256 mod 256; v mod 256].

Lemma htons_bytes a b : is_byte a -> is_byte b -> htons (a + 256 * b) = b + 256 * a.
Proof.
  unfold is_byte, htons. intros Ha Hb. rewrite Z.shiftr_div_pow2 by lia. change (2 ^ 8) with 256.
  rewrite (Z.mul_comm 256 b), Z.div_add, Z.div_small by lia.
  rewrite lor_shiftl_add by lia. unfold u16.
  replace ((a + b * 256) * 2 ^ 8 + (0 + b)) with (b + 256 * a + b * 2 ^ 16) by lia.
  rewrite Z.mod_add, Z.mod_small by lia. done.
Qed.

Lemma split16 v : 0 <= v < 2 ^ 16 ->
  v = v mod 256 + 256 * (v / 256 mod 256) /\ is_byte (v mod 256) /\ is_byte (v / 256 mod 256).
Proof.
  intros Hv. unfold is_byte. rewrite (Z.mod_small (v / 256))
    by (split; [apply Z.div_pos|apply Z.div_lt_upper_bound]; lia).
  pose proof (Z.div_mod v 256). pose proof (Z.mod_pos_bound v 256).
  assert (0 <= v / 256 < 256) by (split; [apply Z.div_pos|apply Z.div_lt_upper_bound]; lia). lia.
Qed.

Lemma byte_split a b : is_byte a -> is_byte b ->
  (a + 256 * b) mod 256 = a /\ (a + 256 * b) / 256 = b.
Proof.
  unfold is_byte. intros. rewrite (Z.mul_comm 256 b), Z.mod_add, Z.div_add by lia.
  rewrite Z.mod_small, (Z.div_small a) by lia. lia.
Qed.

Lemma le16_htons v : 0 <= v < 2 ^ 16 -> le16 (htons v) = be16 v.
Proof.
  intros Hv. destruct (split16 v Hv) as (Hs & Ha & Hb).
  rewrite Hs at 1. rewrite htons_bytes by done. unfold le16, be16.
  destruct (byte_split _ _ Hb Ha) as [-> ->]. by rewrite Zmod_mod.
Qed.

(** The fields of a 32-bit word, as masks and shifts pick them. *)
Lemma split32 v : 0 <= v < 2 ^ 32 ->
  exists a b c d, v = a + 256 * b + 65536 * c + 16777216 * d /\
    is_byte a /\ is_byte b /\ is_byte c /\ is_byte d.
Proof.
  intros Hv. unfold is_byte.
  exists (v mod 256), (v / 256 mod 256), (v / 65536 mod 256), (v / 16777216).
  pose proof (Z.div_mod v 256). pose proof (Z.mod_pos_bound v 256).
  pose proof (Z.div_mod (v / 256) 256). pose proof (Z.mod_pos_bound (v / 256) 256).
  pose proof (Z.div_mod (v / 65536) 256). pose proof (Z.mod_pos_bound (v / 65536) 256).
  assert (v / 256 / 256 = v / 65536) by (by rewrite Z.div_div by lia).
  assert (v / 65536 / 256 = v / 16777216) by (by rewrite Z.div_div by lia).
  assert (0 <= v / 16777216 < 256) by (split; [apply Z.div_pos|apply Z.div_lt_upper_bound]; lia).
  lia.
Qed.

Lemma htonl_bytes a b c d :
  is_byte a -> is_byte b -> is_byte c -> is_byte d ->
  htonl (a + 256 * b + 65536 * c + 16777216 * d) = d + 256 * c + 65536 * b + 16777216 * a.
Proof.
  unfold is_byte, htonl. intros Ha Hb Hc Hd. set (v := a + _ + _ + _).
  assert (v / 2 ^ 0 mod 2 ^ 8 = a /\ v / 2 ^ 8 mod 2 ^ 8 = b /\ v / 2 ^ 16 mod 2 ^ 8 = c /\
    v / 2 ^ 24 mod 2 ^ 8 = d) as (E0 & E1 & E2 & E3).
  { unfold v. split_and!.
    - rewrite Z.div_1_r. symmetry. apply (Z.mod_unique _ _ (b + 256 * c + 65536 * d)); lia.
    - rewrite <-(Z.div_unique _ _ (b + 256 * c + 65536 * d) a) by lia.
      symmetry. apply (Z.mod_unique _ _ (c + 256 * d)); lia.
    - rewrite <-(Z.div_unique _ _ (c + 256 * d) (a + 256 * b)) by lia.
      symmetry. apply (Z.mod_unique _ _ d); lia.
    - rewrite <-(Z.div_unique _ _ d (a + 256 * b + 65536 * c)) by lia.
      by apply Z.mod_small. }
  change 255 with (Z.shiftl (Z.ones 8) 0). change 65280 with (Z.shiftl (Z.ones 8) 8).
  change 16711680 with (Z.shiftl (Z.ones 8) 16). change 4278190080 with (Z.shiftl (Z.ones 8) 24).
  rewrite !land_field, E0, E1, E2, E3 by lia. rewrite !Z.shiftl_mul_pow2, !Z.shiftr_div_pow2 by lia.
  rewrite !u32_small by lia. rewrite (Z.div_mul d (2 ^ 24)) by lia.
  replace (c * 2 ^ 16 / 2 ^ 8) with (c * 2 ^ 8) by (apply (Z.div_unique _ _ _ 0); lia).
  replace (a * 2 ^ 0 * 2 ^ 24) with (a * 2 ^ 24) by lia.
  replace (b * 2 ^ 8 * 2 ^ 8) with (b * 2 ^ 16) by lia.
  rewrite (lor_mul_add a (b * 2 ^ 16) 24) by lia.
  replace (a * 2 ^ 24 + b * 2 ^ 16) with ((a * 2 ^ 8 + b) * 2 ^ 16) by lia.
  rewrite (lor_mul_add _ (c * 2 ^ 8) 16) by lia.
  replace ((a * 2 ^ 8 + b) * 2 ^ 16 + c * 2 ^ 8) with ((a * 2 ^ 16 + b * 2 ^ 8 + c) * 2 ^ 8) by lia.
  rewrite (lor_mul_add _ d 8) by lia. lia.
Qed.

Lemma le32_bytes a b c d :
  is_byte a -> is_byte b -> is_byte c -> is_byte d ->
  le32 (a + 256 * b + 65536 * c + 16777216 * d) = [a; b; c; d].
Proof.
  unfold is_byte, le32. intros Ha Hb Hc Hd. repeat f_equal.
  - symmetry. apply (Z.mod_unique _ _ (b + 256 * c + 65536 * d)); lia.
  - rewrite <-(Z.div_unique _ _ (b + 256 * c + 65536 * d) a) by lia.
    symmetry. apply (Z.mod_unique _ _ (c + 256 * d)); lia.
  - rewrite <-(Z.div_unique _ _ (c + 256 * d) (a + 256 * b)) by lia.
    symmetry. apply (Z.mod_unique _ _ d); lia.
  - rewrite <-(Z.div_unique _ _ d (a + 256 * b + 65536 * c)) by lia.
    by apply Z.mod_small.
Qed.

Lemma htons_range v : 0 <= htons v < 2 ^ 16.
Proof. apply u16_range. Qed.

Lemma htons_htons v : 0 <= v < 2 ^ 16 -> ntohs (htons v) = v.
Proof.
  intros Hv. destruct (split16 v Hv) as (Hs & Ha & Hb). unfold ntohs.
  rewrite Hs, htons_bytes, htons_bytes by done. done.
Qed.

Lemma htonl_htonl v : 0 <= v < 2 ^ 32 -> ntohl (htonl v) = v.
Proof.
  intros Hv. destruct (split32 v Hv) as (a & b & c & d & -> & Ha & Hb & Hc & Hd).
  unfold ntohl. by rewrite !htonl_bytes.
Qed.

Lemma htonl_range v : 0 <= v < 2 ^ 32 -> 0 <= htonl v < 2 ^ 32.
Proof.
  intros Hv. destruct (split32 v Hv) as (a & b & c & d & -> & Ha & Hb & Hc & Hd).
  rewrite htonl_bytes by done. unfold is_byte in *. lia.
Qed.

(** What is stored is what is loaded. *)
Lemma rd16_le16 pre v rest :
  0 <= v < 2 ^ 16 -> rd16 (pre ++ le16 v ++ rest) (zlen pre) = v.
Proof.
  intros Hv. unfold rd16. rewrite <-(Z.add_0_r (zlen pre)) at 1. rewrite !zget_app_r by lia.
  destruct (split16 v Hv) as [Hs _]. symmetry. exact Hs.
Qed.

Lemma rd32_le32 pre v rest :
  0 <= v < 2 ^ 32 -> rd32 (pre ++ le32 v ++ rest) (zlen pre) = v.
Proof.
  intros Hv. destruct (split32 v Hv) as (a & b & c & d & -> & Ha & Hb & Hc & Hd).
  rewrite le32_bytes by done.
  unfold rd32. rewrite <-(Z.add_0_r (zlen pre)) at 1. by rewrite !zget_app_r by lia.
Qed.

(** ** The checksum is a sum modulo 65535 *)

Fixpoint wsum (p : list Z) : Z :=
  match p with
  | a :: b :: p' => 256 * a + b + wsum p'
  | [a] => 256 * a
  | [] => 0
  end.

(** Lists by two elements at a time. *)
Lemma pairs_ind {A} (P : list A -> Prop) :
  P [] -> (forall a, P [a]) -> (forall a b l, P l -> P (a :: b :: l)) -> forall l, P l.
Proof.
  intros H0 H1 H2. fix IH 1. intros [|a [|b l]]; [done|apply H1|apply H2, IH].
Qed.

Lemma wsum_range p : Forall is_byte p -> 0 <= 2 * wsum p <= 65535 * (zlen p + 1).
Proof.
  unfold is_byte, zlen. induction p as [|a|a b p IH] using pairs_ind; intros Hp;
    repeat match goal with H : Forall _ (_ :: _) |- _ => apply Forall_cons in H as [? H] end; simpl; try lia.
  specialize (IH Hp). lia.
Qed.

Lemma wsum_app p q : Nat.even (length p) = true -> wsum (p ++ q) = wsum p + wsum q.
Proof.
  induction p as [|a|a b p IH] using pairs_ind; [done|done|]. intros Hp. simpl in *.
  rewrite IH by done. lia.
Qed.

Lemma checksum_loop_sum p s :
  Forall is_byte p -> 0 <= s -> s + wsum p < 2 ^ 32 -> checksum_loop p s = s + wsum p.
Proof.
  unfold is_byte. revert s. induction p as [|a|a b p IH] using pairs_ind; intros s Hp Hs Hb; cbn [checksum_loop wsum] in *;
    repeat match goal with H : Forall _ (_ :: _) |- _ => apply Forall_cons in H as [? H] end.
  - lia.
  - rewrite Z.shiftl_mul_pow2, u32_small by lia. lia.
  - pose proof (wsum_range p Hp). rewrite lor_shiftl_add, u32_small by lia. rewrite IH by (done || lia). lia.
Qed.

Lemma fold_carries_spec s :
  0 <= s < 2 ^ 32 ->
  0 <= fold_carries 3 s < 2 ^ 16 /\ (fold_carries 3 s - s) mod 65535 = 0 /\
  (fold_carries 3 s = 0 -> s = 0).
Proof.
  intros Hs.
  assert (forall t, 0 <= t -> Z.land t 65535 + Z.shiftr t 16 = t - 65535 * (t / 2 ^ 16) /\
    0 <= t / 2 ^ 16 /\ t = 2 ^ 16 * (t / 2 ^ 16) + t mod 2 ^ 16 /\ 0 <= t mod 2 ^ 16 < 2 ^ 16 /\
    Z.shiftr t 16 = t / 2 ^ 16) as Hstep.
  { intros t Ht. change 65535 with (Z.ones 16) at 1. rewrite Z.land_ones, Z.shiftr_div_pow2 by lia.
    pose proof (Z.div_mod t (2 ^ 16)). pose proof (Z.mod_pos_bound t (2 ^ 16)).
    assert (0 <= t / 2 ^ 16) by (apply Z.div_pos; lia). lia. }
  set (t := fold_carries 3 s).
  assert (exists q, t = s - 65535 * q /\ 0 <= t < 2 ^ 16 /\ (t = 0 -> s = 0)) as (q & Hq & Ht & Hz).
  { unfold t. cbn [fold_carries]. unfold nz.
    destruct (Hstep s ltac:(lia)) as (-> & H0 & H1 & H2 & ->).
    destruct (Z.eqb_spec (s / 2 ^ 16) 0); cbn [negb]; [exists 0; lia|].
    set (s1 := s - 65535 * (s / 2 ^ 16)) in *.
    destruct (Hstep s1 ltac:(lia)) as (-> & G0 & G1 & G2 & ->).
    destruct (Z.eqb_spec (s1 / 2 ^ 16) 0); cbn [negb]; [exists (s / 2 ^ 16); lia|].
    set (s2 := s1 - 65535 * (s1 / 2 ^ 16)) in *.
    destruct (Hstep s2 ltac:(lia)) as (-> & F0 & F1 & F2 & ->).
    destruct (Z.eqb_spec (s2 / 2 ^ 16) 0); cbn [negb]; [exists (s / 2 ^ 16 + s1 / 2 ^ 16); lia|lia]. }
  split; [done|]. split; [|done]. rewrite Hq.
  replace (s - 65535 * q - s) with (- q * 65535) by lia. by apply Z.mod_mul.
Qed.

(** What a verifier computes: 0 exactly when the sum is a non-zero multiple of
    65535. *)
Lemma net_checksum_zero p s :
  Forall is_byte p -> 0 <= s -> s + wsum p < 2 ^ 32 ->
  net_checksum p s = 0 <-> (s + wsum p) mod 65535 = 0 /\ 0 < s + wsum p.
Proof.
  intros Hp Hs Hb. unfold net_checksum. rewrite checksum_loop_sum by done.
  pose proof (wsum_range p Hp). set (t := s + wsum p) in *.
  destruct (fold_carries_spec t ltac:(lia)) as (Hf & Hm & Hz). set (f := fold_carries 3 t) in *.
  rewrite u16_small by done. split.
  - intros H0. assert (f = 65535) as Hf1 by lia. rewrite Hf1 in Hm. split.
    + apply Z.mod_divide in Hm as [k Hk]; [|done].
      apply Z.mod_divide; [done|]. exists (1 - k). lia.
    + destruct (decide (t = 0)) as [Ht|]; [|lia].
      assert (f = fold_carries 3 0) as Hf0 by (unfold f; by rewrite Ht).
      change (fold_carries 3 0) with 0 in Hf0. lia.
  - intros [H0 H1]. apply Z.mod_divide in Hm as [k Hk]; [|done].
    apply Z.mod_divide in H0 as [j Hj]; [|done]. assert (f <> 0) by (intros ?; lia).
    assert (f = 65535 * (j + k)) by lia. assert (j + k = 1) by lia. lia.
Qed.

Lemma wsum_insert a w b :
  Nat.even (length a) = true -> 0 <= w < 2 ^ 16 -> wsum (a ++ be16 w ++ b) = wsum a + w + wsum b.
Proof.
  intros Ha Hw. rewrite wsum_app by done. unfold be16. cbn [wsum app].
  destruct (split16 w Hw) as [Hs _]. lia.
Qed.

Lemma be16_bytes w : Forall is_byte (be16 w).
Proof.
  repeat constructor; unfold is_byte; try apply Z.mod_pos_bound; lia || apply Z.mod_pos_bound; lia.
Qed.

(** A 16-bit word put into a block, at an even offset. *)
Lemma wsum_insert_range a b initial v :
  Forall is_byte a -> Forall is_byte b -> Nat.even (length a) = true ->
  zlen a + zlen b <= 65536 -> 0 <= initial <= 2 ^ 20 -> 0 <= v < 2 ^ 16 ->
  Forall is_byte (a ++ be16 v ++ b) /\
  initial + wsum (a ++ be16 v ++ b) = (initial + wsum a + wsum b) + v /\
  initial + wsum (a ++ be16 v ++ b) < 2 ^ 32.
Proof.
  intros Ha Hb Hev Hlen Hi Hv. pose proof (wsum_range a Ha). pose proof (wsum_range b Hb).
  rewrite wsum_insert by done. split; [repeat apply Forall_app_2; try done; apply be16_bytes|]. lia.
Qed.

Lemma net_checksum_fill a b initial :
  Forall is_byte a -> Forall is_byte b -> Nat.even (length a) = true ->
  zlen a + zlen b <= 65536 -> 0 <= initial <= 2 ^ 20 ->
  net_checksum (a ++ le16 (htons (net_checksum (a ++ le16 0 ++ b) initial)) ++ b) initial = 0.
Proof.
  intros Ha Hb Hev Hlen Hi.
  pose proof (wsum_range a Ha) as Hra. pose proof (wsum_range b Hb) as Hrb.
  pose proof (fun v => wsum_insert_range a b initial v Ha Hb Hev Hlen Hi) as Hins.
  assert (0 <= initial + wsum a + wsum b) as HS0 by lia.
  set (S0 := initial + wsum a + wsum b) in *.
  destruct (Hins 0 ltac:(lia)) as (Hby0 & Hs0 & Hb0).
  change (le16 0 ++ b) with (be16 0 ++ b). unfold net_checksum at 2.
  rewrite checksum_loop_sum by (done || lia). rewrite Hs0, Z.add_0_r.
  destruct (fold_carries_spec S0 ltac:(lia)) as (Hf & Hm & Hz).
  set (f := fold_carries 3 S0) in *. rewrite u16_small, le16_htons by lia.
  destruct (Hins (65535 - f) ltac:(lia)) as (Hby & Hs & Hbd).
  apply net_checksum_zero; [done|lia|lia|]. rewrite Hs.
  apply Z.mod_divide in Hm as [k Hk]; [|done]. split.
  2: { destruct (decide (S0 = 0)) as [H0|]; [|lia].
       assert (f = fold_carries 3 0) as Hf0 by (unfold f; by rewrite H0).
       change (fold_carries 3 0) with 0 in Hf0. lia. }
  replace (S0 + (65535 - f)) with ((1 - k) * 65535) by lia. by apply Z.mod_mul.
Qed.

Lemma le16_is_byte v : Forall is_byte (le16 v).
Proof. repeat constructor; unfold is_byte; by apply Z.mod_pos_bound. Qed.

Lemma le32_is_byte v : Forall is_byte (le32 v).
Proof. repeat constructor; unfold is_byte; by apply Z.mod_pos_bound. Qed.

(** A field read back in host order. *)
Lemma ntohs_rd v : 0 <= v < 2 ^ 16 -> ntohs (htons v mod 256 + 256 * (htons v / 256 mod 256)) = v.
Proof.
  intros Hv. destruct (split16 (htons v) (htons_range v)) as (<- & _). by apply htons_htons.
Qed.

Lemma ntohl_rd v :
  0 <= v < 2 ^ 32 ->
  ntohl (htonl v mod 256 + 256 * (htonl v / 256 mod 256) + 65536 * (htonl v / 65536 mod 256)
    + 16777216 * (htonl v / 16777216 mod 256)) = v.
Proof.
  intros Hv. rewrite <-(htonl_htonl v Hv) at 5. f_equal.
  exact (rd32_le32 [] (htonl v) [] (htonl_range v Hv)).
Qed.

(** ** Text *)

Definition part_ok (v : Z) : bool :=
  match parse_part 0 (put_dec v) with Some (w, []) => w =? v | _ => false end
  && forallb (fun c => (48 <=? c) && (c <=? 57)) (put_dec v)
  && negb (zlen (put_dec v) =? 0).

Lemma parts_ok v : 0 <= v < 256 -> part_ok v = true.
Proof.
  intros Hv. assert (forallb part_ok (seqZ 0 256) = true) as H by (by vm_compute).
  rewrite forallb_forall in H. apply H. apply list_elem_of_In, elem_of_seqZ. lia.
Qed.

Lemma parse_part_stop v ds w c rest :
  parse_part v ds = Some (w, []) -> forallb (fun c => (48 <=? c) && (c <=? 57)) ds = true ->
  (48 <=? c) && (c <=? 57) = false -> parse_part v (ds ++ c :: rest) = Some (w, c :: rest).
Proof.
  intros Hp Hd Hc. revert v Hp. induction ds as [|d ds IH]; intros v Hp; cbn [parse_part app] in *.
  - rewrite Hc. by simplify_eq.
  - simpl in Hd. apply andb_true_iff in Hd as [Hd1 Hd2]. rewrite Hd1 in *.
    destruct (255 <? v * 10 + (d - 48)); [done|]. by apply IH.
Qed.

Lemma parse_part_put v c rest :
  0 <= v < 256 -> (48 <=? c) && (c <=? 57) = false ->
  exists d ds, put_dec v ++ c :: rest = d :: ds /\ (48 <=? d) && (d <=? 57) = true /\
    parse_part 0 (d :: ds) = Some (v, c :: rest).
Proof.
  intros Hv Hc. pose proof (parts_ok v Hv) as Hok. unfold part_ok in Hok.
  apply andb_true_iff in Hok as [Hok Hne]. apply andb_true_iff in Hok as [Hp Hd].
  destruct (parse_part 0 (put_dec v)) as [[w [|]]|] eqn:Hpp; try done. apply Z.eqb_eq in Hp as ->.
  pose proof (parse_part_stop _ _ _ c rest Hpp Hd Hc) as Hst.
  destruct (put_dec v) as [|d ds]; [done|]. simpl in Hd. apply andb_true_iff in Hd as [Hd _].
  exists d, (ds ++ c :: rest). done.
Qed.

Lemma parse_parts_step fuel parts v c rest :
  0 <= v < 256 -> (48 <=? c) && (c <=? 57) = false ->
  parse_parts (S fuel) parts (put_dec v ++ c :: rest) =
    if c =? 46 then parse_parts fuel (parts ++ [v]) rest else Some (parts ++ [v], c :: rest).
Proof.
  intros Hv Hc. destruct (parse_part_put v c rest Hv Hc) as (d & ds & -> & Hd & Hp).
  cbn [parse_parts hd]. rewrite Hd, Hp. cbn [negb hd tl]. unfold nz.
  destruct (Z.eqb_spec d 0) as [->|]; [done|]. done.
Qed.

Lemma put_dec_len v : 0 <= v < 256 -> zlen (put_dec v) <= 3.
Proof.
  intros Hv. assert (forallb (fun v => zlen (put_dec v) <=? 3) (seqZ 0 256) = true) as H
    by (by vm_compute).
  rewrite forallb_forall in H. apply Z.leb_le, H. apply list_elem_of_In, elem_of_seqZ. lia.
Qed.

(** The four parts of an address, as the shifts of [net_format_ip] pick them. *)
Lemma ip_parts a b c d :
  is_byte a -> is_byte b -> is_byte c -> is_byte d ->
  let ip := a + 256 * b + 65536 * c + 16777216 * d in
  Z.land (Z.shiftr ip 24) 255 = d /\ Z.land (Z.shiftr ip 16) 255 = c /\
  Z.land (Z.shiftr ip 8) 255 = b /\ Z.land ip 255 = a.
Proof.
  unfold is_byte. intros Ha Hb Hc Hd. cbv zeta. change 255 with (Z.ones 8).
  rewrite !Z.land_ones, !Z.shiftr_div_pow2 by lia. split_and!.
  - rewrite <-(Z.div_unique _ _ d (a + 256 * b + 65536 * c)) by lia. by apply Z.mod_small.
  - rewrite <-(Z.div_unique _ _ (c + 256 * d) (a + 256 * b)) by lia.
    symmetry. apply (Z.mod_unique _ _ d); lia.
  - rewrite <-(Z.div_unique _ _ (b + 256 * c + 65536 * d) a) by lia.
    symmetry. apply (Z.mod_unique _ _ (c + 256 * d)); lia.
  - symmetry. apply (Z.mod_unique _ _ (b + 256 * c + 65536 * d)); lia.
Qed.

(** A verified block in which one word changes no longer verifies. *)
Lemma net_checksum_change a b initial w w' :
  Forall is_byte a -> Forall is_byte b -> Nat.even (length a) = true ->
  zlen a + zlen b <= 65536 -> 0 <= initial <= 2 ^ 20 -> 0 <= w < 2 ^ 16 ->
  0 <= w' < 2 ^ 16 -> (w - w') mod 65535 <> 0 ->
  net_checksum (a ++ be16 w ++ b) initial = 0 -> net_checksum (a ++ be16 w' ++ b) initial <> 0.
Proof.
  intros Ha Hb Hev Hlen Hi Hw Hw' Hne H1 H2.
  pose proof (wsum_range a Ha). pose proof (wsum_range b Hb).
  destruct (wsum_insert_range a b initial w Ha Hb Hev Hlen Hi Hw) as (Hby & Hs & Hbd).
  destruct (wsum_insert_range a b initial w' Ha Hb Hev Hlen Hi Hw') as (Hby' & Hs' & Hbd').
  apply net_checksum_zero in H1 as [H1 _]; [|done|lia|done].
  apply net_checksum_zero in H2 as [H2 _]; [|done|lia|done].
  rewrite Hs in H1. rewrite Hs' in H2. apply Hne.
  apply Z.mod_divide in H1 as [j Hj]; [|done]. apply Z.mod_divide in H2 as [k Hk]; [|done].
  replace (w - w') with ((j - k) * 65535) by lia. by apply Z.mod_mul.
Qed.

(** ... except between 0 and 0xFFFF, both zero in ones' complement: that change
    is not seen. *)
Lemma net_checksum_blind a b initial w w' :
  Forall is_byte a -> Forall is_byte b -> Nat.even (length a) = true ->
  zlen a + zlen b <= 65536 -> 0 < initial <= 2 ^ 20 -> 0 <= w < 2 ^ 16 ->
  0 <= w' < 2 ^ 16 -> (w - w') mod 65535 = 0 ->
  net_checksum (a ++ be16 w ++ b) initial = 0 -> net_checksum (a ++ be16 w' ++ b) initial = 0.
Proof.
  intros Ha Hb Hev Hlen Hi Hw Hw' Heq H1.
  pose proof (wsum_range a Ha). pose proof (wsum_range b Hb).
  destruct (wsum_insert_range a b initial w Ha Hb Hev Hlen ltac:(lia) Hw) as (Hby & Hs & Hbd).
  destruct (wsum_insert_range a b initial w' Ha Hb Hev Hlen ltac:(lia) Hw') as (Hby' & Hs' & Hbd').
  apply net_checksum_zero in H1 as [H1 _]; [|done|lia|done].
  apply net_checksum_zero; [done|lia|done|]. rewrite Hs in H1. rewrite Hs'. split; [|lia].
  apply Z.mod_divide in H1 as [j Hj]; [|done]. apply Z.mod_divide in Heq as [k Hk]; [|done].
  apply Z.mod_divide; [done|]. exists (j - k). lia.
Qed.

(** Two different words are the same number modulo 65535 only as 0 and 0xFFFF. *)
Lemma words_congruent w w' :
  0 <= w < 2 ^ 16 -> 0 <= w' < 2 ^ 16 -> w <> w' ->
  (w - w') mod 65535 = 0 <-> (w = 0 /\ w' = 65535) \/ (w = 65535 /\ w' = 0).
Proof.
  intros Hw Hw' Hne. split; [|by intros [[-> ->]|[-> ->]]].
  intros [k Hk]%Z.mod_divide; [|done]. assert (k = 1 \/ k = -1) as [->| ->] by lia; lia.
Qed.

(** ** The properties *)

(** The internet checksum protects what it covers: a header whose checksum
    field (at an even offset) is filled in with the checksum of the rest
    verifies to 0, and a verified block in which one 16-bit word changes to
    another value (0x0000 and 0xffff being the same number) no longer does. *)
Theorem net_checksum_protects a b initial w :
  Forall is_byte a -> Forall is_byte b -> Nat.even (length a) = true ->
  zlen a + zlen b <= 65536 -> 0 <= initial <= 2 ^ 20 -> 0 <= w < 2 ^ 16 ->
  net_checksum (a ++ le16 (htons (net_checksum (a ++ [0; 0] ++ b) initial)) ++ b) initial = 0 /\
  (forall w', 0 <= w' < 2 ^ 16 -> (w - w') mod 65535 <> 0 ->
     net_checksum (a ++ be16 w ++ b) initial = 0 -> net_checksum (a ++ be16 w' ++ b) initial <> 0).
Proof.
  intros Ha Hb Hev Hlen Hi Hw. split; [|intros w' Hw' Hne; by apply net_checksum_change].
  pose proof (wsum_range a Ha). pose proof (wsum_range b Hb). apply net_checksum_fill; (done || lia).
Qed.

Lemma net_checksum_protects_witness :
  net_checksum ([69; 0; 0; 40] ++ le16 (htons (net_checksum ([69; 0; 0; 40] ++ [0; 0] ++ [10; 0; 2; 15]) 0)) ++ [10; 0; 2; 15]) 0 = 0 /\
  (forall w', 0 <= w' < 2 ^ 16 -> (1000 - w') mod 65535 <> 0 ->
     net_checksum ([69; 0; 0; 40] ++ be16 1000 ++ [10; 0; 2; 15]) 0 = 0 ->
     net_checksum ([69; 0; 0; 40] ++ be16 w' ++ [10; 0; 2; 15]) 0 <> 0).
Proof.
  apply (net_checksum_protects [69; 0; 0; 40] [10; 0; 2; 15] 0 1000);
    try (repeat constructor; unfold is_byte; lia); try (unfold zlen; simpl; lia); done.
Defined.

(** An address printed and parsed back is the same address, and its text
    fits the 16 bytes the callers have. *)
Theorem net_ip_text_roundtrip ip :
  0 <= ip < 2 ^ 32 -> net_parse_ip (net_format_ip ip) = Some ip /\ zlen (net_format_ip ip) <= 16.
Proof.
  intros Hip. destruct (split32 ip Hip) as (a & b & c & d & -> & Ha & Hb & Hc & Hd).
  destruct (ip_parts a b c d Ha Hb Hc Hd) as (E3 & E2 & E1 & E0).
  unfold net_format_ip. rewrite E3, E2, E1, E0. split.
  - unfold net_parse_ip. cbn [app]. rewrite !parse_parts_step by done. cbn [Z.eqb Pos.eqb app].
    unfold is_byte in *. set (ip := a + _ + _ + _).
    change (Some (Z.lor (Z.lor (Z.lor (u32 (Z.shiftl d 24)) (u32 (Z.shiftl c 16)))
      (u32 (Z.shiftl b 8))) a) = Some ip). unfold ip.
    rewrite !Z.shiftl_mul_pow2, !u32_small by lia.
    rewrite (lor_mul_add d (c * 2 ^ 16) 24) by lia.
    replace (d * 2 ^ 24 + c * 2 ^ 16) with ((d * 2 ^ 8 + c) * 2 ^ 16) by lia.
    rewrite (lor_mul_add _ (b * 2 ^ 8) 16) by lia.
    replace ((d * 2 ^ 8 + c) * 2 ^ 16 + b * 2 ^ 8) with ((d * 2 ^ 16 + c * 2 ^ 8 + b) * 2 ^ 8) by lia.
    rewrite (lor_mul_add _ a 8) by lia. f_equal. lia.
  - rewrite !zlen_app. pose proof (put_dec_len a Ha). pose proof (put_dec_len b Hb).
    pose proof (put_dec_len c Hc). pose proof (put_dec_len d Hd).
    change (zlen [46]) with 1. change (zlen [0]) with 1. lia.
Qed.

Lemma net_ip_text_roundtrip_witness :
  net_parse_ip (net_format_ip 3232235777) = Some 3232235777 /\ zlen (net_format_ip 3232235777) <= 16.
Proof. apply net_ip_text_roundtrip. lia. Defined.

(** "1.2.3.4." is taken for an address: after the fourth part a dot is still
    stepped over, and only then is the end of the text tested. *)
Example parse_trailing_dot : net_parse_ip [49; 46; 50; 46; 51; 46; 52; 46; 0] = Some 16909060.
Proof. reflexivity. Qed.
