(* ===== verification/Net.v ===== *)
(** * Ethernet, ARP, IPv4, ICMP and UDP ([kernel/net.c])

    The stack's state is a record; every function of the file is a function
    on it.  A frame that leaves goes to the card, the interface [NetDevice];
    a TCP segment that arrives is handed to the function [tcp_init]
    registered, which is the last thing the receive path does, so the receive
    functions return it with the new state.  [pit_get_ticks()] is the field
    [ticks]. *)

From S2P Require Import Prelude Ring Netwire.

Definition ETH_ALEN : Z := 6.
Definition ETH_MTU : Z := 1500.
Definition ETH_HDR_LEN : Z := 14.
Definition ETH_P_IP : Z := 2048.
Definition ETH_P_ARP : Z := 2054.
Definition IP_PROTO_ICMP : Z := 1.
Definition IP_PROTO_TCP : Z := 6.
Definition IP_PROTO_UDP : Z := 17.
Definition NET_UDP_MAX_PAYLOAD : Z := 1472.
Definition ARP_ENTRIES : Z := 16.
Definition ARP_TTL_TICKS : Z := 100 * 120.
Definition UDP_PORTS : Z := 8.
Definition UDP_QUEUE : Z := 4.
Definition BROADCAST : Z := 4294967295.

(** The card: what it answers to a frame, and its next state. *)
Class NetDevice (D : Type) := { hw_send : list Z -> D -> Z * D }.

(** ** State *)

Record net_config := mkConfig {
  c_ip : Z;
  c_netmask : Z;
  c_gateway : Z;
  c_dns : Z;
  c_configured : bool
}.


Record net_stats := mkStats {
  rx_frames : Z;
  rx_arp : Z;
  rx_ip : Z;
  rx_icmp : Z;
  rx_udp : Z;
  rx_tcp : Z;
  rx_other : Z;
  tx_frames : Z;
  tx_arp : Z;
  tx_ip : Z;
  dropped_no_route : Z;
  dropped_checksum : Z
}.

Definition set_rx_frames (v : Z) (s : net_stats) : net_stats :=
  mkStats v (rx_arp s) (rx_ip s) (rx_icmp s) (rx_udp s) (rx_tcp s) (rx_other s) (tx_frames s) (tx_arp s) (tx_ip s) (dropped_no_route s) (dropped_checksum s).
Definition set_rx_arp (v : Z) (s : net_stats) : net_stats :=
  mkStats (rx_frames s) v (rx_ip s) (rx_icmp s) (rx_udp s) (rx_tcp s) (rx_other s) (tx_frames s) (tx_arp s) (tx_ip s) (dropped_no_route s) (dropped_checksum s).
Definition set_rx_ip (v : Z) (s : net_stats) : net_stats :=
  mkStats (rx_frames s) (rx_arp s) v (rx_icmp s) (rx_udp s) (rx_tcp s) (rx_other s) (tx_frames s) (tx_arp s) (tx_ip s) (dropped_no_route s) (dropped_checksum s).
Definition set_rx_icmp (v : Z) (s : net_stats) : net_stats :=
  mkStats (rx_frames s) (rx_arp s) (rx_ip s) v (rx_udp s) (rx_tcp s) (rx_other s) (tx_frames s) (tx_arp s) (tx_ip s) (dropped_no_route s) (dropped_checksum s).
Definition set_rx_udp (v : Z) (s : net_stats) : net_stats :=
  mkStats (rx_frames s) (rx_arp s) (rx_ip s) (rx_icmp s) v (rx_tcp s) (rx_other s) (tx_frames s) (tx_arp s) (tx_ip s) (dropped_no_route s) (dropped_checksum s).
Definition set_rx_tcp (v : Z) (s : net_stats) : net_stats :=
  mkStats (rx_frames s) (rx_arp s) (rx_ip s) (rx_icmp s) (rx_udp s) v (rx_other s) (tx_frames s) (tx_arp s) (tx_ip s) (dropped_no_route s) (dropped_checksum s).
Definition set_rx_other (v : Z) (s : net_stats) : net_stats :=
  mkStats (rx_frames s) (rx_arp s) (rx_ip s) (rx_icmp s) (rx_udp s) (rx_tcp s) v (tx_frames s) (tx_arp s) (tx_ip s) (dropped_no_route s) (dropped_checksum s).
Definition set_tx_frames (v : Z) (s : net_stats) : net_stats :=
  mkStats (rx_frames s) (rx_arp s) (rx_ip s) (rx_icmp s) (rx_udp s) (rx_tcp s) (rx_other s) v (tx_arp s) (tx_ip s) (dropped_no_route s) (dropped_checksum s).
Definition set_tx_arp (v : Z) (s : net_stats) : net_stats :=
  mkStats (rx_frames s) (rx_arp s) (rx_ip s) (rx_icmp s) (rx_udp s) (rx_tcp s) (rx_other s) (tx_frames s) v (tx_ip s) (dropped_no_route s) (dropped_checksum s).
Definition set_tx_ip (v : Z) (s : net_stats) : net_stats :=
  mkStats (rx_frames s) (rx_arp s) (rx_ip s) (rx_icmp s) (rx_udp s) (rx_tcp s) (rx_other s) (tx_frames s) (tx_arp s) v (dropped_no_route s) (dropped_checksum s).
Definition set_dropped_no_route (v : Z) (s : net_stats) : net_stats :=
  mkStats (rx_frames s) (rx_arp s) (rx_ip s) (rx_icmp s) (rx_udp s) (rx_tcp s) (rx_other s) (tx_frames s) (tx_arp s) (tx_ip s) v (dropped_checksum s).
Definition set_dropped_checksum (v : Z) (s : net_stats) : net_stats :=
  mkStats (rx_frames s) (rx_arp s) (rx_ip s) (rx_icmp s) (rx_udp s) (rx_tcp s) (rx_other s) (tx_frames s) (tx_arp s) (tx_ip s) (dropped_no_route s) v.

Record arp_entry := mkArp { a_ip : Z; a_mac : list Z; a_stamp : Z; a_valid : bool }.
Record udp_datagram := mkDgram { d_src_ip : Z; d_src_port : Z; d_len : Z; d_data : list Z }.
Record udp_port := mkPort {
  u_port : Z; u_bound : bool; u_q : list udp_datagram; u_head : Z; u_tail : Z
}.

#[export] Instance arp_entry_inhabited : Inhabited arp_entry := populate (mkArp 0 [] 0 false).
#[export] Instance udp_datagram_inhabited : Inhabited udp_datagram := populate (mkDgram 0 0 0 []).
#[export] Instance udp_port_inhabited : Inhabited udp_port := populate (mkPort 0 false [] 0 0).

Section net.
  Context {D : Type} `{!NetDevice D}.

Record netdev := mkDev {
  nd_mac : list Z;
  nd_up : bool;
  nd_can_send : bool (* the driver set [send] *);
  nd_rx_packets : Z;
  nd_rx_bytes : Z;
  nd_hw : D
}.

Definition set_nd_rx_packets (v : Z) (s : netdev) : netdev :=
  mkDev (nd_mac s) (nd_up s) (nd_can_send s) v (nd_rx_bytes s) (nd_hw s).
Definition set_nd_rx_bytes (v : Z) (s : netdev) : netdev :=
  mkDev (nd_mac s) (nd_up s) (nd_can_send s) (nd_rx_packets s) v (nd_hw s).
Definition set_nd_hw (v : D) (s : netdev) : netdev :=
  mkDev (nd_mac s) (nd_up s) (nd_can_send s) (nd_rx_packets s) (nd_rx_bytes s) v.

Record net := mkNet {
  n_dev : option netdev;
  config : net_config;
  stats : net_stats;
  ip_id : Z;
  arp_cache : list arp_entry;
  udp_ports : list udp_port;
  ping_replies : Z;
  ping_sent_tick : Z;
  ping_last_ticks : Z;
  ticks : Z
}.

Definition set_n_dev (v : option netdev) (s : net) : net :=
  mkNet v (config s) (stats s) (ip_id s) (arp_cache s) (udp_ports s) (ping_replies s) (ping_sent_tick s) (ping_last_ticks s) (ticks s).
Definition set_config (v : net_config) (s : net) : net :=
  mkNet (n_dev s) v (stats s) (ip_id s) (arp_cache s) (udp_ports s) (ping_replies s) (ping_sent_tick s) (ping_last_ticks s) (ticks s).
Definition set_stats (v : net_stats) (s : net) : net :=
  mkNet (n_dev s) (config s) v (ip_id s) (arp_cache s) (udp_ports s) (ping_replies s) (ping_sent_tick s) (ping_last_ticks s) (ticks s).
Definition set_ip_id (v : Z) (s : net) : net :=
  mkNet (n_dev s) (config s) (stats s) v (arp_cache s) (udp_ports s) (ping_replies s) (ping_sent_tick s) (ping_last_ticks s) (ticks s).
Definition set_arp_cache (v : list arp_entry) (s : net) : net :=
  mkNet (n_dev s) (config s) (stats s) (ip_id s) v (udp_ports s) (ping_replies s) (ping_sent_tick s) (ping_last_ticks s) (ticks s).
Definition set_udp_ports (v : list udp_port) (s : net) : net :=
  mkNet (n_dev s) (config s) (stats s) (ip_id s) (arp_cache s) v (ping_replies s) (ping_sent_tick s) (ping_last_ticks s) (ticks s).
Definition set_ping_replies (v : Z) (s : net) : net :=
  mkNet (n_dev s) (config s) (stats s) (ip_id s) (arp_cache s) (udp_ports s) v (ping_sent_tick s) (ping_last_ticks s) (ticks s).
Definition set_ping_sent_tick (v : Z) (s : net) : net :=
  mkNet (n_dev s) (config s) (stats s) (ip_id s) (arp_cache s) (udp_ports s) (ping_replies s) v (ping_last_ticks s) (ticks s).
Definition set_ping_last_ticks (v : Z) (s : net) : net :=
  mkNet (n_dev s) (config s) (stats s) (ip_id s) (arp_cache s) (udp_ports s) (ping_replies s) (ping_sent_tick s) v (ticks s).
Definition set_ticks (v : Z) (s : net) : net :=
  mkNet (n_dev s) (config s) (stats s) (ip_id s) (arp_cache s) (udp_ports s) (ping_replies s) (ping_sent_tick s) (ping_last_ticks s) v.

Definition count (f : net_stats -> Z) (set : Z -> net_stats -> net_stats) (s : net) : net :=
  set_stats (set (u32 (f (stats s) + 1)) (stats s)) s.

(** ** The ARP cache *)

(** The slot [arp_store] takes: the entry for [ip], else the first free one,
    else the one with the least stamp. *)
Definition arp_slot (ip : Z) (c : list arp_entry) : Z :=
  match find_up 16 0 (fun i => a_valid (zget c i) && (a_ip (zget c i) =? ip)) with
  | Some i => i
  | None =>
      match find_up 16 0 (fun i => negb (a_valid (zget c i))) with
      | Some i => i
      | None => for_up 15 1 (fun i slot => if a_stamp (zget c i) <? a_stamp (zget c slot)
                                           then i else slot) 0
      end
  end.

Definition arp_store (ip : Z) (mac : list Z) (s : net) : net :=
  let i := arp_slot ip (arp_cache s) in
  set_arp_cache (zset (arp_cache s) i (mkArp ip (zslice 0 ETH_ALEN mac) (ticks s) true)) s.

Definition arp_find (ip : Z) (s : net) : option (list Z) * net :=
  let c := arp_cache s in
  match find_up 16 0 (fun i => a_valid (zget c i) && (a_ip (zget c i) =? ip)) with
  | None => (None, s)
  | Some i =>
      let e := zget c i in
      if ARP_TTL_TICKS <? u32 (ticks s - a_stamp e)
      then (None, set_arp_cache (zset c i (mkArp (a_ip e) (a_mac e) (a_stamp e) false)) s)
      else (Some (a_mac e), s)
  end.

Definition net_arp_entries (s : net) : Z := count_up 16 0 (fun i => a_valid (zget (arp_cache s) i)).

(** ** Sending *)

Definition broadcast_mac : list Z := [255; 255; 255; 255; 255; 255].

Definition eth_send (dest_mac : list Z) (type : Z) (payload : list Z) (s : net) : Z * net :=
  match n_dev s with
  | None => (-1, s)
  | Some dev =>
      if negb (nd_can_send dev) then (-1, s) else
      if ETH_MTU <? zlen payload then (-1, s) else
      let frame := zslice 0 ETH_ALEN dest_mac ++ zslice 0 ETH_ALEN (nd_mac dev)
                     ++ le16 (htons type) ++ payload in
      let '(r, hw) := hw_send frame (nd_hw dev) in
      let s := set_n_dev (Some (set_nd_hw hw dev)) s in
      (r, if r =? 0 then count tx_frames set_tx_frames s else s)
  end.

Definition dev_mac (s : net) : list Z :=
  match n_dev s with Some dev => zslice 0 ETH_ALEN (nd_mac dev) | None => [] end.

Definition arp_packet (oper : Z) (sender_mac : list Z) (sender_ip : Z) (target_mac : list Z)
    (target_ip : Z) : list Z :=
  le16 (htons 1) ++ le16 (htons ETH_P_IP) ++ [ETH_ALEN; 4] ++ le16 (htons oper)
    ++ sender_mac ++ le32 sender_ip ++ target_mac ++ le32 target_ip.

Definition arp_request (ip : Z) (s : net) : net :=
  let a := arp_packet 1 (dev_mac s) (htonl (c_ip (config s))) (replicate 6 0) (htonl ip) in
  let '(_, s) := eth_send broadcast_mac ETH_P_ARP a s in
  count tx_arp set_tx_arp s.

Definition net_arp_lookup (ip : Z) (s : net) : option (list Z) * net :=
  let '(mac, s) := arp_find ip s in
  match mac with
  | Some m => (Some m, s)
  | None => (None, match n_dev s with Some _ => arp_request ip s | None => s end)
  end.

(** [~mask] on 32 bits. *)
Definition lnot32 (v : Z) : Z := 4294967295 - v.

Definition next_hop_mac (dest_ip : Z) (s : net) : option (list Z) * net :=
  let mask := c_netmask (config s) in
  let our := Z.land (c_ip (config s)) mask in
  if (dest_ip =? BROADCAST)
     || (nz mask && (Z.lor dest_ip (lnot32 mask) =? BROADCAST) && (Z.land dest_ip mask =? our))
  then (Some broadcast_mac, s)
  else if nz mask && negb (Z.land dest_ip mask =? our) then
    if c_gateway (config s) =? 0
    then (None, count dropped_no_route set_dropped_no_route s)
    else net_arp_lookup (c_gateway (config s)) s
  else net_arp_lookup dest_ip s.

Definition ip_header (total id protocol checksum src dest : Z) : list Z :=
  [69; 0] ++ le16 (htons total) ++ le16 (htons id) ++ le16 (htons 16384) ++ [64; protocol]
    ++ le16 checksum ++ le32 (htonl src) ++ le32 (htonl dest).

Definition net_send_ip (dest_ip protocol : Z) (payload : list Z) (s : net) : Z * net :=
  match n_dev s with
  | None => (-1, s)
  | Some _ =>
      if ETH_MTU <? zlen payload + 20 then (-1, s) else
      let '(mac, s) := next_hop_mac dest_ip s in
      match mac with
      | None => (-2, s)
      | Some mac =>
          let total := u16 (20 + zlen payload) in
          let id := ip_id s in
          let s := set_ip_id (u16 (id + 1)) s in
          let h := ip_header total id protocol 0 (c_ip (config s)) dest_ip in
          let ck := htons (net_checksum h 0) in
          let packet := ip_header total id protocol ck (c_ip (config s)) dest_ip ++ payload in
          let '(r, s) := eth_send mac ETH_P_IP packet s in
          (r, if r =? 0 then count tx_ip set_tx_ip s else s)
      end
  end.

Definition net_send_udp (dest_ip src_port dest_port : Z) (payload : list Z) (s : net) : Z * net :=
  if NET_UDP_MAX_PAYLOAD <? zlen payload then (-1, s) else
  let datagram := le16 (htons src_port) ++ le16 (htons dest_port)
                    ++ le16 (htons (u16 (8 + zlen payload))) ++ le16 0 ++ payload in
  net_send_ip dest_ip IP_PROTO_UDP datagram s.

(** ** UDP delivery *)

Definition find_port (port : Z) (s : net) : option Z :=
  find_up 8 0 (fun i => u_bound (zget (udp_ports s) i) && (u_port (zget (udp_ports s) i) =? port)).

Definition set_port (i : Z) (p : udp_port) (s : net) : net :=
  set_udp_ports (zset (udp_ports s) i p) s.

Definition net_udp_bind (port : Z) (s : net) : bool * net :=
  match find_port port s with
  | Some _ => (true, s)
  | None =>
      match find_up 8 0 (fun i => negb (u_bound (zget (udp_ports s) i))) with
      | Some i => (true, set_port i (mkPort port true (u_q (zget (udp_ports s) i)) 0 0) s)
      | None => (false, s)
      end
  end.

Definition net_udp_unbind (port : Z) (s : net) : net :=
  match find_port port s with
  | Some i => let p := zget (udp_ports s) i in
              set_port i (mkPort (u_port p) false (u_q p) (u_head p) (u_tail p)) s
  | None => s
  end.

Definition net_udp_recv (port : Z) (s : net) : option udp_datagram * net :=
  match find_port port s with
  | None => (None, s)
  | Some i =>
      let p := zget (udp_ports s) i in
      if u_tail p =? u_head p then (None, s)
      else (Some (zget (u_q p) (u_tail p)),
            set_port i (mkPort (u_port p) (u_bound p) (u_q p) (u_head p)
                          ((u_tail p + 1) mod UDP_QUEUE)) s)
  end.

Definition net_udp_pending (port : Z) (s : net) : bool :=
  match find_port port s with
  | Some i => negb (u_tail (zget (udp_ports s) i) =? u_head (zget (udp_ports s) i))
  | None => false
  end.

Definition udp_deliver (src_ip src_port dest_port : Z) (data : list Z) (s : net) : net :=
  match find_port dest_port s with
  | None => s
  | Some i =>
      let p := zget (udp_ports s) i in
      let next := (u_head p + 1) mod UDP_QUEUE in
      if next =? u_tail p then s else
      let len := if NET_UDP_MAX_PAYLOAD <? zlen data then NET_UDP_MAX_PAYLOAD else zlen data in
      let g := mkDgram src_ip src_port (u16 len)
                 (zsplice 0 (zslice 0 len data) (d_data (zget (u_q p) (u_head p)))) in
      set_port i (mkPort (u_port p) (u_bound p) (zset (u_q p) (u_head p) g) next (u_tail p)) s
  end.

(** ** ICMP *)

Definition net_ping (dest_ip seq : Z) (s : net) : Z * net :=
  let body := (fun i => u8 (97 + i mod 26)) <$> seqZ 0 32 in
  let packet ck := [8; 0] ++ le16 ck ++ le16 (htons 20054) ++ le16 (htons seq) ++ body in
  let s := set_ping_sent_tick (ticks s) s in
  net_send_ip dest_ip IP_PROTO_ICMP (packet (htons (net_checksum (packet 0) 0))) s.

Definition icmp_receive (src_ip : Z) (data : list Z) (s : net) : net :=
  if zlen data <? 8 then s else
  if zget data 0 =? 0 then
    set_ping_last_ticks (u32 (ticks s - ping_sent_tick s))
      (set_ping_replies (u32 (ping_replies s + 1)) s)
  else if zget data 0 =? 8 then
    if ETH_MTU <? zlen data then s else
    let reply ck := zsplice 2 (le16 ck) (zset data 0 0) in
    snd (net_send_ip src_ip IP_PROTO_ICMP (reply (htons (net_checksum (reply 0) 0))) s)
  else s.

(** ** Receiving *)

Definition arp_receive (data : list Z) (s : net) : net :=
  if zlen data <? 28 then s else
  if negb (ntohs (rd16 data 2) =? ETH_P_IP) || negb (zget data 5 =? 4) then s else
  let sender := ntohl (rd32 data 14) in
  let target := ntohl (rd32 data 24) in
  let sender_mac := zslice 8 ETH_ALEN data in
  let s := if nz sender then arp_store sender sender_mac s else s in
  if (ntohs (rd16 data 6) =? 1) && c_configured (config s) && (target =? c_ip (config s)) then
    let r := arp_packet 2 (dev_mac s) (htonl (c_ip (config s))) sender_mac (rd32 data 14) in
    let '(_, s) := eth_send sender_mac ETH_P_ARP r s in
    count tx_arp set_tx_arp s
  else s.

(** A segment for TCP: source, destination, bytes. *)
Definition upcall : Type := option (Z * Z * list Z).

Definition ip_receive (data : list Z) (s : net) : net * upcall :=
  if zlen data <? 20 then (s, None) else
  if negb (Z.shiftr (zget data 0) 4 =? 4) then (s, None) else
  let hdr_len := Z.land (zget data 0) 15 * 4 in
  if (hdr_len <? 20) || (zlen data <? hdr_len) then (s, None) else
  if negb (net_checksum (zslice 0 hdr_len data) 0 =? 0)
  then (count dropped_checksum set_dropped_checksum s, None) else
  let total := ntohs (rd16 data 2) in
  if (total <? hdr_len) || (zlen data <? total) then (s, None) else
  let src := ntohl (rd32 data 12) in
  let dest := ntohl (rd32 data 16) in
  let mask := c_netmask (config s) in
  if c_configured (config s) && negb (dest =? c_ip (config s)) && negb (dest =? BROADCAST)
     && negb (nz mask && (Z.lor dest (lnot32 mask) =? BROADCAST))
  then (s, None) else
  let payload := zslice hdr_len (total - hdr_len) data in
  let protocol := zget data 9 in
  if protocol =? IP_PROTO_ICMP then
    (icmp_receive src payload (count rx_icmp set_rx_icmp s), None)
  else if protocol =? IP_PROTO_UDP then
    let s := count rx_udp set_rx_udp s in
    if zlen payload <? 8 then (s, None) else
    let ulen := ntohs (rd16 payload 4) in
    if (ulen <? 8) || (zlen payload <? ulen) then (s, None) else
    (udp_deliver src (ntohs (rd16 payload 0)) (ntohs (rd16 payload 2))
       (zslice 8 (ulen - 8) payload) s, None)
  else if protocol =? IP_PROTO_TCP then
    (count rx_tcp set_rx_tcp s, Some (src, dest, payload))
  else (count rx_other set_rx_other s, None).

(** The card's driver calls this, so there is a card. *)
Definition netdev_receive (frame : list Z) (s : net) : net * upcall :=
  match n_dev s with
  | None => (s, None)
  | Some d =>
      if zlen frame <? ETH_HDR_LEN then (s, None) else
      let d := set_nd_rx_bytes (u32 (nd_rx_bytes d + zlen frame))
                 (set_nd_rx_packets (u32 (nd_rx_packets d + 1)) d) in
      let s := count rx_frames set_rx_frames (set_n_dev (Some d) s) in
      let payload := zslice ETH_HDR_LEN (zlen frame - ETH_HDR_LEN) frame in
      let type := ntohs (rd16 frame 12) in
      if type =? ETH_P_ARP then (arp_receive payload (count rx_arp set_rx_arp s), None)
      else if type =? ETH_P_IP then ip_receive payload (count rx_ip set_rx_ip s)
      else (count rx_other set_rx_other s, None)
  end.

(** ** The device register and the configuration *)

Definition netdev_register (d : netdev) (s : net) : net := set_n_dev (Some d) s.

Definition net_set_config (ip mask gw dns : Z) (s : net) : net :=
  set_config (mkConfig ip mask gw dns (nz ip)) s.

Definition net_available (s : net) : bool :=
  match n_dev s with Some d => nd_up d | None => false end.

(** ** The abstract queues *)

Definition dgram_view (g : udp_datagram) : Z * Z * list Z :=
  (d_src_ip g, d_src_port g, zslice 0 (d_len g) (d_data g)).

Definition port_queue (p : udp_port) : list (Z * Z * list Z) :=
  dgram_view <$> ring_seq UDP_QUEUE (u_q p) (u_head p) (u_tail p).

(** The datagrams waiting at a bound port, oldest first. *)
Definition queue_of (port : Z) (s : net) : option (list (Z * Z * list Z)) :=
  match find_port port s with
  | Some i => Some (port_queue (zget (udp_ports s) i))
  | None => None
  end.

Record port_ok (p : udp_port) : Prop := {
  po_q : zlen (u_q p) = UDP_QUEUE;
  po_data : Forall (fun g => zlen (d_data g) = NET_UDP_MAX_PAYLOAD) (u_q p);
  po_head : 0 <= u_head p < UDP_QUEUE;
  po_tail : 0 <= u_tail p < UDP_QUEUE
}.

Definition ports_ok (s : net) : Prop :=
  zlen (udp_ports s) = UDP_PORTS /\ Forall port_ok (udp_ports s).

(** ** Ports *)

Lemma find_port_Some port s i :
  find_port port s = Some i ->
  0 <= i < UDP_PORTS /\ u_bound (zget (udp_ports s) i) = true /\
  u_port (zget (udp_ports s) i) = port.
Proof. intros (Hi & Hp & _)%find_up_Some. zbool. split; [unfold UDP_PORTS; lia|done]. Qed.

(** Replacing a port by one with the same number and binding. *)
Lemma find_port_set port i p s :
  ports_ok s -> 0 <= i < UDP_PORTS -> u_port p = u_port (zget (udp_ports s) i) ->
  u_bound p = u_bound (zget (udp_ports s) i) -> find_port port (set_port i p s) = find_port port s.
Proof.
  intros [Hl _] Hi Hpt Hb. apply find_up_ext. intros j Hj. unfold set_port. simpl.
  rewrite zget_zset by lia. by destruct (Z.eqb_spec i j) as [<-|]; [rewrite Hpt, Hb|].
Qed.

Lemma queue_of_set port i p s :
  ports_ok s -> 0 <= i < UDP_PORTS -> u_port p = u_port (zget (udp_ports s) i) ->
  u_bound p = u_bound (zget (udp_ports s) i) ->
  queue_of port (set_port i p s) =
    match find_port port s with
    | Some j => Some (port_queue (if i =? j then p else zget (udp_ports s) j))
    | None => None
    end.
Proof.
  intros Hs Hi Hpt Hb. unfold queue_of. rewrite find_port_set by done.
  destruct (find_port port s) as [j|] eqn:Hj; [|done].
  apply find_port_Some in Hj as [Hj _]. unfold set_port. simpl.
  rewrite zget_zset by (destruct Hs; lia). done.
Qed.

Lemma set_port_ok i p s : ports_ok s -> port_ok p -> ports_ok (set_port i p s).
Proof.
  intros [Hl HF] Hp. split; [unfold set_port; simpl; by rewrite zlen_zset|].
  by apply zset_Forall.
Qed.

Lemma ports_get s i : ports_ok s -> 0 <= i < UDP_PORTS -> port_ok (zget (udp_ports s) i).
Proof. intros [Hl HF] Hi. apply (zget_Forall port_ok); [done|lia]. Qed.

(** The port is found at one index only, so two numbers found at the same
    index are the same. *)
Lemma find_port_inj port port' s i :
  find_port port s = Some i -> find_port port' s = Some i -> port = port'.
Proof. intros (_ & _ & <-)%find_port_Some (_ & _ & <-)%find_port_Some. done. Qed.

Lemma udp_queue_size : 1 < UDP_QUEUE.
Proof. unfold UDP_QUEUE. lia. Qed.

Lemma port_queue_len p : port_ok p -> zlen (port_queue p) = ring_len UDP_QUEUE (u_head p) (u_tail p).
Proof.
  intros Hp. unfold port_queue, zlen. rewrite length_fmap. apply ring_seq_len, udp_queue_size.
Qed.

(** Taking the oldest datagram. *)
Lemma port_queue_pop p :
  port_ok p -> u_tail p <> u_head p ->
  let p' := mkPort (u_port p) (u_bound p) (u_q p) (u_head p) ((u_tail p + 1) mod UDP_QUEUE) in
  port_ok p' /\ port_queue p = dgram_view (zget (u_q p) (u_tail p)) :: port_queue p'.
Proof.
  intros Hp Hne. cbv zeta. split; [destruct Hp; split; try done; simpl; by apply Z.mod_pos_bound|].
  unfold port_queue. simpl.
  by rewrite (proj1 (ring_pop UDP_QUEUE udp_queue_size (u_q p) _ _ (po_head _ Hp) (po_tail _ Hp) Hne)).
Qed.

(** Adding a datagram to a port that is not full. *)
Lemma port_queue_push p g :
  port_ok p -> (u_head p + 1) mod UDP_QUEUE <> u_tail p -> zlen (d_data g) = NET_UDP_MAX_PAYLOAD ->
  let p' := mkPort (u_port p) (u_bound p) (zset (u_q p) (u_head p) g)
              ((u_head p + 1) mod UDP_QUEUE) (u_tail p) in
  port_ok p' /\ port_queue p' = port_queue p ++ [dgram_view g] /\ zlen (port_queue p) < 3.
Proof.
  intros Hp Hne Hg. cbv zeta. rewrite port_queue_len by done.
  destruct (ring_step UDP_QUEUE udp_queue_size _ _ (po_head _ Hp) (po_tail _ Hp) Hne) as [_ Hlt].
  split; [|split; [|exact Hlt]].
  - split; simpl; [rewrite zlen_zset; apply Hp|apply zset_Forall; [apply Hp|done]
      |by apply Z.mod_pos_bound|apply Hp].
  - unfold port_queue. simpl. rewrite ring_push by (done || apply Hp || apply udp_queue_size). by rewrite fmap_app.
Qed.

Lemma udp_deliver_spec src sport dport data s :
  ports_ok s -> zlen data <= NET_UDP_MAX_PAYLOAD ->
  ports_ok (udp_deliver src sport dport data s) /\
  forall q, queue_of q (udp_deliver src sport dport data s) =
    match queue_of q s with
    | Some l => Some (if (q =? dport) && (zlen l <? 3) then l ++ [(src, sport, data)] else l)
    | None => None
    end.
Proof.
  intros Hs Hd. unfold udp_deliver. destruct (find_port dport s) as [i|] eqn:Hi.
  2: { split; [done|]. intros q. destruct (Z.eqb_spec q dport) as [->|].
       - unfold queue_of. by rewrite Hi.
       - by destruct (queue_of q s). }
  pose proof (find_port_Some _ _ _ Hi) as (Hir & Hb & Hpt).
  pose proof (ports_get s i Hs Hir) as Hp. set (p := zget (udp_ports s) i) in *.
  destruct (Z.eqb_spec ((u_head p + 1) mod UDP_QUEUE) (u_tail p)) as [Hf|Hf].
  { split; [done|]. intros q. unfold queue_of. destruct (find_port q s) as [j|] eqn:Hj; [|done].
    destruct (Z.eqb_spec q dport) as [->|]; [|done].
    assert (j = i) as -> by congruence. fold p. rewrite port_queue_len by done.
    rewrite (ring_full UDP_QUEUE udp_queue_size _ _ (po_head _ Hp) Hf).
    change (UDP_QUEUE - 1 <? 3) with false. by rewrite andb_false_r. }
  replace (if NET_UDP_MAX_PAYLOAD <? zlen data then NET_UDP_MAX_PAYLOAD else zlen data) with (zlen data)
    by (destruct (Z.ltb_spec NET_UDP_MAX_PAYLOAD (zlen data)); lia).
  set (g := mkDgram _ _ _ _).
  assert (zlen (d_data (zget (u_q p) (u_head p))) = NET_UDP_MAX_PAYLOAD) as Hgd.
  { apply (zget_Forall (fun g => zlen (d_data g) = NET_UDP_MAX_PAYLOAD)); [apply Hp|].
    rewrite (po_q _ Hp). apply Hp. }
  pose proof (zlen_nonneg data).
  assert (zslice 0 (zlen data) data = data) as Hsl by (apply zslice_all; lia).
  assert (zlen (d_data g) = NET_UDP_MAX_PAYLOAD /\ dgram_view g = (src, sport, data)) as [Hgl Hgv].
  { split; [simpl; rewrite Hsl, zlen_zsplice; lia|].
    unfold dgram_view, g. simpl. unfold NET_UDP_MAX_PAYLOAD in *. rewrite Hsl, u16_small by lia.
    f_equal. unfold zsplice. simpl. by apply zslice_app_l. }
  destruct (port_queue_push p g Hp Hf Hgl) as (Hp' & Hq' & Hlt). set (p' := mkPort _ _ _ _ _) in *.
  split; [by apply set_port_ok|]. intros q. rewrite queue_of_set by done. unfold queue_of.
  destruct (find_port q s) as [j|] eqn:Hj; [|done]. f_equal.
  destruct (Z.eqb_spec i j) as [<-|Hne].
  - rewrite (find_port_inj _ _ _ _ Hj Hi), Z.eqb_refl, Hq', Hgv. fold p.
    by rewrite (proj2 (Z.ltb_lt _ _) Hlt).
  - destruct (Z.eqb_spec q dport) as [->|]; [congruence|done].
Qed.

Lemma net_udp_recv_spec port s :
  ports_ok s ->
  let '(r, s') := net_udp_recv port s in
  ports_ok s' /\
  match queue_of port s with
  | Some (g :: l) => (dgram_view <$> r) = Some g /\
      forall q, queue_of q s' = if q =? port then Some l else queue_of q s
  | _ => r = None /\ s' = s
  end.
Proof.
  intros Hs. unfold net_udp_recv, queue_of at 1. destruct (find_port port s) as [i|] eqn:Hi; [|done].
  pose proof (find_port_Some _ _ _ Hi) as (Hir & Hb & Hpt).
  pose proof (ports_get s i Hs Hir) as Hp. set (p := zget (udp_ports s) i) in *.
  destruct (Z.eqb_spec (u_tail p) (u_head p)) as [He|Hne].
  { split; [done|]. unfold port_queue. rewrite He, ring_empty by apply udp_queue_size. done. }
  destruct (port_queue_pop p Hp Hne) as [Hp' Hq]. rewrite Hq. set (p' := mkPort _ _ _ _ _) in *.
  split; [by apply set_port_ok|]. split; [done|]. intros q. rewrite queue_of_set by done.
  unfold queue_of. destruct (find_port q s) as [j|] eqn:Hj.
  - destruct (Z.eqb_spec i j) as [<-|Hne'].
    + rewrite (find_port_inj _ _ _ _ Hj Hi), Z.eqb_refl. done.
    + destruct (Z.eqb_spec q port) as [->|]; [congruence|done].
  - destruct (Z.eqb_spec q port) as [->|]; [congruence|done].
Qed.

(** ** An IP packet, built and taken apart *)

Definition ip_packet (id protocol src dest : Z) (payload : list Z) : list Z :=
  let h ck := ip_header (u16 (20 + zlen payload)) id protocol ck src dest in
  h (htons (net_checksum (h 0) 0)) ++ payload.

Lemma ip_header_split total id protocol ck src dest :
  ip_header total id protocol ck src dest =
    ([69; 0] ++ le16 (htons total) ++ le16 (htons id) ++ le16 (htons 16384) ++ [64; protocol])
      ++ le16 ck ++ (le32 (htonl src) ++ le32 (htonl dest)).
Proof. reflexivity. Qed.

Lemma ip_header_verifies total id protocol src dest :
  is_byte protocol ->
  net_checksum (ip_header total id protocol
    (htons (net_checksum (ip_header total id protocol 0 src dest) 0)) src dest) 0 = 0.
Proof.
  intros Hp. rewrite !ip_header_split. apply net_checksum_fill; try done; try lia.
  - repeat apply Forall_app_2; try apply le16_is_byte; repeat constructor; unfold is_byte; try lia; apply Hp.
  - apply Forall_app_2; apply le32_is_byte.
Qed.

(** What [ip_receive] reads of a packet. *)
Lemma ip_packet_fields id protocol src dest p :
  is_byte protocol -> 0 <= src < 2 ^ 32 -> 0 <= dest < 2 ^ 32 -> zlen p <= 1480 ->
  let k := ip_packet id protocol src dest p in
  zlen k = 20 + zlen p /\ zget k 0 = 69 /\ zget k 9 = protocol /\
  net_checksum (zslice 0 20 k) 0 = 0 /\ ntohs (rd16 k 2) = 20 + zlen p /\
  ntohl (rd32 k 12) = src /\ ntohl (rd32 k 16) = dest /\ zslice 20 (zlen p) k = p.
Proof.
  intros Hpr Hs Hd Hl. cbv zeta. unfold ip_packet. pose proof (zlen_nonneg p).
  set (total := u16 (20 + zlen p)). assert (total = 20 + zlen p) as Ht by (apply u16_small; lia).
  set (ck := htons _).
  assert (zlen (ip_header total id protocol ck src dest) = 20) as H20 by done.
  split; [rewrite zlen_app; lia|]. split; [done|]. split; [done|].
  split; [rewrite zslice_app_l by done; by apply ip_header_verifies|].
  split; [rewrite <-Ht; exact (ntohs_rd total ltac:(lia))|].
  split; [exact (ntohl_rd src Hs)|]. split; [exact (ntohl_rd dest Hd)|].
  rewrite <-(Z.add_0_r 20), <-H20, zslice_app_r by lia. apply zslice_all. lia.
Qed.

(** Whether the host takes a packet for [dest]. *)
Definition takes (dest : Z) (s : net) : bool :=
  let mask := c_netmask (config s) in
  negb (c_configured (config s)) || (dest =? c_ip (config s)) || (dest =? BROADCAST)
    || (nz mask && (Z.lor dest (lnot32 mask) =? BROADCAST)).

Lemma ip_receive_packet id protocol src dest p s :
  is_byte protocol -> 0 <= src < 2 ^ 32 -> 0 <= dest < 2 ^ 32 -> zlen p <= 1480 ->
  takes dest s = true ->
  ip_receive (ip_packet id protocol src dest p) s =
    if protocol =? IP_PROTO_ICMP then (icmp_receive src p (count rx_icmp set_rx_icmp s), None)
    else if protocol =? IP_PROTO_UDP then
      let s := count rx_udp set_rx_udp s in
      if zlen p <? 8 then (s, None) else
      let ulen := ntohs (rd16 p 4) in
      if (ulen <? 8) || (zlen p <? ulen) then (s, None) else
      (udp_deliver src (ntohs (rd16 p 0)) (ntohs (rd16 p 2)) (zslice 8 (ulen - 8) p) s, None)
    else if protocol =? IP_PROTO_TCP then (count rx_tcp set_rx_tcp s, Some (src, dest, p))
    else (count rx_other set_rx_other s, None).
Proof.
  intros Hpr Hs Hd Hl Htk.
  destruct (ip_packet_fields id protocol src dest p Hpr Hs Hd Hl)
    as (Hlen & H0 & H9 & Hck & Htot & Hsrc & Hdst & Hpay).
  pose proof (zlen_nonneg p). unfold ip_receive. set (k := ip_packet _ _ _ _ _) in *.
  rewrite H0, H9, Hlen, Htot, Hsrc, Hdst.
  change (Z.shiftr 69 4 =? 4) with true. change (Z.land 69 15 * 4) with 20. cbn [negb].
  rewrite (proj2 (Z.ltb_ge (20 + zlen p) 20)), Hck by lia. cbn [orb Z.ltb Z.compare Pos.compare Pos.compare_cont].
  change (20 <? 20) with false. cbn [orb]. rewrite (proj2 (Z.ltb_ge (20 + zlen p) (20 + zlen p))) by lia.
  change (0 =? 0) with true. cbn [negb orb].
  replace (20 + zlen p - 20) with (zlen p) by lia. rewrite Hpay.
  unfold takes in Htk. destruct (c_configured (config s)); [|done]. cbn [negb orb andb] in Htk |- *.
  destruct (dest =? c_ip (config s)); [done|]. destruct (dest =? BROADCAST); [done|].
  cbn [orb negb andb] in Htk |- *. by rewrite Htk.
Qed.

(** ** Sending, when the next hop is known *)

Definition can_send (s : net) : Prop :=
  exists d, n_dev s = Some d /\ nd_can_send d = true /\ zlen (nd_mac d) = ETH_ALEN.

Definition eth_frame (dest_mac src_mac : list Z) (type : Z) (payload : list Z) : list Z :=
  dest_mac ++ src_mac ++ le16 (htons type) ++ payload.

Lemma net_send_ip_sends dest protocol p mac s d :
  n_dev s = Some d -> nd_can_send d = true -> zlen (nd_mac d) = ETH_ALEN -> zlen mac = ETH_ALEN ->
  zlen p <= 1480 -> next_hop_mac dest s = (Some mac, s) ->
  let frame := eth_frame mac (nd_mac d) ETH_P_IP (ip_packet (ip_id s) protocol (c_ip (config s)) dest p) in
  let '(r, hw) := hw_send frame (nd_hw d) in
  exists s', net_send_ip dest protocol p s = (r, s') /\ n_dev s' = Some (set_nd_hw hw d) /\
    udp_ports s' = udp_ports s /\ config s' = config s /\ arp_cache s' = arp_cache s.
Proof.
  intros Hd Hc Hm Hmac Hl Hhop. cbv zeta. unfold net_send_ip. rewrite Hd.
  pose proof (zlen_nonneg p). rewrite (proj2 (Z.ltb_ge ETH_MTU (zlen p + 20))) by (unfold ETH_MTU; lia).
  rewrite Hhop. unfold eth_send. cbn [n_dev set_ip_id]. rewrite Hd, Hc. cbn [negb].
  change (ip_header ?a ?b ?c ?k (c_ip (config (set_ip_id ?v s))) ?e) with (ip_header a b c k (c_ip (config s)) e).
  set (k := ip_header _ _ _ _ _ _ ++ p).
  assert (zlen k = 20 + zlen p) as Hk by (unfold k; rewrite zlen_app; done).
  rewrite (proj2 (Z.ltb_ge ETH_MTU (zlen k))) by (unfold ETH_MTU; lia).
  rewrite !zslice_all by lia. unfold eth_frame.
  change (ip_packet (ip_id s) protocol (c_ip (config s)) dest p) with k.
  destruct (hw_send _ _) as [r hw]. destruct (r =? 0); eexists; (split; [done|]; done).
Qed.

(** A datagram as [net_send_udp] builds it. *)
Definition udp_packet (sport dport : Z) (data : list Z) : list Z :=
  le16 (htons sport) ++ le16 (htons dport) ++ le16 (htons (u16 (8 + zlen data))) ++ le16 0 ++ data.

Lemma udp_packet_fields sport dport data :
  0 <= sport < 2 ^ 16 -> 0 <= dport < 2 ^ 16 -> zlen data <= NET_UDP_MAX_PAYLOAD ->
  let p := udp_packet sport dport data in
  zlen p = 8 + zlen data /\ ntohs (rd16 p 0) = sport /\ ntohs (rd16 p 2) = dport /\
  ntohs (rd16 p 4) = 8 + zlen data /\ zslice 8 (zlen data) p = data.
Proof.
  intros Hs Hd Hl. cbv zeta. unfold udp_packet. pose proof (zlen_nonneg data). unfold NET_UDP_MAX_PAYLOAD in Hl.
  set (len := u16 (8 + zlen data)). assert (len = 8 + zlen data) as Hlen by (apply u16_small; lia).
  split; [rewrite !zlen_app; change (zlen (le16 _)) with 2; lia|].
  split; [exact (ntohs_rd sport Hs)|]. split; [exact (ntohs_rd dport Hd)|].
  split; [rewrite <-Hlen; exact (ntohs_rd len ltac:(lia))|].
  set (pre := le16 (htons sport) ++ le16 (htons dport) ++ le16 (htons len) ++ le16 0).
  change (le16 (htons sport) ++ le16 (htons dport) ++ le16 (htons len) ++ le16 0 ++ data)
    with (pre ++ data).
  change (zslice 8) with (@zslice Z (zlen pre + 0)). rewrite zslice_app_r by lia. apply zslice_all. lia.
Qed.

(** ** Runs of deliveries and receptions *)

Inductive uop := UDeliver (src sport dport : Z) (data : list Z) | URecv (port : Z).

Definition udp_op (o : uop) (s : net) : option (Z * Z * list Z) * net :=
  match o with
  | UDeliver src sport dport data => (None, udp_deliver src sport dport data s)
  | URecv port => let '(g, s') := net_udp_recv port s in (dgram_view <$> g, s')
  end.

(** The abstract ports: three datagrams each, the newest dropped when full. *)
Definition queue_op (o : uop) (A : Z -> option (list (Z * Z * list Z)))
    : option (Z * Z * list Z) * (Z -> option (list (Z * Z * list Z))) :=
  match o with
  | UDeliver src sport dport data =>
      (None, fun q => match A q with
                      | Some l => Some (if (q =? dport) && (zlen l <? 3)
                                        then l ++ [(src, sport, data)] else l)
                      | None => None
                      end)
  | URecv port =>
      match A port with
      | Some (g :: l) => (Some g, fun q => if q =? port then Some l else A q)
      | _ => (None, A)
      end
  end.

Fixpoint udp_run (l : list uop) (s : net) : list (option (Z * Z * list Z)) * net :=
  match l with
  | [] => ([], s)
  | o :: l' => let '(r, s) := udp_op o s in let '(rs, s) := udp_run l' s in (r :: rs, s)
  end.

Fixpoint queue_runs (l : list uop) (A : Z -> option (list (Z * Z * list Z)))
    : list (option (Z * Z * list Z)) * (Z -> option (list (Z * Z * list Z))) :=
  match l with
  | [] => ([], A)
  | o :: l' => let '(r, A) := queue_op o A in let '(rs, A) := queue_runs l' A in (r :: rs, A)
  end.

Definition fits (o : uop) : Prop :=
  match o with UDeliver _ _ _ data => zlen data <= NET_UDP_MAX_PAYLOAD | URecv _ => True end.

Lemma udp_op_spec o s A :
  ports_ok s -> fits o -> (forall q, A q = queue_of q s) ->
  let '(r, s') := udp_op o s in
  ports_ok s' /\ fst (queue_op o A) = r /\ forall q, snd (queue_op o A) q = queue_of q s'.
Proof.
  intros Hs Hf HA. destruct o as [src sport dport data|port]; simpl.
  - destruct (udp_deliver_spec src sport dport data s Hs Hf) as [Hs' Hq].
    split; [done|]. split; [done|]. intros q. by rewrite Hq, HA.
  - pose proof (net_udp_recv_spec port s Hs) as Hsp. destruct (net_udp_recv port s) as [g s'].
    destruct Hsp as [Hs' Hsp]. split; [done|]. rewrite HA.
    destruct (queue_of port s) as [[|x l]|]; [by destruct Hsp as [-> ->]| |by destruct Hsp as [-> ->]].
    destruct Hsp as [-> Hq]. split; [done|]. intros q. simpl. by rewrite Hq, <-HA.
Qed.

(** ** The ARP cache *)

Definition arp_has (ip : Z) (e : arp_entry) (s : net) : Prop :=
  exists i, 0 <= i < ARP_ENTRIES /\ zget (arp_cache s) i = e /\ a_valid e = true /\ a_ip e = ip.

(** At most one valid entry for an address. *)
Definition arp_ok (s : net) : Prop :=
  zlen (arp_cache s) = ARP_ENTRIES /\
  forall i j, 0 <= i < ARP_ENTRIES -> 0 <= j < ARP_ENTRIES ->
    a_valid (zget (arp_cache s) i) = true -> a_valid (zget (arp_cache s) j) = true ->
    a_ip (zget (arp_cache s) i) = a_ip (zget (arp_cache s) j) -> i = j.

(** What is known of the slot [arp_store] picks. *)
Lemma arp_slot_spec ip c :
  let i := arp_slot ip c in
  0 <= i < ARP_ENTRIES /\
  (a_valid (zget c i) = true /\ a_ip (zget c i) = ip \/
   (forall j, 0 <= j < ARP_ENTRIES -> a_valid (zget c j) = true -> a_ip (zget c j) <> ip) /\
   (a_valid (zget c i) = false \/
    forall j, 0 <= j < ARP_ENTRIES -> a_valid (zget c j) = true /\ a_stamp (zget c i) <= a_stamp (zget c j))).
Proof.
  unfold arp_slot, ARP_ENTRIES. cbv zeta.
  destruct (find_up 16 0 (fun i => a_valid (zget c i) && (a_ip (zget c i) =? ip))) as [i|] eqn:Hf.
  { apply find_up_Some in Hf as (Hi & Hp & _). zbool. split; [lia|]. by left. }
  assert (forall j, 0 <= j < 16 -> a_valid (zget c j) = true -> a_ip (zget c j) <> ip) as Hno.
  { intros j Hj Hv He. rewrite find_up_None in Hf. specialize (Hf j ltac:(lia)).
    by rewrite Hv, He, Z.eqb_refl in Hf. }
  destruct (find_up 16 0 (fun i => negb (a_valid (zget c i)))) as [i|] eqn:Hg.
  { apply find_up_Some in Hg as (Hi & Hp & _). zbool. split; [lia|]. right. split; [done|by left]. }
  assert (forall j, 0 <= j < 16 -> a_valid (zget c j) = true) as Hall.
  { intros j Hj. rewrite find_up_None in Hg. specialize (Hg j ltac:(lia)). by apply negb_false_iff. }
  set (body := fun i slot => _).
  pose proof (for_up_ind (fun k slot => 0 <= slot < k /\
    forall j, 0 <= j < k -> a_stamp (zget c slot) <= a_stamp (zget c j)) body 15 1 0) as H.
  change (1 + Z.of_nat 15) with 16 in H. destruct H as [Hr Hmin].
  - split; [lia|]. intros j Hj. by assert (j = 0) as -> by lia.
  - intros k t Hk [Hr Hmin]. unfold body. destruct (Z.ltb_spec (a_stamp (zget c k)) (a_stamp (zget c t))).
    + split; [lia|]. intros j Hj. destruct (decide (j = k)) as [->|]; [lia|].
      specialize (Hmin j ltac:(lia)). lia.
    + split; [lia|]. intros j Hj. destruct (decide (j = k)) as [->|]; [lia|]. apply Hmin. lia.
  - split; [done|]. right. split; [done|]. right. intros j Hj. split; [by apply Hall|by apply Hmin].
Qed.

Lemma arp_find_spec ip s :
  match find_up 16 0 (fun i => a_valid (zget (arp_cache s) i) && (a_ip (zget (arp_cache s) i) =? ip)) with
  | Some i => arp_has ip (zget (arp_cache s) i) s
  | None => forall e, ~ arp_has ip e s
  end.
Proof.
  destruct (find_up _ _ _) as [i|] eqn:Hf.
  - apply find_up_Some in Hf as (Hi & Hp & _). zbool. exists i. unfold ARP_ENTRIES. split; [lia|done].
  - intros e (j & Hj & <- & Hv & He). rewrite find_up_None in Hf. unfold ARP_ENTRIES in Hj.
    specialize (Hf j ltac:(lia)). by rewrite Hv, He, Z.eqb_refl in Hf.
Qed.

Lemma arp_has_unique ip e e' s : arp_ok s -> arp_has ip e s -> arp_has ip e' s -> e = e'.
Proof.
  intros [_ Hu] (i & Hi & <- & Hv & He) (j & Hj & <- & Hv' & He').
  f_equal. apply Hu; (done || congruence).
Qed.

Lemma arp_store_ok ip mac s : arp_ok s -> arp_ok (arp_store ip mac s).
Proof.
  intros [Hl Hu]. unfold arp_store, arp_ok. simpl. rewrite zlen_zset. split; [done|].
  destruct (arp_slot_spec ip (arp_cache s)) as [Hi Hslot]. set (k := arp_slot _ _) in *.
  set (e := mkArp _ _ _ _). set (c := arp_cache s) in *.
  assert (forall j, 0 <= j < ARP_ENTRIES -> j <> k -> a_valid (zget c j) = true -> a_ip (zget c j) <> ip) as Hno.
  { intros j Hj Hne Hv He. destruct Hslot as [[Hkv Hke]|[Hno _]]; [|by eapply Hno].
    apply Hne. apply Hu; try done. congruence. }
  intros i j Hir Hjr. rewrite !zget_zset by lia.
  destruct (Z.eqb_spec k i) as [<-|], (Z.eqb_spec k j) as [<-|]; simpl; try done.
  - intros _ Hv He. exfalso. by apply (Hno j).
  - intros Hv _ He. exfalso. by apply (Hno i).
  - by apply Hu.
Qed.

(** What a card that received a frame counts. *)
Definition frame_in (len : Z) (d : netdev) (s : net) : net :=
  count rx_ip set_rx_ip (count rx_frames set_rx_frames
    (set_n_dev (Some (set_nd_rx_bytes (u32 (nd_rx_bytes d + len))
                        (set_nd_rx_packets (u32 (nd_rx_packets d + 1)) d))) s)).

Lemma netdev_receive_ip dmac smac k s d :
  n_dev s = Some d -> zlen dmac = ETH_ALEN -> zlen smac = ETH_ALEN ->
  let frame := eth_frame dmac smac ETH_P_IP k in
  netdev_receive frame s = ip_receive k (frame_in (zlen frame) d s).
Proof.
  intros Hd Hm Hs. cbv zeta. unfold netdev_receive. rewrite Hd. unfold eth_frame.
  pose proof (zlen_nonneg k).
  assert (zlen (dmac ++ smac ++ le16 (htons ETH_P_IP)) = ETH_HDR_LEN) as Hh.
  { rewrite !zlen_app, Hm, Hs. done. }
  set (hdr := dmac ++ smac ++ le16 (htons ETH_P_IP)) in *.
  replace (dmac ++ smac ++ le16 (htons ETH_P_IP) ++ k) with (hdr ++ k) by (unfold hdr; by rewrite <-!app_assoc).
  rewrite zlen_app, Hh. rewrite (proj2 (Z.ltb_ge (ETH_HDR_LEN + zlen k) ETH_HDR_LEN)) by lia.
  replace (ETH_HDR_LEN + zlen k - ETH_HDR_LEN) with (zlen k) by lia.
  assert (zslice ETH_HDR_LEN (zlen k) (hdr ++ k) = k) as ->.
  { rewrite <-(Z.add_0_r ETH_HDR_LEN), <-Hh, zslice_app_r by lia. by apply zslice_all. }
  assert (ntohs (rd16 (hdr ++ k) 12) = ETH_P_IP) as ->; [|done].
  unfold hdr. rewrite <-!app_assoc, app_assoc.
  assert (zlen (dmac ++ smac) = 12) as <- by (rewrite zlen_app, Hm, Hs; done).
  rewrite rd16_le16 by apply htons_range. by apply htons_htons.
Qed.

Lemma ports_ok_frame len d s : ports_ok s -> ports_ok (frame_in len d s).
Proof. done. Qed.

(** What else a packet can leave unchanged. *)
Definition same_queues (s s' : net) : Prop :=
  udp_ports s' = udp_ports s /\ arp_cache s' = arp_cache s /\ config s' = config s.

(** ** The properties *)

(** A bound port is a queue of at most three datagrams: over any sequence
    of datagrams delivered and received, on any ports, every receive answers
    what the abstract queues answer, addresses and bytes intact, and a
    datagram that finds its queue full is the one dropped. *)
Theorem udp_ports_refine_queues l s A :
  ports_ok s -> Forall fits l -> (forall q, A q = queue_of q s) ->
  fst (udp_run l s) = fst (queue_runs l A) /\
  ports_ok (snd (udp_run l s)) /\
  forall q, snd (queue_runs l A) q = queue_of q (snd (udp_run l s)).
Proof.
  revert s A. induction l as [|o l IH]; intros s A Hs Hl HA; [done|].
  apply Forall_cons in Hl as [Ho Hl]. cbn [udp_run queue_runs].
  pose proof (udp_op_spec o s A Hs Ho HA) as Hsp. destruct (udp_op o s) as [r s'].
  destruct (queue_op o A) as [r' A']. destruct Hsp as (Hs' & <- & HA').
  specialize (IH s' A' Hs' Hl HA'). destruct (udp_run l s') as [rs s2].
  destruct (queue_runs l A') as [rs' A2]. simpl in *. destruct IH as (-> & ? & ?). done.
Qed.

(** C39: The ARP cache answers with what it last learnt, for two minutes: after
    a store the address resolves to the MAC stored until the entry expires,
    a lookup never answers with an expired entry, the cache never holds two
    valid entries for an address, and the only entry a store can evict is the
    oldest one of a full cache. *)
Theorem arp_cache_correct ip mac s :
  arp_ok s -> zlen mac = ETH_ALEN ->
  let s' := arp_store ip mac s in
  arp_ok s' /\
  (forall t, u32 (t - ticks s) <= ARP_TTL_TICKS -> fst (arp_find ip (set_ticks t s')) = Some mac) /\
  (forall ip' m, fst (arp_find ip' s) = Some m ->
     exists e, arp_has ip' e s /\ a_mac e = m /\ u32 (ticks s - a_stamp e) <= ARP_TTL_TICKS) /\
  (forall ip' e, ip' <> ip -> arp_has ip' e s -> arp_has ip' e s' \/
     forall i, 0 <= i < ARP_ENTRIES -> a_valid (zget (arp_cache s) i) = true /\
       a_ip (zget (arp_cache s) i) <> ip /\ a_stamp e <= a_stamp (zget (arp_cache s) i)).
Proof.
  intros Hok Hmac. cbv zeta. pose proof (arp_store_ok ip mac s Hok) as Hok'.
  destruct (arp_slot_spec ip (arp_cache s)) as [Hi Hslot]. destruct Hok as [Hl Hu].
  assert (zslice 0 ETH_ALEN mac = mac) as Hms by (apply zslice_all; lia).
  assert (arp_has ip (mkArp ip mac (ticks s) true) (arp_store ip mac s)) as Hhas.
  { exists (arp_slot ip (arp_cache s)). unfold arp_store. simpl. rewrite Hms.
    split; [done|]. split; [apply zget_zset_eq; lia|done]. }
  split; [done|]. split; [|split].
  - intros t Ht. unfold arp_find. cbn [arp_cache set_ticks ticks].
    pose proof (arp_find_spec ip (arp_store ip mac s)) as Hf. destruct (find_up _ _ _) as [i|].
    + rewrite (arp_has_unique _ _ _ _ Hok' Hf Hhas). simpl.
      by rewrite (proj2 (Z.ltb_ge _ _) Ht).
    + by destruct (Hf _ Hhas).
  - intros ip' m. unfold arp_find. pose proof (arp_find_spec ip' s) as Hf.
    destruct (find_up _ _ _) as [i|]; [|done].
    destruct (Z.ltb_spec ARP_TTL_TICKS (u32 (ticks s - a_stamp (zget (arp_cache s) i)))); [done|].
    simpl. intros [= <-]. eexists. split; [exact Hf|done].
  - intros ip' e Hne (j & Hj & He & Hv & Hip). set (k := arp_slot ip (arp_cache s)) in *.
    destruct (decide (k = j)) as [->|Hkj].
    + right. intros i Hir. destruct Hslot as [[_ Hk]|[Hno [Hk|Hmin]]]; [congruence|congruence|].
      destruct (Hmin i Hir) as [Hvi Hst]. rewrite He in Hst. split; [done|]. split; [by apply Hno|done].
    + left. exists j. unfold arp_store. simpl. fold k. rewrite zget_zset_ne by lia. done.
Qed.

(** Only a packet that is intact and for this host gets past [ip_receive]:
    anything that reaches a UDP queue, the ARP cache or TCP, or makes the
    host send, came in an IPv4 header that verifies, with lengths inside the
    frame, to an address the host takes, and TCP sees exactly the bytes the
    header announces. *)
Theorem ip_receive_only_ours data s :
  let '(s', up) := ip_receive data s in
  up <> None \/ udp_ports s' <> udp_ports s \/ n_dev s' <> n_dev s ->
  let hdr_len := Z.land (zget data 0) 15 * 4 in
  let total := ntohs (rd16 data 2) in
  Z.shiftr (zget data 0) 4 = 4 /\ 20 <= hdr_len <= total /\ total <= zlen data /\
  net_checksum (zslice 0 hdr_len data) 0 = 0 /\ takes (ntohl (rd32 data 16)) s = true /\
  match up with
  | Some (src, dest, seg) => src = ntohl (rd32 data 12) /\ dest = ntohl (rd32 data 16) /\
      zget data 9 = IP_PROTO_TCP /\ seg = zslice hdr_len (total - hdr_len) data /\
      zlen seg = total - hdr_len
  | None => True
  end.
Proof.
  unfold ip_receive.
  destruct (zlen data <? 20); [intros [?|[?|?]]; done|].
  destruct (Z.eqb_spec (Z.shiftr (zget data 0) 4) 4) as [Hver|]; [|intros [?|[?|?]]; done]. cbn [negb].
  set (hdr_len := Z.land (zget data 0) 15 * 4).
  destruct (Z.ltb_spec hdr_len 20); [intros [?|[?|?]]; done|].
  destruct (Z.ltb_spec (zlen data) hdr_len); [intros [?|[?|?]]; done|]. cbn [orb].
  destruct (Z.eqb_spec (net_checksum (zslice 0 hdr_len data) 0) 0) as [Hck|]; [|intros [?|[?|?]]; done].
  cbn [negb]. set (total := ntohs (rd16 data 2)).
  destruct (Z.ltb_spec total hdr_len); [intros [?|[?|?]]; done|].
  destruct (Z.ltb_spec (zlen data) total); [intros [?|[?|?]]; done|]. cbn [orb].
  destruct (c_configured (config s) && _ && _ && _) eqn:Htk; [intros [?|[?|?]]; done|].
  assert (takes (ntohl (rd32 data 16)) s = true) as Htakes.
  { unfold takes. destruct (c_configured (config s)), (_ =? c_ip (config s)), (_ =? BROADCAST), (nz _ && _); done. }
  assert (zlen (zslice hdr_len (total - hdr_len) data) = total - hdr_len) as Hseg by (apply zlen_zslice; lia).
  set (seg := zslice hdr_len (total - hdr_len) data) in *.
  destruct (zget data 9 =? IP_PROTO_ICMP); [done|].
  destruct (zget data 9 =? IP_PROTO_UDP); [repeat case_match; simplify_eq; done|].
  destruct (Z.eqb_spec (zget data 9) IP_PROTO_TCP); done.
Qed.
End net.

Arguments net : clear implicits.
Arguments netdev : clear implicits.

(** ** Two hosts on a wire *)

(** A card that puts every frame on a wire. *)
#[export] Instance wire_device : NetDevice (list (list Z)) := {| hw_send := fun f w => (0, w ++ [f]) |}.

Definition wire (s : net (list (list Z))) : list (list Z) :=
  match n_dev s with Some d => nd_hw d | None => [] end.

(** C38: From one host's [net_send_udp] to the other's queue: when the next
    hop is resolved, the datagram leaves as one Ethernet frame, and the host
    it is addressed to, fed that frame, queues the sender's address and port
    and exactly the payload (if the port is bound and its queue has room). *)
Theorem net_udp_end_to_end s r d mac d' dest sport dport data :
  n_dev s = Some d -> nd_can_send d = true -> zlen (nd_mac d) = ETH_ALEN -> zlen mac = ETH_ALEN ->
  next_hop_mac dest s = (Some mac, s) -> 0 <= c_ip (config s) < 2 ^ 32 -> 0 <= dest < 2 ^ 32 ->
  0 <= sport < 2 ^ 16 -> 0 <= dport < 2 ^ 16 -> zlen data <= NET_UDP_MAX_PAYLOAD ->
  n_dev r = Some d' -> takes dest r = true -> ports_ok r ->
  exists frame s', net_send_udp dest sport dport data s = (0, s') /\ wire s' = wire s ++ [frame] /\
    let '(r', up) := netdev_receive frame r in
    up = None /\ ports_ok r' /\
    forall q, queue_of q r' = match queue_of q r with
      | Some l => Some (if (q =? dport) && (zlen l <? 3) then l ++ [(c_ip (config s), sport, data)] else l)
      | None => None
      end.
Proof.
  intros Hd Hc Hm Hmac Hhop Hip Hdest Hsp Hdp Hl Hd' Htk Hpo.
  pose proof (udp_packet_fields sport dport data Hsp Hdp Hl) as (Hpl & Ps & Pd & Pl & Pdata).
  set (p := udp_packet sport dport data) in *. pose proof (zlen_nonneg data).
  assert (zlen p <= 1480) as Hp1480 by (unfold NET_UDP_MAX_PAYLOAD in Hl; lia).
  pose proof (net_send_ip_sends dest IP_PROTO_UDP p mac s d Hd Hc Hm Hmac Hp1480 Hhop) as Hsend.
  cbv zeta in Hsend. simpl in Hsend. destruct Hsend as (s' & Hs' & Hdev & _).
  eexists _, s'. split; [|split].
  - unfold net_send_udp. rewrite (proj2 (Z.ltb_ge _ _) Hl). exact Hs'.
  - unfold wire. rewrite Hdev, Hd. simpl. reflexivity.
  - rewrite (netdev_receive_ip _ _ _ r d' Hd' Hmac Hm).
    rewrite ip_receive_packet; [|unfold is_byte, IP_PROTO_UDP; lia|done|done|done|exact Htk].
    change (IP_PROTO_UDP =? IP_PROTO_ICMP) with false. change (IP_PROTO_UDP =? IP_PROTO_UDP) with true.
    cbv zeta iota. rewrite Ps, Pd, Pl, Hpl.
    rewrite (proj2 (Z.ltb_ge (8 + zlen data) 8)), (proj2 (Z.ltb_ge (8 + zlen data) (8 + zlen data))) by lia.
    cbn [orb]. replace (8 + zlen data - 8) with (zlen data) by lia. rewrite Pdata.
    split; [done|]. match goal with |- context [udp_deliver _ _ _ _ ?st] =>
      exact (udp_deliver_spec _ _ _ _ st Hpo Hl) end.
Qed.

(** ** Witnesses: two hosts of the subnet 10.0.2.0/24 *)

Definition demo_mac (k : Z) : list Z := [82; 84; 0; 0; 0; k].
Definition demo_ports : list udp_port :=
  mkPort 53 true (replicate 4 (mkDgram 0 0 0 (replicate (Z.to_nat 1472) 0))) 0 0
    :: replicate 7 (mkPort 0 false (replicate 4 (mkDgram 0 0 0 (replicate (Z.to_nat 1472) 0))) 0 0).
Definition demo_host (k : Z) : net (list (list Z)) :=
  mkNet (Some (mkDev (demo_mac k) true true 0 0 [])) (mkConfig (167772672 + k) 4294967040 0 0 true)
    (mkStats 0 0 0 0 0 0 0 0 0 0 0 0) 0
    (mkArp 167772675 (demo_mac 3) 100 true :: replicate 15 (mkArp 0 [] 0 false)) demo_ports 0 0 0 200.

Lemma demo_ports_ok k : ports_ok (demo_host k).
Proof.
  split; [done|]. unfold demo_host, demo_ports. cbn [udp_ports].
  assert (forall pt b, port_ok (mkPort pt b (replicate 4 (mkDgram 0 0 0 (replicate (Z.to_nat 1472) 0))) 0 0)) as Hp.
  { intros pt b. split; cbn [u_q u_head u_tail]; [done| |done|done].
    apply Forall_replicate. unfold zlen. cbn [d_data]. by rewrite length_replicate. }
  apply Forall_cons. split; [apply Hp|]. apply Forall_replicate, Hp.
Qed.

Lemma udp_ports_refine_queues_witness :
  fst (udp_run [UDeliver 1 2 53 [7; 8]; UDeliver 1 2 54 [9]; URecv 53; URecv 53] (demo_host 3))
    = fst (queue_runs [UDeliver 1 2 53 [7; 8]; UDeliver 1 2 54 [9]; URecv 53; URecv 53]
             (fun q => queue_of q (demo_host 3))) /\
  ports_ok (snd (udp_run [UDeliver 1 2 53 [7; 8]; UDeliver 1 2 54 [9]; URecv 53; URecv 53] (demo_host 3))) /\
  forall q, snd (queue_runs [UDeliver 1 2 53 [7; 8]; UDeliver 1 2 54 [9]; URecv 53; URecv 53]
    (fun q => queue_of q (demo_host 3))) q
    = queue_of q (snd (udp_run [UDeliver 1 2 53 [7; 8]; UDeliver 1 2 54 [9]; URecv 53; URecv 53] (demo_host 3))).
Proof.
  apply (udp_ports_refine_queues _ (demo_host 3) (fun q => queue_of q (demo_host 3))).
  - apply demo_ports_ok.
  - repeat (apply Forall_cons; split; [unfold fits, zlen, NET_UDP_MAX_PAYLOAD; simpl; (lia || exact I)|]).
    apply Forall_nil; exact I.
  - intros q. reflexivity.
Defined.

Lemma demo_arp_ok k : arp_ok (demo_host k).
Proof.
  split; [done|]. intros i j Hi Hj. unfold demo_host. cbn [arp_cache]. intros Hv Hv'.
  assert (forall x, 0 <= x < ARP_ENTRIES ->
    a_valid (zget (mkArp 167772675 (demo_mac 3) 100 true :: replicate 15 (mkArp 0 [] 0 false)) x) = true -> x = 0) as H0.
  { intros x Hx Hvx. destruct (decide (x = 0)); [done|]. exfalso.
    change (?a :: ?l) with ([a] ++ l) in Hvx.
    replace x with (zlen [mkArp 167772675 (demo_mac 3) 100 true] + (x - 1)) in Hvx by (unfold zlen; simpl; lia).
    rewrite zget_app_r, zget_replicate in Hvx by (unfold ARP_ENTRIES in Hx; lia). done. }
  intros _. by rewrite (H0 i Hi Hv), (H0 j Hj Hv').
Qed.

Lemma arp_cache_correct_witness :
  let s := demo_host 2 in
  let s' := arp_store 167772676 (demo_mac 4) s in
  arp_ok s' /\
  (forall t, u32 (t - ticks s) <= ARP_TTL_TICKS -> fst (arp_find 167772676 (set_ticks t s')) = Some (demo_mac 4)) /\
  (forall ip' m, fst (arp_find ip' s) = Some m ->
     exists e, arp_has ip' e s /\ a_mac e = m /\ u32 (ticks s - a_stamp e) <= ARP_TTL_TICKS) /\
  (forall ip' e, ip' <> 167772676 -> arp_has ip' e s -> arp_has ip' e s' \/
     forall i, 0 <= i < ARP_ENTRIES -> a_valid (zget (arp_cache s) i) = true /\
       a_ip (zget (arp_cache s) i) <> 167772676 /\ a_stamp e <= a_stamp (zget (arp_cache s) i)).
Proof. apply (arp_cache_correct 167772676 (demo_mac 4) (demo_host 2)); [apply demo_arp_ok|reflexivity]. Defined.

Lemma net_udp_end_to_end_witness :
  exists frame s', net_send_udp 167772675 4000 53 [1; 2; 3] (demo_host 2) = (0, s') /\
    wire s' = wire (demo_host 2) ++ [frame] /\
    let '(r', up) := netdev_receive frame (demo_host 3) in
    up = None /\ ports_ok r' /\
    forall q, queue_of q r' = match queue_of q (demo_host 3) with
      | Some l => Some (if (q =? 53) && (zlen l <? 3) then l ++ [(167772674, 4000, [1; 2; 3])] else l)
      | None => None
      end.
Proof.
  apply (net_udp_end_to_end (demo_host 2) (demo_host 3) (mkDev (demo_mac 2) true true 0 0 []) (demo_mac 3)
    (mkDev (demo_mac 3) true true 0 0 []) 167772675 4000 53 [1; 2; 3]);
    try reflexivity; try (simpl; lia); try (unfold zlen, NET_UDP_MAX_PAYLOAD; simpl; lia).
  apply demo_ports_ok.
Defined.

(** A packet for TCP from host 2 to host 3. *)
Definition demo_packet : list Z :=
  ip_packet 7 IP_PROTO_TCP 167772674 167772675 [1; 2; 3; 4].

Lemma ip_receive_only_ours_witness :
  let '(s', up) := ip_receive demo_packet (demo_host 3) in
  up <> None /\
  Z.shiftr (zget demo_packet 0) 4 = 4 /\ 20 <= Z.land (zget demo_packet 0) 15 * 4 <= ntohs (rd16 demo_packet 2) /\
  ntohs (rd16 demo_packet 2) <= zlen demo_packet /\
  net_checksum (zslice 0 (Z.land (zget demo_packet 0) 15 * 4) demo_packet) 0 = 0 /\
  takes (ntohl (rd32 demo_packet 16)) (demo_host 3) = true /\
  match up with
  | Some (src, dest, seg) => src = ntohl (rd32 demo_packet 12) /\ dest = ntohl (rd32 demo_packet 16) /\
      zget demo_packet 9 = IP_PROTO_TCP /\
      seg = zslice (Z.land (zget demo_packet 0) 15 * 4)
              (ntohs (rd16 demo_packet 2) - Z.land (zget demo_packet 0) 15 * 4) demo_packet /\
      zlen seg = ntohs (rd16 demo_packet 2) - Z.land (zget demo_packet 0) 15 * 4
  | None => True
  end.
Proof.
  pose proof (ip_receive_only_ours demo_packet (demo_host 3)) as H.
  assert (snd (ip_receive demo_packet (demo_host 3)) <> None) as Hup.
  { assert (match snd (ip_receive demo_packet (demo_host 3)) with Some _ => true | None => false end = true) as Hs
      by (vm_compute; reflexivity).
    destruct (snd (ip_receive demo_packet (demo_host 3))); discriminate. }
  destruct (ip_receive demo_packet (demo_host 3)) as [s' up].
  split; [exact Hup|]. apply H. left. exact Hup.
Defined.
