(* ===== verification/Tcp.v ===== *)
(** * TCP ([kernel/tcp.c])

    Four connections, a segment builder, a receive path that is one switch on
    the state, and a tick that acknowledges and retransmits.  The layer below
    is the interface [IpLayer] ([net_send_ip], the host's own address, the
    clock); [net_ip_layer] of [Udphost] is the one [Net] gives.  A connection is named by
    its index in the table, where the source has a pointer into it. *)

From S2P Require Import Prelude Ring Netwire Net.

Definition TCP_MAX_CONNECTIONS : Z := 4.
Definition TCP_RECV_BUFFER : Z := 65536.
Definition TCP_MSS : Z := 1460.
Definition TCP_MAX_LISTEN : Z := 4.
Definition TCP_FIN : Z := 1.
Definition TCP_SYN : Z := 2.
Definition TCP_RST : Z := 4.
Definition TCP_PSH : Z := 8.
Definition TCP_ACK : Z := 16.
Definition RTO_INITIAL_TICKS : Z := 100.
Definition RTO_MAX_TRIES : Z := 5.
Definition TCP_HDR : Z := 20.

Inductive tcp_state :=
  | TCP_CLOSED | TCP_LISTEN | TCP_SYN_SENT | TCP_SYN_RECEIVED | TCP_ESTABLISHED
  | TCP_FIN_WAIT_1 | TCP_FIN_WAIT_2 | TCP_CLOSING | TCP_TIME_WAIT | TCP_CLOSE_WAIT
  | TCP_LAST_ACK.

#[export] Instance tcp_state_eq_dec : EqDecision tcp_state.
Proof. solve_decision. Defined.

Class IpLayer (N : Type) := {
  ip_send : Z -> Z -> list Z -> N -> Z * N;     (* destination, protocol, payload *)
  local_ip : N -> Z;
  ip_configured : N -> bool;
  pit_ticks : N -> Z;
  ip_send_keeps d p l n : local_ip (snd (ip_send d p l n)) = local_ip n /\
    pit_ticks (snd (ip_send d p l n)) = pit_ticks n
}.

(** ** Connections *)

Record tcp_conn := mkConn {
  in_use : bool;
  state : tcp_state;
  remote_ip : Z;
  remote_port : Z;
  local_port : Z;
  snd_next : Z (* next sequence number to send *);
  snd_unacked : Z (* oldest byte not yet acknowledged *);
  rcv_next : Z (* next sequence number expected *);
  pending : list Z (* the one segment in flight *);
  pending_len : Z;
  pending_flags : Z;
  pending_seq : Z;
  rto_deadline : Z;
  rto_ticks : Z;
  tries : Z;
  recv : list Z;
  recv_head : Z;
  recv_tail : Z;
  peer_finished : bool;
  ack_pending : bool;
  accepted : bool;
  last_advertised : Z;
  time_wait_until : Z
}.

Definition set_in_use (v : bool) (s : tcp_conn) : tcp_conn :=
  mkConn v (state s) (remote_ip s) (remote_port s) (local_port s) (snd_next s) (snd_unacked s) (rcv_next s) (pending s) (pending_len s) (pending_flags s) (pending_seq s) (rto_deadline s) (rto_ticks s) (tries s) (recv s) (recv_head s) (recv_tail s) (peer_finished s) (ack_pending s) (accepted s) (last_advertised s) (time_wait_until s).
Definition set_state (v : tcp_state) (s : tcp_conn) : tcp_conn :=
  mkConn (in_use s) v (remote_ip s) (remote_port s) (local_port s) (snd_next s) (snd_unacked s) (rcv_next s) (pending s) (pending_len s) (pending_flags s) (pending_seq s) (rto_deadline s) (rto_ticks s) (tries s) (recv s) (recv_head s) (recv_tail s) (peer_finished s) (ack_pending s) (accepted s) (last_advertised s) (time_wait_until s).
Definition set_snd_next (v : Z) (s : tcp_conn) : tcp_conn :=
  mkConn (in_use s) (state s) (remote_ip s) (remote_port s) (local_port s) v (snd_unacked s) (rcv_next s) (pending s) (pending_len s) (pending_flags s) (pending_seq s) (rto_deadline s) (rto_ticks s) (tries s) (recv s) (recv_head s) (recv_tail s) (peer_finished s) (ack_pending s) (accepted s) (last_advertised s) (time_wait_until s).
Definition set_snd_unacked (v : Z) (s : tcp_conn) : tcp_conn :=
  mkConn (in_use s) (state s) (remote_ip s) (remote_port s) (local_port s) (snd_next s) v (rcv_next s) (pending s) (pending_len s) (pending_flags s) (pending_seq s) (rto_deadline s) (rto_ticks s) (tries s) (recv s) (recv_head s) (recv_tail s) (peer_finished s) (ack_pending s) (accepted s) (last_advertised s) (time_wait_until s).
Definition set_rcv_next (v : Z) (s : tcp_conn) : tcp_conn :=
  mkConn (in_use s) (state s) (remote_ip s) (remote_port s) (local_port s) (snd_next s) (snd_unacked s) v (pending s) (pending_len s) (pending_flags s) (pending_seq s) (rto_deadline s) (rto_ticks s) (tries s) (recv s) (recv_head s) (recv_tail s) (peer_finished s) (ack_pending s) (accepted s) (last_advertised s) (time_wait_until s).
Definition set_pending (v : list Z) (s : tcp_conn) : tcp_conn :=
  mkConn (in_use s) (state s) (remote_ip s) (remote_port s) (local_port s) (snd_next s) (snd_unacked s) (rcv_next s) v (pending_len s) (pending_flags s) (pending_seq s) (rto_deadline s) (rto_ticks s) (tries s) (recv s) (recv_head s) (recv_tail s) (peer_finished s) (ack_pending s) (accepted s) (last_advertised s) (time_wait_until s).
Definition set_pending_len (v : Z) (s : tcp_conn) : tcp_conn :=
  mkConn (in_use s) (state s) (remote_ip s) (remote_port s) (local_port s) (snd_next s) (snd_unacked s) (rcv_next s) (pending s) v (pending_flags s) (pending_seq s) (rto_deadline s) (rto_ticks s) (tries s) (recv s) (recv_head s) (recv_tail s) (peer_finished s) (ack_pending s) (accepted s) (last_advertised s) (time_wait_until s).
Definition set_pending_flags (v : Z) (s : tcp_conn) : tcp_conn :=
  mkConn (in_use s) (state s) (remote_ip s) (remote_port s) (local_port s) (snd_next s) (snd_unacked s) (rcv_next s) (pending s) (pending_len s) v (pending_seq s) (rto_deadline s) (rto_ticks s) (tries s) (recv s) (recv_head s) (recv_tail s) (peer_finished s) (ack_pending s) (accepted s) (last_advertised s) (time_wait_until s).
Definition set_pending_seq (v : Z) (s : tcp_conn) : tcp_conn :=
  mkConn (in_use s) (state s) (remote_ip s) (remote_port s) (local_port s) (snd_next s) (snd_unacked s) (rcv_next s) (pending s) (pending_len s) (pending_flags s) v (rto_deadline s) (rto_ticks s) (tries s) (recv s) (recv_head s) (recv_tail s) (peer_finished s) (ack_pending s) (accepted s) (last_advertised s) (time_wait_until s).
Definition set_rto_deadline (v : Z) (s : tcp_conn) : tcp_conn :=
  mkConn (in_use s) (state s) (remote_ip s) (remote_port s) (local_port s) (snd_next s) (snd_unacked s) (rcv_next s) (pending s) (pending_len s) (pending_flags s) (pending_seq s) v (rto_ticks s) (tries s) (recv s) (recv_head s) (recv_tail s) (peer_finished s) (ack_pending s) (accepted s) (last_advertised s) (time_wait_until s).
Definition set_rto_ticks (v : Z) (s : tcp_conn) : tcp_conn :=
  mkConn (in_use s) (state s) (remote_ip s) (remote_port s) (local_port s) (snd_next s) (snd_unacked s) (rcv_next s) (pending s) (pending_len s) (pending_flags s) (pending_seq s) (rto_deadline s) v (tries s) (recv s) (recv_head s) (recv_tail s) (peer_finished s) (ack_pending s) (accepted s) (last_advertised s) (time_wait_until s).
Definition set_tries (v : Z) (s : tcp_conn) : tcp_conn :=
  mkConn (in_use s) (state s) (remote_ip s) (remote_port s) (local_port s) (snd_next s) (snd_unacked s) (rcv_next s) (pending s) (pending_len s) (pending_flags s) (pending_seq s) (rto_deadline s) (rto_ticks s) v (recv s) (recv_head s) (recv_tail s) (peer_finished s) (ack_pending s) (accepted s) (last_advertised s) (time_wait_until s).
Definition set_recv (v : list Z) (s : tcp_conn) : tcp_conn :=
  mkConn (in_use s) (state s) (remote_ip s) (remote_port s) (local_port s) (snd_next s) (snd_unacked s) (rcv_next s) (pending s) (pending_len s) (pending_flags s) (pending_seq s) (rto_deadline s) (rto_ticks s) (tries s) v (recv_head s) (recv_tail s) (peer_finished s) (ack_pending s) (accepted s) (last_advertised s) (time_wait_until s).
Definition set_recv_head (v : Z) (s : tcp_conn) : tcp_conn :=
  mkConn (in_use s) (state s) (remote_ip s) (remote_port s) (local_port s) (snd_next s) (snd_unacked s) (rcv_next s) (pending s) (pending_len s) (pending_flags s) (pending_seq s) (rto_deadline s) (rto_ticks s) (tries s) (recv s) v (recv_tail s) (peer_finished s) (ack_pending s) (accepted s) (last_advertised s) (time_wait_until s).
Definition set_recv_tail (v : Z) (s : tcp_conn) : tcp_conn :=
  mkConn (in_use s) (state s) (remote_ip s) (remote_port s) (local_port s) (snd_next s) (snd_unacked s) (rcv_next s) (pending s) (pending_len s) (pending_flags s) (pending_seq s) (rto_deadline s) (rto_ticks s) (tries s) (recv s) (recv_head s) v (peer_finished s) (ack_pending s) (accepted s) (last_advertised s) (time_wait_until s).
Definition set_peer_finished (v : bool) (s : tcp_conn) : tcp_conn :=
  mkConn (in_use s) (state s) (remote_ip s) (remote_port s) (local_port s) (snd_next s) (snd_unacked s) (rcv_next s) (pending s) (pending_len s) (pending_flags s) (pending_seq s) (rto_deadline s) (rto_ticks s) (tries s) (recv s) (recv_head s) (recv_tail s) v (ack_pending s) (accepted s) (last_advertised s) (time_wait_until s).
Definition set_ack_pending (v : bool) (s : tcp_conn) : tcp_conn :=
  mkConn (in_use s) (state s) (remote_ip s) (remote_port s) (local_port s) (snd_next s) (snd_unacked s) (rcv_next s) (pending s) (pending_len s) (pending_flags s) (pending_seq s) (rto_deadline s) (rto_ticks s) (tries s) (recv s) (recv_head s) (recv_tail s) (peer_finished s) v (accepted s) (last_advertised s) (time_wait_until s).
Definition set_accepted (v : bool) (s : tcp_conn) : tcp_conn :=
  mkConn (in_use s) (state s) (remote_ip s) (remote_port s) (local_port s) (snd_next s) (snd_unacked s) (rcv_next s) (pending s) (pending_len s) (pending_flags s) (pending_seq s) (rto_deadline s) (rto_ticks s) (tries s) (recv s) (recv_head s) (recv_tail s) (peer_finished s) (ack_pending s) v (last_advertised s) (time_wait_until s).
Definition set_last_advertised (v : Z) (s : tcp_conn) : tcp_conn :=
  mkConn (in_use s) (state s) (remote_ip s) (remote_port s) (local_port s) (snd_next s) (snd_unacked s) (rcv_next s) (pending s) (pending_len s) (pending_flags s) (pending_seq s) (rto_deadline s) (rto_ticks s) (tries s) (recv s) (recv_head s) (recv_tail s) (peer_finished s) (ack_pending s) (accepted s) v (time_wait_until s).
Definition set_time_wait_until (v : Z) (s : tcp_conn) : tcp_conn :=
  mkConn (in_use s) (state s) (remote_ip s) (remote_port s) (local_port s) (snd_next s) (snd_unacked s) (rcv_next s) (pending s) (pending_len s) (pending_flags s) (pending_seq s) (rto_deadline s) (rto_ticks s) (tries s) (recv s) (recv_head s) (recv_tail s) (peer_finished s) (ack_pending s) (accepted s) (last_advertised s) v.

(** [kmemset(c, 0, sizeof( *c))]. *)
Definition zero_conn : tcp_conn :=
  mkConn false TCP_CLOSED 0 0 0 0 0 0 (replicate (Z.to_nat TCP_MSS) 0) 0 0 0 0 0 0
    (replicate (Z.to_nat TCP_RECV_BUFFER) 0) 0 0 false false false 0 0.

#[export] Instance tcp_conn_inhabited : Inhabited tcp_conn := populate zero_conn.

(** ** Sequence arithmetic and the receive ring *)

Definition seq_le (a b : Z) : bool := i32 (a - b) <=? 0.

Definition recv_free (c : tcp_conn) : Z :=
  TCP_RECV_BUFFER - 1 - u32 (recv_head c - recv_tail c) mod TCP_RECV_BUFFER.

Fixpoint recv_push (c : tcp_conn) (data : list Z) : tcp_conn :=
  match data with
  | [] => c
  | b :: data' =>
      let next := (recv_head c + 1) mod TCP_RECV_BUFFER in
      if next =? recv_tail c then c                       (* full: the window lied *)
      else recv_push (set_recv_head next (set_recv (zset (recv c) (recv_head c) b) c)) data'
  end.

(** ** Segments *)

Definition pseudo_sum (src_ip dest_ip len : Z) : Z :=
  u32 (Z.land (Z.shiftr src_ip 16) 65535 + Z.land src_ip 65535
       + Z.land (Z.shiftr dest_ip 16) 65535 + Z.land dest_ip 65535 + IP_PROTO_TCP + len).

Definition segment_checksum (src_ip dest_ip : Z) (segment : list Z) : Z :=
  net_checksum segment (pseudo_sum src_ip dest_ip (zlen segment)).

Definition tcp_header (src_port dest_port seq ack flags window checksum : Z) : list Z :=
  le16 (htons src_port) ++ le16 (htons dest_port) ++ le32 (htonl seq) ++ le32 (htonl ack)
    ++ [80; flags] ++ le16 (htons window) ++ le16 checksum ++ le16 0.

Definition tcp_segment (src_ip dest_ip src_port dest_port seq ack flags window : Z)
    (data : list Z) : list Z :=
  let h ck := tcp_header src_port dest_port seq ack flags window ck ++ data in
  h (htons (segment_checksum src_ip dest_ip (h 0))).

(** What the receive path reads of a segment. *)
Record seg := mkSeg {
  sg_src_port : Z; sg_dest_port : Z; sg_seq : Z; sg_ack : Z; sg_flags : Z; sg_data : list Z
}.

Section tcp.
  Context {N : Type} `{!IpLayer N}.

Record tcp := mkTcp {
  conns : list tcp_conn;
  next_port : Z;
  listening : list Z;
  bytes_received : Z;
  retransmits : Z;
  tick_calls : Z;
  ack_ok : Z;
  ack_failed : Z;
  net_of : N (* the layer below *)
}.

Definition set_conns (v : list tcp_conn) (s : tcp) : tcp :=
  mkTcp v (next_port s) (listening s) (bytes_received s) (retransmits s) (tick_calls s) (ack_ok s) (ack_failed s) (net_of s).
Definition set_next_port (v : Z) (s : tcp) : tcp :=
  mkTcp (conns s) v (listening s) (bytes_received s) (retransmits s) (tick_calls s) (ack_ok s) (ack_failed s) (net_of s).
Definition set_listening (v : list Z) (s : tcp) : tcp :=
  mkTcp (conns s) (next_port s) v (bytes_received s) (retransmits s) (tick_calls s) (ack_ok s) (ack_failed s) (net_of s).
Definition set_bytes_received (v : Z) (s : tcp) : tcp :=
  mkTcp (conns s) (next_port s) (listening s) v (retransmits s) (tick_calls s) (ack_ok s) (ack_failed s) (net_of s).
Definition set_retransmits (v : Z) (s : tcp) : tcp :=
  mkTcp (conns s) (next_port s) (listening s) (bytes_received s) v (tick_calls s) (ack_ok s) (ack_failed s) (net_of s).
Definition set_tick_calls (v : Z) (s : tcp) : tcp :=
  mkTcp (conns s) (next_port s) (listening s) (bytes_received s) (retransmits s) v (ack_ok s) (ack_failed s) (net_of s).
Definition set_ack_ok (v : Z) (s : tcp) : tcp :=
  mkTcp (conns s) (next_port s) (listening s) (bytes_received s) (retransmits s) (tick_calls s) v (ack_failed s) (net_of s).
Definition set_ack_failed (v : Z) (s : tcp) : tcp :=
  mkTcp (conns s) (next_port s) (listening s) (bytes_received s) (retransmits s) (tick_calls s) (ack_ok s) v (net_of s).
Definition set_net_of (v : N) (s : tcp) : tcp :=
  mkTcp (conns s) (next_port s) (listening s) (bytes_received s) (retransmits s) (tick_calls s) (ack_ok s) (ack_failed s) v.

Definition conn (s : tcp) (i : Z) : tcp_conn := zget (conns s) i.
Definition put (i : Z) (c : tcp_conn) (s : tcp) : tcp := set_conns (zset (conns s) i c) s.
Definition ticks_now (s : tcp) : Z := pit_ticks (net_of s).

(** ** Sending *)

Definition send_segment (i flags seq : Z) (data : list Z) (s : tcp) : Z * tcp :=
  if TCP_MSS <? zlen data then (-1, s) else
  let c := conn s i in
  let window := recv_free c in
  let window := if 65535 <? window then 65535 else window in
  let s := put i (set_last_advertised window c) s in
  let segment := tcp_segment (local_ip (net_of s)) (remote_ip c) (local_port c) (remote_port c)
                   seq (rcv_next c) flags window data in
  let '(r, n) := ip_send (remote_ip c) IP_PROTO_TCP segment (net_of s) in
  (r, set_net_of n s).

Definition send_tracked (i flags : Z) (data : list Z) (s : tcp) : Z * tcp :=
  let c := conn s i in
  let c := set_pending (zsplice 0 data (pending c))
             (set_pending_len (zlen data) (set_pending_flags flags (set_pending_seq (snd_next c) c))) in
  let '(r, s) := send_segment i flags (pending_seq c) data (put i c s) in
  let c := conn s i in
  let c := set_snd_next (u32 (snd_next c + zlen data)) c in
  let c := if nz (Z.land flags (Z.lor TCP_SYN TCP_FIN))
           then set_snd_next (u32 (snd_next c + 1)) c else c in
  let c := set_rto_ticks RTO_INITIAL_TICKS c in
  let c := set_rto_deadline (u32 (ticks_now s + rto_ticks c)) c in
  (r, put i (set_tries 0 c) s).

(** True when the acknowledgement left the machine. *)
Definition send_ack (i : Z) (s : tcp) : bool * tcp :=
  let '(r, s) := send_segment i TCP_ACK (snd_next (conn s i)) [] s in (r =? 0, s).

Definition send_reset (dest_ip dest_port src_port seq : Z) (s : tcp) : tcp :=
  let segment := tcp_segment (local_ip (net_of s)) dest_ip src_port dest_port seq 0 TCP_RST 0 [] in
  let '(_, n) := ip_send dest_ip IP_PROTO_TCP segment (net_of s) in
  set_net_of n s.

(** ** Receiving *)

Definition find_conn (rip rport lport : Z) (s : tcp) : option Z :=
  find_up 4 0 (fun i => in_use (conn s i) && (remote_ip (conn s i) =? rip)
                        && (remote_port (conn s i) =? rport) && (local_port (conn s i) =? lport)).

Definition is_listening (port : Z) (s : tcp) : bool :=
  match find_up 4 0 (fun i => zget (listening s) i =? port) with Some _ => true | None => false end.

Definition initial_seq (s : tcp) : Z := u32 (1314258944 + ticks_now s * 64).

Definition free_conn (s : tcp) : option Z := find_up 4 0 (fun i => negb (in_use (conn s i))).

Definition open_conn (st : tcp_state) (rip rport lport rcv isn : Z) : tcp_conn :=
  mkConn true st rip rport lport isn isn rcv (pending zero_conn) 0 0 0 0 0 0 (recv zero_conn) 0 0
    false false false 0 0.

Definition accept_syn (src_ip src_port dest_port their_seq : Z) (s : tcp) : option tcp :=
  match free_conn s with
  | None => None
  | Some i =>
      let c := open_conn TCP_SYN_RECEIVED src_ip src_port dest_port (u32 (their_seq + 1)) (initial_seq s) in
      Some (snd (send_tracked i (Z.lor TCP_SYN TCP_ACK) [] (put i c s)))
  end.

(** [(th->flags & f)] as a condition. *)
Definition has (flags f : Z) : bool := nz (Z.land flags f).

(** An acknowledgement of what is in flight retires it. *)
Definition take_ack (g : seg) (c : tcp_conn) : tcp_conn :=
  if has (sg_flags g) TCP_ACK && seq_le (snd_unacked c) (sg_ack g) && seq_le (sg_ack g) (snd_next c) then
    let c := set_snd_unacked (sg_ack g) c in
    let end_ := u32 (pending_seq c + pending_len c
                     + (if has (pending_flags c) (Z.lor TCP_SYN TCP_FIN) then 1 else 0)) in
    if seq_le end_ (sg_ack g) then set_pending_flags 0 (set_pending_len 0 c) else c
  else c.

(** In-order data: all of the segment or none of it. *)
Definition take_data (g : seg) (c : tcp_conn) : tcp_conn * Z :=
  if zlen (sg_data g) =? 0 then (c, 0) else
  let '(c, got) :=
    if (sg_seq g =? rcv_next c) && (zlen (sg_data g) <=? recv_free c)
    then let c := recv_push c (sg_data g) in
         (set_rcv_next (u32 (rcv_next c + zlen (sg_data g))) c, zlen (sg_data g))
    else (c, 0) in
  (set_ack_pending true c, got).

Definition take_fin (now : Z) (g : seg) (c : tcp_conn) : tcp_conn :=
  if has (sg_flags g) TCP_FIN && seq_le (sg_seq g) (rcv_next c) then
    let c := set_ack_pending true (set_peer_finished true (set_rcv_next (u32 (rcv_next c + 1)) c)) in
    match state c with
    | TCP_ESTABLISHED => set_state TCP_CLOSE_WAIT c
    | TCP_FIN_WAIT_1 | TCP_FIN_WAIT_2 => set_time_wait_until (u32 (now + 200)) (set_state TCP_TIME_WAIT c)
    | _ => c
    end
  else if has (sg_flags g) TCP_ACK && bool_decide (state c = TCP_FIN_WAIT_1)
          && seq_le (snd_next c) (sg_ack g)
  then set_state TCP_FIN_WAIT_2 c else c.

(** A segment for the connection [c]: what becomes of [c], and the bytes it took. *)
Definition conn_receive (now : Z) (g : seg) (c : tcp_conn) : tcp_conn * Z :=
  if has (sg_flags g) TCP_RST then (set_state TCP_CLOSED c, 0) else
  let c := take_ack g c in
  match state c with
  | TCP_SYN_RECEIVED =>
      if has (sg_flags g) TCP_ACK
      then (set_pending_flags 0 (set_pending_len 0 (set_state TCP_ESTABLISHED c)), 0) else (c, 0)
  | TCP_SYN_SENT =>
      if Z.land (sg_flags g) (Z.lor TCP_SYN TCP_ACK) =? Z.lor TCP_SYN TCP_ACK
      then (set_ack_pending true (set_state TCP_ESTABLISHED (set_rcv_next (u32 (sg_seq g + 1)) c)), 0)
      else (c, 0)
  | TCP_ESTABLISHED | TCP_FIN_WAIT_1 | TCP_FIN_WAIT_2 =>
      let '(c, got) := take_data g c in (take_fin now g c, got)
  | TCP_LAST_ACK => if has (sg_flags g) TCP_ACK then (set_state TCP_CLOSED c, 0) else (c, 0)
  | _ => (c, 0)
  end.

Definition parse_segment (src_ip dest_ip : Z) (l : list Z) : option seg :=
  if zlen l <? TCP_HDR then None else
  let hdr_len := Z.shiftr (zget l 12) 4 * 4 in
  if (hdr_len <? TCP_HDR) || (zlen l <? hdr_len) then None else
  if negb (segment_checksum src_ip dest_ip l =? 0) then None else
  Some (mkSeg (ntohs (rd16 l 0)) (ntohs (rd16 l 2)) (ntohl (rd32 l 4)) (ntohl (rd32 l 8))
          (zget l 13) (zslice hdr_len (zlen l - hdr_len) l)).

Definition tcp_input (src_ip : Z) (g : seg) (s : tcp) : tcp :=
  match find_conn src_ip (sg_src_port g) (sg_dest_port g) s with
  | Some i =>
      let '(c, got) := conn_receive (ticks_now s) g (conn s i) in
      set_bytes_received (u32 (bytes_received s + got)) (put i c s)
  | None =>
      let refuse :=
        if has (sg_flags g) TCP_RST then s
        else send_reset src_ip (sg_src_port g) (sg_dest_port g) (sg_ack g) s in
      if (Z.land (sg_flags g) (Z.lor TCP_SYN TCP_ACK) =? TCP_SYN) && is_listening (sg_dest_port g) s
      then match accept_syn src_ip (sg_src_port g) (sg_dest_port g) (sg_seq g) s with
           | Some s' => s'
           | None => refuse
           end
      else refuse
  end.

Definition tcp_receive (src_ip dest_ip : Z) (l : list Z) (s : tcp) : tcp :=
  match parse_segment src_ip dest_ip l with
  | Some g => tcp_input src_ip g s
  | None => s
  end.

(** ** The public interface *)

Definition tcp_connect (dest_ip dest_port : Z) (s : tcp) : Z * tcp :=
  if negb (ip_configured (net_of s)) then (-1, s) else
  match free_conn s with
  | None => (-2, s)
  | Some i =>
      let port := next_port s in
      let next := u16 (port + 1) in
      let s := set_next_port (if next <? 49152 then 49152 else next) s in
      let c := open_conn TCP_SYN_SENT dest_ip dest_port port 0 (initial_seq s) in
      (i, snd (send_tracked i TCP_SYN [] (put i c s)))
  end.

Definition handle_ok (h : Z) (s : tcp) : bool :=
  (0 <=? h) && (h <? TCP_MAX_CONNECTIONS) && in_use (conn s h).

Definition tcp_state_of (h : Z) (s : tcp) : tcp_state :=
  if handle_ok h s then state (conn s h) else TCP_CLOSED.

Definition tcp_send (h : Z) (data : list Z) (s : tcp) : Z * tcp :=
  if negb (handle_ok h s) || negb (bool_decide (state (conn s h) = TCP_ESTABLISHED)) then (-1, s) else
  if nz (pending_len (conn s h)) || nz (pending_flags (conn s h)) then (0, s) else
  let take_ := if zlen data <? TCP_MSS then zlen data else TCP_MSS in
  let '(r, s) := send_tracked h (Z.lor TCP_ACK TCP_PSH) (zslice 0 take_ data) s in
  (if r <? 0 then 0 else take_, s).

(** The copy loop of [tcp_recv]: the bytes taken and the new tail. *)
Fixpoint recv_loop (fuel : nat) (c : tcp_conn) (out : list Z) : list Z * tcp_conn :=
  match fuel with
  | O => (out, c)
  | S fuel' =>
      if recv_tail c =? recv_head c then (out, c)
      else recv_loop fuel' (set_recv_tail ((recv_tail c + 1) mod TCP_RECV_BUFFER) c)
             (out ++ [zget (recv c) (recv_tail c)])
  end.

Definition tcp_recv (h max : Z) (s : tcp) : Z * list Z * tcp :=
  if negb (handle_ok h s) then (-1, [], s) else
  let '(out, c) := recv_loop (Z.to_nat max) (conn s h) [] in
  let c := if nz (zlen out) && (u32 (last_advertised c + TCP_MSS) <=? recv_free c)
           then set_ack_pending true c else c in
  (zlen out, out, put h c s).

Definition tcp_eof (h : Z) (s : tcp) : bool :=
  if negb (handle_ok h s) then true
  else peer_finished (conn s h) && (recv_tail (conn s h) =? recv_head (conn s h)).

Definition tcp_close (h : Z) (s : tcp) : tcp :=
  if negb (handle_ok h s) then s else
  match state (conn s h) with
  | TCP_ESTABLISHED =>
      let s := snd (send_tracked h (Z.lor TCP_ACK TCP_FIN) [] s) in
      put h (set_state TCP_FIN_WAIT_1 (conn s h)) s
  | TCP_CLOSE_WAIT =>
      let s := snd (send_tracked h (Z.lor TCP_ACK TCP_FIN) [] s) in
      put h (set_state TCP_LAST_ACK (conn s h)) s
  | _ => put h (set_state TCP_CLOSED (set_in_use false (conn s h))) s
  end.

(** One connection's turn in [tcp_tick]. *)
Definition tick_ack (i : Z) (s : tcp) : tcp :=
  if ack_pending (conn s i) then
    let '(ok, s) := send_ack i (put i (set_ack_pending false (conn s i)) s) in
    if ok then set_ack_ok (u32 (ack_ok s + 1)) s
    else set_ack_failed (u32 (ack_failed s + 1)) (put i (set_ack_pending true (conn s i)) s)
  else s.

Definition tick_retransmit (now i : Z) (s : tcp) : tcp :=
  let c := conn s i in
  if (pending_len c =? 0) && (pending_flags c =? 0) then s else
  if now <? rto_deadline c then s else
  let c := set_tries (u32 (tries c + 1)) c in
  if RTO_MAX_TRIES <? tries c then put i (set_state TCP_CLOSED c) s else
  let s := set_retransmits (u32 (retransmits s + 1)) (put i c s) in
  let '(_, s) := send_segment i (pending_flags c) (pending_seq c)
                   (zslice 0 (pending_len c) (pending c)) s in
  let c := conn s i in
  let c := set_rto_ticks (u32 (rto_ticks c * 2)) c in
  put i (set_rto_deadline (u32 (now + rto_ticks c)) c) s.

Definition tick_conn (now i : Z) (s : tcp) : tcp :=
  let c := conn s i in
  if negb (in_use c) then s else
  if bool_decide (state c = TCP_CLOSED)
     || (bool_decide (state c = TCP_TIME_WAIT) && (time_wait_until c <=? now))
  then put i (set_in_use false c) s
  else tick_retransmit now i (tick_ack i s).

Definition tcp_tick (s : tcp) : tcp :=
  let now := ticks_now s in
  for_up 4 0 (tick_conn now) (set_tick_calls (u32 (tick_calls s + 1)) s).

Definition tcp_listen (port : Z) (s : tcp) : Z * tcp :=
  if port =? 0 then (-1, s) else
  if is_listening port s then (0, s) else
  match find_up 4 0 (fun i => zget (listening s) i =? 0) with
  | Some i => (0, set_listening (zset (listening s) i port) s)
  | None => (-1, s)
  end.

Definition tcp_unlisten (port : Z) (s : tcp) : tcp :=
  set_listening (map (fun p => if p =? port then 0 else p) (listening s)) s.

Definition acceptable (port : Z) (s : tcp) (i : Z) : bool :=
  in_use (conn s i) && negb (accepted (conn s i)) && (local_port (conn s i) =? port)
    && bool_decide (state (conn s i) = TCP_ESTABLISHED).

Definition tcp_accept (port : Z) (s : tcp) : Z * tcp :=
  match find_up 4 0 (acceptable port s) with
  | Some i => (i, put i (set_accepted true (conn s i)) s)
  | None => (-1, s)
  end.

Definition tcp_accept_ready (port : Z) (s : tcp) : bool :=
  match find_up 4 0 (acceptable port s) with Some _ => true | None => false end.

Definition tcp_recv_ready (h : Z) (s : tcp) : Z :=
  if handle_ok h s then u32 (recv_head (conn s h) - recv_tail (conn s h)) mod TCP_RECV_BUFFER else 0.
Definition tcp_peer_ip (h : Z) (s : tcp) : Z := if handle_ok h s then remote_ip (conn s h) else 0.
Definition tcp_peer_port (h : Z) (s : tcp) : Z := if handle_ok h s then remote_port (conn s h) else 0.
Definition tcp_local_port (h : Z) (s : tcp) : Z := if handle_ok h s then local_port (conn s h) else 0.

(** ** The receive side of a connection *)

Record rx_ok (c : tcp_conn) : Prop := {
  rx_size : zlen (recv c) = TCP_RECV_BUFFER;
  rx_head : 0 <= recv_head c < TCP_RECV_BUFFER;
  rx_tail : 0 <= recv_tail c < TCP_RECV_BUFFER
}.

(** The bytes received and not yet read. *)
Definition rx (c : tcp_conn) : list Z :=
  ring_seq TCP_RECV_BUFFER (recv c) (recv_head c) (recv_tail c).

(** The states in which data is accepted, and those it never leaves again. *)
Definition receiving (st : tcp_state) : bool :=
  match st with TCP_ESTABLISHED | TCP_FIN_WAIT_1 | TCP_FIN_WAIT_2 => true | _ => false end.
Definition finished (st : tcp_state) : bool :=
  match st with TCP_CLOSE_WAIT | TCP_TIME_WAIT | TCP_LAST_ACK | TCP_CLOSED => true | _ => false end.

(** The moves of a connection's state: those the host makes itself, by
    closing or by giving up, ... *)
Inductive own_edge : tcp_state -> tcp_state -> Prop :=
  | ow_close_first : own_edge TCP_ESTABLISHED TCP_FIN_WAIT_1
  | ow_close_last : own_edge TCP_CLOSE_WAIT TCP_LAST_ACK
  | ow_closed st : own_edge st TCP_CLOSED.

(** ... and those an arriving segment makes. *)
Inductive segment_edge : tcp_state -> tcp_state -> Prop :=
  | se_established : segment_edge TCP_SYN_SENT TCP_ESTABLISHED
  | se_accepted : segment_edge TCP_SYN_RECEIVED TCP_ESTABLISHED
  | se_peer_first : segment_edge TCP_ESTABLISHED TCP_CLOSE_WAIT
  | se_acked : segment_edge TCP_FIN_WAIT_1 TCP_FIN_WAIT_2
  | se_both : segment_edge TCP_FIN_WAIT_1 TCP_TIME_WAIT
  | se_peer_last : segment_edge TCP_FIN_WAIT_2 TCP_TIME_WAIT
  | se_reset st : segment_edge st TCP_CLOSED.

(** The peer sends the stream [S], numbered from [irs + 1]; a segment is
    honest when its data is the part of [S] its sequence number says. *)
Definition honest (S : list Z) (irs : Z) (g : seg) : Prop :=
  sg_data g = [] \/
  exists off, 0 <= off /\ off + zlen (sg_data g) <= zlen S /\
    sg_seq g = u32 (irs + 1 + off) /\ sg_data g = zslice off (zlen (sg_data g)) S.

(** The peer sends its FIN in a segment of its own, after the stream. *)
Definition fin_alone (S : list Z) (irs : Z) (g : seg) : Prop :=
  has (sg_flags g) TCP_FIN = true -> sg_data g = [] /\ sg_seq g = u32 (irs + 1 + zlen S).

(** [n] bytes of the stream have been taken, and what is not in the ring has
    been read.  When the peer is [clean], finished means all of them. *)
Definition stream_ok (S : list Z) (irs : Z) (clean : Prop) (c : tcp_conn) (delivered : list Z) : Prop :=
  rx_ok c /\ exists n, 0 <= n <= zlen S /\ delivered ++ rx c = take (Z.to_nat n) S /\
    (receiving (state c) = true /\ rcv_next c = u32 (irs + 1 + n) \/ finished (state c) = true) /\
    (clean -> peer_finished c = true -> n = zlen S).

(** What can happen around the connection [i] while it is open. *)
Inductive tcp_event (S : list Z) (irs : Z) (clean : Prop) (i : Z) : tcp -> list Z -> tcp -> list Z -> Prop :=
  | te_arrive src dst l s d :
      (forall g, parse_segment src dst l = Some g ->
         find_conn src (sg_src_port g) (sg_dest_port g) s = Some i ->
         honest S irs g /\ (clean -> fin_alone S irs g)) ->
      tcp_event S irs clean i s d (tcp_receive src dst l s) d
  | te_read max n out s s' d : tcp_recv i max s = (n, out, s') ->
      tcp_event S irs clean i s d s' (d ++ out)
  | te_read_other j max n out s s' d : j <> i -> tcp_recv j max s = (n, out, s') ->
      tcp_event S irs clean i s d s' d
  | te_send j data n s s' d : tcp_send j data s = (n, s') -> tcp_event S irs clean i s d s' d
  | te_connect dest port h s s' d : tcp_connect dest port s = (h, s') -> tcp_event S irs clean i s d s' d
  | te_accept port h s s' d : tcp_accept port s = (h, s') -> tcp_event S irs clean i s d s' d
  | te_listen port r s s' d : tcp_listen port s = (r, s') -> tcp_event S irs clean i s d s' d
  | te_unlisten port s d : tcp_event S irs clean i s d (tcp_unlisten port s) d
  | te_close j s d : tcp_event S irs clean i s d (tcp_close j s) d
  | te_tick s d : tcp_event S irs clean i s d (tcp_tick s) d
  (* the card works and the clock runs *)
  | te_net n s d : tcp_event S irs clean i s d (set_net_of n s) d.

(** A run during which the connection's slot stays its own. *)
Inductive tcp_run (S : list Z) (irs : Z) (clean : Prop) (i : Z) : tcp -> list Z -> tcp -> list Z -> Prop :=
  | tr_nil s d : tcp_run S irs clean i s d s d
  | tr_step s d s1 d1 s2 d2 : in_use (conn s i) = true ->
      tcp_event S irs clean i s d s1 d1 -> tcp_run S irs clean i s1 d1 s2 d2 -> tcp_run S irs clean i s d s2 d2.

(** ** Sequence arithmetic *)

Lemma i32_u32 x : i32 (u32 x) = i32 x.
Proof. unfold i32, u32. by rewrite Zmod_mod. Qed.

Lemma i32_small x : - 2 ^ 31 <= x < 2 ^ 31 -> i32 x = x.
Proof.
  intros Hx. unfold i32, u32. destruct (decide (0 <= x)).
  - rewrite Z.mod_small by lia. by rewrite (proj2 (Z.ltb_lt _ _)) by lia.
  - rewrite <-(Z.mod_add x 1), Z.mod_small by lia.
    rewrite (proj2 (Z.ltb_ge _ _)) by lia. lia.
Qed.

Lemma seq_le_spec x y : - 2 ^ 31 <= x - y < 2 ^ 31 -> seq_le (u32 x) (u32 y) = (x <=? y).
Proof.
  intros H. unfold seq_le. rewrite <-i32_u32.
  assert (u32 (u32 x - u32 y) = u32 (x - y)) as ->
    by (unfold u32; by rewrite Zminus_mod_idemp_l, Zminus_mod_idemp_r).
  rewrite i32_u32, i32_small by done.
  destruct (Z.leb_spec x y), (Z.leb_spec (x - y) 0); lia.
Qed.

Lemma u32_inj x y : u32 x = u32 y -> Z.abs (x - y) < 2 ^ 32 -> x = y.
Proof.
  unfold u32. intros He Hd. pose proof (Z.div_mod x (2 ^ 32)). pose proof (Z.div_mod y (2 ^ 32)).
  assert (x / 2 ^ 32 = y / 2 ^ 32) by lia. lia.
Qed.

(** ** The receive ring *)

Lemma ring_size : 1 < TCP_RECV_BUFFER.
Proof. unfold TCP_RECV_BUFFER. lia. Qed.

Lemma u32_mod16 x : u32 x mod TCP_RECV_BUFFER = x mod TCP_RECV_BUFFER.
Proof.
  unfold u32, TCP_RECV_BUFFER. change (2 ^ 32) with (65536 * 65536).
  rewrite Z.rem_mul_r by lia. rewrite (Z.mul_comm 65536 ((x / 65536) mod 65536)).
  rewrite Z.mod_add by lia. by rewrite Zmod_mod.
Qed.

Lemma recv_free_spec c : recv_free c = 65535 - ring_len TCP_RECV_BUFFER (recv_head c) (recv_tail c).
Proof. unfold recv_free, ring_len. rewrite u32_mod16. unfold TCP_RECV_BUFFER. lia. Qed.

Lemma rx_len c : zlen (rx c) = 65535 - recv_free c.
Proof. unfold rx. rewrite ring_seq_len by apply ring_size. rewrite recv_free_spec. lia. Qed.

Lemma recv_push_spec c data :
  rx_ok c -> zlen data <= recv_free c ->
  exists r h, recv_push c data = set_recv_head h (set_recv r c) /\
    rx_ok (recv_push c data) /\ rx (recv_push c data) = rx c ++ data.
Proof.
  revert c. induction data as [|b data IH]; intros c Hc Hf; cbn [recv_push].
  { exists (recv c), (recv_head c). split; [by destruct c|]. split; [done|]. by rewrite app_nil_r. }
  assert (zlen (b :: data) = zlen data + 1) as Hlen by (unfold zlen; simpl; lia).
  pose proof (zlen_nonneg data). rewrite recv_free_spec in Hf.
  destruct (Z.eqb_spec ((recv_head c + 1) mod TCP_RECV_BUFFER) (recv_tail c)) as [He|Hne].
  { rewrite (ring_full _ ring_size _ _ (rx_head _ Hc) He) in Hf. unfold TCP_RECV_BUFFER in Hf. lia. }
  destruct (ring_step _ ring_size _ _ (rx_head _ Hc) (rx_tail _ Hc) Hne) as [Hs _].
  set (c1 := set_recv_head _ (set_recv _ c)).
  assert (rx_ok c1) as Hc1.
  { split; simpl; [rewrite zlen_zset; apply Hc|by apply Z.mod_pos_bound|apply Hc]. }
  assert (rx c1 = rx c ++ [b]) as Hr1.
  { unfold rx, c1. simpl. apply ring_push; (done || apply Hc || apply ring_size). }
  destruct (IH c1 Hc1) as (r & h & Heq & Hok & Hrx).
  { rewrite recv_free_spec. unfold c1. simpl. lia. }
  exists r, h. split; [rewrite Heq; done|]. split; [done|]. by rewrite Hrx, Hr1, <-app_assoc.
Qed.

Lemma recv_loop_spec fuel c out :
  rx_ok c ->
  exists k t, recv_loop fuel c out = (out ++ take k (rx c), set_recv_tail t c) /\
    rx_ok (set_recv_tail t c) /\ rx (set_recv_tail t c) = drop k (rx c) /\ k = Nat.min fuel (length (rx c)).
Proof.
  revert c out. induction fuel as [|fuel IH]; intros c out Hc; cbn [recv_loop].
  { exists 0%nat, (recv_tail c). rewrite take_0, app_nil_r, drop_0. by destruct c. }
  destruct (Z.eqb_spec (recv_tail c) (recv_head c)) as [He|Hne].
  { exists 0%nat, (recv_tail c). rewrite take_0, app_nil_r, drop_0. split; [by destruct c|].
    split; [by destruct c|]. split; [by destruct c|]. unfold rx. rewrite He, ring_empty by apply ring_size.
    simpl. lia. }
  destruct (ring_pop _ ring_size (recv c) _ _ (rx_head _ Hc) (rx_tail _ Hc) Hne) as [Hp _].
  set (t1 := (recv_tail c + 1) mod TCP_RECV_BUFFER) in *.
  assert (rx_ok (set_recv_tail t1 c)) as Hc1 by (destruct Hc; split; try done; by apply Z.mod_pos_bound).
  destruct (IH (set_recv_tail t1 c) (out ++ [zget (recv c) (recv_tail c)]) Hc1)
    as (k & t & -> & Hok & Hrx & Hk).
  assert (rx c = zget (recv c) (recv_tail c) :: rx (set_recv_tail t1 c)) as Hcons by exact Hp.
  exists (S k), t. rewrite Hcons. simpl. rewrite <-app_assoc. split; [done|]. split; [done|].
  split; [exact Hrx|]. by rewrite Hk.
Qed.

Lemma recv_loop_state fuel c out : state (snd (recv_loop fuel c out)) = state c.
Proof.
  revert c out. induction fuel as [|fuel IH]; intros c out; simpl; [done|].
  case_match; [done|]. by rewrite IH.
Qed.

(** ** What the operations leave alone *)

Definition table4 (s : tcp) : Prop := zlen (conns s) = TCP_MAX_CONNECTIONS.

(** The receive side unchanged, the state moved only towards the end. *)
Definition quiet (c c' : tcp_conn) : Prop :=
  recv c' = recv c /\ recv_head c' = recv_head c /\ recv_tail c' = recv_tail c /\
  rcv_next c' = rcv_next c /\ peer_finished c' = peer_finished c /\
  rtc own_edge (state c) (state c').

(** The operation works on connection [i] only, quietly. *)
Definition quiet_on (i : Z) (s s' : tcp) : Prop :=
  table4 s' /\ (forall j, 0 <= j -> j <> i -> conn s' j = conn s j) /\ quiet (conn s i) (conn s' i).

Definition all_quiet (s s' : tcp) : Prop :=
  table4 s' /\ forall j, 0 <= j < TCP_MAX_CONNECTIONS -> in_use (conn s j) = true -> quiet (conn s j) (conn s' j).

Lemma edge_receiving st st' :
  rtc own_edge st st' -> receiving st = true \/ finished st = true ->
  (receiving st' = true \/ finished st' = true) /\ (finished st = true -> finished st' = true).
Proof.
  induction 1 as [|a b c Hab _ IH]; [done|]. intros Ha.
  assert ((receiving b = true \/ finished b = true) /\ (finished a = true -> finished b = true)) as [Hb Hf].
  { destruct Hab; simpl in *; split; auto; destruct Ha; auto; discriminate. }
  destruct (IH Hb) as [Hc Hfc]. split; auto.
Qed.

Lemma edge_refl st st' : st = st' -> rtc own_edge st st'.
Proof. by intros ->. Qed.

Lemma edge_closed st : rtc own_edge st TCP_CLOSED.
Proof. apply rtc_once, ow_closed. Qed.

#[local] Hint Resolve edge_refl edge_closed : novaris.

Lemma quiet_refl c : quiet c c.
Proof. repeat split; auto with novaris. Qed.

Lemma quiet_trans a b c : quiet a b -> quiet b c -> quiet a c.
Proof.
  intros (A1 & A2 & A3 & A4 & A5 & A6) (B1 & B2 & B3 & B4 & B5 & B6).
  repeat split; try congruence. by etrans.
Qed.

Lemma quiet_on_all i s s' : quiet_on i s s' -> all_quiet s s'.
Proof.
  intros (Ht & Ho & Hq). split; [done|]. intros j Hj _.
  destruct (decide (j = i)) as [->|]; [done|]. rewrite Ho by lia. apply quiet_refl.
Qed.

Lemma all_quiet_refl s : table4 s -> all_quiet s s.
Proof. intros Ht. split; [done|]. intros. apply quiet_refl. Qed.

Lemma conn_put i c s j :
  table4 s -> 0 <= i < TCP_MAX_CONNECTIONS -> 0 <= j ->
  conn (put i c s) j = if i =? j then c else conn s j.
Proof. unfold table4. intros. unfold conn, put. simpl. apply zget_zset; lia. Qed.

Lemma table4_put i c s : table4 s -> table4 (put i c s).
Proof. unfold table4, put. simpl. by rewrite zlen_zset. Qed.

Lemma quiet_on_put i c s :
  table4 s -> 0 <= i < TCP_MAX_CONNECTIONS -> quiet (conn s i) c -> quiet_on i s (put i c s).
Proof.
  intros Ht Hi Hq. split; [by apply table4_put|]. split.
  - intros j Hj Hne. rewrite conn_put by done. by destruct (Z.eqb_spec i j); [lia|].
  - rewrite conn_put by (done || lia). by rewrite Z.eqb_refl.
Qed.

Lemma quiet_on_trans i a b c : quiet_on i a b -> quiet_on i b c -> quiet_on i a c.
Proof.
  intros (A1 & A2 & A3) (B1 & B2 & B3). split; [done|]. split; [|by eapply quiet_trans].
  intros j Hj Hne. rewrite B2 by done. by apply A2.
Qed.

(** The state of the connection itself stays; the same for every sender. *)
Definition sends_on (i : Z) (s s' : tcp) : Prop :=
  quiet_on i s s' /\ state (conn s' i) = state (conn s i) /\ in_use (conn s' i) = in_use (conn s i).

Lemma sends_on_put i c s :
  table4 s -> 0 <= i < TCP_MAX_CONNECTIONS -> quiet (conn s i) c ->
  state c = state (conn s i) -> in_use c = in_use (conn s i) -> sends_on i s (put i c s).
Proof.
  intros Ht Hi Hq Hst Hu. split; [by apply quiet_on_put|]. rewrite conn_put by (done || lia).
  by rewrite Z.eqb_refl.
Qed.

Lemma sends_on_trans i a b c : sends_on i a b -> sends_on i b c -> sends_on i a c.
Proof.
  intros (A1 & A2 & A3) (B1 & B2 & B3). split; [by eapply quiet_on_trans|]. split; congruence.
Qed.

Lemma sends_on_refl i s : table4 s -> sends_on i s s.
Proof. intros Ht. split; [split; [done|split; [done|apply quiet_refl]]|done]. Qed.

(** Everything but the connections is another matter. *)
Lemma sends_on_conns i s s' t : conns t = conns s' -> sends_on i s s' -> sends_on i s t.
Proof. unfold sends_on, quiet_on, table4, conn. by intros ->. Qed.

Ltac quiet_fields := first [assumption | done | repeat split; simpl; auto with novaris].

Lemma send_segment_on i flags seq data s :
  table4 s -> 0 <= i < TCP_MAX_CONNECTIONS -> sends_on i s (snd (send_segment i flags seq data s)).
Proof.
  intros Ht Hi. unfold send_segment. destruct (TCP_MSS <? zlen data); [by apply sends_on_refl|].
  destruct (ip_send _ _ _ _) as [r n]. simpl.
  apply (sends_on_conns _ _ (put i (set_last_advertised
    (if 65535 <? recv_free (conn s i) then 65535 else recv_free (conn s i)) (conn s i)) s));
    [reflexivity|]. apply sends_on_put; quiet_fields.
Qed.

Lemma send_tracked_on i flags data s :
  table4 s -> 0 <= i < TCP_MAX_CONNECTIONS -> sends_on i s (snd (send_tracked i flags data s)).
Proof.
  intros Ht Hi. unfold send_tracked. set (c := set_pending _ _).
  assert (sends_on i s (put i c s)) as H1 by (apply sends_on_put; quiet_fields).
  pose proof (send_segment_on i flags (pending_seq c) data (put i c s) (table4_put _ _ _ Ht) Hi) as H2.
  destruct (send_segment _ _ _ _ _) as [r s2]. simpl in *.
  pose proof (proj1 (proj1 H2)) as Ht2.
  eapply sends_on_trans; [exact H1|]. eapply sends_on_trans; [exact H2|].
  destruct (nz (Z.land flags _)); apply sends_on_put; quiet_fields.
Qed.

Lemma send_ack_on i s :
  table4 s -> 0 <= i < TCP_MAX_CONNECTIONS -> sends_on i s (snd (send_ack i s)).
Proof.
  intros Ht Hi. unfold send_ack.
  pose proof (send_segment_on i TCP_ACK (snd_next (conn s i)) [] s Ht Hi) as H.
  by destruct (send_segment _ _ _ _ _).
Qed.

Lemma tick_ack_on i s :
  table4 s -> 0 <= i < TCP_MAX_CONNECTIONS -> sends_on i s (tick_ack i s).
Proof.
  intros Ht Hi. unfold tick_ack. destruct (ack_pending (conn s i)); [|by apply sends_on_refl].
  set (c := set_ack_pending false _).
  assert (sends_on i s (put i c s)) as H1 by (apply sends_on_put; quiet_fields).
  pose proof (send_ack_on i (put i c s) (table4_put _ _ _ Ht) Hi) as H2.
  destruct (send_ack i (put i c s)) as [ok s2]. simpl in H2. pose proof (proj1 (proj1 H2)) as Ht2.
  eapply sends_on_trans; [exact H1|]. destruct ok.
  - by apply (sends_on_conns _ _ s2).
  - eapply sends_on_trans; [exact H2|].
    apply (sends_on_conns _ _ (put i (set_ack_pending true (conn s2 i)) s2)); [reflexivity|].
    apply sends_on_put; quiet_fields.
Qed.

Lemma tick_retransmit_on now i s :
  table4 s -> 0 <= i < TCP_MAX_CONNECTIONS ->
  quiet_on i s (tick_retransmit now i s).
Proof.
  intros Ht Hi. unfold tick_retransmit.
  destruct ((pending_len (conn s i) =? 0) && _); [by apply sends_on_refl|].
  destruct (now <? _); [by apply sends_on_refl|]. set (c := set_tries _ _).
  destruct (RTO_MAX_TRIES <? tries c); [apply quiet_on_put; quiet_fields|].
  set (s1 := set_retransmits _ _).
  assert (sends_on i s s1) as H1
    by (apply (sends_on_conns _ _ (put i c s)); [reflexivity|]; apply sends_on_put; quiet_fields).
  pose proof (proj1 (proj1 H1)) as Ht1.
  match goal with |- context [send_segment ?a ?b ?x ?y s1] =>
    pose proof (send_segment_on a b x y s1 Ht1 Hi) as H2; destruct (send_segment a b x y s1) as [r s2] end.
  simpl in H2. pose proof (proj1 (proj1 H2)) as Ht2.
  eapply quiet_on_trans; [apply H1|]. eapply quiet_on_trans; [apply H2|].
  apply quiet_on_put; quiet_fields.
Qed.

Lemma tick_conn_on now i s :
  table4 s -> 0 <= i < TCP_MAX_CONNECTIONS -> quiet_on i s (tick_conn now i s).
Proof.
  intros Ht Hi. unfold tick_conn. destruct (in_use (conn s i)); cbn [negb]; [|by apply sends_on_refl].
  destruct (_ || _); [apply quiet_on_put; quiet_fields|].
  pose proof (tick_ack_on i s Ht Hi) as H. eapply quiet_on_trans; [apply H|].
  apply tick_retransmit_on; [apply H|done].
Qed.

Lemma tcp_tick_on s : table4 s -> all_quiet s (tcp_tick s).
Proof.
  intros Ht. unfold tcp_tick. set (s1 := set_tick_calls _ s).
  pose proof (for_up_ind (fun _ t => table4 t /\ forall j, 0 <= j < TCP_MAX_CONNECTIONS -> quiet (conn s j) (conn t j))
    (tick_conn (ticks_now s)) 4 0 s1) as H.
  destruct H as [Ht' Hq].
  - split; [exact Ht|]. intros. apply quiet_refl.
  - intros k t Hk [Htt Hqt]. destruct (tick_conn_on (ticks_now s) k t Htt) as (H1 & H2 & H3);
      [unfold TCP_MAX_CONNECTIONS; lia|]. split; [done|]. intros j Hj. eapply quiet_trans; [by apply Hqt|].
    destruct (decide (j = k)) as [->|]; [done|]. rewrite H2 by lia. apply quiet_refl.
  - split; [done|]. intros j Hj _. by apply Hq.
Qed.

Lemma handle_ok_range h s : handle_ok h s = true -> 0 <= h < TCP_MAX_CONNECTIONS /\ in_use (conn s h) = true.
Proof. unfold handle_ok. intros. zbool. done. Qed.

Lemma tcp_send_on h data s : table4 s -> all_quiet s (snd (tcp_send h data s)).
Proof.
  intros Ht. unfold tcp_send. destruct (handle_ok h s) eqn:Hh; [|by apply all_quiet_refl].
  apply handle_ok_range in Hh as [Hh _]. destruct (negb _ || _); [by apply all_quiet_refl|].
  destruct (_ || _); [by apply all_quiet_refl|].
  match goal with |- context [send_tracked ?a ?b ?c ?d] =>
    pose proof (send_tracked_on a b c d Ht Hh) as H; destruct (send_tracked a b c d) end.
  simpl in *. by eapply quiet_on_all, H.
Qed.

Lemma tcp_close_on h s : table4 s -> all_quiet s (tcp_close h s).
Proof.
  intros Ht. unfold tcp_close. destruct (handle_ok h s) eqn:Hh; [|by apply all_quiet_refl].
  apply handle_ok_range in Hh as [Hh _]. cbn [negb].
  destruct (state (conn s h)) eqn:Hst; try (apply (quiet_on_all h), quiet_on_put; quiet_fields; fail).
  all: match goal with |- context [send_tracked ?a ?b ?c ?d] =>
    pose proof (send_tracked_on a b c d Ht Hh) as (H & Hs & _); set (t := snd (send_tracked a b c d)) in * end.
  all: apply (quiet_on_all h); eapply quiet_on_trans; [exact H|]; apply quiet_on_put;
    [apply H|done|]; rewrite Hst in Hs; repeat split; simpl; auto; rewrite Hs; apply rtc_once; constructor.
Qed.

Lemma free_conn_range s i : free_conn s = Some i -> 0 <= i < TCP_MAX_CONNECTIONS /\ in_use (conn s i) = false.
Proof. unfold free_conn. intros (Hi & Hp & _)%find_up_Some. zbool. unfold TCP_MAX_CONNECTIONS. split; [lia|done]. Qed.

(** The connections in use are exactly as they were. *)
Definition all_kept (s s' : tcp) : Prop :=
  table4 s' /\ forall j, 0 <= j < TCP_MAX_CONNECTIONS -> in_use (conn s j) = true -> conn s' j = conn s j.

Lemma all_kept_quiet s s' : all_kept s s' -> all_quiet s s'.
Proof. intros [Ht Hk]. split; [done|]. intros j Hj Hu. rewrite Hk by done. apply quiet_refl. Qed.

Lemma all_kept_conns s s' : table4 s -> conns s' = conns s -> all_kept s s'.
Proof. intros Ht He. unfold all_kept, table4, conn in *. by rewrite He. Qed.

(** Opening a connection takes a free slot. *)
Lemma open_kept i c s t :
  table4 s -> 0 <= i < TCP_MAX_CONNECTIONS -> in_use (conn s i) = false ->
  quiet_on i (put i c s) t -> all_kept s t.
Proof.
  intros Ht Hi Hu (Ht' & Ho & _). split; [done|]. intros j Hj Huj.
  destruct (decide (j = i)) as [->|]; [congruence|]. rewrite Ho, conn_put by (done || lia).
  by destruct (Z.eqb_spec i j); [lia|].
Qed.

Lemma accept_syn_kept sip sport dport seq s s' :
  table4 s -> accept_syn sip sport dport seq s = Some s' -> all_kept s s'.
Proof.
  intros Ht. unfold accept_syn. destruct (free_conn s) as [i|] eqn:Hf; [|done]. intros [= <-].
  apply free_conn_range in Hf as [Hi Hu]. eapply (open_kept i); try done.
  apply send_tracked_on; [by apply table4_put|done].
Qed.

Lemma tcp_connect_kept dest port s : table4 s -> all_kept s (snd (tcp_connect dest port s)).
Proof.
  intros Ht. unfold tcp_connect. destruct (ip_configured (net_of s)); [|by apply all_kept_conns]. cbn [negb].
  destruct (free_conn s) as [i|] eqn:Hf; [|by apply all_kept_conns]. simpl.
  apply free_conn_range in Hf as [Hi Hu]. set (s1 := set_next_port _ s).
  change (all_kept s1 (snd (send_tracked i TCP_SYN [] (put i
    (open_conn TCP_SYN_SENT dest port (next_port s) 0 (initial_seq s)) s1)))).
  eapply (open_kept i); try done. apply send_tracked_on; [by apply table4_put|done].
Qed.

Lemma tcp_accept_on port s : table4 s -> all_quiet s (snd (tcp_accept port s)).
Proof.
  intros Ht. unfold tcp_accept. destruct (find_up 4 0 (acceptable port s)) as [i|] eqn:Hf; [|by apply all_quiet_refl].
  apply find_up_Some in Hf as (Hi & _). apply (quiet_on_all i), quiet_on_put; quiet_fields.
Qed.

Lemma tcp_listen_kept port s : table4 s -> all_kept s (snd (tcp_listen port s)).
Proof. intros Ht. unfold tcp_listen. repeat case_match; by apply all_kept_conns. Qed.

Lemma send_reset_kept dip dport sport seq s : table4 s -> all_kept s (send_reset dip dport sport seq s).
Proof. intros Ht. unfold send_reset. destruct (ip_send _ _ _ _) as [r n]. by apply all_kept_conns. Qed.

(** A read by another handle. *)
Lemma tcp_recv_other h max s n out s' j :
  table4 s -> tcp_recv h max s = (n, out, s') -> j <> h -> 0 <= j ->
  table4 s' /\ conn s' j = conn s j.
Proof.
  intros Ht. unfold tcp_recv. destruct (handle_ok h s) eqn:Hh; [|by intros [= <- <- <-]].
  apply handle_ok_range in Hh as [Hh _]. cbn [negb]. destruct (recv_loop _ _ _) as [o c].
  intros [= <- <- <-] Hne Hj. split; [by apply table4_put|]. rewrite conn_put by done.
  by destruct (Z.eqb_spec h j); [lia|].
Qed.

(** ** The stream *)

Section stream.
  Variables (S : list Z) (irs : Z) (clean : Prop).
  Hypothesis HS : zlen S < 2 ^ 31.

Lemma stream_ok_quiet c c' d : quiet c c' -> stream_ok S irs clean c d -> stream_ok S irs clean c' d.
Proof.
  intros (E1 & E2 & E3 & E4 & E7 & E5) ([O1 O2 O3] & n & Hn & Heq & Hst & Hfin).
  destruct (edge_receiving _ _ E5) as [Hrf Hff]; [destruct Hst as [[? _]|?]; auto|].
  split; [split; congruence|]. exists n. split; [done|].
  split; [unfold rx in *; by rewrite E1, E2, E3|].
  split; [|by rewrite E7].
  destruct Hst as [[Hr Hrn]|Hf]; [|by right; apply Hff].
  destruct Hrf; [left; by rewrite E4|by right].
Qed.

(** The stages of [conn_receive]. *)
Lemma take_ack_quiet g c : quiet c (take_ack g c).
Proof. unfold take_ack. destruct (_ && _ && _); [|apply quiet_refl]. case_match; repeat split; auto with novaris. Qed.

Lemma take_ack_state g c : state (take_ack g c) = state c.
Proof. unfold take_ack. destruct (_ && _ && _); [|done]. by case_match. Qed.

Lemma take_slice n k (l : list Z) :
  0 <= n -> 0 <= k -> take (Z.to_nat n) l ++ zslice n k l = take (Z.to_nat (n + k)) l.
Proof.
  intros. unfold zslice. rewrite Z2Nat.inj_add by lia.
  rewrite <-(take_drop (Z.to_nat n) (take (Z.to_nat n + Z.to_nat k) l)) at 1.
  rewrite take_take, take_drop_commute, Nat.min_l by lia. done.
Qed.

Lemma take_data_stream g c d :
  honest S irs g -> stream_ok S irs clean c d -> receiving (state c) = true ->
  stream_ok S irs clean (fst (take_data g c)) d /\ state (fst (take_data g c)) = state c.
Proof.
  intros Hg Hc Hst. unfold take_data. destruct (Z.eqb_spec (zlen (sg_data g)) 0) as [|Hz]; [done|].
  destruct ((sg_seq g =? rcv_next c) && _) eqn:Hcond; simpl.
  2: { split; [|done]. eapply stream_ok_quiet; [|exact Hc]. repeat split; auto with novaris. }
  zbool. destruct Hc as (Hok & n & Hn & Heq & [[_ Hrn]|Hf] & Hfin).
  2: { by destruct (state c). }
  destruct Hg as [Hnil|(off & Ho & Hol & Hseq & Hdata)]; [by rewrite Hnil in Hz|].
  assert (off = n) as ->.
  { pose proof (zlen_nonneg (sg_data g)).
    assert (u32 (irs + 1 + off) = u32 (irs + 1 + n)) as Hu by congruence.
    apply u32_inj in Hu; lia. }
  destruct (recv_push_spec c (sg_data g) Hok ltac:(done)) as (r & h & Hpush & Hok' & Hrx).
  set (k := zlen (sg_data g)) in *. pose proof (zlen_nonneg (sg_data g)) as Hk. fold k in Hk.
  split.
  - split; [by destruct Hok'; split|]. exists (n + k). split; [lia|].
    split; [|split; [left|]].
    + change (rx (set_ack_pending true (set_rcv_next ?x ?c))) with (rx c).
      rewrite Hrx, app_assoc, Heq, Hdata. by apply take_slice.
    + rewrite Hpush. simpl. split; [done|]. rewrite Hrn.
      unfold u32. rewrite Zplus_mod_idemp_l. f_equal. lia.
    + intros Hcl. rewrite Hpush. simpl. intros Hpf. specialize (Hfin Hcl Hpf). lia.
  - by rewrite Hpush.
Qed.

Lemma take_fin_stream now g c d :
  (clean -> fin_alone S irs g) ->
  stream_ok S irs clean c d -> receiving (state c) = true -> stream_ok S irs clean (take_fin now g c) d.
Proof.
  intros Hg (Hok & n & Hn & Heq & Hst & Hfin) Hr. unfold take_fin.
  destruct (has (sg_flags g) TCP_FIN && _) eqn:Hf.
  - apply andb_true_iff in Hf as [Hf Hle].
    assert (clean -> n = zlen S) as Hall.
    { intros Hcl. destruct (Hg Hcl Hf) as [_ Hseq].
      destruct Hst as [[_ Hrn]|Hfs]; [|by destruct (state c)].
      rewrite Hseq, Hrn, seq_le_spec in Hle by lia. apply Z.leb_le in Hle. lia. }
    change (state (set_ack_pending true _)) with (state c). destruct (state c) eqn:Hs; try done;
      (split; [by destruct Hok; split|]); exists n; (split; [done|]); (split; [exact Heq|]);
      (split; [by right|by intros Hcl _; apply Hall]).
  - destruct (_ && bool_decide _ && _) eqn:Hb; [|by split; [done|]; exists n].
    split; [by destruct Hok; split|]. exists n. split; [done|]. split; [exact Heq|]. split; [|done].
    destruct Hst as [[_ Hrn]|Hfs]; [by left|]. by destruct (state c).
Qed.

Lemma conn_receive_stream now g c d :
  honest S irs g -> (clean -> fin_alone S irs g) -> stream_ok S irs clean c d -> stream_ok S irs clean (fst (conn_receive now g c)) d.
Proof.
  intros Hg Hfg Hc. unfold conn_receive. destruct (has (sg_flags g) TCP_RST).
  { eapply stream_ok_quiet; [|exact Hc]. repeat split; simpl; auto with novaris. }
  pose proof (take_ack_quiet g c) as Hq. pose proof (stream_ok_quiet _ _ _ Hq Hc) as Hc'.
  set (c' := take_ack g c) in *. clearbody c'. clear Hq Hc c.
  assert (receiving (state c') = true \/ finished (state c') = true) as Hrf.
  { destruct Hc' as (_ & n & _ & _ & [[? _]|?] & _); auto. }
  destruct (state c') eqn:Hst; simpl in Hrf; try (destruct Hrf; done).
  all: try (pose proof (take_data_stream g c' d Hg Hc') as Htd; rewrite Hst in Htd;
    specialize (Htd eq_refl); destruct (take_data g c') as [c2 got]; destruct Htd as [Htd Hs2];
    apply take_fin_stream; [exact Hfg|exact Htd|simpl in Hs2; by rewrite Hs2]).
  destruct (has (sg_flags g) TCP_ACK); [|done].
  eapply stream_ok_quiet; [|exact Hc']. repeat split; simpl; auto with novaris.
Qed.
End stream.

(** ** The state machine *)

Lemma take_data_state g c : state (fst (take_data g c)) = state c.
Proof.
  unfold take_data. destruct (zlen (sg_data g) =? 0); [done|].
  destruct (_ && _); [|done]. simpl.
  assert (forall d c, state (recv_push c d) = state c) as Hp; [|apply Hp].
  clear. induction d as [|b d IH]; intros c; simpl; [done|]. case_match; [done|]. by rewrite IH.
Qed.

Lemma take_fin_edge now g c :
  state (take_fin now g c) = state c \/ segment_edge (state c) (state (take_fin now g c)).
Proof.
  unfold take_fin. destruct (has (sg_flags g) TCP_FIN && _).
  - change (state (set_ack_pending true _)) with (state c).
    destruct (state c) eqn:Hs; simpl; auto; right; constructor.
  - destruct (has _ _ && bool_decide (state c = TCP_FIN_WAIT_1) && _) eqn:Hb; [|by left].
    zbool. apply bool_decide_eq_true in H1. rewrite H1. right. constructor.
Qed.

Lemma conn_receive_edge now g c :
  state (fst (conn_receive now g c)) = state c \/
  segment_edge (state c) (state (fst (conn_receive now g c))).
Proof.
  unfold conn_receive. destruct (has (sg_flags g) TCP_RST); [right; constructor|].
  rewrite <-(take_ack_state g c). set (c' := take_ack g c). clearbody c'. clear c.
  destruct (state c') eqn:Hst; try (left; exact Hst).
  - destruct (_ =? _); simpl; [right; constructor|by left].
  - destruct (has _ _); simpl; [right; constructor|by left].
  - pose proof (take_data_state g c') as Hd. destruct (take_data g c') as [c2 got]. simpl in *.
    rewrite <-Hst, <-Hd. apply take_fin_edge.
  - pose proof (take_data_state g c') as Hd. destruct (take_data g c') as [c2 got]. simpl in *.
    rewrite <-Hst, <-Hd. apply take_fin_edge.
  - pose proof (take_data_state g c') as Hd. destruct (take_data g c') as [c2 got]. simpl in *.
    rewrite <-Hst, <-Hd. apply take_fin_edge.
  - destruct (has _ _); simpl; [right; constructor|by left].
Qed.

Lemma find_conn_range a b c s j :
  find_conn a b c s = Some j -> 0 <= j < TCP_MAX_CONNECTIONS /\ in_use (conn s j) = true.
Proof. unfold find_conn. intros (Hj & Hp & _)%find_up_Some. zbool. unfold TCP_MAX_CONNECTIONS. split; [lia|done]. Qed.

(** What an arriving segment does to the table. *)
Lemma tcp_receive_on src dst l s :
  table4 s ->
  match parse_segment src dst l with
  | None => tcp_receive src dst l s = s
  | Some g =>
      match find_conn src (sg_src_port g) (sg_dest_port g) s with
      | None => all_kept s (tcp_receive src dst l s)
      | Some j => table4 (tcp_receive src dst l s) /\
          conn (tcp_receive src dst l s) j = fst (conn_receive (ticks_now s) g (conn s j)) /\
          forall k, 0 <= k -> k <> j -> conn (tcp_receive src dst l s) k = conn s k
      end
  end.
Proof.
  intros Ht. unfold tcp_receive. destruct (parse_segment src dst l) as [g|]; [|done].
  unfold tcp_input. destruct (find_conn _ _ _ s) as [j|] eqn:Hj.
  - apply find_conn_range in Hj as [Hj _].
    destruct (conn_receive (ticks_now s) g (conn s j)) as [c got]. simpl.
    split; [by apply table4_put|].
    change (conn (set_bytes_received ?v ?t)) with (conn t).
    split; [rewrite conn_put by (done || lia); by rewrite Z.eqb_refl|].
    intros k Hk Hne. rewrite conn_put by done. by destruct (Z.eqb_spec j k); [lia|].
  - assert (all_kept s (if has (sg_flags g) TCP_RST then s
      else send_reset src (sg_src_port g) (sg_dest_port g) (sg_ack g) s)) as Hrf.
    { destruct (has _ _); [by apply all_kept_conns|by apply send_reset_kept]. }
    destruct (_ && is_listening _ _); [|done].
    destruct (accept_syn _ _ _ _ s) as [s'|] eqn:Ha; [|done]. by eapply accept_syn_kept.
Qed.

(** ** One event *)

Section events.
  Variables (S : list Z) (irs : Z) (clean : Prop) (i : Z).
  Hypothesis HS : zlen S < 2 ^ 31.
  Hypothesis Hi : 0 <= i < TCP_MAX_CONNECTIONS.

(** A read of the connection itself moves bytes from the ring to the reader. *)
Lemma tcp_recv_own max n out s s' d :
  table4 s -> tcp_recv i max s = (n, out, s') -> stream_ok S irs clean (conn s i) d ->
  table4 s' /\ stream_ok S irs clean (conn s' i) (d ++ out) /\ state (conn s' i) = state (conn s i).
Proof.
  intros Ht. unfold tcp_recv. destruct (handle_ok i s); [|by intros [= <- <- <-]; rewrite app_nil_r].
  cbn [negb]. intros Hr (Hok & m & Hm & Heq & Hst & Hfin).
  destruct (recv_loop_spec (Z.to_nat max) (conn s i) [] Hok) as (k & t & Hl & Hok' & Hrx & _).
  rewrite Hl in Hr. cbn [app] in Hr. injection Hr as <- <- <-. split; [by apply table4_put|].
  set (c' := if (_ : bool) then _ else _).
  assert (rx_ok c' /\ rx c' = drop k (rx (conn s i)) /\ state c' = state (conn s i) /\
    rcv_next c' = rcv_next (conn s i) /\ peer_finished c' = peer_finished (conn s i)) as (O & R & S1 & R1 & P1).
  { unfold c'. case_match; (split; [by destruct Hok'; split|]); (split; [exact Hrx|done]). }
  rewrite conn_put by (done || lia). rewrite Z.eqb_refl. split; [|done].
  split; [done|]. exists m. split; [done|].
  split; [by rewrite R, <-app_assoc, take_drop|]. split; [by rewrite S1, R1|by rewrite P1].
Qed.

Lemma tcp_event_ok s d s' d' :
  table4 s -> in_use (conn s i) = true -> stream_ok S irs clean (conn s i) d ->
  tcp_event S irs clean i s d s' d' -> table4 s' /\ stream_ok S irs clean (conn s' i) d'.
Proof using HS Hi.
  intros Ht Hu Hc He.
  assert (forall t, all_quiet s t -> table4 t /\ stream_ok S irs clean (conn t i) d) as Hquiet.
  { intros t [Ht' Hq]. split; [done|]. eapply stream_ok_quiet; [by apply Hq|done]. }
  destruct He as [src dst l s d Hg|max n out s s' d Hr|j max n out s s' d Hne Hr|j data n s s' d Hop
    |dest port h s s' d Hop|port h s s' d Hop|port r s s' d Hop|port s d|j s d|s d|n s d].
  - pose proof (tcp_receive_on src dst l s Ht) as Hon.
    destruct (parse_segment src dst l) as [g|]; [|by rewrite Hon].
    destruct (find_conn _ _ _ s) as [j|] eqn:Hj; [|by apply Hquiet, all_kept_quiet].
    destruct Hon as (Ht' & Hown & Hoth). split; [done|].
    destruct (decide (j = i)) as [->|Hne]; [|by rewrite Hoth by lia].
    rewrite Hown. destruct (Hg g eq_refl Hj). by apply conn_receive_stream.
  - destruct (tcp_recv_own _ _ _ _ _ _ Ht Hr Hc) as (? & ? & _). done.
  - destruct (tcp_recv_other _ _ _ _ _ _ i Ht Hr) as [? ->]; [done|lia|done].
  - pose proof (tcp_send_on j data s Ht) as H. rewrite Hop in H. by apply Hquiet.
  - pose proof (all_kept_quiet _ _ (tcp_connect_kept dest port s Ht)) as H. rewrite Hop in H. by apply Hquiet.
  - pose proof (tcp_accept_on port s Ht) as H. rewrite Hop in H. by apply Hquiet.
  - apply Hquiet. pose proof (all_kept_quiet _ _ (tcp_listen_kept port s Ht)) as H. by rewrite Hop in H.
  - done.
  - by apply Hquiet, tcp_close_on.
  - by apply Hquiet, tcp_tick_on.
  - done.
Qed.

Lemma tcp_run_ok s d s' d' :
  table4 s -> stream_ok S irs clean (conn s i) d -> tcp_run S irs clean i s d s' d' ->
  table4 s' /\ stream_ok S irs clean (conn s' i) d'.
Proof using HS Hi.
  intros Ht Hc Hrun. induction Hrun as [|s d s1 d1 s2 d2 Hu He _ IH]; [done|].
  destruct (tcp_event_ok _ _ _ _ Ht Hu Hc He). by apply IH.
Qed.
End events.
End tcp.

Arguments tcp : clear implicits.

(** ** Segments on the wire *)

Lemma pseudo_sum_range a b l : 0 <= a < 2 ^ 32 -> 0 <= b < 2 ^ 32 -> 0 <= l <= 2 ^ 16 -> 0 < pseudo_sum a b l <= 2 ^ 20.
Proof.
  intros Ha Hb Hl. unfold pseudo_sum. change 65535 with (Z.ones 16). rewrite !Z.land_ones by lia.
  pose proof (Z.mod_pos_bound (Z.shiftr a 16) (2 ^ 16)). pose proof (Z.mod_pos_bound a (2 ^ 16)).
  pose proof (Z.mod_pos_bound (Z.shiftr b 16) (2 ^ 16)). pose proof (Z.mod_pos_bound b (2 ^ 16)).
  unfold IP_PROTO_TCP. rewrite u32_small; lia.
Qed.

Lemma tcp_header_len a b c d e f g : zlen (tcp_header a b c d e f g) = TCP_HDR.
Proof. reflexivity. Qed.

Lemma tcp_segment_verifies src dst sp dp seq ack flags win data :
  0 <= src < 2 ^ 32 -> 0 <= dst < 2 ^ 32 -> is_byte flags -> Forall is_byte data -> zlen data <= TCP_MSS ->
  segment_checksum src dst (tcp_segment src dst sp dp seq ack flags win data) = 0.
Proof.
  intros Hs Hd Hf Hby Hl. unfold tcp_segment, segment_checksum. rewrite !zlen_app, !tcp_header_len.
  pose proof (zlen_nonneg data). unfold TCP_MSS, TCP_HDR in *.
  pose proof (pseudo_sum_range src dst (20 + zlen data) Hs Hd ltac:(lia)) as Hp.
  set (init := pseudo_sum _ _ _) in *.
  set (a := le16 (htons sp) ++ le16 (htons dp) ++ le32 (htonl seq) ++ le32 (htonl ack)
    ++ [80; flags] ++ le16 (htons win)).
  assert (forall ck, tcp_header sp dp seq ack flags win ck ++ data = a ++ le16 ck ++ (le16 0 ++ data)) as Hsplit
    by reflexivity.
  rewrite !Hsplit. apply net_checksum_fill; try done.
  - unfold a. repeat apply Forall_app_2; try apply le16_is_byte; try apply le32_is_byte.
    repeat constructor; unfold is_byte in *; lia.
  - apply Forall_app_2; [apply le16_is_byte|done].
  - rewrite zlen_app. change (zlen a) with 16. change (zlen (le16 0)) with 2. lia.
  - lia.
Qed.

Lemma tcp_segment_parses src dst sp dp seq ack flags win data :
  0 <= src < 2 ^ 32 -> 0 <= dst < 2 ^ 32 -> 0 <= sp < 2 ^ 16 -> 0 <= dp < 2 ^ 16 ->
  0 <= seq < 2 ^ 32 -> 0 <= ack < 2 ^ 32 -> is_byte flags -> Forall is_byte data -> zlen data <= TCP_MSS ->
  parse_segment src dst (tcp_segment src dst sp dp seq ack flags win data)
    = Some (mkSeg sp dp seq ack flags data).
Proof.
  intros Hs Hd Hsp Hdp Hseq Hack Hf Hby Hl. unfold parse_segment.
  rewrite tcp_segment_verifies by done. pose proof (zlen_nonneg data). cbv zeta.
  assert (zlen (tcp_segment src dst sp dp seq ack flags win data) = TCP_HDR + zlen data) as Hlen
    by (unfold tcp_segment; by rewrite zlen_app, tcp_header_len).
  set (ck := htons (segment_checksum src dst (tcp_header sp dp seq ack flags win 0 ++ data))).
  change (tcp_segment src dst sp dp seq ack flags win data)
    with (tcp_header sp dp seq ack flags win ck ++ data) in *.
  set (h := tcp_header sp dp seq ack flags win ck) in *.
  change (Z.shiftr (zget (h ++ data) 12) 4 * 4) with 20. rewrite Hlen. unfold TCP_HDR in *.
  rewrite (proj2 (Z.ltb_ge (20 + zlen data) 20)) by lia. change (20 <? 20) with false.
  cbn [orb]. change (negb (0 =? 0)) with false. cbv iota. f_equal. f_equal.
  - exact (ntohs_rd sp Hsp).
  - exact (ntohs_rd dp Hdp).
  - exact (ntohl_rd seq Hseq).
  - exact (ntohl_rd ack Hack).
  - replace (20 + zlen data - 20) with (zlen data) by lia.
    assert (zlen h = 20) as Hh by apply tcp_header_len.
    rewrite <-(Z.add_0_r 20), <-Hh, zslice_app_r by lia. apply zslice_all. lia.
Qed.

(** ** Two hosts and a wire *)

Record wire_net := mkWire { w_ip : Z; w_ticks : Z; w_out : list (Z * Z * list Z) }.

#[export] Instance wire_ip : IpLayer wire_net.
Proof.
  refine {| ip_send := fun d p l n => (0, mkWire (w_ip n) (w_ticks n) (w_out n ++ [(d, p, l)]));
            local_ip := w_ip; ip_configured := fun _ => true; pit_ticks := w_ticks |}.
  done.
Defined.

(** What a host put on the wire, latest last. *)
Definition sent (s : tcp wire_net) : list (Z * Z * list Z) := w_out (net_of s).

Lemma conn_put_eq {N} i c (s : tcp N) :
  table4 s -> 0 <= i < TCP_MAX_CONNECTIONS -> conn (put i c s) i = c.
Proof. intros. rewrite conn_put by (done || lia). by rewrite Z.eqb_refl. Qed.

Lemma put_put {N} i c c' (s : tcp N) : put i c (put i c' s) = put i c s.
Proof. unfold put, set_conns, zset. simpl. by rewrite list_insert_insert_eq. Qed.

(** The connection after [send_tracked] sent a SYN or a FIN. *)
Definition tracked (flags now : Z) (c : tcp_conn) : tcp_conn :=
  set_tries 0 (set_rto_deadline (u32 (now + RTO_INITIAL_TICKS)) (set_rto_ticks RTO_INITIAL_TICKS
    (set_snd_next (u32 (u32 (snd_next c + 0) + 1))
      (set_last_advertised (if 65535 <? recv_free c then 65535 else recv_free c)
        (set_pending (zsplice 0 [] (pending c)) (set_pending_len 0
          (set_pending_flags flags (set_pending_seq (snd_next c) c)))))))).

(** A host after it sent [l] to [dest]. *)
Definition wired (dest : Z) (l : list Z) (s : tcp wire_net) : tcp wire_net :=
  set_net_of (mkWire (w_ip (net_of s)) (w_ticks (net_of s)) (sent s ++ [(dest, IP_PROTO_TCP, l)])) s.

Lemma send_segment_wire i flags seq c s :
  table4 s -> 0 <= i < TCP_MAX_CONNECTIONS ->
  send_segment i flags seq [] (put i c s) =
    (0, put i (set_last_advertised (if 65535 <? recv_free c then 65535 else recv_free c) c)
      (wired (remote_ip c) (tcp_segment (w_ip (net_of s)) (remote_ip c) (local_port c) (remote_port c)
         seq (rcv_next c) flags (if 65535 <? recv_free c then 65535 else recv_free c) []) s)).
Proof.
  intros Ht Hi. unfold send_segment. change (TCP_MSS <? zlen []) with false. cbv iota.
  rewrite conn_put_eq by done. cbv zeta. rewrite put_put. reflexivity.
Qed.

Lemma send_tracked_wire i flags c s :
  table4 s -> 0 <= i < TCP_MAX_CONNECTIONS -> nz (Z.land flags (Z.lor TCP_SYN TCP_FIN)) = true ->
  snd (send_tracked i flags [] (put i c s)) =
    put i (tracked flags (w_ticks (net_of s)) c)
      (wired (remote_ip c) (tcp_segment (w_ip (net_of s)) (remote_ip c) (local_port c) (remote_port c)
         (snd_next c) (rcv_next c) flags (if 65535 <? recv_free c then 65535 else recv_free c) []) s).
Proof.
  intros Ht Hi Hf. unfold send_tracked. rewrite Hf, conn_put_eq, put_put by done. cbv zeta.
  rewrite send_segment_wire by done. set (s' := wired _ _ s).
  assert (table4 s') as Ht' by exact Ht. rewrite conn_put_eq, put_put by done. reflexivity.
Qed.

(** The segment for a connection finds it. *)
Lemma find_conn_put {N} rip rport lport i c (s : tcp N) :
  table4 s -> 0 <= i < TCP_MAX_CONNECTIONS -> find_conn rip rport lport s = None ->
  in_use c = true -> remote_ip c = rip -> remote_port c = rport -> local_port c = lport ->
  find_conn rip rport lport (put i c s) = Some i.
Proof.
  intros Ht Hi Hn Hu H1 H2 H3. unfold find_conn in *. rewrite find_up_None in Hn.
  unfold TCP_MAX_CONNECTIONS in Hi. apply find_up_first; [lia|..].
  - rewrite conn_put_eq by done. by rewrite Hu, H1, H2, H3, !Z.eqb_refl.
  - intros k Hk. rewrite conn_put by (done || unfold TCP_MAX_CONNECTIONS; lia).
    destruct (Z.eqb_spec i k); [lia|]. apply Hn. lia.
Qed.

Lemma u32_step x : u32 (u32 (x + 0) + 1) = u32 (x + 1).
Proof. rewrite Z.add_0_r. unfold u32. by rewrite Zplus_mod_idemp_l. Qed.

Lemma seq_le_succ x : 0 <= x < 2 ^ 32 -> seq_le x (u32 (x + 1)) = true /\ seq_le (u32 (x + 1)) (u32 (x + 1)) = true.
Proof.
  intros Hx. rewrite <-(u32_small x Hx) at 1. rewrite !seq_le_spec by lia.
  split; apply Z.leb_le; lia.
Qed.

(** The acknowledgement of a SYN or FIN that is all there is in flight. *)
Lemma take_ack_syn flags now c g :
  0 <= snd_next c < 2 ^ 32 -> snd_unacked c = snd_next c -> has flags (Z.lor TCP_SYN TCP_FIN) = true ->
  has (sg_flags g) TCP_ACK = true -> sg_ack g = u32 (snd_next c + 1) ->
  take_ack g (tracked flags now c) =
    set_pending_flags 0 (set_pending_len 0 (set_snd_unacked (u32 (snd_next c + 1)) (tracked flags now c))).
Proof.
  intros Hr Hun Hf Hack Hg. unfold take_ack. rewrite Hack, Hg. cbn [tracked snd_next snd_unacked set_tries
    set_rto_deadline set_rto_ticks set_snd_next set_last_advertised set_pending set_pending_len set_pending_flags
    set_pending_seq pending_flags pending_seq pending_len set_snd_unacked andb].
  destruct (seq_le_succ _ Hr) as [H1 H2].
  rewrite Hun, u32_step, H1, H2, Hf. cbn [andb]. rewrite Z.add_0_r, H2. done.
Qed.

Lemma initial_seq_range {N} `{!IpLayer N} (s : tcp N) : 0 <= initial_seq s < 2 ^ 32.
Proof. apply u32_range. Qed.

Lemma tick_retransmit_idle {N} `{!IpLayer N} now i (s : tcp N) c :
  conn s i = c -> pending_len c = 0 -> pending_flags c = 0 -> tick_retransmit now i s = s.
Proof. intros Hc Hl Hf. unfold tick_retransmit. by rewrite Hc, Hl, Hf. Qed.

Lemma conn_set_ack_ok {N} v (s : tcp N) i : conn (set_ack_ok v s) i = conn s i.
Proof. reflexivity. Qed.

(** ** The handshake, step by step *)

#[local] Opaque u32.

(** What the sequence numbers of a connection are after the handshake's updates. *)
Lemma rcv_next_tracked flags now c : rcv_next (tracked flags now c) = rcv_next c.
Proof. reflexivity. Qed.

Lemma snd_next_tracked flags now c : snd_next (tracked flags now c) = u32 (u32 (snd_next c + 0) + 1).
Proof. reflexivity. Qed.

Lemma rcv_next_acked a b st a' b' una c :
  rcv_next (set_pending_flags a (set_pending_len b (set_state st
    (set_pending_flags a' (set_pending_len b' (set_snd_unacked una c)))))) = rcv_next c.
Proof. reflexivity. Qed.

Lemma snd_next_acked a b st a' b' una c :
  snd_next (set_pending_flags a (set_pending_len b (set_state st
    (set_pending_flags a' (set_pending_len b' (set_snd_unacked una c)))))) = snd_next c.
Proof. reflexivity. Qed.

Lemma rcv_next_opened w p q st rcv a b una c :
  rcv_next (set_last_advertised w (set_ack_pending p (set_ack_pending q (set_state st (set_rcv_next rcv
    (set_pending_flags a (set_pending_len b (set_snd_unacked una c)))))))) = rcv.
Proof. reflexivity. Qed.

Lemma snd_next_opened w p q st rcv a b una c :
  snd_next (set_last_advertised w (set_ack_pending p (set_ack_pending q (set_state st (set_rcv_next rcv
    (set_pending_flags a (set_pending_len b (set_snd_unacked una c)))))))) = snd_next c.
Proof. reflexivity. Qed.

Section handshake.
  Variables (s r : tcp wire_net) (port j : Z).
Let ipS := w_ip (net_of s).
Let ipR := w_ip (net_of r).
Let cport := next_port s.
  Hypothesis (HipS : 0 <= ipS < 2 ^ 32) (HipR : 0 <= ipR < 2 ^ 32).
  Hypothesis (Hport : 0 <= port < 2 ^ 16) (Hcport : 0 <= cport < 2 ^ 16).
  Hypothesis (Hts : table4 s) (Htr : table4 r).
  Hypothesis Hidle : forall k, 0 <= k < TCP_MAX_CONNECTIONS -> in_use (conn s k) = false.
  Hypothesis Hlisten : is_listening port r = true.
  Hypothesis Hslot : free_conn r = Some j.
  Hypothesis Hnew : find_conn ipS cport port r = None.

Let isn := initial_seq s.
Let isnR := initial_seq r.
Let win c := if 65535 <? recv_free c then 65535 else recv_free c.

(** The client's connection and its SYN. *)
Let c0 := open_conn TCP_SYN_SENT ipR port cport 0 isn.
Let syn := tcp_segment ipS ipR cport port isn 0 TCP_SYN (win c0) [].
Let s0 := set_next_port (if u16 (cport + 1) <? 49152 then 49152 else u16 (cport + 1)) s.
Let c1 := tracked TCP_SYN (w_ticks (net_of s)) c0.
Let s1 := put 0 c1 (wired ipR syn s0).

Lemma hs_connect : tcp_connect ipR port s = (0, s1).
Proof using Hts Hidle.
  unfold tcp_connect. change (negb (ip_configured (net_of s))) with false. cbv iota.
  assert (free_conn s = Some 0) as ->.
  { apply find_up_first; [lia| |lia]. by rewrite (Hidle 0) by (unfold TCP_MAX_CONNECTIONS; lia). }
  f_equal. change (initial_seq (set_next_port _ s)) with isn.
  apply (send_tracked_wire 0 TCP_SYN c0 s0); [exact Hts|unfold TCP_MAX_CONNECTIONS; lia|reflexivity].
Qed.

(** The server's connection and its SYN+ACK. *)
Let d0 := open_conn TCP_SYN_RECEIVED ipS cport port (u32 (isn + 1)) isnR.
Let synack := tcp_segment ipR ipS port cport isnR (u32 (isn + 1)) (Z.lor TCP_SYN TCP_ACK) (win d0) [].
Let d1 := tracked (Z.lor TCP_SYN TCP_ACK) (w_ticks (net_of r)) d0.
Let r1 := put j d1 (wired ipS synack r).

Lemma hs_slot : 0 <= j < TCP_MAX_CONNECTIONS.
Proof using Hslot. by apply free_conn_range in Hslot as [? _]. Qed.

Lemma hs_syn : tcp_receive ipS ipR syn r = r1.
Proof using HipS HipR Hport Hcport Htr Hlisten Hslot Hnew.
  unfold tcp_receive, syn. rewrite tcp_segment_parses;
    [|done|done|done|done|apply initial_seq_range|lia|unfold is_byte, TCP_SYN; lia|done|done].
  unfold tcp_input. cbn [sg_src_port sg_dest_port sg_flags sg_seq sg_ack]. rewrite Hnew, Hlisten.
  change (Z.land TCP_SYN (Z.lor TCP_SYN TCP_ACK) =? TCP_SYN) with true. cbn [andb].
  unfold accept_syn. rewrite Hslot.
  apply (send_tracked_wire j (Z.lor TCP_SYN TCP_ACK) d0 r); [exact Htr|apply hs_slot|reflexivity].
Qed.

(** The client takes the SYN+ACK. *)
Let c2 := set_ack_pending true (set_state TCP_ESTABLISHED (set_rcv_next (u32 (isnR + 1))
  (set_pending_flags 0 (set_pending_len 0 (set_snd_unacked (u32 (isn + 1)) c1))))).
Let s2 := set_bytes_received (u32 (bytes_received s + 0)) (put 0 c2 (wired ipR syn s0)).

Lemma hs_synack : tcp_receive ipR ipS synack s1 = s2.
Proof using HipS HipR Hport Hcport Hts Hidle.
  unfold tcp_receive, synack. rewrite tcp_segment_parses;
    [|done|done|done|done|apply initial_seq_range|apply u32_range|change (0 <= 18 < 256); lia|done|done].
  unfold tcp_input. cbn [sg_src_port sg_dest_port sg_flags sg_seq sg_ack].
  assert (table4 (wired ipR syn s0)) as Ht by exact Hts.
  assert (0 <= 0 < TCP_MAX_CONNECTIONS) as H0 by (unfold TCP_MAX_CONNECTIONS; lia).
  unfold s1. rewrite find_conn_put; try done.
  2: { unfold find_conn. apply find_up_None. intros k Hk.
       change (conn (wired ipR syn s0) k) with (conn s k). by rewrite Hidle by (unfold TCP_MAX_CONNECTIONS; lia). }
  rewrite conn_put_eq by done. unfold conn_receive. cbn [sg_flags].
  change (has (Z.lor TCP_SYN TCP_ACK) TCP_RST) with false. cbv iota.
  assert (take_ack (mkSeg port cport isnR (u32 (isn + 1)) (Z.lor TCP_SYN TCP_ACK) []) c1
    = set_pending_flags 0 (set_pending_len 0 (set_snd_unacked (u32 (isn + 1)) c1))) as ->
    by (apply take_ack_syn; [apply initial_seq_range|done..]).
  change (state (set_pending_flags _ _)) with TCP_SYN_SENT. cbv iota.
  change (Z.land (Z.lor TCP_SYN TCP_ACK) (Z.lor TCP_SYN TCP_ACK) =? Z.lor TCP_SYN TCP_ACK) with true. cbv iota beta.
  rewrite put_put. reflexivity.
Qed.

(** The client's tick acknowledges. *)
Let c3 := set_ack_pending false c2.
Let ack := tcp_segment ipS ipR cport port (u32 (isn + 1)) (u32 (isnR + 1)) TCP_ACK (win c3) [].

Lemma hs_tick :
  let s3 := tcp_tick s2 in
  sent s3 = sent s1 ++ [(ipR, IP_PROTO_TCP, ack)] /\ table4 s3 /\
  conn s3 0 = set_last_advertised (win c3) c3.
Proof using Hts Hidle.
  cbv zeta. unfold tcp_tick. change (ticks_now s2) with (w_ticks (net_of s)).
  set (now := w_ticks (net_of s)). set (t := set_tick_calls _ s2).
  assert (0 <= 0 < TCP_MAX_CONNECTIONS) as H0 by (unfold TCP_MAX_CONNECTIONS; lia).
  assert (t = put 0 c2 (set_tick_calls (u32 (tick_calls s2 + 1))
    (set_bytes_received (u32 (bytes_received s + 0)) (wired ipR syn s0)))) as Ht0 by reflexivity.
  set (u := set_tick_calls _ (set_bytes_received _ _)) in Ht0.
  assert (table4 u) as Hu by exact Hts.
  assert (tick_conn now 0 t = set_ack_ok (u32 (ack_ok s + 1))
    (put 0 (set_last_advertised (win c3) c3) (wired ipR ack u))) as Htick.
  { unfold tick_conn. rewrite Ht0, (conn_put_eq 0 c2 u Hu H0).
    change (in_use c2) with true. change (state c2) with TCP_ESTABLISHED.
    cbn [negb]. rewrite !bool_decide_false by done. cbn [orb andb].
    unfold tick_ack. rewrite (conn_put_eq 0 c2 u Hu H0). change (ack_pending c2) with true. cbv iota.
    rewrite put_put. change (set_ack_pending false c2) with c3. unfold send_ack.
    rewrite (conn_put_eq 0 c3 u Hu H0), (send_segment_wire 0 TCP_ACK (snd_next c3) c3 u Hu H0).
    change (0 =? 0) with true. cbv iota beta.
    assert (snd_next c3 = u32 (isn + 1)) as -> by (change (snd_next c3) with (u32 (u32 (isn + 0) + 1)); apply u32_step).
    change (remote_ip c3) with ipR. change (w_ip (net_of u)) with ipS.
    rewrite (tick_retransmit_idle now 0 _ (set_last_advertised (win c3) c3)); [reflexivity| |reflexivity..].
    rewrite conn_set_ack_ok. exact (conn_put_eq 0 (set_last_advertised (win c3) c3) (wired ipR ack u) Hu H0). }
  cbn [for_up]. rewrite Htick. set (v := set_ack_ok _ _).
  assert (table4 v) as Hv by (unfold v; apply table4_put; exact Hts).
  assert (forall k, 1 <= k < 4 -> tick_conn now k v = v) as Hrest.
  { intros k Hk. unfold tick_conn, v. rewrite conn_set_ack_ok, conn_put by (done || lia). destruct (Z.eqb_spec 0 k); [lia|].
    change (conn (wired ipR ack u) k) with (conn s k). by rewrite Hidle by (unfold TCP_MAX_CONNECTIONS; lia). }
  change (0 + 1) with 1. change (1 + 1) with 2. change (2 + 1) with 3. rewrite !Hrest by lia.
  split; [reflexivity|]. split; [done|].
  unfold v. rewrite conn_set_ack_ok. by apply conn_put_eq.
Qed.

(** The server takes the acknowledgement. *)
Let d2 := set_pending_flags 0 (set_pending_len 0 (set_state TCP_ESTABLISHED
  (set_pending_flags 0 (set_pending_len 0 (set_snd_unacked (u32 (isnR + 1)) d1))))).

Lemma hs_ack :
  tcp_receive ipS ipR ack r1
    = set_bytes_received (u32 (bytes_received r + 0)) (put j d2 (wired ipS synack r)).
Proof using HipS HipR Hport Hcport Htr Hslot Hnew.
  unfold tcp_receive, ack. rewrite tcp_segment_parses;
    [|done|done|done|done|apply u32_range|apply u32_range|unfold is_byte, TCP_ACK; lia|done|done].
  unfold tcp_input. cbn [sg_src_port sg_dest_port sg_flags sg_seq sg_ack].
  assert (table4 (wired ipS synack r)) as Ht by exact Htr. pose proof hs_slot as Hj.
  unfold r1. rewrite find_conn_put; try done.
  rewrite conn_put_eq by done. unfold conn_receive. cbn [sg_flags].
  change (has TCP_ACK TCP_RST) with false. cbv iota.
  assert (take_ack (mkSeg cport port (u32 (isn + 1)) (u32 (isnR + 1)) TCP_ACK []) d1
    = set_pending_flags 0 (set_pending_len 0 (set_snd_unacked (u32 (isnR + 1)) d1))) as ->
    by (apply take_ack_syn; [apply initial_seq_range|done..]).
  change (state (set_pending_flags _ _)) with TCP_SYN_RECEIVED. cbv iota.
  change (has TCP_ACK TCP_ACK) with true. cbv iota beta. rewrite put_put. reflexivity.
Qed.

(** The sequence numbers both ends are left with. *)
Lemma hs_server_rcv : rcv_next d2 = u32 (isn + 1).
Proof using. unfold d2, d1. by rewrite rcv_next_acked, rcv_next_tracked. Qed.

Lemma hs_server_snd : snd_next d2 = u32 (isnR + 1).
Proof using. unfold d2, d1. rewrite snd_next_acked, snd_next_tracked. apply u32_step. Qed.

Lemma hs_client_rcv : rcv_next (set_last_advertised (win c3) c3) = u32 (isnR + 1).
Proof using. unfold c3, c2. by rewrite rcv_next_opened. Qed.

Lemma hs_client_snd : snd_next (set_last_advertised (win c3) c3) = u32 (isn + 1).
Proof using. unfold c3, c2, c1. rewrite snd_next_opened, snd_next_tracked. apply u32_step. Qed.

Lemma hs_done :
  exists syn synack ack s1 s2 r1 r2,
    tcp_connect ipR port s = (0, s1) /\ sent s1 = sent s ++ [(ipR, IP_PROTO_TCP, syn)] /\
    tcp_receive ipS ipR syn r = r1 /\ sent r1 = sent r ++ [(ipS, IP_PROTO_TCP, synack)] /\
    tcp_receive ipR ipS synack s1 = s2 /\
    sent (tcp_tick s2) = sent s1 ++ [(ipR, IP_PROTO_TCP, ack)] /\
    tcp_receive ipS ipR ack r1 = r2 /\
    tcp_state_of 0 (tcp_tick s2) = TCP_ESTABLISHED /\ tcp_state_of j r2 = TCP_ESTABLISHED /\
    tcp_accept_ready port r2 = true /\
    rcv_next (conn r2 j) = snd_next (conn (tcp_tick s2) 0) /\
    rcv_next (conn (tcp_tick s2) 0) = snd_next (conn r2 j) /\
    tcp_peer_ip j r2 = ipS /\ tcp_peer_port j r2 = tcp_local_port 0 (tcp_tick s2).
Proof using All.
  exists syn, synack, ack, s1, s2, r1.
  destruct hs_tick as (Hs3 & Ht3 & Hc3). pose proof hs_slot as Hj.
  eexists. split; [exact hs_connect|]. split; [reflexivity|]. split; [exact hs_syn|]. split; [reflexivity|].
  split; [exact hs_synack|]. split; [exact Hs3|]. split; [exact hs_ack|].
  set (r2 := set_bytes_received _ _).
  assert (conn r2 j = d2) as Hd by (by apply (conn_put_eq j d2 (wired ipS synack r))).
  assert (handle_ok 0 (tcp_tick s2) = true) as Hok by (unfold handle_ok; by rewrite Hc3).
  assert (handle_ok j r2 = true) as Hokr.
  { unfold handle_ok. rewrite Hd. change (in_use d2) with true.
    rewrite (proj2 (Z.leb_le 0 j)), (proj2 (Z.ltb_lt j TCP_MAX_CONNECTIONS)) by lia. done. }
  unfold tcp_state_of, tcp_peer_ip, tcp_peer_port, tcp_local_port. rewrite Hok, Hokr, Hd, Hc3.
  split; [reflexivity|]. split; [reflexivity|]. split.
  - unfold tcp_accept_ready. destruct (find_up 4 0 (acceptable port r2)) eqn:Hf; [done|].
    rewrite find_up_None in Hf. unfold TCP_MAX_CONNECTIONS in Hj. specialize (Hf j Hj).
    unfold acceptable in Hf. rewrite Hd in Hf. change (local_port d2) with port in Hf.
    rewrite Z.eqb_refl in Hf. discriminate Hf.
  - split; [etrans; [exact hs_server_rcv|symmetry; exact hs_client_snd]|].
    split; [etrans; [exact hs_client_rcv|symmetry; exact hs_server_snd]|]. split; reflexivity.
Qed.
End handshake.

(** ** Properties *)

(** C4: a TCP stream arrives intact: whatever segments of it the peer sends, in any order
    and any number of times, whatever else happens around the connection (other connections'
    reads and sends, connects, accepts, listens, closes, ticks, a changing layer below), what the
    reader has been given followed by what waits in the ring is exactly a prefix of the peer's
    stream; and when the peer sends its FIN in a segment of its own after the stream, a reader
    that sees [tcp_eof] has been given all of it. *)
Theorem tcp_stream_intact {N} `{!IpLayer N} (S : list Z) (irs i : Z) (clean : Prop) (s s' : tcp N) d :
  zlen S < 2 ^ 31 -> 0 <= i < TCP_MAX_CONNECTIONS -> table4 s ->
  (* freshly established *)
  rx_ok (conn s i) -> rx (conn s i) = [] -> rcv_next (conn s i) = u32 (irs + 1) ->
  receiving (state (conn s i)) = true -> peer_finished (conn s i) = false ->
  tcp_run S irs clean i s [] s' d ->
  exists n, 0 <= n <= zlen S /\ d ++ rx (conn s' i) = take (Z.to_nat n) S /\
    (clean -> handle_ok i s' = true -> tcp_eof i s' = true -> d = S).
Proof.
  intros HS Hi Ht Hok Hrx Hrn Hst Hpf Hrun.
  apply (tcp_run_ok S irs clean i HS Hi) in Hrun as [_ (Hok' & n & Hn & Heq & _ & Hfin)]; [|done|].
  - exists n. split; [done|]. split; [done|]. intros Hcl Hh. unfold tcp_eof. rewrite Hh. cbn [negb].
    intros [Hp He%Z.eqb_eq]%andb_true_iff. rewrite (Hfin Hcl Hp) in Heq.
    unfold rx in Heq. rewrite He, ring_empty, app_nil_r in Heq by apply ring_size.
    rewrite Heq. apply take_ge. unfold zlen. lia.
  - split; [done|]. exists 0. pose proof (zlen_nonneg S). split; [lia|].
    split; [by rewrite Hrx|]. split; [left; split; [done|rewrite Hrn; f_equal; lia]|].
    intros _. by rewrite Hpf.
Qed.

(** Closed side conditions on the bytes of a demonstration segment. *)
Ltac demo_side :=
  vm_compute; first [reflexivity | discriminate | repeat constructor; first [reflexivity | discriminate]].

(** A peer at 1.1.1.1:80 that sends "hello", starting at a sequence number
    that wraps. *)
Definition demo_conn : tcp_conn := open_conn TCP_ESTABLISHED 16843009 80 49152 (u32 (4294967293 + 1)) 7000.
Definition demo_tcp : tcp wire_net :=
  mkTcp [demo_conn; zero_conn; zero_conn; zero_conn] 49153 [0; 0; 0; 0] 0 0 0 0 0
    (mkWire 33686018 1000 []).
Definition hello : list Z := [104; 101; 108; 108; 111].
Definition demo_seg (off flags : Z) (data : list Z) : list Z :=
  tcp_segment 16843009 33686018 80 49152 (u32 (4294967293 + 1 + off)) 7000 flags 512 data.
(* "lo" first, then "hel", read two, "lo" again, the FIN, read the rest *)
Definition demo1 := tcp_receive 16843009 33686018 (demo_seg 3 TCP_ACK [108; 111]) demo_tcp.
Definition demo2 := tcp_receive 16843009 33686018 (demo_seg 0 TCP_ACK [104; 101; 108]) demo1.
Definition demo3 := snd (tcp_recv 0 2 demo2).
Definition demo4 := tcp_receive 16843009 33686018 (demo_seg 3 TCP_ACK [108; 111]) (tcp_tick demo3).
Definition demo5 := tcp_receive 16843009 33686018 (demo_seg 5 (Z.lor TCP_FIN TCP_ACK) []) demo4.
Definition demo6 := snd (tcp_recv 0 100 demo5).

#[local] Strategy 100 [tcp_receive tcp_recv tcp_tick].

(** A segment of the demonstration peer is honest. *)
Lemma demo_arrive off flags data s d :
  0 <= off -> off + zlen data <= 5 -> data = zslice off (zlen data) hello -> is_byte flags -> Forall is_byte data ->
  (has flags TCP_FIN = true -> data = [] /\ off = 5) ->
  tcp_event hello 4294967293 True 0 s d
    (tcp_receive 16843009 33686018 (demo_seg off flags data) s) d.
Proof.
  intros Ho Hl Hd Hf Hby Hfin. apply te_arrive. intros g Hp _. unfold demo_seg in Hp.
  rewrite tcp_segment_parses in Hp; try (done || lia || apply u32_range || (unfold TCP_MSS; lia)).
  injection Hp as <-. split.
  - right. exists off. done.
  - intros _ Hx. destruct (Hfin Hx) as [-> ->]. done.
Qed.

Lemma tcp_recv_split i max (s : tcp wire_net) :
  tcp_recv i max s = (fst (fst (tcp_recv i max s)), snd (fst (tcp_recv i max s)), snd (tcp_recv i max s)).
Proof. by destruct (tcp_recv i max s) as [[] ?]. Qed.

Lemma tcp_stream_intact_witness :
  tcp_eof 0 demo6 = true /\ [] ++ snd (fst (tcp_recv 0 2 demo2)) ++ snd (fst (tcp_recv 0 100 demo5)) = hello.
Proof.
  split; [vm_compute; reflexivity|].
  destruct (tcp_stream_intact hello 4294967293 0 True demo_tcp demo6
    (([] ++ snd (fst (tcp_recv 0 2 demo2))) ++ snd (fst (tcp_recv 0 100 demo5)))) as (n & _ & _ & Hall).
  - vm_compute. reflexivity.
  - vm_compute. split; [discriminate|reflexivity].
  - vm_compute. reflexivity.
  - split; vm_compute; [reflexivity|split; [discriminate|reflexivity]..].
  - vm_compute. reflexivity.
  - vm_compute. reflexivity.
  - reflexivity.
  - reflexivity.
  - eapply tr_step; [vm_compute; reflexivity|apply (demo_arrive 3 TCP_ACK [108; 111])|];
      [demo_side..|].
    eapply tr_step; [vm_compute; reflexivity|apply (demo_arrive 0 TCP_ACK [104; 101; 108])|];
      [demo_side..|].
    eapply tr_step; [vm_compute; reflexivity|eapply te_read; apply (tcp_recv_split 0 2)|].
    eapply tr_step; [vm_compute; reflexivity|apply te_tick|].
    eapply tr_step; [vm_compute; reflexivity|apply (demo_arrive 3 TCP_ACK [108; 111])|];
      [demo_side..|].
    eapply tr_step; [vm_compute; reflexivity|apply (demo_arrive 5 (Z.lor TCP_FIN TCP_ACK) [])|];
      [demo_side..|].
    eapply tr_step; [vm_compute; reflexivity|eapply te_read; apply (tcp_recv_split 0 100)|].
    apply tr_nil.
  - rewrite app_assoc. apply Hall; [exact I|vm_compute; reflexivity..].
Defined.

(** ** Retransmission *)

(** Two connections that agree on everything retransmission looks at. *)
Definition same_flight (c c' : tcp_conn) : Prop :=
  in_use c' = in_use c /\ state c' = state c /\ remote_ip c' = remote_ip c /\
  remote_port c' = remote_port c /\ local_port c' = local_port c /\ rcv_next c' = rcv_next c /\
  pending c' = pending c /\ pending_len c' = pending_len c /\ pending_flags c' = pending_flags c /\
  pending_seq c' = pending_seq c.
Definition same_timer (c c' : tcp_conn) : Prop :=
  tries c' = tries c /\ rto_ticks c' = rto_ticks c /\ rto_deadline c' = rto_deadline c.

(** Something is in flight, in a state the tick does not clean up. *)
Definition in_flight (c : tcp_conn) : Prop :=
  in_use c = true /\ state c <> TCP_CLOSED /\ state c <> TCP_TIME_WAIT /\
  (pending_len c =? 0) && (pending_flags c =? 0) = false /\ 0 <= pending_len c <= TCP_MSS.

Definition resent (ip : Z) (c : tcp_conn) (p : Z * Z * list Z) : Prop :=
  exists w, p = (remote_ip c, IP_PROTO_TCP,
    tcp_segment ip (remote_ip c) (local_port c) (remote_port c) (pending_seq c) (rcv_next c)
      (pending_flags c) w (zslice 0 (pending_len c) (pending c))).

Definition log_grows (s s' : tcp wire_net) : Prop :=
  w_ip (net_of s') = w_ip (net_of s) /\ exists l, sent s' = sent s ++ l.

Lemma log_grows_trans a b c : log_grows a b -> log_grows b c -> log_grows a c.
Proof.
  intros [H1 [l1 E1]] [H2 [l2 E2]]. split; [congruence|]. exists (l1 ++ l2). by rewrite E2, E1, app_assoc.
Qed.

Lemma log_grows_net s t t' : net_of t = net_of t' -> log_grows s t -> log_grows s t'.
Proof. unfold log_grows, sent. by intros ->. Qed.

Lemma log_grows_refl s : log_grows s s.
Proof. split; [done|]. exists []. by rewrite app_nil_r. Qed.

Lemma same_flight_trans a b c : same_flight a b -> same_flight b c -> same_flight a c.
Proof. unfold same_flight. intuition congruence. Qed.

(** One segment sent: the connection keeps all but the window it told. *)
Lemma send_segment_log i flags seq data (s : tcp wire_net) :
  table4 s -> 0 <= i < TCP_MAX_CONNECTIONS -> zlen data <= TCP_MSS ->
  let s' := snd (send_segment i flags seq data s) in
  same_flight (conn s i) (conn s' i) /\ same_timer (conn s i) (conn s' i) /\ log_grows s s' /\
  exists w, sent s' = sent s ++ [(remote_ip (conn s i), IP_PROTO_TCP,
    tcp_segment (w_ip (net_of s)) (remote_ip (conn s i)) (local_port (conn s i)) (remote_port (conn s i))
      seq (rcv_next (conn s i)) flags w data)].
Proof.
  intros Ht Hi Hl. cbv zeta. unfold send_segment. rewrite (proj2 (Z.ltb_ge _ _)) by lia.
  set (w := if 65535 <? _ then _ else _). cbv zeta. simpl snd.
  change (conn (set_net_of ?n ?t)) with (conn t). rewrite conn_put_eq by done.
  split; [done|]. split; [done|]. split; [split; [done|by eexists]|]. by exists w.
Qed.

Lemma tick_ack_log i (s : tcp wire_net) :
  table4 s -> 0 <= i < TCP_MAX_CONNECTIONS ->
  same_flight (conn s i) (conn (tick_ack i s) i) /\ same_timer (conn s i) (conn (tick_ack i s) i) /\
  log_grows s (tick_ack i s).
Proof.
  intros Ht Hi. unfold tick_ack. destruct (ack_pending (conn s i)); [|by split; [done|split; [done|apply log_grows_refl]]].
  set (c := set_ack_pending false _). unfold send_ack.
  pose proof (table4_put i c s Ht) as Ht1.
  pose proof (send_segment_log i TCP_ACK (snd_next (conn (put i c s) i)) [] (put i c s) Ht1 Hi ltac:(done)) as H.
  pose proof (proj1 (proj1 (send_segment_on i TCP_ACK (snd_next (conn (put i c s) i)) [] _ Ht1 Hi))) as Ht2.
  destruct (send_segment _ _ _ _ _) as [r s2]. simpl in H, Ht2. rewrite conn_put_eq in H by done.
  destruct H as (Hf & Htm & Hlog & _). destruct (r =? 0); cbv iota beta.
  - done.
  - change (conn (set_ack_failed ?n ?t)) with (conn t). rewrite conn_put_eq by done. done.
Qed.

(** What an overdue tick does to a connection with something in flight. *)
Definition overdue_step (now : Z) (s s' : tcp wire_net) (c c' : tcp_conn) : Prop :=
  if tries c <? RTO_MAX_TRIES
  then same_flight c c' /\ tries c' = tries c + 1 /\ rto_ticks c' = u32 (rto_ticks c * 2) /\
    rto_deadline c' = u32 (now + u32 (rto_ticks c * 2)) /\
    exists l p l', sent s' = sent s ++ l ++ [p] ++ l' /\ resent (w_ip (net_of s)) c p
  else in_use c' = true /\ state c' = TCP_CLOSED.

Lemma zslice_le k (l : list Z) : 0 <= k -> zlen (zslice 0 k l) <= k.
Proof. intros. unfold zslice, zlen. rewrite length_take. lia. Qed.

Lemma tick_retransmit_overdue now i (s : tcp wire_net) :
  table4 s -> 0 <= i < TCP_MAX_CONNECTIONS -> in_flight (conn s i) -> 0 <= tries (conn s i) < 2 ^ 31 ->
  rto_deadline (conn s i) <= now ->
  overdue_step now s (tick_retransmit now i s) (conn s i) (conn (tick_retransmit now i s) i).
Proof.
  intros Ht Hi (Hu & Hc & Htw & Hp & Hpl) Htr Hdl. unfold tick_retransmit, overdue_step. rewrite Hp.
  rewrite (proj2 (Z.ltb_ge now (rto_deadline (conn s i)))) by lia. cbv iota. set (c := set_tries _ (conn s i)). cbv zeta.
  change (tries c) with (u32 (tries (conn s i) + 1)). rewrite (u32_small (tries (conn s i) + 1)) by lia.
  destruct (Z.ltb_spec (tries (conn s i)) RTO_MAX_TRIES) as [Hlt|Hge].
  2: { rewrite (proj2 (Z.ltb_lt RTO_MAX_TRIES _)) by lia. rewrite conn_put_eq by done. done. }
  rewrite (proj2 (Z.ltb_ge RTO_MAX_TRIES _)) by lia. set (s1 := set_retransmits _ _).
  assert (table4 s1) as Ht1 by (apply table4_put; done).
  assert (conn s1 i = c) as Hc1 by (by apply (conn_put_eq i c s)).
  pose proof (send_segment_log i (pending_flags c) (pending_seq c) (zslice 0 (pending_len c) (pending c)) s1
    Ht1 Hi) as H.
  pose proof (proj1 (proj1 (send_segment_on i (pending_flags c) (pending_seq c)
    (zslice 0 (pending_len c) (pending c)) s1 Ht1 Hi))) as Ht2.
  destruct (send_segment _ _ _ _ s1) as [r s2]. cbn [snd] in H, Ht2. rewrite Hc1 in H.
  destruct H as (Hf & (Htr' & Hrt & _) & _ & w & Hsent).
  { etrans; [apply zslice_le; apply Hpl|apply Hpl]. }
  rewrite conn_put_eq by done.
  split; [by destruct Hf as (?&?&?&?&?&?&?&?&?&?); repeat split|].
  split; [cbn [tries set_rto_deadline set_rto_ticks]; rewrite Htr'; apply u32_small; lia|].
  split; [cbn [rto_ticks set_rto_deadline set_rto_ticks]; by rewrite Hrt|].
  split; [cbn [rto_deadline rto_ticks set_rto_deadline set_rto_ticks]; by rewrite Hrt|].
  exists [], (remote_ip c, IP_PROTO_TCP, tcp_segment (w_ip (net_of s1)) (remote_ip c) (local_port c) (remote_port c)
    (pending_seq c) (rcv_next c) (pending_flags c) w (zslice 0 (pending_len c) (pending c))), [].
  split; [exact Hsent|]. by exists w.
Qed.

Lemma tick_conn_overdue now i (s : tcp wire_net) :
  table4 s -> 0 <= i < TCP_MAX_CONNECTIONS -> in_flight (conn s i) -> 0 <= tries (conn s i) < 2 ^ 31 ->
  rto_deadline (conn s i) <= now ->
  overdue_step now s (tick_conn now i s) (conn s i) (conn (tick_conn now i s) i).
Proof.
  intros Ht Hi Hfl Htr Hdl. pose proof Hfl as (Hu & Hc & Htw & Hp & Hpl). unfold tick_conn.
  rewrite Hu, !bool_decide_false by done. cbn [negb orb andb].
  destruct (tick_ack_log i s Ht Hi) as (Hf & (T1 & T2 & T3) & [Hip [l Hl]]).
  pose proof (proj1 (proj1 (tick_ack_on i s Ht Hi))) as Ht1. set (s1 := tick_ack i s) in *.
  pose proof Hf as (F1 & F2 & F3 & F4 & F5 & F6 & F7 & F8 & F9 & F10).
  assert (in_flight (conn s1 i)) as Hfl1 by (unfold in_flight; by rewrite F1, F2, F8, F9).
  pose proof (tick_retransmit_overdue now i s1 Ht1 Hi Hfl1 ltac:(by rewrite T1) ltac:(by rewrite T3)) as H.
  unfold overdue_step in *. rewrite T1, T2 in H. destruct (tries (conn s i) <? RTO_MAX_TRIES); [|done].
  destruct H as (G & H2 & H3 & H4 & l1 & p & l2 & H5 & w & Hw).
  split; [by eapply same_flight_trans|]. split; [done|]. split; [done|]. split; [done|].
  exists (l ++ l1), p, l2. split; [by rewrite H5, Hl, <-!app_assoc|].
  exists w. by rewrite Hw, Hip, F3, F4, F5, F6, F7, F8, F9, F10.
Qed.

Lemma send_segment_grows i flags seq data (s : tcp wire_net) : log_grows s (snd (send_segment i flags seq data s)).
Proof.
  unfold send_segment. destruct (TCP_MSS <? zlen data); [apply log_grows_refl|].
  split; [done|]. by eexists.
Qed.

Lemma tick_conn_log now i (s : tcp wire_net) :
  table4 s -> 0 <= i < TCP_MAX_CONNECTIONS -> log_grows s (tick_conn now i s).
Proof.
  intros Ht Hi. unfold tick_conn. destruct (in_use (conn s i)); [|apply log_grows_refl].
  destruct (_ || _); [by apply (log_grows_net s s), log_grows_refl|].
  destruct (tick_ack_log i s Ht Hi) as (_ & _ & Hl). eapply log_grows_trans; [exact Hl|].
  unfold tick_retransmit. set (s1 := tick_ack i s). cbn [negb].
  destruct (_ && _); [apply log_grows_refl|]. destruct (now <? _); [apply log_grows_refl|].
  set (c := set_tries _ _). destruct (RTO_MAX_TRIES <? tries c);
    [by apply (log_grows_net s1 s1), log_grows_refl|].
  set (s2 := set_retransmits _ _).
  pose proof (send_segment_grows i (pending_flags c) (pending_seq c) (zslice 0 (pending_len c) (pending c)) s2) as H.
  destruct (send_segment _ _ _ _ s2) as [r s3]. exact H.
Qed.

Lemma overdue_step_grows now s t t' c c' :
  log_grows t t' -> overdue_step now s t c c' -> overdue_step now s t' c c'.
Proof.
  intros [_ [m Hm]]. unfold overdue_step. destruct (tries c <? RTO_MAX_TRIES); [|done].
  intros (H1 & H2 & H3 & H4 & l & p & l' & H5 & H6). repeat (split; [done|]).
  exists l, p, (l' ++ m). split; [|done]. by rewrite Hm, H5, <-!app_assoc.
Qed.

Lemma tcp_tick_overdue i (s : tcp wire_net) :
  table4 s -> 0 <= i < TCP_MAX_CONNECTIONS -> in_flight (conn s i) -> 0 <= tries (conn s i) < 2 ^ 31 ->
  rto_deadline (conn s i) <= ticks_now s ->
  table4 (tcp_tick s) /\ overdue_step (ticks_now s) s (tcp_tick s) (conn s i) (conn (tcp_tick s) i).
Proof.
  intros Ht Hi Hfl Htr Hdl. unfold tcp_tick. set (now := ticks_now s) in *. set (s1 := set_tick_calls _ s).
  pose proof (for_up_ind (fun k t => table4 t /\ log_grows s t /\ (k <= i -> conn t i = conn s i) /\
    (i < k -> overdue_step now s t (conn s i) (conn t i))) (tick_conn now) 4 0 s1) as H.
  destruct H as (Ht' & _ & _ & H); [|..|split; [done|apply H; unfold TCP_MAX_CONNECTIONS in Hi; lia]].
  { split; [exact Ht|]. split; [by apply (log_grows_net s s), log_grows_refl|]. split; [done|lia]. }
  intros k t Hk (Htt & Hl & Hbefore & Hafter).
  assert (0 <= k < TCP_MAX_CONNECTIONS) as Hk' by (unfold TCP_MAX_CONNECTIONS; lia).
  destruct (tick_conn_on now k t Htt Hk') as (Ht2 & Hoth & _).
  pose proof (tick_conn_log now k t Htt Hk') as Hl2.
  split; [done|]. split; [by eapply log_grows_trans|].
  destruct (decide (k = i)) as [->|Hne].
  - split; [lia|]. intros _. rewrite <-(Hbefore ltac:(lia)) in Hfl, Htr, Hdl.
    pose proof (tick_conn_overdue now i t Htt Hi Hfl Htr Hdl) as Ho. rewrite (Hbefore ltac:(lia)) in Ho.
    destruct Hl as [Hip [m Hm]]. unfold overdue_step in *. destruct (tries (conn s i) <? RTO_MAX_TRIES); [|done].
    destruct Ho as (H1 & H2 & H3 & H4 & l & p & l' & H5 & H6). repeat (split; [done|]).
    exists (m ++ l), p, l'. split; [by rewrite H5, Hm, <-!app_assoc|]. by rewrite Hip in H6.
  - rewrite Hoth by lia. split; [intros; apply Hbefore; lia|].
    intros. apply (overdue_step_grows _ _ t); [done|]. apply Hafter. lia.
Qed.

(** The clock moves on; nothing arrives. *)
Definition at_time (now : Z) (s : tcp wire_net) : tcp wire_net :=
  set_net_of (mkWire (w_ip (net_of s)) now (sent s)) s.

(** [k] ticks, each one at or past the deadline of connection [i]. *)
Inductive overdue_ticks (i : Z) : nat -> tcp wire_net -> tcp wire_net -> Prop :=
  | ov_none s : overdue_ticks i 0 s s
  | ov_tick k s t now : overdue_ticks i k s t -> rto_deadline (conn t i) <= now ->
      overdue_ticks i (S k) s (tcp_tick (at_time now t)).


Lemma resent_same_flight ip c c' p : same_flight c c' -> resent ip c' p -> resent ip c p.
Proof.
  intros (_ & _ & F3 & F4 & F5 & F6 & F7 & F8 & F9 & F10) [w ->]. exists w.
  by rewrite F3, F4, F5, F6, F7, F8, F9, F10.
Qed.

(** The run so far: [k] of the segments sent since are the one in flight. *)
Definition resent_times (i : Z) (k : nat) (s t : tcp wire_net) : Prop :=
  exists l ps, sent t = sent s ++ l /\ length ps = k /\ sublist ps l /\
    Forall (resent (w_ip (net_of s)) (conn s i)) ps.

Lemma overdue_ticks_on i k s t :
  table4 s -> 0 <= i < TCP_MAX_CONNECTIONS -> in_flight (conn s i) ->
  tries (conn s i) = 0 -> rto_ticks (conn s i) = RTO_INITIAL_TICKS -> overdue_ticks i k s t -> (k <= 5)%nat ->
  table4 t /\ w_ip (net_of t) = w_ip (net_of s) /\ same_flight (conn s i) (conn t i) /\
  tries (conn t i) = Z.of_nat k /\ rto_ticks (conn t i) = RTO_INITIAL_TICKS * 2 ^ Z.of_nat k /\
  resent_times i k s t.
Proof.
  intros Ht Hi Hfl Htr Hrt Hrun. induction Hrun as [s|k s t now _ IH Hdl]; intros Hk.
  { split; [done|]. split; [done|]. split; [done|]. split; [done|]. split; [by rewrite Hrt|].
    exists [], []. by rewrite app_nil_r. }
  destruct (IH Ht Hfl Htr Hrt ltac:(lia)) as (Ht' & Hip & Hf & Htr' & Hrt' & l0 & ps & Hl0 & Hps & Hsub & Hall).
  pose proof Hf as (F1 & F2 & F3 & F4 & F5 & F6 & F7 & F8 & F9 & F10).
  assert (in_flight (conn t i)) as Hflt by (unfold in_flight in *; by rewrite F1, F2, F8, F9).
  destruct (tcp_tick_overdue i (at_time now t) Ht' Hi Hflt) as [Ht2 Ho]; [|exact Hdl|].
  { change (conn (at_time now t)) with (conn t). rewrite Htr'. lia. }
  unfold overdue_step in Ho. change (conn (at_time now t)) with (conn t) in Ho. rewrite Htr' in Ho.
  rewrite (proj2 (Z.ltb_lt _ RTO_MAX_TRIES)) in Ho by (unfold RTO_MAX_TRIES; lia).
  destruct Ho as (Hf2 & H2 & H3 & H4 & l & p & l' & H5 & H6).
  pose proof (same_flight_trans _ _ _ Hf Hf2) as Hf3.
  split; [done|]. split; [|split; [done|]].
  { rewrite <-Hip. clear -Ht' Hi. unfold tcp_tick. set (s1 := set_tick_calls _ _).
    destruct (for_up_ind (fun _ u => table4 u /\ w_ip (net_of u) = w_ip (net_of t)) (tick_conn (ticks_now (at_time now t))) 4 0 s1)
      as [_ H]; [by split| |exact H].
    intros k u Hk [Hu Hipu]. assert (0 <= k < TCP_MAX_CONNECTIONS) as Hk' by (unfold TCP_MAX_CONNECTIONS; lia).
    split; [apply (tick_conn_on _ k u Hu Hk')|]. by rewrite (proj1 (tick_conn_log (ticks_now (at_time now t)) k u Hu Hk')). }
  split; [rewrite H2; lia|]. split.
  { assert (1 <= 2 ^ Z.of_nat k <= 2 ^ 5) by (split; [lia|apply Z.pow_le_mono_r; lia]).
    rewrite H3, Hrt', Nat2Z.inj_succ, Z.pow_succ_r by lia. unfold RTO_INITIAL_TICKS.
    rewrite u32_small by lia. lia. }
  exists (l0 ++ l ++ [p] ++ l'), (ps ++ [p]). split; [rewrite H5; change (sent (at_time now t)) with (sent t); by rewrite Hl0, <-app_assoc|].
  split; [rewrite length_app; simpl; lia|]. split.
  - apply sublist_app; [done|]. apply sublist_inserts_l, sublist_inserts_r. reflexivity.
  - apply Forall_app. split; [done|]. apply Forall_singleton. rewrite <-Hip. exact (resent_same_flight _ _ _ _ Hf H6).
Qed.

(** C30: an unacknowledged segment is retransmitted five times, unchanged but for the window it
    tells, each timeout twice the last, and then given up: after [k <= 5] overdue ticks with
    nothing arriving the connection is in the state it was in, the segment in flight is the same
    and has been sent again [k] times; the sixth overdue tick closes the connection and the
    seventh frees its slot. *)
Theorem tcp_retransmit_gives_up (i : Z) (k : nat) (s t : tcp wire_net) :
  table4 s -> 0 <= i < TCP_MAX_CONNECTIONS -> in_flight (conn s i) ->
  tries (conn s i) = 0 -> rto_ticks (conn s i) = RTO_INITIAL_TICKS ->
  overdue_ticks i k s t ->
  ((k <= 5)%nat -> same_flight (conn s i) (conn t i) /\
    rto_ticks (conn t i) = RTO_INITIAL_TICKS * 2 ^ Z.of_nat k /\ resent_times i k s t) /\
  (k = 6%nat -> in_use (conn t i) = true /\ state (conn t i) = TCP_CLOSED) /\
  (k = 7%nat -> in_use (conn t i) = false).
Proof.
  intros Ht Hi Hfl Htr Hrt Hrun. split.
  { intros Hk. destruct (overdue_ticks_on i k s t Ht Hi Hfl Htr Hrt Hrun Hk) as (_ & _ & H1 & _ & H2 & H3). done. }
  assert (forall u, overdue_ticks i 6 s u -> table4 u /\ in_use (conn u i) = true /\ state (conn u i) = TCP_CLOSED) as H6.
  { intros u Hu. inversion Hu as [|? ? v now Hv Hdl]; subst.
    destruct (overdue_ticks_on i 5 s v Ht Hi Hfl Htr Hrt Hv) as (Htv & _ & Hf & Htrv & _); [lia|].
    destruct Hf as (F1 & F2 & F3 & F4 & F5 & F6 & F7 & F8 & F9 & F10).
    destruct (tcp_tick_overdue i (at_time now v) Htv Hi) as [Htu Ho]; [..|exact Hdl|].
    - change (conn (at_time now v)) with (conn v). unfold in_flight in *. by rewrite F1, F2, F8, F9.
    - change (conn (at_time now v)) with (conn v). rewrite Htrv. lia.
    - unfold overdue_step in Ho. change (conn (at_time now v)) with (conn v) in Ho. rewrite Htrv in Ho. by split. }
  split; [by intros ->; apply H6|]. intros ->. inversion Hrun as [|? ? v now Hv _]; subst.
  destruct (H6 v Hv) as (Htv & Huv & Hsv). clear -Htv Huv Hsv Hi.
  unfold tcp_tick. set (s1 := set_tick_calls _ (at_time now v)). set (nw := ticks_now _).
  destruct (for_up_ind (fun k t => table4 t /\ (k <= i -> conn t i = conn v i) /\ (i < k -> in_use (conn t i) = false))
    (tick_conn nw) 4 0 s1) as (_ & _ & H); [by split; [|split; [|lia]]|..|apply H; unfold TCP_MAX_CONNECTIONS in Hi; lia].
  intros k u Hk (Hu & Hb & Ha). assert (0 <= k < TCP_MAX_CONNECTIONS) as Hk' by (unfold TCP_MAX_CONNECTIONS; lia).
  destruct (tick_conn_on nw k u Hu Hk') as (Hu2 & Hoth & _). split; [done|].
  destruct (decide (k = i)) as [->|Hne]; [|rewrite Hoth by lia; split; intros; [apply Hb|apply Ha]; lia].
  split; [lia|]. intros _. unfold tick_conn. rewrite (Hb ltac:(lia)), Huv, Hsv, bool_decide_true by done.
  cbn [negb orb]. by rewrite conn_put_eq.
Qed.

Definition idle_tcp : tcp wire_net :=
  mkTcp [zero_conn; zero_conn; zero_conn; zero_conn] 49152 [0; 0; 0; 0] 0 0 0 0 0 (mkWire 33686018 1000 []).
Definition lost_syn : tcp wire_net := snd (tcp_connect 16843009 80 idle_tcp).
Definition lost_after (times : list Z) : tcp wire_net :=
  fold_left (fun s now => tcp_tick (at_time now s)) times lost_syn.

Lemma tcp_retransmit_gives_up_witness :
  let t := lost_after [1100; 1300; 1700; 2500; 4100; 7300; 7301] in
  in_use (conn lost_syn 0) = true /\ in_use (conn t 0) = false.
Proof.
  split; [vm_compute; reflexivity|].
  refine (proj2 (proj2 (tcp_retransmit_gives_up 0 7 lost_syn _ _ _ _ _ _ _)) eq_refl).
  - vm_compute. reflexivity.
  - vm_compute. split; [discriminate|reflexivity].
  - vm_compute. repeat split; discriminate.
  - vm_compute. reflexivity.
  - vm_compute. reflexivity.
  - unfold lost_after. cbn [fold_left]. repeat (apply ov_tick; [|vm_compute; discriminate]). apply ov_none.
Defined.


(** C26: the state machine of a connection: an arriving segment leaves the state of an open
    connection or moves it along one edge of the receive diagram; connecting and listening
    elsewhere do not touch it at all, reading does not move its state; sending, accepting,
    closing and ticking move it only along the host's own edges (a FIN sent, given up, closed). *)
Theorem tcp_state_machine {N} `{!IpLayer N} (s : tcp N) (i : Z) :
  table4 s -> 0 <= i < TCP_MAX_CONNECTIONS -> in_use (conn s i) = true ->
  let moved t := rtc own_edge (state (conn s i)) (state (conn t i)) in
  (forall src dst l, let t := tcp_receive src dst l s in
     state (conn t i) = state (conn s i) \/ segment_edge (state (conn s i)) (state (conn t i))) /\
  (forall dest port, conn (snd (tcp_connect dest port s)) i = conn s i) /\
  (forall port, conn (snd (tcp_listen port s)) i = conn s i) /\
  (forall h max, state (conn (snd (tcp_recv h max s)) i) = state (conn s i)) /\
  (forall h data, moved (snd (tcp_send h data s))) /\ (forall port, moved (snd (tcp_accept port s))) /\
  (forall h, moved (tcp_close h s)) /\ moved (tcp_tick s).
Proof.
  intros Ht Hi Hu. cbv zeta. split; [|split; [|split; [|split; [|split; [|split; [|split]]]]]].
  - intros src dst l. pose proof (tcp_receive_on src dst l s Ht) as H.
    destruct (parse_segment src dst l) as [g|]; [|left; by rewrite H].
    destruct (find_conn _ _ _ s) as [j|]; [|left; by rewrite (proj2 H)].
    destruct H as (_ & Hj & Ho). destruct (decide (i = j)) as [->|]; [|left; by rewrite Ho by lia].
    rewrite Hj. apply conn_receive_edge.
  - intros. by apply tcp_connect_kept.
  - intros. by apply tcp_listen_kept.
  - intros h max. unfold tcp_recv. destruct (handle_ok h s) eqn:Hh; [|done]. cbn [negb].
    apply handle_ok_range in Hh as [Hh _]. pose proof (recv_loop_state (Z.to_nat max) (conn s h) []) as Hl.
    destruct (recv_loop _ _ _) as [out c]. simpl in *. rewrite conn_put by (done || lia).
    destruct (Z.eqb_spec h i) as [->|]; [|done]. by case_match.
  - intros. by apply tcp_send_on.
  - intros. by apply tcp_accept_on.
  - intros. by apply tcp_close_on.
  - by apply tcp_tick_on.
Qed.

Lemma tcp_state_machine_witness :
  in_use (conn demo_tcp 0) = true /\
  rtc own_edge (state (conn demo_tcp 0)) (state (conn (tcp_close 0 demo_tcp) 0)).
Proof.
  split; [reflexivity|].
  assert (table4 demo_tcp) as Ht by (vm_compute; reflexivity).
  destruct (tcp_state_machine demo_tcp 0 Ht) as (_ & _ & _ & _ & _ & _ & Hc & _);
    [vm_compute; split; [discriminate|reflexivity]|reflexivity|apply Hc].
Defined.

(** C25: the three-way handshake completes: a client's [tcp_connect], the server's answer to the
    SYN on a listening port, the client's receipt of the SYN+ACK and the acknowledgement its next
    tick sends leave both ends ESTABLISHED, each expecting exactly the sequence number the other
    will send next, and the server's connection waiting to be accepted under the client's
    address and port. *)
Theorem tcp_handshake (s r : tcp wire_net) (port j : Z) :
  let ipS := w_ip (net_of s) in let ipR := w_ip (net_of r) in
  0 <= ipS < 2 ^ 32 -> 0 <= ipR < 2 ^ 32 -> 0 <= port < 2 ^ 16 -> 0 <= next_port s < 2 ^ 16 ->
  table4 s -> table4 r -> (forall k, 0 <= k < TCP_MAX_CONNECTIONS -> in_use (conn s k) = false) ->
  is_listening port r = true -> free_conn r = Some j -> find_conn ipS (next_port s) port r = None ->
  exists syn synack ack s1 s2 r1 r2,
    tcp_connect ipR port s = (0, s1) /\ sent s1 = sent s ++ [(ipR, IP_PROTO_TCP, syn)] /\
    tcp_receive ipS ipR syn r = r1 /\ sent r1 = sent r ++ [(ipS, IP_PROTO_TCP, synack)] /\
    tcp_receive ipR ipS synack s1 = s2 /\
    sent (tcp_tick s2) = sent s1 ++ [(ipR, IP_PROTO_TCP, ack)] /\
    tcp_receive ipS ipR ack r1 = r2 /\
    tcp_state_of 0 (tcp_tick s2) = TCP_ESTABLISHED /\ tcp_state_of j r2 = TCP_ESTABLISHED /\
    tcp_accept_ready port r2 = true /\
    rcv_next (conn r2 j) = snd_next (conn (tcp_tick s2) 0) /\
    rcv_next (conn (tcp_tick s2) 0) = snd_next (conn r2 j) /\
    tcp_peer_ip j r2 = ipS /\ tcp_peer_port j r2 = tcp_local_port 0 (tcp_tick s2).
Proof. intros. by apply hs_done. Qed.

Definition server_tcp : tcp wire_net := snd (tcp_listen 80 (set_net_of (mkWire 16843009 5 []) idle_tcp)).

Lemma tcp_handshake_witness :
  exists s1 s2 r2 : tcp wire_net, tcp_connect 16843009 80 idle_tcp = (0, s1) /\
    tcp_state_of 0 (tcp_tick s2) = TCP_ESTABLISHED /\ tcp_state_of 0 r2 = TCP_ESTABLISHED.
Proof.
  destruct (tcp_handshake idle_tcp server_tcp 80 0) as (syn & synack & ack & s1 & s2 & r1 & r2 & H).
  1-4: vm_compute; split; (discriminate || reflexivity).
  1-2: vm_compute; reflexivity.
  2-4: vm_compute; reflexivity.
  { intros k Hk. assert (k = 0 \/ k = 1 \/ k = 2 \/ k = 3) as [->|[->|[->| ->]]]
      by (unfold TCP_MAX_CONNECTIONS in Hk; lia); vm_compute; reflexivity. }
  exists s1, s2, r2. destruct H as (H1 & _ & _ & _ & _ & _ & _ & H8 & H9 & _). done.
Defined.

(** One 16-bit word of a built segment: what stands before and after it. *)
Lemma tcp_segment_word src dst sp dp seq ack flags win data a w b :
  is_byte flags -> Forall is_byte data -> zlen data <= TCP_MSS ->
  tcp_segment src dst sp dp seq ack flags win data = a ++ be16 w ++ b ->
  Forall is_byte a /\ Forall is_byte b /\ zlen a + 2 + zlen b = TCP_HDR + zlen data.
Proof.
  intros Hf Hby Hl Heq.
  assert (Forall is_byte (tcp_segment src dst sp dp seq ack flags win data)) as Hall.
  { unfold tcp_segment, tcp_header. repeat apply Forall_app_2;
      first [apply le16_is_byte | apply le32_is_byte | exact Hby | repeat constructor; unfold is_byte in *; lia]. }
  assert (zlen (tcp_segment src dst sp dp seq ack flags win data) = TCP_HDR + zlen data) as Hlen
    by (unfold tcp_segment; by rewrite zlen_app, tcp_header_len).
  rewrite Heq in Hall, Hlen. apply Forall_app in Hall as [Ha [_ Hb]%Forall_app].
  rewrite !zlen_app in Hlen. change (zlen (be16 w)) with 2 in Hlen. split; [done|]. split; [done|lia].
Qed.

(** C31: a segment survives the wire or is refused: what [send_segment] builds is read back by the
    receiver field for field and byte for byte, whatever the sequence numbers, flags and data; and
    when one 16-bit word of it (at an even offset) changes on the way, the receiver discards it,
    except where 0x0000 and 0xFFFF, the two zeros of ones' complement, change into one another:
    that the checksum does not see. *)
Theorem tcp_segment_roundtrip src dst sp dp seq ack flags win data :
  0 <= src < 2 ^ 32 -> 0 <= dst < 2 ^ 32 -> 0 <= sp < 2 ^ 16 -> 0 <= dp < 2 ^ 16 ->
  0 <= seq < 2 ^ 32 -> 0 <= ack < 2 ^ 32 -> is_byte flags -> Forall is_byte data -> zlen data <= TCP_MSS ->
  let l := tcp_segment src dst sp dp seq ack flags win data in
  parse_segment src dst l = Some (mkSeg sp dp seq ack flags data) /\
  forall a w w' b, l = a ++ be16 w ++ b -> Nat.even (length a) = true -> 0 <= w < 2 ^ 16 -> 0 <= w' < 2 ^ 16 ->
    let both_zero := (w = 0 /\ w' = 65535) \/ (w = 65535 /\ w' = 0) in
    (w <> w' -> ~ both_zero -> parse_segment src dst (a ++ be16 w' ++ b) = None) /\
    (both_zero -> segment_checksum src dst (a ++ be16 w' ++ b) = 0).
Proof.
  intros Hs Hd Hsp Hdp Hseq Hack Hf Hby Hl. cbv zeta. split; [by apply tcp_segment_parses|].
  intros a w w' b Heq Hev Hw Hw'.
  pose proof (tcp_segment_verifies src dst sp dp seq ack flags win data Hs Hd Hf Hby Hl) as Hv.
  destruct (tcp_segment_word src dst sp dp seq ack flags win data a w b Hf Hby Hl Heq) as (Ha & Hb & Hlen).
  rewrite Heq in Hv. pose proof (zlen_nonneg data). unfold TCP_HDR, TCP_MSS in *. unfold parse_segment, segment_checksum in *.
  rewrite !zlen_app in *. change (zlen (be16 w)) with 2 in Hv. change (zlen (be16 w')) with 2.
  pose proof (zlen_nonneg a). pose proof (zlen_nonneg b).
  pose proof (pseudo_sum_range src dst (zlen a + (2 + zlen b)) Hs Hd ltac:(lia)). split.
  - intros Hne Hz. destruct (_ <? TCP_HDR); [done|]. destruct (_ || _); [done|].
    rewrite (proj2 (Z.eqb_neq _ 0)); [done|].
    apply (net_checksum_change a b _ w w'); try done; [lia|lia|]. by rewrite (words_congruent w w').
  - intros Hz. apply (net_checksum_blind a b _ w w'); try done; [lia|]. apply words_congruent; lia.
Qed.

Lemma tcp_segment_roundtrip_witness :
  let l := tcp_segment 16843009 33686018 80 49152 4294967295 7 24 512 hello in
  parse_segment 16843009 33686018 l = Some (mkSeg 80 49152 4294967295 7 24 hello) /\
  parse_segment 16843009 33686018 (be16 81 ++ drop 2 l) = None /\
  segment_checksum 16843009 33686018 (zslice 0 4 l ++ be16 0 ++ drop 6 l) = 0.
Proof.
  destruct (tcp_segment_roundtrip 16843009 33686018 80 49152 4294967295 7 24 512 hello) as [H1 H2].
  1-7: vm_compute; split; (discriminate || reflexivity).
  - repeat constructor; (discriminate || reflexivity).
  - vm_compute. discriminate.
  - split; [exact H1|]. split.
    + apply (H2 [] 80 81); [vm_compute; reflexivity|reflexivity|split; [discriminate|reflexivity]..|discriminate|].
      intros [[H _]|[H _]]; discriminate H.
    + apply (H2 (zslice 0 4 (tcp_segment 16843009 33686018 80 49152 4294967295 7 24 512 hello)) 65535 0);
        [vm_compute; reflexivity|vm_compute; reflexivity|split; [discriminate|reflexivity]..|right; split; reflexivity].
Defined.

(** ** Findings *)

(** A FIN is taken although the data of its segment was not: the peer repacks
    "hello" with its FIN after "he" arrived, and the stream ends after "he". *)
Definition repacked : tcp wire_net :=
  tcp_receive 16843009 33686018 (demo_seg 0 (Z.lor TCP_FIN TCP_ACK) hello)
    (tcp_receive 16843009 33686018 (demo_seg 0 TCP_ACK [104; 101]) demo_tcp).

Example fin_without_its_data :
  fst (tcp_recv 0 100 repacked) = (2, [104; 101]) /\ tcp_eof 0 (snd (tcp_recv 0 100 repacked)) = true /\
  state (conn repacked 0) = TCP_CLOSE_WAIT /\ rcv_next (conn repacked 0) = 1.
Proof. vm_compute. repeat split. Qed.

(** The layer below cannot send yet (the next hop's address is being
    resolved). *)
Record mute_net := mkMute { m_ticks : Z }.

#[export] Instance mute_ip : IpLayer mute_net.
Proof.
  refine {| ip_send := fun _ _ _ n => (-1, n); local_ip := fun _ => 33686018;
            ip_configured := fun _ => true; pit_ticks := m_ticks |}.
  done.
Defined.

(** [tcp_send] then says that nothing was taken, but the data is in flight and
    numbered: a caller that offers it again (as [tcp_send_all] does) sends it
    twice. *)
Example send_refused_but_tracked :
  let s := mkTcp [demo_conn; zero_conn; zero_conn; zero_conn] 49153 [0; 0; 0; 0] 0 0 0 0 0 (mkMute 1000) in
  let '(n, s') := tcp_send 0 hello s in
  n = 0 /\ snd_next (conn s' 0) = 7005 /\ zslice 0 (pending_len (conn s' 0)) (pending (conn s' 0)) = hello.
Proof. vm_compute. repeat split. Qed.

(** Nobody listens, and a SYN for port 0 is answered as if somebody did. *)
Example port_zero_listens : is_listening 0 idle_tcp = true.
Proof. reflexivity. Qed.

(** A retransmitted FIN (its acknowledgement was lost) is not acknowledged
    again. *)
Example fin_not_acked_again :
  let g := mkSeg 80 49152 0 7000 (Z.lor TCP_FIN TCP_ACK) [] in
  let c := set_ack_pending false (fst (conn_receive 0 g (set_rcv_next 0 demo_conn))) in
  state c = TCP_CLOSE_WAIT /\ ack_pending (fst (conn_receive 0 g c)) = false.
Proof. vm_compute. split; reflexivity. Qed.
