(* ===== verification/Sched64.v ===== *)
(** * The scheduler ([kernel/sched64.c])

    Round-robin preemption over a fixed table of tasks, done inside the timer
    interrupt.  The state is the table and the file's static variables,
    together with what of the CPU a switch moves: the FS and GS bases, the
    x87/SSE registers, the loaded address space, the process the kernel takes
    to be running and the clock.  The interrupted frame is an argument, as in
    the code.  A blocking call hands the caller a [resume] (the out
    parameters), which [sched64_resume] loads as [syscall64.c] does.  Halting
    is modelled with the timer as the interrupt that ends it.  Left out:
    [sched64_dump_blocked] and [tasks_full], which print. *)

From S2P Require Import Prelude.

Definition SCHED64_MAX_TASKS : Z := 1024.
Definition SCHED64_COND_KEY : Z := 0xFFFFFFFFFFFFFF01.
Definition UCODE_SEL_RPL3 : Z := 0x23.
Definition UDATA_SEL_RPL3 : Z := 0x1B.
Definition RFLAGS_IF : Z := 0x202.
Definition ALL_BITS : Z := 0xFFFFFFFF.

(** ** The data *)

Record registers64 := mkRegs {
  rax : Z;
  rbx : Z;
  rcx : Z;
  rdx : Z;
  rsi : Z;
  rdi : Z;
  rbp : Z;
  r8 : Z;
  r9 : Z;
  r10 : Z;
  r11 : Z;
  r12 : Z;
  r13 : Z;
  r14 : Z;
  r15 : Z;
  int_no : Z;
  err_code : Z;
  rip : Z;
  cs : Z;
  rflags : Z;
  rsp : Z;
  ss : Z
}.

Definition set_rax (v : Z) (s : registers64) : registers64 :=
  mkRegs v (rbx s) (rcx s) (rdx s) (rsi s) (rdi s) (rbp s) (r8 s) (r9 s) (r10 s) (r11 s) (r12 s) (r13 s) (r14 s) (r15 s) (int_no s) (err_code s) (rip s) (cs s) (rflags s) (rsp s) (ss s).
Definition set_rdi (v : Z) (s : registers64) : registers64 :=
  mkRegs (rax s) (rbx s) (rcx s) (rdx s) (rsi s) v (rbp s) (r8 s) (r9 s) (r10 s) (r11 s) (r12 s) (r13 s) (r14 s) (r15 s) (int_no s) (err_code s) (rip s) (cs s) (rflags s) (rsp s) (ss s).
Definition set_rip (v : Z) (s : registers64) : registers64 :=
  mkRegs (rax s) (rbx s) (rcx s) (rdx s) (rsi s) (rdi s) (rbp s) (r8 s) (r9 s) (r10 s) (r11 s) (r12 s) (r13 s) (r14 s) (r15 s) (int_no s) (err_code s) v (cs s) (rflags s) (rsp s) (ss s).
Definition set_cs (v : Z) (s : registers64) : registers64 :=
  mkRegs (rax s) (rbx s) (rcx s) (rdx s) (rsi s) (rdi s) (rbp s) (r8 s) (r9 s) (r10 s) (r11 s) (r12 s) (r13 s) (r14 s) (r15 s) (int_no s) (err_code s) (rip s) v (rflags s) (rsp s) (ss s).
Definition set_rflags (v : Z) (s : registers64) : registers64 :=
  mkRegs (rax s) (rbx s) (rcx s) (rdx s) (rsi s) (rdi s) (rbp s) (r8 s) (r9 s) (r10 s) (r11 s) (r12 s) (r13 s) (r14 s) (r15 s) (int_no s) (err_code s) (rip s) (cs s) v (rsp s) (ss s).
Definition set_rsp (v : Z) (s : registers64) : registers64 :=
  mkRegs (rax s) (rbx s) (rcx s) (rdx s) (rsi s) (rdi s) (rbp s) (r8 s) (r9 s) (r10 s) (r11 s) (r12 s) (r13 s) (r14 s) (r15 s) (int_no s) (err_code s) (rip s) (cs s) (rflags s) v (ss s).
Definition set_ss (v : Z) (s : registers64) : registers64 :=
  mkRegs (rax s) (rbx s) (rcx s) (rdx s) (rsi s) (rdi s) (rbp s) (r8 s) (r9 s) (r10 s) (r11 s) (r12 s) (r13 s) (r14 s) (r15 s) (int_no s) (err_code s) (rip s) (cs s) (rflags s) (rsp s) v.

Definition zero_regs : registers64 := mkRegs 0 0 0 0 0 0 0 0 0 0 0 0 0 0 0 0 0 0 0 0 0 0.

Record task64 := mkTask {
  regs : registers64;
  space : Z (* the address space, by its PML4 *);
  fs_base : Z;
  gs_base : Z;
  wait_addr : Z (* what it is blocked on *);
  wake_rax : Z (* rax when woken *);
  timeout_rax : Z (* rax when the deadline ends the wait *);
  wait_bits : Z (* FUTEX_WAIT_BITSET's mask *);
  deadline : Z (* 0: none *);
  signal_restart : Z;
  pid : Z;
  blocked : bool;
  used : bool;
  fpu : list Z
}.

Definition set_regs (v : registers64) (s : task64) : task64 :=
  mkTask v (space s) (fs_base s) (gs_base s) (wait_addr s) (wake_rax s) (timeout_rax s) (wait_bits s) (deadline s) (signal_restart s) (pid s) (blocked s) (used s) (fpu s).
Definition set_space (v : Z) (s : task64) : task64 :=
  mkTask (regs s) v (fs_base s) (gs_base s) (wait_addr s) (wake_rax s) (timeout_rax s) (wait_bits s) (deadline s) (signal_restart s) (pid s) (blocked s) (used s) (fpu s).
Definition set_fs_base (v : Z) (s : task64) : task64 :=
  mkTask (regs s) (space s) v (gs_base s) (wait_addr s) (wake_rax s) (timeout_rax s) (wait_bits s) (deadline s) (signal_restart s) (pid s) (blocked s) (used s) (fpu s).
Definition set_gs_base (v : Z) (s : task64) : task64 :=
  mkTask (regs s) (space s) (fs_base s) v (wait_addr s) (wake_rax s) (timeout_rax s) (wait_bits s) (deadline s) (signal_restart s) (pid s) (blocked s) (used s) (fpu s).
Definition set_wait_addr (v : Z) (s : task64) : task64 :=
  mkTask (regs s) (space s) (fs_base s) (gs_base s) v (wake_rax s) (timeout_rax s) (wait_bits s) (deadline s) (signal_restart s) (pid s) (blocked s) (used s) (fpu s).
Definition set_wake_rax (v : Z) (s : task64) : task64 :=
  mkTask (regs s) (space s) (fs_base s) (gs_base s) (wait_addr s) v (timeout_rax s) (wait_bits s) (deadline s) (signal_restart s) (pid s) (blocked s) (used s) (fpu s).
Definition set_timeout_rax (v : Z) (s : task64) : task64 :=
  mkTask (regs s) (space s) (fs_base s) (gs_base s) (wait_addr s) (wake_rax s) v (wait_bits s) (deadline s) (signal_restart s) (pid s) (blocked s) (used s) (fpu s).
Definition set_wait_bits (v : Z) (s : task64) : task64 :=
  mkTask (regs s) (space s) (fs_base s) (gs_base s) (wait_addr s) (wake_rax s) (timeout_rax s) v (deadline s) (signal_restart s) (pid s) (blocked s) (used s) (fpu s).
Definition set_deadline (v : Z) (s : task64) : task64 :=
  mkTask (regs s) (space s) (fs_base s) (gs_base s) (wait_addr s) (wake_rax s) (timeout_rax s) (wait_bits s) v (signal_restart s) (pid s) (blocked s) (used s) (fpu s).
Definition set_signal_restart (v : Z) (s : task64) : task64 :=
  mkTask (regs s) (space s) (fs_base s) (gs_base s) (wait_addr s) (wake_rax s) (timeout_rax s) (wait_bits s) (deadline s) v (pid s) (blocked s) (used s) (fpu s).
Definition set_pid (v : Z) (s : task64) : task64 :=
  mkTask (regs s) (space s) (fs_base s) (gs_base s) (wait_addr s) (wake_rax s) (timeout_rax s) (wait_bits s) (deadline s) (signal_restart s) v (blocked s) (used s) (fpu s).
Definition set_blocked (v : bool) (s : task64) : task64 :=
  mkTask (regs s) (space s) (fs_base s) (gs_base s) (wait_addr s) (wake_rax s) (timeout_rax s) (wait_bits s) (deadline s) (signal_restart s) (pid s) v (used s) (fpu s).
Definition set_used (v : bool) (s : task64) : task64 :=
  mkTask (regs s) (space s) (fs_base s) (gs_base s) (wait_addr s) (wake_rax s) (timeout_rax s) (wait_bits s) (deadline s) (signal_restart s) (pid s) (blocked s) v (fpu s).
Definition set_fpu (v : list Z) (s : task64) : task64 :=
  mkTask (regs s) (space s) (fs_base s) (gs_base s) (wait_addr s) (wake_rax s) (timeout_rax s) (wait_bits s) (deadline s) (signal_restart s) (pid s) (blocked s) (used s) v.

Definition no_task : task64 := mkTask zero_regs 0 0 0 0 0 0 0 0 0 0 false false [].
#[export] Instance task64_inhabited : Inhabited task64 := populate no_task.

Record sched := mkSched {
  tasks : list task64;
  task_total : Z;
  current : Z (* -1: none *);
  switch_count : Z;
  stop_after : Z;
  stop_rip : Z;
  idling : bool;
  next_signal_restart : Z;
  fpu_initial : list Z;
  cpu_fs : Z (* IA32_FS_BASE *);
  cpu_gs : Z (* IA32_GS_BASE *);
  cpu_fpu : list Z (* x87 and SSE registers *);
  cr3 : Z;
  current_pid : Z (* proc64.c *);
  ticks : Z (* clock64.c *);
  irq0_masked : bool
}.

Definition set_tasks (v : list task64) (s : sched) : sched :=
  mkSched v (task_total s) (current s) (switch_count s) (stop_after s) (stop_rip s) (idling s) (next_signal_restart s) (fpu_initial s) (cpu_fs s) (cpu_gs s) (cpu_fpu s) (cr3 s) (current_pid s) (ticks s) (irq0_masked s).
Definition set_task_total (v : Z) (s : sched) : sched :=
  mkSched (tasks s) v (current s) (switch_count s) (stop_after s) (stop_rip s) (idling s) (next_signal_restart s) (fpu_initial s) (cpu_fs s) (cpu_gs s) (cpu_fpu s) (cr3 s) (current_pid s) (ticks s) (irq0_masked s).
Definition set_current (v : Z) (s : sched) : sched :=
  mkSched (tasks s) (task_total s) v (switch_count s) (stop_after s) (stop_rip s) (idling s) (next_signal_restart s) (fpu_initial s) (cpu_fs s) (cpu_gs s) (cpu_fpu s) (cr3 s) (current_pid s) (ticks s) (irq0_masked s).
Definition set_switch_count (v : Z) (s : sched) : sched :=
  mkSched (tasks s) (task_total s) (current s) v (stop_after s) (stop_rip s) (idling s) (next_signal_restart s) (fpu_initial s) (cpu_fs s) (cpu_gs s) (cpu_fpu s) (cr3 s) (current_pid s) (ticks s) (irq0_masked s).
Definition set_stop_after (v : Z) (s : sched) : sched :=
  mkSched (tasks s) (task_total s) (current s) (switch_count s) v (stop_rip s) (idling s) (next_signal_restart s) (fpu_initial s) (cpu_fs s) (cpu_gs s) (cpu_fpu s) (cr3 s) (current_pid s) (ticks s) (irq0_masked s).
Definition set_stop_rip (v : Z) (s : sched) : sched :=
  mkSched (tasks s) (task_total s) (current s) (switch_count s) (stop_after s) v (idling s) (next_signal_restart s) (fpu_initial s) (cpu_fs s) (cpu_gs s) (cpu_fpu s) (cr3 s) (current_pid s) (ticks s) (irq0_masked s).
Definition set_idling (v : bool) (s : sched) : sched :=
  mkSched (tasks s) (task_total s) (current s) (switch_count s) (stop_after s) (stop_rip s) v (next_signal_restart s) (fpu_initial s) (cpu_fs s) (cpu_gs s) (cpu_fpu s) (cr3 s) (current_pid s) (ticks s) (irq0_masked s).
Definition set_next_signal_restart (v : Z) (s : sched) : sched :=
  mkSched (tasks s) (task_total s) (current s) (switch_count s) (stop_after s) (stop_rip s) (idling s) v (fpu_initial s) (cpu_fs s) (cpu_gs s) (cpu_fpu s) (cr3 s) (current_pid s) (ticks s) (irq0_masked s).
Definition set_fpu_initial (v : list Z) (s : sched) : sched :=
  mkSched (tasks s) (task_total s) (current s) (switch_count s) (stop_after s) (stop_rip s) (idling s) (next_signal_restart s) v (cpu_fs s) (cpu_gs s) (cpu_fpu s) (cr3 s) (current_pid s) (ticks s) (irq0_masked s).
Definition set_cpu_fs (v : Z) (s : sched) : sched :=
  mkSched (tasks s) (task_total s) (current s) (switch_count s) (stop_after s) (stop_rip s) (idling s) (next_signal_restart s) (fpu_initial s) v (cpu_gs s) (cpu_fpu s) (cr3 s) (current_pid s) (ticks s) (irq0_masked s).
Definition set_cpu_gs (v : Z) (s : sched) : sched :=
  mkSched (tasks s) (task_total s) (current s) (switch_count s) (stop_after s) (stop_rip s) (idling s) (next_signal_restart s) (fpu_initial s) (cpu_fs s) v (cpu_fpu s) (cr3 s) (current_pid s) (ticks s) (irq0_masked s).
Definition set_cpu_fpu (v : list Z) (s : sched) : sched :=
  mkSched (tasks s) (task_total s) (current s) (switch_count s) (stop_after s) (stop_rip s) (idling s) (next_signal_restart s) (fpu_initial s) (cpu_fs s) (cpu_gs s) v (cr3 s) (current_pid s) (ticks s) (irq0_masked s).
Definition set_cr3 (v : Z) (s : sched) : sched :=
  mkSched (tasks s) (task_total s) (current s) (switch_count s) (stop_after s) (stop_rip s) (idling s) (next_signal_restart s) (fpu_initial s) (cpu_fs s) (cpu_gs s) (cpu_fpu s) v (current_pid s) (ticks s) (irq0_masked s).
Definition set_current_pid (v : Z) (s : sched) : sched :=
  mkSched (tasks s) (task_total s) (current s) (switch_count s) (stop_after s) (stop_rip s) (idling s) (next_signal_restart s) (fpu_initial s) (cpu_fs s) (cpu_gs s) (cpu_fpu s) (cr3 s) v (ticks s) (irq0_masked s).
Definition set_ticks (v : Z) (s : sched) : sched :=
  mkSched (tasks s) (task_total s) (current s) (switch_count s) (stop_after s) (stop_rip s) (idling s) (next_signal_restart s) (fpu_initial s) (cpu_fs s) (cpu_gs s) (cpu_fpu s) (cr3 s) (current_pid s) v (irq0_masked s).
Definition set_irq0_masked (v : bool) (s : sched) : sched :=
  mkSched (tasks s) (task_total s) (current s) (switch_count s) (stop_after s) (stop_rip s) (idling s) (next_signal_restart s) (fpu_initial s) (cpu_fs s) (cpu_gs s) (cpu_fpu s) (cr3 s) (current_pid s) (ticks s) v.

Definition task (s : sched) (i : Z) : task64 := zget (tasks s) i.
Definition put (i : Z) (t : task64) (s : sched) : sched := set_tasks (zset (tasks s) i t) s.
Definition NTASKS : nat := Z.to_nat SCHED64_MAX_TASKS.

(** [for (i = 0; i < SCHED64_MAX_TASKS; i++)]. *)
Definition each_task (body : Z -> sched -> sched) (s : sched) : sched := for_up NTASKS 0 body s.
Definition find_task (p : task64 -> bool) (s : sched) : option Z :=
  find_up NTASKS 0 (fun i => p (task s i)).
Definition runnable (t : task64) : bool := used t && negb (blocked t).

Definition fpu_save (i : Z) (s : sched) : sched := put i (set_fpu (cpu_fpu s) (task s i)) s.
Definition fpu_restore (i : Z) (s : sched) : sched := set_cpu_fpu (fpu (task s i)) s.

(** ** Starting *)

(** [clean] is what FXSAVE stores after FNINIT; MXCSR is its bytes 24 to 27. *)
Definition sched64_init (clean : list Z) (s : sched) : sched :=
  let s := set_fpu_initial (zsplice 24 [0x80; 0x1F; 0; 0] clean) s in
  let s := each_task (fun i s => put i (set_used false (task s i)) s) s in
  set_stop_rip 0 (set_stop_after 0 (set_switch_count 0 (set_current (-1) (set_task_total 0 s)))).

(** ** Questions about the table *)

Definition in_table (i : Z) : bool := (0 <=? i) && (i <? SCHED64_MAX_TASKS).

Definition sched64_task_peek (i : Z) (s : sched) : option (Z * Z * Z * Z * Z) :=
  if negb (in_table i) || negb (used (task s i)) then None else
  let t := task s i in
  Some (pid t, (if blocked t then wait_addr t else 0), gs_base t, rsp (regs t), space t).

Definition sched64_blocked_on (i : Z) (s : sched) : Z :=
  if negb (in_table i) then 0 else
  if negb (used (task s i)) || negb (blocked (task s i)) then 0 else wait_addr (task s i).

Definition sched64_blocked_pid (i : Z) (s : sched) : Z :=
  if negb (in_table i) then -1 else
  if negb (used (task s i)) || negb (blocked (task s i)) then -1 else pid (task s i).

Definition sched64_pid_tasks (p : Z) (s : sched) : Z :=
  count_up NTASKS 0 (fun i => used (task s i) && (pid (task s i) =? p)).

Definition sched64_space_in_use (pml4_phys : Z) (s : sched) : bool :=
  if pml4_phys =? 0 then true else
  match find_task (fun t => used t && (space t =? pml4_phys)) s with Some _ => true | None => false end.

Definition sched64_task_pid (tid : Z) (s : sched) : Z :=
  if negb (in_table tid) then -1 else if negb (used (task s tid)) then -1 else pid (task s tid).

(** ** Adding tasks *)

Definition sched64_add (rip_ rsp_ arg sp : Z) (s : sched) : Z * sched :=
  match find_task (fun t => negb (used t)) s with
  | None => (-1, s)
  | Some i =>
      let t := set_regs zero_regs (task s i) in
      let t := set_gs_base (cpu_gs s) t in
      let t := set_fpu (fpu_initial s) t in
      let r := set_rdi arg (set_rflags RFLAGS_IF (set_ss UDATA_SEL_RPL3 (set_cs UCODE_SEL_RPL3
                 (set_rsp rsp_ (set_rip rip_ (regs t)))))) in
      let t := set_wait_addr 0 (set_blocked false (set_fs_base 0 (set_space sp (set_regs r t)))) in
      let t := set_used true (set_pid (current_pid s) t) in
      (i, set_task_total (task_total s + 1) (put i t s))
  end.

Definition sched64_add_frame_for (r : registers64) (sp fs p : Z) (s : sched) : Z * sched :=
  match find_task (fun t => negb (used t)) s with
  | None => (-1, s)
  | Some i =>
      let t := set_fs_base fs (set_space sp (set_regs r (set_pid p (task s i)))) in
      let t := set_used true (set_wait_addr 0 (set_blocked false t)) in
      let t := set_fpu (fpu_initial s) (set_gs_base (cpu_gs s) t) in
      (i, set_task_total (task_total s + 1) (put i t s))
  end.

Definition sched64_add_frame (r : registers64) (sp fs : Z) (s : sched) : Z * sched :=
  sched64_add_frame_for r sp fs (current_pid s) s.

(** ** The running task *)

Definition nobody (s : sched) : bool := (current s <? 0) || negb (used (task s (current s))).

Definition sched64_set_current_space (sp : Z) (s : sched) : sched :=
  if nobody s then s else put (current s) (set_space sp (task s (current s))) s.

Definition sched64_current_space (s : sched) : option Z :=
  if nobody s then None else Some (space (task s (current s))).

Definition sched64_set_current (index : Z) (s : sched) : sched :=
  let s := set_current index s in
  if in_table index then put index (set_fs_base (cpu_fs s) (task s index)) s else s.

Definition sched64_stop_after (switches exit_rip : Z) (s : sched) : sched :=
  set_stop_rip exit_rip (set_stop_after switches s).

(** ** The clock *)

Definition first_runnable (s : sched) : Z :=
  match find_task runnable s with Some i => i | None => -1 end.

Definition has_deadline (t : task64) : bool := used t && blocked t && nz (deadline t).

Definition any_deadline (s : sched) : bool :=
  match find_task has_deadline s with Some _ => true | None => false end.

(** One task's turn in [expire_deadlines]. *)
Definition expire (now : Z) (t : task64) : task64 :=
  if negb (used t) || negb (blocked t) then t else
  if negb (nz (deadline t)) || (now <? deadline t) then t else
  set_regs (set_rax (timeout_rax t) (regs t)) (set_deadline 0 (set_wait_addr 0 (set_blocked false t))).

Definition expire_deadlines (s : sched) : sched :=
  let now := ticks s in each_task (fun i s => put i (expire now (task s i)) s) s.

(** [next_task]: the next runnable one after [from], going round. *)
Definition next_task (from : Z) (s : sched) : Z :=
  match find_up NTASKS 1 (fun n => runnable (task s ((from + n) mod SCHED64_MAX_TASKS))) with
  | Some n => (from + n) mod SCHED64_MAX_TASKS
  | None => from
  end.

(** Everything the outgoing task is, and everything the incoming one is. *)
Record resume := mkResume { r_regs : registers64; r_space : Z; r_fs : Z }.

Definition switch_out (s : sched) : sched :=
  fpu_save (current s) (put (current s) (set_gs_base (cpu_gs s) (task s (current s))) s).

Definition switch_in (next : Z) (s : sched) : resume * sched :=
  let s := fpu_restore next (set_current next s) in
  let t := task s next in
  let s := set_cpu_gs (gs_base t) s in
  (mkResume (regs t) (space t) (fs_base t), set_current_pid (pid t) s).

(** What the callers of the blocking calls do with the out parameters. *)
Definition sched64_resume (r : resume) (s : sched) : registers64 * sched :=
  (r_regs r, set_cpu_fs (r_fs r) (set_cr3 (r_space r) s)).

Definition sched64_tick (frame : registers64) (s : sched) : registers64 * sched :=
  let s := expire_deadlines s in
  if idling s then (frame, s) else
  if (current s <? 0) || (task_total s <? 2) then (frame, s) else
  let next := next_task (current s) s in
  if next =? current s then (frame, s) else
  let c := current s in
  let s := put c (set_fs_base (cpu_fs s) (set_regs frame (task s c))) s in
  let s := switch_out s in
  let '(r, s) := switch_in next s in
  let '(frame, s) := sched64_resume r s in
  let s := set_switch_count (u64 (switch_count s + 1)) s in
  (if nz (stop_after s) && (stop_after s <=? switch_count s) && nz (stop_rip s)
   then set_rip (stop_rip s) frame else frame, s).

(** [sched_timer_handler]: the clock, then the scheduler. *)
Definition timer_interrupt (frame : registers64) (s : sched) : registers64 * sched :=
  sched64_tick frame (set_ticks (u64 (ticks s + 1)) s).

(** The idle loop: one halt, ended by the timer, per unit of fuel.  [None] is
    "still halting". *)
Fixpoint idle_loop (fuel : nat) (frame : registers64) (s : sched) : option (Z * sched) :=
  match fuel with
  | O => None
  | S fuel' =>
      let s := expire_deadlines (snd (timer_interrupt frame s)) in
      let n := first_runnable s in
      if 0 <=? n then Some (n, s) else
      if negb (any_deadline s) then Some (-1, s) else idle_loop fuel' frame s
  end.

Definition idle_until_runnable (fuel : nat) (s : sched) : option (Z * sched) :=
  match idle_loop fuel zero_regs (set_idling true s) with
  | None => None
  | Some (n, s) => Some (n, set_idling false s)
  end.

(** ** Giving the CPU up

    [None] is "still idling": the fuel bounds the number of halts. *)

Definition wait_clear (i : Z) (s : sched) : sched :=
  put i (set_deadline 0 (set_wait_addr 0 (set_blocked false (task s i)))) s.

(** Park the running task on [addr]. *)
Definition park (r : registers64) (addr wake_rax_ timeout_rax_ deadline_ bits : Z) (s : sched) : sched :=
  let c := current s in
  let t := set_blocked true (set_regs r (set_fs_base (cpu_fs s) (task s c))) in
  let t := set_wait_bits bits (set_timeout_rax timeout_rax_ (set_wake_rax wake_rax_ (set_wait_addr addr t))) in
  let t := set_signal_restart (next_signal_restart s) (set_deadline deadline_ t) in
  set_next_signal_restart 0 (put c t s).

Definition sched64_block_until_ex (fuel : nat) (r : registers64) (addr wake_rax_ timeout_rax_ deadline_ bits : Z)
    (s : sched) : option (option resume * sched) :=
  if nobody s then Some (None, s) else
  let s := park r addr wake_rax_ timeout_rax_ deadline_ bits s in
  let next := next_task (current s) s in
  if (next =? current s) || blocked (task s next) then
    if irq0_masked s || negb (any_deadline s) then Some (None, wait_clear (current s) s) else
    match idle_until_runnable fuel s with
    | None => None
    | Some (next, s) =>
        if next <? 0 then Some (None, wait_clear (current s) s) else
        let '(r, s) := switch_in next (switch_out s) in Some (Some r, s)
    end
  else let '(r, s) := switch_in next (switch_out s) in Some (Some r, s).

Definition sched64_block_until (fuel : nat) (r : registers64) (addr wake_rax_ deadline_ : Z) (s : sched) :=
  sched64_block_until_ex fuel r addr wake_rax_ wake_rax_ deadline_ ALL_BITS s.

Definition sched64_block_current (fuel : nat) (r : registers64) (addr wake_rax_ : Z) (s : sched) :=
  sched64_block_until fuel r addr wake_rax_ 0 s.

Definition sched64_signal_restart (nr : Z) (s : sched) : sched := set_next_signal_restart nr s.

Definition sched64_yield_current (r : registers64) (s : sched) : option resume * sched :=
  if nobody s then (None, s) else
  let c := current s in
  let s := put c (set_regs r (set_fs_base (cpu_fs s) (task s c))) s in
  let next := next_task c s in
  if next =? c then (None, s) else
  let '(r, s) := switch_in next (switch_out s) in (Some r, s).

(** The first runnable task, or the one the clock makes runnable, takes over
    from a task that has ended. *)
Definition succeed (fuel : nat) (s : sched) : option (option resume * sched) :=
  let found :=
    match find_task runnable s with
    | Some i => Some (i, s)
    | None => if negb (irq0_masked s) && any_deadline s then idle_until_runnable fuel s
              else Some (SCHED64_MAX_TASKS, s)
    end in
  match found with
  | None => None
  | Some (next, s) =>
      if negb (in_table next) then Some (None, set_current (-1) s) else
      let '(r, s) := switch_in next s in Some (Some r, s)
  end.

Definition remove_task (i : Z) (s : sched) : sched :=
  let s := put i (set_used false (task s i)) s in
  if 0 <? task_total s then set_task_total (task_total s - 1) s else s.

Definition sched64_exit_current (fuel : nat) (s : sched) : option (option resume * sched) :=
  if nobody s then Some (None, s) else succeed fuel (remove_task (current s) s).

Definition sched64_remove_pid (p : Z) (s : sched) : Z * sched :=
  for_up NTASKS 0 (fun i '(n, s) =>
    if negb (used (task s i)) || negb (pid (task s i) =? p) then (n, s) else
    let s := remove_task i s in
    (n + 1, if i =? current s then set_current (-1) s else s)) (0, s).

Definition sched64_exit_process (fuel : nat) (p : Z) (s : sched) : option (option resume * sched) :=
  succeed fuel (each_task (fun i s =>
    if negb (used (task s i)) || negb (pid (task s i) =? p) then s else remove_task i s) s).

(** ** Waking *)

Definition signalled (t : task64) : task64 :=
  let t := set_wait_addr 0 (set_blocked false t) in
  if nz (signal_restart t)
  then set_signal_restart 0
         (set_regs (set_rax (signal_restart t) (set_rip (u64 (rip (regs t) - 2)) (regs t))) t)
  else set_regs (set_rax (wake_rax t) (regs t)) t.

Definition woken_by_signal (i : Z) (s : sched) : sched := put i (signalled (task s i)) s.

Definition sched64_wake_pid (p : Z) (s : sched) : Z * sched :=
  for_up NTASKS 0 (fun i '(n, s) =>
    let t := task s i in
    if negb (used t) || negb (blocked t) || negb (pid t =? p) then (n, s)
    else (n + 1, woken_by_signal i s)) (0, s).

Definition sched64_wake_tid (tid : Z) (s : sched) : bool * sched :=
  if negb (in_table tid) then (false, s) else
  if negb (used (task s tid)) || negb (blocked (task s tid)) then (false, s) else
  (true, woken_by_signal tid s).

(** A waiter on [addr] that this wake is for; [p] is -1 for any process. *)
Definition waits_for (addr bits p : Z) (t : task64) : bool :=
  used t && blocked t && (wait_addr t =? addr) && negb ((0 <=? p) && negb (pid t =? p))
    && nz (Z.land (wait_bits t) bits).

Definition woken (t : task64) : task64 :=
  set_regs (set_rax (wake_rax t) (regs t)) (set_wait_addr 0 (set_blocked false t)).

Definition wake_waiters (addr max bits p : Z) (s : sched) : Z * sched :=
  for_up NTASKS 0 (fun i '(n, s) =>
    if negb (n <? max) then (n, s) else
    if waits_for addr bits p (task s i) then (n + 1, put i (woken (task s i)) s) else (n, s)) (0, s).

(** The tasks parked on the shared condition key. *)
Definition cond_waiter (t : task64) : bool := used t && blocked t && (wait_addr t =? SCHED64_COND_KEY).

Definition sched64_wake_futex (addr max bits p : Z) (s : sched) : Z * sched :=
  let '(n, s) := wake_waiters addr max bits p s in
  (n, each_task (fun i s => if cond_waiter (task s i)
                            then put i (set_deadline 0 (woken (task s i))) s else s) s).

Definition sched64_wake_bits (addr max bits : Z) (s : sched) : Z * sched := sched64_wake_futex addr max bits (-1) s.
Definition sched64_wake (addr max : Z) (s : sched) : Z * sched := sched64_wake_bits addr max ALL_BITS s.

(** ** The table *)

Definition sized (s : sched) : Prop := zlen (tasks s) = SCHED64_MAX_TASKS.

Lemma ntasks_nat : Z.of_nat NTASKS = SCHED64_MAX_TASKS.
Proof. unfold NTASKS, SCHED64_MAX_TASKS. lia. Qed.

#[local] Opaque NTASKS.

Lemma task_put i t s j :
  sized s -> 0 <= i < SCHED64_MAX_TASKS -> 0 <= j -> task (put i t s) j = if i =? j then t else task s j.
Proof. unfold sized. intros. unfold task, put. simpl. apply zget_zset; lia. Qed.

Lemma task_put_eq i t s : sized s -> 0 <= i < SCHED64_MAX_TASKS -> task (put i t s) i = t.
Proof. intros. rewrite task_put by (done || lia). by rewrite Z.eqb_refl. Qed.

Lemma task_put_ne i t s j :
  sized s -> 0 <= i < SCHED64_MAX_TASKS -> 0 <= j -> i <> j -> task (put i t s) j = task s j.
Proof. intros. rewrite task_put by done. by destruct (Z.eqb_spec i j). Qed.

Lemma sized_put i t s : sized s -> sized (put i t s).
Proof. unfold sized, put. simpl. by rewrite zlen_zset. Qed.

Lemma put_id i s : put i (task s i) s = s.
Proof.
  unfold put, task. rewrite zset_id. by destruct s.
Qed.

(** The tasks changed one by one, and nothing else. *)
Definition mapped (f : task64 -> task64) (s s' : sched) : Prop :=
  s' = set_tasks (tasks s') s /\ sized s' /\
  forall j, 0 <= j < SCHED64_MAX_TASKS -> task s' j = f (task s j).

Lemma each_task_map f s :
  sized s -> mapped f s (each_task (fun i s => put i (f (task s i)) s) s).
Proof.
  intros Hs. unfold each_task.
  destruct (for_up_ind (fun k t => t = set_tasks (tasks t) s /\ sized t /\
    forall j, 0 <= j < SCHED64_MAX_TASKS -> task t j = if j <? k then f (task s j) else task s j)
    (fun i s => put i (f (task s i)) s) NTASKS 0 s) as (H1 & H2 & H3).
  - split; [by destruct s|]. split; [done|]. intros j Hj. by rewrite (proj2 (Z.ltb_ge j 0)) by lia.
  - intros k t Hk (E1 & E2 & E3). pose proof ntasks_nat. split; [|split; [by apply sized_put|]].
    + unfold put. rewrite E1. reflexivity.
    + intros j Hj. rewrite task_put by (done || lia).
      destruct (Z.eqb_spec k j) as [->|]; [rewrite E3 by lia; by rewrite (proj2 (Z.ltb_ge j j)), (proj2 (Z.ltb_lt j (j + 1))) by lia|].
      rewrite E3 by lia. destruct (Z.ltb_spec j k), (Z.ltb_spec j (k + 1)); (done || lia).
  - split; [done|]. split; [done|]. intros j Hj. rewrite H3 by done. pose proof ntasks_nat.
    by rewrite (proj2 (Z.ltb_lt _ _)) by lia.
Qed.

Lemma each_task_if (c : task64 -> bool) f s :
  each_task (fun i s => if c (task s i) then put i (f (task s i)) s else s) s
  = each_task (fun i s => put i (if c (task s i) then f (task s i) else task s i) s) s.
Proof. unfold each_task. apply for_up_ext. intros k t _. destruct (c (task t k)); [done|]. by rewrite put_id. Qed.

Lemma find_task_Some p s i : find_task p s = Some i -> 0 <= i < SCHED64_MAX_TASKS /\ p (task s i) = true /\
  forall j, 0 <= j < i -> p (task s j) = false.
Proof. unfold find_task. intros (H1 & H2 & H3)%find_up_Some. rewrite ntasks_nat in H1. split; [lia|]. done. Qed.

Lemma find_task_None p s : find_task p s = None <-> forall j, 0 <= j < SCHED64_MAX_TASKS -> p (task s j) = false.
Proof. unfold find_task. rewrite find_up_None, ntasks_nat. done. Qed.

Lemma find_task_is p s i : 0 <= i < SCHED64_MAX_TASKS -> p (task s i) = true -> is_Some (find_task p s).
Proof.
  intros Hi Hp. destruct (find_task p s) eqn:Hf; [done|]. rewrite find_task_None in Hf.
  by rewrite Hf in Hp.
Qed.

Lemma next_task_spec from s :
  0 <= from < SCHED64_MAX_TASKS ->
  let n := next_task from s in
  0 <= n < SCHED64_MAX_TASKS /\
  (runnable (task s n) = true /\
   (forall k, 1 <= k < (if n =? from then SCHED64_MAX_TASKS else (n - from) mod SCHED64_MAX_TASKS) ->
      runnable (task s ((from + k) mod SCHED64_MAX_TASKS)) = false)
   \/ n = from /\ forall j, 0 <= j < SCHED64_MAX_TASKS -> runnable (task s j) = false).
Proof.
  intros Hf. unfold next_task. pose proof ntasks_nat as Hn.
  assert (0 < SCHED64_MAX_TASKS) as Hpos by (unfold SCHED64_MAX_TASKS; lia).
  destruct (find_up NTASKS 1 _) as [k|] eqn:Hk; cbv zeta.
  - apply find_up_Some in Hk as (Hk & Hr & Hno). rewrite Hn in Hk.
    pose proof (Z.mod_pos_bound (from + k) SCHED64_MAX_TASKS Hpos).
    split; [done|]. left. split; [done|]. intros j Hj. apply Hno. split; [lia|].
    destruct (Z.eqb_spec ((from + k) mod SCHED64_MAX_TASKS) from) as [He|Hne].
    + assert (k = SCHED64_MAX_TASKS); [|lia].
      destruct (decide (k = SCHED64_MAX_TASKS)); [done|].
      destruct (Z_lt_le_dec (from + k) SCHED64_MAX_TASKS).
      * rewrite Z.mod_small in He by lia. lia.
      * rewrite <-(Z.mod_add _ (-1)), Z.mod_small in He by lia. lia.
    + replace (((from + k) mod SCHED64_MAX_TASKS - from) mod SCHED64_MAX_TASKS) with k in Hj; [lia|].
      rewrite Zminus_mod_idemp_l. replace (from + k - from) with k by lia.
      destruct (decide (k = SCHED64_MAX_TASKS)) as [->|]; [|by rewrite Z.mod_small by lia].
      exfalso. apply Hne. rewrite <-(Z.mod_add _ (-1)) by lia. rewrite Z.mod_small by lia. lia.
  - rewrite find_up_None in Hk. split; [done|]. right. split; [done|]. intros j Hj. rewrite Hn in Hk.
    specialize (Hk (if from <? j then j - from else j - from + SCHED64_MAX_TASKS)).
    destruct (Z.ltb_spec from j).
    + replace (from + (j - from)) with j in Hk by lia. rewrite Z.mod_small in Hk by lia. apply Hk. lia.
    + replace (from + (j - from + SCHED64_MAX_TASKS)) with (j + 1 * SCHED64_MAX_TASKS) in Hk by lia.
      rewrite Z.mod_add, Z.mod_small in Hk by lia. apply Hk. lia.
Qed.

(** ** Contexts

    What a thread is while it does not run, and where it is while it does:
    in the CPU and the frame it will be resumed from. *)

Record context := mkCtx {
  x_regs : registers64; x_space : Z; x_fs : Z; x_gs : Z; x_fpu : list Z; x_pid : Z
}.

Definition saved (t : task64) : context := mkCtx (regs t) (space t) (fs_base t) (gs_base t) (fpu t) (pid t).

Definition context_of (frame : registers64) (s : sched) (i : Z) : context :=
  if i =? current s then mkCtx frame (cr3 s) (cpu_fs s) (cpu_gs s) (cpu_fpu s) (current_pid s)
  else saved (task s i).

Definition x_set_rax (v : Z) (x : context) : context :=
  mkCtx (set_rax v (x_regs x)) (x_space x) (x_fs x) (x_gs x) (x_fpu x) (x_pid x).

Definition used_count (s : sched) : Z := count_up NTASKS 0 (fun i => used (task s i)).

(** Between interrupts: a running task is in use, awake, and the CPU has its
    process and its address space. *)
Record sched_ok (s : sched) : Prop := {
  so_size : sized s;
  so_current : -1 <= current s < SCHED64_MAX_TASKS;
  so_running : 0 <= current s -> runnable (task s (current s)) = true /\
    pid (task s (current s)) = current_pid s /\ space (task s (current s)) = cr3 s;
  so_total : task_total s = used_count s;
  so_awake : idling s = false
}.

(** The two halves of a switch and the caller's part of it. *)
Definition hand_to (next : Z) (s : sched) : registers64 * sched :=
  let '(r, s) := switch_in next (switch_out s) in sched64_resume r s.

Lemma put_put_task i t t' s : put i t (put i t' s) = put i t s.
Proof. unfold put, set_tasks, zset. simpl. by rewrite list_insert_insert_eq. Qed.

(** The running task as [switch_out] leaves it in its slot. *)
Definition parked (s : sched) : task64 :=
  set_fpu (cpu_fpu s) (set_gs_base (cpu_gs s) (task s (current s))).

Lemma switch_out_eq s :
  sized s -> 0 <= current s < SCHED64_MAX_TASKS -> switch_out s = put (current s) (parked s) s.
Proof.
  intros Hs Hc. unfold switch_out, fpu_save, parked. set (t1 := set_gs_base _ _).
  rewrite (task_put_eq _ t1 s) by done. apply put_put_task.
Qed.

(** The CPU after the incoming task was loaded. *)
Definition entered (next : Z) (s : sched) : sched :=
  let t := task s next in
  mkSched (tasks s) (task_total s) next (switch_count s) (stop_after s) (stop_rip s) (idling s)
    (next_signal_restart s) (fpu_initial s) (fs_base t) (gs_base t) (fpu t) (space t) (pid t)
    (ticks s) (irq0_masked s).

Lemma switch_in_eq next s :
  (let '(r, s') := switch_in next s in sched64_resume r s') = (regs (task s next), entered next s).
Proof. reflexivity. Qed.

Lemma hand_to_eq next s :
  sized s -> 0 <= current s < SCHED64_MAX_TASKS ->
  hand_to next s =
    (regs (task (put (current s) (parked s) s) next), entered next (put (current s) (parked s) s)).
Proof. intros. unfold hand_to. rewrite switch_out_eq by done. apply switch_in_eq. Qed.

Lemma entered_contexts next s i :
  context_of (regs (task s next)) (entered next s) i = saved (task s i).
Proof.
  unfold context_of. cbn [entered current cr3 cpu_fs cpu_gs cpu_fpu current_pid].
  destruct (Z.eqb_spec i next) as [->|]; reflexivity.
Qed.

(** A task whose deadline has passed. *)
Definition overdue (now : Z) (t : task64) : Prop :=
  used t = true /\ blocked t = true /\ deadline t <> 0 /\ deadline t <= now.

Lemma expire_cases now t :
  overdue now t /\ expire now t =
    set_regs (set_rax (timeout_rax t) (regs t)) (set_deadline 0 (set_wait_addr 0 (set_blocked false t)))
  \/ ~ overdue now t /\ expire now t = t.
Proof.
  unfold expire, overdue, nz. destruct (used t), (blocked t); simpl; try (right; split; [tauto || (intros (?&?&_); done)|done]).
  destruct (Z.eqb_spec (deadline t) 0); simpl; [right; split; [tauto|done]|].
  destruct (Z.ltb_spec now (deadline t)); [right; split; [lia|done]|]. left. done.
Qed.

Lemma expire_deadlines_map s : sized s -> mapped (expire (ticks s)) s (expire_deadlines s).
Proof. intros Hs. exact (each_task_map (expire (ticks s)) s Hs). Qed.

(** Nothing but the table changes. *)
Lemma expire_same s : sized s -> let e := expire_deadlines s in
  current e = current s /\ cr3 e = cr3 s /\ cpu_fs e = cpu_fs s /\ cpu_gs e = cpu_gs s /\
  cpu_fpu e = cpu_fpu s /\ current_pid e = current_pid s /\ task_total e = task_total s /\
  idling e = idling s /\ ticks e = ticks s /\ stop_after e = stop_after s /\ stop_rip e = stop_rip s /\
  irq0_masked e = irq0_masked s.
Proof. intros Hs. destruct (expire_deadlines_map s Hs) as (-> & _). repeat split. Qed.

#[local] Opaque expire_deadlines.

Lemma used_count_mapped f s s' : (forall t, used (f t) = used t) -> mapped f s s' -> used_count s' = used_count s.
Proof.
  intros Hf (_ & _ & Hm). unfold used_count. apply count_up_ext. intros j Hj.
  rewrite ntasks_nat in Hj. rewrite Hm by lia. apply Hf.
Qed.

Lemma expire_used now t : used (expire now t) = used t.
Proof. destruct (expire_cases now t) as [[_ ->]|[_ ->]]; reflexivity. Qed.

Lemma expire_runnable now t : runnable t = true -> expire now t = t.
Proof.
  intros H. destruct (expire_cases now t) as [[(Hu & Hb & _) _]|[_ ->]]; [|done].
  unfold runnable in H. by rewrite Hu, Hb in H.
Qed.

(** The frame and the thread pointer stored in the running task's slot. *)
Definition stored (f : registers64) (s : sched) : sched :=
  put (current s) (set_fs_base (cpu_fs s) (set_regs f (task s (current s)))) s.

(** What a switch leaves of a task besides its context. *)
Definition same_wait (t t' : task64) : Prop :=
  used t' = used t /\ blocked t' = blocked t /\ wait_addr t' = wait_addr t /\ wake_rax t' = wake_rax t /\
  timeout_rax t' = timeout_rax t /\ wait_bits t' = wait_bits t /\ deadline t' = deadline t /\
  signal_restart t' = signal_restart t /\ pid t' = pid t /\ space t' = space t.

Lemma same_wait_refl t : same_wait t t.
Proof. by repeat split. Qed.

(** The CPU holds the process and the address space of the running task. *)
Definition cpu_agrees (s : sched) : Prop :=
  pid (task s (current s)) = current_pid s /\ space (task s (current s)) = cr3 s.

Lemma hand_over next f s :
  sized s -> 0 <= current s < SCHED64_MAX_TASKS -> 0 <= next < SCHED64_MAX_TASKS -> cpu_agrees s ->
  let '(f', s') := hand_to next (stored f s) in
  sized s' /\ current s' = next /\ cpu_agrees s' /\
  task_total s' = task_total s /\ idling s' = idling s /\ ticks s' = ticks s /\
  stop_after s' = stop_after s /\ stop_rip s' = stop_rip s /\
  (forall j, 0 <= j < SCHED64_MAX_TASKS -> same_wait (task s j) (task s' j)) /\
  (forall i, 0 <= i < SCHED64_MAX_TASKS -> context_of f' s' i = context_of f s i).
Proof.
  intros Hs Hc Hn [Hpid Hsp]. set (c := current s) in *. set (p := stored f s).
  assert (sized p) as Hp by (by apply sized_put).
  rewrite (hand_to_eq next p Hp Hc). set (q := put (current p) (parked p) p).
  assert (sized q) as Hq by (by apply sized_put).
  assert (forall j, 0 <= j < SCHED64_MAX_TASKS -> task q j = if c =? j then parked p else task s j) as Ht.
  { intros j Hj. unfold q. rewrite task_put by (done || lia). change (current p) with c.
    destruct (Z.eqb_spec c j); [done|]. unfold p, stored. by rewrite task_put_ne by (done || lia). }
  assert (parked p = set_fpu (cpu_fpu s) (set_gs_base (cpu_gs s)
    (set_fs_base (cpu_fs s) (set_regs f (task s c))))) as Hpk.
  { unfold parked, p, stored. cbn [current put set_tasks cpu_fpu cpu_gs].
    change (mkSched _ _ _ _ _ _ _ _ _ _ _ _ _ _ _ _) with p. fold c. by rewrite task_put_eq. }
  split; [exact Hq|]. split; [reflexivity|]. split; [split; reflexivity|]. do 5 (split; [reflexivity|]). split.
  - intros j Hj. change (task (entered next q) j) with (task q j). rewrite Ht by done.
    destruct (Z.eqb_spec c j) as [<-|]; [|apply same_wait_refl]. rewrite Hpk. by repeat split.
  - intros i Hi. rewrite entered_contexts, Ht by done. unfold context_of. fold c. rewrite (Z.eqb_sym i c).
    destruct (c =? i); [|done]. rewrite Hpk. unfold saved. simpl. fold c in Hpid, Hsp. by rewrite Hpid, Hsp.
Qed.

Lemma same_wait_trans a b c : same_wait a b -> same_wait b c -> same_wait a c.
Proof. unfold same_wait. intuition congruence. Qed.

(** A thread carried across an operation: still there (and no thread comes out
    of nowhere), its context the same wherever it is now, but that a wait with
    a deadline may have ended, its answer then in RAX. *)
Definition carried_one (x : context) (t : task64) (x' : context) (t' : task64) : Prop :=
  same_wait t t' /\ x' = x \/
  has_deadline t = true /\ used t' = true /\ blocked t' = false /\ x' = x_set_rax (timeout_rax t) x.

Definition carried (f : registers64) (s : sched) (f' : registers64) (s' : sched) : Prop :=
  forall i, 0 <= i < SCHED64_MAX_TASKS ->
    carried_one (context_of f s i) (task s i) (context_of f' s' i) (task s' i).

Lemma carried_refl f s : carried f s f s.
Proof. intros i Hi. left. split; [apply same_wait_refl|done]. Qed.

Lemma carried_one_trans x t y u z v : carried_one x t y u -> carried_one y u z v -> carried_one x t z v.
Proof.
  intros [(W1 & E1)|(D1 & U1 & B1 & E1)] [(W2 & E2)|(D2 & U2 & B2 & E2)].
  - left. split; [by eapply same_wait_trans|congruence].
  - right. pose proof W1 as (S1 & S2 & S3 & S4 & S5 & S6 & S7 & _). unfold has_deadline in *.
    rewrite S1, S2, S7 in D2. split; [done|]. split; [done|]. split; [done|]. by rewrite E2, E1, S5.
  - right. pose proof W2 as (S1 & S2 & _). split; [done|]. split; [congruence|]. split; [congruence|congruence].
  - unfold has_deadline in D2. by rewrite B1, andb_false_r in D2.
Qed.

Lemma carried_trans f s g t h u : carried f s g t -> carried g t h u -> carried f s h u.
Proof. intros H1 H2 i Hi. exact (carried_one_trans _ _ _ _ _ _ (H1 i Hi) (H2 i Hi)). Qed.

(** A switch carries everything. *)
Lemma carried_switch f s f' s' :
  (forall j, 0 <= j < SCHED64_MAX_TASKS -> same_wait (task s j) (task s' j)) ->
  (forall i, 0 <= i < SCHED64_MAX_TASKS -> context_of f' s' i = context_of f s i) -> carried f s f' s'.
Proof. intros Hw Hx i Hi. left. auto. Qed.

Lemma expired_carried f s :
  sized s -> (0 <= current s -> runnable (task s (current s)) = true) ->
  carried f s f (expire_deadlines s).
Proof.
  intros Hs Hr i Hi. destruct (expire_deadlines_map s Hs) as (_ & _ & Hm).
  destruct (expire_same s Hs) as (E1 & E2 & E3 & E4 & E5 & E6 & _).
  unfold context_of. rewrite E1, E2, E3, E4, E5, E6, Hm by done.
  destruct (expire_cases (ticks s) (task s i)) as [[(H1 & H2 & H3 & H4) ->]|[_ ->]]; [|by left; split; [apply same_wait_refl|]].
  destruct (Z.eqb_spec i (current s)) as [->|].
  - specialize (Hr ltac:(lia)). unfold runnable in Hr. rewrite H1, H2 in Hr. discriminate Hr.
  - right. clear Hm. split; [|split; [exact H1|split; reflexivity]]. unfold has_deadline, nz. rewrite H1, H2.
    by apply Z.eqb_neq in H3 as ->.
Qed.

Lemma expired_ok s : sched_ok s -> sched_ok (expire_deadlines s).
Proof.
  intros [H1 H2 H3 H4 H5]. pose proof (expire_deadlines_map s H1) as Hmap.
  pose proof (used_count_mapped _ _ _ (expire_used (ticks s)) Hmap) as Hu. destruct Hmap as (_ & Hs & Hm).
  destruct (expire_same s H1) as (E1 & E2 & _ & _ & _ & E3 & E4 & E5 & _).
  split; [done|by rewrite E1| |by rewrite E4, Hu|by rewrite E5].
  rewrite E1, E2, E3. intros Hc. rewrite Hm by lia. destruct (H3 Hc) as (Hr & Hp).
  rewrite expire_runnable by done. by split.
Qed.

Lemma same_wait_runnable t t' : same_wait t t' -> runnable t' = runnable t.
Proof. intros (H1 & H2 & _). unfold runnable. by rewrite H1, H2. Qed.

Lemma same_wait_count s s' :
  (forall j, 0 <= j < SCHED64_MAX_TASKS -> same_wait (task s j) (task s' j)) -> used_count s' = used_count s.
Proof.
  intros H. unfold used_count. apply count_up_ext. intros j Hj. rewrite ntasks_nat in Hj.
  apply (H j). lia.
Qed.

(** The timer's switch. *)
Lemma sched64_tick_spec frame s :
  sched_ok s -> 0 <= current s -> nz (stop_after s) && nz (stop_rip s) = false ->
  let '(f', s') := sched64_tick frame s in
  sched_ok s' /\ carried frame s f' s' /\
  (ticks s' = ticks s /\ stop_after s' = stop_after s /\ stop_rip s' = stop_rip s) /\
  current s' = (if task_total s <? 2 then current s else next_task (current s) (expire_deadlines s)).
Proof.
  intros Hok Hc Hstop. pose proof (expired_ok s Hok) as Hok'.
  pose proof (expired_carried frame s (so_size _ Hok) (fun H => proj1 (so_running _ Hok H))) as Hcar.
  unfold sched64_tick.
  destruct (expire_same s (so_size _ Hok)) as (E1 & _ & _ & _ & _ & _ & E2 & _ & E5 & E3 & E4 & _).
  set (e := expire_deadlines s) in *.
  clearbody e. rewrite (so_awake _ Hok'), E2. rewrite E1. rewrite (proj2 (Z.ltb_ge _ _)) by lia. cbn [orb].
  destruct (task_total s <? 2); [split; [exact Hok'|]; split; [exact Hcar|]; by rewrite E3, E4, E5, E1|].
  destruct (Z.eqb_spec (next_task (current s) e) (current s)) as [He|Hne];
    [split; [exact Hok'|]; split; [exact Hcar|]; by rewrite He, E3, E4, E5, E1|].
  pose proof (so_current _ Hok') as Hcr. rewrite E1 in Hcr.
  destruct (next_task_spec (current s) e) as [Hn [[Hr _]|[? _]]]; [lia| |done].
  set (next := next_task (current s) e) in *. change (put (current s) ?t e) with (put (current s) t e).
  pose proof (hand_over next frame e (so_size _ Hok') ltac:(lia) Hn) as H.
  assert (cpu_agrees e) as Hag by (apply (so_running _ Hok'); lia). specialize (H Hag).
  unfold stored in H. rewrite E1 in H. unfold hand_to in H.
  change (set_fs_base (cpu_fs e) (set_regs frame (task e (current s)))) with
    (set_fs_base (cpu_fs e) (set_regs frame (task e (current s)))) in H.
  destruct (switch_in next _) as [r s2]. destruct (sched64_resume r s2) as [f' s'].
  destruct H as (H1 & H2 & [Hpid Hsp] & H4 & H5 & H6 & H7 & H8 & H9 & H10).
  set (s3 := set_switch_count _ s').
  assert (nz (stop_after s3) && (stop_after s3 <=? switch_count s3) && nz (stop_rip s3) = false) as ->.
  { change (stop_after s3) with (stop_after s'). change (stop_rip s3) with (stop_rip s'). rewrite H7, H8, E3, E4.
    destruct (nz (stop_after s)); [|done]. simpl in Hstop. by rewrite Hstop, andb_false_r. }
  split; [|split].
  3: { split; [|exact H2]. change (ticks s' = ticks s /\ stop_after s' = stop_after s /\ stop_rip s' = stop_rip s).
       rewrite H6, H7, H8. by rewrite E3, E4, E5. }
  - split; [done|change (current s3) with (current s'); lia|intros _; change (current s3) with (current s')| |].
    + change (task s3) with (task s'). rewrite H2 in *. split; [|done]. by rewrite (same_wait_runnable _ _ (H9 _ Hn)).
    + change (used_count s3) with (used_count s'). rewrite (same_wait_count _ _ H9).
      change (task_total s3) with (task_total s'). rewrite H4. apply Hok'.
    + change (idling s3) with (idling s'). rewrite H5. apply Hok'.
  - eapply carried_trans; [exact Hcar|]. by apply carried_switch.
Qed.

(** The frame is where the running task is, so storing it moves nothing. *)
Lemma stored_carried f s :
  sched_ok s -> 0 <= current s -> sized (stored f s) /\ cpu_agrees (stored f s) /\ carried f s f (stored f s).
Proof.
  intros Hok Hc. pose proof (so_size _ Hok) as Hs. pose proof (so_current _ Hok) as Hcr.
  destruct (so_running _ Hok Hc) as (_ & Hpid & Hsp). unfold stored. set (t := set_fs_base _ _).
  split; [by apply sized_put|]. split.
  - unfold cpu_agrees. change (current (put ?i t s)) with (current s). rewrite task_put_eq by (done || lia).
    split; [exact Hpid|exact Hsp].
  - apply carried_switch; intros j Hj.
    + rewrite task_put by (done || lia). destruct (Z.eqb_spec (current s) j) as [<-|]; [by repeat split|apply same_wait_refl].
    + unfold context_of. change (current (put ?i t s)) with (current s).
      destruct (Z.eqb_spec j (current s)); [reflexivity|]. by rewrite task_put_ne by (done || lia).
Qed.

(** A state whose running task's registers and thread pointer are in its slot;
    the task may be asleep. *)
Record parked_ok (s : sched) : Prop := {
  po_size : sized s;
  po_current : 0 <= current s < SCHED64_MAX_TASKS;
  po_agrees : cpu_agrees s;
  po_fs : fs_base (task s (current s)) = cpu_fs s;
  po_total : task_total s = used_count s
}.

Definition parked_frame (s : sched) : registers64 := regs (task s (current s)).

Lemma stored_id s : fs_base (task s (current s)) = cpu_fs s -> stored (parked_frame s) s = s.
Proof.
  intros Hfs. unfold stored. rewrite <-Hfs. transitivity (put (current s) (task s (current s)) s); [|apply put_id].
  f_equal. unfold parked_frame. by destruct (task s (current s)).
Qed.

Lemma stored_parked f s : sched_ok s -> 0 <= current s -> parked_ok (stored f s) /\ parked_frame (stored f s) = f.
Proof.
  intros Hok Hc. pose proof (so_size _ Hok) as Hs. pose proof (so_current _ Hok) as Hcr.
  destruct (stored_carried f s Hok Hc) as (H1 & H2 & H3).
  assert (task (stored f s) (current s) = set_fs_base (cpu_fs s) (set_regs f (task s (current s)))) as Ht
    by (unfold stored; by rewrite task_put_eq by (done || lia)).
  split; [|unfold parked_frame; change (current (stored f s)) with (current s); by rewrite Ht].
  split; [done|change (current (stored f s)) with (current s); lia|done| |].
  - change (current (stored f s)) with (current s). by rewrite Ht.
  - change (task_total (stored f s)) with (task_total s). rewrite (so_total _ Hok). symmetry.
    apply count_up_ext. intros j Hj. rewrite ntasks_nat in Hj. unfold stored. rewrite task_put by (done || lia).
    by destruct (Z.eqb_spec (current s) j) as [<-|].
Qed.

(** Handing the CPU on to a runnable task. *)
Lemma hand_over_ok next s :
  parked_ok s -> idling s = false -> 0 <= next < SCHED64_MAX_TASKS -> runnable (task s next) = true ->
  let '(f', s') := hand_to next s in
  sched_ok s' /\ carried (parked_frame s) s f' s' /\ current s' = next /\ ticks s' = ticks s.
Proof.
  intros Hok Haw Hn Hr. pose proof (po_current _ Hok) as Hcr.
  pose proof (hand_over next (parked_frame s) s (po_size _ Hok) Hcr Hn (po_agrees _ Hok)) as H.
  rewrite stored_id in H by apply Hok. destruct (hand_to next s) as [f' s'].
  destruct H as (H1 & H2 & [Hpid Hsp] & H4 & H5 & H6 & H7 & H8 & H9 & H10).
  split; [|split; [by apply carried_switch|done]].
  split; [done|rewrite H2; lia| | |by rewrite H5].
  - intros _. rewrite H2 in *. split; [|done]. by rewrite (same_wait_runnable _ _ (H9 _ Hn)).
  - rewrite (same_wait_count _ _ H9), H4. apply Hok.
Qed.

Lemma nobody_false s : sched_ok s -> 0 <= current s -> nobody s = false.
Proof.
  intros Hok Hc. unfold nobody. rewrite (proj2 (Z.ltb_ge _ _)) by lia.
  destruct (so_running _ Hok Hc) as (Hr & _). unfold runnable in Hr. by destruct (used (task s (current s))).
Qed.

(** A voluntary yield. *)
Lemma sched64_yield_spec r s :
  sched_ok s -> 0 <= current s ->
  match sched64_yield_current r s with
  | (Some res, s1) => let '(f', s') := sched64_resume res s1 in
      sched_ok s' /\ carried r s f' s' /\ current s' = next_task (current s) s /\ current s' <> current s
  | (None, s1) => s1 = stored r s /\ next_task (current s) s = current s
  end.
Proof.
  intros Hok Hc. unfold sched64_yield_current. rewrite (nobody_false s Hok Hc).
  change (put (current s) (set_regs r (set_fs_base (cpu_fs s) (task s (current s)))) s) with (stored r s).
  pose proof (so_current _ Hok) as Hcr. pose proof (so_size _ Hok) as Hs.
  assert (next_task (current s) (stored r s) = next_task (current s) s) as Hnx.
  { unfold next_task. erewrite find_up_ext; [reflexivity|]. intros n Hn. unfold stored.
    set (i := (current s + n) mod SCHED64_MAX_TASKS).
    assert (0 <= i < SCHED64_MAX_TASKS) by (apply Z.mod_pos_bound; unfold SCHED64_MAX_TASKS; lia).
    rewrite task_put by (done || lia). by destruct (Z.eqb_spec (current s) i) as [<-|]. }
  cbv zeta. rewrite Hnx. destruct (Z.eqb_spec (next_task (current s) s) (current s)) as [|Hne]; [done|].
  destruct (next_task_spec (current s) s) as [Hn [[Hr _]|[? _]]]; [lia| |done].
  destruct (stored_parked r s Hok Hc) as [Hp Hpf]. destruct (stored_carried r s Hok Hc) as (_ & _ & Hcar).
  assert (runnable (task (stored r s) (next_task (current s) s)) = true) as Hr'.
  { unfold stored. rewrite task_put by (done || lia). by destruct (Z.eqb_spec (current s) (next_task (current s) s)). }
  pose proof (hand_over_ok _ _ Hp (so_awake _ Hok) Hn Hr') as H. unfold hand_to in H. rewrite Hpf in H.
  destruct (switch_in _ _) as [res s1]. destruct (sched64_resume res s1) as [f' s'].
  destruct H as (H1 & H2 & H3 & _). split; [done|]. split; [by eapply carried_trans|]. split; [done|]. by rewrite H3.
Qed.

(** ** Idling *)

(** Expiry while the running task is itself asleep: its answer goes to its slot. *)
Lemma expire_parked s :
  parked_ok s -> let e := expire_deadlines s in
  parked_ok e /\ carried (parked_frame s) s (parked_frame e) e.
Proof.
  intros [H1 H2 [H3 H4] H5 H6]. cbv zeta. pose proof (expire_deadlines_map s H1) as Hmap.
  pose proof (used_count_mapped _ _ _ (expire_used (ticks s)) Hmap) as Hu. destruct Hmap as (_ & Hs & Hm).
  destruct (expire_same s H1) as (E1 & E2 & E3 & E4 & E5 & E6 & E7 & _). set (e := expire_deadlines s) in *.
  assert (forall t, pid (expire (ticks s) t) = pid t /\ space (expire (ticks s) t) = space t /\
    fs_base (expire (ticks s) t) = fs_base t) as Hf.
  { intros t. destruct (expire_cases (ticks s) t) as [[_ ->]|[_ ->]]; repeat split. }
  split.
  - destruct (Hf (task s (current s))) as (F1 & F2 & F3).
    split; [done|by rewrite E1| | |by rewrite E7, Hu].
    + unfold cpu_agrees. rewrite E1, Hm, F1, F2, E2, E6 by done. by split.
    + by rewrite E1, Hm, F3, E3.
  - intros i Hi. unfold context_of, parked_frame. rewrite E1, E2, E3, E4, E5, E6, !Hm by done.
    destruct (expire_cases (ticks s) (task s i)) as [[(O1 & O2 & O3 & O4) Hx]|[_ Hx]].
    + right. rewrite Hx. split; [unfold has_deadline, nz; rewrite O1, O2; by apply Z.eqb_neq in O3 as ->|].
      split; [exact O1|]. split; [reflexivity|]. destruct (Z.eqb_spec i (current s)) as [->|]; [|reflexivity].
      rewrite Hx. reflexivity.
    + left. rewrite Hx. split; [apply same_wait_refl|]. destruct (Z.eqb_spec i (current s)) as [->|]; [|reflexivity].
      by rewrite Hx.
Qed.

Lemma ticks_parked v s : parked_ok s -> parked_ok (set_ticks v s) /\ carried (parked_frame s) s (parked_frame (set_ticks v s)) (set_ticks v s).
Proof. intros [H1 H2 H3 H4 H5]. split; [by split|].
  intros i Hi. left. split; [apply same_wait_refl|reflexivity]. Qed.

(** One halt. *)
Definition halted (s : sched) : sched := expire_deadlines (snd (timer_interrupt zero_regs s)).

Lemma halted_eq s : sized s -> idling s = true ->
  halted s = expire_deadlines (expire_deadlines (set_ticks (u64 (ticks s + 1)) s)).
Proof.
  intros Hs Hi. unfold halted, timer_interrupt, sched64_tick. set (s1 := set_ticks _ s).
  assert (idling (expire_deadlines s1) = true) as -> by (by rewrite (proj1 (proj2 (proj2 (proj2 (proj2 (proj2 (proj2 (proj2 (expire_same s1 Hs)))))))))).
  reflexivity.
Qed.

Lemma halted_parked s :
  parked_ok s -> idling s = true ->
  parked_ok (halted s) /\ idling (halted s) = true /\ carried (parked_frame s) s (parked_frame (halted s)) (halted s) /\
  irq0_masked (halted s) = irq0_masked s /\ ticks (halted s) = u64 (ticks s + 1).
Proof.
  intros Hok Hi. rewrite (halted_eq s (po_size _ Hok) Hi).
  destruct (ticks_parked (u64 (ticks s + 1)) s Hok) as [P1 C1]. set (s1 := set_ticks _ s) in *.
  destruct (expire_parked s1 P1) as [P2 C2]. destruct (expire_parked _ P2) as [P3 C3].
  pose proof (expire_same s1 (po_size _ P1)) as S1. pose proof (expire_same _ (po_size _ P2)) as S2.
  cbv zeta in *. split; [done|].
  assert (idling (expire_deadlines (expire_deadlines s1)) = idling s /\
    irq0_masked (expire_deadlines (expire_deadlines s1)) = irq0_masked s /\
    ticks (expire_deadlines (expire_deadlines s1)) = ticks s1) as (-> & -> & ->).
  { destruct S1 as (_&_&_&_&_&_&_&A1&A2&_&_&A3). destruct S2 as (_&_&_&_&_&_&_&B1&B2&_&_&B3).
    rewrite B1, B2, B3, A1, A2, A3. repeat split. }
  split; [exact Hi|]. split; [|split; reflexivity].
  exact (carried_trans _ _ _ _ _ _ C1 (carried_trans _ _ _ _ _ _ C2 C3)).
Qed.

Lemma halted_expired s i :
  parked_ok s -> idling s = true -> 0 <= i < SCHED64_MAX_TASKS ->
  used (task s i) = true -> deadline (task s i) <> 0 -> deadline (task s i) <= ticks (halted s) ->
  runnable (task (halted s) i) = true.
Proof.
  intros Hok Hi Hr Hu Hd Hle. destruct (halted_parked s Hok Hi) as (_ & _ & _ & _ & Ht). rewrite Ht in Hle.
  rewrite (halted_eq s (po_size _ Hok) Hi). set (s1 := set_ticks _ s).
  assert (sized s1) as Hs1 by exact (po_size _ Hok).
  destruct (expire_deadlines_map s1 Hs1) as (_ & Hs2 & Hm1).
  destruct (expire_deadlines_map _ Hs2) as (_ & _ & Hm2). rewrite Hm2, Hm1 by done.
  change (task s1 i) with (task s i). change (ticks s1) with (u64 (ticks s + 1)).
  assert (runnable (expire (u64 (ticks s + 1)) (task s i)) = true) as Hrun.
  { destruct (expire_cases (u64 (ticks s + 1)) (task s i)) as [[_ ->]|[Hno ->]].
    - unfold runnable. cbn [used blocked set_regs set_deadline set_wait_addr set_blocked]. by rewrite Hu.
    - unfold runnable. rewrite Hu. destruct (blocked (task s i)) eqn:Hb; [|done]. destruct Hno. exact (conj Hu (conj Hb (conj Hd Hle))). }
  by rewrite expire_runnable.
Qed.

Lemma idle_loop_S fuel s :
  idle_loop (S fuel) zero_regs s =
    if 0 <=? first_runnable (halted s) then Some (first_runnable (halted s), halted s) else
    if negb (any_deadline (halted s)) then Some (-1, halted s) else idle_loop fuel zero_regs (halted s).
Proof. reflexivity. Qed.

#[local] Opaque halted.

Lemma first_runnable_spec s :
  0 <= first_runnable s < SCHED64_MAX_TASKS /\ runnable (task s (first_runnable s)) = true \/
  first_runnable s = -1 /\ forall j, 0 <= j < SCHED64_MAX_TASKS -> runnable (task s j) = false.
Proof.
  unfold first_runnable. destruct (find_task runnable s) as [i|] eqn:Hf.
  - apply find_task_Some in Hf as (Hi & Hr & _). by left.
  - right. by rewrite find_task_None in Hf.
Qed.

Lemma any_deadline_true s :
  any_deadline s = true -> exists i, 0 <= i < SCHED64_MAX_TASKS /\ has_deadline (task s i) = true.
Proof.
  unfold any_deadline. destruct (find_task has_deadline s) as [i|] eqn:Hf; [|discriminate].
  intros _. exists i. apply find_task_Some in Hf as (Hi & Hd & _). by split.
Qed.

Lemma any_deadline_false s :
  any_deadline s = false -> forall i, 0 <= i < SCHED64_MAX_TASKS -> has_deadline (task s i) = false.
Proof.
  unfold any_deadline. destruct (find_task has_deadline s) as [i|] eqn:Hf; [discriminate|].
  by rewrite find_task_None in Hf.
Qed.

#[local] Opaque any_deadline first_runnable next_task.

Lemma idle_loop_spec fuel s n s' :
  parked_ok s -> idling s = true -> idle_loop fuel zero_regs s = Some (n, s') ->
  parked_ok s' /\ idling s' = true /\ carried (parked_frame s) s (parked_frame s') s' /\
  n = first_runnable s' /\ (n < 0 -> any_deadline s' = false).
Proof.
  revert s. induction fuel as [|fuel IH]; intros s Hok Hi Hl; [discriminate Hl|].
  rewrite idle_loop_S in Hl.
  destruct (halted_parked s Hok Hi) as (P & I & C & _ & _).
  destruct (Z.leb_spec 0 (first_runnable (halted s))) as [Hge|Hlt].
  { apply (inj Some), pair_equal_spec in Hl as [<- <-].
    split; [done|]. split; [done|]. split; [done|]. split; [done|]. lia. }
  destruct (any_deadline (halted s)) eqn:Ha; cbn [negb] in Hl.
  - destruct (IH _ P I Hl) as (P' & I' & C' & Hn). split; [done|]. split; [done|]. split; [by eapply carried_trans|done].
  - apply (inj Some), pair_equal_spec in Hl as [<- <-]. split; [done|]. split; [done|]. split; [done|].
    destruct (first_runnable_spec (halted s)) as [[? _]|[-> _]]; [lia|]. by split.
Qed.

(** Something sleeps on the clock, so the loop ends: at the latest when the
    earliest deadline passes. *)
Lemma idle_loop_ends fuel s i :
  parked_ok s -> idling s = true -> 0 <= i < SCHED64_MAX_TASKS ->
  has_deadline (task s i) = true -> (1 <= fuel)%nat -> 0 <= ticks s ->
  deadline (task s i) <= ticks s + Z.of_nat fuel -> ticks s + Z.of_nat fuel < 2 ^ 64 ->
  is_Some (idle_loop fuel zero_regs s).
Proof.
  revert s. induction fuel as [|fuel IH]; intros s Hok Hi Hr Hd Hf Ht Hle Hb; [lia|].
  rewrite idle_loop_S. destruct (halted_parked s Hok Hi) as (P & I & C & _ & Htk).
  rewrite u64_small in Htk by lia.
  destruct (Z.leb_spec 0 (first_runnable (halted s))) as [Hge|Hlt]; [done|].
  destruct (any_deadline (halted s)); cbn [negb]; [|done].
  destruct (first_runnable_spec (halted s)) as [[? _]|[_ Hno]]; [lia|]. specialize (Hno i Hr).
  unfold has_deadline in Hd. apply andb_true_iff in Hd as [[Hu Hbl]%andb_true_iff Hdl].
  assert (deadline (task s i) <> 0) as Hd0 by (unfold nz in Hdl; zbool; done).
  destruct (Z_le_gt_dec (deadline (task s i)) (ticks (halted s))) as [Hov|Hlater].
  { by rewrite halted_expired in Hno. }
  destruct (C i Hr) as [[W _]|(_ & Hu' & Hb' & _)].
  2: { unfold runnable in Hno. rewrite Hu', Hb' in Hno. discriminate Hno. }
  destruct W as (W1 & W2 & _ & _ & _ & _ & W7 & _).
  apply IH; [exact P|exact I|exact Hr| |lia|lia|rewrite W7; lia|lia].
  unfold has_deadline. rewrite W1, W2, W7, Hu, Hbl, Hdl. reflexivity.
Qed.

(** ** Blocking *)

Section park.
  Variables (r : registers64) (addr wr tr dl bits : Z) (s : sched).
  Hypothesis (Hok : sched_ok s) (Hc : 0 <= current s).
Let p := park r addr wr tr dl bits s.

Lemma park_task j : 0 <= j < SCHED64_MAX_TASKS ->
  task p j = if j =? current s
    then mkTask r (space (task s j)) (cpu_fs s) (gs_base (task s j)) addr wr tr bits dl (next_signal_restart s)
           (pid (task s j)) true (used (task s j)) (fpu (task s j))
    else task s j.
Proof using Hok Hc.
  intros Hj. pose proof (so_current _ Hok). unfold p, park. change (task (set_next_signal_restart 0 ?x) j) with (task x j).
  rewrite task_put by (apply Hok || lia). rewrite (Z.eqb_sym j). destruct (Z.eqb_spec (current s) j) as [->|]; reflexivity.
Qed.

Lemma park_ok : parked_ok p /\ parked_frame p = r /\ idling p = false /\
  forall i, 0 <= i < SCHED64_MAX_TASKS -> context_of r p i = context_of r s i.
Proof using Hok Hc.
  pose proof (so_current _ Hok) as Hcr. destruct (so_running _ Hok Hc) as (Hr & Hpid & Hsp).
  assert (0 <= current s < SCHED64_MAX_TASKS) as Hcr' by lia.
  pose proof (park_task (current s) Hcr') as Ht. rewrite Z.eqb_refl in Ht.
  split; [|split; [|split]].
  - split.
    + unfold p, park. change (sized (put (current s) (mkTask r (space (task s (current s))) (cpu_fs s) (gs_base (task s (current s)))
        addr wr tr bits dl (next_signal_restart s) (pid (task s (current s))) true (used (task s (current s)))
        (fpu (task s (current s)))) s)). apply sized_put, Hok.
    + exact Hcr'.
    + unfold cpu_agrees. change (current p) with (current s). rewrite Ht. split; [exact Hpid|exact Hsp].
    + change (current p) with (current s). rewrite Ht. reflexivity.
    + change (task_total p) with (task_total s). rewrite (so_total _ Hok). symmetry. apply count_up_ext.
      intros j Hj. rewrite ntasks_nat in Hj. rewrite park_task by lia. by destruct (j =? current s).
  - unfold parked_frame. change (current p) with (current s). by rewrite Ht.
  - apply Hok.
  - intros i Hi. unfold context_of. change (current p) with (current s). destruct (Z.eqb_spec i (current s)) as [->|Hne]; [reflexivity|].
    rewrite park_task by done. by apply Z.eqb_neq in Hne as ->.
Qed.
End park.

Lemma idle_until_spec fuel s n s' :
  parked_ok s -> idle_until_runnable fuel s = Some (n, s') ->
  parked_ok s' /\ idling s' = false /\ carried (parked_frame s) s (parked_frame s') s' /\
  n = first_runnable s' /\ (n < 0 -> any_deadline s' = false).
Proof.
  intros Hok. unfold idle_until_runnable. set (s1 := set_idling true s).
  assert (parked_ok s1) as P1 by (destruct Hok; by split).
  assert (carried (parked_frame s) s (parked_frame s1) s1) as C1
    by (intros i Hi; left; split; [apply same_wait_refl|reflexivity]).
  destruct (idle_loop fuel zero_regs s1) as [[m s2]|] eqn:Hl; [|discriminate].
  intros H. apply (inj Some), pair_equal_spec in H as [<- <-].
  destruct (idle_loop_spec fuel s1 m s2 P1 eq_refl Hl) as (P2 & _ & C2 & Hn & Hd).
  split; [destruct P2; by split|]. split; [reflexivity|].
  split; [|split; [exact Hn|exact Hd]]. eapply carried_trans; [exact C1|]. eapply carried_trans; [exact C2|].
  intros i Hi. left. split; [apply same_wait_refl|reflexivity].
Qed.

Lemma halted_current s : sized s -> idling s = true ->
  sized (halted s) /\ idling (halted s) = true /\ current (halted s) = current s.
Proof.
  intros Hs Hi. rewrite (halted_eq s Hs Hi). set (s1 := set_ticks _ s).
  assert (sized s1) as H1 by exact Hs. destruct (expire_deadlines_map s1 H1) as (_ & H2 & _).
  destruct (expire_deadlines_map _ H2) as (_ & H3 & _).
  destruct (expire_same s1 H1) as (A1 & _ & _ & _ & _ & _ & _ & A2 & _).
  destruct (expire_same _ H2) as (B1 & _ & _ & _ & _ & _ & _ & B2 & _).
  rewrite B1, B2, A1, A2. split; [exact H3|]. split; [exact Hi|reflexivity].
Qed.

Lemma idle_loop_current fuel s n s' :
  sized s -> idling s = true -> idle_loop fuel zero_regs s = Some (n, s') -> current s' = current s.
Proof.
  revert s. induction fuel as [|fuel IH]; intros s Hs Hi Hl; [discriminate Hl|].
  rewrite idle_loop_S in Hl. destruct (halted_current s Hs Hi) as (S1 & I1 & C1).
  destruct (0 <=? first_runnable (halted s)); [apply (inj Some), pair_equal_spec in Hl as [_ <-]; exact C1|].
  destruct (negb (any_deadline (halted s))); [apply (inj Some), pair_equal_spec in Hl as [_ <-]; exact C1|].
  rewrite (IH _ S1 I1 Hl). exact C1.
Qed.

Lemma idle_until_current fuel s n s' :
  sized s -> idle_until_runnable fuel s = Some (n, s') -> current s' = current s.
Proof.
  intros Hs. unfold idle_until_runnable. set (s1 := set_idling true s).
  destruct (idle_loop fuel zero_regs s1) as [[m s2]|] eqn:Hl; [|discriminate].
  intros H. apply (inj Some), pair_equal_spec in H as [<- <-].
  exact (idle_loop_current fuel s1 m s2 Hs eq_refl Hl).
Qed.

(** The caller of a wait that could not sleep goes on, awake. *)
Lemma wait_clear_ok s :
  parked_ok s -> idling s = false -> used (task s (current s)) = true ->
  sched_ok (wait_clear (current s) s) /\
  forall i, 0 <= i < SCHED64_MAX_TASKS ->
    context_of (parked_frame s) (wait_clear (current s) s) i = context_of (parked_frame s) s i /\
    (i <> current s -> task (wait_clear (current s) s) i = task s i).
Proof.
  intros [H1 H2 [H3 H3'] H4 H5] Hi Hu. unfold wait_clear. set (t := set_deadline 0 _).
  assert (task (put (current s) t s) (current s) = t) as Ht by (by apply task_put_eq).
  split.
  - split; [by apply sized_put|change (current (put (current s) t s)) with (current s); lia| | |exact Hi].
    + intros _. change (current (put (current s) t s)) with (current s). rewrite Ht.
      split; [unfold runnable; cbn [used blocked t set_deadline set_wait_addr set_blocked]; by rewrite Hu|].
      split; [exact H3|exact H3'].
    + change (task_total (put (current s) t s)) with (task_total s). rewrite H5. symmetry. apply count_up_ext.
      intros j Hj. rewrite ntasks_nat in Hj. rewrite task_put by (done || lia).
      destruct (Z.eqb_spec (current s) j) as [<-|]; reflexivity.
  - intros i Hir. split.
    + unfold context_of. change (current (put (current s) t s)) with (current s).
      destruct (Z.eqb_spec i (current s)); [reflexivity|]. by rewrite task_put_ne by (done || lia).
    + intros Hne. by rewrite task_put_ne by (done || lia).
Qed.

(** Where a sleeping caller's CPU goes. *)
Lemma next_task_parked s :
  parked_ok s -> blocked (task s (current s)) = true ->
  let n := next_task (current s) s in
  if (n =? current s) || blocked (task s n)
  then forall j, 0 <= j < SCHED64_MAX_TASKS -> runnable (task s j) = false
  else 0 <= n < SCHED64_MAX_TASKS /\ runnable (task s n) = true.
Proof.
  intros Hok Hb. cbv zeta. assert (runnable (task s (current s)) = false) as Hc
    by (unfold runnable; rewrite Hb; apply andb_false_r).
  destruct (next_task_spec (current s) s (po_current _ Hok)) as [Hn [[Hr _]|[-> Hno]]];
    [|by rewrite Z.eqb_refl].
  destruct (Z.eqb_spec (next_task (current s) s) (current s)) as [He|_]; [by rewrite He, Hc in Hr|].
  unfold runnable in Hr. apply andb_true_iff in Hr as [Hu Hnb]. apply negb_true_iff in Hnb. cbn [orb]. rewrite Hnb.
  split; [exact Hn|]. unfold runnable. by rewrite Hu, Hnb.
Qed.

(** The switch that ends a wait's set-up. *)
Lemma hand_on_parked s0 f n s :
  carried f s0 (parked_frame s) s -> parked_ok s -> idling s = false ->
  0 <= n < SCHED64_MAX_TASKS -> runnable (task s n) = true ->
  let '(res, s2) := switch_in n (switch_out s) in
  let '(f', s') := sched64_resume res s2 in
  sched_ok s' /\ carried f s0 f' s' /\ runnable (task s' (current s')) = true.
Proof.
  intros Hc Hok Hi Hn Hr. pose proof (hand_over_ok n s Hok Hi Hn Hr) as H. unfold hand_to in H.
  destruct (switch_in n _) as [res s2]. destruct (sched64_resume res s2) as [f' s'].
  destruct H as (H1 & H2 & H3 & _). split; [done|]. split; [by eapply carried_trans|].
  apply (so_running _ H1). lia.
Qed.

(** The refusal of a wait: the caller goes on, nobody else could have run. *)
Lemma wait_refused s0 f s :
  carried f s0 (parked_frame s) s -> parked_ok s -> idling s = false ->
  used (task s (current s)) = true -> current s = current s0 ->
  (forall j, 0 <= j < SCHED64_MAX_TASKS -> runnable (task s j) = false) ->
  sched_ok (wait_clear (current s) s) /\ current (wait_clear (current s) s) = current s0 /\
  forall j, 0 <= j < SCHED64_MAX_TASKS -> j <> current s0 ->
    runnable (task (wait_clear (current s) s) j) = false /\
    carried_one (context_of f s0 j) (task s0 j)
      (context_of (parked_frame s) (wait_clear (current s) s) j) (task (wait_clear (current s) s) j).
Proof.
  intros Hc Hok Hi Hu Hcur Hno. destruct (wait_clear_ok s Hok Hi Hu) as [H1 H2].
  split; [exact H1|]. split; [exact Hcur|]. intros j Hj Hne. rewrite <-Hcur in Hne.
  destruct (H2 j Hj) as [-> ->]; [|exact Hne]. split; [by apply Hno|by apply Hc].
Qed.

Lemma carried_used f s f' s' i :
  carried f s f' s' -> 0 <= i < SCHED64_MAX_TASKS -> used (task s i) = true -> used (task s' i) = true.
Proof. intros H Hi Hu. destruct (H i Hi) as [[W _]|(_ & U & _)]; [|exact U]. by rewrite (proj1 W). Qed.

(** A wait. *)
Lemma sched64_block_spec fuel r addr wr tr dl bits s o s2 :
  sched_ok s -> 0 <= current s ->
  sched64_block_until_ex fuel r addr wr tr dl bits s = Some (o, s2) ->
  let p := park r addr wr tr dl bits s in
  match o with
  | Some res => let '(f', s') := sched64_resume res s2 in sched_ok s' /\ carried r p f' s' /\
      runnable (task s' (current s')) = true
  | None => sched_ok s2 /\ current s2 = current s /\
      (exists f, forall j, 0 <= j < SCHED64_MAX_TASKS -> j <> current s ->
        runnable (task s2 j) = false /\ carried_one (context_of r p j) (task p j) (context_of f s2 j) (task s2 j))
  end.
Proof.
  intros Hok Hc Hb. cbv zeta. unfold sched64_block_until_ex in Hb. rewrite (nobody_false s Hok Hc) in Hb.
  destruct (park_ok r addr wr tr dl bits s Hok Hc) as (P & Hf & Hi & _).
  pose proof (park_task r addr wr tr dl bits s Hok Hc) as Hpt.
  set (p := park r addr wr tr dl bits s) in *. assert (current p = current s) as Hcur by reflexivity.
  pose proof (po_current _ P) as Hcr. rewrite Hcur in Hcr.
  assert (used (task p (current p)) = true /\ blocked (task p (current p)) = true) as [Hu Hbl].
  { rewrite Hcur, Hpt, Z.eqb_refl by exact Hcr. split; [|reflexivity]. destruct (so_running _ Hok Hc) as (Hr & _).
    unfold runnable in Hr. apply andb_true_iff in Hr as [Hr _]. exact Hr. }
  clearbody p. pose proof (next_task_parked p P Hbl) as Hn. cbv zeta in Hn.
  assert (carried r p (parked_frame p) p) as C0 by (rewrite Hf; apply carried_refl).
  destruct ((next_task (current p) p =? current p) || blocked (task p (next_task (current p) p))).
  - destruct (irq0_masked p || negb (any_deadline p)).
    { apply (inj Some), pair_equal_spec in Hb as [<- <-]. rewrite <-Hcur.
      destruct (wait_refused p r p C0 P Hi Hu eq_refl Hn) as (H1 & H2 & H3).
      split; [exact H1|]. split; [exact H2|]. exists (parked_frame p). exact H3. }
    destruct (idle_until_runnable fuel p) as [[n q]|] eqn:Hl; [|discriminate Hb].
    destruct (idle_until_spec fuel p n q P Hl) as (Q & Qi & C & Hfr & _).
    assert (current q = current p) as Hcq by exact (idle_until_current fuel p n q (po_size _ P) Hl).
    assert (carried r p (parked_frame q) q) as C1 by (eapply carried_trans; [exact C0|exact C]).
    destruct (first_runnable_spec q) as [[Hr1 Hr2]|[Hr1 Hr2]]; rewrite <-Hfr in *.
    + rewrite (proj2 (Z.ltb_ge n 0)) in Hb by lia. pose proof (hand_on_parked p r n q C1 Q Qi Hr1 Hr2) as H.
      destruct (switch_in n (switch_out q)) as [res s1]. apply (inj Some), pair_equal_spec in Hb as [<- <-]. exact H.
    + rewrite (proj2 (Z.ltb_lt n 0)) in Hb by lia. apply (inj Some), pair_equal_spec in Hb as [<- <-]. rewrite <-Hcur.
      assert (used (task q (current q)) = true) as Huq by (rewrite Hcq; apply (carried_used _ _ _ _ _ C (po_current _ P) Hu)).
      destruct (wait_refused p r q C1 Q Qi Huq Hcq Hr2) as (H1 & H2 & H3).
      split; [exact H1|]. split; [exact H2|]. exists (parked_frame q). exact H3.
  - destruct Hn as [Hn Hr]. pose proof (hand_on_parked p r _ p C0 P Hi Hn Hr) as H.
    destruct (switch_in _ (switch_out p)) as [res s1]. apply (inj Some), pair_equal_spec in Hb as [<- <-]. exact H.
Qed.

(** ** Ending *)

(** A slot's thread carried while it does not run. *)
Definition slot_carried (t t' : task64) : Prop := carried_one (saved t) t (saved t') t'.

Lemma slot_carried_refl t : slot_carried t t.
Proof. left. split; [apply same_wait_refl|reflexivity]. Qed.

Lemma expire_slot now t : slot_carried t (expire now t).
Proof.
  destruct (expire_cases now t) as [[(H1 & H2 & H3 & _) ->]|[_ ->]]; [|apply slot_carried_refl].
  right. split; [unfold has_deadline, nz; rewrite H1, H2; by apply Z.eqb_neq in H3 as ->|].
  split; [exact H1|]. split; reflexivity.
Qed.

(** What idling does to the table. *)
Record idled (s s' : sched) : Prop := {
  id_size : sized s';
  id_current : current s' = current s;
  id_total : task_total s' = task_total s;
  id_used : used_count s' = used_count s;
  id_tasks i : 0 <= i < SCHED64_MAX_TASKS -> slot_carried (task s i) (task s' i)
}.

Lemma idled_trans a b c : idled a b -> idled b c -> idled a c.
Proof.
  intros [A1 A2 A3 A4 A5] [B1 B2 B3 B4 B5]. split; [exact B1| | | |].
  - by rewrite B2. - by rewrite B3. - by rewrite B4.
  - intros i Hi. exact (carried_one_trans _ _ _ _ _ _ (A5 i Hi) (B5 i Hi)).
Qed.

Lemma expire_idled s : sized s -> idled s (expire_deadlines s).
Proof.
  intros Hs. pose proof (expire_deadlines_map s Hs) as Hmap.
  pose proof (used_count_mapped _ _ _ (expire_used (ticks s)) Hmap) as Hu.
  destruct Hmap as (_ & H1 & Hm). destruct (expire_same s Hs) as (E1 & _ & _ & _ & _ & _ & E2 & _).
  split; [exact H1|exact E1|exact E2|exact Hu|]. intros i Hi. rewrite Hm by exact Hi. apply expire_slot.
Qed.

Lemma halted_idled s : sized s -> idling s = true -> idled s (halted s).
Proof.
  intros Hs Hi. rewrite (halted_eq s Hs Hi). set (s1 := set_ticks _ s).
  assert (idled s s1) as I1 by (split; [exact Hs|reflexivity|reflexivity|reflexivity|intros; apply slot_carried_refl]).
  pose proof (expire_idled s1 (id_size _ _ I1)) as I2. pose proof (expire_idled _ (id_size _ _ I2)) as I3.
  exact (idled_trans _ _ _ I1 (idled_trans _ _ _ I2 I3)).
Qed.

Lemma idle_loop_idled fuel s n s' :
  sized s -> idling s = true -> idle_loop fuel zero_regs s = Some (n, s') ->
  idled s s' /\ n = first_runnable s'.
Proof.
  revert s. induction fuel as [|fuel IH]; intros s Hs Hi Hl; [discriminate Hl|].
  rewrite idle_loop_S in Hl. destruct (halted_current s Hs Hi) as (S1 & I1 & _).
  pose proof (halted_idled s Hs Hi) as D1.
  destruct (Z.leb_spec 0 (first_runnable (halted s))) as [_|Hlt].
  { apply (inj Some), pair_equal_spec in Hl as [<- <-]. split; [exact D1|reflexivity]. }
  destruct (negb (any_deadline (halted s))).
  - apply (inj Some), pair_equal_spec in Hl as [<- <-]. split; [exact D1|].
    destruct (first_runnable_spec (halted s)) as [[? _]|[-> _]]; [lia|reflexivity].
  - destruct (IH _ S1 I1 Hl) as [D2 Hn]. split; [exact (idled_trans _ _ _ D1 D2)|exact Hn].
Qed.

Lemma idle_until_idled fuel s n s' :
  sized s -> idle_until_runnable fuel s = Some (n, s') ->
  idled s s' /\ idling s' = false /\ n = first_runnable s'.
Proof.
  intros Hs. unfold idle_until_runnable. set (s1 := set_idling true s).
  destruct (idle_loop fuel zero_regs s1) as [[m s2]|] eqn:Hl; [|discriminate].
  intros H. apply (inj Some), pair_equal_spec in H as [<- <-].
  destruct (idle_loop_idled fuel s1 m s2 Hs eq_refl Hl) as [[H1 H2 H3 H4 H5] Hn].
  split; [split; [exact H1|exact H2|exact H3|exact H4|exact H5]|]. split; [reflexivity|exact Hn].
Qed.

Lemma find_task_first s : first_runnable s = match find_task runnable s with Some i => i | None => -1 end.
Proof. reflexivity. Qed.

(** What succeeds an ended thread. *)
Lemma succeed_spec fuel s o s2 :
  sized s -> task_total s = used_count s -> idling s = false -> succeed fuel s = Some (o, s2) ->
  match o with
  | Some res => let '(f', s') := sched64_resume res s2 in
      sched_ok s' /\ 0 <= current s' /\
      forall i, 0 <= i < SCHED64_MAX_TASKS ->
        carried_one (saved (task s i)) (task s i) (context_of f' s' i) (task s' i)
  | None => sched_ok s2 /\ current s2 = -1 /\
      forall i, 0 <= i < SCHED64_MAX_TASKS ->
        runnable (task s2 i) = false /\ slot_carried (task s i) (task s2 i)
  end.
Proof.
  intros Hs Ht Hi H.
  assert (forall q n, idled s q -> idling q = false -> n = first_runnable q \/ first_runnable q = -1 /\ n = SCHED64_MAX_TASKS ->
    (if negb (in_table n) then Some (None, set_current (-1) q)
     else let '(r, s) := switch_in n q in Some (Some r, s)) = Some (o, s2) ->
    match o with
    | Some res => let '(f', s') := sched64_resume res s2 in
        sched_ok s' /\ 0 <= current s' /\
        forall i, 0 <= i < SCHED64_MAX_TASKS ->
          carried_one (saved (task s i)) (task s i) (context_of f' s' i) (task s' i)
    | None => sched_ok s2 /\ current s2 = -1 /\
        forall i, 0 <= i < SCHED64_MAX_TASKS ->
          runnable (task s2 i) = false /\ slot_carried (task s i) (task s2 i)
    end) as Hgen.
  { intros q n [Q1 Q2 Q3 Q4 Q5] Qi Hn Hq.
    destruct (first_runnable_spec q) as [[Hr1 Hr2]|[Hr1 Hr2]].
    - destruct Hn as [->|[Hbad _]]; [|lia].
      assert (in_table (first_runnable q) = true) as Hin
        by (unfold in_table; rewrite (proj2 (Z.leb_le _ _)), (proj2 (Z.ltb_lt _ _)) by lia; reflexivity).
      rewrite Hin in Hq. cbn [negb] in Hq. pose proof (switch_in_eq (first_runnable q) q) as He.
      destruct (switch_in (first_runnable q) q) as [r s1]. apply (inj Some), pair_equal_spec in Hq as [<- <-].
      rewrite He. split; [|split; [exact (proj1 Hr1)|]].
      + split; [exact Q1|change (-1 <= first_runnable q < SCHED64_MAX_TASKS); lia| | |exact Qi].
        * intros _. split; [exact Hr2|]. split; reflexivity.
        * change (task_total q = used_count q). rewrite Q3, Q4. exact Ht.
      + intros i Hir. rewrite entered_contexts. exact (Q5 i Hir).
    - assert (in_table n = false) as Hin.
      { destruct Hn as [->|[_ ->]]; [rewrite Hr1|]; reflexivity. }
      rewrite Hin in Hq. apply (inj Some), pair_equal_spec in Hq as [<- <-].
      split; [|split; [reflexivity|intros i Hir; split; [exact (Hr2 i Hir)|exact (Q5 i Hir)]]].
      split; [exact Q1|change (-1 <= -1 < SCHED64_MAX_TASKS); unfold SCHED64_MAX_TASKS; lia| | |exact Qi].
      + change (0 <= -1 -> runnable (task (set_current (-1) q) (-1)) = true /\
          pid (task (set_current (-1) q) (-1)) = current_pid q /\ space (task (set_current (-1) q) (-1)) = cr3 q). lia.
      + change (task_total q = used_count q). rewrite Q3, Q4. exact Ht. }
  assert (idled s s) as I0 by (split; [exact Hs|reflexivity|reflexivity|reflexivity|intros; apply slot_carried_refl]).
  unfold succeed in H. pose proof (find_task_first s) as Hff. destruct (find_task runnable s) as [i|].
  - exact (Hgen s i I0 Hi (or_introl (eq_sym Hff)) H).
  - destruct (negb (irq0_masked s) && any_deadline s).
    + destruct (idle_until_runnable fuel s) as [[n q]|] eqn:Hl; [|discriminate H].
      destruct (idle_until_idled fuel s n q Hs Hl) as (D & Qi & Hn). exact (Hgen q n D Qi (or_introl Hn) H).
    + exact (Hgen s SCHED64_MAX_TASKS I0 Hi (or_intror (conj Hff eq_refl)) H).
Qed.

Lemma used_count_put i t s :
  sized s -> 0 <= i < SCHED64_MAX_TASKS ->
  used_count (put i t s) = used_count s + (if used t then 1 else 0) - (if used (task s i) then 1 else 0).
Proof.
  intros Hs Hi. unfold used_count. rewrite (count_up_update NTASKS 0 _ (fun j => used (task s j)) i).
  - rewrite task_put_eq by (exact Hs || exact Hi). reflexivity.
  - rewrite ntasks_nat. exact Hi.
  - intros j Hj Hne. rewrite ntasks_nat in Hj. rewrite task_put_ne by (exact Hs || lia). reflexivity.
Qed.

Lemma used_count_pos s i : 0 <= i < SCHED64_MAX_TASKS -> used (task s i) = true -> 1 <= used_count s.
Proof.
  intros Hi Hu. unfold used_count.
  rewrite (count_up_update NTASKS 0 _ (fun j => if j =? i then false else used (task s j)) i).
  - rewrite Hu, Z.eqb_refl. pose proof (count_up_range NTASKS 0 (fun j => if j =? i then false else used (task s j))). lia.
  - rewrite ntasks_nat. exact Hi.
  - intros j Hj Hne. by apply Z.eqb_neq in Hne as ->.
Qed.

Lemma used_count_two s i j :
  0 <= i < SCHED64_MAX_TASKS -> 0 <= j < SCHED64_MAX_TASKS -> i <> j ->
  used (task s i) = true -> used (task s j) = true -> 2 <= used_count s.
Proof.
  intros Hi Hj Hne Hui Huj. unfold used_count.
  set (p := fun k => if k =? i then false else used (task s k)).
  rewrite (count_up_update NTASKS 0 _ p i).
  2: rewrite ntasks_nat; exact Hi.
  2: { intros k Hk Hki. unfold p. by apply Z.eqb_neq in Hki as ->. }
  rewrite (count_up_update NTASKS 0 p (fun k => if k =? j then false else p k) j).
  2: rewrite ntasks_nat; exact Hj.
  2: { intros k Hk Hkj. by apply Z.eqb_neq in Hkj as ->. }
  pose proof (count_up_range NTASKS 0 (fun k => if k =? j then false else p k)).
  assert (p i = false) as -> by (unfold p; by rewrite Z.eqb_refl).
  assert (p j = true) as -> by (unfold p; rewrite Huj; destruct (Z.eqb_spec j i); [lia|reflexivity]).
  rewrite Hui, Z.eqb_refl. lia.
Qed.

(** A slot given up. *)
Lemma remove_task_spec i s :
  sized s -> 0 <= i < SCHED64_MAX_TASKS -> used (task s i) = true -> task_total s = used_count s ->
  let s1 := remove_task i s in
  sized s1 /\ task_total s1 = used_count s1 /\ s1 = set_task_total (task_total s - 1) (set_tasks (tasks s1) s) /\
  forall j, 0 <= j < SCHED64_MAX_TASKS -> task s1 j = if i =? j then set_used false (task s i) else task s j.
Proof.
  intros Hs Hi Hu Ht. cbv zeta. unfold remove_task. pose proof (used_count_pos s i Hi Hu) as Hp.
  change (task_total (put i ?t s)) with (task_total s). rewrite (proj2 (Z.ltb_lt _ _)) by lia.
  set (q := put i _ s). split; [by apply sized_put|]. split; [|split; [reflexivity|]].
  - change (task_total s - 1 = used_count q). unfold q. rewrite used_count_put by (exact Hs || exact Hi).
    rewrite Hu, Ht. cbn [used set_used]. lia.
  - intros j Hj. change (task (set_task_total (task_total s - 1) q) j) with (task q j). unfold q.
    rewrite task_put by (exact Hs || lia). reflexivity.
Qed.

Definition of_process (p : Z) (t : task64) : bool := used t && (pid t =? p).

Lemma remove_all_spec p s :
  sized s -> task_total s = used_count s ->
  let s1 := each_task (fun i s => if negb (used (task s i)) || negb (pid (task s i) =? p) then s else remove_task i s) s in
  sized s1 /\ task_total s1 = used_count s1 /\ idling s1 = idling s /\
  forall j, 0 <= j < SCHED64_MAX_TASKS ->
    task s1 j = if of_process p (task s j) then set_used false (task s j) else task s j.
Proof.
  intros Hs Ht. cbv zeta. unfold each_task.
  set (body := fun (i : Z) (s : sched) => if negb (used (task s i)) || negb (pid (task s i) =? p) then s else remove_task i s).
  destruct (for_up_ind (fun k t => sized t /\ task_total t = used_count t /\ idling t = idling s /\
    forall j, 0 <= j < SCHED64_MAX_TASKS ->
      task t j = if (j <? k) && of_process p (task s j) then set_used false (task s j) else task s j)
    body NTASKS 0 s) as (H1 & H2 & H3 & H4).
  - split; [exact Hs|]. split; [exact Ht|]. split; [reflexivity|]. intros j Hj. by rewrite (proj2 (Z.ltb_ge j 0)) by lia.
  - intros k t Hk (E1 & E2 & E3 & E4). rewrite ntasks_nat in Hk. unfold body.
    pose proof (E4 k ltac:(lia)) as Ek. rewrite (proj2 (Z.ltb_ge k k)) in Ek by lia. cbn [andb] in Ek.
    assert (forall j, j <> k -> (j <? k + 1) = (j <? k)) as Hlt
      by (intros j Hne; destruct (Z.ltb_spec j (k + 1)), (Z.ltb_spec j k); lia || reflexivity).
    rewrite Ek, <-negb_andb. change (used (task s k) && (pid (task s k) =? p)) with (of_process p (task s k)).
    destruct (of_process p (task s k)) eqn:Ho; cbn [negb].
    + assert (used (task t k) = true) as Hu by (rewrite Ek; unfold of_process in Ho; by apply andb_true_iff in Ho as [-> _]).
      destruct (remove_task_spec k t E1 ltac:(lia) Hu E2) as (R1 & R2 & R3 & R4).
      split; [exact R1|]. split; [exact R2|]. split; [rewrite R3; exact E3|]. intros j Hj. rewrite R4, Ek by exact Hj.
      destruct (Z.eqb_spec k j) as [<-|Hne]; [by rewrite (proj2 (Z.ltb_lt k (k + 1))), Ho by lia|].
      rewrite Hlt by lia. exact (E4 j Hj).
    + split; [exact E1|]. split; [exact E2|]. split; [exact E3|]. intros j Hj.
      destruct (decide (j = k)) as [->|Hne]; [rewrite Ho, andb_false_r; exact Ek|]. rewrite Hlt by exact Hne. exact (E4 j Hj).
  - rewrite Z.add_0_l, ntasks_nat in H4. split; [exact H1|]. split; [exact H2|]. split; [exact H3|].
    intros j Hj. rewrite H4 by exact Hj. by rewrite (proj2 (Z.ltb_lt _ _)) by lia.
Qed.

Lemma parked_sched_ok s :
  parked_ok s -> runnable (task s (current s)) = true -> idling s = false -> sched_ok s.
Proof.
  intros [H1 H2 H3 _ H5] Hr Hi. split; [exact H1|lia| |exact H5|exact Hi].
  intros _. split; [exact Hr|exact H3].
Qed.

(** ** What the scheduler promises *)

(** The outcome of a call that may hand the CPU on, for the thread in slot
    [i]: its context and its slot before, and the caller's frame and state
    after. *)
Definition outcome (o : option resume) (r : registers64) (s2 : sched) : registers64 * sched :=
  match o with Some res => sched64_resume res s2 | None => (r, s2) end.

(** C3: No switch loses or mixes up a thread.  Whatever ends a thread's turn -
    the timer, a yield, a wait, the end of the thread - every other thread's
    registers, address space, FS and GS bases, FPU registers and process are,
    wherever they are afterwards, what they were before, but that a wait
    whose deadline passed ends with its timeout answer in RAX; a thread that
    gave the CPU up is resumed with what it stored; and the table stays
    well-formed.  A wait that is refused returns to the caller, and then no
    other thread could have run; after the end of the last runnable thread
    nobody runs. *)
Theorem sched64_context_isolation s :
  sched_ok s -> 0 <= current s ->
  (forall frame, nz (stop_after s) && nz (stop_rip s) = false ->
    let '(f', s') := sched64_tick frame s in sched_ok s' /\ carried frame s f' s') /\
  (forall r, let '(o, s1) := sched64_yield_current r s in
    let '(f', s') := outcome o r s1 in sched_ok s' /\ carried r s f' s') /\
  (forall fuel r addr wr tr dl bits o s2,
    sched64_block_until_ex fuel r addr wr tr dl bits s = Some (o, s2) ->
    let p := park r addr wr tr dl bits s in
    (forall i, 0 <= i < SCHED64_MAX_TASKS ->
       context_of r p i = context_of r s i /\ (i <> current s -> task p i = task s i)) /\
    let '(f', s') := outcome o r s2 in
    sched_ok s' /\
    match o with
    | Some _ => carried r p f' s'
    | None => current s' = current s /\ forall i, 0 <= i < SCHED64_MAX_TASKS -> i <> current s ->
        runnable (task s' i) = false /\ slot_carried (task s i) (task s' i)
    end) /\
  (forall fuel r o s2, sched64_exit_current fuel s = Some (o, s2) ->
    let '(f', s') := outcome o r s2 in
    sched_ok s' /\ used (task s' (current s)) = false /\
    (o = None -> current s' = -1 /\ forall i, 0 <= i < SCHED64_MAX_TASKS -> runnable (task s' i) = false) /\
    forall i, 0 <= i < SCHED64_MAX_TASKS -> i <> current s ->
      carried_one (saved (task s i)) (task s i) (context_of f' s' i) (task s' i)).
Proof.
  intros Hok Hc. pose proof (so_current _ Hok) as Hcr. assert (0 <= current s < SCHED64_MAX_TASKS) as Hcr' by lia.
  destruct (so_running _ Hok Hc) as (Hrun & _). split; [|split; [|split]].
  - intros frame Hst. pose proof (sched64_tick_spec frame s Hok Hc Hst) as H.
    destruct (sched64_tick frame s) as [f' s']. split; apply H.
  - intros r. pose proof (sched64_yield_spec r s Hok Hc) as H.
    destruct (sched64_yield_current r s) as [[res|] s1]; cbn [outcome].
    + destruct (sched64_resume res s1) as [f' s']. split; apply H.
    + destruct H as [-> _]. destruct (stored_parked r s Hok Hc) as [P _].
      split; [|exact (proj2 (proj2 (stored_carried r s Hok Hc)))].
      apply parked_sched_ok; [exact P| |exact (so_awake _ Hok)].
      change (current (stored r s)) with (current s). unfold stored. rewrite task_put_eq by (apply Hok || lia). exact Hrun.
  - intros fuel r addr wr tr dl bits o s2 Hb. pose proof (sched64_block_spec fuel r addr wr tr dl bits s o s2 Hok Hc Hb) as H.
    destruct (park_ok r addr wr tr dl bits s Hok Hc) as (P & _ & _ & Hx).
    pose proof (park_task r addr wr tr dl bits s Hok Hc) as Hpt. cbv zeta in *. set (p := park r addr wr tr dl bits s) in *.
    assert (forall i, 0 <= i < SCHED64_MAX_TASKS -> i <> current s -> task p i = task s i) as Hpo
      by (intros i Hi Hne; rewrite Hpt by exact Hi; by apply Z.eqb_neq in Hne as ->).
    split; [intros i Hi; split; [exact (Hx i Hi)|exact (Hpo i Hi)]|].
    destruct o as [res|]; cbn [outcome].
    + destruct (sched64_resume res s2) as [f' s']. split; apply H.
    + destruct H as (H1 & H2 & f & H3). split; [exact H1|]. split; [exact H2|]. intros i Hi Hne.
      destruct (H3 i Hi Hne) as [Hn Hcar]. split; [exact Hn|]. revert Hcar. rewrite Hpo by assumption.
      unfold context_of. rewrite H2. change (current p) with (current s). rewrite (proj2 (Z.eqb_neq _ _) Hne), Hpo by assumption. exact (fun H => H).
  - intros fuel r o s2 He. unfold sched64_exit_current in He. rewrite (nobody_false s Hok Hc) in He.
    assert (used (task s (current s)) = true) as Hu by (unfold runnable in Hrun; by apply andb_true_iff in Hrun as [-> _]).
    destruct (remove_task_spec (current s) s (so_size _ Hok) Hcr' Hu (so_total _ Hok)) as (R1 & R2 & R3 & R4).
    set (s1 := remove_task (current s) s) in *.
    assert (idling s1 = false) as R5 by (rewrite R3; exact (so_awake _ Hok)).
    pose proof (succeed_spec fuel s1 o s2 R1 R2 R5 He) as H. clearbody s1.
    assert (used (task s1 (current s)) = false) as Hdead by (rewrite R4, Z.eqb_refl by exact Hcr'; reflexivity).
    assert (forall i, 0 <= i < SCHED64_MAX_TASKS -> i <> current s -> task s1 i = task s i) as Hoth
      by (intros i Hi Hne; rewrite R4 by exact Hi; destruct (Z.eqb_spec (current s) i); [lia|reflexivity]).
    assert (forall x x' t', carried_one x (task s1 (current s)) x' t' -> used t' = false) as Hgone.
    { intros x x' t' [[W _]|(D & _)]; [by rewrite (proj1 W)|]. unfold has_deadline in D. by rewrite Hdead in D. }
    destruct o as [res|]; cbn [outcome].
    + destruct (sched64_resume res s2) as [f' s']. destruct H as (H1 & _ & H3). split; [exact H1|].
      split; [exact (Hgone _ _ _ (H3 _ Hcr'))|]. split; [discriminate|].
      intros i Hi Hne. rewrite <-(Hoth i Hi Hne). exact (H3 i Hi).
    + destruct H as (H1 & H2 & H3). split; [exact H1|]. split; [exact (Hgone _ _ _ (proj2 (H3 _ Hcr')))|].
      split; [intros _; split; [exact H2|intros i Hi; exact (proj1 (H3 i Hi))]|].
      intros i Hi Hne. rewrite <-(Hoth i Hi Hne). unfold context_of. rewrite H2.
      destruct (Z.eqb_spec i (-1)); [lia|]. exact (proj2 (H3 i Hi)).
Qed.

(** Two threads on one CPU, for the witnesses. *)
Definition demo_regs (v : Z) : registers64 := set_rip (0x400000 + v) (set_rflags RFLAGS_IF zero_regs).
Definition demo_task (v : Z) : task64 :=
  mkTask (demo_regs v) (0x1000 * v) v (v + 1) 0 0 0 0 0 0 v false true [v; v].
Definition demo : sched :=
  mkSched (demo_task 7 :: demo_task 8 :: replicate 1022 no_task) 2 0 0 0 0 false 0 [0; 0] 99 98 [97; 96] 0x7000 7 100 false.

Lemma demo_ok : sched_ok demo /\ 0 <= current demo.
Proof.
  split; [|cbn; lia]. split; [reflexivity|cbn; unfold SCHED64_MAX_TASKS; lia| |vm_compute; reflexivity|reflexivity].
  intros _. split; [reflexivity|]. split; reflexivity.
Qed.

Lemma sched64_context_isolation_witness :
  sched_ok demo /\ 0 <= current demo /\
  let '(f', s') := sched64_tick (demo_regs 50) demo in sched_ok s' /\ carried (demo_regs 50) demo f' s'.
Proof.
  destruct demo_ok as [H1 H2]. split; [exact H1|]. split; [exact H2|].
  exact (proj1 (sched64_context_isolation demo H1 H2) (demo_regs 50) eq_refl).
Defined.

(** ** Round robin *)

(** What the running thread does between two interrupts: its registers, its
    bases and its FPU registers are its own. *)
Record user_code := mkUser { u_regs : registers64; u_fs : Z; u_gs : Z; u_fpu : list Z }.

Definition user_runs (u : user_code) (s : sched) : sched :=
  set_cpu_fpu (u_fpu u) (set_cpu_gs (u_gs u) (set_cpu_fs (u_fs u) s)).

(** One period: the running thread computes, the timer interrupts. *)
Definition period (u : user_code) (x : registers64 * sched) : registers64 * sched :=
  timer_interrupt (u_regs u) (user_runs u (snd x)).

Fixpoint turns {X} (step : user_code -> X -> X) (u : nat -> user_code) (n : nat) (x : X) : X :=
  match n with
  | O => x
  | S n' => turns step (fun k => u (S k)) n' (step (u O) x)
  end.

Definition periods (u : nat -> user_code) (n : nat) (x : registers64 * sched) : registers64 * sched :=
  turns period u n x.

Lemma turns_S {X} (step : user_code -> X -> X) u n x :
  turns step u (S n) x = turns step (fun k => u (S k)) n (step (u O) x).
Proof. reflexivity. Qed.

Definition distance (i j : Z) : Z := (j - i) mod SCHED64_MAX_TASKS.

Lemma user_runs_ok u s : sched_ok s -> sched_ok (user_runs u s).
Proof. intros [H1 H2 H3 H4 H5]. split; [exact H1|exact H2|exact H3|exact H4|exact H5]. Qed.

Lemma set_ticks_ok v s : sched_ok s -> sched_ok (set_ticks v s).
Proof. intros [H1 H2 H3 H4 H5]. split; [exact H1|exact H2|exact H3|exact H4|exact H5]. Qed.

Lemma carried_saved f s f' s' j :
  carried f s f' s' -> 0 <= j < SCHED64_MAX_TASKS -> j <> current s -> runnable (task s j) = true ->
  runnable (task s' j) = true /\ context_of f' s' j = saved (task s j).
Proof.
  intros H Hj Hne Hr. specialize (H j Hj). unfold context_of at 1 in H. rewrite (proj2 (Z.eqb_neq _ _) Hne) in H.
  destruct H as [[W ->]|(D & _)]; [split; [by rewrite (same_wait_runnable _ _ W)|reflexivity]|].
  unfold has_deadline in D. unfold runnable in Hr. apply andb_true_iff in Hr as [_ Hb].
  apply negb_true_iff in Hb. by rewrite Hb, andb_false_r in D.
Qed.

Lemma runnable_used t : runnable t = true -> used t = true.
Proof. unfold runnable. intros H. by apply andb_true_iff in H as [-> _]. Qed.

(** The next task is not past a runnable one. *)
Lemma next_task_nearer s j :
  0 <= current s < SCHED64_MAX_TASKS -> 0 <= j < SCHED64_MAX_TASKS -> j <> current s -> runnable (task s j) = true ->
  let n := next_task (current s) s in
  0 <= n < SCHED64_MAX_TASKS /\ runnable (task s n) = true /\ (n = j \/ distance n j < distance (current s) j).
Proof.
  intros Hc Hj Hne Hr. cbv zeta. assert (0 < SCHED64_MAX_TASKS) as Hpos by (unfold SCHED64_MAX_TASKS; lia).
  destruct (next_task_spec (current s) s Hc) as [Hn [[Hrn Hno]|[_ Hno]]]; [|by rewrite Hno in Hr].
  split; [exact Hn|]. split; [exact Hrn|]. set (n := next_task (current s) s) in *. set (c := current s) in *.
  destruct (decide (n = j)) as [|Hnj]; [by left|right].
  assert (1 <= distance c j < SCHED64_MAX_TASKS /\ (c + distance c j) mod SCHED64_MAX_TASKS = j) as [Hd Hdj].
  { unfold distance. pose proof (Z.mod_pos_bound (j - c) SCHED64_MAX_TASKS Hpos).
    rewrite Zplus_mod_idemp_r. replace (c + (j - c)) with j by lia. split; [|by apply Z.mod_small].
    split; [|lia]. destruct (decide ((j - c) mod SCHED64_MAX_TASKS = 0)) as [E|]; [|lia]. exfalso.
    destruct (Z_lt_le_dec j c); [rewrite <-(Z.mod_add _ 1), Z.mod_small in E by lia; lia|rewrite Z.mod_small in E by lia; lia]. }
  pose proof (Hno (distance c j)) as Hcut. rewrite Hdj, Hr in Hcut.
  destruct (Z.eqb_spec n c) as [|Hnc]; [by specialize (Hcut Hd)|].
  destruct (Z_lt_le_dec (distance c j) ((n - c) mod SCHED64_MAX_TASKS)) as [Hlt|Hle];
    [specialize (Hcut (conj (proj1 Hd) Hlt)); discriminate Hcut|].
  assert (distance n j = distance c j - (n - c) mod SCHED64_MAX_TASKS) as ->.
  { unfold distance in *. rewrite <-(Z.mod_small ((j - c) mod SCHED64_MAX_TASKS - _) SCHED64_MAX_TASKS).
    - rewrite <-Zminus_mod. f_equal. lia.
    - pose proof (Z.mod_pos_bound (n - c) SCHED64_MAX_TASKS Hpos). lia. }
  assert ((n - c) mod SCHED64_MAX_TASKS <> 0); [|pose proof (Z.mod_pos_bound (n - c) SCHED64_MAX_TASKS Hpos); lia].
  intros E. destruct (Z_lt_le_dec n c); [rewrite <-(Z.mod_add _ 1), Z.mod_small in E by lia; lia|rewrite Z.mod_small in E by lia; lia].
Qed.

Lemma one_period u f s j :
  sched_ok s -> 0 <= current s -> nz (stop_after s) && nz (stop_rip s) = false ->
  0 <= j < SCHED64_MAX_TASKS -> j <> current s -> runnable (task s j) = true ->
  let '(f', s') := period u (f, s) in
  sched_ok s' /\ 0 <= current s' /\ nz (stop_after s') && nz (stop_rip s') = false /\
  runnable (task s' j) = true /\ context_of f' s' j = saved (task s j) /\
  (current s' = j \/ distance (current s') j < distance (current s) j).
Proof.
  intros Hok Hc Hst Hj Hne Hr. unfold period, timer_interrupt, snd. set (x := set_ticks _ (user_runs u s)).
  assert (sched_ok x) as Hx by (apply set_ticks_ok, user_runs_ok, Hok).
  pose proof (so_current _ Hok) as Hcr. assert (0 <= current s < SCHED64_MAX_TASKS) as Hcr' by lia.
  assert (2 <= task_total x) as H2.
  { change (2 <= task_total s). rewrite (so_total _ Hok).
    apply (used_count_two s (current s) j); [exact Hcr'|exact Hj|lia| |exact (runnable_used _ Hr)].
    exact (runnable_used _ (proj1 (so_running _ Hok Hc))). }
  pose proof (sched64_tick_spec (u_regs u) x Hx Hc Hst) as H. rewrite (proj2 (Z.ltb_ge _ _) H2) in H.
  destruct (expire_deadlines_map x (so_size _ Hx)) as (_ & _ & Hm).
  destruct (expire_same x (so_size _ Hx)) as (Ec & _). cbv zeta in Ec.
  assert (runnable (task (expire_deadlines x) j) = true) as Hre
    by (rewrite Hm by exact Hj; rewrite expire_runnable by exact Hr; exact Hr).
  assert (current x = current s) as Hcx by reflexivity.
  pose proof (next_task_nearer (expire_deadlines x) j) as Hn. rewrite Ec, Hcx in Hn.
  destruct (Hn Hcr' Hj Hne Hre) as (N1 & _ & N3). clear Hn. rewrite Hcx in H.
  assert (task x j = task s j) as Htj by reflexivity.
  destruct (sched64_tick (u_regs u) x) as [f' s']. destruct H as (H1 & Hcar & (_ & E1 & E2) & H5).
  split; [exact H1|]. split; [rewrite H5; exact (proj1 N1)|]. split; [rewrite E1, E2; exact Hst|].
  destruct (carried_saved _ _ _ _ j Hcar Hj Hne Hr) as [C1 C2]. split; [exact C1|].
  split; [rewrite C2, Htj; reflexivity|]. rewrite H5. exact N3.
Qed.

Lemma distance_pos i j :
  0 <= i < SCHED64_MAX_TASKS -> 0 <= j < SCHED64_MAX_TASKS -> j <> i -> 1 <= distance i j < SCHED64_MAX_TASKS.
Proof.
  unfold distance, SCHED64_MAX_TASKS. intros Hi Hj Hne. destruct (Z_lt_le_dec j i).
  - rewrite <-(Z.mod_add _ 1), Z.mod_small by lia. lia.
  - rewrite Z.mod_small by lia. lia.
Qed.

#[local] Opaque period distance.

Lemma periods_reach d : forall u f s j,
  sched_ok s -> 0 <= current s -> nz (stop_after s) && nz (stop_rip s) = false ->
  0 <= j < SCHED64_MAX_TASKS -> j <> current s -> runnable (task s j) = true ->
  distance (current s) j <= Z.of_nat d ->
  exists k, Z.of_nat k <= distance (current s) j /\
    let '(f', s') := periods u k (f, s) in
    sched_ok s' /\ current s' = j /\ context_of f' s' j = saved (task s j).
Proof.
  induction d as [|d IH]; intros u f s j Hok Hc Hst Hj Hne Hr Hd;
    pose proof (so_current _ Hok) as Hcr;
    pose proof (distance_pos (current s) j (conj Hc (proj2 Hcr)) Hj Hne) as Hp; [lia|].
  pose proof (one_period (u O) f s j Hok Hc Hst Hj Hne Hr) as H.
  destruct (period (u O) (f, s)) as [f1 s1] eqn:Ht.
  destruct H as (P1 & P2 & P3 & P4 & P5 & P6).
  destruct (decide (current s1 = j)) as [Hj1|Hj1].
  - exists 1%nat. split; [lia|]. unfold periods. rewrite turns_S, Ht. cbn [turns].
    split; [exact P1|]. split; [exact Hj1|exact P5].
  - destruct P6 as [P6|P6]; [exfalso; exact (Hj1 P6)|].
    destruct (IH (fun k => u (S k)) f1 s1 j P1 P2 P3 Hj (fun E => Hj1 (eq_sym E)) P4 ltac:(lia)) as (k & Hk & H).
    exists (S k). split; [lia|]. unfold periods in *. rewrite turns_S, Ht.
    assert (saved (task s j) = saved (task s1 j)) as ->; [|exact H].
    rewrite <-P5. unfold context_of. destruct (Z.eqb_spec j (current s1)) as [E|_]; [exfalso; exact (Hj1 (eq_sym E))|reflexivity].
Qed.

(** C10: Round robin: no thread starves.  Whatever the threads in between do with
    their turns, a runnable thread gets the CPU after at most as many timer
    interrupts as there are slots from the running one to it (fewer than
    1024), and it gets it with exactly the registers, address space, bases,
    FPU registers and process it was stored with. *)
Theorem sched64_round_robin u f s j :
  sched_ok s -> 0 <= current s -> nz (stop_after s) && nz (stop_rip s) = false ->
  0 <= j < SCHED64_MAX_TASKS -> j <> current s -> runnable (task s j) = true ->
  exists k, Z.of_nat k <= distance (current s) j < SCHED64_MAX_TASKS /\
    let '(f', s') := periods u k (f, s) in
    sched_ok s' /\ current s' = j /\ context_of f' s' j = saved (task s j).
Proof.
  intros Hok Hc Hst Hj Hne Hr. pose proof (so_current _ Hok) as Hcr.
  pose proof (distance_pos (current s) j (conj Hc (proj2 Hcr)) Hj Hne) as Hp.
  destruct (periods_reach (Z.to_nat (distance (current s) j)) u f s j Hok Hc Hst Hj Hne Hr ltac:(lia)) as (k & Hk & H).
  exists k. split; [lia|exact H].
Qed.

Definition demo_user (n : nat) : user_code := mkUser (demo_regs (100 + Z.of_nat n)) 1 2 [3; 4].

Lemma sched64_round_robin_witness :
  (sched_ok demo /\ runnable (task demo 1) = true) /\
  exists k, Z.of_nat k <= distance 0 1 < SCHED64_MAX_TASKS /\
    let '(f', s') := periods demo_user k (zero_regs, demo) in
    sched_ok s' /\ current s' = 1 /\ context_of f' s' 1 = saved (task demo 1).
Proof.
  destruct demo_ok as [H1 H2]. split; [split; [exact H1|reflexivity]|].
  assert (0 <= 1 < SCHED64_MAX_TASKS) as Hj by (unfold SCHED64_MAX_TASKS; lia).
  assert (1 <> current demo) as Hne by (cbn; lia).
  exact (sched64_round_robin demo_user zero_regs demo 1 H1 H2 eq_refl Hj Hne eq_refl).
Defined.

(** ** Waking *)

(** How many of the slots before [i] hold a thread that satisfies [c]. *)
Definition before (c : task64 -> bool) (s : sched) (i : Z) : Z :=
  count_up (Z.to_nat i) 0 (fun k => c (task s k)).

Lemma before_S c s i : 0 <= i -> before c s (i + 1) = before c s i + (if c (task s i) then 1 else 0).
Proof.
  intros Hi. unfold before. replace (Z.to_nat (i + 1)) with (S (Z.to_nat i)) by lia.
  rewrite count_up_S, Z2Nat.id, Z.add_0_l by lia. reflexivity.
Qed.

Lemma before_range c s i : 0 <= i -> 0 <= before c s i <= i.
Proof. intros Hi. unfold before. pose proof (count_up_range (Z.to_nat i) 0 (fun k => c (task s k))). lia. Qed.

Lemma wake_waiters_spec addr max bits p s :
  sized s ->
  let '(n, s') := wake_waiters addr max bits p s in
  let c := waits_for addr bits p in
  n = Z.min (Z.max 0 max) (before c s SCHED64_MAX_TASKS) /\
  s' = set_tasks (tasks s') s /\ sized s' /\
  forall i, 0 <= i < SCHED64_MAX_TASKS ->
    task s' i = if c (task s i) && (before c s i <? max) then woken (task s i) else task s i.
Proof.
  intros Hs. unfold wake_waiters. set (c := waits_for addr bits p).
  set (body := fun (i : Z) '(n, t) => if negb (n <? max) then (n, t) else
    if c (task t i) then (n + 1, put i (woken (task t i)) t) else (n, t)).
  pose proof (for_up_ind (fun k '(n, t) =>
    n = Z.min (Z.max 0 max) (before c s k) /\ t = set_tasks (tasks t) s /\ sized t /\
    forall i, 0 <= i < SCHED64_MAX_TASKS ->
      task t i = if (i <? k) && (c (task s i) && (before c s i <? max)) then woken (task s i) else task s i)
    body NTASKS 0 (0, s)) as H.
  destruct (for_up NTASKS 0 body (0, s)) as [n t]. rewrite Z.add_0_l, ntasks_nat in H. cbv zeta.
  destruct H as (H1 & H2 & H3 & H4).
  - split; [change (before c s 0) with 0; lia|]. split; [by destruct s|]. split; [exact Hs|].
    intros i Hi. by rewrite (proj2 (Z.ltb_ge i 0)) by lia.
  - intros k [m t'] Hk (E1 & E2 & E3 & E4). pose proof (before_S c s k ltac:(lia)) as Hb.
    pose proof (before_range c s k ltac:(lia)) as Hr.
    pose proof (E4 k ltac:(lia)) as Ek. rewrite (proj2 (Z.ltb_ge k k)) in Ek by lia. cbn [andb] in Ek.
    assert (forall i, i <> k -> (i <? k + 1) = (i <? k)) as Hlt
      by (intros i Hne; destruct (Z.ltb_spec i (k + 1)), (Z.ltb_spec i k); lia || reflexivity).
    assert (Hkeep : c (task s k) && (before c s k <? max) = false -> forall i, 0 <= i < SCHED64_MAX_TASKS ->
      task t' i = if (i <? k + 1) && (c (task s i) && (before c s i <? max)) then woken (task s i) else task s i).
    { intros Hno i Hi. destruct (decide (i = k)) as [->|Hne]; [by rewrite Hno, andb_false_r|].
      rewrite Hlt by exact Hne. exact (E4 i Hi). }
    unfold body. rewrite Ek. destruct (Z.ltb_spec m max) as [Hm|Hm]; cbn [negb].
    + assert (m = before c s k) as Em by lia.
      destruct (c (task s k)) eqn:Hc.
      * split; [lia|]. split; [rewrite E2; reflexivity|]. split; [by apply sized_put|]. intros i Hi.
        rewrite task_put by (exact E3 || lia).
        destruct (Z.eqb_spec k i) as [<-|Hne]; [by rewrite (proj2 (Z.ltb_lt k (k + 1))), Hc, (proj2 (Z.ltb_lt _ _)) by lia|].
        rewrite Hlt by lia. exact (E4 i Hi).
      * split; [lia|]. split; [exact E2|]. split; [exact E3|]. exact (Hkeep eq_refl).
    + split; [destruct (c (task s k)); lia|]. split; [exact E2|]. split; [exact E3|]. apply Hkeep.
      rewrite (proj2 (Z.ltb_ge _ _)) by lia. apply andb_false_r.
  - split; [exact H1|]. split; [exact H2|]. split; [exact H3|]. intros i Hi. rewrite H4 by exact Hi.
    by rewrite (proj2 (Z.ltb_lt _ _)) by lia.
Qed.

(** C29: A futex wake is exact: it wakes the first [max] waiters of the address in
    slot order - those of the given process, whose mask meets the given one -
    with their own answers in RAX, and returns how many; the threads parked on
    the shared condition key are all woken, their deadlines cleared; no other
    thread and nothing else of the scheduler changes. *)
Theorem sched64_wake_futex_exact addr max bits p s :
  sized s ->
  let '(n, s') := sched64_wake_futex addr max bits p s in
  let c := waits_for addr bits p in
  n = Z.min (Z.max 0 max) (before c s SCHED64_MAX_TASKS) /\
  s' = set_tasks (tasks s') s /\
  forall i, 0 <= i < SCHED64_MAX_TASKS ->
    task s' i =
      if c (task s i) && (before c s i <? max) then woken (task s i)
      else if cond_waiter (task s i) then set_deadline 0 (woken (task s i)) else task s i.
Proof.
  intros Hs. unfold sched64_wake_futex. pose proof (wake_waiters_spec addr max bits p s Hs) as H.
  destruct (wake_waiters addr max bits p s) as [n t]. cbv zeta in *. destruct H as (H1 & H2 & H3 & H4).
  rewrite (each_task_if cond_waiter (fun t => set_deadline 0 (woken t)) t).
  destruct (each_task_map (fun t => if cond_waiter t then set_deadline 0 (woken t) else t) t H3) as (M1 & _ & M3).
  set (e := each_task _ t) in *. clearbody e.
  split; [exact H1|]. split; [transitivity (set_tasks (tasks e) t); [exact M1|rewrite H2; reflexivity]|]. intros i Hi. rewrite M3, H4 by exact Hi.
  destruct (waits_for addr bits p (task s i) && (before (waits_for addr bits p) s i <? max)); [|reflexivity].
  assert (cond_waiter (woken (task s i)) = false) as ->; [|reflexivity].
  unfold cond_waiter. change (blocked (woken (task s i))) with false. by rewrite andb_false_r.
Qed.

Lemma sched64_wake_futex_exact_witness :
  sized demo /\
  let '(n, s') := sched64_wake_futex 0x500 1 ALL_BITS (-1) demo in
  n = 0 /\ task s' 0 = task demo 0.
Proof.
  pose proof (so_size _ (proj1 demo_ok)) as Hs. split; [exact Hs|].
  pose proof (sched64_wake_futex_exact 0x500 1 ALL_BITS (-1) demo Hs) as H.
  destruct (sched64_wake_futex 0x500 1 ALL_BITS (-1) demo) as [n s']. destruct H as (H1 & _ & H2).
  split; [rewrite H1; vm_compute; reflexivity|]. rewrite H2 by (unfold SCHED64_MAX_TASKS; lia). reflexivity.
Defined.

(** ** Waiting ends *)

(** A wait with a deadline ends: if every deadline pending in the table lies
    within [fuel] ticks of now, then at most [fuel] halts later the blocking
    call has come back - another thread was runnable, a deadline passed and
    its thread got the CPU, or nothing could ever wake and the wait is refused.
    Without a deadline anywhere, or with the timer masked, it never halts. *)
Theorem sched64_wait_terminates fuel r addr wr tr dl bits s :
  sched_ok s -> 0 <= current s -> (1 <= fuel)%nat -> 0 <= ticks s -> ticks s + Z.of_nat fuel < 2 ^ 64 ->
  dl <= ticks s + Z.of_nat fuel ->
  (forall i, 0 <= i < SCHED64_MAX_TASKS -> has_deadline (task s i) = true -> deadline (task s i) <= ticks s + Z.of_nat fuel) ->
  is_Some (sched64_block_until_ex fuel r addr wr tr dl bits s).
Proof.
  intros Hok Hc Hf Ht Hb Hdl Hall. unfold sched64_block_until_ex. rewrite (nobody_false s Hok Hc).
  destruct (park_ok r addr wr tr dl bits s Hok Hc) as (P & _ & Hi & _).
  pose proof (park_task r addr wr tr dl bits s Hok Hc) as Hpt. cbv zeta in *.
  assert (ticks (park r addr wr tr dl bits s) = ticks s) as Htk by reflexivity.
  set (p := park r addr wr tr dl bits s) in *. clearbody p.
  destruct ((next_task (current p) p =? current p) || blocked (task p (next_task (current p) p)));
    [|destruct (switch_in _ _) as [res s2]; by eexists].
  destruct (irq0_masked p); [by eexists|]. destruct (any_deadline p) eqn:Ha; [|by eexists].
  cbn [orb negb]. destruct (any_deadline_true p Ha) as (i & Hir & Hd).
  assert (deadline (task p i) <= ticks p + Z.of_nat fuel) as Hle.
  { rewrite Htk. rewrite (Hpt i Hir) in Hd |- *. destruct (i =? current s); [exact Hdl|exact (Hall i Hir Hd)]. }
  destruct (idle_loop_ends fuel (set_idling true p) i) as [[n q] Hq].
  - destruct P. by split.
  - reflexivity.
  - exact Hir.
  - exact Hd.
  - exact Hf.
  - change (0 <= ticks p). lia.
  - exact Hle.
  - change (ticks p + Z.of_nat fuel < 2 ^ 64). lia.
  - unfold idle_until_runnable. rewrite Hq. destruct (n <? 0); [by eexists|].
    destruct (switch_in n _) as [res s2]. by eexists.
Qed.

Lemma sched64_wait_terminates_witness :
  sched_ok demo /\ is_Some (sched64_block_until_ex 5 zero_regs 0x500 0 1 103 ALL_BITS demo).
Proof.
  destruct demo_ok as [H1 H2]. split; [exact H1|].
  apply (sched64_wait_terminates 5 zero_regs 0x500 0 1 103 ALL_BITS demo H1 H2).
  - lia. - cbn; lia. - cbn; lia. - cbn; lia.
  - intros i Hi Hd. assert (find_task has_deadline demo = None) as Hn by (vm_compute; reflexivity).
    rewrite find_task_None in Hn. rewrite (Hn i Hi) in Hd. discriminate Hd.
Defined.

(** ** The table of threads *)

Lemma put_new i t s :
  sched_ok s -> 0 <= i < SCHED64_MAX_TASKS -> used (task s i) = false -> used t = true ->
  sched_ok (set_task_total (task_total s + 1) (put i t s)).
Proof.
  intros [H1 H2 H3 H4 H5] Hi Hf Hu. set (q := put i t s).
  assert (sized q) as Hq by (by apply sized_put).
  split; [exact Hq|exact H2| | |exact H5].
  - intros Hc. change (0 <= current s) in Hc. destruct (H3 Hc) as (Hr & Hp).
    change (current (set_task_total (task_total s + 1) q)) with (current s).
    change (task (set_task_total (task_total s + 1) q)) with (task q).
    assert (i <> current s) as Hne by (intros ->; apply runnable_used in Hr; by rewrite Hr in Hf).
    unfold q. rewrite task_put_ne by (exact H1 || exact Hi || lia). split; [exact Hr|exact Hp].
  - change (task_total s + 1 = used_count q). unfold q. rewrite used_count_put by (exact H1 || exact Hi).
    rewrite Hf, Hu, H4. lia.
Qed.

(** The outcome of adding a thread with context [x]. *)
Definition added (x : context) (s : sched) (i : Z) (s' : sched) : Prop :=
  sched_ok s' /\
  (i = -1 /\ s' = s /\ used_count s = SCHED64_MAX_TASKS \/
   0 <= i < SCHED64_MAX_TASKS /\ used (task s i) = false /\ (forall j, 0 <= j < i -> used (task s j) = true) /\
   runnable (task s' i) = true /\ saved (task s' i) = x /\
   forall j, 0 <= j < SCHED64_MAX_TASKS -> j <> i -> task s' j = task s j).

Lemma added_intro x t s :
  sched_ok s -> runnable t = true -> saved t = x ->
  match find_task (fun t => negb (used t)) s with
  | None => added x s (-1) s
  | Some i => added x s i (set_task_total (task_total s + 1) (put i t s))
  end.
Proof.
  intros Hok Hr Hx. destruct (find_task (fun t => negb (used t)) s) as [i|] eqn:Hf.
  - apply find_task_Some in Hf as (Hi & Hu & Hmin). apply negb_true_iff in Hu.
    split; [apply put_new; (exact Hok || exact Hi || exact Hu || exact (runnable_used _ Hr))|]. right.
    change (task (set_task_total (task_total s + 1) (put i t s))) with (task (put i t s)).
    split; [exact Hi|]. split; [exact Hu|]. split; [intros j Hj; apply negb_false_iff; exact (Hmin j Hj)|].
    rewrite task_put_eq by (apply Hok || exact Hi). split; [exact Hr|]. split; [exact Hx|].
    intros j Hj Hne. apply task_put_ne; [apply Hok|exact Hi|lia|lia].
  - split; [exact Hok|]. left. split; [reflexivity|]. split; [reflexivity|]. rewrite find_task_None in Hf.
    unfold used_count. rewrite count_up_true; [exact ntasks_nat|]. intros j Hj. rewrite ntasks_nat in Hj.
    apply negb_false_iff. apply Hf. lia.
Qed.

Lemma each_task_unused_count s : (forall j, 0 <= j < SCHED64_MAX_TASKS -> used (task s j) = false) -> used_count s = 0.
Proof.
  intros H. unfold used_count. rewrite (count_up_ext NTASKS 0 _ (fun _ => false)).
  - generalize 0 at 1. induction NTASKS as [|n IH]; intros i; [reflexivity|]. cbn [count_up]. by rewrite IH.
  - intros j Hj. rewrite ntasks_nat in Hj. apply H. lia.
Qed.

Lemma empty_ok e :
  sized e -> idling e = false -> used_count e = 0 ->
  let q := set_stop_rip 0 (set_stop_after 0 (set_switch_count 0 (set_current (-1) (set_task_total 0 e)))) in
  sched_ok q /\ used_count q = 0.
Proof.
  intros He Hi Hu. cbv zeta. split; [|exact Hu]. split; [exact He| | |symmetry; exact Hu|exact Hi].
  - cbn [current set_stop_rip set_stop_after set_switch_count set_current]. unfold SCHED64_MAX_TASKS. lia.
  - cbn [current set_stop_rip set_stop_after set_switch_count set_current]. lia.
Qed.

Lemma sched64_init_ok clean s : sized s -> idling s = false ->
  sched_ok (sched64_init clean s) /\ used_count (sched64_init clean s) = 0.
Proof.
  intros Hs Hi. apply (empty_ok (each_task (fun i s => put i (set_used false (task s i)) s)
    (set_fpu_initial (zsplice 24 [0x80; 0x1F; 0; 0] clean) s))).
  all: destruct (each_task_map (set_used false) (set_fpu_initial (zsplice 24 [0x80; 0x1F; 0; 0] clean) s) Hs) as (M1 & M2 & M3).
  - exact M2.
  - rewrite M1. exact Hi.
  - apply each_task_unused_count. intros j Hj. rewrite M3 by exact Hj. reflexivity.
Qed.

Definition dropped (p : Z) (t : task64) : task64 := if of_process p t then set_used false t else t.

(** The removal of a process, [k] slots on. *)
Definition removing (p : Z) (s : sched) (k n : Z) (t : sched) : Prop :=
  n = before (of_process p) s k /\ sized t /\ task_total t = used_count t /\ idling t = idling s /\
  current_pid t = current_pid s /\ cr3 t = cr3 s /\
  current t = (if (0 <=? current s) && (current s <? k) && of_process p (task s (current s)) then -1 else current s) /\
  forall j, 0 <= j < SCHED64_MAX_TASKS -> task t j = if j <? k then dropped p (task s j) else task s j.

Lemma remove_pid_step p s k m t' :
  0 <= k < SCHED64_MAX_TASKS -> removing p s k m t' ->
  let '(n, t) := if negb (used (task t' k)) || negb (pid (task t' k) =? p) then (m, t')
    else (m + 1, if k =? current (remove_task k t') then set_current (-1) (remove_task k t') else remove_task k t') in
  removing p s (k + 1) n t.
Proof.
  unfold removing. intros Hk (F1 & F2 & F3 & F4 & F5 & F6 & F7 & F8).
  pose proof (F8 k ltac:(lia)) as Fk. rewrite (proj2 (Z.ltb_ge k k)) in Fk by lia.
  assert (forall j, j <> k -> (j <? k + 1) = (j <? k)) as Hlt
    by (intros j Hne; destruct (Z.ltb_spec j (k + 1)), (Z.ltb_spec j k); lia || reflexivity).
  rewrite Fk, <-negb_andb. change (used (task s k) && (pid (task s k) =? p)) with (of_process p (task s k)).
  rewrite (before_S (of_process p) s k) by lia. destruct (of_process p (task s k)) eqn:Ho; cbn [negb].
  + assert (used (task t' k) = true) as Hu by (rewrite Fk; unfold of_process in Ho; by apply andb_true_iff in Ho as [-> _]).
    destruct (remove_task_spec k t' F2 ltac:(lia) Hu F3) as (R1 & R2 & R3 & R4).
    set (q := remove_task k t') in *. clearbody q.
    assert (current q = current t') as Rc by (rewrite R3; reflexivity).
    assert (idling q = idling t' /\ current_pid q = current_pid t' /\ cr3 q = cr3 t') as (Ri & Rp & Rx) by (rewrite R3; repeat split).
    assert (forall j, 0 <= j < SCHED64_MAX_TASKS -> task q j = if j <? k + 1 then dropped p (task s j) else task s j) as Rt.
    { intros j Hj. rewrite R4, Fk by exact Hj. destruct (Z.eqb_spec k j) as [<-|Hne].
      - rewrite (proj2 (Z.ltb_lt k (k + 1))) by lia. unfold dropped. by rewrite Ho.
      - rewrite Hlt by lia. exact (F8 j Hj). }
    rewrite Rc. split; [lia|]. destruct (Z.eqb_spec k (current t')) as [Ek|Nk].
    * split; [exact R1|]. split; [exact R2|]. split; [rewrite <-F4, <-Ri; reflexivity|].
      split; [rewrite <-F5, <-Rp; reflexivity|]. split; [rewrite <-F6, <-Rx; reflexivity|]. split; [|exact Rt].
      assert (current s = k) as Hck by (rewrite F7 in Ek; destruct ((0 <=? current s) && (current s <? k) && of_process p (task s (current s))); lia).
      rewrite Hck, Ho, (proj2 (Z.leb_le 0 k)), (proj2 (Z.ltb_lt k (k + 1))) by lia. reflexivity.
    * split; [exact R1|]. split; [exact R2|]. split; [rewrite Ri; exact F4|]. split; [rewrite Rp; exact F5|].
      split; [rewrite Rx; exact F6|]. split; [|exact Rt]. rewrite Rc, F7.
      destruct (decide (current s = k)) as [Eq|Ne]; [|by rewrite Hlt by exact Ne].
      exfalso. rewrite F7, Eq, (proj2 (Z.ltb_ge k k)), andb_false_r in Nk by lia. cbn [andb] in Nk. lia.
  + split; [lia|]. do 5 (split; [assumption|]). split.
    * rewrite F7. destruct (decide (current s = k)) as [->|Ne]; [by rewrite Ho, !andb_false_r|by rewrite Hlt by exact Ne].
    * intros j Hj. destruct (decide (j = k)) as [->|Ne]; [|rewrite Hlt by exact Ne; exact (F8 j Hj)].
      rewrite Fk. unfold dropped. rewrite Ho. by destruct (k <? k + 1).
Qed.

Lemma sched64_remove_pid_spec p s :
  sched_ok s ->
  let '(n, s') := sched64_remove_pid p s in
  sched_ok s' /\ n = sched64_pid_tasks p s /\ sched64_pid_tasks p s' = 0 /\
  (forall j, 0 <= j < SCHED64_MAX_TASKS -> task s' j = dropped p (task s j)) /\
  current s' = if (0 <=? current s) && of_process p (task s (current s)) then -1 else current s.
Proof.
  intros [H1 H2 H3 H4 H5]. unfold sched64_remove_pid.
  set (body := fun (i : Z) '(n, s) => if negb (used (task s i)) || negb (pid (task s i) =? p) then (n, s)
    else (n + 1, if i =? current (remove_task i s) then set_current (-1) (remove_task i s) else remove_task i s)).
  pose proof (for_up_ind (fun k '(n, t) => removing p s k n t)
    body NTASKS 0 (0, s)) as H.
  destruct (for_up NTASKS 0 body (0, s)) as [n t] eqn:Hrun. rewrite Z.add_0_l, ntasks_nat in H.
  destruct H as (E1 & E2 & E3 & E4 & E5 & E6 & E7 & E8).
  - split; [reflexivity|]. do 5 (split; [assumption || reflexivity|]). split.
    + destruct (Z.leb_spec 0 (current s)), (Z.ltb_spec (current s) 0); (lia || reflexivity).
    + intros j Hj. by rewrite (proj2 (Z.ltb_ge j 0)) by lia.
  - intros k [m t'] Hk Hinv. exact (remove_pid_step p s k m t' Hk Hinv).
  - assert (forall j, 0 <= j < SCHED64_MAX_TASKS -> task t j = dropped p (task s j)) as Et
      by (intros j Hj; rewrite E8 by exact Hj; by rewrite (proj2 (Z.ltb_lt _ _)) by lia).
    assert (current t = if (0 <=? current s) && of_process p (task s (current s)) then -1 else current s) as Ec.
    { rewrite E7. rewrite (proj2 (Z.ltb_lt (current s) SCHED64_MAX_TASKS)) by lia. by rewrite andb_true_r. }
    split; [|split; [exact E1|split; [|split; [exact Et|exact Ec]]]].
    + split; [exact E2|rewrite Ec; destruct ((0 <=? current s) && of_process p (task s (current s))); lia| |exact E3|rewrite E4; exact H5].
      intros Hc. rewrite Ec in Hc |- *. rewrite E5, E6. destruct ((0 <=? current s) && of_process p (task s (current s))) eqn:Hd; [lia|].
      rewrite (proj2 (Z.leb_le 0 (current s))) in Hd by lia. cbn [andb] in Hd. rewrite Et by lia. unfold dropped. rewrite Hd. exact (H3 Hc).
    + unfold sched64_pid_tasks. rewrite (count_up_ext NTASKS 0 _ (fun _ => false)).
      * rewrite <-(each_task_unused_count (set_tasks (replicate NTASKS no_task) s)).
        -- unfold used_count. apply count_up_ext. intros j Hj. unfold task, set_tasks. cbn [tasks]. by rewrite zget_replicate.
        -- intros j Hj. unfold task, set_tasks. cbn [tasks]. rewrite zget_replicate by (rewrite ntasks_nat; exact Hj). reflexivity.
      * intros j Hj. rewrite ntasks_nat in Hj. rewrite Et by lia. unfold dropped.
        destruct (of_process p (task s j)) eqn:Ho; [reflexivity|exact Ho].
Qed.

(** The table of threads: it starts empty; a new thread takes the first free
    slot, runnable, with exactly the given registers, address space and
    process and a clean FPU, and disturbs no other slot - or -1 is returned,
    nothing changes, and the table is full; removing a process frees exactly
    its slots, says how many, and leaves nobody running if it was the running
    one.  Every state reached is well-formed, the number of threads kept beside
    the table being their number. *)
Theorem sched64_table_invariant s :
  sized s -> idling s = false ->
  (forall clean, sched_ok (sched64_init clean s) /\ used_count (sched64_init clean s) = 0) /\
  (sched_ok s ->
    (forall r sp fs p, let '(i, s') := sched64_add_frame_for r sp fs p s in
       added (mkCtx r sp fs (cpu_gs s) (fpu_initial s) p) s i s') /\
    (forall rip_ rsp_ arg sp, let '(i, s') := sched64_add rip_ rsp_ arg sp s in
       added (mkCtx (set_rdi arg (set_rflags RFLAGS_IF (set_ss UDATA_SEL_RPL3 (set_cs UCODE_SEL_RPL3
                (set_rsp rsp_ (set_rip rip_ zero_regs)))))) sp 0 (cpu_gs s) (fpu_initial s) (current_pid s)) s i s') /\
    (forall p, let '(n, s') := sched64_remove_pid p s in
       sched_ok s' /\ n = sched64_pid_tasks p s /\ sched64_pid_tasks p s' = 0 /\
       (forall j, 0 <= j < SCHED64_MAX_TASKS -> task s' j = dropped p (task s j)) /\
       current s' = if (0 <=? current s) && of_process p (task s (current s)) then -1 else current s)).
Proof.
  intros Hs Hi. split; [intros clean; exact (sched64_init_ok clean s Hs Hi)|]. intros Hok. split; [|split].
  - intros r sp fs p. unfold sched64_add_frame_for.
    set (t := fun i => set_fpu (fpu_initial s) (set_gs_base (cpu_gs s) (set_used true (set_wait_addr 0
      (set_blocked false (set_fs_base fs (set_space sp (set_regs r (set_pid p (task s i)))))))))).
    pose proof (fun i => added_intro _ (t i) s Hok eq_refl eq_refl) as H.
    destruct (find_task (fun t => negb (used t)) s) as [i|]; [exact (H i)|exact (H 0)].
  - intros rip_ rsp_ arg sp. unfold sched64_add. set (R := set_rdi arg _).
    pose proof (fun i => added_intro _ (set_used true (set_pid (current_pid s) (set_wait_addr 0 (set_blocked false
      (set_fs_base 0 (set_space sp (set_regs R (set_fpu (fpu_initial s) (set_gs_base (cpu_gs s)
        (set_regs zero_regs (task s i)))))))))))  s Hok eq_refl eq_refl) as H.
    destruct (find_task (fun t => negb (used t)) s) as [i|]; [exact (H i)|exact (H 0)].
  - intros p. exact (sched64_remove_pid_spec p s Hok).
Qed.

Lemma sched64_table_invariant_witness :
  sized demo /\ let '(i, s') := sched64_add_frame_for (demo_regs 9) 0x9000 9 9 demo in
    added (mkCtx (demo_regs 9) 0x9000 9 98 [0; 0] 9) demo i s'.
Proof.
  destruct demo_ok as [H1 _]. split; [exact (so_size _ H1)|].
  exact (proj1 (proj2 (sched64_table_invariant demo (so_size _ H1) eq_refl) H1) (demo_regs 9) 0x9000 9 9).
Defined.
