(* ===== verification/Paging64.v ===== *)
(** * Page tables ([kernel/paging64.c])

    The editing of the current address space through a page directory that
    contains itself: slot 510 of the PML4 points at the PML4, so the tables
    have virtual addresses.  Memory is physical, 64-bit words at addresses
    that are multiples of 8; every load and store of the code goes through
    the walk the processor does ([hw_walk]), so an access the tables do not
    map is a page fault, [None].  The walk is done anew for each access,
    which is what the [invlpg]s of the code are for; permissions do not stop
    the supervisor here (what is above a table is always made writable, so
    CR0.WP does not show) and are what [hw_rights] says of
    user accesses.  Frames come from the interface [FrameAllocator]. *)

From S2P Require Import Prelude FrameAlloc.

Definition PAGE64_SIZE : Z := 4096.
Definition PAGE64_PRESENT : Z := Z.shiftl 1 0.
Definition PAGE64_WRITE : Z := Z.shiftl 1 1.
Definition PAGE64_USER : Z := Z.shiftl 1 2.
Definition PAGE64_PWT : Z := Z.shiftl 1 3.
Definition PAGE64_PCD : Z := Z.shiftl 1 4.
Definition PAGE64_HUGE : Z := Z.shiftl 1 7.
Definition PAGING64_OK : Z := 0.
Definition PAGING64_NOMEM : Z := -1.
Definition PAGING64_HUGE_IN_WAY : Z := -2.
Definition PAGING64_NOT_MAPPED : Z := -3.
Definition PHYSMAP64_BASE : Z := 0xFFFF880000000000.
Definition KERNEL_VMA : Z := 0xFFFFFFFF80000000.
Definition HUGE_SIZE : Z := 0x200000.

Definition REC : Z := 510.
Definition SIGN_EXT : Z := 0xFFFF000000000000.
Definition ADDR_MASK : Z := 0x000FFFFFFFFFF000.

Definition PML4_IDX (v : Z) : Z := Z.land (Z.shiftr v 39) 0x1FF.
Definition PDPT_IDX (v : Z) : Z := Z.land (Z.shiftr v 30) 0x1FF.
Definition PD_IDX (v : Z) : Z := Z.land (Z.shiftr v 21) 0x1FF.
Definition PT_IDX (v : Z) : Z := Z.land (Z.shiftr v 12) 0x1FF.

Definition rec_addr (a b c d : Z) : Z :=
  Z.lor (Z.lor (Z.lor (Z.lor SIGN_EXT (Z.shiftl a 39)) (Z.shiftl b 30)) (Z.shiftl c 21)) (Z.shiftl d 12).

Definition pml4_addr : Z := rec_addr REC REC REC REC.
Definition pdpt_addr (v : Z) : Z := rec_addr REC REC REC (PML4_IDX v).
Definition pd_addr (v : Z) : Z := rec_addr REC REC (PML4_IDX v) (PDPT_IDX v).
Definition pt_addr (v : Z) : Z := rec_addr REC (PML4_IDX v) (PDPT_IDX v) (PD_IDX v).

(** ** The processor's walk

    [n] is the number of levels below: 3 at the PML4, 0 at a page table. *)

Abbreviation phys_mem := (gmap Z Z).
Definition rd (m : phys_mem) (a : Z) : Z := default 0 (m !! a).
Definition entry (m : phys_mem) (t i : Z) : Z := rd m (t + 8 * i).

Definition present (e : Z) : bool := nz (Z.land e PAGE64_PRESENT).
Definition huge (e : Z) : bool := nz (Z.land e PAGE64_HUGE).
(** Bits 51 to 12: the next table's, or the page's, frame. *)
Definition frame_of (e : Z) : Z := Z.land e ADDR_MASK.

Definition span (n : nat) : Z := 2 ^ (12 + 9 * Z.of_nat n).
Definition ix (n : nat) (v : Z) : Z := Z.land (Z.shiftr v (12 + 9 * Z.of_nat n)) 0x1FF.
(** A page's frame, of a size [span n]: the bits of its address below the
    size are not the address's. *)
Definition page_base (n : nat) (e : Z) : Z := frame_of e / span n * span n.

Fixpoint walk (m : phys_mem) (n : nat) (t v : Z) : option Z :=
  let e := entry m t (ix n v) in
  if negb (present e) then None else
  match n with
  | O => Some (page_base 0 e + v mod span 0)
  | S n' =>
      if huge e then
        (* a PML4 entry must not have the bit: a reserved-bit fault *)
        if (n =? 3)%nat then None else Some (page_base n e + v mod span n)
      else walk m n' (frame_of e) v
  end.

Definition canonical (v : Z) : bool := (v <? 2 ^ 47) || (2 ^ 64 - 2 ^ 47 <=? v).

Definition hw_walk (m : phys_mem) (cr3 v : Z) : option Z :=
  if canonical v then walk m 3 (frame_of cr3) v else None.

(** What ring 3 may do there: the permission bits ANDed down the walk. *)
Fixpoint rights (m : phys_mem) (n : nat) (t v : Z) : Z :=
  let e := entry m t (ix n v) in
  match n with
  | O => Z.land e (Z.lor PAGE64_WRITE PAGE64_USER)
  | S n' => if huge e then Z.land e (Z.lor PAGE64_WRITE PAGE64_USER) else Z.land e (rights m n' (frame_of e) v)
  end.

Definition hw_rights (m : phys_mem) (cr3 v : Z) : Z := rights m 3 (frame_of cr3) v.

(** ** The machine and its accesses *)

Section paging64.
  Context {A : Type} `{!FrameAllocator A}.

Record machine := mkMachine {
  mem : phys_mem;
  cr3 : Z;
  tables_allocated : Z;
  physmap_bytes : Z;
  frames : A
}.

Definition set_mem (v : phys_mem) (s : machine) : machine :=
  mkMachine v (cr3 s) (tables_allocated s) (physmap_bytes s) (frames s).
Definition set_cr3 (v : Z) (s : machine) : machine :=
  mkMachine (mem s) v (tables_allocated s) (physmap_bytes s) (frames s).
Definition set_tables_allocated (v : Z) (s : machine) : machine :=
  mkMachine (mem s) (cr3 s) v (physmap_bytes s) (frames s).
Definition set_physmap_bytes (v : Z) (s : machine) : machine :=
  mkMachine (mem s) (cr3 s) (tables_allocated s) v (frames s).
Definition set_frames (v : A) (s : machine) : machine :=
  mkMachine (mem s) (cr3 s) (tables_allocated s) (physmap_bytes s) v.

(** A computation on the machine; [None] is a page fault in the kernel. *)
Definition kern (X : Type) : Type := machine -> option (X * machine).

#[global] Instance kern_ret : MRet kern := fun X x s => Some (x, s).
#[global] Instance kern_bind : MBind kern := fun X Y f c s =>
  match c s with Some (x, s') => f x s' | None => None end.

Definition load (v : Z) : kern Z := fun s =>
  match hw_walk (mem s) (cr3 s) v with Some a => Some (rd (mem s) a, s) | None => None end.

Definition store (v x : Z) : kern unit := fun s =>
  match hw_walk (mem s) (cr3 s) v with Some a => Some (tt, set_mem (<[a := x]> (mem s)) s) | None => None end.

Definition modify (f : machine -> machine) : kern unit := fun s => Some (tt, f s).

Definition pmm64_alloc : kern Z := fun s =>
  let '(r, a) := alloc_frame (frames s) in Some (r, set_frames a s).

(** ** The operations *)

Definition store_zero (table : Z) (i : Z) (s : option machine) : option machine :=
  match s with
  | None => None
  | Some s => match store (table + 8 * i) 0 s with Some (_, s') => Some s' | None => None end
  end.

Definition zero_table (table : Z) : kern unit := fun s =>
  match for_up 512 0 (store_zero table) (Some s) with Some s' => Some (tt, s') | None => None end.

Definition paging64_init : kern unit := fun s =>
  let pml4_phys := Z.land (cr3 s) ADDR_MASK in
  (_ ← store (KERNEL_VMA + pml4_phys + 8 * REC) (Z.lor (Z.lor pml4_phys PAGE64_PRESENT) PAGE64_WRITE);
   _ ← modify (set_cr3 pml4_phys);
   modify (set_tables_allocated 0)) s.

(** The entry of a table created for a mapping with [flags]. *)
Definition table_entry (frame flags : Z) : Z :=
  Z.lor (Z.lor (Z.lor frame PAGE64_PRESENT) PAGE64_WRITE) (Z.land flags PAGE64_USER).

Definition ensure_table (table idx child flags : Z) : kern Z :=
  e ← load (table + 8 * idx);
  if present e then
    _ ← store (table + 8 * idx) (Z.lor e (Z.land flags (Z.lor PAGE64_WRITE PAGE64_USER)));
    mret PAGING64_OK
  else
    frame ← pmm64_alloc;
    if frame =? 0 then mret PAGING64_NOMEM else
    _ ← store (table + 8 * idx) (table_entry frame flags);
    _ ← zero_table child;
    _ ← modify (fun s => set_tables_allocated (u64 (tables_allocated s + 1)) s);
    mret PAGING64_OK.

Definition page_of (v : Z) : Z := and_not64 v (PAGE64_SIZE - 1).

Definition paging64_map (virt phys flags : Z) : kern Z :=
  let pml4 := pml4_addr in
  let pdpt := pdpt_addr virt in
  let pd := pd_addr virt in
  let pt := pt_addr virt in
  let virt := page_of virt in
  let phys := page_of phys in
  rc ← ensure_table pml4 (PML4_IDX virt) pdpt flags;
  if negb (rc =? PAGING64_OK) then mret rc else
  e ← load (pdpt + 8 * PDPT_IDX virt);
  if huge e then mret PAGING64_HUGE_IN_WAY else
  rc ← ensure_table pdpt (PDPT_IDX virt) pd flags;
  if negb (rc =? PAGING64_OK) then mret rc else
  e ← load (pd + 8 * PD_IDX virt);
  if huge e then mret PAGING64_HUGE_IN_WAY else
  rc ← ensure_table pd (PD_IDX virt) pt flags;
  if negb (rc =? PAGING64_OK) then mret rc else
  _ ← store (pt + 8 * PT_IDX virt) (Z.lor (Z.lor phys flags) PAGE64_PRESENT);
  mret PAGING64_OK.

Definition paging64_unmap (virt : Z) : kern Z :=
  let pml4 := pml4_addr in
  let pdpt := pdpt_addr virt in
  let pd := pd_addr virt in
  let pt := pt_addr virt in
  let virt := page_of virt in
  e ← load (pml4 + 8 * PML4_IDX virt);
  if negb (present e) then mret PAGING64_NOT_MAPPED else
  e ← load (pdpt + 8 * PDPT_IDX virt);
  if negb (present e) then mret PAGING64_NOT_MAPPED else
  if huge e then mret PAGING64_HUGE_IN_WAY else
  e ← load (pd + 8 * PD_IDX virt);
  if negb (present e) then mret PAGING64_NOT_MAPPED else
  if huge e then mret PAGING64_HUGE_IN_WAY else
  e ← load (pt + 8 * PT_IDX virt);
  if negb (present e) then mret PAGING64_NOT_MAPPED else
  _ ← store (pt + 8 * PT_IDX virt) 0;
  mret PAGING64_OK.

(** The return code, and what is written to [*phys_out]. *)
Definition paging64_translate (virt : Z) : kern (Z * option Z) :=
  let pml4 := pml4_addr in
  let pdpt := pdpt_addr virt in
  let pd := pd_addr virt in
  let pt := pt_addr virt in
  e ← load (pml4 + 8 * PML4_IDX virt);
  if negb (present e) then mret (PAGING64_NOT_MAPPED, None) else
  e ← load (pdpt + 8 * PDPT_IDX virt);
  if negb (present e) then mret (PAGING64_NOT_MAPPED, None) else
  if huge e then
    mret (PAGING64_OK, Some (Z.lor (and_not64 (Z.land e ADDR_MASK) 0x3FFFFFFF) (Z.land virt 0x3FFFFFFF))) else
  e ← load (pd + 8 * PD_IDX virt);
  if negb (present e) then mret (PAGING64_NOT_MAPPED, None) else
  if huge e then
    mret (PAGING64_OK, Some (Z.lor (and_not64 (Z.land e ADDR_MASK) 0x1FFFFF) (Z.land virt 0x1FFFFF))) else
  e ← load (pt + 8 * PT_IDX virt);
  if negb (present e) then mret (PAGING64_NOT_MAPPED, None) else
  mret (PAGING64_OK, Some (Z.lor (Z.land e ADDR_MASK) (Z.land virt (PAGE64_SIZE - 1)))).

Definition huge_page_of (v : Z) : Z := and_not64 v (HUGE_SIZE - 1).

Definition paging64_map_huge (virt phys flags : Z) : kern Z :=
  let pml4 := pml4_addr in
  let pdpt := pdpt_addr virt in
  let pd := pd_addr virt in
  let virt := huge_page_of virt in
  let phys := huge_page_of phys in
  rc ← ensure_table pml4 (PML4_IDX virt) pdpt flags;
  if negb (rc =? PAGING64_OK) then mret rc else
  e ← load (pdpt + 8 * PDPT_IDX virt);
  if huge e then mret PAGING64_HUGE_IN_WAY else
  rc ← ensure_table pdpt (PDPT_IDX virt) pd flags;
  if negb (rc =? PAGING64_OK) then mret rc else
  _ ← store (pd + 8 * PD_IDX virt) (Z.lor (Z.lor (Z.lor phys flags) PAGE64_PRESENT) PAGE64_HUGE);
  mret PAGING64_OK.

(** The loop over the physical memory, [n] pages to go. *)
Fixpoint physmap_loop (n : nat) (covered : Z) : kern Z :=
  match n with
  | O => _ ← modify (set_physmap_bytes covered); mret 1
  | S n' =>
      rc ← paging64_map_huge (u64 (PHYSMAP64_BASE + covered)) covered (Z.lor PAGE64_PRESENT PAGE64_WRITE);
      if negb (rc =? PAGING64_OK) then _ ← modify (set_physmap_bytes covered); mret 0
      else physmap_loop n' (covered + HUGE_SIZE)
  end.

Definition paging64_physmap_init (bytes : Z) : kern Z :=
  let bytes := and_not64 (u64 (bytes + HUGE_SIZE - 1)) (HUGE_SIZE - 1) in
  physmap_loop (Z.to_nat (bytes / HUGE_SIZE)) 0.

Fixpoint mmio_loop (n : nat) (virt phys off : Z) : kern Z :=
  match n with
  | O => mret PAGING64_OK
  | S n' =>
      rc ← paging64_map_huge (u64 (virt + off)) (u64 (phys + off))
             (Z.lor (Z.lor (Z.lor PAGE64_PRESENT PAGE64_WRITE) PAGE64_PCD) PAGE64_PWT);
      if negb (rc =? PAGING64_OK) then mret rc else mmio_loop n' virt phys (off + HUGE_SIZE)
  end.

(** [for (off = 0; phys + off < end; off += HUGE_SIZE)]: with [end] not
    wrapped round, as many pages as [bytes] needs. *)
Definition paging64_map_mmio (virt phys bytes : Z) : kern Z :=
  if nz (Z.land (Z.lor virt phys) (HUGE_SIZE - 1)) then mret PAGING64_NOT_MAPPED else
  let end_ := u64 (phys + bytes) in
  mmio_loop (Z.to_nat ((end_ - phys + HUGE_SIZE - 1) / HUGE_SIZE)) virt phys 0.
End paging64.

(** ** Addresses *)

Lemma ix_eq n v : ix n v = v / span n mod 512.
Proof. unfold ix, span. rewrite Z.shiftr_div_pow2 by lia. change 0x1FF with (Z.ones 9). by rewrite Z.land_ones. Qed.

Lemma ix_range n v : 0 <= ix n v < 512.
Proof. rewrite ix_eq. apply Z.mod_pos_bound. lia. Qed.

Lemma frame_of_eq e : frame_of e = e / 4096 mod 2 ^ 40 * 4096.
Proof.
  unfold frame_of. change ADDR_MASK with (Z.shiftl (Z.ones 40) 12). rewrite land_field by lia. reflexivity.
Qed.

Definition aligned (t : Z) : Prop := t = frame_of t.

Lemma frame_of_aligned e : aligned (frame_of e).
Proof.
  unfold aligned, frame_of. by rewrite <-Z.land_assoc, Z.land_diag.
Qed.

Lemma aligned_eq t : aligned t -> exists f, 0 <= f < 2 ^ 40 /\ t = f * 4096.
Proof.
  unfold aligned. rewrite frame_of_eq. intros ->. eexists. split; [|reflexivity]. apply Z.mod_pos_bound. lia.
Qed.

Lemma aligned_frame f : 0 <= f < 2 ^ 40 -> aligned (f * 4096).
Proof. intros H. unfold aligned. rewrite frame_of_eq, Z.div_mul, Z.mod_small by lia. reflexivity. Qed.

Lemma slot_inj t i t' i' :
  aligned t -> aligned t' -> 0 <= i < 512 -> 0 <= i' < 512 -> t + 8 * i = t' + 8 * i' -> t = t' /\ i = i'.
Proof. intros (f & ? & ->)%aligned_eq (f' & ? & ->)%aligned_eq. lia. Qed.

Lemma digit x q a r B : x = (q * 512 + a) * B + r -> 0 <= r < B -> 0 <= a < 512 -> x / B mod 512 = a.
Proof.
  intros -> Hr Ha. rewrite Z.div_add_l, (Z.div_small r) by lia.
  rewrite Z.add_0_r, Z.add_comm, Z.mod_add by lia. by apply Z.mod_small.
Qed.

Section rec_addr.
  Variables (a b c d i : Z).
  Hypotheses (Ha : 0 <= a < 512) (Hb : 0 <= b < 512) (Hc : 0 <= c < 512) (Hd : 0 <= d < 512) (Hi : 0 <= i < 512).

Lemma rec_addr_eq : rec_addr a b c d = SIGN_EXT + a * 2 ^ 39 + b * 2 ^ 30 + c * 2 ^ 21 + d * 2 ^ 12.
Proof.
  unfold rec_addr. rewrite !Z.shiftl_mul_pow2 by lia.
  change SIGN_EXT with (65535 * 2 ^ 48). rewrite (lor_mul_add 65535 (a * 2 ^ 39) 48) by lia.
  replace (65535 * 2 ^ 48 + a * 2 ^ 39) with ((65535 * 2 ^ 9 + a) * 2 ^ 39) by lia.
  rewrite (lor_mul_add _ (b * 2 ^ 30) 39) by lia.
  replace ((65535 * 2 ^ 9 + a) * 2 ^ 39 + b * 2 ^ 30) with (((65535 * 2 ^ 9 + a) * 2 ^ 9 + b) * 2 ^ 30) by lia.
  rewrite (lor_mul_add _ (c * 2 ^ 21) 30) by lia.
  replace (((65535 * 2 ^ 9 + a) * 2 ^ 9 + b) * 2 ^ 30 + c * 2 ^ 21) with
    ((((65535 * 2 ^ 9 + a) * 2 ^ 9 + b) * 2 ^ 9 + c) * 2 ^ 21) by lia.
  rewrite (lor_mul_add _ (d * 2 ^ 12) 21) by lia. lia.
Qed.

Lemma rec_addr_ix :
  ix 3 (rec_addr a b c d + 8 * i) = a /\ ix 2 (rec_addr a b c d + 8 * i) = b /\
  ix 1 (rec_addr a b c d + 8 * i) = c /\ ix 0 (rec_addr a b c d + 8 * i) = d /\
  (rec_addr a b c d + 8 * i) mod span 0 = 8 * i.
Proof.
  rewrite !ix_eq, rec_addr_eq. unfold SIGN_EXT.
  split; [|split; [|split; [|split]]].
  - apply (digit _ 65535 a (b * 2 ^ 30 + c * 2 ^ 21 + d * 2 ^ 12 + 8 * i)); [|change (span 3) with (2 ^ 39)|]; unfold span; simpl; lia.
  - apply (digit _ (65535 * 512 + a) b (c * 2 ^ 21 + d * 2 ^ 12 + 8 * i)); unfold span; simpl; lia.
  - apply (digit _ ((65535 * 512 + a) * 512 + b) c (d * 2 ^ 12 + 8 * i)); unfold span; simpl; lia.
  - apply (digit _ (((65535 * 512 + a) * 512 + b) * 512 + c) d (8 * i)); unfold span; simpl; lia.
  - change (span 0) with 4096.
    replace (0xFFFF000000000000 + a * 2 ^ 39 + b * 2 ^ 30 + c * 2 ^ 21 + d * 2 ^ 12 + 8 * i) with
      (8 * i + (0xFFFF000000000 + a * 2 ^ 27 + b * 2 ^ 18 + c * 2 ^ 9 + d) * 4096) by lia.
    rewrite Z.mod_add by lia. apply Z.mod_small. lia.
Qed.

Lemma rec_addr_canonical : a = REC -> canonical (rec_addr a b c d + 8 * i) = true.
Proof.
  intros Hr. unfold canonical. rewrite rec_addr_eq. unfold SIGN_EXT. apply orb_true_iff. right. apply Z.leb_le.
  unfold REC in Hr. lia.
Qed.
End rec_addr.

Lemma page_base_0 e : page_base 0 e = frame_of e.
Proof.
  unfold page_base. rewrite frame_of_eq. change (span 0) with 4096. by rewrite Z.div_mul.
Qed.

(** ** The tables above an address

    [down k n t v] is the table [k] levels below the table [t] of level [n]
    on the way to [v]. *)

Fixpoint down (m : phys_mem) (k n : nat) (t v : Z) : option Z :=
  match k with
  | O => Some t
  | S k' =>
      let e := entry m t (ix n v) in
      if present e && negb (huge e) then down m k' (pred n) (frame_of e) v else None
  end.

(** What the walk sees of an entry. *)
Definition same_sig (e e' : Z) : Prop := present e' = present e /\ huge e' = huge e /\ frame_of e' = frame_of e.

Lemma same_sig_refl e : same_sig e e.
Proof. by repeat split. Qed.

Lemma down_cons m k n t v :
  down m (S k) n t v =
    let e := entry m t (ix n v) in if present e && negb (huge e) then down m k (pred n) (frame_of e) v else None.
Proof. reflexivity. Qed.

Lemma down_S m k n t v :
  down m (S k) n t v =
    match down m k n t v with
    | Some t' => let e := entry m t' (ix (n - k) v) in if present e && negb (huge e) then Some (frame_of e) else None
    | None => None
    end.
Proof.
  revert n t. induction k as [|k IH]; intros n t.
  - cbn [down]. rewrite Nat.sub_0_r. reflexivity.
  - rewrite (down_cons m (S k)), (down_cons m k n). cbv zeta.
    destruct (present (entry m t (ix n v)) && negb (huge (entry m t (ix n v)))); [|reflexivity].
    rewrite IH. by replace (pred n - k)%nat with (n - S k)%nat by lia.
Qed.

Lemma down_aligned m k t v t' : aligned t -> down m k 3 t v = Some t' -> aligned t'.
Proof.
  destruct k as [|k]; intros Ht; [by intros [= <-]|]. rewrite down_S.
  destruct (down m k 3 t v); [|discriminate]. cbv zeta.
  destruct (present _ && _); [|discriminate]. intros [= <-]. apply frame_of_aligned.
Qed.

Lemma walk_down m k t v t' :
  (k <= 3)%nat -> down m k 3 t v = Some t' -> walk m 3 t v = walk m (3 - k) t' v.
Proof.
  induction k as [|k IH] in t' |- *; intros Hk; [by intros [= <-]|].
  rewrite down_S. destruct (down m k 3 t v) as [u|] eqn:Hd; [|discriminate]. cbv zeta. intros H.
  rewrite (IH u ltac:(lia) eq_refl). replace (3 - k)%nat with (S (3 - S k)) in * by lia. cbn [walk].
  destruct (present (entry m u (ix (S (3 - S k)) v))); [|discriminate H].
  destruct (huge (entry m u (ix (S (3 - S k)) v))); [discriminate H|]. by injection H as <-.
Qed.

(** Memories that show an address the same entries. *)
Definition agree (m m' : phys_mem) (t v : Z) : Prop :=
  forall k t', (k <= 3)%nat -> down m k 3 t v = Some t' -> same_sig (entry m t' (ix (3 - k) v)) (entry m' t' (ix (3 - k) v)).

Lemma agree_down_below m m' t v k :
  (forall j t', (j < k)%nat -> down m j 3 t v = Some t' ->
     same_sig (entry m t' (ix (3 - j) v)) (entry m' t' (ix (3 - j) v))) ->
  down m' k 3 t v = down m k 3 t v.
Proof.
  intros Ha. induction k as [|k IH]; [reflexivity|]. rewrite !down_S, IH by (intros j u Hj; apply Ha; lia).
  destruct (down m k 3 t v) as [u|] eqn:Hd; [|reflexivity]. cbv zeta.
  by destruct (Ha k u ltac:(lia) Hd) as (-> & -> & ->).
Qed.

Lemma agree_down m m' t v k : agree m m' t v -> (k <= 4)%nat -> down m' k 3 t v = down m k 3 t v.
Proof. intros Ha Hk. apply agree_down_below. intros j t' Hj. apply Ha. lia. Qed.

(** The way down depends on the indices passed only. *)
Lemma down_same_ix m k t v v' :
  (k <= 3)%nat -> (forall n, (3 - k < n <= 3)%nat -> ix n v' = ix n v) -> down m k 3 t v' = down m k 3 t v.
Proof.
  induction k as [|k IH]; intros Hk Hix; [reflexivity|]. rewrite !down_S, IH by (lia || intros n Hn; apply Hix; lia).
  by rewrite (Hix (3 - k)%nat) by lia.
Qed.

Lemma page_base_sig n e e' : same_sig e e' -> page_base n e' = page_base n e.
Proof. intros (_ & _ & H). unfold page_base. by rewrite H. Qed.

Lemma agree_walk_from m m' t v k t' :
  agree m m' t v -> (k <= 3)%nat -> down m k 3 t v = Some t' -> walk m' (3 - k) t' v = walk m (3 - k) t' v.
Proof.
  intros Ha Hk. remember (3 - k)%nat as n eqn:Hn. revert k t' Hk Hn. induction n as [|n IH]; intros k t' Hk Hn Hd;
    pose proof (Ha k t' Hk Hd) as Hs; rewrite <-Hn in Hs; cbn [walk];
    pose proof Hs as (Hp & Hh & Hf); rewrite Hp.
  - destruct (present (entry m t' (ix 0 v))); [|reflexivity]. cbn [negb]. by rewrite (page_base_sig _ _ _ Hs).
  - destruct (present (entry m t' (ix (S n) v))) eqn:He; [|reflexivity]. cbn [negb]. rewrite Hh.
    destruct (huge (entry m t' (ix (S n) v))) eqn:Hu; [by rewrite (page_base_sig _ _ _ Hs)|].
    rewrite Hf. apply (IH (S k)); [lia|lia|]. rewrite down_S, Hd. cbv zeta. rewrite <-Hn, He, Hu. reflexivity.
Qed.

Lemma agree_walk m m' t v : agree m m' t v -> walk m' 3 t v = walk m 3 t v.
Proof. intros Ha. exact (agree_walk_from m m' t v 0 t Ha ltac:(lia) eq_refl). Qed.

(** ** The self-reference *)

Record space_ok (m : phys_mem) (c : Z) : Prop := {
  sp_self : same_sig (Z.lor (frame_of c) PAGE64_PRESENT) (entry m (frame_of c) REC);
  sp_top i : 0 <= i < 512 -> present (entry m (frame_of c) i) = true -> huge (entry m (frame_of c) i) = false
}.

(** The virtual address of the table [k] levels down. *)
Definition table_addr (k : nat) (v : Z) : Z :=
  match k with O => pml4_addr | 1%nat => pdpt_addr v | 2%nat => pd_addr v | _ => pt_addr v end.

Lemma bit_of t n : aligned t -> 0 <= n < 12 -> Z.testbit t n = false.
Proof. unfold aligned, frame_of. intros -> Hn. rewrite Z.land_spec. destruct n as [|p|p]; [apply andb_false_r| |lia].
  assert (Z.testbit ADDR_MASK (Z.pos p) = false) as ->; [|apply andb_false_r].
  assert (Z.pos p = 1 \/ Z.pos p = 2 \/ Z.pos p = 3 \/ Z.pos p = 4 \/ Z.pos p = 5 \/ Z.pos p = 6 \/ Z.pos p = 7 \/
    Z.pos p = 8 \/ Z.pos p = 9 \/ Z.pos p = 10 \/ Z.pos p = 11) as H by lia.
  repeat (destruct H as [->|H]; [reflexivity|]). rewrite H. reflexivity.
Qed.

(** A frame with flag bits beside it. *)
Lemma frame_flags t b : aligned t -> Z.land b ADDR_MASK = 0 -> frame_of (Z.lor t b) = t.
Proof. intros Ht Hb. unfold frame_of. rewrite Z.land_lor_distr_l, Hb, Z.lor_0_r. symmetry. exact Ht. Qed.

Lemma land_bit t b n : aligned t -> 0 <= n < 12 -> Z.land (Z.lor t b) (Z.shiftl 1 n) = Z.land b (Z.shiftl 1 n).
Proof.
  intros Ht Hn. rewrite Z.land_lor_distr_l. assert (Z.land t (Z.shiftl 1 n) = 0) as ->; [|apply Z.lor_0_l].
  rewrite Z.shiftl_1_l. apply Z.bits_inj'. intros i Hi. rewrite Z.land_spec, Z.bits_0.
  destruct (decide (i = n)) as [->|Hne]; [by rewrite bit_of|]. rewrite Z.pow2_bits_false by lia. apply andb_false_r.
Qed.

Lemma self_entry m c : space_ok m c ->
  present (entry m (frame_of c) REC) = true /\ huge (entry m (frame_of c) REC) = false /\
  frame_of (entry m (frame_of c) REC) = frame_of c.
Proof.
  intros [(Hp & Hh & Hf) _]. rewrite Hp, Hh, Hf. unfold present, huge, PAGE64_PRESENT, PAGE64_HUGE.
  rewrite !land_bit by (apply frame_of_aligned || lia). split; [reflexivity|]. split; [reflexivity|].
  apply frame_flags; [apply frame_of_aligned|reflexivity].
Qed.

Lemma walk_step m n t v i e :
  ix (S n) v = i -> entry m t i = e -> present e = true -> huge e = false -> walk m (S n) t v = walk m n (frame_of e) v.
Proof. intros <- <- Hp Hh. cbn [walk]. by rewrite Hp, Hh. Qed.

Lemma walk_leaf m t v i e o :
  ix 0 v = i -> entry m t i = e -> v mod span 0 = o -> present e = true -> walk m 0 t v = Some (frame_of e + o).
Proof. intros <- <- <- Hp. cbn [walk]. by rewrite Hp, page_base_0. Qed.

Lemma down_inv m k t v t' :
  down m (S k) 3 t v = Some t' -> exists u, down m k 3 t v = Some u /\
    present (entry m u (ix (3 - k) v)) = true /\ huge (entry m u (ix (3 - k) v)) = false /\
    frame_of (entry m u (ix (3 - k) v)) = t'.
Proof.
  rewrite down_S. destruct (down m k 3 t v) as [u|]; [|discriminate]. cbv zeta. intros H. exists u.
  destruct (present _); [|discriminate H]. destruct (huge _); [discriminate H|]. by injection H as <-.
Qed.

(** The tables are where the recursive addresses say. *)
Lemma hw_table m c k v t i :
  space_ok m c -> (k <= 3)%nat -> down m k 3 (frame_of c) v = Some t -> 0 <= i < 512 ->
  hw_walk m c (table_addr k v + 8 * i) = Some (t + 8 * i).
Proof.
  intros Hok Hk Hd Hi. pose proof (self_entry m c Hok) as (S1 & S2 & S3).
  assert (0 <= REC < 512) as Hrec by (unfold REC; lia).
  pose proof (ix_range 3 v) as R3. pose proof (ix_range 2 v) as R2. pose proof (ix_range 1 v) as R1.
  unfold hw_walk. destruct k as [|[|[|[|k]]]]; [| | | |lia]; cbn [table_addr].
  - injection Hd as <-. unfold pml4_addr. destruct (rec_addr_ix REC REC REC REC i) as (X3 & X2 & X1 & X0 & Xo); try done.
    rewrite rec_addr_canonical by done.
    rewrite (walk_step _ _ _ _ _ _ X3 eq_refl S1 S2), S3, (walk_step _ _ _ _ _ _ X2 eq_refl S1 S2), S3,
      (walk_step _ _ _ _ _ _ X1 eq_refl S1 S2), S3, (walk_leaf _ _ _ _ _ _ X0 eq_refl Xo S1), S3. reflexivity.
  - unfold pdpt_addr. change (PML4_IDX v) with (ix 3 v).
    destruct (rec_addr_ix REC REC REC (ix 3 v) i) as (X3 & X2 & X1 & X0 & Xo); try done.
    rewrite rec_addr_canonical by done. apply down_inv in Hd as (u & Hu & P & _ & <-). injection Hu as <-.
    rewrite (walk_step _ _ _ _ _ _ X3 eq_refl S1 S2), S3, (walk_step _ _ _ _ _ _ X2 eq_refl S1 S2), S3,
      (walk_step _ _ _ _ _ _ X1 eq_refl S1 S2), S3. exact (walk_leaf _ _ _ _ _ _ X0 eq_refl Xo P).
  - unfold pd_addr. change (PML4_IDX v) with (ix 3 v). change (PDPT_IDX v) with (ix 2 v).
    destruct (rec_addr_ix REC REC (ix 3 v) (ix 2 v) i) as (X3 & X2 & X1 & X0 & Xo); try done.
    rewrite rec_addr_canonical by done. apply down_inv in Hd as (u & Hu & P & _ & <-).
    apply down_inv in Hu as (w & Hw & Pw & Nw & <-). injection Hw as <-.
    cbn [Nat.sub] in *. rewrite (walk_step _ _ _ _ _ _ X3 eq_refl S1 S2), S3, (walk_step _ _ _ _ _ _ X2 eq_refl S1 S2), S3,
      (walk_step _ _ _ _ _ _ X1 eq_refl Pw Nw). exact (walk_leaf _ _ _ _ _ _ X0 eq_refl Xo P).
  - unfold pt_addr. change (PML4_IDX v) with (ix 3 v). change (PDPT_IDX v) with (ix 2 v). change (PD_IDX v) with (ix 1 v).
    destruct (rec_addr_ix REC (ix 3 v) (ix 2 v) (ix 1 v) i) as (X3 & X2 & X1 & X0 & Xo); try done.
    rewrite rec_addr_canonical by done. apply down_inv in Hd as (u & Hu & P & _ & <-).
    apply down_inv in Hu as (w & Hw & Pw & Nw & <-). apply down_inv in Hw as (z & Hz & Pz & Nz & <-). injection Hz as <-.
    cbn [Nat.sub] in *. rewrite (walk_step _ _ _ _ _ _ X3 eq_refl S1 S2), S3, (walk_step _ _ _ _ _ _ X2 eq_refl Pz Nz),
      (walk_step _ _ _ _ _ _ X1 eq_refl Pw Nw). exact (walk_leaf _ _ _ _ _ _ X0 eq_refl Xo P).
Qed.

(** ** Changing one entry *)

Lemma rd_insert m a x b : rd (<[a := x]> m) b = if a =? b then x else rd m b.
Proof.
  unfold rd. destruct (Z.eqb_spec a b) as [->|]; [by rewrite lookup_insert_eq|by rewrite lookup_insert_ne].
Qed.

Lemma entry_insert m t i x t' i' :
  aligned t -> aligned t' -> 0 <= i < 512 -> 0 <= i' < 512 ->
  entry (<[t + 8 * i := x]> m) t' i' = if (t =? t') && (i =? i') then x else entry m t' i'.
Proof.
  intros Ht Ht' Hi Hi'. unfold entry. rewrite rd_insert.
  destruct (Z.eqb_spec (t + 8 * i) (t' + 8 * i')) as [E|E].
  - destruct (slot_inj t i t' i') as [-> ->]; try assumption. by rewrite !Z.eqb_refl.
  - destruct (Z.eqb_spec t t') as [->|]; [|reflexivity]. destruct (Z.eqb_spec i i') as [->|]; [lia|reflexivity].
Qed.

(** The low half and the kernel's own slots: all but the self-reference. *)
Definition plain (v : Z) : Prop := ix 3 v <> REC.

Definition reaches (m : phys_mem) (root t : Z) : Prop :=
  exists v k, plain v /\ (k <= 3)%nat /\ down m k 3 root v = Some t.

(** The indices above the [k]-th table of [v]. *)
Definition same_above (k : nat) (v v' : Z) : Prop := forall n, (3 - k < n <= 3)%nat -> ix n v' = ix n v.

(** No other way leads to the tables above [v]. *)
Definition private (m : phys_mem) (root v : Z) : Prop :=
  forall k j t v', (k <= 3)%nat -> (j <= 3)%nat -> plain v' ->
    down m k 3 root v = Some t -> down m j 3 root v' = Some t -> j = k /\ same_above k v v'.

(** Every mapping outside the self-reference is the same. *)
Definition same_walks (m m' : phys_mem) (root : Z) : Prop :=
  forall v, plain v -> walk m' 3 root v = walk m 3 root v.

Section widen.
  Variables (m m' : phys_mem) (root : Z).
  Hypothesis Hroot : aligned root.
  Hypothesis Hsig : forall t i, aligned t -> 0 <= i < 512 -> same_sig (entry m t i) (entry m' t i).

Lemma widen_agree v : agree m m' root v.
Proof. intros k t Hk Hd. apply Hsig; [exact (down_aligned _ _ _ _ _ Hroot Hd)|apply ix_range]. Qed.

Lemma widen_down v k : (k <= 4)%nat -> down m' k 3 root v = down m k 3 root v.
Proof. exact (agree_down m m' root v k (widen_agree v)). Qed.

Lemma widen_private w : private m root w -> private m' root w.
Proof.
  intros Hp k j t v' Hk Hj Hv. rewrite !widen_down by lia. by apply Hp.
Qed.

Lemma widen_reaches t : reaches m' root t -> reaches m root t.
Proof.
  intros (v & k & Hv & Hk & Hd). exists v, k. split; [exact Hv|]. split; [exact Hk|]. by rewrite widen_down in Hd by lia.
Qed.
End widen.

Lemma sig_trans e e' e'' : same_sig e e' -> same_sig e' e'' -> same_sig e e''.
Proof. unfold same_sig. intuition congruence. Qed.

(** [w] goes through the entry that [v] has in its [k]-th table. *)
Definition through (v : Z) (k : nat) (w : Z) : Prop := forall n, (3 - k <= n <= 3)%nat -> ix n w = ix n v.

Lemma through_dec v k w : (k <= 3)%nat -> through v k w \/ exists n, (3 - k <= n <= 3)%nat /\ ix n w <> ix n v.
Proof.
  intros Hk. unfold through. destruct (decide (Forall (fun n => ix n w = ix n v) (seq (3 - k) (S k)))) as [H|H].
  - left. intros n Hn. rewrite Forall_forall in H. apply H. apply elem_of_seq. lia.
  - right. apply not_Forall_Exists in H; [|exact _].
    apply Exists_exists in H as (n & Hn & Hne).
    apply elem_of_seq in Hn. exists n. split; [lia|exact Hne].
Qed.

Section install.
  (** At the [k]-th table [T] of [v], where nothing was, a new table [F]. *)
  Variables (m : phys_mem) (c v T F te : Z) (k : nat).
Let root := frame_of c.
  Hypotheses (Hok : space_ok m c) (Hk : (k <= 2)%nat) (Hv : plain v) (HT : down m k 3 root v = Some T).
  Hypotheses (Hpriv : private m root v) (Habs : present (entry m T (ix (3 - k) v)) = false).
  Hypotheses (HF : aligned F) (Hfresh : ~ reaches m root F).
  Hypotheses (Hte : present te = true /\ huge te = false /\ frame_of te = F).

Lemma install_root : aligned root.
Proof. apply frame_of_aligned. Qed.

Lemma install_T : aligned T.
Proof. exact (down_aligned _ _ _ _ _ (frame_of_aligned c) HT). Qed.

Lemma reaches_down w j t : plain w -> (j <= 3)%nat -> down m j 3 root w = Some t -> reaches m root t.
Proof. intros. by exists w, j. Qed.

Lemma install_T_only j w : (j <= 3)%nat -> plain w -> down m j 3 root w = Some T -> j = k /\ same_above k v w.
Proof. intros Hj Hw Hd. exact (Hpriv k j T w ltac:(lia) Hj Hw HT Hd). Qed.

  (** A memory in which the entry has been written, whatever [F] holds. *)
  Variable m2 : phys_mem.
  Hypothesis Hm2 : forall t i, aligned t -> 0 <= i < 512 -> t <> F ->
    entry m2 t i = if (t =? T) && (i =? ix (3 - k) v) then te else entry m t i.

Lemma install_off t i : aligned t -> 0 <= i < 512 -> t <> F -> (t <> T \/ i <> ix (3 - k) v) -> entry m2 t i = entry m t i.
Proof.
  intros Ht Hi Hf Hne. rewrite Hm2 by assumption.
  destruct (Z.eqb_spec t T), (Z.eqb_spec i (ix (3 - k) v)); try reflexivity. lia.
Qed.

Lemma install_below w j : plain w -> (j <= k)%nat -> down m2 j 3 root w = down m j 3 root w.
Proof.
  intros Hw Hj. apply agree_down_below. intros i t Hi Hd.
  rewrite install_off; [apply same_sig_refl|exact (down_aligned _ _ _ _ _ install_root Hd)|apply ix_range| |left].
  - intros ->. apply Hfresh. exact (reaches_down w i F Hw ltac:(lia) Hd).
  - intros ->. destruct (install_T_only i w ltac:(lia) Hw Hd). lia.
Qed.

Lemma install_down : down m2 (S k) 3 root v = Some F.
Proof.
  rewrite down_S, install_below, HT by (exact Hv || lia). cbv zeta.
  assert (T <> F) as Hne by (intros <-; apply Hfresh; exact (reaches_down v k T Hv ltac:(lia) HT)).
  rewrite Hm2, !Z.eqb_refl by (exact install_T || apply ix_range || exact Hne). cbn [andb].
  destruct Hte as (-> & -> & ->). reflexivity.
Qed.

Lemma install_space : space_ok m2 c.
Proof.
  assert (root <> F) as Hrf by (intros E; apply Hfresh; rewrite <-E; exact (reaches_down v 0 root Hv ltac:(lia) eq_refl)).
  split.
  - fold root. rewrite install_off; [apply Hok|exact install_root|unfold REC; lia|exact Hrf|].
    destruct (decide (k = 0%nat)) as [E|E].
    + right. rewrite E. cbn [Nat.sub]. intros H. apply Hv. symmetry. exact H.
    + left. intros HrT. destruct (install_T_only 0 v ltac:(lia) Hv (f_equal Some HrT)). lia.
  - fold root. intros i Hi. rewrite Hm2 by (exact install_root || exact Hi || exact Hrf).
    destruct ((root =? T) && (i =? ix (3 - k) v)); [intros _; apply Hte|apply (sp_top _ _ Hok i Hi)].
Qed.

  (** And now [F] is empty. *)
  Hypothesis Hzero : forall i, 0 <= i < 512 -> entry m2 F i = 0.

Lemma through_down w j : through v k w -> (j <= S k)%nat -> down m j 3 root w = down m j 3 root v.
Proof. intros Hw Hj. apply down_same_ix; [lia|]. intros n Hn. apply Hw. lia. Qed.

Lemma through_plain w : through v k w -> plain w.
Proof. intros Hw. unfold plain. rewrite (Hw 3%nat) by lia. exact Hv. Qed.

(** Elsewhere nothing moves. *)
Lemma install_agree w : plain w -> ~ through v k w -> agree m m2 root w.
Proof.
  intros Hw Hnt j t Hj Hd. rewrite install_off; [apply same_sig_refl|exact (down_aligned _ _ _ _ _ install_root Hd)|apply ix_range| |].
  - intros ->. apply Hfresh. exact (reaches_down w j F Hw Hj Hd).
  - destruct (decide (t = T)) as [->|]; [right|by left].
    destruct (install_T_only j w Hj Hw Hd) as [-> Hs]. intros Hi. apply Hnt. intros n Hn.
    destruct (decide (n = 3 - k)%nat) as [->|]; [exact Hi|]. apply Hs. lia.
Qed.

Lemma install_through w j :
  through v k w -> down m2 (S k) 3 root w = Some F /\ ((S k < j)%nat -> down m2 j 3 root w = None).
Proof.
  intros Hw. assert (down m2 (S k) 3 root w = Some F) as Hd.
  { rewrite <-install_down. apply down_same_ix; [lia|]. intros n Hn. apply Hw. lia. }
  split; [exact Hd|]. intros Hj. induction j as [|j IH]; [lia|]. rewrite down_S.
  destruct (decide (j = S k)) as [->|]; [|rewrite IH by lia; reflexivity].
  rewrite Hd. cbv zeta. rewrite Hzero by apply ix_range. reflexivity.
Qed.

Lemma install_walk : same_walks m m2 root.
Proof.
  intros w Hw. destruct (through_dec v k w ltac:(lia)) as [Ht|Hn].
  - destruct (install_through w 0 Ht) as [Hd _].
    rewrite (walk_down _ _ _ _ _ (ltac:(lia) : (S k <= 3)%nat) Hd).
    assert (down m k 3 root w = Some T) as Hd0 by (rewrite through_down by (exact Ht || lia); exact HT).
    rewrite (walk_down _ _ _ _ _ (ltac:(lia) : (k <= 3)%nat) Hd0).
    replace (3 - k)%nat with (S (3 - S k)) by lia.
    assert (entry m T (ix (S (3 - S k)) w) = entry m T (ix (3 - k) v)) as He
      by (replace (S (3 - S k)) with (3 - k)%nat by lia; rewrite (Ht (3 - k)%nat) by lia; reflexivity).
    cbn [walk]. rewrite He, Habs. destruct (3 - S k)%nat; cbn [walk]; by rewrite Hzero by apply ix_range.
  - apply agree_walk, install_agree; [exact Hw|]. intros Ht. destruct Hn as (n & Hn & Hne). exact (Hne (Ht n Hn)).
Qed.

(** What the tables are now. *)
Lemma install_tables w j t :
  plain w -> (j <= 3)%nat -> down m2 j 3 root w = Some t ->
  down m j 3 root w = Some t /\ t <> F \/ t = F /\ j = S k /\ through v k w.
Proof.
  intros Hw Hj Hd. assert (forall t, down m j 3 root w = Some t -> t <> F) as Hnf
    by (intros u Hu ->; apply Hfresh; exact (reaches_down w j F Hw Hj Hu)).
  destruct (through_dec v k w ltac:(lia)) as [Ht|Hn].
  - destruct (decide (j <= k)%nat); [left; rewrite install_below in Hd by (exact Hw || lia); split; [exact Hd|exact (Hnf _ Hd)]|].
    destruct (install_through w j Ht) as [Hd1 Hd2]. destruct (decide (j = S k)) as [->|]; [|rewrite Hd2 in Hd by lia; discriminate Hd].
    right. rewrite Hd1 in Hd. by injection Hd as <-.
  - left. rewrite (agree_down m) in Hd; [split; [exact Hd|exact (Hnf _ Hd)]| |lia].
    apply install_agree; [exact Hw|]. intros Ht. destruct Hn as (n & Hn & Hne). exact (Hne (Ht n Hn)).
Qed.

Lemma install_reaches t : reaches m2 root t -> reaches m root t \/ t = F.
Proof.
  intros (w & j & Hw & Hj & Hd). destruct (install_tables w j t Hw Hj Hd) as [[H _]|[-> _]]; [left|by right].
  exact (reaches_down w j t Hw Hj H).
Qed.

Lemma install_private w : plain w -> private m root w -> private m2 root w.
Proof.
  intros Hw Hp a b t u Ha Hb Hu Hda Hdb.
  destruct (install_tables w a t Hw Ha Hda) as [[Ea Na]|(Ea & -> & Ta)], (install_tables u b t Hu Hb Hdb) as [[Eb Nb]|(Eb & -> & Tb)].
  - exact (Hp a b t u Ha Hb Hu Ea Eb).
  - congruence.
  - congruence.
  - split; [reflexivity|]. intros n Hn. rewrite (Ta n), (Tb n) by lia. reflexivity.
Qed.
End install.

(** ** The machine *)

Section machine.
  Context {A : Type} `{!FrameAllocator A}.
  Implicit Types s : machine (A := A).

Definition root_of (s : machine (A := A)) : Z := frame_of (cr3 s).

Record tables_ok (s : machine (A := A)) : Prop := {
  to_space : space_ok (mem s) (cr3 s);
  to_frames : fa_ok (frames s);
  to_owned t : reaches (mem s) (root_of s) t -> t <> 0 -> 0 < fa_owners (frames s) (t / 4096)
}.

(** A frame nobody owned. *)
Definition was_free (s : machine (A := A)) (t : Z) : Prop := t <> 0 /\ fa_owners (frames s) (t / 4096) = 0.

(** A step that leaves every mapping alone: it writes to tables and to frames
    that were free, and takes no frame from anybody. *)
Record extends (s s' : machine (A := A)) : Prop := {
  ex_cr3 : cr3 s' = cr3 s;
  ex_physmap : physmap_bytes s' = physmap_bytes s;
  ex_walks : same_walks (mem s) (mem s') (root_of s);
  ex_private w : plain w -> private (mem s) (root_of s) w -> private (mem s') (root_of s) w;
  ex_reaches t : reaches (mem s') (root_of s) t -> reaches (mem s) (root_of s) t \/ was_free s t;
  ex_ok : tables_ok s';
  ex_owners g : g <> 0 -> 0 < fa_owners (frames s) g -> fa_owners (frames s') g = fa_owners (frames s) g;
  ex_words a : rd (mem s') a = rd (mem s) a \/
    exists t i, aligned t /\ a = t + 8 * i /\ 0 <= i < 512 /\ (reaches (mem s) (root_of s) t \/ was_free s t)
}.

Lemma root_aligned s : aligned (root_of s).
Proof. apply frame_of_aligned. Qed.

Lemma extends_refl s : tables_ok s -> extends s s.
Proof. intros H. split; try done; auto. Qed.

Lemma free_before s s' t : fa_ok (frames s) -> aligned t -> extends s s' -> was_free s' t -> was_free s t.
Proof.
  intros Hf (f & Hf0 & ->)%aligned_eq Hex [Hne H0]. split; [exact Hne|]. rewrite Z.div_mul in * by lia.
  pose proof (fa_owners_range (frames s) f Hf). destruct (decide (0 < fa_owners (frames s) f)) as [Hp|]; [|lia].
  rewrite (ex_owners _ _ Hex) in H0 by (lia || exact Hp). lia.
Qed.

Lemma reaches_aligned s t : reaches (mem s) (root_of s) t -> aligned t.
Proof. intros (v & k & _ & _ & Hd). exact (down_aligned _ _ _ _ _ (root_aligned s) Hd). Qed.

Lemma bind_ok {X Y} (c : kern X) (f : X -> kern Y) s x s' : c s = Some (x, s') -> (c ≫= f) s = f x s'.
Proof. intros H. unfold mbind, kern_bind. by rewrite H. Qed.

(** ** Loads and stores of entries *)

Section at_table.
  Variables (s : machine (A := A)) (k : nat) (v t i : Z).
  Hypotheses (Hok : space_ok (mem s) (cr3 s)) (Hk : (k <= 3)%nat).
  Hypotheses (Hd : down (mem s) k 3 (root_of s) v = Some t) (Hi : 0 <= i < 512).

Lemma load_table : load (table_addr k v + 8 * i) s = Some (entry (mem s) t i, s).
Proof. unfold load. by rewrite (hw_table _ _ _ _ t) by assumption. Qed.

Lemma store_table x : store (table_addr k v + 8 * i) x s = Some (tt, set_mem (<[t + 8 * i := x]> (mem s)) s).
Proof. unfold store. by rewrite (hw_table _ _ _ _ t) by assumption. Qed.
End at_table.

(** Clearing a table that stays where it is while it is cleared. *)
Lemma zero_table_ok s k v F :
  (k <= 3)%nat -> aligned F ->
  (forall m, (forall t i, aligned t -> 0 <= i < 512 -> t <> F -> entry m t i = entry (mem s) t i) ->
     space_ok m (cr3 s) /\ down m k 3 (root_of s) v = Some F) ->
  exists m, zero_table (table_addr k v) s = Some (tt, set_mem m s) /\
    (forall t i, aligned t -> 0 <= i < 512 -> entry m t i = if t =? F then 0 else entry (mem s) t i) /\
    (forall a, rd m a = rd (mem s) a \/ exists i, 0 <= i < 512 /\ a = F + 8 * i).
Proof.
  intros Hk HF Hstay. unfold zero_table.
  destruct (for_up_ind (fun n o => exists m, o = Some (set_mem m s) /\
    (forall t i, aligned t -> 0 <= i < 512 -> entry m t i = if (t =? F) && (i <? n) then 0 else entry (mem s) t i) /\
    (forall a, rd m a = rd (mem s) a \/ exists i, 0 <= i < 512 /\ a = F + 8 * i))
    (store_zero (table_addr k v)) 512 0 (Some s)) as (m & -> & Hm & Hr).
  - exists (mem s). split; [by destruct s|]. split; [|by left]. intros t i Ht Hi.
    rewrite (proj2 (Z.ltb_ge i 0)) by lia. by rewrite andb_false_r.
  - intros n o Hn (m & -> & Hm & Hr). unfold store_zero.
    assert (forall t i, aligned t -> 0 <= i < 512 -> t <> F -> entry m t i = entry (mem s) t i) as Hoff
      by (intros t i Ht Hi Hne; rewrite Hm by assumption; by apply Z.eqb_neq in Hne as ->).
    destruct (Hstay m Hoff) as [H1 H2].
    rewrite (store_table (set_mem m s) k v F n H1 Hk H2) by lia.
    exists (<[F + 8 * n := 0]> m). split; [reflexivity|]. split.
    + intros t i Ht Hi. rewrite entry_insert by (assumption || lia). rewrite Hm by assumption. rewrite (Z.eqb_sym F t).
      destruct (Z.eqb_spec t F) as [->|]; [|reflexivity]. cbn [andb].
      destruct (Z.eqb_spec n i), (Z.ltb_spec i n), (Z.ltb_spec i (n + 1)); try reflexivity; lia.
    + intros a. rewrite rd_insert. destruct (Z.eqb_spec (F + 8 * n) a) as [<-|]; [right; exists n; lia|apply Hr].
  - exists m. split; [reflexivity|]. split; [|exact Hr]. intros t i Ht Hi. rewrite Hm by assumption.
    rewrite (proj2 (Z.ltb_lt i _)) by lia. by rewrite andb_true_r.
Qed.

(** ** One level *)

Lemma table_entry_sig F flags : aligned F ->
  present (table_entry F flags) = true /\ huge (table_entry F flags) = false /\ frame_of (table_entry F flags) = F.
Proof.
  intros HF. unfold table_entry. rewrite <-!Z.lor_assoc.
  assert (forall x, Z.land (Z.land flags PAGE64_USER) x = Z.land flags (Z.land PAGE64_USER x)) as Hl
    by (intros x; by rewrite Z.land_assoc).
  split; [|split].
  - unfold present, PAGE64_PRESENT. rewrite land_bit by (exact HF || lia).
    rewrite !Z.land_lor_distr_l, Hl. rewrite Z.land_0_r. reflexivity.
  - unfold huge, PAGE64_HUGE. rewrite land_bit by (exact HF || lia).
    rewrite !Z.land_lor_distr_l, Hl. rewrite Z.land_0_r. reflexivity.
  - apply frame_flags; [exact HF|]. rewrite !Z.land_lor_distr_l, Hl. rewrite Z.land_0_r. reflexivity.
Qed.

Definition user_bits (flags : Z) : Z := Z.land flags (Z.lor PAGE64_WRITE PAGE64_USER).

Lemma widened_sig e flags : same_sig e (Z.lor e (user_bits flags)).
Proof.
  assert (forall x, Z.land (Z.lor PAGE64_WRITE PAGE64_USER) x = 0 -> Z.land (Z.lor e (user_bits flags)) x = Z.land e x) as H.
  { intros x Hx. unfold user_bits. rewrite Z.land_lor_distr_l, <-Z.land_assoc, Hx, Z.land_0_r. apply Z.lor_0_r. }
  unfold same_sig, present, huge, frame_of. rewrite !H by reflexivity. done.
Qed.

(** The entries passed so far allow what [fl] allows. *)
Definition granted (m : phys_mem) (root v : Z) (k : nat) (fl : Z) : Prop :=
  forall j u, (j < k)%nat -> down m j 3 root v = Some u -> Z.land (entry m u (ix (3 - j) v)) fl = fl.

Lemma granted_widened e flags : Z.land (Z.lor e (user_bits flags)) (user_bits flags) = user_bits flags.
Proof.
  apply Z.bits_inj'. intros n Hn. rewrite Z.land_spec, Z.lor_spec.
  by destruct (Z.testbit e n), (Z.testbit (user_bits flags) n).
Qed.

Lemma granted_fresh F flags : Z.land (table_entry F flags) (user_bits flags) = user_bits flags.
Proof.
  unfold table_entry, user_bits. apply Z.bits_inj'. intros n Hn.
  rewrite !Z.land_spec, !Z.lor_spec, Z.land_spec.
  destruct (Z.testbit flags n), (Z.testbit PAGE64_WRITE n), (Z.testbit PAGE64_USER n), (Z.testbit F n), (Z.testbit PAGE64_PRESENT n); reflexivity.
Qed.

(** What a step on one level leaves for the next. *)
Record levelled (s s' : machine (A := A)) (v : Z) (k : nat) (fl : Z) : Prop := {
  lv_extends : extends s s';
  lv_above j : (j <= k)%nat -> down (mem s') j 3 (root_of s) v = down (mem s) j 3 (root_of s) v;
  lv_granted : granted (mem s) (root_of s) v k fl -> granted (mem s') (root_of s) v (S k) fl
}.

Section ensure.
  Variables (s : machine (A := A)) (v T flags : Z) (k : nat).
  Hypotheses (Hok : tables_ok s) (Hv : plain v) (Hpriv : private (mem s) (root_of s) v) (Hk : (k <= 2)%nat).
  Hypotheses (HT : down (mem s) k 3 (root_of s) v = Some T).
Let i := ix (3 - k) v.
Let e := entry (mem s) T i.

Lemma ensure_T : aligned T.
Proof. exact (down_aligned _ _ _ _ _ (root_aligned s) HT). Qed.

Lemma ensure_T_reached : reaches (mem s) (root_of s) T.
Proof. exists v, k. split; [exact Hv|]. split; [lia|exact HT]. Qed.

(** The tables above the entry are other tables. *)
Lemma above_other j u : (j < k)%nat -> down (mem s) j 3 (root_of s) v = Some u -> u <> T.
Proof.
  intros Hj Hd ->. destruct (Hpriv k j T v ltac:(lia) ltac:(lia) Hv HT Hd). lia.
Qed.

Lemma ensure_widen :
  present e = true -> huge e = false ->
  let m' := <[T + 8 * i := Z.lor e (user_bits flags)]> (mem s) in
  levelled s (set_mem m' s) v k (user_bits flags) /\
  down m' (S k) 3 (root_of s) v = Some (frame_of e).
Proof.
  intros Hp Hh. cbv zeta. set (m' := <[T + 8 * i := _]> (mem s)). set (s' := set_mem m' s).
  assert (0 <= i < 512) as Hi by apply ix_range.
  assert (forall t j, aligned t -> 0 <= j < 512 ->
    entry m' t j = if (T =? t) && (i =? j) then Z.lor e (user_bits flags) else entry (mem s) t j) as Hm'
    by (intros t j Ht Hj; exact (entry_insert (mem s) T i _ t j ensure_T Ht Hi Hj)).
  assert (forall t j, aligned t -> 0 <= j < 512 -> same_sig (entry (mem s) t j) (entry m' t j)) as Hsig.
  { intros t j Ht Hj. rewrite Hm' by assumption. destruct (Z.eqb_spec T t) as [<-|]; [|apply same_sig_refl].
    destruct (Z.eqb_spec i j) as [<-|]; [apply widened_sig|apply same_sig_refl]. }
  pose proof (widen_down (mem s) m' (root_of s) (root_aligned s) Hsig) as Hdn.
  assert (forall t, reaches m' (root_of s) t -> reaches (mem s) (root_of s) t) as Hre
    by exact (widen_reaches (mem s) m' (root_of s) (root_aligned s) Hsig).
  split; [|rewrite Hdn, down_S, HT by lia; cbv zeta; fold i e; by rewrite Hp, Hh].
  split.
  - split; [reflexivity|reflexivity| | | | |reflexivity|].
    + intros w Hw. apply agree_walk, (widen_agree _ _ _ (root_aligned s) Hsig).
    + intros w Hw. apply (widen_private (mem s) m' (root_of s) (root_aligned s) Hsig).
    + intros t Ht. left. exact (Hre t Ht).
    + destruct Hok as [[Hs1 Hs2] H2 H3]. split; [|exact H2|intros t Ht; exact (H3 t (Hre t Ht))].
      split.
      * eapply sig_trans; [exact Hs1|]. apply Hsig; [apply root_aligned|unfold REC; lia].
      * intros j Hj. destruct (Hsig (root_of s) j (root_aligned s) Hj) as (P1 & P2 & _). unfold s'. cbn [mem cr3 set_mem].
        fold (root_of s). rewrite P1, P2. exact (Hs2 j Hj).
    + intros a. unfold s', m'. cbn [mem set_mem]. rewrite rd_insert.
      destruct (Z.eqb_spec (T + 8 * i) a) as [<-|]; [right|by left].
      exists T, i. split; [exact ensure_T|]. split; [reflexivity|]. split; [exact Hi|left; exact ensure_T_reached].
  - intros j Hj. exact (Hdn v j ltac:(lia)).
  - intros Hg j u Hj Hd. change (mem s') with m' in *. rewrite Hdn in Hd by lia.
    rewrite Hm' by (exact (down_aligned _ _ _ _ _ (root_aligned s) Hd) || apply ix_range).
    destruct (decide (j = k)) as [->|Hne].
    + rewrite HT in Hd. injection Hd as <-. fold i. rewrite !Z.eqb_refl. cbn [andb]. apply granted_widened.
    + rewrite (proj2 (Z.eqb_neq T u)) by (intros E; exact (above_other j u ltac:(lia) Hd (eq_sym E))).
      apply Hg; [lia|exact Hd].
Qed.

(** A new table, [F] just taken and cleared. *)
Lemma ensure_install F m a' n :
  present e = false -> aligned F -> F <> 0 -> fa_owners (frames s) (F / 4096) = 0 ->
  fa_ok a' -> (forall g, fa_owners a' g = if g =? F / 4096 then 1 else fa_owners (frames s) g) ->
  (forall t j, aligned t -> 0 <= j < 512 -> entry m t j =
     if t =? F then 0 else if (t =? T) && (j =? i) then table_entry F flags else entry (mem s) t j) ->
  (forall a, rd m a = rd (mem s) a \/ (exists j, 0 <= j < 512 /\ a = F + 8 * j) \/ a = T + 8 * i) ->
  let s' := mkMachine m (cr3 s) n (physmap_bytes s) a' in
  levelled s s' v k (user_bits flags) /\ down m (S k) 3 (root_of s) v = Some F.
Proof.
  intros Habs HF Hne Hown Hfa Howns Hm Hrd. cbv zeta. set (s' := mkMachine _ _ _ _ _).
  assert (~ reaches (mem s) (root_of s) F) as Hfresh by (intros Hr; pose proof (to_owned _ Hok F Hr Hne); lia).
  pose proof (table_entry_sig F flags HF) as Hte.
  assert (forall t j, aligned t -> 0 <= j < 512 -> t <> F ->
    entry m t j = if (t =? T) && (j =? ix (3 - k) v) then table_entry F flags else entry (mem s) t j) as Hm2.
  { intros t j Ht Hj Hf. rewrite Hm by assumption. by apply Z.eqb_neq in Hf as ->. }
  assert (forall j, 0 <= j < 512 -> entry m F j = 0) as Hz by (intros j Hj; rewrite Hm, Z.eqb_refl by assumption; reflexivity).
  pose proof (to_space _ Hok) as Hsp.
  pose proof (install_down (mem s) (cr3 s) v T F (table_entry F flags) k Hk Hv HT Hpriv HF Hfresh Hte m Hm2) as Hdn.
  pose proof (install_below (mem s) (cr3 s) v T F (table_entry F flags) k Hk HT Hpriv Hfresh m Hm2) as Hbelow.
  pose proof (install_reaches (mem s) (cr3 s) v T F (table_entry F flags) k Hk Hv HT Hpriv HF Hfresh Hte m Hm2 Hz) as Hre.
  assert (was_free s F) as Hwf by (split; [exact Hne|exact Hown]).
  split; [|exact Hdn]. split.
  - split; [reflexivity|reflexivity| | | | | |].
    + exact (install_walk (mem s) (cr3 s) v T F (table_entry F flags) k Hk Hv HT Hpriv Habs HF Hfresh Hte m Hm2 Hz).
    + exact (install_private (mem s) (cr3 s) v T F (table_entry F flags) k Hk Hv HT Hpriv HF Hfresh Hte m Hm2 Hz).
    + intros t Ht. destruct (Hre t Ht) as [H| ->]; [by left|by right].
    + split; [exact (install_space (mem s) (cr3 s) v T F (table_entry F flags) k Hsp Hk Hv HT Hpriv Hfresh Hte m Hm2)|exact Hfa|].
      intros t Ht Ht0. change (frames s') with a'. rewrite Howns. destruct (Z.eqb_spec (t / 4096) (F / 4096)); [lia|].
      destruct (Hre t Ht) as [H| ->]; [exact (to_owned _ Hok t H Ht0)|congruence].
    + intros g Hg Hp. change (frames s') with a'. rewrite Howns. destruct (Z.eqb_spec g (F / 4096)) as [->|]; [lia|reflexivity].
    + intros a. destruct (Hrd a) as [H|[(j & Hj & ->)| ->]]; [by left| |].
      * right. exists F, j. split; [exact HF|]. split; [reflexivity|]. split; [exact Hj|by right].
      * right. exists T, i. split; [exact ensure_T|]. split; [reflexivity|]. split; [apply ix_range|left; exact ensure_T_reached].
  - intros j Hj. apply Hbelow; [exact Hv|exact Hj].
  - intros Hg j u Hj Hd. change (mem s') with m in *. rewrite Hbelow in Hd by (exact Hv || lia).
    assert (u <> F) as HuF by (intros ->; apply Hfresh; exists v, j; split; [exact Hv|split; [lia|exact Hd]]).
    rewrite Hm2 by (exact (down_aligned _ _ _ _ _ (root_aligned s) Hd) || apply ix_range || exact HuF).
    destruct (decide (j = k)) as [->|Hnk].
    + pose proof (eq_trans (eq_sym HT) Hd) as E. injection E as <-. rewrite !Z.eqb_refl. cbn [andb]. apply granted_fresh.
    + rewrite (proj2 (Z.eqb_neq u T)) by (exact (above_other j u ltac:(lia) Hd)). apply Hg; [lia|exact Hd].
Qed.
End ensure.

Lemma extends_trans s s' s'' : tables_ok s -> extends s s' -> extends s' s'' -> extends s s''.
Proof.
  intros Hok E F. pose proof (to_frames _ Hok) as Hfa.
  assert (root_of s' = root_of s) as Hr by (unfold root_of; by rewrite (ex_cr3 _ _ E)).
  assert (forall t, aligned t -> was_free s' t -> was_free s t) as Hwf by (intros t Ht; by apply free_before).
  assert (forall t, reaches (mem s') (root_of s) t -> aligned t) as Hra
    by (intros t Ht; rewrite <-Hr in Ht; exact (reaches_aligned s' t Ht)).
  split.
  - rewrite (ex_cr3 _ _ F). apply E.
  - rewrite (ex_physmap _ _ F). apply E.
  - intros v Hv. rewrite <-(ex_walks _ _ E v Hv), <-Hr. exact (ex_walks _ _ F v Hv).
  - intros w Hw Hp. rewrite <-Hr. apply (ex_private _ _ F w Hw). rewrite Hr. exact (ex_private _ _ E w Hw Hp).
  - intros t Ht. rewrite <-Hr in Ht.
    assert (aligned t) as Ha.
    { destruct Ht as (v & k & _ & _ & Hd). exact (down_aligned _ _ _ _ _ (root_aligned s') Hd). }
    destruct (ex_reaches _ _ F t Ht) as [H|H].
    + rewrite Hr in H. exact (ex_reaches _ _ E t H).
    + right. exact (Hwf t Ha H).
  - exact (ex_ok _ _ F).
  - intros g Hg Hp. rewrite (ex_owners _ _ F) by (exact Hg || rewrite (ex_owners _ _ E) by assumption; exact Hp).
    by apply (ex_owners _ _ E).
  - intros a. destruct (ex_words _ _ F a) as [->|(t & i & Ha & -> & Hi & H)]; [exact (ex_words _ _ E a)|].
    right. exists t, i. split; [exact Ha|]. split; [reflexivity|]. split; [exact Hi|]. rewrite Hr in H.
    destruct H as [H|H]; [exact (ex_reaches _ _ E t H)|right; exact (Hwf t Ha H)].
Qed.

Lemma ensure_table_spec s v k T flags :
  tables_ok s -> plain v -> private (mem s) (root_of s) v -> (k <= 2)%nat ->
  down (mem s) k 3 (root_of s) v = Some T ->
  (present (entry (mem s) T (ix (3 - k) v)) = true -> huge (entry (mem s) T (ix (3 - k) v)) = false) ->
  exists rc s', ensure_table (table_addr k v) (ix (3 - k) v) (table_addr (S k) v) flags s = Some (rc, s') /\
    (rc = PAGING64_OK /\ levelled s s' v k (user_bits flags) /\
       (exists F, down (mem s') (S k) 3 (root_of s) v = Some F)
     \/ rc = PAGING64_NOMEM /\ extends s s' /\ mem s' = mem s).
Proof.
  intros Hok Hv Hpriv Hk HT Hnh. pose proof (to_space _ Hok) as Hsp.
  set (i := ix (3 - k) v) in *. assert (0 <= i < 512) as Hi by apply ix_range.
  assert (aligned T) as HTa by exact (down_aligned _ _ _ _ _ (root_aligned s) HT).
  unfold ensure_table. rewrite (bind_ok _ _ _ _ _ (load_table s k v T i Hsp ltac:(lia) HT Hi)).
  destruct (present (entry (mem s) T i)) eqn:Hp.
  - rewrite (bind_ok _ _ _ _ _ (store_table s k v T i Hsp ltac:(lia) HT Hi _)).
    destruct (ensure_widen s v T flags k Hok Hv Hpriv Hk HT Hp (Hnh eq_refl)) as [Hl Hd].
    eexists _, _. split; [reflexivity|]. left. split; [reflexivity|]. split; [exact Hl|]. eexists. exact Hd.
  - unfold pmm64_alloc at 1, mbind at 1, kern_bind at 1. destruct (fa_alloc_frame (frames s) (to_frames _ Hok)) as [Hout _].
    destruct (alloc_frame (frames s)) as [r a']. cbn [fst snd] in Hout.
    destruct Hout as (Hfa & [(f & Hf & -> & Hown & Howns)|[-> Howns]]).
    2: { cbn [Z.eqb]. eexists _, _. split; [reflexivity|]. right. split; [reflexivity|]. split; [|reflexivity].
         destruct (extends_refl s Hok). split; try assumption; [|intros g Hg Hp'; exact (Howns g Hg)].
         destruct Hok as [H1 H2 H3]. split; [exact H1|exact Hfa|]. intros t Ht Ht0. change (frames (set_frames a' s)) with a'.
         assert (t / 4096 <> 0) as Hnz.
         { destruct (aligned_eq t (reaches_aligned s t Ht)) as (f & Hf & ->). rewrite Z.div_mul; lia. }
         rewrite (Howns _ Hnz). exact (H3 t Ht Ht0). }
    set (F := f * 4096) in *. assert (aligned F) as HF by (apply aligned_frame; lia).
    assert (F <> 0) as HF0 by (unfold F; lia). rewrite (proj2 (Z.eqb_neq F 0) HF0).
    assert (F / 4096 = f) as HFf by (unfold F; rewrite Z.div_mul; lia).
    set (s1 := set_frames a' s). assert (space_ok (mem s1) (cr3 s1)) as Hsp1 by exact Hsp.
    rewrite (bind_ok _ _ _ _ _ (store_table s1 k v T i Hsp1 ltac:(lia) HT Hi _)).
    set (te := table_entry F flags). set (m1 := <[T + 8 * i := te]> (mem s1)). set (s2 := set_mem m1 s1).
    assert (~ reaches (mem s) (root_of s) F) as Hfresh
      by (intros Hr; pose proof (to_owned _ Hok F Hr HF0) as Ho; rewrite HFf in Ho; lia).
    pose proof (table_entry_sig F flags HF) as Hte.
    assert (forall m, (forall t j, aligned t -> 0 <= j < 512 -> t <> F -> entry m t j = entry m1 t j) ->
      forall t j, aligned t -> 0 <= j < 512 -> t <> F ->
        entry m t j = if (t =? T) && (j =? ix (3 - k) v) then te else entry (mem s) t j) as Hmid.
    { intros m Hm t j Ht Hj Hne. rewrite Hm by assumption. unfold m1. rewrite entry_insert by assumption.
      rewrite (Z.eqb_sym T t), (Z.eqb_sym i j). reflexivity. }
    destruct (zero_table_ok s2 (S k) v F ltac:(lia) HF) as (m & Hz & Hm & Hrd).
    { intros m Hm. split.
      - exact (install_space (mem s) (cr3 s) v T F te k Hsp Hk Hv HT Hpriv Hfresh Hte m (Hmid m Hm)).
      - exact (install_down (mem s) (cr3 s) v T F te k Hk Hv HT Hpriv HF Hfresh Hte m (Hmid m Hm)). }
    rewrite (bind_ok _ _ _ _ _ Hz).
    destruct (ensure_install s v T flags k Hok Hv Hpriv Hk HT F m a' (u64 (tables_allocated s + 1)) Hp HF HF0) as [Hl Hd].
    + rewrite HFf. exact Hown.
    + exact Hfa.
    + intros g. rewrite HFf. apply Howns.
    + intros t j Ht Hj. rewrite Hm by assumption. destruct (t =? F); [reflexivity|].
      change (mem s2) with m1. unfold m1. rewrite entry_insert by assumption.
      rewrite (Z.eqb_sym T t), (Z.eqb_sym i j). reflexivity.
    + intros a. destruct (Hrd a) as [H|H]; [|by right; left]. change (mem s2) with m1 in H. unfold m1 in H. rewrite rd_insert in H.
      destruct (Z.eqb_spec (T + 8 * i) a) as [E|]; [right; right; symmetry; exact E|left; exact H].
    + eexists _, _. split; [reflexivity|]. left. split; [reflexivity|]. split; [exact Hl|]. exists F. exact Hd.
Qed.

(** ** The last level *)

Section leaf.
  Variables (s : machine (A := A)) (v T x : Z) (k : nat).
  Hypotheses (Hok : tables_ok s) (Hv : plain v) (Hpriv : private (mem s) (root_of s) v).
  Hypotheses (Hk : (1 <= k <= 3)%nat) (HT : down (mem s) k 3 (root_of s) v = Some T).
  (** A page, not a table: the walk ends here. *)
  Hypothesis Hx : k = 3%nat \/ huge x = true.
Let i := ix (3 - k) v.
Let m' := <[T + 8 * i := x]> (mem s).

Lemma leaf_entry t j : aligned t -> 0 <= j < 512 ->
  entry m' t j = if (T =? t) && (i =? j) then x else entry (mem s) t j.
Proof.
  intros Ht Hj. apply entry_insert; [exact (down_aligned _ _ _ _ _ (root_aligned s) HT)|exact Ht|apply ix_range|exact Hj].
Qed.

Lemma leaf_same w j u : plain w -> (j <= 3)%nat -> down (mem s) j 3 (root_of s) w = Some u -> j <> k \/ ~ through v k w ->
  entry m' u (ix (3 - j) w) = entry (mem s) u (ix (3 - j) w).
Proof.
  intros Hw Hj Hd Hne. rewrite leaf_entry by (apply ix_range || exact (down_aligned _ _ _ _ _ (root_aligned s) Hd)).
  destruct (Z.eqb_spec T u) as [E|]; [|reflexivity]. destruct (Z.eqb_spec i (ix (3 - j) w)) as [Ei|]; [|reflexivity].
  exfalso. rewrite <-E in Hd. destruct (Hpriv k j T w ltac:(lia) Hj Hw HT Hd) as [Ejk Habove].
  destruct Hne as [Hne|Hne]; [congruence|]. apply Hne. intros n Hn.
  destruct (decide (n = 3 - k)%nat) as [->|]; [|apply Habove; lia]. rewrite Ejk in Ei. symmetry. exact Ei.
Qed.

Lemma leaf_below w j : plain w -> (j <= k)%nat -> down m' j 3 (root_of s) w = down (mem s) j 3 (root_of s) w.
Proof.
  intros Hw Hj. apply agree_down_below. intros a u Ha Hd. rewrite (leaf_same w a u Hw) by (lia || exact Hd).
  apply same_sig_refl.
Qed.

Lemma leaf_agree w : plain w -> ~ through v k w -> agree (mem s) m' (root_of s) w.
Proof.
  intros Hw Hn j u Hj Hd. rewrite (leaf_same w j u Hw Hj Hd) by (right; exact Hn). apply same_sig_refl.
Qed.

Lemma leaf_through w : through v k w -> down (mem s) k 3 (root_of s) w = Some T /\ entry m' T (ix (3 - k) w) = x.
Proof.
  intros Hw. split.
  - rewrite <-HT. apply down_same_ix; [lia|]. intros n Hn. apply Hw. lia.
  - rewrite (Hw (3 - k)%nat) by lia. rewrite leaf_entry by (apply ix_range || exact (down_aligned _ _ _ _ _ (root_aligned s) HT)).
    unfold i. by rewrite !Z.eqb_refl.
Qed.

Lemma leaf_plain w : through v k w -> plain w.
Proof. intros Hw. unfold plain. rewrite (Hw 3%nat) by lia. exact Hv. Qed.

Lemma leaf_dec w : through v k w \/ ~ through v k w.
Proof.
  destruct (through_dec v k w ltac:(lia)) as [H|(n & Hn & Hne)]; [by left|right]. intros H. exact (Hne (H n Hn)).
Qed.

(** No table appears. *)
Lemma leaf_down w j t : plain w -> (j <= 3)%nat -> down m' j 3 (root_of s) w = Some t -> down (mem s) j 3 (root_of s) w = Some t.
Proof.
  intros Hw Hj Hd. destruct (leaf_dec w) as [Ht|Hn].
  2: { rewrite (agree_down (mem s)) in Hd; [exact Hd|exact (leaf_agree w Hw Hn)|lia]. }
  destruct (decide (j <= k)%nat); [by rewrite leaf_below in Hd|]. exfalso.
  assert (down m' (S k) 3 (root_of s) w = None) as Hnone.
  { destruct (leaf_through w Ht) as [H1 H2]. rewrite down_S, leaf_below, H1, H2 by (exact Hw || lia). cbv zeta.
    destruct Hx as [->|Hh]; [lia|]. rewrite Hh. by destruct (present x). }
  assert (forall a, down m' (a + S k) 3 (root_of s) w = None) as Hall.
  { induction a as [|a IH]; [exact Hnone|]. cbn [Nat.add]. by rewrite down_S, IH. }
  replace j with ((j - S k) + S k)%nat in Hd by lia. by rewrite Hall in Hd.
Qed.

Lemma leaf_walk w : plain w ->
  (through v k w -> walk m' 3 (root_of s) w =
     if present x then Some (page_base (3 - k) x + w mod span (3 - k)) else None) /\
  (~ through v k w -> walk m' 3 (root_of s) w = walk (mem s) 3 (root_of s) w).
Proof.
  intros Hw. split.
  - intros Ht. destruct (leaf_through w Ht) as [H1 H2]. rewrite <-(leaf_below w k Hw) in H1 by lia.
    rewrite (walk_down _ _ _ _ _ (proj2 Hk) H1). destruct (decide (k = 3%nat)) as [E|E].
    + rewrite E in *. cbn [Nat.sub walk] in *. rewrite H2. by destruct (present x).
    + destruct Hx as [?|Hh]; [lia|]. replace (3 - k)%nat with (S (pred (3 - k))) in * by lia. cbn [walk].
      rewrite H2, Hh. destruct (present x); [|reflexivity]. cbn [negb].
      rewrite (proj2 (Nat.eqb_neq (S (pred (3 - k))) 3)) by lia. reflexivity.
  - intros Hn. apply agree_walk. exact (leaf_agree w Hw Hn).
Qed.

Lemma leaf_private w : plain w -> private (mem s) (root_of s) w -> private m' (root_of s) w.
Proof.
  intros Hw Hp a b t u Ha Hb Hu Hda Hdb. apply (Hp a b t u Ha Hb Hu); apply leaf_down; assumption.
Qed.

Lemma leaf_ok : tables_ok (set_mem m' s).
Proof.
  assert (forall t, reaches m' (root_of s) t -> reaches (mem s) (root_of s) t) as Hre.
  { intros t (w & j & Hw & Hj & Hd). exists w, j. split; [exact Hw|]. split; [exact Hj|]. exact (leaf_down w j t Hw Hj Hd). }
  assert (root_of s <> T) as HrT by (intros E; destruct (Hpriv k 0%nat T v ltac:(lia) ltac:(lia) Hv HT (f_equal Some E)); lia).
  destruct Hok as [[S1 S2] H2 H3]. split; [split|exact H2|intros t Ht; exact (H3 t (Hre t Ht))].
  - change (frame_of (cr3 (set_mem m' s))) with (root_of s). change (mem (set_mem m' s)) with m'.
    rewrite leaf_entry by (apply root_aligned || (unfold REC; lia)).
    rewrite (proj2 (Z.eqb_neq T (root_of s))) by congruence. exact S1.
  - change (frame_of (cr3 (set_mem m' s))) with (root_of s). change (mem (set_mem m' s)) with m'.
    intros j Hj. rewrite leaf_entry by (apply root_aligned || exact Hj).
    rewrite (proj2 (Z.eqb_neq T (root_of s))) by congruence. exact (S2 j Hj).
Qed.

(** The bits of the entries above it are not touched. *)
Lemma leaf_granted fl : granted (mem s) (root_of s) v k fl -> Z.land x fl = fl -> granted m' (root_of s) v (S k) fl.
Proof.
  intros Hg Hxf j u Hj Hd. rewrite leaf_below in Hd by (exact Hv || lia).
  destruct (decide (j = k)) as [E|E].
  - rewrite E in *. rewrite HT in Hd. injection Hd as <-.
    assert (through v k v) as Hvv by (intros n Hn; reflexivity). by rewrite (proj2 (leaf_through v Hvv)).
  - rewrite (leaf_same v j u Hv ltac:(lia) Hd (or_introl E)). apply Hg; [lia|exact Hd].
Qed.
End leaf.
End machine.

(** ** Pages *)

Lemma span_S n : span (S n) = span n * 512.
Proof. unfold span. replace (12 + 9 * Z.of_nat (S n)) with (12 + 9 * Z.of_nat n + 9) by lia. by rewrite Z.pow_add_r by lia. Qed.

Lemma span_pos n : 0 < span n.
Proof. unfold span. lia. Qed.

Lemma div_span n v : v / span n = 512 * (v / span (S n)) + ix n v.
Proof. rewrite ix_eq, span_S, <-Z.div_div by (pose proof (span_pos n); lia). apply Z.div_mod. lia. Qed.

Definition va (v : Z) : Prop := 0 <= v < 2 ^ 64 /\ canonical v = true.

Lemma va_top v : va v -> v / span 4 = if ix 3 v <? 256 then 0 else 65535.
Proof.
  intros [Hv Hc]. pose proof (div_span 3 v) as Hd. pose proof (ix_range 3 v) as Hr.
  change (span 3) with (2 ^ 39) in Hd. change (span 4) with (2 ^ 48) in *.
  unfold canonical in Hc. apply orb_true_iff in Hc as [Hc|Hc]; zbool.
  - assert (v / 2 ^ 39 < 256) by (apply Z.div_lt_upper_bound; lia). assert (0 <= v / 2 ^ 48) by (apply Z.div_pos; lia).
    rewrite (proj2 (Z.ltb_lt _ _)) by lia. lia.
  - assert (2 ^ 25 - 256 <= v / 2 ^ 39) by (apply Z.div_le_lower_bound; lia).
    assert (v / 2 ^ 48 <= 65535) by (apply Z.lt_succ_r, Z.div_lt_upper_bound; lia).
    rewrite (proj2 (Z.ltb_ge _ _)) by lia. lia.
Qed.

Lemma span_ix n m v w : (n <= m)%nat -> v / span n = w / span n -> v / span m = w / span m.
Proof.
  intros Hnm H. induction Hnm as [|m Hnm IH]; [exact H|].
  rewrite span_S, <-!Z.div_div by (pose proof (span_pos m); lia). by rewrite IH.
Qed.

(** Two addresses go through the same entry exactly if they lie in the same
    page of its size. *)
Lemma through_page v k w : va v -> va w -> (k <= 3)%nat -> through v k w <-> w / span (3 - k) = v / span (3 - k).
Proof.
  intros Hv Hw Hk. split.
  - intros Ht. assert (forall d, (d <= S k)%nat -> w / span (4 - d) = v / span (4 - d)) as H.
    { induction d as [|d IH]; intros Hd.
      - change (4 - 0)%nat with 4%nat. rewrite (va_top v Hv), (va_top w Hw). rewrite (Ht 3%nat) by lia. reflexivity.
      - specialize (IH ltac:(lia)). rewrite (div_span (4 - S d) v), (div_span (4 - S d) w).
        replace (S (4 - S d)) with (4 - d)%nat by lia. rewrite IH, (Ht (4 - S d)%nat) by lia. reflexivity. }
    specialize (H (S k) ltac:(lia)). replace (4 - S k)%nat with (3 - k)%nat in H by lia. exact H.
  - intros He n Hn. rewrite !ix_eq. by rewrite (span_ix _ n _ _ (proj1 Hn) He).
Qed.

Lemma page_of_eq v : 0 <= v < 2 ^ 64 -> page_of v = v / span 0 * span 0.
Proof.
  intros Hv. unfold page_of, and_not64. change (2 ^ 64 - 1 - (PAGE64_SIZE - 1)) with (Z.shiftl (Z.ones 52) 12).
  rewrite land_field by lia. change (span 0) with (2 ^ 12). rewrite (Z.mod_small (v / 2 ^ 12)); [reflexivity|].
  split; [apply Z.div_pos; lia|apply Z.div_lt_upper_bound; lia].
Qed.

Lemma huge_page_of_eq v : 0 <= v < 2 ^ 64 -> huge_page_of v = v / span 1 * span 1.
Proof.
  intros Hv. unfold huge_page_of, and_not64. change (2 ^ 64 - 1 - (HUGE_SIZE - 1)) with (Z.shiftl (Z.ones 43) 21).
  rewrite land_field by lia. change (span 1) with (2 ^ 21). rewrite (Z.mod_small (v / 2 ^ 21)); [reflexivity|].
  split; [apply Z.div_pos; lia|apply Z.div_lt_upper_bound; lia].
Qed.

Lemma ix_round m n v : (m <= n)%nat -> ix n (v / span m * span m) = ix n v.
Proof.
  intros Hmn. rewrite !ix_eq. do 1 f_equal. apply (span_ix m n); [exact Hmn|].
  rewrite Z.div_mul; [reflexivity|]. pose proof (span_pos m). lia.
Qed.

(** ** Mapping *)

Section mapping.
  Context {A : Type} `{!FrameAllocator A}.
  Implicit Types s : machine (A := A).

(** Everything down to the [k]-th table is there. *)
Definition at_level s s' (v : Z) (k : nat) (fl : Z) : Prop :=
  extends s s' /\ granted (mem s') (root_of s) v k fl /\
  exists T, down (mem s') k 3 (root_of s) v = Some T.

Lemma at_level_start s v fl : tables_ok s -> at_level s s v 0 fl.
Proof.
  intros H. split; [by apply extends_refl|]. split; [intros j u Hj; lia|]. by exists (root_of s).
Qed.

Lemma extends_root s s' : extends s s' -> root_of s' = root_of s.
Proof. intros H. unfold root_of. by rewrite (ex_cr3 _ _ H). Qed.

Section walk_down.
  Variables (s : machine (A := A)) (v flags : Z).
  Hypotheses (Hok : tables_ok s) (Hv : plain v) (Hpriv : private (mem s) (root_of s) v).

Lemma level_private s1 : extends s s1 -> private (mem s1) (root_of s1) v.
Proof. intros E. rewrite (extends_root _ _ E). exact (ex_private _ _ E v Hv Hpriv). Qed.

(** One level more, or out of memory. *)
Lemma ensure_level s1 k :
  at_level s s1 v k (user_bits flags) -> (k <= 2)%nat ->
  (forall T, down (mem s1) k 3 (root_of s) v = Some T -> present (entry (mem s1) T (ix (3 - k) v)) = true ->
     huge (entry (mem s1) T (ix (3 - k) v)) = false) ->
  exists rc s2, ensure_table (table_addr k v) (ix (3 - k) v) (table_addr (S k) v) flags s1 = Some (rc, s2) /\
    (rc = PAGING64_OK /\ at_level s s2 v (S k) (user_bits flags) \/ rc = PAGING64_NOMEM /\ extends s s2).
Proof.
  intros (E & G & T & HT) Hk Hnh. pose proof (extends_root _ _ E) as Hr.
  destruct (ensure_table_spec s1 v k T flags (ex_ok _ _ E) Hv (level_private s1 E) Hk) as (rc & s2 & He & H).
  - rewrite Hr. exact HT.
  - exact (Hnh T HT).
  - exists rc, s2. split; [exact He|]. destruct H as [(-> & [L1 L2 L3] & F & HF)|(-> & L1 & _)].
    + left. split; [reflexivity|]. rewrite Hr in *. split; [exact (extends_trans s s1 s2 Hok E L1)|].
      split; [exact (L3 G)|by exists F].
    + right. split; [reflexivity|]. exact (extends_trans s s1 s2 Hok E L1).
Qed.

(** The entry of the next level, read. *)
Lemma load_level s1 k :
  at_level s s1 v k (user_bits flags) -> (k <= 3)%nat ->
  exists T, down (mem s1) k 3 (root_of s) v = Some T /\
    load (table_addr k v + 8 * ix (3 - k) v) s1 = Some (entry (mem s1) T (ix (3 - k) v), s1).
Proof.
  intros (E & G & T & HT) Hk. exists T. split; [exact HT|].
  apply load_table; [exact (to_space _ (ex_ok _ _ E))|exact Hk| |apply ix_range].
  rewrite (extends_root _ _ E). exact HT.
Qed.
End walk_down.

(** What changed: the page of size [span (3 - k)] at [v] now shows [x], and
    every other mapping is the same. *)
Definition remaps s s' (v : Z) (k : nat) (target : option Z) : Prop :=
  tables_ok s' /\ cr3 s' = cr3 s /\ physmap_bytes s' = physmap_bytes s /\
  (forall w, va w -> plain w ->
     hw_walk (mem s') (cr3 s') w =
       if w / span (3 - k) =? v / span (3 - k)
       then match target with Some p => Some (p + w mod span (3 - k)) | None => None end
       else hw_walk (mem s) (cr3 s) w) /\
  (forall w, plain w -> private (mem s) (root_of s) w -> private (mem s') (root_of s') w) /\
  (forall g, g <> 0 -> 0 < fa_owners (frames s) g -> fa_owners (frames s') g = fa_owners (frames s) g) /\
  (forall a, rd (mem s') a = rd (mem s) a \/
    exists t i, aligned t /\ a = t + 8 * i /\ 0 <= i < 512 /\ (reaches (mem s) (root_of s) t \/ was_free s t)).

Lemma remaps_leaf s s1 v x k T :
  tables_ok s -> extends s s1 -> va v -> plain v -> private (mem s) (root_of s) v -> (1 <= k <= 3)%nat ->
  down (mem s1) k 3 (root_of s) v = Some T -> (k = 3%nat \/ huge x = true) ->
  remaps s (set_mem (<[T + 8 * ix (3 - k) v := x]> (mem s1)) s1) v k
    (if present x then Some (page_base (3 - k) x) else None).
Proof.
  intros Hok E Hva Hv Hpriv Hk HT Hx. pose proof (extends_root _ _ E) as Hr.
  pose proof (level_private s v Hv Hpriv s1 E) as Hp1. rewrite <-Hr in HT.
  pose proof (ex_ok _ _ E) as Hok1. set (m' := <[T + 8 * ix (3 - k) v := x]> (mem s1)).
  split; [exact (leaf_ok s1 v T x k Hok1 Hv Hp1 Hk HT Hx)|]. split; [exact (ex_cr3 _ _ E)|].
  split; [exact (ex_physmap _ _ E)|]. split; [|split; [|split]].
  - intros w Hw Hpl. unfold hw_walk. change (cr3 (set_mem m' s1)) with (cr3 s1). rewrite (proj2 Hw).
    change (frame_of (cr3 s1)) with (root_of s1). change (mem (set_mem m' s1)) with m'.
    destruct (leaf_walk s1 v T x k Hp1 Hk HT Hx w Hpl) as [W1 W2].
    pose proof (through_page v k w Hva Hw (proj2 Hk)) as Htp.
    destruct (Z.eqb_spec (w / span (3 - k)) (v / span (3 - k))) as [He|Hne].
    + unfold m'. rewrite (W1 (proj2 Htp He)). by destruct (present x).
    + unfold m'. rewrite W2 by (intros Ht; exact (Hne (proj1 Htp Ht))). rewrite Hr. exact (ex_walks _ _ E w Hpl).
  - intros w Hw Hp. change (root_of (set_mem m' s1)) with (root_of s1).
    apply (leaf_private s1 v T x k Hp1 Hk HT Hx w Hw). rewrite Hr. exact (ex_private _ _ E w Hw Hp).
  - exact (ex_owners _ _ E).
  - intros a. change (mem (set_mem m' s1)) with m'. unfold m'. rewrite rd_insert.
    destruct (Z.eqb_spec (T + 8 * ix (3 - k) v) a) as [Ea|]; [right|exact (ex_words _ _ E a)].
    exists T, (ix (3 - k) v). split; [exact (down_aligned _ _ _ _ _ (root_aligned s1) HT)|].
    split; [congruence|]. split; [apply ix_range|]. apply (ex_reaches _ _ E). rewrite <-Hr.
    exists v, k. split; [exact Hv|]. split; [exact (proj2 Hk)|exact HT].
Qed.

(** Whatever went wrong, the mappings are as they were. *)
Lemma remaps_nothing s s1 w : extends s s1 -> plain w -> hw_walk (mem s1) (cr3 s1) w = hw_walk (mem s) (cr3 s) w.
Proof.
  intros E Hw. unfold hw_walk. rewrite (ex_cr3 _ _ E). destruct (canonical w); [|reflexivity]. exact (ex_walks _ _ E w Hw).
Qed.

(** The permissions at the end of the walk. *)
Lemma granted_rights m root v k T fl :
  down m k 3 root v = Some T -> granted m root v (S k) fl -> (k <= 3)%nat ->
  (k = 3%nat \/ huge (entry m T (ix (3 - k) v)) = true) -> Z.land fl (Z.lor PAGE64_WRITE PAGE64_USER) = fl ->
  Z.land (rights m 3 root v) fl = fl.
Proof.
  intros HT Hg Hk Hl Hfl.
  assert (forall d j u, (j + d = k)%nat -> down m j 3 root v = Some u -> Z.land (rights m (3 - j) u v) fl = fl) as H.
  { induction d as [|d IH]; intros j u Hjd Hd.
    - assert (j = k) as -> by lia. rewrite HT in Hd. injection Hd as <-. pose proof (Hg k T ltac:(lia) HT) as Hb.
      destruct (decide (k = 3%nat)) as [E|E].
      + rewrite E in *. cbn [Nat.sub rights] in *. rewrite <-Z.land_assoc, (Z.land_comm _ fl), Hfl. exact Hb.
      + destruct Hl as [?|Hh]; [lia|]. replace (3 - k)%nat with (S (pred (3 - k))) in * by lia. cbn [rights].
        rewrite Hh, <-Z.land_assoc, (Z.land_comm _ fl), Hfl. exact Hb.
    - pose proof (Hg j u ltac:(lia) Hd) as Hb.
      assert (exists u', down m (S j) 3 root v = Some u') as [u' Hu'].
      { clear IH Hb Hg Hl. revert HT. replace k with (d + S j)%nat by lia. clear.
        intros HT. assert (forall a, down m (S j) 3 root v = None -> down m (a + S j) 3 root v = None) as Hn.
        { induction a as [|a IHa]; intros Hn; [exact Hn|]. cbn [Nat.add]. by rewrite down_S, IHa. }
        destruct (down m (S j) 3 root v) as [u'|]; [by exists u'|]. by rewrite Hn in HT. }
      pose proof Hu' as Hd'. apply down_inv in Hd' as (u0 & Hu0 & _ & Hh & Hf). rewrite Hd in Hu0. injection Hu0 as <-.
      pose proof (IH (S j) u' ltac:(lia) Hu') as Hrec.
      replace (3 - j)%nat with (S (3 - S j)) in * by lia. cbn [rights].
      rewrite Hh, Hf, <-Z.land_assoc, Hrec. exact Hb. }
  exact (H k 0%nat root ltac:(lia) eq_refl).
Qed.

Lemma remaps_rights s s1 v x k T fl :
  extends s s1 -> plain v -> private (mem s) (root_of s) v -> (1 <= k <= 3)%nat ->
  down (mem s1) k 3 (root_of s) v = Some T -> (k = 3%nat \/ huge x = true) ->
  granted (mem s1) (root_of s) v k fl -> Z.land x fl = fl -> Z.land fl (Z.lor PAGE64_WRITE PAGE64_USER) = fl ->
  Z.land (hw_rights (<[T + 8 * ix (3 - k) v := x]> (mem s1)) (cr3 s1) v) fl = fl.
Proof.
  intros E Hv Hp Hk HT Hx Hg Hxf Hfl. pose proof (level_private s v Hv Hp s1 E) as Hp1.
  rewrite <-(extends_root _ _ E) in HT, Hg.
  apply (granted_rights _ (root_of s1) v k T fl).
  - rewrite (leaf_below s1 v T x k Hp1 Hk HT Hx v k Hv) by lia. exact HT.
  - exact (leaf_granted s1 v T x k Hv Hp1 Hk HT Hx fl Hg Hxf).
  - exact (proj2 Hk).
  - destruct Hx as [->|Hh]; [by left|right]. rewrite entry_insert by (exact (down_aligned _ _ _ _ _ (root_aligned s1) HT) || apply ix_range).
    by rewrite !Z.eqb_refl.
  - exact Hfl.
Qed.

(** The address a leaf entry gives, as the code puts it together. *)
Lemma leaf_addr n e v : (n <= 2)%nat ->
  Z.lor (and_not64 (Z.land e ADDR_MASK) (span n - 1)) (Z.land v (span n - 1)) = page_base n e + v mod span n.
Proof.
  intros Hn. set (k := 12 + 9 * Z.of_nat n). assert (12 <= k <= 30) as Hk by lia.
  assert (span n = 2 ^ k) as Hs by reflexivity. rewrite Hs. change (Z.land e ADDR_MASK) with (frame_of e).
  assert (0 <= frame_of e < 2 ^ 52) as Hf.
  { rewrite frame_of_eq. pose proof (Z.mod_pos_bound (e / 4096) (2 ^ 40) ltac:(lia)). lia. }
  replace (2 ^ k - 1) with (Z.ones k) by (rewrite Z.ones_equiv; lia). rewrite Z.land_ones by lia.
  unfold and_not64. replace (2 ^ 64 - 1 - Z.ones k) with (Z.shiftl (Z.ones (64 - k)) k).
  2: { rewrite Z.shiftl_mul_pow2, !Z.ones_equiv, <-!Z.sub_1_r, Z.mul_sub_distr_r, <-Z.pow_add_r by lia.
       replace (64 - k + k) with 64 by lia. lia. }
  rewrite land_field by lia. rewrite (Z.mod_small (frame_of e / 2 ^ k)).
  2: { split; [apply Z.div_pos; lia|]. apply Z.div_lt_upper_bound; [lia|]. rewrite <-Z.pow_add_r by lia.
       replace (k + (64 - k)) with 64 by lia. lia. }
  unfold page_base. rewrite Hs. apply lor_mul_add; [lia|]. apply Z.mod_pos_bound. lia.
Qed.

Lemma frame_flags_entry t b : aligned t -> Z.land b ADDR_MASK = 0 ->
  let x := Z.lor (Z.lor t b) PAGE64_PRESENT in present x = true /\ frame_of x = t.
Proof.
  intros Ht Hb. cbv zeta. rewrite <-Z.lor_assoc. split.
  - unfold present, PAGE64_PRESENT. rewrite land_bit by (exact Ht || lia).
    unfold nz. apply negb_true_iff, Z.eqb_neq. intros H.
    apply (f_equal (fun z => Z.testbit z 0)) in H. rewrite Z.land_spec, Z.lor_spec, orb_true_r in H. discriminate H.
  - apply frame_flags; [exact Ht|]. rewrite Z.land_lor_distr_l, Hb. reflexivity.
Qed.

Lemma page_aligned n p : 0 <= p < 2 ^ 52 -> aligned (p / span n * span n).
Proof.
  intros Hp. assert (span n = 2 ^ (9 * Z.of_nat n) * 4096) as Hs.
  { unfold span. rewrite Z.add_comm, Z.pow_add_r by lia. reflexivity. }
  rewrite Hs, Z.mul_assoc, <-Hs. apply aligned_frame. split.
  - apply Z.mul_nonneg_nonneg; [apply Z.div_pos; [lia|apply span_pos]|lia].
  - apply (Zmult_lt_reg_r _ _ 4096); [lia|]. rewrite <-Z.mul_assoc, <-Hs.
    pose proof (Z.mul_div_le p (span n) (span_pos n)). lia.
Qed.

Lemma read_entry s v k t :
  space_ok (mem s) (cr3 s) -> (k <= 3)%nat -> down (mem s) k 3 (root_of s) v = Some t ->
  load (table_addr k v + 8 * ix (3 - k) v) s = Some (entry (mem s) t (ix (3 - k) v), s).
Proof. intros Hok Hk Hd. apply load_table; [exact Hok|exact Hk|exact Hd|apply ix_range]. Qed.

Lemma down_next m root v k t :
  down m k 3 root v = Some t -> present (entry m t (ix (3 - k) v)) = true -> huge (entry m t (ix (3 - k) v)) = false ->
  down m (S k) 3 root v = Some (frame_of (entry m t (ix (3 - k) v))).
Proof. intros Hd Hp Hh. rewrite down_S, Hd. cbv zeta. by rewrite Hp, Hh. Qed.

(** C27: paging64_translate is the processor's walk: for every address, whatever
    is mapped there and at whatever size, it returns the physical address the
    processor would use, or says that nothing is mapped exactly when the
    processor would fault; it never faults itself and changes nothing. *)
Theorem paging64_translate_is_hw_walk s v :
  space_ok (mem s) (cr3 s) -> va v ->
  paging64_translate v s =
    Some (match hw_walk (mem s) (cr3 s) v with
          | Some p => (PAGING64_OK, Some p)
          | None => (PAGING64_NOT_MAPPED, None)
          end, s).
Proof.
  intros Hok Hv. unfold hw_walk. rewrite (proj2 Hv). unfold paging64_translate.
  change pml4_addr with (table_addr 0 v). change (PML4_IDX v) with (ix (3 - 0) v).
  change (pdpt_addr v) with (table_addr 1 v). change (PDPT_IDX v) with (ix (3 - 1) v).
  change (pd_addr v) with (table_addr 2 v). change (PD_IDX v) with (ix (3 - 2) v).
  change (pt_addr v) with (table_addr 3 v). change (PT_IDX v) with (ix (3 - 3) v).
  pose proof (fun k t => read_entry s v k t Hok) as Hload. pose proof (down_next (mem s) (root_of s) v) as Hnext.
  change (frame_of (cr3 s)) with (root_of s).
  rewrite (bind_ok _ _ _ _ _ (Hload 0%nat (root_of s) ltac:(lia) eq_refl)). cbn [walk Nat.sub].
  set (e3 := entry (mem s) (root_of s) (ix 3 v)).
  destruct (present e3) eqn:P3; cbn [negb]; [|reflexivity].
  pose proof (sp_top _ _ Hok (ix 3 v) (ix_range 3 v) P3) as H3. change (huge e3 = false) in H3. rewrite H3.
  pose proof (Hnext 0%nat (root_of s) eq_refl P3 H3) as D1. cbn [Nat.sub] in D1. fold e3 in D1.
  rewrite (bind_ok _ _ _ _ _ (Hload 1%nat _ ltac:(lia) D1)). cbn [Nat.sub].
  set (e2 := entry (mem s) (frame_of e3) (ix 2 v)).
  destruct (present e2) eqn:P2; cbn [negb]; [|reflexivity].
  destruct (huge e2) eqn:H2; [cbn [Nat.eqb]; rewrite <-(leaf_addr 2) by lia; reflexivity|].
  pose proof (Hnext 1%nat _ D1 P2 H2) as D2. cbn [Nat.sub] in D2. fold e2 in D2.
  rewrite (bind_ok _ _ _ _ _ (Hload 2%nat _ ltac:(lia) D2)). cbn [Nat.sub].
  set (e1 := entry (mem s) (frame_of e2) (ix 1 v)).
  destruct (present e1) eqn:P1; cbn [negb]; [|reflexivity].
  destruct (huge e1) eqn:H1; [cbn [Nat.eqb]; rewrite <-(leaf_addr 1) by lia; reflexivity|].
  pose proof (Hnext 2%nat _ D2 P1 H1) as D3. cbn [Nat.sub] in D3. fold e1 in D3.
  rewrite (bind_ok _ _ _ _ _ (Hload 3%nat _ ltac:(lia) D3)). cbn [Nat.sub].
  set (e0 := entry (mem s) (frame_of e1) (ix 0 v)).
  destruct (present e0) eqn:P0; cbn [negb]; [|reflexivity].
  assert (and_not64 (Z.land e0 ADDR_MASK) (span 0 - 1) = frame_of e0) as Hb.
  { pose proof (leaf_addr 0 e0 0 ltac:(lia)) as Hl. rewrite Z.land_0_l, Z.lor_0_r, Z.mod_0_l, Z.add_0_r, page_base_0 in Hl; [exact Hl|discriminate]. }
  rewrite <-(leaf_addr 0), Hb by lia. reflexivity.
Qed.

Lemma user_bits_in fl x : Z.land (user_bits fl) (Z.lor PAGE64_WRITE PAGE64_USER) = user_bits fl /\
  Z.land (Z.lor (Z.lor x fl) PAGE64_PRESENT) (user_bits fl) = user_bits fl.
Proof.
  unfold user_bits. split; apply Z.bits_inj'; intros n Hn; rewrite !Z.land_spec, !Z.lor_spec.
  - by destruct (Z.testbit fl n), (Z.testbit PAGE64_WRITE n), (Z.testbit PAGE64_USER n).
  - by destruct (Z.testbit fl n), (Z.testbit x n), (Z.testbit PAGE64_WRITE n), (Z.testbit PAGE64_USER n), (Z.testbit PAGE64_PRESENT n).
Qed.

(** The two upper levels, which mapping a page of either size begins with. *)
Lemma upper_levels s v flags (K : kern Z) :
  tables_ok s -> plain v -> private (mem s) (root_of s) v ->
  let c := (rc ← ensure_table pml4_addr (ix 3 v) (pdpt_addr v) flags;
    if negb (rc =? PAGING64_OK) then mret rc else
    e ← load (pdpt_addr v + 8 * ix 2 v);
    if huge e then mret PAGING64_HUGE_IN_WAY else
    rc ← ensure_table (pdpt_addr v) (ix 2 v) (pd_addr v) flags;
    if negb (rc =? PAGING64_OK) then mret rc else K) s in
  (exists rc s1, c = Some (rc, s1) /\ (rc = PAGING64_NOMEM \/ rc = PAGING64_HUGE_IN_WAY) /\ extends s s1) \/
  (exists s1, c = K s1 /\ at_level s s1 v 2 (user_bits flags)).
Proof.
  intros Hok Hv Hp. cbv zeta.
  destruct (ensure_level s v flags Hok Hv Hp s 0 (at_level_start s v _ Hok) ltac:(lia)) as (rc & s1 & E1 & H1).
  { intros T HT. injection HT as <-. apply (sp_top _ _ (to_space _ Hok)). apply ix_range. }
  cbn [table_addr Nat.sub] in E1. rewrite (bind_ok _ _ _ _ _ E1).
  destruct H1 as [[-> L1]|[-> X1]]; [|left; eexists _, _; split; [reflexivity|]; split; [by left|exact X1]].
  cbn [Z.eqb negb PAGING64_OK].
  destruct (load_level s v flags s1 1 L1 ltac:(lia)) as (T & HT & E2). cbn [table_addr Nat.sub] in E2.
  rewrite (bind_ok _ _ _ _ _ E2).
  destruct (huge (entry (mem s1) T (ix 2 v))) eqn:Hh.
  { left. eexists _, _. split; [reflexivity|]. split; [by right|apply L1]. }
  destruct (ensure_level s v flags Hok Hv Hp s1 1 L1 ltac:(lia)) as (rc & s2 & E3 & H3).
  { intros T' HT'. rewrite HT in HT'. injection HT' as <-. intros _. exact Hh. }
  cbn [table_addr Nat.sub] in E3. rewrite (bind_ok _ _ _ _ _ E3).
  destruct H3 as [[-> L3]|[-> X3]]; [|left; eexists _, _; split; [reflexivity|]; split; [by left|exact X3]].
  right. exists s2. split; [reflexivity|exact L3].
Qed.

(** C2: paging64_map adds exactly one mapping.  It never faults and returns one of
    three codes.  On success the page shows the given frame with at least the
    given permissions all the way down the walk; otherwise - no frame for a
    table, or a huge page in the way - no mapping changed.  In every case
    every other address outside the self-reference translates as before, the
    tables are well-formed and private ones stay private, no frame is taken
    from its owner, and only tables and free frames are written. *)
Theorem paging64_map_adds_one s virt phys flags :
  tables_ok s -> va virt -> plain virt -> private (mem s) (root_of s) virt ->
  0 <= phys < 2 ^ 52 -> Z.land flags ADDR_MASK = 0 ->
  exists rc s', paging64_map virt phys flags s = Some (rc, s') /\
    (rc = PAGING64_OK /\ remaps s s' virt 3 (Some (phys / 4096 * 4096)) /\
       Z.land (hw_rights (mem s') (cr3 s') virt) (user_bits flags) = user_bits flags
     \/ (rc = PAGING64_NOMEM \/ rc = PAGING64_HUGE_IN_WAY) /\ extends s s' /\
       forall w, plain w -> hw_walk (mem s') (cr3 s') w = hw_walk (mem s) (cr3 s) w).
Proof.
  intros Hok Hva Hv Hp Hphys Hfl. unfold paging64_map. destruct Hva as [Hvr Hvc].
  assert (forall n, ix n (page_of virt) = ix n virt) as Hix by (intros n; rewrite page_of_eq by exact Hvr; apply ix_round; lia).
  change (PML4_IDX (page_of virt)) with (ix 3 (page_of virt)). change (PDPT_IDX (page_of virt)) with (ix 2 (page_of virt)).
  change (PD_IDX (page_of virt)) with (ix 1 (page_of virt)). change (PT_IDX (page_of virt)) with (ix 0 (page_of virt)).
  rewrite !Hix. rewrite page_of_eq by lia. change (span 0) with 4096.
  pose proof (upper_levels s virt flags (
    e ← load (pd_addr virt + 8 * ix 1 virt);
    if huge e then mret PAGING64_HUGE_IN_WAY else
    rc ← ensure_table (pd_addr virt) (ix 1 virt) (pt_addr virt) flags;
    if negb (rc =? PAGING64_OK) then mret rc else
    _ ← store (pt_addr virt + 8 * ix 0 virt) (Z.lor (Z.lor (phys / 4096 * 4096) flags) PAGE64_PRESENT);
    mret PAGING64_OK) Hok Hv Hp) as H.
  cbv zeta in *. destruct H as [(rc & s1 & -> & Hrc & X1)|(s2 & -> & L2)].
  { exists rc, s1. split; [reflexivity|]. right. split; [exact Hrc|]. split; [exact X1|]. intros w. by apply remaps_nothing. }
  destruct (load_level s virt flags s2 2 L2 ltac:(lia)) as (T & HT & E). cbn [table_addr Nat.sub] in E.
  rewrite (bind_ok _ _ _ _ _ E). destruct (huge (entry (mem s2) T (ix 1 virt))) eqn:Hh.
  { eexists _, s2. split; [reflexivity|]. right. split; [by right|]. split; [apply L2|]. intros w. apply remaps_nothing, L2. }
  destruct (ensure_level s virt flags Hok Hv Hp s2 2 L2 ltac:(lia)) as (rc & s3 & E3 & H3).
  { intros T' HT'. rewrite HT in HT'. injection HT' as <-. intros _. exact Hh. }
  cbn [table_addr Nat.sub] in E3. rewrite (bind_ok _ _ _ _ _ E3).
  destruct H3 as [[-> L3]|[-> X3]].
  2: { eexists _, s3. split; [reflexivity|]. right. split; [by left|]. split; [exact X3|]. intros w. by apply remaps_nothing. }
  cbn [Z.eqb negb PAGING64_OK]. destruct L3 as (X3 & G3 & T3 & HT3). pose proof (extends_root _ _ X3) as Hr.
  assert (down (mem s3) 3 3 (root_of s3) virt = Some T3) as HT3' by (rewrite Hr; exact HT3).
  pose proof (store_table s3 3 virt T3 (ix 0 virt) (to_space _ (ex_ok _ _ X3)) ltac:(lia) HT3' (ix_range 0 virt)
    (Z.lor (Z.lor (phys / 4096 * 4096) flags) PAGE64_PRESENT)) as Est.
  cbn [table_addr] in Est. rewrite (bind_ok _ _ _ _ _ Est).
  set (x := Z.lor (Z.lor (phys / 4096 * 4096) flags) PAGE64_PRESENT) in *.
  destruct (frame_flags_entry (phys / 4096 * 4096) flags (page_aligned 0 phys Hphys) Hfl) as [Px Fx]. fold x in Px, Fx.
  eexists _, _. split; [reflexivity|]. left. split; [reflexivity|]. split.
  - pose proof (remaps_leaf s s3 virt x 3 T3 Hok X3 (conj Hvr Hvc) Hv Hp ltac:(lia) HT3 (or_introl eq_refl)) as Hrm.
    rewrite Px in Hrm. cbn [Nat.sub] in Hrm. rewrite page_base_0, Fx in Hrm. exact Hrm.
  - destruct (user_bits_in flags (phys / 4096 * 4096)) as [U1 U2].
    exact (remaps_rights s s3 virt x 3 T3 _ X3 Hv Hp ltac:(lia) HT3 (or_introl eq_refl) G3 U2 U1).
Qed.

(** C28: paging64_unmap removes exactly one mapping: if the processor finds a 4KB
    page there it finds none afterwards, and everything else translates as
    before; if it finds nothing, or a huge page, the call says so and changes
    nothing. *)
Theorem paging64_unmap_removes_one s virt :
  tables_ok s -> va virt -> plain virt -> private (mem s) (root_of s) virt ->
  exists rc s', paging64_unmap virt s = Some (rc, s') /\
    (rc = PAGING64_OK /\ is_Some (hw_walk (mem s) (cr3 s) virt) /\ remaps s s' virt 3 None
     \/ rc = PAGING64_NOT_MAPPED /\ hw_walk (mem s) (cr3 s) virt = None /\ s' = s
     \/ rc = PAGING64_HUGE_IN_WAY /\ is_Some (hw_walk (mem s) (cr3 s) virt) /\ s' = s).
Proof.
  intros Hok Hva Hv Hp. destruct Hva as [Hvr Hvc]. pose proof (to_space _ Hok) as Hsp.
  unfold paging64_unmap, hw_walk. rewrite Hvc.
  assert (forall n, ix n (page_of virt) = ix n virt) as Hix by (intros n; rewrite page_of_eq by exact Hvr; apply ix_round; lia).
  change (PML4_IDX (page_of virt)) with (ix 3 (page_of virt)). change (PDPT_IDX (page_of virt)) with (ix 2 (page_of virt)).
  change (PD_IDX (page_of virt)) with (ix 1 (page_of virt)). change (PT_IDX (page_of virt)) with (ix 0 (page_of virt)).
  rewrite !Hix. change pml4_addr with (table_addr 0 virt). change (pdpt_addr virt) with (table_addr 1 virt).
  change (pd_addr virt) with (table_addr 2 virt). change (pt_addr virt) with (table_addr 3 virt).
  pose proof (fun k t => read_entry s virt k t Hsp) as Hload. pose proof (down_next (mem s) (root_of s) virt) as Hnext.
  change (frame_of (cr3 s)) with (root_of s). cbv zeta.
  rewrite (bind_ok _ _ _ _ _ (Hload 0%nat (root_of s) ltac:(lia) eq_refl)). cbn [walk Nat.sub].
  set (e3 := entry (mem s) (root_of s) (ix 3 virt)).
  destruct (present e3) eqn:P3; cbn [negb]; [|exists PAGING64_NOT_MAPPED, s; split; [reflexivity|by right; left]].
  pose proof (sp_top _ _ Hsp (ix 3 virt) (ix_range 3 virt) P3) as H3. change (huge e3 = false) in H3. rewrite H3.
  pose proof (Hnext 0%nat (root_of s) eq_refl P3 H3) as D1. cbn [Nat.sub] in D1. fold e3 in D1.
  rewrite (bind_ok _ _ _ _ _ (Hload 1%nat _ ltac:(lia) D1)). cbn [Nat.sub].
  set (e2 := entry (mem s) (frame_of e3) (ix 2 virt)).
  destruct (present e2) eqn:P2; cbn [negb]; [|exists PAGING64_NOT_MAPPED, s; split; [reflexivity|by right; left]].
  destruct (huge e2) eqn:H2; [exists PAGING64_HUGE_IN_WAY, s; split; [reflexivity|right; right; split; [reflexivity|split; [by eexists|reflexivity]]]|].
  pose proof (Hnext 1%nat _ D1 P2 H2) as D2. cbn [Nat.sub] in D2. fold e2 in D2.
  rewrite (bind_ok _ _ _ _ _ (Hload 2%nat _ ltac:(lia) D2)). cbn [Nat.sub].
  set (e1 := entry (mem s) (frame_of e2) (ix 1 virt)).
  destruct (present e1) eqn:P1; cbn [negb]; [|exists PAGING64_NOT_MAPPED, s; split; [reflexivity|by right; left]].
  destruct (huge e1) eqn:H1; [exists PAGING64_HUGE_IN_WAY, s; split; [reflexivity|right; right; split; [reflexivity|split; [by eexists|reflexivity]]]|].
  pose proof (Hnext 2%nat _ D2 P1 H1) as D3. cbn [Nat.sub] in D3. fold e1 in D3.
  rewrite (bind_ok _ _ _ _ _ (Hload 3%nat _ ltac:(lia) D3)). cbn [Nat.sub].
  set (e0 := entry (mem s) (frame_of e1) (ix 0 virt)).
  destruct (present e0) eqn:P0; cbn [negb]; [|exists PAGING64_NOT_MAPPED, s; split; [reflexivity|by right; left]].
  rewrite (bind_ok _ _ _ _ _ (store_table s 3 virt _ _ Hsp ltac:(lia) D3 (ix_range 0 virt) 0)).
  eexists _, _. split; [reflexivity|]. left. split; [reflexivity|]. split; [by eexists|].
  exact (remaps_leaf s s virt 0 3 _ Hok (extends_refl s Hok) (conj Hvr Hvc) Hv Hp ltac:(lia) D3 (or_introl eq_refl)).
Qed.

Lemma map_huge_spec s virt phys flags :
  tables_ok s -> va virt -> plain virt -> private (mem s) (root_of s) virt ->
  0 <= phys < 2 ^ 52 -> Z.land flags ADDR_MASK = 0 ->
  exists rc s', paging64_map_huge virt phys flags s = Some (rc, s') /\
    (rc = PAGING64_OK /\ remaps s s' virt 2 (Some (phys / span 1 * span 1))
     \/ (rc = PAGING64_NOMEM \/ rc = PAGING64_HUGE_IN_WAY) /\ extends s s').
Proof.
  intros Hok Hva Hv Hp Hphys Hfl. unfold paging64_map_huge. destruct Hva as [Hvr Hvc].
  assert (forall n, (1 <= n)%nat -> ix n (huge_page_of virt) = ix n virt) as Hix
    by (intros n Hn; rewrite huge_page_of_eq by exact Hvr; apply ix_round; exact Hn).
  change (PML4_IDX (huge_page_of virt)) with (ix 3 (huge_page_of virt)).
  change (PDPT_IDX (huge_page_of virt)) with (ix 2 (huge_page_of virt)).
  change (PD_IDX (huge_page_of virt)) with (ix 1 (huge_page_of virt)).
  rewrite !Hix by lia. rewrite huge_page_of_eq by lia. set (base := phys / span 1 * span 1).
  pose proof (upper_levels s virt flags (
    _ ← store (pd_addr virt + 8 * ix 1 virt) (Z.lor (Z.lor (Z.lor base flags) PAGE64_PRESENT) PAGE64_HUGE);
    mret PAGING64_OK) Hok Hv Hp) as H.
  cbv zeta in *. destruct H as [(rc & s1 & -> & Hrc & X1)|(s2 & -> & X2 & G2 & T & HT)].
  { exists rc, s1. split; [reflexivity|]. right. split; [exact Hrc|exact X1]. }
  pose proof (extends_root _ _ X2) as Hr. pose proof HT as HT'. rewrite <-Hr in HT'.
  set (x := Z.lor (Z.lor (Z.lor base flags) PAGE64_PRESENT) PAGE64_HUGE) in *.
  pose proof (store_table s2 2 virt T (ix 1 virt) (to_space _ (ex_ok _ _ X2)) ltac:(lia) HT' (ix_range 1 virt) x) as Est.
  cbn [table_addr] in Est. rewrite (bind_ok _ _ _ _ _ Est).
  assert (aligned base) as Ha by (apply page_aligned; exact Hphys).
  assert (present x = true /\ huge x = true /\ frame_of x = base) as (Px & Hx & Fx).
  { unfold x. rewrite <-!Z.lor_assoc.
    assert (forall k b, 0 <= k < 12 -> Z.testbit b k = true -> nz (Z.land (Z.lor base b) (Z.shiftl 1 k)) = true) as Hbit.
    { intros k b Hk Hb. rewrite land_bit by (exact Ha || exact Hk). unfold nz. apply negb_true_iff, Z.eqb_neq. intros E.
      apply (f_equal (fun z => Z.testbit z k)) in E. rewrite Z.land_spec, Hb, Z.shiftl_1_l, Z.pow2_bits_true, Z.bits_0 in E by lia. discriminate E. }
    split; [|split].
    - apply (Hbit 0); [lia|]. rewrite !Z.lor_spec. change (Z.testbit PAGE64_PRESENT 0) with true. cbn [orb]. apply orb_true_r.
    - apply (Hbit 7); [lia|]. rewrite !Z.lor_spec. change (Z.testbit PAGE64_HUGE 7) with true. by rewrite !orb_true_r.
    - apply frame_flags; [exact Ha|]. rewrite Z.land_lor_distr_l, Hfl. reflexivity. }
  eexists _, _. split; [reflexivity|]. left. split; [reflexivity|].
  pose proof (remaps_leaf s s2 virt x 2 T Hok X2 (conj Hvr Hvc) Hv Hp ltac:(lia) HT (or_intror Hx)) as Hrm.
  rewrite Px in Hrm. cbn [Nat.sub] in Hrm. unfold page_base in Hrm. rewrite Fx in Hrm.
  unfold base in Hrm. rewrite Z.div_mul in Hrm by (pose proof (span_pos 1); lia). exact Hrm.
Qed.

(** ** The direct map *)

Definition PHYSMAP_MAX : Z := 2 ^ 42.
Definition in_physmap (w : Z) : Prop := PHYSMAP64_BASE <= w < PHYSMAP64_BASE + PHYSMAP_MAX.

Lemma physmap_va w : in_physmap w -> va w /\ plain w.
Proof.
  unfold in_physmap, PHYSMAP64_BASE, PHYSMAP_MAX. intros Hw. split.
  - split; [lia|]. unfold canonical. apply orb_true_iff. right. apply Z.leb_le. lia.
  - unfold plain. rewrite ix_eq. change (span 3) with (2 ^ 39). unfold REC.
    replace w with ((w - 0xFFFF880000000000) + (272 + 65535 * 512) * 2 ^ 39) by lia.
    rewrite Z.div_add by lia.
    assert (0 <= (w - 0xFFFF880000000000) / 2 ^ 39 < 8) as Hq
      by (split; [apply Z.div_pos; lia|apply Z.div_lt_upper_bound; lia]).
    rewrite Z.add_assoc, Z.mod_add, Z.mod_small by lia. lia.
Qed.

(** The first [c] bytes of memory are mapped; all other mappings are those of
    [s0]. *)
Definition direct s0 s (c : Z) : Prop :=
  tables_ok s /\ cr3 s = cr3 s0 /\
  (forall w, va w -> plain w ->
     hw_walk (mem s) (cr3 s) w =
       if (PHYSMAP64_BASE <=? w) && (w <? PHYSMAP64_BASE + c) then Some (w - PHYSMAP64_BASE)
       else hw_walk (mem s0) (cr3 s0) w) /\
  (forall w, in_physmap w -> private (mem s) (root_of s) w).

Lemma direct_extends s0 s s' c : direct s0 s c -> extends s s' -> direct s0 s' c.
Proof.
  intros (D1 & D2 & D3 & D4) E. split; [exact (ex_ok _ _ E)|]. split; [rewrite (ex_cr3 _ _ E); exact D2|]. split.
  - intros w Hw Hp. rewrite (remaps_nothing s s' w E Hp). exact (D3 w Hw Hp).
  - intros w Hw. rewrite (extends_root _ _ E). apply (ex_private _ _ E); [exact (proj2 (physmap_va w Hw))|exact (D4 w Hw)].
Qed.

Lemma direct_field s0 s v c : direct s0 s c -> direct s0 (set_physmap_bytes v s) c.
Proof.
  intros ([S1 S2 S3] & D2 & D3 & D4).
  split; [split; [exact S1|exact S2|exact S3]|]. split; [exact D2|]. split; [exact D3|exact D4].
Qed.

(** The addresses in the block of [S] bytes that begins at [b]. *)
Lemma block_page S b w : 0 < S -> b mod S = 0 ->
  (w / S = b / S <-> b <= w < b + S) /\ (b <= w < b + S -> w mod S = w - b).
Proof.
  intros HS Hb. pose proof (Z.div_mod b S ltac:(lia)) as Hdb. rewrite Hb, Z.add_0_r in Hdb.
  pose proof (Z.div_mod w S ltac:(lia)) as Hdw. pose proof (Z.mod_pos_bound w S HS) as Hm. 
  assert (b <= w < b + S -> w / S = b / S) as Hq
    by (intros Hr; symmetry; apply (Z.div_unique w S (b / S) (w - b)); [left; lia|lia]).
  split; [split; [intros E; rewrite E, <-Hdb in Hdw; lia|exact Hq]|].
  intros Hr. rewrite (Hq Hr), <-Hdb in Hdw. lia.
Qed.

Lemma direct_step s0 s s' c :
  direct s0 s c -> 0 <= c -> c mod HUGE_SIZE = 0 -> c + HUGE_SIZE <= PHYSMAP_MAX ->
  remaps s s' (PHYSMAP64_BASE + c) 2 (Some (c / span 1 * span 1)) -> direct s0 s' (c + HUGE_SIZE).
Proof.
  intros (D1 & D2 & D3 & D4) Hc Hm Hmax (R1 & R2 & _ & R3 & R4 & _).
  split; [exact R1|]. split; [congruence|]. split.
  - intros w Hw Hp. rewrite (R3 w Hw Hp), (D3 w Hw Hp). cbn [Nat.sub]. change (span 1) with HUGE_SIZE.
    assert ((PHYSMAP64_BASE + c) mod HUGE_SIZE = 0) as HmB by (rewrite <-Zplus_mod_idemp_r, Hm; reflexivity).
    destruct (block_page HUGE_SIZE (PHYSMAP64_BASE + c) w ltac:(reflexivity) HmB) as [Hin Hoff].
    assert (c / HUGE_SIZE * HUGE_SIZE = c) as Hcs
      by (pose proof (Z.div_mod c HUGE_SIZE ltac:(discriminate)) as Hdm; rewrite Hm in Hdm; lia).
    assert (0 < HUGE_SIZE) by reflexivity.
    rewrite Hcs. destruct (Z.eqb_spec (w / HUGE_SIZE) ((PHYSMAP64_BASE + c) / HUGE_SIZE)) as [E|E].
    + apply Hin in E. rewrite (proj2 (Z.leb_le _ _)), (proj2 (Z.ltb_lt _ _)) by lia. cbn [andb].
      rewrite (Hoff E). f_equal. lia.
    + destruct (Z.leb_spec PHYSMAP64_BASE w); [|reflexivity]. cbn [andb].
      destruct (Z.ltb_spec w (PHYSMAP64_BASE + (c + HUGE_SIZE))), (Z.ltb_spec w (PHYSMAP64_BASE + c)); try reflexivity; [|lia].
      exfalso. apply E, Hin. lia.
  - intros w Hw. exact (R4 w (proj2 (physmap_va w Hw)) (D4 w Hw)).
Qed.

Lemma physmap_loop_ok n s0 : forall c s,
  direct s0 s c -> 0 <= c -> c mod HUGE_SIZE = 0 -> c + Z.of_nat n * HUGE_SIZE <= PHYSMAP_MAX ->
  exists rc s' c', physmap_loop n c s = Some (rc, s') /\ direct s0 s' c' /\ physmap_bytes s' = c' /\
    (rc = 1 /\ c' = c + Z.of_nat n * HUGE_SIZE \/ rc = 0 /\ c <= c' < c + Z.of_nat n * HUGE_SIZE).
Proof.
  unfold HUGE_SIZE, PHYSMAP_MAX. induction n as [|n IH]; intros c s Hd Hc Hm Hmax; cbn [physmap_loop].
  - eexists 1, _, c. split; [reflexivity|]. split; [apply direct_field; exact Hd|]. split; [reflexivity|]. left. split; [reflexivity|lia].
  - rewrite u64_small by (unfold PHYSMAP64_BASE; lia).
    assert (in_physmap (PHYSMAP64_BASE + c)) as Hin by (unfold in_physmap, PHYSMAP_MAX; lia).
    destruct (physmap_va _ Hin) as [Hva Hpl]. pose proof Hd as (D1 & _ & _ & D4).
    destruct (map_huge_spec s (PHYSMAP64_BASE + c) c (Z.lor PAGE64_PRESENT PAGE64_WRITE) D1 Hva Hpl (D4 _ Hin)) as (rc & s1 & E & H);
      [lia|reflexivity|].
    rewrite (bind_ok _ _ _ _ _ E). destruct H as [[-> R]|[Hrc X]].
    + cbn [Z.eqb negb PAGING64_OK].
      pose proof (direct_step s0 s s1 c Hd Hc Hm ltac:(unfold HUGE_SIZE, PHYSMAP_MAX; lia) R) as Hd1.
      destruct (IH (c + HUGE_SIZE) s1 Hd1) as (rc & s' & c' & E' & H1 & H2 & H3).
      * unfold HUGE_SIZE. lia.
      * unfold HUGE_SIZE. rewrite <-Zplus_mod_idemp_l, Hm. reflexivity.
      * unfold HUGE_SIZE. lia.
      * exists rc, s', c'. split; [exact E'|]. split; [exact H1|]. split; [exact H2|]. unfold HUGE_SIZE in *. lia.
    + assert (negb (rc =? PAGING64_OK) = true) as -> by (destruct Hrc as [-> | ->]; reflexivity).
      eexists 0, _, c. split; [reflexivity|]. split; [apply direct_field, (direct_extends _ _ _ _ Hd X)|]. split; [reflexivity|]. right. lia.
Qed.

(** paging64_physmap_init maps all of memory.  Asked for [bytes], up to the
    4TB the frame allocator can manage, it returns 1 with every byte of them,
    rounded up to a whole 2MB page, readable at its offset from
    PHYSMAP64_BASE - or 0 when a table could not be had, with the bytes below
    paging64_physmap_bytes so mapped; every other address outside the
    self-reference translates as before. *)
Theorem paging64_physmap_covers s bytes :
  tables_ok s -> (forall w, in_physmap w -> private (mem s) (root_of s) w) ->
  0 <= bytes <= PHYSMAP_MAX ->
  exists rc s', paging64_physmap_init bytes s = Some (rc, s') /\ tables_ok s' /\
    (rc = 1 /\ bytes <= physmap_bytes s' < bytes + HUGE_SIZE \/ rc = 0) /\
    0 <= physmap_bytes s' < bytes + HUGE_SIZE /\
    (forall p, 0 <= p < physmap_bytes s' -> hw_walk (mem s') (cr3 s') (PHYSMAP64_BASE + p) = Some p) /\
    (forall w, va w -> plain w -> ~ (PHYSMAP64_BASE <= w < PHYSMAP64_BASE + physmap_bytes s') ->
       hw_walk (mem s') (cr3 s') w = hw_walk (mem s) (cr3 s) w).
Proof.
  intros Hok Hp Hb. unfold paging64_physmap_init.
  rewrite u64_small by (unfold PHYSMAP_MAX, HUGE_SIZE in *; lia).
  change (and_not64 (bytes + HUGE_SIZE - 1) (HUGE_SIZE - 1)) with (huge_page_of (bytes + HUGE_SIZE - 1)).
  rewrite huge_page_of_eq by (unfold PHYSMAP_MAX, HUGE_SIZE in *; lia). change (span 1) with HUGE_SIZE.
  rewrite Z.div_mul by discriminate. set (n := (bytes + HUGE_SIZE - 1) / HUGE_SIZE).
  assert (bytes <= n * HUGE_SIZE < bytes + HUGE_SIZE) as Hn.
  { unfold n, HUGE_SIZE in *. pose proof (Z.div_mod (bytes + 0x200000 - 1) 0x200000 ltac:(lia)).
    pose proof (Z.mod_pos_bound (bytes + 0x200000 - 1) 0x200000 ltac:(lia)). lia. }
  assert (n * HUGE_SIZE <= PHYSMAP_MAX) as Hmax.
  { unfold PHYSMAP_MAX, HUGE_SIZE in *. assert (n < 2 ^ 21 + 1) by lia. lia. }
  assert (0 <= n) as Hn0 by (unfold HUGE_SIZE in *; lia).
  destruct (physmap_loop_ok (Z.to_nat n) s 0 s) as (rc & s' & c' & E & (D1 & D2 & D3 & _) & <- & Hrc).
  - split; [exact Hok|]. split; [reflexivity|]. split; [|exact Hp]. intros w Hw Hpl.
    destruct (Z.leb_spec PHYSMAP64_BASE w), (Z.ltb_spec w (PHYSMAP64_BASE + 0)); try reflexivity. lia.
  - lia.
  - reflexivity.
  - rewrite Z2Nat.id by exact Hn0. lia.
  - rewrite Z2Nat.id in Hrc by exact Hn0. exists rc, s'. split; [exact E|]. split; [exact D1|].
    assert (physmap_bytes s' <= n * HUGE_SIZE /\ 0 <= physmap_bytes s') as Hpb by (unfold HUGE_SIZE in *; lia).
    split; [destruct Hrc as [[-> ->]|[-> _]]; [left; split; [reflexivity|lia]|by right]|]. split; [lia|]. split.
    + intros p Hpr. assert (in_physmap (PHYSMAP64_BASE + p)) as Hin by (unfold in_physmap; lia).
      destruct (physmap_va _ Hin) as [H1 H2]. rewrite (D3 _ H1 H2).
      rewrite (proj2 (Z.leb_le _ _)), (proj2 (Z.ltb_lt _ _)) by lia. cbn [andb]. f_equal. lia.
    + intros w Hw Hpl Hout. rewrite (D3 w Hw Hpl).
      destruct (Z.leb_spec PHYSMAP64_BASE w), (Z.ltb_spec w (PHYSMAP64_BASE + physmap_bytes s')); try reflexivity. lia.
Qed.
End mapping.

(** ** Starting

    The kernel's window at KERNEL_VMA must show the PML4, which the boot code
    put below 1GB. *)

(** paging64_init makes the space edit itself: reached through the window the
    boot code mapped, the PML4 gets its own address in slot 510 and no other
    entry of any table changes; from then on the recursive addresses work. *)
Theorem paging64_init_self_reference {A} s :
  let root := root_of s in
  hw_walk (mem s) (cr3 s) (KERNEL_VMA + root + 8 * REC) = Some (root + 8 * REC) ->
  (forall i, 0 <= i < 512 -> i <> REC -> present (entry (mem s) root i) = true -> huge (entry (mem s) root i) = false) ->
  exists s', paging64_init (A := A) s = Some (tt, s') /\ space_ok (mem s') (cr3 s') /\ root_of s' = root /\
    tables_allocated s' = 0 /\
    (forall t i, aligned t -> 0 <= i < 512 -> t <> root \/ i <> REC -> entry (mem s') t i = entry (mem s) t i).
Proof.
  cbv zeta. intros Hw Htop. pose proof (root_aligned s) as Hr.
  unfold paging64_init. change (Z.land (cr3 s) ADDR_MASK) with (root_of s).
  set (x := Z.lor (Z.lor (root_of s) PAGE64_PRESENT) PAGE64_WRITE).
  assert (store (KERNEL_VMA + root_of s + 8 * REC) x s = Some (tt, set_mem (<[root_of s + 8 * REC := x]> (mem s)) s)) as Hst
    by (unfold store; by rewrite Hw).
  rewrite (bind_ok _ _ _ _ _ Hst). eexists. split; [reflexivity|].
  assert (0 <= REC < 512) as Hrec by (unfold REC; lia).
  set (m' := <[root_of s + 8 * REC := x]> (mem s)).
  assert (forall t i, aligned t -> 0 <= i < 512 -> entry m' t i = if (root_of s =? t) && (REC =? i) then x else entry (mem s) t i) as Hm
    by (intros t i Ht Hi; apply entry_insert; assumption).
  assert (frame_of (root_of s) = root_of s) as Hrr by (symmetry; exact Hr).
  split; [|split; [exact Hrr|split; [reflexivity|]]].
  - split; cbn [mem cr3 set_mem set_cr3 set_tables_allocated]; fold m'; rewrite Hrr.
    + rewrite Hm, !Z.eqb_refl by assumption. cbn [andb]. unfold x.
      pose proof (table_entry_sig (root_of s) 0 Hr) as (P1 & P2 & P3). unfold table_entry in *. rewrite Z.land_0_l, Z.lor_0_r in *.
      split; [|split].
      * rewrite P1. unfold present, PAGE64_PRESENT. rewrite land_bit by (exact Hr || lia). reflexivity.
      * rewrite P2. unfold huge, PAGE64_HUGE. rewrite land_bit by (exact Hr || lia). reflexivity.
      * rewrite P3. symmetry. apply frame_flags; [exact Hr|reflexivity].
    + intros i Hi. rewrite Hm by assumption. rewrite Z.eqb_refl. cbn [andb]. destruct (Z.eqb_spec REC i) as [<-|Hne].
      * intros _. pose proof (table_entry_sig (root_of s) 0 Hr) as (_ & P2 & _). unfold table_entry in P2. rewrite Z.land_0_l, Z.lor_0_r in P2. exact P2.
      * apply Htop; [exact Hi|congruence].
  - intros t i Ht Hi Hne. cbn [mem set_mem set_cr3 set_tables_allocated]. fold m'. rewrite Hm by assumption.
    destruct (Z.eqb_spec (root_of s) t) as [<-|]; [|reflexivity]. destruct (Z.eqb_spec REC i) as [<-|]; [|reflexivity]. destruct Hne; congruence.
Qed.

(** ** A fresh space, for the witnesses

    The real allocator's small machine, and a PML4 at frame 1 with nothing but
    its self-reference. *)

From S2P Require Import Pmm64.

Definition demo_root : Z := 0x1000.
Definition demo_machine : machine := {|
  mem := {[ demo_root + 8 * REC := Z.lor demo_root 3 ]};
  cr3 := demo_root; tables_allocated := 0; physmap_bytes := 0; frames := demo_pmm
|}.

Lemma demo_entry t i : aligned t -> 0 <= i < 512 -> t <> demo_root \/ i <> REC -> entry (mem demo_machine) t i = 0.
Proof.
  intros Ht Hi Hne. unfold entry, rd. cbn [mem demo_machine].
  rewrite lookup_singleton_ne; [reflexivity|]. intros E.
  assert (aligned demo_root) as Hr by reflexivity.
  destruct (slot_inj demo_root REC t i Hr Ht ltac:(unfold REC; lia) Hi E) as [E1 E2]. destruct Hne; congruence.
Qed.

Lemma demo_down k w t : plain w -> down (mem demo_machine) k 3 (root_of demo_machine) w = Some t -> k = 0%nat /\ t = demo_root.
Proof.
  intros Hw. change (root_of demo_machine) with demo_root. destruct k as [|k]; [intros H; injection H as H; split; [reflexivity|symmetry; exact H]|].
  cbn [down]. rewrite demo_entry; [discriminate|reflexivity|apply ix_range|right; exact Hw].
Qed.

Lemma demo_space : space_ok (mem demo_machine) (cr3 demo_machine).
Proof.
  split; [repeat split|]. intros i Hi. destruct (decide (i = REC)) as [->|Hne]; [reflexivity|].
  rewrite demo_entry; [discriminate|reflexivity|exact Hi|by right].
Qed.

Lemma demo_tables : tables_ok demo_machine /\ forall w, plain w -> private (mem demo_machine) (root_of demo_machine) w.
Proof.
  split; [split; [exact demo_space|exact demo_pmm_ready|]|].
  - intros t (w & k & Hw & _ & Hd) _. destruct (demo_down k w t Hw Hd) as [_ ->]. vm_compute. reflexivity.
  - intros w Hw k j t v _ _ Hv Hd Hd'. destruct (demo_down k w t Hw Hd) as [-> _]. destruct (demo_down j v t Hv Hd') as [-> _].
    split; [reflexivity|]. intros n Hn. lia.
Qed.

Lemma paging64_translate_is_hw_walk_witness :
  va pml4_addr /\ paging64_translate pml4_addr demo_machine = Some ((PAGING64_OK, Some demo_root), demo_machine).
Proof.
  assert (va pml4_addr) as Hv by (split; [vm_compute; split; [discriminate|reflexivity]|reflexivity]).
  split; [exact Hv|]. rewrite (paging64_translate_is_hw_walk demo_machine pml4_addr demo_space Hv). vm_compute. reflexivity.
Defined.

Lemma paging64_map_adds_one_witness :
  exists rc s', paging64_map 0x400000 0x123000 (Z.lor PAGE64_WRITE PAGE64_USER) demo_machine = Some (rc, s') /\
    (rc = PAGING64_OK -> hw_walk (mem s') (cr3 s') 0x400000 = Some 0x123000).
Proof.
  destruct demo_tables as [Hok Hp].
  assert (plain 0x400000) as Hpl by (vm_compute; discriminate).
  assert (va 0x400000) as Hv by (split; [lia|reflexivity]).
  destruct (paging64_map_adds_one demo_machine 0x400000 0x123000 (Z.lor PAGE64_WRITE PAGE64_USER) Hok Hv Hpl (Hp _ Hpl) ltac:(lia) eq_refl)
    as (rc & s' & E & H).
  exists rc, s'. split; [exact E|]. intros ->. destruct H as [(_ & R & _)|[[H|H] _]]; [|discriminate H|discriminate H].
  destruct R as (_ & _ & _ & R & _). rewrite (R _ Hv Hpl). reflexivity.
Defined.

Lemma paging64_unmap_removes_one_witness :
  exists rc s', paging64_unmap 0x400000 demo_machine = Some (rc, s') /\ rc = PAGING64_NOT_MAPPED.
Proof.
  destruct demo_tables as [Hok Hp].
  assert (plain 0x400000) as Hpl by (vm_compute; discriminate).
  assert (va 0x400000) as Hv by (split; [lia|reflexivity]).
  assert (hw_walk (mem demo_machine) (cr3 demo_machine) 0x400000 = None) as Hn by (vm_compute; reflexivity).
  destruct (paging64_unmap_removes_one demo_machine 0x400000 Hok Hv Hpl (Hp _ Hpl)) as (rc & s' & E & H).
  exists rc, s'. split; [exact E|]. destruct H as [(_ & H & _)|[(H & _)|(_ & H & _)]].
  - rewrite Hn in H. destruct H as [x Hx]. discriminate Hx.
  - exact H.
  - rewrite Hn in H. destruct H as [x Hx]. discriminate Hx.
Defined.

Lemma paging64_physmap_covers_witness :
  exists rc s', paging64_physmap_init 0x200000 demo_machine = Some (rc, s') /\ tables_ok s'.
Proof.
  destruct demo_tables as [Hok Hp].
  destruct (paging64_physmap_covers demo_machine 0x200000 Hok (fun w Hw => Hp w (proj2 (physmap_va w Hw))) ltac:(unfold PHYSMAP_MAX; lia))
    as (rc & s' & E & H & _).
  exists rc, s'. split; [exact E|exact H].
Defined.

(** The boot code's tables: the first 2MB at KERNEL_VMA. *)
Definition boot_machine : machine := {|
  mem := <[0x1000 + 8 * 511 := 0x2003]> (<[0x2000 + 8 * 510 := 0x3003]> (<[0x3000 := 0x83]> ∅));
  cr3 := demo_root; tables_allocated := 0; physmap_bytes := 0; frames := demo_pmm
|}.

Lemma paging64_init_self_reference_witness :
  exists s', paging64_init boot_machine = Some (tt, s') /\ space_ok (mem s') (cr3 s').
Proof.
  destruct (paging64_init_self_reference boot_machine) as (s' & E & H & _).
  - vm_compute. reflexivity.
  - intros i Hi Hne. change (root_of boot_machine) with 0x1000. unfold entry, boot_machine. cbn [mem].
    rewrite !rd_insert. destruct (Z.eqb_spec (0x1000 + 8 * 511) (0x1000 + 8 * i)); [reflexivity|].
    destruct (Z.eqb_spec (0x2000 + 8 * 510) (0x1000 + 8 * i)); [lia|].
    destruct (Z.eqb_spec 0x3000 (0x1000 + 8 * i)); [lia|]. discriminate.
  - exists s'. split; [exact E|exact H].
Defined.
