(* ===== verification/Udphost.v ===== *)
(** * The stack as its clients see it ([net_poll] of [kernel/net.c])

    [Tcp] over [Net] over a card is the machine's network stack: one state,
    with [net_poll] turning the crank for both layers.  The programs of the
    kernel that talk UDP ([dhcp.c], [dns.c]) need little of it, and that is
    the interface [UdpHost]: ports, datagrams, the configuration, the clock
    and the crank, with the laws those programs rely on.  [stack_udp_host]
    discharges the laws for the stack itself. *)

From S2P Require Import Prelude Ring Netwire Net Tcp.

(** ** The interface *)

Class UdpHost (S : Type) := {
  host_mac : S -> option (list Z);            (* the card, if there is one *)
  host_config : S -> net_config;
  host_now : S -> Z;                          (* [pit_get_ticks()] *)
  host_bound : Z -> S -> bool;
  host_at : Z -> S -> S;                      (* time has passed *)
  host_poll : list (list Z) -> S -> S;        (* [net_poll], these frames waiting *)
  host_bind : Z -> S -> bool * S;
  host_unbind : Z -> S -> S;
  host_recv : Z -> S -> option udp_datagram * S;
  host_send : Z -> Z -> Z -> list Z -> S -> Z * S;
  host_set_config : Z -> Z -> Z -> Z -> S -> S;
  host_ok : S -> Prop
}.

(** Nothing a client of UDP looks at has changed: the configuration, who is
    bound, the card. *)
Definition undisturbed {S} `{!UdpHost S} (s s' : S) : Prop :=
  host_config s' = host_config s /\ (forall p, host_bound p s' = host_bound p s) /\
  host_mac s' = host_mac s /\ (host_ok s -> host_ok s').

Class UdpHostLaws (S : Type) `{!UdpHost S} := {
  host_at_keeps t s : undisturbed s (host_at t s);
  host_poll_keeps fs s : undisturbed s (host_poll fs s);
  host_recv_keeps p s : undisturbed s (snd (host_recv p s));
  host_send_keeps d sp dp l s : undisturbed s (snd (host_send d sp dp l s));
  host_bind_spec p s : host_ok s -> let '(ok, s') := host_bind p s in
    host_config s' = host_config s /\ host_mac s' = host_mac s /\ host_ok s' /\
    forall q, host_bound q s' = host_bound q s || (ok && (q =? p));
  host_unbind_spec p s : host_ok s ->
    host_config (host_unbind p s) = host_config s /\ host_mac (host_unbind p s) = host_mac s /\
    host_ok (host_unbind p s) /\
    forall q, host_bound q (host_unbind p s) = host_bound q s && negb (q =? p);
  host_set_config_spec i m g d s :
    host_config (host_set_config i m g d s) = mkConfig i m g d (nz i) /\
    host_mac (host_set_config i m g d s) = host_mac s /\
    (host_ok s -> host_ok (host_set_config i m g d s)) /\
    forall q, host_bound q (host_set_config i m g d s) = host_bound q s;
  host_at_now t s : host_now (host_at t s) = t;
  host_poll_now fs s : host_now (host_poll fs s) = host_now s;
  host_recv_now p s : host_now (snd (host_recv p s)) = host_now s;
  host_send_now d sp dp l s : host_now (snd (host_send d sp dp l s)) = host_now s;
  host_bind_now p s : host_now (snd (host_bind p s)) = host_now s;
  host_set_config_now i m g d s : host_now (host_set_config i m g d s) = host_now s
}.

Lemma undisturbed_refl {S} `{!UdpHost S} (s : S) : undisturbed s s.
Proof. done. Qed.

Lemma undisturbed_trans {S} `{!UdpHost S} (a b c : S) :
  undisturbed a b -> undisturbed b c -> undisturbed a c.
Proof.
  intros (A1 & A2 & A3 & A4) (B1 & B2 & B3 & B4).
  split; [congruence|]. split; [intros p; by rewrite B2, A2|]. split; [congruence|]. auto.
Qed.

(** ** Waiting

    A loop that waits reads the clock, turns the crank and looks again.  What
    it finds is a list of polls, one for each time round: the clock at the
    test and the frames that have arrived by then.  A wait that comes to the
    end of the list is still waiting. *)

Definition polls : Type := list (Z * list (list Z)).

(** The clock goes forward, never by more than [gap] from one test to the next. *)
Fixpoint clock_ok (gap now : Z) (env : polls) : Prop :=
  match env with
  | [] => True
  | (t, _) :: env' => now <= t <= now + gap /\ clock_ok gap t env'
  end.

Fixpoint last_tick (now : Z) (env : polls) : Z :=
  match env with
  | [] => now
  | (t, _) :: env' => last_tick t env'
  end.

Lemma last_tick_ge gap now env : clock_ok gap now env -> now <= last_tick now env.
Proof.
  revert now. induction env as [|[t fs] env IH]; intros now; simpl; [lia|].
  intros [? Hc]. specialize (IH t Hc). lia.
Qed.

(** ** What passes through the stack *)

(** A client's dealings with its host, in the order they happened. *)
Inductive udp_event :=
  | Sent (dest sport dport : Z) (data : list Z)
  | Took (port : Z) (g : udp_datagram).

(** One dealing that leaves the configuration and the ports alone. *)
Inductive host_step {S} `{!UdpHost S} : S -> list udp_event -> S -> Prop :=
  | hs_at t s : host_step s [] (host_at t s)
  | hs_poll fs s : host_step s [] (host_poll fs s)
  | hs_empty p s s' : host_recv p s = (None, s') -> host_step s [] s'
  | hs_took p g s s' : host_recv p s = (Some g, s') -> host_step s [Took p g] s'
  | hs_sent d sp dp l r s s' : host_send d sp dp l s = (r, s') -> host_step s [Sent d sp dp l] s'.

(** Any number of them, with the events of all. *)
Inductive host_run {S} `{!UdpHost S} : S -> list udp_event -> S -> Prop :=
  | hr_nil s : host_run s [] s
  | hr_cons s ev s1 evs s2 : host_step s ev s1 -> host_run s1 evs s2 -> host_run s (ev ++ evs) s2.

Section runs.
  Context {S : Type} `{!UdpHost S, !UdpHostLaws S}.
  Implicit Types s : S.

Lemma host_step_keeps s ev s' : host_step s ev s' -> undisturbed s s'.
Proof.
  destruct 1 as [t s|fs s|p s s' H|p g s s' H|d sp dp l r s s' H].
  - apply host_at_keeps.
  - apply host_poll_keeps.
  - pose proof (host_recv_keeps p s) as Hk. by rewrite H in Hk.
  - pose proof (host_recv_keeps p s) as Hk. by rewrite H in Hk.
  - pose proof (host_send_keeps d sp dp l s) as Hk. by rewrite H in Hk.
Qed.

Lemma host_run_keeps s evs s' : host_run s evs s' -> undisturbed s s'.
Proof.
  induction 1 as [|s ev s1 evs s2 H _ IH]; [apply undisturbed_refl|].
  eapply undisturbed_trans; [eapply host_step_keeps, H|exact IH].
Qed.

Lemma host_run_app s e1 s1 e2 s2 :
  host_run s e1 s1 -> host_run s1 e2 s2 -> host_run s (e1 ++ e2) s2.
Proof.
  induction 1 as [|s ev s' evs s1 H _ IH]; [done|]. intros H2. rewrite <-app_assoc.
  econstructor; [exact H|by apply IH].
Qed.

Lemma host_run_one s ev s' : host_step s ev s' -> host_run s ev s'.
Proof. intros H. rewrite <-(app_nil_r ev). econstructor; [exact H|constructor]. Qed.

(** One turn of a waiting loop: the clock, the crank, a look at the port. *)
Lemma turn_run p now frames s g s2 :
  host_recv p (host_poll frames (host_at now s)) = (g, s2) ->
  host_run s (match g with Some d => [Took p d] | None => [] end) s2 /\ host_now s2 = now.
Proof.
  intros H. split.
  - apply (host_run_app _ [] (host_at now s)); [apply host_run_one, hs_at|].
    apply (host_run_app _ [] (host_poll frames (host_at now s))); [apply host_run_one, hs_poll|].
    apply host_run_one. destruct g; [by apply hs_took|by eapply hs_empty].
  - rewrite <-(host_at_now now s), <-(host_poll_now frames (host_at now s)).
    rewrite <-(host_recv_now p (host_poll _ _)), H. done.
Qed.
End runs.

(** ** What TCP does to the layer below: it sends *)

Section tcp_sends.
  Context {N : Type} `{!IpLayer N} (P : N -> Prop).
  Hypothesis Hsend : forall d p l n, P n -> P (snd (ip_send d p l n)).
  Implicit Types s : tcp N.

Lemma send_segment_below i fl sq l s : P (net_of s) -> P (net_of (snd (send_segment i fl sq l s))).
Proof.
  intros H. unfold send_segment. destruct (TCP_MSS <? zlen l); [done|]. cbn [net_of put set_conns].
  match goal with |- context [ip_send ?d ?p ?g ?n] => pose proof (Hsend d p g n H) as Hs end.
  destruct (ip_send _ _ _ _) as [r n]. exact Hs.
Qed.

Lemma send_tracked_below i fl l s : P (net_of s) -> P (net_of (snd (send_tracked i fl l s))).
Proof.
  intros H. unfold send_tracked.
  match goal with |- context [send_segment ?i ?f ?q ?l ?t] =>
    pose proof (send_segment_below i f q l t H) as Hs end.
  destruct (send_segment _ _ _ _ _) as [r t]. exact Hs.
Qed.

Lemma tcp_receive_below src dst l s : P (net_of s) -> P (net_of (tcp_receive src dst l s)).
Proof.
  intros H. unfold tcp_receive. destruct (parse_segment src dst l) as [g|]; [|done]. unfold tcp_input.
  destruct (find_conn _ _ _ s) as [i|].
  { destruct (conn_receive _ _ _) as [c got]. exact H. }
  set (refuse := if has (sg_flags g) TCP_RST then s else _).
  assert (P (net_of refuse)) as Hr.
  { unfold refuse. destruct (has _ _); [done|]. unfold send_reset.
    match goal with |- context [ip_send ?d ?p ?g ?n] => pose proof (Hsend d p g n H) as Hs end.
    destruct (ip_send _ _ _ _) as [r n]. exact Hs. }
  destruct (_ && _); [|exact Hr]. unfold accept_syn. destruct (free_conn s) as [i|]; [|exact Hr].
  by apply send_tracked_below.
Qed.

Lemma tick_conn_below now i s : P (net_of s) -> P (net_of (tick_conn now i s)).
Proof.
  intros H. unfold tick_conn. destruct (in_use _); [cbn [negb]|done]. destruct (_ || _); [done|].
  assert (P (net_of (tick_ack i s))) as Ha.
  { unfold tick_ack. destruct (ack_pending _); [|done]. unfold send_ack.
    match goal with |- context [send_segment ?i ?f ?q ?l ?t] =>
      pose proof (send_segment_below i f q l t H) as Hs end.
    destruct (send_segment _ _ _ _ _) as [r t]. destruct (r =? 0); exact Hs. }
  generalize (tick_ack i s), Ha. intros t Ht. unfold tick_retransmit.
  destruct (_ && _); [done|]. destruct (_ <? _); [done|]. destruct (_ <? _); [done|].
  match goal with |- context [send_segment ?i ?f ?q ?l ?t] =>
    pose proof (send_segment_below i f q l t Ht) as Hs end.
  destruct (send_segment _ _ _ _ _) as [r u]. exact Hs.
Qed.

Lemma tcp_tick_below s : P (net_of s) -> P (net_of (tcp_tick s)).
Proof.
  intros H. unfold tcp_tick. apply (for_up_ind (fun _ t => P (net_of t))); [exact H|].
  intros k t _ Ht. by apply tick_conn_below.
Qed.
End tcp_sends.

(** ** The stack *)

Section stack.
  Context {D : Type} `{!NetDevice D}.
  Implicit Types n : net D.

(** Who is bound where: what [find_port] looks at. *)
Definition bindings n : list (Z * bool) := (fun p => (u_port p, u_bound p)) <$> udp_ports n.
Definition net_mac n : option (list Z) := nd_mac <$> n_dev n.

(** What sending and receiving leave alone. *)
Definition net_keeps n n' : Prop :=
  config n' = config n /\ ticks n' = ticks n /\ bindings n' = bindings n /\ net_mac n' = net_mac n.

Lemma net_keeps_refl n : net_keeps n n.
Proof. done. Qed.

Lemma net_keeps_trans a b c : net_keeps a b -> net_keeps b c -> net_keeps a c.
Proof. unfold net_keeps. intuition congruence. Qed.

Lemma find_port_bindings port n n' :
  bindings n' = bindings n -> find_port port n' = find_port port n.
Proof.
  intros Hb. apply find_up_ext. intros j _. unfold zget. rewrite !list_lookup_total_alt.
  pose proof (f_equal (fun l => l !! Z.to_nat j) Hb) as Hj. unfold bindings in Hj.
  cbv beta in Hj. rewrite !list_lookup_fmap in Hj.
  destruct (udp_ports n' !! _), (udp_ports n !! _); simpl in *; try discriminate; [|reflexivity].
  apply (inj Some), pair_equal_spec in Hj as [-> ->]. reflexivity.
Qed.

Lemma bindings_set_port i p n :
  (u_port p, u_bound p) = (u_port (zget (udp_ports n) i), u_bound (zget (udp_ports n) i)) ->
  bindings (set_port i p n) = bindings n.
Proof.
  intros Hp. unfold bindings, set_port. cbn [udp_ports set_udp_ports]. unfold zset.
  rewrite list_fmap_insert, Hp. apply list_insert_id'. intros Hl.
  rewrite list_lookup_fmap. rewrite length_fmap in Hl.
  unfold zget. destruct (lookup_lt_is_Some_2 _ _ Hl) as [x Hx].
  by rewrite (list_lookup_total_correct _ _ _ Hx), Hx.
Qed.

Lemma eth_send_keeps dst ty l n : net_keeps n (snd (eth_send dst ty l n)).
Proof.
  unfold eth_send. destruct (n_dev n) as [d|] eqn:Hd; [|done].
  destruct (nd_can_send d); [cbn [negb]|done]. destruct (ETH_MTU <? zlen l); [done|].
  destruct (hw_send _ _) as [r hw]. destruct (r =? 0); repeat split; unfold net_mac; simpl; by rewrite Hd.
Qed.

Lemma arp_request_keeps ip n : net_keeps n (arp_request ip n).
Proof.
  unfold arp_request. set (a := arp_packet _ _ _ _ _).
  pose proof (eth_send_keeps broadcast_mac ETH_P_ARP a n) as H. by destruct (eth_send _ _ _ n).
Qed.

Lemma net_arp_lookup_keeps ip n : net_keeps n (snd (net_arp_lookup ip n)).
Proof.
  unfold net_arp_lookup, arp_find. destruct (find_up _ _ _); [destruct (ARP_TTL_TICKS <? _)|]; try done;
    cbn [snd n_dev set_arp_cache]; (destruct (n_dev n); [|done]);
    [eapply net_keeps_trans; [|apply arp_request_keeps]; done|apply arp_request_keeps].
Qed.

Lemma next_hop_mac_keeps dest n : net_keeps n (snd (next_hop_mac dest n)).
Proof.
  unfold next_hop_mac. destruct (_ || _); [done|]. destruct (_ && _); [|apply net_arp_lookup_keeps].
  destruct (_ =? 0); [done|apply net_arp_lookup_keeps].
Qed.

Lemma net_send_ip_keeps dest pr l n : net_keeps n (snd (net_send_ip dest pr l n)).
Proof.
  unfold net_send_ip. destruct (n_dev n); [|done]. destruct (ETH_MTU <? _); [done|].
  pose proof (next_hop_mac_keeps dest n) as Hk. destruct (next_hop_mac dest n) as [[m|] n1]; [|done].
  cbn [snd] in Hk. set (pk := ip_header _ _ _ _ _ _ ++ l).
  pose proof (eth_send_keeps m ETH_P_IP pk (set_ip_id (u16 (ip_id n1 + 1)) n1)) as He.
  destruct (eth_send _ _ _ _) as [r n2]. cbn [snd] in *.
  destruct (r =? 0); (eapply net_keeps_trans; [exact Hk|exact He]).
Qed.

Lemma net_send_udp_keeps dest sp dp l n : net_keeps n (snd (net_send_udp dest sp dp l n)).
Proof. unfold net_send_udp. destruct (_ <? _); [done|apply net_send_ip_keeps]. Qed.

Lemma udp_deliver_keeps src sp dp l n : net_keeps n (udp_deliver src sp dp l n).
Proof.
  unfold udp_deliver. destruct (find_port dp n); [|done]. destruct (_ =? _); [done|].
  repeat split. by apply bindings_set_port.
Qed.

Lemma icmp_receive_keeps src l n : net_keeps n (icmp_receive src l n).
Proof.
  unfold icmp_receive. destruct (_ <? 8); [done|]. destruct (_ =? 0); [done|].
  destruct (_ =? 8); [|done]. destruct (_ <? _); [done|apply net_send_ip_keeps].
Qed.

Lemma arp_receive_keeps l n : net_keeps n (arp_receive l n).
Proof.
  unfold arp_receive. destruct (_ <? 28); [done|]. destruct (_ || _); [done|].
  set (n1 := if nz _ then _ else _). assert (net_keeps n n1) as H1 by (unfold n1; by destruct (nz _)).
  clearbody n1. destruct (_ && _); [|done].
  pose proof (eth_send_keeps (zslice 8 ETH_ALEN l) ETH_P_ARP (arp_packet 2 (dev_mac n1)
    (htonl (c_ip (config n1))) (zslice 8 ETH_ALEN l) (rd32 l 14)) n1) as H2.
  destruct (eth_send _ _ _ _) as [r n2]. eapply net_keeps_trans; [exact H1|exact H2].
Qed.

Lemma net_keeps_count n n' f g : net_keeps n n' -> net_keeps (count f g n) n'.
Proof. done. Qed.

Lemma net_keeps_count' n f g : net_keeps n (count f g n).
Proof. done. Qed.

#[local] Hint Resolve net_keeps_refl net_keeps_count' icmp_receive_keeps udp_deliver_keeps
  arp_receive_keeps : novaris.

Lemma ip_receive_keeps l n : net_keeps n (fst (ip_receive l n)).
Proof.
  unfold ip_receive.
  repeat match goal with
  | |- net_keeps _ (fst (if ?b then _ else _)) => destruct b
  end; cbn [fst]; auto with novaris; (eapply net_keeps_trans; [apply net_keeps_count'|]; auto with novaris).
Qed.

Lemma netdev_receive_keeps frame n : net_keeps n (fst (netdev_receive frame n)).
Proof.
  unfold netdev_receive. destruct (n_dev n) as [d|] eqn:Hd; [|done]. destruct (_ <? _); [done|].
  match goal with |- context [set_n_dev (Some ?x) n] => set (n1 := count rx_frames set_rx_frames (set_n_dev (Some x) n)) end.
  assert (net_keeps n n1) as H1.
  { repeat split. unfold n1, net_mac. cbn. by rewrite Hd. }
  clearbody n1. destruct (_ =? _); [|destruct (_ =? _)]; cbn [fst]; eapply net_keeps_trans; try exact H1.
  - apply (net_keeps_trans _ (count rx_arp set_rx_arp n1)); auto with novaris.
  - apply (net_keeps_trans _ (count rx_ip set_rx_ip n1)); [done|apply ip_receive_keeps].
  - done.
Qed.

(** The layer TCP stands on. *)
#[export] Instance net_ip_layer : IpLayer (net D).
Proof.
  refine {| ip_send := net_send_ip; local_ip := fun n => c_ip (config n);
            ip_configured := fun n => c_configured (config n); pit_ticks := ticks |}.
  intros d p l n. destruct (net_send_ip_keeps d p l n) as (-> & -> & _). done.
Defined.

Abbreviation stack := (tcp (net D)).

(** A frame in: [netdev_receive], and [tcp_input] called back from it. *)
Definition deliver (frame : list Z) (s : stack) : stack :=
  let '(n, up) := netdev_receive frame (net_of s) in
  let s := set_net_of n s in
  match up with
  | Some (src, dest, segment) => tcp_receive src dest segment s
  | None => s
  end.

(** [rtl8139_poll()] hands over the frames waiting in the card. *)
Definition net_poll (frames : list (list Z)) (s : stack) : stack :=
  tcp_tick (foldl (fun s f => deliver f s) s frames).

Definition below (f : net D -> net D) (s : stack) : stack := set_net_of (f (net_of s)) s.

(** No number is bound twice. *)
Definition bound_once (n : net D) : Prop :=
  zlen (udp_ports n) = UDP_PORTS /\
  forall i j, 0 <= i < UDP_PORTS -> 0 <= j < UDP_PORTS ->
    u_bound (zget (udp_ports n) i) = true -> u_bound (zget (udp_ports n) j) = true ->
    u_port (zget (udp_ports n) i) = u_port (zget (udp_ports n) j) -> i = j.

#[export] Instance stack_host : UdpHost stack := {|
  host_mac s := net_mac (net_of s);
  host_config s := config (net_of s);
  host_now s := ticks (net_of s);
  host_bound p s := match find_port p (net_of s) with Some _ => true | None => false end;
  host_at t := below (set_ticks t);
  host_poll := net_poll;
  host_bind p s := let '(ok, n) := net_udp_bind p (net_of s) in (ok, set_net_of n s);
  host_unbind p := below (net_udp_unbind p);
  host_recv p s := let '(g, n) := net_udp_recv p (net_of s) in (g, set_net_of n s);
  host_send d sp dp l s := let '(r, n) := net_send_udp d sp dp l (net_of s) in (r, set_net_of n s);
  host_set_config i m g d := below (net_set_config i m g d);
  host_ok s := bound_once (net_of s)
|}.

(** ** The laws hold of it *)

Lemma bound_once_bindings n n' :
  bindings n' = bindings n -> bound_once n -> bound_once n'.
Proof.
  intros Hb [Hl Hu]. pose proof (f_equal length Hb) as Hlen. unfold bindings in Hlen.
  rewrite !length_fmap in Hlen. split; [unfold zlen in *; by rewrite Hlen|].
  assert (forall j, 0 <= j < UDP_PORTS -> u_port (zget (udp_ports n') j) = u_port (zget (udp_ports n) j) /\
    u_bound (zget (udp_ports n') j) = u_bound (zget (udp_ports n) j)) as Hj.
  { intros j Hj. unfold zget. rewrite !list_lookup_total_alt.
    pose proof (f_equal (fun l => l !! Z.to_nat j) Hb) as He. unfold bindings in He.
    cbv beta in He. rewrite !list_lookup_fmap in He.
    destruct (udp_ports n' !! _), (udp_ports n !! _); simpl in *; try discriminate; [|done].
    apply (inj Some), pair_equal_spec in He as [-> ->]. done. }
  intros i j Hi Hj'. destruct (Hj i Hi) as [-> ->], (Hj j Hj') as [-> ->]. by apply Hu.
Qed.

Lemma keeps_undisturbed (s s' : stack) : net_keeps (net_of s) (net_of s') -> undisturbed s s'.
Proof.
  intros (Hc & _ & Hb & Hm). split; [done|]. split; [|split; [done|]].
  - intros p. simpl. by rewrite (find_port_bindings p _ _ Hb).
  - apply bound_once_bindings, Hb.
Qed.

Lemma deliver_keeps frame s : net_keeps (net_of s) (net_of (deliver frame s)).
Proof.
  unfold deliver. pose proof (netdev_receive_keeps frame (net_of s)) as Hk.
  destruct (netdev_receive frame (net_of s)) as [n [[[src dst] g]|]]; cbn [fst] in Hk; [|exact Hk].
  apply (tcp_receive_below (net_keeps (net_of s))); [|exact Hk].
  intros d p l m Hm. eapply net_keeps_trans; [exact Hm|apply net_send_ip_keeps].
Qed.

Lemma net_poll_keeps frames s : net_keeps (net_of s) (net_of (net_poll frames s)).
Proof.
  unfold net_poll. apply (tcp_tick_below (net_keeps (net_of s))).
  { intros d p l m Hm. eapply net_keeps_trans; [exact Hm|apply net_send_ip_keeps]. }
  generalize (net_keeps_refl (net_of s)). generalize s at 2 4. induction frames as [|f l IH]; intros t Ht; [exact Ht|].
  apply IH. eapply net_keeps_trans; [exact Ht|apply deliver_keeps].
Qed.

Lemma net_udp_recv_keeps p n : net_keeps n (snd (net_udp_recv p n)).
Proof.
  unfold net_udp_recv. destruct (find_port p n); [|done]. destruct (_ =? _); [done|].
  repeat split. by apply bindings_set_port.
Qed.

(** The search finds the port, and only a search for another misses it. *)
Lemma find_port_None p n :
  find_port p n = None <->
  forall i, 0 <= i < UDP_PORTS -> u_bound (zget (udp_ports n) i) = true -> u_port (zget (udp_ports n) i) <> p.
Proof.
  unfold find_port. rewrite find_up_None. unfold UDP_PORTS. split.
  - intros H i Hi Hb Hp. specialize (H i ltac:(lia)). by rewrite Hb, Hp, Z.eqb_refl in H.
  - intros H i Hi. destruct (u_bound _) eqn:Hb; [|done]. apply Z.eqb_neq, H; [lia|done].
Qed.

Lemma find_port_bound p n :
  match find_port p n with Some _ => true | None => false end = true <->
  exists i, 0 <= i < UDP_PORTS /\ u_bound (zget (udp_ports n) i) = true /\ u_port (zget (udp_ports n) i) = p.
Proof.
  destruct (find_port p n) as [i|] eqn:Hf.
  - apply find_port_Some in Hf. split; [eauto|done].
  - split; [done|]. intros (i & Hi & Hb & Hp). by destruct (proj1 (find_port_None p n) Hf i).
Qed.


(** One port replaced. *)
Lemma zget_set_port i p n j :
  zlen (udp_ports n) = UDP_PORTS -> 0 <= i < UDP_PORTS -> 0 <= j ->
  zget (udp_ports (set_port i p n)) j = if i =? j then p else zget (udp_ports n) j.
Proof. intros Hl Hi Hj. unfold set_port. cbn [udp_ports set_udp_ports]. apply zget_zset; lia. Qed.

Lemma net_udp_bind_spec p n : bound_once n ->
  let '(ok, n') := net_udp_bind p n in
  bound_once n' /\ config n' = config n /\ net_mac n' = net_mac n /\
  forall q, (exists i, 0 <= i < UDP_PORTS /\ u_bound (zget (udp_ports n') i) = true /\ u_port (zget (udp_ports n') i) = q) <->
    (exists i, 0 <= i < UDP_PORTS /\ u_bound (zget (udp_ports n) i) = true /\ u_port (zget (udp_ports n) i) = q)
    \/ (ok = true /\ q = p).
Proof.
  intros Hok. pose proof Hok as [Hl Hu]. unfold net_udp_bind. destruct (find_port p n) as [k|] eqn:Hf.
  { split; [done|]. split; [done|]. split; [done|]. intros q. split; [tauto|]. intros [H|[_ ->]]; [done|].
    apply find_port_Some in Hf. eauto. }
  destruct (find_up _ _ _) as [k|] eqn:Hk; [|split; [done|]; split; [done|]; split; [done|];
    intros q; split; [tauto|]; by intros [|[? _]]].
  apply find_up_Some in Hk as (Hk & Hfree & _). zbool. unfold UDP_PORTS in *.
  assert (forall j, 0 <= j -> zget (udp_ports (set_port k (mkPort p true (u_q (zget (udp_ports n) k)) 0 0) n)) j
    = if k =? j then mkPort p true (u_q (zget (udp_ports n) k)) 0 0 else zget (udp_ports n) j) as Hz.
  { intros j Hj. apply zget_set_port; unfold UDP_PORTS; lia. }
  set (n' := set_port _ _ _) in *. pose proof (proj1 (find_port_None p n) Hf) as Hno. unfold UDP_PORTS in Hno.
  split; [split|split; [done|split; [done|]]].
  - unfold n', set_port. cbn [udp_ports set_udp_ports]. by rewrite zlen_zset.
  - intros i j Hi Hj. unfold UDP_PORTS in *. rewrite !Hz by lia.
    destruct (Z.eqb_spec k i) as [<-|Hki], (Z.eqb_spec k j) as [<-|Hkj]; cbn [u_bound u_port]; [done| | |].
    + intros _ Hb Hp. by destruct (Hno j Hj Hb).
    + intros Hb _ Hp. by destruct (Hno i Hi Hb).
    + apply Hu; unfold UDP_PORTS; lia.
  - intros q. split.
    + intros (i & Hi & Hb & Hp). rewrite !Hz in * by lia. destruct (Z.eqb_spec k i); [by right|left; eauto].
    + intros [(i & Hi & Hb & Hp)|[_ ->]].
      * exists i. rewrite !Hz by lia. destruct (Z.eqb_spec k i) as [<-|]; [congruence|done].
      * exists k. rewrite !Hz by lia. by rewrite Z.eqb_refl.
Qed.

Lemma net_udp_unbind_spec p n : bound_once n ->
  let n' := net_udp_unbind p n in
  bound_once n' /\ config n' = config n /\ net_mac n' = net_mac n /\
  forall q, (exists i, 0 <= i < UDP_PORTS /\ u_bound (zget (udp_ports n') i) = true /\ u_port (zget (udp_ports n') i) = q) <->
    (exists i, 0 <= i < UDP_PORTS /\ u_bound (zget (udp_ports n) i) = true /\ u_port (zget (udp_ports n) i) = q) /\ q <> p.
Proof.
  intros Hok. pose proof Hok as [Hl Hu]. cbv zeta. unfold net_udp_unbind. destruct (find_port p n) as [k|] eqn:Hf.
  2: { split; [done|]. split; [done|]. split; [done|]. intros q. split; [|tauto]. intros (i & Hi & Hb & Hq).
       split; [eauto|]. intros ->. by destruct (proj1 (find_port_None p n) Hf i). }
  pose proof (find_port_Some _ _ _ Hf) as (Hk & Hkb & Hkp). cbv zeta.
  set (pt := mkPort _ _ _ _ _). assert (forall j, 0 <= j -> zget (udp_ports (set_port k pt n)) j
    = if k =? j then pt else zget (udp_ports n) j) as Hz by (intros j Hj; by apply zget_set_port).
  set (n' := set_port _ _ _) in *. split; [split|split; [done|split; [done|]]].
  - unfold n', set_port. cbn [udp_ports set_udp_ports]. by rewrite zlen_zset.
  - intros i j Hi Hj. rewrite !Hz by lia.
    destruct (Z.eqb_spec k i) as [<-|Hki], (Z.eqb_spec k j) as [<-|Hkj]; cbn [u_bound pt]; try done. by apply Hu.
  - intros q. split.
    + intros (i & Hi & Hb & Hp). rewrite !Hz in * by lia. destruct (Z.eqb_spec k i) as [<-|Hne]; [done|].
      split; [eauto|]. intros ->. apply Hne, Hu; try done. congruence.
    + intros [(i & Hi & Hb & Hp) Hq]. exists i. rewrite !Hz by lia. destruct (Z.eqb_spec k i) as [<-|]; [congruence|done].
Qed.

#[export] Instance stack_host_laws : UdpHostLaws stack.
Proof.
  split.
  - intros t s. done.
  - intros fs s. apply keeps_undisturbed, net_poll_keeps.
  - intros p s. simpl. pose proof (net_udp_recv_keeps p (net_of s)) as Hk.
    destruct (net_udp_recv p (net_of s)) as [g n]. by apply keeps_undisturbed.
  - intros d sp dp l s. simpl. pose proof (net_send_udp_keeps d sp dp l (net_of s)) as Hk.
    destruct (net_send_udp _ _ _ _ _) as [r n]. by apply keeps_undisturbed.
  - intros p s Hok. simpl. pose proof (net_udp_bind_spec p (net_of s) Hok) as Hb.
    destruct (net_udp_bind p (net_of s)) as [ok n]. destruct Hb as (Hok' & Hc & Hm & Hb).
    split; [done|]. split; [done|]. split; [done|]. intros q. cbn [net_of set_net_of].
    apply eq_true_iff_eq. rewrite find_port_bound, Hb, orb_true_iff, andb_true_iff, Z.eqb_eq.
    by rewrite <-find_port_bound.
  - intros p s Hok. pose proof (net_udp_unbind_spec p (net_of s) Hok) as (Hok' & Hc & Hm & Hb).
    split; [done|]. split; [done|]. split; [done|]. intros q. simpl.
    apply eq_true_iff_eq. rewrite find_port_bound, Hb, andb_true_iff, negb_true_iff, Z.eqb_neq.
    by rewrite <-find_port_bound.
  - intros i m g d s. done.
  - done.
  - intros fs s. apply net_poll_keeps.
  - intros p s. simpl. pose proof (net_udp_recv_keeps p (net_of s)) as Hk.
    destruct (net_udp_recv p (net_of s)) as [g n]. apply Hk.
  - intros d sp dp l s. simpl. pose proof (net_send_udp_keeps d sp dp l (net_of s)) as Hk.
    destruct (net_send_udp _ _ _ _ _) as [r n]. apply Hk.
  - intros p s. simpl. unfold net_udp_bind. destruct (find_port _ _); [done|].
    by destruct (find_up _ _ _).
  - done.
Qed.


End stack.
