(* ===== verification/Dhcp.v ===== *)
(** * The DHCP client ([kernel/dhcp.c])

    A message is the 552 bytes of [dhcp_message_t], in a list: a reply is read
    where the datagram holds it, at the offsets of the struct.  The client
    runs on any [UdpHost]; the file's two buffers that outlive a call, [xid]
    and [reply], are the record [dhcp].  What a wait finds is a list of polls
    ([Udphost]): [None] is a client that is still waiting. *)

From S2P Require Import Prelude Ring Netwire Net Tcp Udphost.

Definition DHCP_SERVER_PORT : Z := 67.
Definition DHCP_CLIENT_PORT : Z := 68.
Definition BOOTREQUEST : Z := 1.
Definition BOOTREPLY : Z := 2.
Definition DHCP_DISCOVER : Z := 1.
Definition DHCP_OFFER : Z := 2.
Definition DHCP_REQUEST : Z := 3.
Definition DHCP_ACK : Z := 5.
Definition OPT_SUBNET_MASK : Z := 1.
Definition OPT_ROUTER : Z := 3.
Definition OPT_DNS : Z := 6.
Definition OPT_REQUESTED_IP : Z := 50.
Definition OPT_MESSAGE_TYPE : Z := 53.
Definition OPT_SERVER_ID : Z := 54.
Definition OPT_PARAM_REQUEST : Z := 55.
Definition OPT_END : Z := 255.
Definition DHCP_MAGIC : Z := 1669485411.

(** [sizeof(dhcp_message_t)], and of its [options]; where the options start. *)
Definition MESSAGE : Z := 552.
Definition OPTIONS : Z := 312.
Definition OPTIONS_OFF : Z := 240.

Definition m_op (m : list Z) : Z := zget m 0.
Definition m_xid (m : list Z) : Z := ntohl (rd32 m 4).
Definition m_yiaddr (m : list Z) : Z := ntohl (rd32 m 16).
Definition m_magic (m : list Z) : Z := ntohl (rd32 m 236).

(** ** Building *)

(** What [put_option] appends. *)
Definition put_option (code len : Z) (value : list Z) : list Z :=
  [code; len] ++ (if nz len then zslice 0 len value else []).

Definition build_options (type requested_ip server_id : Z) : list Z :=
  put_option OPT_MESSAGE_TYPE 1 [type]
  ++ (if nz requested_ip then put_option OPT_REQUESTED_IP 4 (le32 (htonl requested_ip)) else [])
  ++ (if nz server_id then put_option OPT_SERVER_ID 4 (le32 (htonl server_id)) else [])
  ++ put_option OPT_PARAM_REQUEST 3 [OPT_SUBNET_MASK; OPT_ROUTER; OPT_DNS]
  ++ [OPT_END].

(** The fields in the order of the struct: op, htype, hlen, hops; xid; secs,
    flags; the four addresses; chaddr; sname and file; magic; options. *)
Definition build (xid : Z) (mac : list Z) (type requested_ip server_id : Z) : list Z :=
  let options := build_options type requested_ip server_id in
  [BOOTREQUEST; 1; ETH_ALEN; 0] ++ le32 (htonl xid) ++ le16 0 ++ le16 (htons 32768)
  ++ replicate 16 0 ++ (zslice 0 ETH_ALEN mac ++ replicate 10 0) ++ replicate 192 0
  ++ le32 (htonl DHCP_MAGIC) ++ options ++ replicate (Z.to_nat (OPTIONS - zlen options)) 0.

(** ** Parsing *)

(** The outputs of [parse]. *)
Record dhcp_opts := mkOpts { o_type : Z; o_mask : Z; o_gw : Z; o_dns : Z; o_server : Z }.

Definition take_option (code olen : Z) (v : list Z) (o : dhcp_opts) : dhcp_opts :=
  if code =? OPT_MESSAGE_TYPE then
    if 1 <=? olen then mkOpts (zget v 0) (o_mask o) (o_gw o) (o_dns o) (o_server o) else o
  else if code =? OPT_SUBNET_MASK then
    if 4 <=? olen then mkOpts (o_type o) (ntohl (rd32 v 0)) (o_gw o) (o_dns o) (o_server o) else o
  else if code =? OPT_ROUTER then
    if 4 <=? olen then mkOpts (o_type o) (o_mask o) (ntohl (rd32 v 0)) (o_dns o) (o_server o) else o
  else if code =? OPT_DNS then
    if 4 <=? olen then mkOpts (o_type o) (o_mask o) (o_gw o) (ntohl (rd32 v 0)) (o_server o) else o
  else if code =? OPT_SERVER_ID then
    if 4 <=? olen then mkOpts (o_type o) (o_mask o) (o_gw o) (o_dns o) (ntohl (rd32 v 0)) else o
  else o.

(** [while (i < options_len) ...]: each turn takes at least one byte. *)
Fixpoint parse_loop (fuel : nat) (m : list Z) (options_len i : Z) (o : dhcp_opts) : dhcp_opts :=
  match fuel with
  | O => o
  | S fuel' =>
    if negb (i <? options_len) then o else
    let code := zget m (OPTIONS_OFF + i) in
    let i := i + 1 in
    if code =? OPT_END then o else
    if code =? 0 then parse_loop fuel' m options_len i o else
    if options_len <=? i then o else
    let olen := zget m (OPTIONS_OFF + i) in
    let i := i + 1 in
    if options_len <? i + olen then o else
    let v := zslice (OPTIONS_OFF + i) olen m in
    parse_loop fuel' m options_len (i + olen) (take_option code olen v o)
  end.

Definition set_o_type (t : Z) (o : dhcp_opts) : dhcp_opts :=
  mkOpts t (o_mask o) (o_gw o) (o_dns o) (o_server o).

Definition parse (xid : Z) (m : list Z) (len : Z) (o : dhcp_opts) : bool * dhcp_opts :=
  if len <? MESSAGE - OPTIONS + 4 then (false, o) else
  if negb (m_op m =? BOOTREPLY) then (false, o) else
  if negb (m_magic m =? DHCP_MAGIC) then (false, o) else
  if negb (m_xid m =? xid) then (false, o) else
  let options_len := len - (MESSAGE - OPTIONS) in
  let options_len := if OPTIONS <? options_len then OPTIONS else options_len in
  let o := parse_loop (Z.to_nat OPTIONS) m options_len 0 (set_o_type 0 o) in
  (nz (o_type o), o).

(** ** The exchange *)

Record dhcp := mkDhcp { xid : Z; reply : list Z }.

Section client.
  Context {S : Type} `{!UdpHost S}.

(** [wait_for] answers with the message, the options, the state, and the
    polls that are left. *)
Definition waited : Type := bool * list Z * dhcp_opts * S * polls.

Fixpoint wait_loop (x want deadline : Z) (env : polls) (out : list Z) (o : dhcp_opts) (s : S)
    : option waited :=
  match env with
  | [] => None
  | (now, frames) :: env' =>
    let s := host_at now s in
    if now <? deadline then
      let s := host_poll frames s in
      let '(g, s) := host_recv DHCP_CLIENT_PORT s in
      match g with
      | None => wait_loop x want deadline env' out o s
      | Some dg =>
        let '(ok, o) := parse x (d_data dg) (d_len dg) (set_o_type 0 o) in
        if negb ok then wait_loop x want deadline env' out o s else
        if negb (o_type o =? want) then wait_loop x want deadline env' out o s else
        let n := if d_len dg <? MESSAGE then d_len dg else MESSAGE in
        Some (true, zsplice 0 (zslice 0 n (d_data dg)) out, o, s, env')
      end
    else Some (false, out, o, s, env')
  end.

Definition wait_for (x want ticks : Z) (env : polls) (out : list Z) (o : dhcp_opts) (s : S)
    : option waited :=
  wait_loop x want (u32 (host_now s + ticks)) env out o s.

(** [for (attempt = 0; attempt < 3; attempt++)]; [true] with the address, the
    mask and the other options when a lease was acknowledged. *)
Fixpoint attempts (n : nat) (x : Z) (mac : list Z) (ticks : Z) (env : polls) (out : list Z)
    (o : dhcp_opts) (s : S) : option (option (Z * dhcp_opts) * list Z * S) :=
  match n with
  | O => Some (None, out, s)
  | Datatypes.S n' =>
    let '(_, s) := host_send BROADCAST DHCP_CLIENT_PORT DHCP_SERVER_PORT (build x mac DHCP_DISCOVER 0 0) s in
    match wait_for x DHCP_OFFER ticks env out o s with
    | None => None
    | Some (false, out, o, s, env) => attempts n' x mac ticks env out o s
    | Some (true, out, o, s, env) =>
      let offered := m_yiaddr out in
      if offered =? 0 then attempts n' x mac ticks env out o s else
      let '(_, s) := host_send BROADCAST DHCP_CLIENT_PORT DHCP_SERVER_PORT
                       (build x mac DHCP_REQUEST offered (o_server o)) s in
      match wait_for x DHCP_ACK ticks env out o s with
      | None => None
      | Some (false, out, o, s, env) => attempts n' x mac ticks env out o s
      | Some (true, out, o, s, env) =>
        let ip := m_yiaddr out in
        if ip =? 0 then attempts n' x mac ticks env out o s else Some (Some (ip, o), out, s)
      end
    end
  end.

Definition transaction_id (s : S) : Z := Z.lor 1314258944 (Z.land (host_now s) 65535).

Definition dhcp_configure (timeout_ticks : Z) (env : polls) (d : dhcp) (s : S) : option (bool * dhcp * S) :=
  match host_mac s with
  | None => Some (false, d, s)
  | Some mac =>
    let x := transaction_id s in
    let '(ok, s) := host_bind DHCP_CLIENT_PORT s in
    if negb ok then Some (false, mkDhcp x (reply d), s) else
    let s := host_set_config 0 0 0 0 s in
    match attempts 3 x mac (timeout_ticks / 3) env (reply d) (mkOpts 0 0 0 0 0) s with
    | None => None
    | Some (None, out, s) => Some (false, mkDhcp x out, host_unbind DHCP_CLIENT_PORT s)
    | Some (Some (ip, o), out, s) =>
      let mask := if o_mask o =? 0 then 4294967040 else o_mask o in
      let s := host_set_config ip mask (o_gw o) (o_dns o) s in
      Some (true, mkDhcp x out, host_unbind DHCP_CLIENT_PORT s)
    end
  end.
End client.

(** ** Options on the wire *)

(** What a server writes in the options field: pad bytes and options. *)
Inductive item := Pad | Opt (code : Z) (value : list Z).

Definition item_bytes (it : item) : list Z :=
  match it with Pad => [0] | Opt code v => code :: zlen v :: v end.

Definition items_bytes (l : list item) : list Z := concat (item_bytes <$> l).

Definition item_ok (it : item) : Prop :=
  match it with Pad => True | Opt code v => 0 < code < OPT_END /\ zlen v <= 255 end.

(** What it means by them. *)
Definition apply_item (o : dhcp_opts) (it : item) : dhcp_opts :=
  match it with Pad => o | Opt code v => take_option code (zlen v) v o end.

Lemma items_bytes_cons it l : items_bytes (it :: l) = item_bytes it ++ items_bytes l.
Proof. done. Qed.

(** The walk over options that fit: each is taken, in order. *)
Lemma parse_loop_items fuel pre l rest L i o :
  zlen pre = OPTIONS_OFF + i -> 0 <= i -> Forall item_ok l ->
  i + zlen (items_bytes l) <= L -> L - i <= Z.of_nat fuel ->
  exists fuel', parse_loop fuel (pre ++ items_bytes l ++ rest) L i o
    = parse_loop fuel' (pre ++ items_bytes l ++ rest) L (i + zlen (items_bytes l)) (foldl apply_item o l) /\
    L - (i + zlen (items_bytes l)) <= Z.of_nat fuel'.
Proof.
  revert fuel pre i o. induction l as [|it l IH]; intros fuel pre i o Hpre Hi Hok HL Hf.
  { exists fuel. unfold items_bytes, zlen in *. simpl in *. rewrite Z.add_0_r in *. done. }
  apply Forall_cons in Hok as [Hit Hok]. rewrite items_bytes_cons, zlen_app in *.
  pose proof (zlen_nonneg (items_bytes l)). rewrite <-app_assoc.
  assert (forall f o', L - (i + zlen (item_bytes it)) <= Z.of_nat f -> exists fuel',
    parse_loop f (pre ++ item_bytes it ++ items_bytes l ++ rest) L (i + zlen (item_bytes it)) o'
    = parse_loop fuel' (pre ++ item_bytes it ++ items_bytes l ++ rest) L
        (i + (zlen (item_bytes it) + zlen (items_bytes l))) (foldl apply_item o' l) /\
    L - (i + (zlen (item_bytes it) + zlen (items_bytes l))) <= Z.of_nat fuel') as Hgo.
  { intros f o' Hf'. destruct (IH f (pre ++ item_bytes it) (i + zlen (item_bytes it)) o') as (f2 & H1 & H2);
      [rewrite zlen_app; lia|pose proof (zlen_nonneg (item_bytes it)); lia|done|lia|lia|].
    exists f2. rewrite <-!app_assoc, <-Z.add_assoc in H1. rewrite <-Z.add_assoc in H2. done. }
  set (m := pre ++ _) in *. destruct fuel as [|fuel].
  { destruct it; simpl in *; rewrite ?zlen_cons in *; pose proof (zlen_nonneg (A:=Z) []); try pose proof (zlen_nonneg value); lia. }
  cbn [parse_loop]. destruct it as [|code v]; simpl in Hit.
  - change (zlen (item_bytes Pad)) with 1 in *. rewrite (proj2 (Z.ltb_lt i L)) by lia. cbn [negb].
    assert (zget m (OPTIONS_OFF + i) = 0) as -> by (unfold m; simpl; by apply zget_mid).
    cbn [Z.eqb]. change (0 =? OPT_END) with false. apply Hgo. lia.
  - pose proof (zlen_nonneg v). destruct Hit as [Hcode Hv].
    assert (zlen (item_bytes (Opt code v)) = 2 + zlen v) as Hlen by (simpl; rewrite !zlen_cons; lia).
    rewrite Hlen in *. rewrite (proj2 (Z.ltb_lt i L)) by lia. cbn [negb].
    assert (zget m (OPTIONS_OFF + i) = code) as -> by (unfold m; simpl; by apply zget_mid).
    rewrite (proj2 (Z.eqb_neq code OPT_END)), (proj2 (Z.eqb_neq code 0)), (proj2 (Z.leb_gt L (i + 1))) by lia.
    assert (zget m (OPTIONS_OFF + (i + 1)) = zlen v) as ->.
    { replace m with ((pre ++ [code]) ++ zlen v :: v ++ items_bytes l ++ rest) by (unfold m; by rewrite <-app_assoc).
      apply zget_mid. rewrite zlen_app, Hpre. unfold zlen. simpl. lia. }
    rewrite (proj2 (Z.ltb_ge L (i + 1 + 1 + zlen v))) by lia.
    assert (zslice (OPTIONS_OFF + (i + 1 + 1)) (zlen v) m = v) as ->.
    { replace m with ((pre ++ [code; zlen v]) ++ v ++ items_bytes l ++ rest) by (unfold m; by rewrite <-app_assoc).
      apply zslice_mid; [|done]. rewrite zlen_app, Hpre. unfold zlen. simpl. lia. }
    replace (i + 1 + 1 + zlen v) with (i + (2 + zlen v)) by lia. apply Hgo. lia.
Qed.

(** The walk ends at the end mark, or where the datagram does. *)
Lemma parse_loop_end fuel m L i o :
  i = L \/ zget m (OPTIONS_OFF + i) = OPT_END -> parse_loop fuel m L i o = o.
Proof.
  intros H. destruct fuel; [done|]. cbn [parse_loop]. destruct (Z.ltb_spec i L); [cbn [negb]|done].
  destruct H as [->| ->]; [lia|]. by rewrite Z.eqb_refl.
Qed.

Lemma parse_items x hdr l rest len o :
  zlen hdr = OPTIONS_OFF -> m_op hdr = BOOTREPLY -> m_magic hdr = DHCP_MAGIC -> m_xid hdr = x ->
  Forall item_ok l -> 244 <= len -> zlen (items_bytes l) <= Z.min (len - OPTIONS_OFF) OPTIONS ->
  zlen (items_bytes l) = Z.min (len - OPTIONS_OFF) OPTIONS \/ hd 0 rest = OPT_END ->
  parse x (hdr ++ items_bytes l ++ rest) len o =
    (nz (o_type (foldl apply_item (set_o_type 0 o) l)), foldl apply_item (set_o_type 0 o) l).
Proof.
  intros Hh Hop Hmag Hx Hok Hlen Hfit Hend. unfold OPTIONS_OFF, OPTIONS in *. unfold parse.
  change (MESSAGE - OPTIONS) with 240. rewrite (proj2 (Z.ltb_ge len (240 + 4))) by lia.
  set (m := hdr ++ _).
  assert (forall i, 0 <= i < 240 -> zget m i = zget hdr i) as Hm by (intros i Hi; unfold m; apply zget_app_l; lia).
  unfold m_op, m_magic, m_xid, rd32 in *. rewrite !Hm by lia. rewrite Hop, Hmag, Hx, !Z.eqb_refl. cbn [negb].
  set (L := if 312 <? len - 240 then 312 else len - 240).
  assert (L = Z.min (len - 240) 312) as HL by (unfold L; destruct (Z.ltb_spec 312 (len - 240)); lia).
  change OPTIONS with 312.
  replace (if 312 <? len - 240 then 312 else len - 240) with L by done. rewrite <-HL in *.
  destruct (parse_loop_items (Z.to_nat 312) hdr l rest L 0 (set_o_type 0 o)) as (f & Hp & _);
    [unfold OPTIONS_OFF; lia|lia|done|lia|lia|].
  fold m in Hp. rewrite Hp, parse_loop_end; [done|]. rewrite Z.add_0_l.
  destruct Hend as [->|Hend]; [by left|]. right. unfold m.
  destruct rest as [|r rest]; [unfold OPT_END in Hend; simpl in Hend; lia|]. simpl in Hend. subst r.
  rewrite app_assoc. apply zget_mid. rewrite zlen_app, Hh. unfold OPTIONS_OFF. done.
Qed.

(** ** Only what arrived is read *)

Lemma parse_loop_prefix fuel m m' len L i o :
  zslice 0 len m = zslice 0 len m' -> Forall is_byte m -> len <= zlen m ->
  OPTIONS_OFF + L <= len -> 0 <= i -> parse_loop fuel m L i o = parse_loop fuel m' L i o.
Proof.
  intros Hs Hb Hlen HL. unfold OPTIONS_OFF in *. revert i o.
  induction fuel as [|fuel IH]; intros i o Hi; [done|]. cbn [parse_loop].
  destruct (Z.ltb_spec i L); [cbn [negb]|done]. unfold OPTIONS_OFF.
  rewrite (same_prefix_get m m' len (240 + i)) by (done || lia).
  destruct (_ =? OPT_END); [done|]. destruct (_ =? 0); [apply IH; lia|].
  destruct (Z.leb_spec L (i + 1)); [done|].
  assert (is_byte (zget m (240 + (i + 1)))) as Hv by (apply zget_Forall; [done|lia]).
  rewrite (same_prefix_get m m' len (240 + (i + 1))) in * by (done || lia).
  set (olen := zget m' _) in *. unfold is_byte in Hv.
  destruct (Z.ltb_spec L (i + 1 + 1 + olen)); [done|].
  rewrite (same_prefix_slice m m' len _ olen Hs) by lia. apply IH. lia.
Qed.

(** ** A message of our own *)

Lemma put_option_bytes code v : zlen v < 256 -> put_option code (zlen v) v = item_bytes (Opt code v).
Proof.
  intros Hv. unfold put_option, item_bytes, nz. destruct (Z.eqb_spec (zlen v) 0) as [H0|H0]; cbn [negb].
  - destruct v; [done|]. unfold zlen in H0. simpl in H0. lia.
  - by rewrite zslice_all.
Qed.

(** The options a request carries. *)
Definition request_items (type requested_ip server_id : Z) : list item :=
  [Opt OPT_MESSAGE_TYPE [type]]
  ++ (if nz requested_ip then [Opt OPT_REQUESTED_IP (le32 (htonl requested_ip))] else [])
  ++ (if nz server_id then [Opt OPT_SERVER_ID (le32 (htonl server_id))] else [])
  ++ [Opt OPT_PARAM_REQUEST [OPT_SUBNET_MASK; OPT_ROUTER; OPT_DNS]].

Lemma build_options_items type req srv :
  build_options type req srv = items_bytes (request_items type req srv) ++ [OPT_END].
Proof. unfold build_options, request_items. destruct (nz req), (nz srv); reflexivity. Qed.

Lemma request_items_ok type req srv :
  Forall item_ok (request_items type req srv) /\ 0 <= zlen (items_bytes (request_items type req srv)) <= 20.
Proof.
  unfold request_items. assert (forall c v, 0 < c < OPT_END -> zlen v <= 255 -> item_ok (Opt c v)) as H by done.
  destruct (nz req), (nz srv); (split; [repeat constructor; (reflexivity || discriminate)|
    unfold zlen; simpl; lia]).
Qed.

Lemma ntohl_word v : 0 <= v < 2 ^ 32 -> ntohl (rd32 (le32 (htonl v)) 0) = v.
Proof.
  intros Hv. transitivity (ntohl (htonl v)); [|by apply htonl_htonl]. f_equal.
  exact (rd32_le32 [] (htonl v) [] (htonl_range v Hv)).
Qed.

(** What the client itself reads in them. *)
Lemma request_items_mean type req srv o : 0 <= srv < 2 ^ 32 ->
  foldl apply_item o (request_items type req srv) =
    mkOpts type (o_mask o) (o_gw o) (o_dns o) (if nz srv then srv else o_server o).
Proof.
  intros Hs.
  assert (forall o', apply_item o' (Opt OPT_SERVER_ID (le32 (htonl srv)))
    = mkOpts (o_type o') (o_mask o') (o_gw o') (o_dns o') srv) as Hsrv
    by (intros o'; rewrite <-(ntohl_word srv Hs) at 2; reflexivity).
  unfold request_items. destruct (nz req), (nz srv); cbn [app foldl]; rewrite ?Hsrv; reflexivity.
Qed.

(** The header of a message, with the op code [op]. *)
Definition message_header (op x : Z) (mac : list Z) : list Z :=
  [op; 1; ETH_ALEN; 0] ++ le32 (htonl x) ++ le16 0 ++ le16 (htons 32768)
  ++ replicate 16 0 ++ (zslice 0 ETH_ALEN mac ++ replicate 10 0) ++ replicate 192 0
  ++ le32 (htonl DHCP_MAGIC).

Lemma message_header_fields op x mac :
  0 <= x < 2 ^ 32 -> zlen mac = ETH_ALEN ->
  zlen (message_header op x mac) = OPTIONS_OFF /\ m_op (message_header op x mac) = op /\
  m_magic (message_header op x mac) = DHCP_MAGIC /\ m_xid (message_header op x mac) = x /\
  zslice 28 ETH_ALEN (message_header op x mac) = mac.
Proof.
  intros Hx Hm.
  assert (zslice 0 ETH_ALEN mac = mac) as Hmac by (apply zslice_all; lia).
  assert (zlen (message_header op x mac) = OPTIONS_OFF) as Hlen.
  { unfold message_header. rewrite Hmac, !zlen_app, Hm. reflexivity. }
  split; [done|]. split; [done|]. split; [|split].
  - unfold m_magic, message_header. rewrite Hmac. rewrite <-(app_nil_r (le32 (htonl DHCP_MAGIC))), !app_assoc.
    match goal with |- context [rd32 ((?p ++ ?w) ++ []) 236] => set (pre := p) end.
    assert (zlen pre = 236) as <- by (unfold pre; rewrite !zlen_app, Hm; reflexivity).
    rewrite <-app_assoc, rd32_le32 by done. by vm_compute.
  - unfold m_xid, message_header.
    change 4 with (zlen [op; 1; ETH_ALEN; 0]) at 1. rewrite rd32_le32 by (by apply htonl_range).
    by apply htonl_htonl.
  - unfold message_header. rewrite Hmac. rewrite <-!app_assoc.
    match goal with |- zslice 28 _ (?a ++ ?b ++ ?c ++ ?d ++ ?e ++ mac ++ ?r) = _ =>
      replace (a ++ b ++ c ++ d ++ e ++ mac ++ r) with ((a ++ b ++ c ++ d ++ e) ++ mac ++ r) by (by rewrite <-!app_assoc) end.
    apply zslice_mid; [reflexivity|done].
Qed.

Lemma build_split x mac type req srv :
  build x mac type req srv = message_header BOOTREQUEST x mac ++ items_bytes (request_items type req srv)
    ++ OPT_END :: replicate (Z.to_nat (OPTIONS - zlen (build_options type req srv))) 0.
Proof.
  unfold build, message_header. rewrite build_options_items. rewrite <-!app_assoc. reflexivity.
Qed.

Lemma build_length x mac type req srv :
  0 <= x < 2 ^ 32 -> zlen mac = ETH_ALEN -> zlen (build x mac type req srv) = MESSAGE.
Proof.
  intros Hx Hm. destruct (message_header_fields BOOTREQUEST x mac Hx Hm) as (Hl & _).
  destruct (request_items_ok type req srv) as [_ Hi].
  rewrite build_split, !zlen_app, Hl, zlen_cons, build_options_items, zlen_app.
  change (zlen [OPT_END]) with 1. unfold zlen at 2. rewrite length_replicate.
  unfold OPTIONS_OFF, MESSAGE, OPTIONS. lia.
Qed.

(** ** What the client accepts *)

(** The datagram is a reply to transaction [x] of the type wanted, and [o']
    is what its options make of [o]. *)
Definition accepts (x want : Z) (o : dhcp_opts) (g : udp_datagram) (o' : dhcp_opts) : Prop :=
  244 <= d_len g /\ m_op (d_data g) = BOOTREPLY /\ m_magic (d_data g) = DHCP_MAGIC /\
  m_xid (d_data g) = x /\ parse x (d_data g) (d_len g) o = (true, o') /\ o_type o' = want.

Lemma parse_true x m len o o' :
  parse x m len o = (true, o') -> 244 <= len /\ m_op m = BOOTREPLY /\ m_magic m = DHCP_MAGIC /\ m_xid m = x.
Proof.
  unfold parse. change (MESSAGE - OPTIONS + 4) with 244.
  destruct (Z.ltb_spec len 244); [done|]. destruct (Z.eqb_spec (m_op m) BOOTREPLY); [|done].
  destruct (Z.eqb_spec (m_magic m) DHCP_MAGIC); [|done]. by destruct (Z.eqb_spec (m_xid m) x).
Qed.

(** The magic number is really there: the message reaches it. *)
Lemma magic_length m : m_magic m = DHCP_MAGIC -> 236 < zlen m.
Proof.
  intros Hm. destruct (Z.lt_ge_cases 236 (zlen m)); [done|exfalso].
  assert (forall i, 236 <= i -> zget m i = inhabitant) as Ho.
  { intros i Hi. unfold zget. rewrite list_lookup_total_alt, lookup_ge_None_2; [done|unfold zlen in *; lia]. }
  unfold m_magic, rd32 in Hm. rewrite !Ho in Hm by lia. by vm_compute in Hm.
Qed.

(** The copy [wait_for] keeps has the datagram's address. *)
Lemma copied_yiaddr data out n :
  m_magic data = DHCP_MAGIC -> 244 <= n -> m_yiaddr (zsplice 0 (zslice 0 n data) out) = m_yiaddr data.
Proof.
  intros Hm%magic_length Hn.
  assert (forall i, 0 <= i < 236 -> zget (zsplice 0 (zslice 0 n data) out) i = zget data i) as Hz.
  { intros i Hi. unfold zsplice. change (take (Z.to_nat 0) out) with (@nil Z). rewrite app_nil_l.
    assert (236 < zlen (zslice 0 n data)) as Hl
      by (unfold zlen, zslice in *; change (Z.to_nat 0) with O; rewrite drop_0, length_take; lia).
    rewrite zget_app_l by lia. rewrite zget_zslice by lia. f_equal; lia. }
  unfold m_yiaddr, rd32. by rewrite !Hz by lia.
Qed.

Section client_runs.
  Context {S : Type} `{!UdpHost S, !UdpHostLaws S}.

(** Waiting only lets time pass and takes datagrams; when it succeeds the
    last one it took is the reply. *)
Lemma wait_loop_run x want deadline env out o (s : S) r out' o' s' env' :
  wait_loop x want deadline env out o s = Some (r, out', o', s', env') ->
  exists evs, host_run s evs s' /\
    (r = true -> exists pre g o0, evs = pre ++ [Took DHCP_CLIENT_PORT g] /\
       accepts x want o0 g o' /\ m_yiaddr out' = m_yiaddr (d_data g)).
Proof.
  revert out o s. induction env as [|[now frames] env IH]; intros out o s H; [done|]. cbn [wait_loop] in H.
  destruct (now <? deadline).
  2: { injection H as <- <- <- <- <-. exists []. split; [|done]. apply host_run_one, hs_at. }
  destruct (host_recv DHCP_CLIENT_PORT _) as [[g|] s2] eqn:Hr; apply turn_run in Hr as [H2 _].
  2: { destruct (IH _ _ _ H) as (evs & Hrun & Hok). exists evs. split; [|done].
       by apply (host_run_app _ [] s2 evs). }
  assert (forall o1, wait_loop x want deadline env out o1 s2 = Some (r, out', o', s', env') ->
    exists evs, host_run s evs s' /\ (r = true -> exists pre g o0, evs = pre ++ [Took DHCP_CLIENT_PORT g] /\
       accepts x want o0 g o' /\ m_yiaddr out' = m_yiaddr (d_data g))) as Hnext.
  { intros o1 Ho. destruct (IH _ _ _ Ho) as (evs & Hrun & Hok). exists (Took DHCP_CLIENT_PORT g :: evs).
    split; [by apply (host_run_app _ [_] s2 evs)|]. intros Hr'. destruct (Hok Hr') as (pre & g' & o0 & -> & Ha).
    by exists (Took DHCP_CLIENT_PORT g :: pre), g', o0. }
  destruct (parse x (d_data g) (d_len g) (set_o_type 0 o)) as [[|] o1] eqn:Hp; cbn [negb] in H; [|by eapply Hnext].
  destruct (Z.eqb_spec (o_type o1) want) as [Hw|]; cbn [negb] in H; [|by eapply Hnext].
  injection H as <- <- <- <- <-. exists [Took DHCP_CLIENT_PORT g]. split; [done|]. intros _.
  exists [], g, (set_o_type 0 o). pose proof (parse_true _ _ _ _ _ Hp) as (Hl & Hop & Hm & Hx).
  split; [done|]. split; [done|]. apply copied_yiaddr; [done|].
  destruct (Z.ltb_spec (d_len g) MESSAGE); unfold MESSAGE in *; lia.
Qed.

(** The last three messages of an exchange that succeeds: an offer, the
    request for what it offers, and the acknowledgement. *)
Definition exchange (x : Z) (mac : list Z) (evs : list udp_event) (ip : Z) (o : dhcp_opts) : Prop :=
  exists pre offer o0 o1 mid ack o2,
    evs = pre ++ [Took DHCP_CLIENT_PORT offer;
      Sent BROADCAST DHCP_CLIENT_PORT DHCP_SERVER_PORT
        (build x mac DHCP_REQUEST (m_yiaddr (d_data offer)) (o_server o1))]
      ++ mid ++ [Took DHCP_CLIENT_PORT ack] /\
    accepts x DHCP_OFFER o0 offer o1 /\ m_yiaddr (d_data offer) <> 0 /\
    accepts x DHCP_ACK o2 ack o /\ ip = m_yiaddr (d_data ack) /\ ip <> 0.

Lemma exchange_after x mac e evs ip o : exchange x mac evs ip o -> exchange x mac (e ++ evs) ip o.
Proof.
  intros (pre & offer & o0 & o1 & mid & ack & o2 & -> & H).
  exists (e ++ pre), offer, o0, o1, mid, ack, o2. by rewrite <-app_assoc.
Qed.

Lemma attempts_run n x mac ticks env out o (s : S) res out' s' :
  attempts n x mac ticks env out o s = Some (res, out', s') ->
  exists evs, host_run s evs s' /\ match res with Some (ip, o') => exchange x mac evs ip o' | None => True end.
Proof.
  revert env out o s. induction n as [|n IH]; intros env out o s H; cbn [attempts] in H.
  { injection H as <- <- <-. exists []. by split; [constructor|]. }
  assert (forall e env out o t, host_run s e t -> attempts n x mac ticks env out o t = Some (res, out', s') ->
    exists evs, host_run s evs s' /\ match res with Some (ip, o') => exchange x mac evs ip o' | None => True end) as Hnext.
  { intros e env1 out1 o1 t He Ht. destruct (IH _ _ _ _ Ht) as (evs & Hr & Hx). exists (e ++ evs).
    split; [by eapply host_run_app|]. destruct res as [[ip o']|]; [by apply exchange_after|done]. }
  destruct (host_send _ _ _ (build x mac DHCP_DISCOVER 0 0) s) as [r1 s1] eqn:H1.
  apply hs_sent, host_run_one in H1. unfold wait_for in H.
  destruct (wait_loop x DHCP_OFFER _ env out o s1) as [[[[[ok out1] o1] s2] env1]|] eqn:H2; [|done].
  apply wait_loop_run in H2 as (e2 & H2 & Hoffer). pose proof (host_run_app _ _ _ _ _ H1 H2) as H12.
  destruct ok; [|by eapply Hnext].
  destruct (Hoffer eq_refl) as (p2 & offer & o0 & -> & Ha & Hy). clear Hoffer.
  destruct (Z.eqb_spec (m_yiaddr out1) 0) as [|Hoff]; [by eapply Hnext|].
  destruct (host_send _ _ _ (build x mac DHCP_REQUEST _ _) s2) as [r3 s3] eqn:H3.
  apply hs_sent, host_run_one in H3. pose proof (host_run_app _ _ _ _ _ H12 H3) as H13.
  destruct (wait_loop x DHCP_ACK _ env1 out1 o1 s3) as [[[[[ok out2] o2] s4] env2]|] eqn:H4; [|done].
  apply wait_loop_run in H4 as (e4 & H4 & Hack). pose proof (host_run_app _ _ _ _ _ H13 H4) as H14.
  destruct ok; [|by eapply Hnext].
  destruct (Hack eq_refl) as (p4 & ack & o3 & -> & Hb & Hz). clear Hack.
  destruct (Z.eqb_spec (m_yiaddr out2) 0) as [|Hip]; [by eapply Hnext|].
  injection H as <- <- <-. eexists. split; [exact H14|].
  exists ([Sent BROADCAST DHCP_CLIENT_PORT DHCP_SERVER_PORT (build x mac DHCP_DISCOVER 0 0)] ++ p2), offer, o0, o1, p4, ack, o3.
  rewrite Hy, Hz in *. rewrite <-!app_assoc. by split_and!.
Qed.
(** ** A wait ends *)

Lemma wait_loop_returns gap x want deadline env out o (s : S) :
  host_now s <= deadline -> clock_ok gap (host_now s) env -> deadline < last_tick (host_now s) env ->
  exists r out' o' s' env', wait_loop x want deadline env out o s = Some (r, out', o', s', env') /\
    host_now s <= host_now s' <= deadline + gap /\ clock_ok gap (host_now s') env' /\
    last_tick (host_now s') env' = last_tick (host_now s) env.
Proof.
  revert out o s. induction env as [|[now frames] env IH]; intros out o s Hd Hc Hl; simpl in Hc, Hl; [lia|].
  destruct Hc as [Hnow Hc]. cbn [wait_loop]. destruct (Z.ltb_spec now deadline).
  2: { exists false, out, o, (host_at now s), env. rewrite host_at_now. split_and!; done || lia. }
  destruct (host_recv _ _) as [g s2] eqn:Hr. apply turn_run in Hr as [_ Hr].
  assert (forall out o, exists r out' o' s' env', wait_loop x want deadline env out o s2 = Some (r, out', o', s', env') /\
    host_now s <= host_now s' <= deadline + gap /\ clock_ok gap (host_now s') env' /\
    last_tick (host_now s') env' = last_tick now env) as Hnext.
  { intros out1 o1. destruct (IH out1 o1 s2) as (r & out' & o' & s' & env' & H1 & H2 & H3 & H4);
      rewrite ?Hr in *; [lia|done|done|]. exists r, out', o', s', env'. split_and!; (done || lia). }
  destruct g as [g|]; [|apply Hnext]. destruct (parse _ _ _ _) as [ok o1].
  destruct ok; cbn [negb]; [|apply Hnext]. destruct (_ =? want); cbn [negb]; [|apply Hnext].
  eexists _, _, _, s2, env. split; [done|]. rewrite Hr. split_and!; done || lia.
Qed.

Lemma wait_for_returns gap x want ticks env out o (s : S) :
  0 <= host_now s -> 0 <= ticks -> clock_ok gap (host_now s) env ->
  host_now s + ticks < last_tick (host_now s) env < 2 ^ 32 ->
  exists r out' o' s' env', wait_for x want ticks env out o s = Some (r, out', o', s', env') /\
    0 <= host_now s' <= host_now s + ticks + gap /\ clock_ok gap (host_now s') env' /\
    last_tick (host_now s') env' = last_tick (host_now s) env.
Proof.
  intros H0 Ht Hc Hl. unfold wait_for. rewrite u32_small by lia.
  destruct (wait_loop_returns gap x want (host_now s + ticks) env out o s) as (r & out' & o' & s' & env' & H & Hn & Hc' & Hl');
    [lia|done|lia|].
  exists r, out', o', s', env'. split_and!; (done || lia).
Qed.

Lemma attempts_return n gap x mac ticks env out o (s : S) :
  0 <= host_now s -> 0 <= ticks -> 0 <= gap -> clock_ok gap (host_now s) env ->
  host_now s + 2 * Z.of_nat n * (ticks + gap) < last_tick (host_now s) env < 2 ^ 32 ->
  is_Some (attempts n x mac ticks env out o s).
Proof.
  revert env out o s. induction n as [|n IH]; intros env out o s H0 Ht Hg Hc Hl; cbn [attempts]; [done|].
  assert (2 * Z.of_nat (Datatypes.S n) * (ticks + gap) = 2 * (ticks + gap) + 2 * Z.of_nat n * (ticks + gap)) as He by lia.
  assert (0 <= 2 * Z.of_nat n * (ticks + gap)) by (apply Z.mul_nonneg_nonneg; lia).
  rewrite He in Hl. clear He. set (k := 2 * Z.of_nat n * (ticks + gap)) in *.
  pose proof (host_send_now BROADCAST DHCP_CLIENT_PORT DHCP_SERVER_PORT (build x mac DHCP_DISCOVER 0 0) s) as H1.
  destruct (host_send _ _ _ _ s) as [r1 s1]. simpl in H1.
  destruct (wait_for_returns gap x DHCP_OFFER ticks env out o s1) as (r & out1 & o1 & s2 & env1 & H2 & Hn2 & Hc2 & Hl2);
    [lia|lia|by rewrite H1|rewrite H1; lia|]. rewrite H2, H1 in *.
  assert (forall out o, is_Some (attempts n x mac ticks env1 out o s2)) as Hnext1
    by (intros; apply IH; [lia|done|done|done|lia]).
  destruct r; [|apply Hnext1]. destruct (_ =? 0); [apply Hnext1|].
  match goal with |- context [host_send ?a ?b ?c ?l s2] =>
    pose proof (host_send_now a b c l s2) as H3; destruct (host_send a b c l s2) as [r3 s3] end. simpl in H3.
  destruct (wait_for_returns gap x DHCP_ACK ticks env1 out1 o1 s3) as (r & out2 & o2 & s4 & env2 & H4 & Hn4 & Hc4 & Hl4);
    [lia|lia|by rewrite H3|rewrite H3; lia|]. rewrite H4, H3 in *.
  assert (forall out o, is_Some (attempts n x mac ticks env2 out o s4)) as Hnext2
    by (intros; apply IH; [lia|done|done|done|lia]).
  destruct r; [|apply Hnext2]. destruct (_ =? 0); [apply Hnext2|done].
Qed.
End client_runs.

(** ** The properties *)

(** A reply means what its options say: when a datagram carries the
    client's transaction id and the two markers, and its options field is a
    well-formed sequence of options and pad bytes up to the end mark or the
    end of the datagram, [parse] applies every option in order, whatever
    bytes follow, and accepts exactly if a message type was among them. *)
Theorem dhcp_parse_reply x hdr l rest len o :
  zlen hdr = OPTIONS_OFF -> m_op hdr = BOOTREPLY -> m_magic hdr = DHCP_MAGIC -> m_xid hdr = x ->
  Forall item_ok l -> 244 <= len -> zlen (items_bytes l) <= Z.min (len - OPTIONS_OFF) OPTIONS ->
  zlen (items_bytes l) = Z.min (len - OPTIONS_OFF) OPTIONS \/ hd 0 rest = OPT_END ->
  parse x (hdr ++ items_bytes l ++ rest) len o =
    (nz (o_type (foldl apply_item (set_o_type 0 o) l)), foldl apply_item (set_o_type 0 o) l).
Proof. apply parse_items. Qed.

(** Nothing past the datagram is read: two datagrams that agree on the
    [len] bytes that arrived parse alike, whatever the buffer held beyond. *)
Theorem dhcp_parse_in_bounds x m m' len o :
  zslice 0 len m = zslice 0 len m' -> Forall is_byte m -> 0 <= len <= zlen m ->
  parse x m len o = parse x m' len o.
Proof.
  intros Hs Hb Hlen. unfold parse. change (MESSAGE - OPTIONS) with 240.
  destruct (Z.ltb_spec len (240 + 4)); [done|].
  unfold m_op, m_magic, m_xid, rd32. rewrite !(same_prefix_get m m' len) by (done || lia).
  destruct (negb _); [done|]. destruct (negb _); [done|]. destruct (negb _); [done|].
  rewrite (parse_loop_prefix _ m m' len); [done|done|done|lia| |lia].
  unfold OPTIONS_OFF. destruct (Z.ltb_spec OPTIONS (len - 240)); lia.
Qed.

(** What the client sends can be read back: a request is 552 bytes, its
    header carries the transaction id and the card's address, and the
    client's own parser, given it as a reply, finds the type and the server
    in it and nothing else. *)
Theorem dhcp_build_roundtrip x mac type req srv o :
  0 <= x < 2 ^ 32 -> zlen mac = ETH_ALEN -> 0 < type < 256 -> 0 <= srv < 2 ^ 32 -> 0 <= req < 2 ^ 32 ->
  let m := build x mac type req srv in
  zlen m = MESSAGE /\ m_op m = BOOTREQUEST /\ m_xid m = x /\ zslice 28 ETH_ALEN m = mac /\
  parse x (zset m 0 BOOTREPLY) MESSAGE o =
    (true, mkOpts type (o_mask o) (o_gw o) (o_dns o) (if nz srv then srv else o_server o)).
Proof.
  intros Hx Hm Ht Hs Hr. cbv zeta. split; [by apply build_length|].
  destruct (message_header_fields BOOTREQUEST x mac Hx Hm) as (Hl & _ & _ & Hxid & Hmac).
  destruct (message_header_fields BOOTREPLY x mac Hx Hm) as (Rl & Rop & Rmag & Rxid & _).
  split; [done|]. rewrite build_split. unfold OPTIONS_OFF in Hl. split; [|split].
  - rewrite <-Hxid at 2. unfold m_xid, rd32. by rewrite !zget_app_l by lia.
  - rewrite <-Hmac at 2. rewrite <-(zslice_prefix (message_header _ x mac ++ _) 28 ETH_ALEN 240) by (unfold ETH_ALEN; lia).
    f_equal. by apply zslice_app_l.
  - set (rest := OPT_END :: _).
    change (zset (message_header BOOTREQUEST x mac ++ ?r) 0 BOOTREPLY) with (message_header BOOTREPLY x mac ++ r).
    destruct (request_items_ok type req srv) as [Hok Hlen].
    rewrite parse_items; [|done|done|done|done|done|unfold MESSAGE; lia|unfold OPTIONS_OFF, OPTIONS, MESSAGE; lia|by right].
    rewrite request_items_mean by done. simpl. f_equal. by apply nz_true; lia.
Qed.

(** C23: A lease comes from an exchange: [dhcp_configure] installs an address
    only as the end of an offer for its transaction, the request that names
    what was offered and the server that offered it, and an acknowledgement
    for its transaction; the configuration is the acknowledgement's address
    and options, the mask never empty.  When the exchange fails the host has
    no address, and either way the port is free again and no other port has
    changed hands.  When the port cannot be bound there is no exchange: the
    call fails and the old configuration stays. *)
Theorem dhcp_configure_sound {S} `{!UdpHost S, !UdpHostLaws S} timeout env d (s : S) mac r d' s' :
  host_ok s -> host_mac s = Some mac -> dhcp_configure timeout env d s = Some (r, d', s') ->
  if fst (host_bind DHCP_CLIENT_PORT s) then
    host_ok s' /\
    (forall p, host_bound p s' = host_bound p s && negb (p =? DHCP_CLIENT_PORT)) /\
    if r then
      exists evs s2 ip o,
        host_run (host_set_config 0 0 0 0 (snd (host_bind DHCP_CLIENT_PORT s))) evs s2 /\
        exchange (transaction_id s) mac evs ip o /\
        host_config s' = mkConfig ip (if o_mask o =? 0 then 4294967040 else o_mask o) (o_gw o) (o_dns o) true
    else host_config s' = mkConfig 0 0 0 0 false
  else r = false /\ host_config s' = host_config s.
Proof.
  intros Hok Hmac. unfold dhcp_configure. rewrite Hmac.
  pose proof (host_bind_spec DHCP_CLIENT_PORT s Hok) as Hb.
  destruct (host_bind DHCP_CLIENT_PORT s) as [ok s0]. cbn [fst snd]. destruct Hb as (Hc0 & _ & Hok0 & Hb0).
  destruct ok; cbn [negb]; [|by intros [= <- <- <-]]. intros H.
  destruct (host_set_config_spec 0 0 0 0 s0) as (Hc1 & _ & Hok1 & Hb1).
  set (s1 := host_set_config 0 0 0 0 s0) in *.
  destruct (attempts 3 _ mac _ env (reply d) _ s1) as [[[[[ip o]|] out] s2]|] eqn:Ha; [| |done];
    apply attempts_run in Ha as (evs & Hrun & Hx); pose proof (host_run_keeps _ _ _ Hrun) as (Hc2 & Hb2 & _ & Hok2).
  - injection H as <- _ <-. set (mask := if o_mask o =? 0 then _ else _).
    destruct (host_set_config_spec ip mask (o_gw o) (o_dns o) s2) as (Hc3 & _ & Hok3 & Hb3).
    destruct (host_unbind_spec DHCP_CLIENT_PORT _ (Hok3 (Hok2 (Hok1 Hok0)))) as (Hc4 & _ & Hok4 & Hb4).
    split; [done|]. split.
    { intros p. rewrite Hb4, Hb3, Hb2, Hb1, Hb0. by destruct (host_bound p s), (p =? DHCP_CLIENT_PORT). }
    exists evs, s2, ip, o. split; [done|]. split; [done|]. rewrite Hc4, Hc3.
    destruct Hx as (? & ? & ? & ? & ? & ? & ? & _ & _ & _ & _ & _ & Hip). f_equal. by apply nz_true.
  - injection H as <- _ <-. destruct (host_unbind_spec DHCP_CLIENT_PORT _ (Hok2 (Hok1 Hok0))) as (Hc4 & _ & Hok4 & Hb4).
    split; [done|]. split; [|by rewrite Hc4, Hc2, Hc1].
    intros p. rewrite Hb4, Hb2, Hb1, Hb0. by destruct (host_bound p s), (p =? DHCP_CLIENT_PORT).
Qed.

(** Configuring ends: if the clock goes forward, by at most [gap] ticks
    from one look to the next, six waits of a third of the timeout and six
    gaps are enough, whatever the network does. *)
Theorem dhcp_configure_returns {S} `{!UdpHost S, !UdpHostLaws S} timeout gap env d (s : S) :
  0 <= timeout -> 0 <= gap -> 0 <= host_now s -> clock_ok gap (host_now s) env ->
  host_now s + 6 * (timeout / 3 + gap) < last_tick (host_now s) env < 2 ^ 32 ->
  is_Some (dhcp_configure timeout env d s).
Proof.
  intros Ht Hg H0 Hc Hl. unfold dhcp_configure. destruct (host_mac s) as [mac|]; [|done].
  pose proof (host_bind_now DHCP_CLIENT_PORT s) as Hb. destruct (host_bind _ s) as [ok s0]. simpl in Hb.
  destruct ok; cbn [negb]; [|done]. pose proof (host_set_config_now 0 0 0 0 s0) as Hs. rewrite Hb in Hs.
  assert (0 <= timeout / 3) by (apply Z.div_pos; lia).
  destruct (attempts_return 3 gap (transaction_id s) mac (timeout / 3) env (reply d) (mkOpts 0 0 0 0 0)
    (host_set_config 0 0 0 0 s0)) as [[[[[ip o]|] out] s2] Ha]; rewrite ?Hs; try done; try lia; by rewrite Ha.
Qed.

(** ** Witnesses: a machine that has just booted, and a server on its wire *)

Definition booted : net (list (list Z)) :=
  set_ticks 50 (net_set_config 0 0 0 0 (demo_host 2)).
Definition demo_stack : tcp (net (list (list Z))) :=
  mkTcp (replicate 4 zero_conn) 49152 (replicate 4 0) 0 0 0 0 0 booted.

Lemma demo_stack_ok : host_ok demo_stack.
Proof.
  split; [done|]. intros i j Hi Hj. change (udp_ports (net_of demo_stack)) with demo_ports.
  assert (forall x, 0 <= x < UDP_PORTS -> u_bound (zget demo_ports x) = true -> x = 0) as H0.
  { intros x Hx Hb. destruct (decide (x = 0)); [done|]. exfalso. unfold demo_ports in Hb.
    change (?a :: ?l) with ([a] ++ l) in Hb.
    replace x with (1 + (x - 1)) in Hb by lia.
    rewrite (zget_app_r [_]), zget_replicate in Hb by (unfold UDP_PORTS in Hx; lia). done. }
  intros Hb Hb' _. by rewrite (H0 i Hi Hb), (H0 j Hj Hb').
Qed.

(** What the server says: 10.0.2.15, a /24, the router and the resolver. *)
Definition demo_items (type : Z) : list item :=
  [Opt OPT_MESSAGE_TYPE [type]; Pad; Opt OPT_SERVER_ID [10; 0; 2; 2]; Opt OPT_SUBNET_MASK [255; 255; 255; 0];
   Opt OPT_ROUTER [10; 0; 2; 2]; Opt 51 [0; 1; 81; 128]; Opt OPT_DNS [10; 0; 2; 3]].
Definition demo_reply_header : list Z :=
  zsplice 16 [10; 0; 2; 15] (message_header BOOTREPLY (transaction_id demo_stack) (demo_mac 2)).
Definition demo_reply (type : Z) : list Z :=
  demo_reply_header ++ items_bytes (demo_items type) ++ [OPT_END].
Definition demo_frame (type : Z) : list Z :=
  eth_frame broadcast_mac (demo_mac 3) ETH_P_IP
    (ip_packet 1 IP_PROTO_UDP 167772674 BROADCAST (udp_packet 67 68 (demo_reply type))).

(** Nothing at first, then the offer, a stray offer, and the acknowledgement. *)
Definition demo_env : polls :=
  [(51, []); (52, [demo_frame DHCP_OFFER]); (53, [demo_frame DHCP_OFFER]); (54, [demo_frame DHCP_ACK])].

Lemma dhcp_parse_reply_witness :
  parse (transaction_id demo_stack) (demo_reply_header ++ items_bytes (demo_items DHCP_ACK) ++ [OPT_END]) 275
    (mkOpts 0 0 0 0 0) = (true, mkOpts DHCP_ACK 4294967040 167772674 167772675 167772674).
Proof.
  rewrite (dhcp_parse_reply (transaction_id demo_stack) demo_reply_header (demo_items DHCP_ACK) [OPT_END] 275);
    [vm_compute; reflexivity|reflexivity|reflexivity|vm_compute; reflexivity|vm_compute; reflexivity| | | |].
  - unfold demo_items. repeat (apply Forall_cons; split; [exact I || (split; [split; reflexivity|vm_compute; discriminate])|]). apply Forall_nil; exact I.
  - lia.
  - vm_compute. discriminate.
  - right. reflexivity.
Defined.

Lemma dhcp_parse_in_bounds_witness :
  parse (transaction_id demo_stack) (demo_reply DHCP_ACK ++ replicate 9 7) 275 (mkOpts 0 0 0 0 0)
    = parse (transaction_id demo_stack) (demo_reply DHCP_ACK ++ replicate 9 8) 275 (mkOpts 0 0 0 0 0).
Proof.
  apply dhcp_parse_in_bounds.
  - vm_compute. reflexivity.
  - apply Forall_forall. intros b Hb. assert (forallb (fun b => (0 <=? b) && (b <? 256)) (demo_reply DHCP_ACK ++ replicate 9 7) = true) as H
      by (vm_compute; reflexivity).
    rewrite forallb_forall in H. specialize (H b ltac:(by apply list_elem_of_In)). unfold is_byte. zbool. lia.
  - split; [lia|]. vm_compute. discriminate.
Defined.

Lemma dhcp_build_roundtrip_witness :
  let m := build 7 (demo_mac 2) DHCP_REQUEST 167772687 167772674 in
  zlen m = MESSAGE /\ m_op m = BOOTREQUEST /\ m_xid m = 7 /\ zslice 28 ETH_ALEN m = demo_mac 2 /\
  parse 7 (zset m 0 BOOTREPLY) MESSAGE (mkOpts 0 1 2 3 4) = (true, mkOpts DHCP_REQUEST 1 2 3 167772674).
Proof. apply (dhcp_build_roundtrip 7 (demo_mac 2) DHCP_REQUEST 167772687 167772674); [lia|reflexivity|unfold DHCP_REQUEST; lia|lia|lia]. Defined.

Lemma dhcp_configure_sound_witness :
  match dhcp_configure 300 demo_env (mkDhcp 0 (replicate 552 0)) demo_stack with
  | Some (r, d', s') => r = true /\
      host_ok s' /\ (forall p, host_bound p s' = host_bound p demo_stack && negb (p =? DHCP_CLIENT_PORT)) /\
      exists evs s2 ip o,
        host_run (host_set_config 0 0 0 0 (snd (host_bind DHCP_CLIENT_PORT demo_stack))) evs s2 /\
        exchange (transaction_id demo_stack) (demo_mac 2) evs ip o /\
        host_config s' = mkConfig ip (if o_mask o =? 0 then 4294967040 else o_mask o) (o_gw o) (o_dns o) true
  | None => False
  end.
Proof.
  pose proof (dhcp_configure_sound 300 demo_env (mkDhcp 0 (replicate 552 0)) demo_stack (demo_mac 2)) as H.
  assert (match dhcp_configure 300 demo_env (mkDhcp 0 (replicate 552 0)) demo_stack with
          | Some (r, _, _) => r | None => false end = true) as Hr by (vm_compute; reflexivity).
  assert (fst (host_bind DHCP_CLIENT_PORT demo_stack) = true) as Hb by (vm_compute; reflexivity).
  destruct (dhcp_configure _ _ _ _) as [[[r d'] s']|]; [|discriminate]. subst r.
  specialize (H true d' s' demo_stack_ok eq_refl eq_refl). rewrite Hb in H. split; [reflexivity|exact H].
Defined.

Example demo_lease :
  match dhcp_configure 300 demo_env (mkDhcp 0 (replicate 552 0)) demo_stack with
  | Some (r, _, s') => (r, config (net_of s')) | None => (false, mkConfig 0 0 0 0 false) end
  = (true, mkConfig 167772687 4294967040 167772674 167772675 true).
Proof. vm_compute. reflexivity. Qed.

(** A network that stays silent for 800 ticks. *)
Definition silent_env : polls := (fun k => (50 + k, [])) <$> seqZ 0 800.

Lemma dhcp_configure_returns_witness :
  is_Some (dhcp_configure 300 silent_env (mkDhcp 0 (replicate 552 0)) demo_stack).
Proof.
  apply (dhcp_configure_returns 300 1); [lia|lia|discriminate| |].
  - assert (forall n a now, now <= 50 + a <= now + 1 -> clock_ok 1 now ((fun k => (50 + k, [])) <$> seqZ a (Z.of_nat n))) as Hc.
    { intros n. induction n as [|n IH]; intros a now Ha; [exact I|].
      rewrite seqZ_cons by lia. cbn [fmap list_fmap clock_ok]. split; [lia|].
      replace (Z.pred (Z.of_nat (Datatypes.S n))) with (Z.of_nat n) by lia. apply IH. lia. }
    apply (Hc 800%nat). change (host_now demo_stack) with 50. lia.
  - split; [vm_compute; reflexivity|vm_compute; reflexivity].
Defined.
