(* ===== verification/Dns.v ===== *)
(** * The resolver ([kernel/dns.c])

    Names go out as length-prefixed labels and come back the same way or as
    compression pointers; a reply is walked by offsets into the datagram, as
    the source does.  A name is the list of the bytes from the pointer on, as
    in [Kstring]; the cache is four entries, each with a 64-byte name buffer.
    The resolver runs on any [UdpHost]; [None] is one still waiting. *)

From S2P Require Import Prelude Ring Netwire Net Tcp Kstring Udphost.

Definition DNS_PORT : Z := 53.
Definition DNS_CLIENT_PORT : Z := 5353.
Definition DNS_TYPE_A : Z := 1.
Definition DNS_CLASS_IN : Z := 1.
Definition DNS_HEADER : Z := 12.
Definition DNS_CACHE : Z := 4.
Definition QUERY_SIZE : Z := 512.
Definition DOT : Z := 46.

(** ** Names *)

(** [while (name[len] && name[len] != '.') len++]. *)
Fixpoint label_len (name : list Z) : Z :=
  match name with
  | [] => 0
  | c :: name' => if nz c && negb (c =? DOT) then 1 + label_len name' else 0
  end.

(** [out] holds what has been written; [None] is the return of 0. *)
Fixpoint encode_loop (fuel : nat) (name out : list Z) (max : Z) : option (list Z) :=
  match fuel with
  | O => None
  | S fuel' =>
    if nz (deref name) then
      let len := label_len name in
      if (len =? 0) || (63 <? len) then None else
      if max <=? zlen out + len + 1 then None else
      let out := out ++ len :: zslice 0 len name in
      let name := drop (Z.to_nat len) name in
      encode_loop fuel' (if deref name =? DOT then tl name else name) out max
    else if max <? zlen out + 1 then None else Some (out ++ [0])
  end.

Definition encode_name (name : list Z) (max : Z) : option (list Z) :=
  encode_loop (S (length name)) name [] max.

(** [jumps] counts the labels; the walk gives up after 128. *)
Fixpoint skip_loop (fuel : nat) (msg : list Z) (len off jumps : Z) : Z :=
  match fuel with
  | O => len
  | S fuel' =>
    if negb (off <? len) then len else
    let b := zget msg off in
    if Z.land b 192 =? 192 then (if off + 2 <=? len then off + 2 else len) else
    if b =? 0 then off + 1 else
    let jumps := jumps + 1 in
    if 128 <? jumps then len else skip_loop fuel' msg len (off + (1 + b)) jumps
  end.

Definition skip_name (msg : list Z) (len off : Z) : Z := skip_loop 130 msg len off 0.

(** ** A reply *)

(** [for (q = 0; q < questions && p < reply.len; q++)]. *)
Fixpoint skip_questions (questions : nat) (msg : list Z) (len p : Z) : Z :=
  match questions with
  | O => p
  | S n => if p <? len then skip_questions n msg len (skip_name msg len p + 4) else p
  end.

Definition be16_at (msg : list Z) (p : Z) : Z := Z.lor (Z.shiftl (zget msg p) 8) (zget msg (p + 1)).
Definition be32_at (msg : list Z) (p : Z) : Z :=
  Z.lor (Z.lor (Z.lor (u32 (Z.shiftl (zget msg p) 24)) (Z.shiftl (zget msg (p + 1)) 16))
    (Z.shiftl (zget msg (p + 2)) 8)) (zget msg (p + 3)).

(** The address of the first A record. *)
Fixpoint find_answer (answers : nat) (msg : list Z) (len p : Z) : option Z :=
  match answers with
  | O => None
  | S n =>
    if len <? p + 10 then None else
    let p := skip_name msg len p in
    if len <? p + 10 then None else
    let type := be16_at msg p in
    let rdlen := be16_at msg (p + 8) in
    let p := p + 10 in
    if len <? p + rdlen then None else
    if (type =? DNS_TYPE_A) && (rdlen =? 4) then Some (be32_at msg p)
    else find_answer n msg len (p + rdlen)
  end.

Definition reply_answer (msg : list Z) (len : Z) : option Z :=
  let questions := ntohs (rd16 msg 4) in
  let answers := ntohs (rd16 msg 6) in
  let p := skip_questions (Z.to_nat questions) msg len DNS_HEADER in
  find_answer (Z.to_nat answers) msg len p.

(** ** The cache *)

Record dns_entry := mkEntry { e_name : list Z; e_ip : Z; e_stamp : Z; e_valid : bool }.

#[export] Instance dns_entry_inhabited : Inhabited dns_entry := populate (mkEntry [] 0 0 false).

Definition cache_find (name : list Z) (cache : list dns_entry) : option Z :=
  find_up 4 0 (fun i => e_valid (zget cache i) && (kstrcmp (e_name (zget cache i)) name =? 0)).

(** [for (i = 1; i < DNS_CACHE; i++) { if (!valid) ... break; if (older) ... }]. *)
Fixpoint pick_slot (n : nat) (i slot : Z) (cache : list dns_entry) : Z :=
  match n with
  | O => slot
  | S n' =>
    if negb (e_valid (zget cache i)) then i
    else pick_slot n' (i + 1) (if e_stamp (zget cache i) <? e_stamp (zget cache slot) then i else slot) cache
  end.

(** The slot's buffer and the name, side by side in memory. *)
Definition store_name (buf name : list Z) : list Z :=
  zslice 0 64 (kstrlcpy 0 64 64 (zslice 0 64 buf ++ name ++ [0])).

Definition cache_store (name : list Z) (ip now : Z) (cache : list dns_entry) : list dns_entry :=
  let slot := pick_slot 3 1 0 cache in
  zset cache slot (mkEntry (store_name (e_name (zget cache slot)) name) ip now true).

(** ** A query *)

Definition dns_query (id : Z) (encoded : list Z) : list Z :=
  le16 (htons id) ++ le16 (htons 256) ++ le16 (htons 1) ++ le16 0 ++ le16 0 ++ le16 0
  ++ encoded ++ [0; DNS_TYPE_A; 0; DNS_CLASS_IN].

Definition query_id (now : Z) : Z := u16 (Z.lor 19968 (Z.land now 255)).

Section client.
  Context {S : Type} `{!UdpHost S}.

(** The first datagram that carries the query's id decides. *)
Fixpoint wait_answer (id deadline : Z) (env : polls) (s : S) : option (option Z * S) :=
  match env with
  | [] => None
  | (now, frames) :: env' =>
    let s := host_at now s in
    if now <? deadline then
      let s := host_poll frames s in
      let '(g, s) := host_recv DNS_CLIENT_PORT s in
      match g with
      | None => wait_answer id deadline env' s
      | Some r =>
        if d_len r <? DNS_HEADER then wait_answer id deadline env' s else
        if negb (ntohs (rd16 (d_data r) 0) =? id) then wait_answer id deadline env' s else
        if nz (Z.land (ntohs (rd16 (d_data r) 2)) 15) then Some (None, s) else
        Some (reply_answer (d_data r) (d_len r), s)
      end
    else Some (None, s)
  end.

(** [name] is NULL or a string; the answer is the return of 1 with [*out]. *)
Definition dns_resolve (name : option (list Z)) (timeout_ticks : Z) (env : polls)
    (cache : list dns_entry) (s : S) : option (option Z * list dns_entry * S) :=
  match name with
  | None => Some (None, cache, s)
  | Some name =>
    match net_parse_ip name with
    | Some ip => Some (Some ip, cache, s)
    | None =>
      let now := host_now s in
      match cache_find name cache with
      | Some i => Some (Some (e_ip (zget cache i)), cache, s)
      | None =>
        let server := c_dns (host_config s) in
        if server =? 0 then Some (None, cache, s) else
        let id := query_id now in
        match encode_name name (QUERY_SIZE - DNS_HEADER - 4) with
        | None => Some (None, cache, s)
        | Some encoded =>
          let '(ok, s) := host_bind DNS_CLIENT_PORT s in
          if negb ok then Some (None, cache, s) else
          let '(_, s) := host_send server DNS_CLIENT_PORT DNS_PORT (dns_query id encoded) s in
          match wait_answer id (u32 (now + timeout_ticks)) env s with
          | None => None
          | Some (found, s) =>
            let s := host_unbind DNS_CLIENT_PORT s in
            match found with
            | Some ip => Some (Some ip, cache_store name ip (host_now s) cache, s)
            | None => Some (None, cache, s)
            end
          end
        end
      end
    end
  end.
End client.

(** ** Names, as labels *)

(** The labels of a dotted name; a final dot adds none. *)
Fixpoint labels_from (w l : list Z) : list (list Z) :=
  match l with
  | [] => match w with [] => [] | _ => [w] end
  | c :: l' => if c =? DOT then w :: labels_from [] l' else labels_from (w ++ [c]) l'
  end.
Definition labels (l : list Z) : list (list Z) := labels_from [] l.

Definition label_bytes (w : list Z) : list Z := zlen w :: w.
Definition wire (ls : list (list Z)) : list Z := concat (label_bytes <$> ls).

Definition label_fits (w : list Z) : bool := (1 <=? zlen w) && (zlen w <=? 63).

(** What [encode_name] should produce. *)
Definition encoding (l : list Z) (max : Z) : option (list Z) :=
  if forallb label_fits (labels l) && (zlen (wire (labels l)) <? max)
  then Some (wire (labels l) ++ [0]) else None.

(** Reading an encoded name back. *)
Fixpoint unwire (fuel : nat) (l : list Z) : option (list (list Z)) :=
  match fuel, l with
  | S fuel', n :: l' =>
      if n =? 0 then Some []
      else match unwire fuel' (drop (Z.to_nat n) l') with
           | Some ls => Some (zslice 0 n l' :: ls)
           | None => None
           end
  | _, _ => None
  end.

Lemma labels_from_app w lab l :
  Forall (fun c => c <> DOT) lab -> labels_from w (lab ++ l) = labels_from (w ++ lab) l.
Proof.
  revert w. induction lab as [|c lab IH]; intros w H; simpl; [by rewrite app_nil_r|].
  apply Forall_cons in H as [Hc H]. rewrite (proj2 (Z.eqb_neq c DOT) Hc), IH by done. by rewrite <-app_assoc.
Qed.

Lemma wire_cons w ls : wire (w :: ls) = label_bytes w ++ wire ls.
Proof. done. Qed.

Lemma zlen_label w : zlen (label_bytes w) = 1 + zlen w.
Proof. apply zlen_cons. Qed.

(** The first label and what follows it. *)
Lemma label_split name l : c_string name l ->
  exists lab rest, l = lab ++ rest /\ label_len name = zlen lab /\ zslice 0 (zlen lab) name = lab /\
    Forall (fun c => c <> DOT) lab /\ c_string (drop (Z.to_nat (zlen lab)) name) rest /\
    (rest = [] \/ exists r, rest = DOT :: r).
Proof.
  revert name. induction l as [|c l IH]; intros name Hs.
  - exists [], []. destruct Hs as (tail & -> & _). split_and!; try done; [by exists tail|by left].
  - apply c_string_cons in Hs as (s & -> & Hc & Hs). simpl. unfold nz.
    rewrite (proj2 (Z.eqb_neq c 0)) by lia. cbn [negb andb]. destruct (Z.eqb_spec c DOT) as [->|Hd]; cbn [negb].
    + exists [], (DOT :: l). destruct Hs as (tail & -> & Hl). split_and!; try done; [|by right; eauto].
      exists tail. split; [done|]. by apply Forall_cons.
    + destruct (IH s Hs) as (lab & rest & -> & -> & Hsl & Hf & Hr & He).
      exists (c :: lab), rest. rewrite zlen_cons. pose proof (zlen_nonneg lab).
      replace (Z.to_nat (1 + zlen lab)) with (S (Z.to_nat (zlen lab))) by lia. split_and!; try done.
      * unfold zslice in *. change (Z.to_nat 0) with O in *. rewrite drop_0 in *.
        replace (Z.to_nat (1 + zlen lab)) with (S (Z.to_nat (zlen lab))) by lia. simpl. by rewrite Hsl.
      * by apply Forall_cons.
Qed.

Lemma encode_loop_spec fuel name l out max :
  c_string name l -> (length l < fuel)%nat ->
  encode_loop fuel name out max =
    if forallb label_fits (labels l) && (zlen out + zlen (wire (labels l)) <? max)
    then Some (out ++ wire (labels l) ++ [0]) else None.
Proof.
  revert name l out. induction fuel as [|fuel IH]; intros name l out Hs Hf; [lia|]. cbn [encode_loop].
  destruct l as [|c l].
  { rewrite (c_string_nil _ Hs). change (nz 0) with false. cbn [labels labels_from wire concat fmap list_fmap forallb andb].
    rewrite app_nil_l, Z.add_0_r. destruct (Z.ltb_spec max (zlen out + 1)), (Z.ltb_spec (zlen out) max); done || lia. }
  assert (deref name = c /\ 1 <= c < 256) as [-> Hc] by (apply c_string_cons in Hs as (s & -> & Hc & _); done).
  unfold nz. rewrite (proj2 (Z.eqb_neq c 0)) by lia. cbn [negb].
  destruct (label_split name _ Hs) as (lab & rest & Hl & -> & Hsl & Hdot & Hr & Hrest). rewrite Hsl.
  assert (labels (c :: l) = lab :: labels (tl rest)) as ->.
  { rewrite Hl. unfold labels. rewrite labels_from_app by done. destruct Hrest as [->|[r ->]].
    - simpl. destruct lab; [by rewrite app_nil_l in Hl|done].
    - simpl. done. }
  rewrite wire_cons, zlen_app, zlen_label. cbn [forallb]. unfold label_fits at 1.
  pose proof (zlen_nonneg lab). pose proof (zlen_nonneg (wire (labels (tl rest)))).
  destruct (Z.eqb_spec (zlen lab) 0), (Z.leb_spec 1 (zlen lab)); try lia; cbn [orb andb]; [done|].
  destruct (Z.ltb_spec 63 (zlen lab)), (Z.leb_spec (zlen lab) 63); try lia; cbn [orb andb]; [done|].
  destruct (Z.leb_spec max (zlen out + zlen lab + 1)).
  { by rewrite (proj2 (Z.ltb_ge (zlen out + _) max)), andb_false_r by lia. }
  assert (c_string (if deref (drop (Z.to_nat (zlen lab)) name) =? DOT
    then tl (drop (Z.to_nat (zlen lab)) name) else drop (Z.to_nat (zlen lab)) name) (tl rest)) as Hnext.
  { destruct Hrest as [->|[r ->]].
    - by rewrite (c_string_nil _ Hr).
    - apply c_string_cons in Hr as (s & -> & _ & Hr). exact Hr. }
  rewrite (IH _ (tl rest) (out ++ zlen lab :: lab) Hnext).
  - rewrite zlen_app, zlen_cons, <-!app_assoc. cbn [app label_bytes].
    by replace (zlen out + (1 + zlen lab) + zlen (wire (labels (tl rest))))
      with (zlen out + (1 + zlen lab + zlen (wire (labels (tl rest))))) by lia.
  - pose proof (f_equal length Hl) as Hlen. rewrite length_app in Hlen. cbn [length] in *.
    destruct rest; simpl; unfold zlen in *; simpl in *; lia.
Qed.

Lemma unwire_wire fuel ls rest :
  forallb label_fits ls = true -> (length ls < fuel)%nat -> unwire fuel (wire ls ++ 0 :: rest) = Some ls.
Proof.
  revert fuel. induction ls as [|w ls IH]; intros fuel Hf Hl; destruct fuel as [|fuel]; simpl in Hl; try lia; [done|].
  simpl in Hf. apply andb_true_iff in Hf as [Hw Hf]. unfold label_fits in Hw. zbool.
  rewrite wire_cons. cbn [label_bytes app unwire]. rewrite (proj2 (Z.eqb_neq (zlen w) 0)) by lia.
  assert (drop (Z.to_nat (zlen w)) ((w ++ wire ls) ++ 0 :: rest) = wire ls ++ 0 :: rest) as ->.
  { rewrite <-app_assoc. unfold zlen. rewrite Nat2Z.id. by rewrite drop_app_length. }
  rewrite IH by (done || lia). do 2 f_equal. rewrite <-app_assoc. by apply zslice_app_l.
Qed.

(** ** A reply, as its sender wrote it *)

(** A name in a message: labels, then the root or a compression pointer. *)
Record wire_name := mkName { wn_labels : list (list Z); wn_pointer : option (Z * Z) }.

Definition name_bytes (n : wire_name) : list Z :=
  wire (wn_labels n) ++ match wn_pointer n with None => [0] | Some (a, b) => [a; b] end.

Definition name_ok (n : wire_name) : Prop :=
  forallb label_fits (wn_labels n) = true /\ zlen (wn_labels n) <= 128 /\
  match wn_pointer n with None => True | Some (a, _) => 192 <= a < 256 end.

(** A question: a name, then type and class. *)
Definition question_bytes (q : wire_name * list Z) : list Z := name_bytes (fst q) ++ snd q.
Definition question_ok (q : wire_name * list Z) : Prop := name_ok (fst q) /\ zlen (snd q) = 4.

Record rr := mkRR { rr_name : wire_name; rr_type : Z; rr_class_ttl : list Z; rr_data : list Z }.

Definition rr_bytes (r : rr) : list Z :=
  name_bytes (rr_name r) ++ be16 (rr_type r) ++ rr_class_ttl r ++ be16 (zlen (rr_data r)) ++ rr_data r.
Definition rr_ok (r : rr) : Prop :=
  name_ok (rr_name r) /\ 0 <= rr_type r < 2 ^ 16 /\ zlen (rr_class_ttl r) = 6 /\
  zlen (rr_data r) < 2 ^ 16 /\ Forall is_byte (rr_data r).

(** An address from four bytes, highest first. *)
Definition address (l : list Z) : Z :=
  16777216 * zget l 0 + 65536 * zget l 1 + 256 * zget l 2 + zget l 3.

(** The first A record's address. *)
Fixpoint first_A (rs : list rr) : option Z :=
  match rs with
  | [] => None
  | r :: rs => if (rr_type r =? DNS_TYPE_A) && (zlen (rr_data r) =? 4) then Some (address (rr_data r))
               else first_A rs
  end.

Lemma not_pointer b : 0 <= b <= 63 -> (Z.land b 192 =? 192) = false.
Proof.
  intros Hb. assert (forallb (fun b => negb (Z.land b 192 =? 192)) (seqZ 0 64) = true) as H by (by vm_compute).
  rewrite forallb_forall in H. apply negb_true_iff, H, list_elem_of_In, elem_of_seqZ. lia.
Qed.

Lemma is_pointer b : 192 <= b < 256 -> (Z.land b 192 =? 192) = true.
Proof.
  intros Hb. assert (forallb (fun b => Z.land b 192 =? 192) (seqZ 192 64) = true) as H by (by vm_compute).
  rewrite forallb_forall in H. apply H, list_elem_of_In, elem_of_seqZ. lia.
Qed.

Lemma name_bytes_pos n : 1 <= zlen (name_bytes n).
Proof.
  unfold name_bytes. rewrite zlen_app. pose proof (zlen_nonneg (wire (wn_labels n))).
  destruct (wn_pointer n) as [[a b]|]; unfold zlen at 2; simpl; lia.
Qed.

Lemma skip_loop_name fuel pre ls p rest len off jumps :
  zlen pre = off -> name_ok (mkName ls p) ->
  jumps + zlen ls <= 128 -> zlen ls < Z.of_nat fuel ->
  off + zlen (name_bytes (mkName ls p)) <= len ->
  skip_loop fuel (pre ++ name_bytes (mkName ls p) ++ rest) len off jumps
    = off + zlen (name_bytes (mkName ls p)).
Proof.
  revert fuel pre off jumps. induction ls as [|w ls IH]; intros fuel pre off jumps Hpre Hok Hj Hf Hl;
    (destruct fuel as [|fuel]; [unfold zlen in Hf; simpl in Hf; lia|]); cbn [skip_loop].
  - pose proof (name_bytes_pos (mkName [] p)). rewrite (proj2 (Z.ltb_lt off len)) by lia. cbn [negb]. destruct Hok as (_ & _ & Hp).
    unfold name_bytes in *. cbn [wn_labels wn_pointer wire concat fmap list_fmap app] in *. destruct p as [[a b]|].
    + cbn [app]. rewrite zget_mid by done. rewrite is_pointer by done.
      change (zlen [a; b]) with 2 in *. by rewrite (proj2 (Z.leb_le (off + 2) len)) by lia.
    + cbn [app]. rewrite zget_mid by done. done.
  - assert (name_bytes (mkName (w :: ls) p) = label_bytes w ++ name_bytes (mkName ls p)) as Hn
      by (unfold name_bytes; cbn [wn_labels wn_pointer]; rewrite wire_cons; by rewrite <-app_assoc).
    pose proof (name_bytes_pos (mkName ls p)).
    rewrite Hn, zlen_app, zlen_label in *. destruct Hok as (Hls & Hlen & Hp). cbn [wn_labels] in *. simpl in Hls.
    apply andb_true_iff in Hls as [Hw Hls]. unfold label_fits in Hw. zbool. rewrite zlen_cons in *.
    rewrite (proj2 (Z.ltb_lt off len)) by lia. cbn [negb].
    cbn [label_bytes app]. rewrite zget_mid by done. rewrite not_pointer by lia.
    rewrite (proj2 (Z.eqb_neq (zlen w) 0)), (proj2 (Z.ltb_ge 128 (jumps + 1))) by (pose proof (zlen_nonneg ls); lia).
    replace (pre ++ zlen w :: (w ++ name_bytes (mkName ls p)) ++ rest)
      with ((pre ++ label_bytes w) ++ name_bytes (mkName ls p) ++ rest) by (by rewrite <-!app_assoc).
    rewrite IH; [lia|rewrite zlen_app, zlen_label; lia|repeat split; [done|simpl; lia|done]|lia|lia|lia].
Qed.

Lemma skip_name_spec pre n rest len :
  name_ok n -> zlen pre + zlen (name_bytes n) <= len ->
  skip_name (pre ++ name_bytes n ++ rest) len (zlen pre) = zlen pre + zlen (name_bytes n).
Proof.
  intros Hok Hl. destruct n as [ls p]. apply skip_loop_name; try done; destruct Hok as (_ & H & _); simpl in H; lia.
Qed.

Lemma skip_questions_spec pre qs rest len :
  Forall question_ok qs -> zlen pre + zlen (concat (question_bytes <$> qs)) <= len ->
  skip_questions (length qs) (pre ++ concat (question_bytes <$> qs) ++ rest) len (zlen pre)
    = zlen pre + zlen (concat (question_bytes <$> qs)).
Proof.
  revert pre. induction qs as [|[n tc] qs IH]; intros pre Hok Hl.
  { unfold zlen at 3. simpl. lia. }
  apply Forall_cons in Hok as [[Hn Ht] Hok]. cbn [fst snd] in *. cbn [fmap list_fmap concat length skip_questions] in *.
  assert (zlen (question_bytes (n, tc)) = zlen (name_bytes n) + zlen tc) as Hq by apply zlen_app.
  rewrite !zlen_app, Hq in *.
  change (question_bytes (n, tc)) with (name_bytes n ++ tc).
  pose proof (name_bytes_pos n). pose proof (zlen_nonneg (concat (question_bytes <$> qs))).
  rewrite (proj2 (Z.ltb_lt (zlen pre) len)) by lia. rewrite <-!app_assoc.
  rewrite skip_name_spec by (done || lia).
  replace (pre ++ name_bytes n ++ tc ++ concat (question_bytes <$> qs) ++ rest)
    with ((pre ++ name_bytes n ++ tc) ++ concat (question_bytes <$> qs) ++ rest) by (by rewrite <-!app_assoc).
  assert (zlen pre + zlen (name_bytes n) + 4 = zlen (pre ++ name_bytes n ++ tc)) as -> by (rewrite !zlen_app; lia).
  rewrite IH by (rewrite ?zlen_app; done || lia). rewrite !zlen_app. lia.
Qed.

Lemma be16_at_mid pre v rest k : 0 <= v < 2 ^ 16 -> zlen pre = k -> be16_at (pre ++ be16 v ++ rest) k = v.
Proof.
  intros Hv Hk. unfold be16_at, be16. cbn [app]. rewrite zget_mid by done.
  replace (pre ++ v / 256 mod 256 :: v mod 256 :: rest) with ((pre ++ [v / 256 mod 256]) ++ v mod 256 :: rest)
    by (by rewrite <-app_assoc).
  rewrite zget_mid by (rewrite zlen_app, Hk; done).
  destruct (split16 v Hv) as (Hs & Ha & Hb). unfold is_byte in *. rewrite lor_shiftl_add by lia. lia.
Qed.

Lemma be32_at_mid pre l rest k :
  zlen l = 4 -> Forall is_byte l -> zlen pre = k -> be32_at (pre ++ l ++ rest) k = address l.
Proof.
  intros Hl Hb <-. unfold be32_at.
  assert (forall i, 0 <= i < 4 -> zget (pre ++ l ++ rest) (zlen pre + i) = zget l i) as Hz
    by (intros i Hi; rewrite zget_app_r by lia; apply zget_app_l; lia).
  rewrite <-(Z.add_0_r (zlen pre)) at 1. rewrite !Hz by lia. unfold address.
  assert (forall i, 0 <= i < 4 -> is_byte (zget l i)) as Hby by (intros; apply zget_Forall; [done|lia]).
  unfold is_byte in Hby. pose proof (Hby 0). pose proof (Hby 1). pose proof (Hby 2). pose proof (Hby 3).
  rewrite !Z.shiftl_mul_pow2 by lia. rewrite u32_small by lia.
  rewrite (lor_mul_add _ (zget l 1 * 2 ^ 16) 24) by lia.
  replace (zget l 0 * 2 ^ 24 + zget l 1 * 2 ^ 16) with ((zget l 0 * 2 ^ 8 + zget l 1) * 2 ^ 16) by lia.
  rewrite (lor_mul_add _ (zget l 2 * 2 ^ 8) 16) by lia.
  replace ((zget l 0 * 2 ^ 8 + zget l 1) * 2 ^ 16 + zget l 2 * 2 ^ 8)
    with (((zget l 0 * 2 ^ 8 + zget l 1) * 2 ^ 8 + zget l 2) * 2 ^ 8) by lia.
  rewrite (lor_mul_add _ (zget l 3) 8) by lia. lia.
Qed.

Lemma find_answer_spec pre rs rest len :
  Forall rr_ok rs -> zlen pre + zlen (concat (rr_bytes <$> rs)) <= len ->
  find_answer (length rs) (pre ++ concat (rr_bytes <$> rs) ++ rest) len (zlen pre) = first_A rs.
Proof.
  revert pre. induction rs as [|r rs IH]; intros pre Hok Hl; [done|].
  apply Forall_cons in Hok as [(Hn & Ht & Hc & Hd & Hb) Hok].
  cbn [fmap list_fmap concat length find_answer first_A] in *. set (tail := concat (rr_bytes <$> rs)) in *.
  pose proof (zlen_nonneg tail). pose proof (zlen_nonneg (rr_data r)). pose proof (name_bytes_pos (rr_name r)).
  unfold rr_bytes in *. rewrite !zlen_app in Hl. change (zlen (be16 _)) with 2 in Hl.
  rewrite (proj2 (Z.ltb_ge len (zlen pre + 10))) by lia. rewrite <-!app_assoc.
  rewrite skip_name_spec by (done || lia). set (k := zlen pre + zlen (name_bytes (rr_name r))).
  set (m := pre ++ _). rewrite (proj2 (Z.ltb_ge len (k + 10))) by lia.
  assert (be16_at m k = rr_type r) as ->.
  { unfold m. rewrite (app_assoc pre). apply be16_at_mid; [done|]. rewrite zlen_app. done. }
  assert (be16_at m (k + 8) = zlen (rr_data r)) as ->.
  { replace m with ((pre ++ name_bytes (rr_name r) ++ be16 (rr_type r) ++ rr_class_ttl r)
      ++ be16 (zlen (rr_data r)) ++ rr_data r ++ tail ++ rest) by (unfold m; by rewrite <-!app_assoc).
    apply be16_at_mid; [lia|]. rewrite !zlen_app. change (zlen (be16 _)) with 2. lia. }
  rewrite (proj2 (Z.ltb_ge len (k + 10 + zlen (rr_data r)))) by lia.
  destruct (_ && _) eqn:HA; zbool.
  - f_equal. replace m with ((pre ++ name_bytes (rr_name r) ++ be16 (rr_type r) ++ rr_class_ttl r
      ++ be16 (zlen (rr_data r))) ++ rr_data r ++ tail ++ rest) by (unfold m; by rewrite <-!app_assoc).
    apply be32_at_mid; [done|done|]. rewrite !zlen_app. change (zlen (be16 _)) with 2. lia.
  - clear HA. replace m with ((pre ++ name_bytes (rr_name r) ++ be16 (rr_type r) ++ rr_class_ttl r
      ++ be16 (zlen (rr_data r)) ++ rr_data r) ++ tail ++ rest) by (unfold m; by rewrite <-!app_assoc).
    replace (k + 10 + zlen (rr_data r)) with (zlen (pre ++ name_bytes (rr_name r) ++ be16 (rr_type r) ++ rr_class_ttl r
      ++ be16 (zlen (rr_data r)) ++ rr_data r)) by (rewrite !zlen_app; change (zlen (be16 _)) with 2; lia).
    apply IH; [done|]. rewrite !zlen_app. change (zlen (be16 _)) with 2. lia.
Qed.

(** ** Only what arrived is read *)

Section prefix.
  Context (m m' : list Z) (len : Z).
  Hypothesis Hsame : zslice 0 len m = zslice 0 len m'.
  Hypothesis Hbytes : Forall is_byte m.
  Hypothesis Hlen : len <= zlen m.

Lemma prefix_get i : 0 <= i < len -> zget m i = zget m' i /\ is_byte (zget m i).
Proof.
  intros Hi. split; [by apply (same_prefix_get m m' len)|]. apply zget_Forall; [done|lia].
Qed.

Lemma skip_loop_prefix fuel off jumps :
  0 <= off -> 0 <= len -> skip_loop fuel m len off jumps = skip_loop fuel m' len off jumps /\
    0 <= skip_loop fuel m len off jumps.
Proof.
  revert off jumps. induction fuel as [|fuel IH]; intros off jumps Ho Hl; cbn [skip_loop]; [lia|].
  destruct (Z.ltb_spec off len); cbn [negb]; [|lia].
  destruct (prefix_get off ltac:(lia)) as [<- Hb]. unfold is_byte in Hb.
  destruct (_ =? 192); [destruct (off + 2 <=? len); lia|]. destruct (_ =? 0); [lia|].
  destruct (128 <? _); [lia|]. apply IH; lia.
Qed.

Lemma skip_name_prefix off :
  0 <= off -> 0 <= len -> skip_name m len off = skip_name m' len off /\ 0 <= skip_name m len off.
Proof. exact (skip_loop_prefix 130 off 0). Qed.

Lemma be16_at_prefix p : 0 <= p -> p + 2 <= len -> be16_at m p = be16_at m' p /\ 0 <= be16_at m p.
Proof.
  intros Hp Hl. unfold be16_at.
  destruct (prefix_get p ltac:(lia)) as [<- Ha], (prefix_get (p + 1) ltac:(lia)) as [<- Hb]. unfold is_byte in *.
  split; [done|]. rewrite lor_shiftl_add by lia. lia.
Qed.

Lemma skip_questions_prefix n p :
  0 <= p -> 0 <= len -> skip_questions n m len p = skip_questions n m' len p /\ 0 <= skip_questions n m len p.
Proof.
  revert p. induction n as [|n IH]; intros p Hp Hl; cbn [skip_questions]; [lia|].
  destruct (p <? len); [|lia]. destruct (skip_name_prefix p Hp Hl) as [He H0].
  rewrite <-He. apply IH; lia.
Qed.

Lemma find_answer_prefix n p : 0 <= p -> 0 <= len -> find_answer n m len p = find_answer n m' len p.
Proof.
  revert p. induction n as [|n IH]; intros p Hp Hl; cbn [find_answer]; [done|].
  destruct (len <? p + 10); [done|]. destruct (skip_name_prefix p Hp Hl) as [He H0].
  rewrite <-He. set (k := skip_name m len p) in *.
  destruct (Z.ltb_spec len (k + 10)); [done|].
  destruct (be16_at_prefix k H0 ltac:(lia)) as [<- _].
  destruct (be16_at_prefix (k + 8) ltac:(lia) ltac:(lia)) as [<- Hr].
  destruct (Z.ltb_spec len (k + 10 + be16_at m (k + 8))); [done|].
  destruct (_ && _) eqn:HA; zbool; [|apply IH; lia]. unfold be32_at.
  destruct (prefix_get (k + 10) ltac:(lia)) as [<- _], (prefix_get (k + 10 + 1) ltac:(lia)) as [<- _],
    (prefix_get (k + 10 + 2) ltac:(lia)) as [<- _], (prefix_get (k + 10 + 3) ltac:(lia)) as [<- _]. done.
Qed.
End prefix.

(** ** The cache *)

Lemma store_name_spec buf name l :
  zlen buf = 64 -> c_string (name ++ [0]) l ->
  exists rest, store_name buf name = take 63 l ++ 0 :: rest /\ zlen (store_name buf name) = 64.
Proof.
  intros Hb Hs. unfold store_name. rewrite (zslice_all buf) by lia. pose proof (zlen_nonneg (name ++ [0])).
  assert (zlen (buf ++ name ++ [0]) = 64 + zlen (name ++ [0])) as Hm by (rewrite zlen_app; lia).
  rewrite (kstrlcpy_spec 0 64 64 _ l); try lia.
  2: { change (Z.to_nat 64) with 64%nat. rewrite drop_app_ge by (unfold zlen in Hb; lia).
       unfold zlen in Hb. by replace (64 - length buf)%nat with 0%nat by lia. }
  change (Z.to_nat (64 - 1)) with 63%nat. set (w := take 63 l).
  assert (zlen w <= 63) as Hw by (unfold w, zlen; rewrite length_take; lia). pose proof (zlen_nonneg w).
  assert (zlen (w ++ [0]) = zlen w + 1) as Hw1 by (by rewrite zlen_app).
  exists (zslice 0 (63 - zlen w) (drop (Z.to_nat (zlen w + 1)) (buf ++ name ++ [0]))). split.
  - unfold zsplice, zslice. change (Z.to_nat 0) with O. rewrite take_0, !drop_0, app_nil_l.
    rewrite <-app_assoc, take_app_ge by (unfold zlen in *; lia). f_equal. cbn [app].
    replace (Z.to_nat 64 - length w)%nat with (S (Z.to_nat (63 - zlen w))) by (unfold zlen in *; lia).
    rewrite firstn_cons. do 3 f_equal. rewrite Nat.add_0_l, length_app. unfold zlen. cbn [length]. lia.
  - apply zlen_zslice; [lia|lia|]. rewrite zlen_zsplice; lia.
Qed.

Definition entry_ok (e : dns_entry) : Prop := zlen (e_name e) = 64 /\ exists l, c_string (e_name e) l.
Definition cache_ok (cache : list dns_entry) : Prop := zlen cache = DNS_CACHE /\ Forall entry_ok cache.

Lemma c_string_app s t l : c_string s l -> c_string (s ++ t) l.
Proof. intros (rest & -> & H). exists (rest ++ t). by rewrite <-app_assoc. Qed.

Lemma pick_slot_range n i slot cache : 0 <= slot < i -> i + Z.of_nat n <= 4 -> 0 <= pick_slot n i slot cache < 4.
Proof.
  revert i slot. induction n as [|n IH]; intros i slot Hs Hi; cbn [pick_slot]; [lia|].
  destruct (negb _); [lia|]. apply IH; [case_match; lia|lia].
Qed.

(** What a store leaves: the name, cut to 63 bytes, and its address. *)
Lemma cache_store_spec name l ip now cache :
  cache_ok cache -> c_string name l ->
  let slot := pick_slot 3 1 0 cache in
  cache_ok (cache_store name ip now cache) /\ 0 <= slot < 4 /\
  (forall i, 0 <= i < 4 -> i <> slot -> zget (cache_store name ip now cache) i = zget cache i) /\
  exists buf, zget (cache_store name ip now cache) slot = mkEntry buf ip now true /\ c_string buf (take 63 l).
Proof.
  intros [Hl Hok] Hs. cbv zeta. unfold cache_store, DNS_CACHE in *.
  assert (0 <= pick_slot 3 1 0 cache < 4) as Hslot by (apply pick_slot_range; lia).
  set (slot := pick_slot 3 1 0 cache) in *.
  assert (entry_ok (zget cache slot)) as [Hb _] by (apply zget_Forall; [done|lia]).
  destruct (store_name_spec (e_name (zget cache slot)) name l Hb (c_string_app _ _ _ Hs)) as (rest & Hst & Hlen).
  assert (c_string (store_name (e_name (zget cache slot)) name) (take 63 l)) as Hc.
  { exists rest. split; [done|]. destruct Hs as (_ & _ & HF). by apply Forall_take. }
  split; [split; [by rewrite zlen_zset|apply zset_Forall; [done|split; [done|eauto]]]|]. split; [done|]. split.
  - intros i Hi Hne. apply zget_zset_ne; lia.
  - eexists. split; [apply zget_zset_eq; lia|done].
Qed.

Lemma cache_find_store name l query lq ip now cache :
  cache_ok cache -> c_string name l -> c_string query lq -> lq = take 63 l ->
  cache_find query cache = None ->
  exists i, cache_find query (cache_store name ip now cache) = Some i /\
    e_ip (zget (cache_store name ip now cache) i) = ip.
Proof.
  intros Hok Hs Hq Hlq Hnone. destruct (cache_store_spec name l ip now cache Hok Hs) as (_ & Hslot & Hoth & buf & Hnew & Hbuf).
  set (slot := pick_slot 3 1 0 cache) in *. exists slot. rewrite Hnew. split; [|done].
  apply find_up_first; [lia| |].
  - rewrite Hnew. simpl. apply Z.eqb_eq. by apply (kstrcmp_eq _ _ _ _ Hbuf Hq).
  - intros j Hj. rewrite Hoth by lia. unfold cache_find in Hnone. rewrite find_up_None in Hnone. apply Hnone. lia.
Qed.

(** A name of more than 63 bytes is stored cut short, so the name that is its
    first 63 bytes is answered with its address. *)
Lemma dns_cache_truncates name l query ip now cache :
  cache_ok cache -> c_string name l -> 63 < zlen l -> c_string query (take 63 l) ->
  cache_find query cache = None ->
  exists i, cache_find query (cache_store name ip now cache) = Some i /\
    e_ip (zget (cache_store name ip now cache) i) = ip.
Proof. intros Hok Hs _ Hq. by apply (cache_find_store name l query (take 63 l)). Qed.

(** ** A query *)

(** The datagram answers the query [id]. *)
Definition answers_query (id : Z) (g : udp_datagram) (ip : Z) : Prop :=
  DNS_HEADER <= d_len g /\ ntohs (rd16 (d_data g) 0) = id /\ Z.land (ntohs (rd16 (d_data g) 2)) 15 = 0 /\
  reply_answer (d_data g) (d_len g) = Some ip.

Section resolver_runs.
  Context {S : Type} `{!UdpHost S, !UdpHostLaws S}.

Lemma wait_answer_run id deadline env (s : S) found s' :
  wait_answer id deadline env s = Some (found, s') ->
  exists evs, host_run s evs s' /\
    match found with
    | Some ip => exists pre g, evs = pre ++ [Took DNS_CLIENT_PORT g] /\ answers_query id g ip
    | None => True
    end.
Proof.
  revert s. induction env as [|[now frames] env IH]; intros s H; [done|]. cbn [wait_answer] in H.
  destruct (now <? deadline).
  2: { injection H as <- <-. exists []. split; [apply host_run_one, hs_at|done]. }
  destruct (host_recv DNS_CLIENT_PORT _) as [g s2] eqn:Hr. apply turn_run in Hr as [H2 _].
  assert (wait_answer id deadline env s2 = Some (found, s') -> exists evs, host_run s evs s' /\
    match found with
    | Some ip => exists pre g, evs = pre ++ [Took DNS_CLIENT_PORT g] /\ answers_query id g ip
    | None => True end) as Hnext.
  { intros Hw. destruct (IH _ Hw) as (evs & Hrun & Hok). eexists. split; [by eapply host_run_app|].
    destruct found as [ip|]; [|done]. destruct Hok as (pre & g' & -> & Ha).
    eexists (_ ++ pre), g'. by rewrite app_assoc. }
  destruct g as [g|]; [|by apply Hnext]. destruct (Z.ltb_spec (d_len g) DNS_HEADER); [by apply Hnext|].
  destruct (Z.eqb_spec (ntohs (rd16 (d_data g) 0)) id); cbn [negb] in H; [|by apply Hnext].
  destruct (nz _) eqn:Hrc; injection H as <- <-; eexists; (split; [exact H2|]); [done|].
  destruct (reply_answer _ _) eqn:Hra; [|done]. exists [], g. apply nz_false in Hrc. done.
Qed.

Lemma wait_answer_returns gap id deadline env (s : S) :
  host_now s <= deadline -> clock_ok gap (host_now s) env -> deadline < last_tick (host_now s) env ->
  is_Some (wait_answer id deadline env s).
Proof.
  revert s. induction env as [|[now frames] env IH]; intros s Hd Hc Hl; simpl in Hc, Hl; [lia|].
  destruct Hc as [Hnow Hc]. cbn [wait_answer]. destruct (Z.ltb_spec now deadline); [|done].
  destruct (host_recv _ _) as [g s2] eqn:Hr. apply turn_run in Hr as [_ Hr].
  assert (is_Some (wait_answer id deadline env s2)) as Hnext by (apply IH; rewrite Hr; done || lia).
  destruct g as [g|]; [|done]. destruct (_ <? _); [done|]. destruct (negb _); [done|]. by destruct (nz _).
Qed.
End resolver_runs.

(** ** The properties *)

(** [encode_name] writes a name exactly as the protocol does: for every
    string it answers what the reference [encoding] says - the labels between
    the dots, each behind its length, then the root - and refuses the name
    if a label is empty or longer than 63 bytes or the whole does not fit in
    [max] bytes.  What it writes reads back as the labels. *)
Theorem dns_encode_name name l max :
  c_string name l ->
  encode_name name max = encoding l max /\
  forall out, encode_name name max = Some out ->
    zlen out <= max /\ unwire (S (length (labels l))) out = Some (labels l).
Proof.
  intros Hs. assert (encode_name name max = encoding l max) as He.
  { unfold encode_name, encoding. rewrite (encode_loop_spec _ _ l) by
      (done || (destruct Hs as (rest & -> & _); rewrite length_app; lia)).
    change (zlen (@nil Z)) with 0. by rewrite Z.add_0_l. }
  split; [done|]. intros out. rewrite He. unfold encoding. destruct (_ && _) eqn:Hf; [|done].
  intros [= <-]. zbool. rewrite zlen_app. change (zlen [0]) with 1. split; [lia|].
  apply unwire_wire; [done|lia].
Qed.

(** A reply is read as it was written: when a message holds a header,
    the questions and the answer records it counts, with names of at most 128
    labels that end at the root or in a compression pointer, all of it within
    the datagram, the answer is the address in the first A record, and there
    is none if no record is one - whatever follows the answers. *)
Theorem dns_reply_answer hdr qs rs rest len :
  zlen hdr = DNS_HEADER -> ntohs (rd16 hdr 4) = zlen qs -> ntohs (rd16 hdr 6) = zlen rs ->
  Forall question_ok qs -> Forall rr_ok rs ->
  DNS_HEADER + zlen (concat (question_bytes <$> qs)) + zlen (concat (rr_bytes <$> rs)) <= len ->
  reply_answer (hdr ++ concat (question_bytes <$> qs) ++ concat (rr_bytes <$> rs) ++ rest) len = first_A rs.
Proof.
  intros Hh Hq Hr Hqs Hrs Hl. unfold reply_answer, DNS_HEADER in *. set (m := hdr ++ _).
  assert (forall i, 0 <= i < 12 -> zget m i = zget hdr i) as Hm by (intros; unfold m; apply zget_app_l; lia).
  assert (rd16 m 4 = rd16 hdr 4 /\ rd16 m 6 = rd16 hdr 6) as [-> ->] by (unfold rd16; rewrite !Hm by lia; done).
  rewrite Hq, Hr. unfold zlen at 1 2. rewrite !Nat2Z.id. unfold m. pose proof (zlen_nonneg (concat (rr_bytes <$> rs))).
  rewrite <-Hh, skip_questions_spec by (done || lia). rewrite app_assoc.
  rewrite <-(zlen_app hdr). apply find_answer_spec; [done|]. rewrite zlen_app. lia.
Qed.

(** C37: Nothing past the datagram is read: two datagrams that agree on the
    [len] bytes that arrived give the same answer, however malformed. *)
Theorem dns_reply_in_bounds m m' len :
  zslice 0 len m = zslice 0 len m' -> Forall is_byte m -> DNS_HEADER <= len <= zlen m ->
  reply_answer m len = reply_answer m' len.
Proof.
  intros Hs Hb Hl. unfold reply_answer, DNS_HEADER in *.
  assert (rd16 m 4 = rd16 m' 4 /\ rd16 m 6 = rd16 m' 6) as [<- <-]
    by (unfold rd16; rewrite !(same_prefix_get m m' len) by (done || lia); done).
  destruct (skip_questions_prefix m m' len Hs Hb ltac:(lia) (Z.to_nat (ntohs (rd16 m 4))) 12) as [<- H0]; [lia|lia|].
  apply find_answer_prefix; done || lia.
Qed.

(** C24: An answer has a source: [dns_resolve] answers with the address a
    dotted quad spells, or with a cache entry, or with the first address of a
    datagram that carries the id of the query just sent to the configured
    server and reports no error.  A failure leaves the cache as it was, a
    success over the network is cached - resolving a name of up to 63 bytes
    again needs no network - and in every case the configuration and the
    ports are as before. *)
Theorem dns_resolve_sound {S} `{!UdpHost S, !UdpHostLaws S} name l timeout env cache (s : S) res cache' s' :
  host_ok s -> host_bound DNS_CLIENT_PORT s = false -> cache_ok cache -> c_string name l ->
  dns_resolve (Some name) timeout env cache s = Some (res, cache', s') ->
  host_ok s' /\ cache_ok cache' /\ host_config s' = host_config s /\ (forall p, host_bound p s' = host_bound p s) /\
  match net_parse_ip name, cache_find name cache with
  | Some ip, _ => res = Some ip /\ cache' = cache
  | None, Some i => res = Some (e_ip (zget cache i)) /\ cache' = cache
  | None, None =>
      match res with
      | None => cache' = cache
      | Some ip => exists encoded pre g s2,
          encode_name name (QUERY_SIZE - DNS_HEADER - 4) = Some encoded /\ c_dns (host_config s) <> 0 /\
          host_run (snd (host_bind DNS_CLIENT_PORT s))
            (Sent (c_dns (host_config s)) DNS_CLIENT_PORT DNS_PORT (dns_query (query_id (host_now s)) encoded)
               :: pre ++ [Took DNS_CLIENT_PORT g]) s2 /\
          answers_query (query_id (host_now s)) g ip /\
          (zlen l <= 63 -> forall timeout' env' (t : S),
             dns_resolve (Some name) timeout' env' cache' t = Some (Some ip, cache', t))
      end
  end.
Proof.
  intros Hok Hport Hcache Hname. unfold dns_resolve at 1. destruct (net_parse_ip name) as [ip|] eqn:Hip.
  { intros [= <- <- <-]. done. }
  destruct (cache_find name cache) as [i|] eqn:Hfind; [intros [= <- <- <-]; done|].
  destruct (Z.eqb_spec (c_dns (host_config s)) 0) as [|Hdns]; [intros [= <- <- <-]; done|].
  destruct (encode_name name _) as [encoded|] eqn:Henc; [|intros [= <- <- <-]; done].
  pose proof (host_bind_spec DNS_CLIENT_PORT s Hok) as Hb.
  destruct (host_bind DNS_CLIENT_PORT s) as [ok s0] eqn:Hbind. destruct Hb as (Hc0 & _ & Hok0 & Hb0).
  destruct ok; cbn [negb].
  2: { intros [= <- <- <-]. split_and!; try done. intros p. rewrite Hb0. by rewrite andb_false_l, orb_false_r. }
  destruct (host_send _ _ _ _ s0) as [r s1] eqn:Hsend. apply hs_sent, host_run_one in Hsend.
  destruct (wait_answer _ _ env s1) as [[found s2]|] eqn:Hw; [|done].
  apply wait_answer_run in Hw as (evs & Hrun & Hfound). pose proof (host_run_app _ _ _ _ _ Hsend Hrun) as Hall.
  pose proof (host_run_keeps _ _ _ Hall) as (Hc2 & Hb2 & _ & Hok2).
  destruct (host_unbind_spec DNS_CLIENT_PORT s2 (Hok2 Hok0)) as (Hc3 & _ & Hok3 & Hb3).
  assert (forall p, host_bound p (host_unbind DNS_CLIENT_PORT s2) = host_bound p s) as Hports.
  { intros p. rewrite Hb3, Hb2, Hb0. cbn [andb]. destruct (Z.eqb_spec p DNS_CLIENT_PORT) as [->|].
    - by rewrite Hport, andb_false_r.
    - by rewrite orb_false_r, andb_true_r. }
  destruct found as [ip|]; intros [= <- <- <-]; [|by rewrite Hc3, Hc2, Hc0].
  destruct (cache_store_spec name l ip (host_now (host_unbind DNS_CLIENT_PORT s2)) cache Hcache Hname) as (Hcok & _).
  rewrite Hc3, Hc2, Hc0. do 4 (split; [done|]). destruct Hfound as (pre & g & -> & Hg).
  exists encoded, pre, g, s2. do 2 (split; [done|]). split; [exact Hall|]. split; [done|].
  intros Hlen timeout' env' t. unfold dns_resolve. rewrite Hip.
  destruct (cache_find_store name l name l ip (host_now (host_unbind DNS_CLIENT_PORT s2)) cache) as (k & -> & ->);
    try done. symmetry. apply take_ge. unfold zlen in Hlen. lia.
Qed.

(** Resolving ends: when the clock goes forward and passes the timeout,
    whatever arrives meanwhile. *)
Theorem dns_resolve_returns {S} `{!UdpHost S, !UdpHostLaws S} name timeout gap env cache (s : S) :
  0 <= timeout -> 0 <= host_now s -> clock_ok gap (host_now s) env ->
  host_now s + timeout < last_tick (host_now s) env < 2 ^ 32 ->
  is_Some (dns_resolve name timeout env cache s).
Proof.
  intros Ht H0 Hc Hl. unfold dns_resolve. destruct name as [name|]; [|done].
  destruct (net_parse_ip name); [done|]. destruct (cache_find name cache); [done|].
  destruct (_ =? 0); [done|]. destruct (encode_name _ _) as [encoded|]; [|done].
  pose proof (host_bind_now DNS_CLIENT_PORT s) as Hb. destruct (host_bind _ s) as [ok s0]. simpl in Hb.
  destruct ok; cbn [negb]; [|done].
  match goal with |- context [host_send ?a ?b ?c ?q s0] =>
    pose proof (host_send_now a b c q s0) as Hs; destruct (host_send a b c q s0) as [r s1] end.
  simpl in Hs. rewrite u32_small by lia.
  destruct (wait_answer_returns gap (query_id (host_now s)) (host_now s + timeout) env s1) as [[found s2] Hw];
    rewrite ?Hs, ?Hb; try done; try lia. rewrite Hw. by destruct found.
Qed.

(** ** Witnesses: "ab.c" asked of 10.0.2.3 *)

Definition asking : tcp (net (list (list Z))) :=
  mkTcp (replicate 4 zero_conn) 49152 (replicate 4 0) 0 0 0 0 0
    (set_ticks 50 (set_udp_ports (replicate 8 (mkPort 0 false (replicate 4 (mkDgram 0 0 0 (replicate (Z.to_nat 1472) 0))) 0 0))
      (net_set_config 167772674 4294967040 167772675 167772675 (demo_host 2)))).
Definition demo_name : list Z := [97; 98; 46; 99; 0].
Definition empty_cache : list dns_entry := replicate 4 (mkEntry (replicate 64 0) 0 0 false).

Lemma demo_c_string : c_string demo_name [97; 98; 46; 99].
Proof. exists []. split; [reflexivity|]. repeat constructor; lia. Qed.

Lemma empty_cache_ok : cache_ok empty_cache.
Proof.
  split; [done|]. apply Forall_replicate. split; [done|]. exists []. by exists (replicate 63 0).
Qed.

Lemma asking_ok : host_ok asking.
Proof.
  split; [done|]. intros i j Hi Hj Hb. exfalso. change (udp_ports (net_of asking)) with
    (replicate 8 (mkPort 0 false (replicate 4 (mkDgram 0 0 0 (replicate (Z.to_nat 1472) 0))) 0 0)) in Hb.
  rewrite zget_replicate in Hb by (unfold UDP_PORTS in Hi; lia). done.
Qed.

(** A CNAME, then the A record, then bytes nobody counts. *)
Definition demo_question : wire_name * list Z := (mkName [[97; 98]; [99]] None, [0; 1; 0; 1]).
Definition demo_rrs : list rr :=
  [mkRR (mkName [] (Some (192, 12))) 5 [0; 1; 0; 0; 0; 60] [1; 100; 192; 15];
   mkRR (mkName [[100]] (Some (192, 15))) DNS_TYPE_A [0; 1; 0; 0; 0; 60] [93; 184; 216; 34]].
Definition demo_header : list Z :=
  be16 (query_id 50) ++ be16 33152 ++ be16 1 ++ be16 2 ++ be16 0 ++ be16 0.
Definition demo_answer : list Z :=
  demo_header ++ concat (question_bytes <$> [demo_question]) ++ concat (rr_bytes <$> demo_rrs) ++ [1; 2; 3].
Definition demo_dns_env : polls :=
  [(51, []); (51, [eth_frame broadcast_mac (demo_mac 3) ETH_P_IP
     (ip_packet 1 IP_PROTO_UDP 167772675 167772674 (udp_packet 53 5353 demo_answer))])].

Lemma dns_encode_name_witness :
  encode_name demo_name 496 = encoding [97; 98; 46; 99] 496 /\
  forall out, encode_name demo_name 496 = Some out ->
    zlen out <= 496 /\ unwire 3 out = Some [[97; 98]; [99]].
Proof. apply (dns_encode_name demo_name [97; 98; 46; 99] 496 demo_c_string). Defined.

Example demo_encoded : encode_name demo_name 496 = Some [2; 97; 98; 1; 99; 0].
Proof. reflexivity. Qed.

Lemma dns_reply_answer_witness : reply_answer demo_answer 60 = Some 1572395042.
Proof.
  apply (dns_reply_answer demo_header [demo_question] demo_rrs [1; 2; 3] 60).
  - reflexivity.
  - reflexivity.
  - reflexivity.
  - apply Forall_cons; split; [|apply Forall_nil; exact I]. split; [|reflexivity].
    split; [reflexivity|]. split; [vm_compute; discriminate|exact I].
  - repeat (apply Forall_cons; split; [|]); [| |apply Forall_nil; exact I].
    + split; [split; [reflexivity|split; [vm_compute; discriminate|simpl; lia]]|]. split; [simpl; lia|].
      split; [reflexivity|]. split; [reflexivity|]. repeat constructor; unfold is_byte; lia.
    + split; [split; [reflexivity|split; [vm_compute; discriminate|simpl; lia]]|].
      split; [unfold DNS_TYPE_A; simpl; lia|]. split; [reflexivity|]. split; [reflexivity|].
      repeat constructor; unfold is_byte; lia.
  - vm_compute. discriminate.
Defined.

Lemma dns_reply_in_bounds_witness :
  reply_answer (take 40 demo_answer ++ [7; 7; 7]) 40 = reply_answer (take 40 demo_answer ++ [8; 8; 8]) 40.
Proof.
  apply dns_reply_in_bounds; [vm_compute; reflexivity| |vm_compute; split; discriminate].
  apply Forall_forall. intros b Hb.
  assert (forallb (fun b => (0 <=? b) && (b <? 256)) (take 40 demo_answer ++ [7; 7; 7]) = true) as H by (vm_compute; reflexivity).
  rewrite forallb_forall in H. specialize (H b ltac:(by apply list_elem_of_In)). unfold is_byte. zbool. lia.
Defined.

Lemma dns_resolve_sound_witness :
  match dns_resolve (Some demo_name) 300 demo_dns_env empty_cache asking with
  | Some (res, cache', s') => res = Some 1572395042 /\ host_ok s' /\ cache_ok cache' /\
      host_config s' = host_config asking /\ (forall p, host_bound p s' = host_bound p asking) /\
      forall timeout' env' (t : tcp (net (list (list Z)))),
        dns_resolve (Some demo_name) timeout' env' cache' t = Some (Some 1572395042, cache', t)
  | None => False
  end.
Proof.
  pose proof (dns_resolve_sound demo_name [97; 98; 46; 99] 300 demo_dns_env empty_cache asking) as H.
  assert (match dns_resolve (Some demo_name) 300 demo_dns_env empty_cache asking with
          | Some (Some ip, _, _) => ip =? 1572395042 | _ => false end = true) as Hr by (vm_compute; reflexivity).
  assert (net_parse_ip demo_name = None) as Hip by reflexivity.
  assert (cache_find demo_name empty_cache = None) as Hcf by (vm_compute; reflexivity).
  destruct (dns_resolve _ _ _ _ _) as [[[[ip|] cache'] s']|]; [|discriminate|discriminate].
  apply Z.eqb_eq in Hr. subst ip.
  specialize (H (Some 1572395042) cache' s' asking_ok eq_refl empty_cache_ok demo_c_string eq_refl).
  rewrite Hip, Hcf in H. destruct H as (Ha & Hb & Hc & Hd & enc & pre & g & s2 & _ & _ & _ & _ & Hagain).
  split; [reflexivity|]. split; [exact Ha|]. split; [exact Hb|]. split; [exact Hc|]. split; [exact Hd|].
  apply Hagain. vm_compute. discriminate.
Defined.

Lemma dns_resolve_returns_witness :
  is_Some (dns_resolve (Some demo_name) 1 [(51, []); (52, [])] empty_cache asking).
Proof.
  apply (dns_resolve_returns (Some demo_name) 1 1); [lia|discriminate| |split; vm_compute; reflexivity].
  change (host_now asking) with 50. simpl. lia.
Defined.
