(* ===== verification/Dll.v ===== *)
(** * Doubly linked lists in memory

    A list kept by two words in each node: [nx] and [pv] give the words of the
    node at an address, 0 is the null pointer.  [dseg] is a segment between
    the nodes [p] and [n]; the lemmas are what the pointer surgery of the
    kernel does to it - push, unlink, insert after, absorb the next. *)

From S2P Require Import Prelude.

Definition hd0 (n : Z) (l : list Z) : Z := match l with [] => n | x :: _ => x end.
Fixpoint last0 (p : Z) (l : list Z) : Z := match l with [] => p | x :: l' => last0 x l' end.

Fixpoint dseg (nx pv : Z -> Z) (p : Z) (l : list Z) (n : Z) : Prop :=
  match l with
  | [] => True
  | x :: l' => pv x = p /\ nx x = hd0 n l' /\ dseg nx pv x l' n
  end.

Lemma last0_app p l k : last0 p (l ++ k) = last0 (last0 p l) k.
Proof. revert p. induction l as [|x l IH]; intros p; [done|]. apply IH. Qed.

Lemma hd0_app n l k : hd0 n (l ++ k) = hd0 (hd0 n k) l.
Proof. by destruct l. Qed.

Lemma last0_in p l : l <> [] -> last0 p l ∈ l.
Proof.
  revert p. induction l as [|x l IH]; intros p H; [done|]. simpl. destruct l as [|y l]; [simpl; set_solver|].
  apply elem_of_cons. right. by apply IH.
Qed.

Lemma hd0_in n l : l <> [] -> hd0 n l ∈ l.
Proof. destruct l; [done|]. simpl. set_solver. Qed.

Lemma last0_nz p l : p <> 0 -> 0 ∉ l -> last0 p l <> 0.
Proof.
  intros Hp Hl. destruct l as [|x l]; [done|]. intros H. apply Hl. rewrite <-H. by apply last0_in.
Qed.

Lemma dseg_app nx pv p l k n :
  dseg nx pv p (l ++ k) n <-> dseg nx pv p l (hd0 n k) /\ dseg nx pv (last0 p l) k n.
Proof.
  revert p. induction l as [|x l IH]; intros p; simpl; [tauto|]. rewrite IH, hd0_app. tauto.
Qed.

Lemma dseg_ext nx pv nx' pv' p l n :
  (forall x, x ∈ l -> nx' x = nx x /\ pv' x = pv x) -> dseg nx pv p l n -> dseg nx' pv' p l n.
Proof.
  revert p. induction l as [|x l IH]; intros p H; simpl; [done|]. intros (Hp & Hn & Hl).
  destruct (H x ltac:(set_solver)) as [-> ->]. split_and!; [done|done|]. apply IH; [|done].
  intros y Hy. apply H. set_solver.
Qed.

(** A new end or a new start: one word changes. *)
Lemma dseg_end nx pv nx' pv' p l n n' :
  NoDup l -> dseg nx pv p l n ->
  (forall x, x ∈ l -> pv' x = pv x) ->
  (forall x, x ∈ l -> nx' x = if x =? last0 0 l then n' else nx x) ->
  dseg nx' pv' p l n'.
Proof.
  revert p. induction l as [|x l IH]; intros p Hnd; simpl; [done|]. intros (Hp & Hn & Hl) Hpv Hnx.
  apply NoDup_cons in Hnd as [Hx Hnd]. split; [rewrite Hpv by set_solver; done|].
  rewrite (Hnx x) by set_solver. destruct l as [|y l].
  - simpl. rewrite Z.eqb_refl. done.
  - assert (last0 x (y :: l) <> x) as Hne by (intros He; apply Hx; rewrite <-He at 1; by apply last0_in).
    rewrite (proj2 (Z.eqb_neq _ _)) by congruence. split; [done|].
    apply (IH x); [done|exact Hl| |].
    + intros z Hz. apply Hpv. set_solver.
    + intros z Hz. apply Hnx. set_solver.
Qed.

Lemma dseg_start nx pv nx' pv' p p' l n :
  NoDup l -> dseg nx pv p l n ->
  (forall x, x ∈ l -> nx' x = nx x) ->
  (forall x, x ∈ l -> pv' x = if x =? hd0 0 l then p' else pv x) ->
  dseg nx' pv' p' l n.
Proof.
  destruct l as [|x l]; [done|]. intros [Hx Hnd]%NoDup_cons (Hp & Hn & Hl) Hnx Hpv. simpl in *.
  split; [rewrite Hpv by set_solver; by rewrite Z.eqb_refl|]. split; [rewrite Hnx by set_solver; done|].
  apply (dseg_ext nx pv); [|done]. intros y Hy. split; [apply Hnx; set_solver|].
  rewrite Hpv by set_solver. by rewrite (proj2 (Z.eqb_neq _ _)) by set_solver.
Qed.

(** What the words of a node in the middle are. *)
Lemma dseg_mid nx pv p l x k n :
  dseg nx pv p (l ++ x :: k) n -> pv x = last0 p l /\ nx x = hd0 n k.
Proof. rewrite dseg_app. intros (_ & ? & ? & _). done. Qed.

(** [x] is pushed at the front. *)
Lemma dseg_push nx pv nx' pv' l x :
  NoDup (x :: l) -> dseg nx pv 0 l 0 ->
  nx' x = hd0 0 l -> pv' x = 0 ->
  (forall y, y ∈ l -> nx' y = nx y) ->
  (forall y, y ∈ l -> pv' y = if y =? hd0 0 l then x else pv y) ->
  dseg nx' pv' 0 (x :: l) 0.
Proof.
  intros [Hx Hnd]%NoDup_cons Hl Hn Hp Hnx Hpv. split; [done|]. split; [done|].
  by apply (dseg_start nx pv _ _ 0).
Qed.

(** [x] is unlinked. *)
Lemma dseg_unlink nx pv nx' pv' l x k :
  NoDup (l ++ x :: k) -> 0 ∉ l ++ x :: k -> dseg nx pv 0 (l ++ x :: k) 0 ->
  (forall y, y ∈ l ++ k -> nx' y = if y =? last0 0 l then hd0 0 k else nx y) ->
  (forall y, y ∈ l ++ k -> pv' y = if y =? hd0 0 k then last0 0 l else pv y) ->
  dseg nx' pv' 0 (l ++ k) 0.
Proof.
  intros Hnd H0 Hd Hnx Hpv. apply NoDup_app in Hnd as (Hnl & Hlk & [Hxk Hnk]%NoDup_cons).
  apply dseg_app in Hd as [Hl (_ & _ & Hk)]. apply dseg_app. split.
  - apply (dseg_end nx pv _ _ 0 l (hd0 0 (x :: k))); [done|done| |].
    + intros y Hy. rewrite Hpv by set_solver.
      rewrite (proj2 (Z.eqb_neq y (hd0 0 k))); [done|]. intros He. destruct k as [|z k]; simpl in He; set_solver.
    + intros y Hy. apply Hnx. set_solver.
  - apply (dseg_start nx pv _ _ x _ k 0); [done|done| |].
    + intros y Hy. rewrite Hnx by set_solver.
      rewrite (proj2 (Z.eqb_neq y (last0 0 l))); [done|]. intros ->.
      destruct (decide (l = [])) as [->|Hne]; [set_solver|]. apply (Hlk (last0 0 l)); [by apply last0_in|set_solver].
    + intros y Hy. apply Hpv. set_solver.
Qed.

(** [r] is inserted after [x]. *)
Lemma dseg_insert nx pv nx' pv' l x r k :
  NoDup (l ++ x :: k) -> 0 ∉ l ++ x :: k -> r ∉ l ++ x :: k -> dseg nx pv 0 (l ++ x :: k) 0 ->
  nx' r = hd0 0 k -> pv' r = x ->
  (forall y, y ∈ l ++ x :: k -> nx' y = if y =? x then r else nx y) ->
  (forall y, y ∈ l ++ x :: k -> pv' y = if y =? hd0 0 k then r else pv y) ->
  dseg nx' pv' 0 (l ++ x :: r :: k) 0.
Proof.
  intros Hnd H0 Hr Hd Hnr Hpr Hnx Hpv. apply NoDup_app in Hnd as (Hnl & Hlk & [Hxk Hnk]%NoDup_cons).
  apply dseg_app in Hd as [Hl (Hpx & Hnxx & Hk)]. apply dseg_app.
  assert (forall y, y ∈ l \/ y = x -> y <> hd0 0 k) as Hne.
  { intros y Hy He. destruct k as [|z k]; simpl in He; set_solver. }
  split; [|split; [|split; [|split; [|split]]]].
  - apply (dseg_ext nx pv); [|done]. intros y Hy. rewrite Hnx, Hpv by set_solver.
    rewrite (proj2 (Z.eqb_neq y x)), (proj2 (Z.eqb_neq y (hd0 0 k))) by (set_solver || (apply Hne; by left)). done.
  - rewrite Hpv by set_solver. by rewrite (proj2 (Z.eqb_neq x (hd0 0 k))) by (apply Hne; by right).
  - rewrite Hnx by set_solver. by rewrite Z.eqb_refl.
  - done.
  - done.
  - apply (dseg_start nx pv _ _ x _ k 0); [done|done| |].
    + intros y Hy. rewrite Hnx by set_solver. by rewrite (proj2 (Z.eqb_neq y x)) by set_solver.
    + intros y Hy. apply Hpv. set_solver.
Qed.

(** [r] is appended at the end. *)
Lemma dseg_append nx pv nx' pv' l r :
  NoDup l -> r ∉ l -> dseg nx pv 0 l 0 -> nx' r = 0 -> pv' r = last0 0 l ->
  (forall y, y ∈ l -> nx' y = if y =? last0 0 l then r else nx y) ->
  (forall y, y ∈ l -> pv' y = pv y) ->
  dseg nx' pv' 0 (l ++ [r]) 0.
Proof.
  intros Hnd Hr Hd Hnr Hpr Hnx Hpv. apply dseg_app. split; [by apply (dseg_end nx pv _ _ 0 l 0)|].
  done.
Qed.
