(* ===== verification/Kheap64.v ===== *)
(** * The kernel heap ([kernel/kheap64.c])

    A block is a header of four words - size, previous and next block in
    address order, used - and its payload; a free block keeps the two words of
    the free list at the start of its payload.  Everything is read and
    written through the memory, the interface [KernelMemory]: 64-bit words at
    virtual addresses, mapped or not, and the three calls by which the heap
    grows.  A computation ends with a result ([Done]), with a page fault at an
    address ([Fault]), or it has used its fuel up ([Loops]).  Fields are at
    constant offsets from a block's address; sizes are 64-bit words and wrap. *)

From S2P Require Import Prelude FrameAlloc Paging64 Dll.

Definition KHEAP64_BASE : Z := 0xFFFF900000000000.
Definition KHEAP64_MAX_SIZE : Z := 256 * 1024 * 1024.
Definition KHEAP64_INITIAL : Z := 64 * 1024.
Definition KHEAP64_ALIGN : Z := 16.

(** [sizeof(block_t)] and the offsets of its fields; [free_link_t] follows. *)
Definition BLOCK : Z := 32.
Definition off_size : Z := 0.
Definition off_prev : Z := 8.
Definition off_next : Z := 16.
Definition off_used : Z := 24.
Definition off_fnext : Z := 32.
Definition off_fprev : Z := 40.
Definition MIN_PAYLOAD : Z := 16.

Definition align_up (v a : Z) : Z := and_not64 (u64 (v + a - 1)) (a - 1).

(** ** The memory the heap lives in *)

Definition word_at (a : Z) : Prop := a mod 8 = 0.

Class KernelMemory (K : Type) := {
  kread : Z -> K -> option Z;
  kwrite : Z -> Z -> K -> option K;
  kalloc_frame : K -> Z * K;                  (* [pmm64_alloc_frame] *)
  kfree_frame : Z -> K -> K;                  (* [pmm64_free_frame] *)
  kmap : Z -> Z -> Z -> K -> option (Z * K);  (* [paging64_map] *)

  km_ok : K -> Prop;
  km_mapped : K -> Z -> bool;
  km_word : K -> Z -> Z;
  km_fresh : K -> Z -> Prop                   (* a frame just allocated *)
}.

(** The heap's part of the address space: its pages are nobody else's. *)
Definition in_heap (a : Z) : Prop := KHEAP64_BASE <= a < KHEAP64_BASE + KHEAP64_MAX_SIZE.

(** The heap's memory is unchanged. *)
Definition same_words {K} `{!KernelMemory K} (k k' : K) : Prop :=
  km_ok k' /\ forall a, word_at a -> in_heap a -> km_mapped k' a = km_mapped k a /\ km_word k' a = km_word k a.

Class KernelMemoryLaws (K : Type) `{!KernelMemory K} := {
  km_read k a : km_ok k -> word_at a -> in_heap a ->
    kread a k = if km_mapped k a then Some (km_word k a) else None;
  km_write k a v : km_ok k -> word_at a -> in_heap a -> 0 <= v < 2 ^ 64 ->
    if km_mapped k a then
      exists k', kwrite a v k = Some k' /\ km_ok k' /\
        forall c, word_at c -> in_heap c ->
          km_mapped k' c = km_mapped k c /\ km_word k' c = if c =? a then v else km_word k c
    else kwrite a v k = None;
  km_alloc k : km_ok k -> let '(p, k') := kalloc_frame k in
    same_words k k' /\ (p <> 0 -> km_fresh k' p);
  km_free k p : km_ok k -> km_fresh k p -> same_words k (kfree_frame p k);
  km_map k v p : km_ok k -> km_fresh k p -> v mod PAGE64_SIZE = 0 -> in_heap v ->
    km_mapped k v = false ->
    exists r k', kmap v p (Z.lor PAGE64_PRESENT PAGE64_WRITE) k = Some (r, k') /\
      if r =? PAGING64_OK then
        km_ok k' /\ forall a, word_at a -> in_heap a ->
          km_mapped k' a = (km_mapped k a || ((v <=? a) && (a <? v + PAGE64_SIZE))) /\
          (km_mapped k a = true -> km_word k' a = km_word k a)
      else same_words k k' /\ km_fresh k' p
}.

(** ** The heap *)

Section kheap64.
  Context {K : Type} `{!KernelMemory K}.

Record heap := mkHeap {
  heap_head : Z;
  heap_tail : Z;
  free_head : Z;
  heap_end : Z;
  stat_steps : Z;
  stat_calls : Z;
  double_frees : Z;
  km : K
}.

Definition set_heap_head (v : Z) (h : heap) : heap :=
  mkHeap v (heap_tail h) (free_head h) (heap_end h) (stat_steps h) (stat_calls h) (double_frees h) (km h).
Definition set_heap_tail (v : Z) (h : heap) : heap :=
  mkHeap (heap_head h) v (free_head h) (heap_end h) (stat_steps h) (stat_calls h) (double_frees h) (km h).
Definition set_free_head (v : Z) (h : heap) : heap :=
  mkHeap (heap_head h) (heap_tail h) v (heap_end h) (stat_steps h) (stat_calls h) (double_frees h) (km h).
Definition set_heap_end (v : Z) (h : heap) : heap :=
  mkHeap (heap_head h) (heap_tail h) (free_head h) v (stat_steps h) (stat_calls h) (double_frees h) (km h).
Definition set_stat_steps (v : Z) (h : heap) : heap :=
  mkHeap (heap_head h) (heap_tail h) (free_head h) (heap_end h) v (stat_calls h) (double_frees h) (km h).
Definition set_stat_calls (v : Z) (h : heap) : heap :=
  mkHeap (heap_head h) (heap_tail h) (free_head h) (heap_end h) (stat_steps h) v (double_frees h) (km h).
Definition set_double_frees (v : Z) (h : heap) : heap :=
  mkHeap (heap_head h) (heap_tail h) (free_head h) (heap_end h) (stat_steps h) (stat_calls h) v (km h).
Definition set_km (v : K) (h : heap) : heap :=
  mkHeap (heap_head h) (heap_tail h) (free_head h) (heap_end h) (stat_steps h) (stat_calls h) (double_frees h) v.

(** How a computation ends: with a result, with a page fault at [a], the
    address read, written or mapped, or not within its fuel. *)
Inductive outcome (X : Type) : Type :=
| Done (x : X) (h : heap)
| Fault (a : Z)
| Loops.
#[local] Arguments Done {X}. #[local] Arguments Fault {X}. #[local] Arguments Loops {X}.

(** A computation on the heap. *)
Definition hm (X : Type) : Type := heap -> outcome X.

#[global] Instance hm_ret : MRet hm := fun X x h => Done x h.
#[global] Instance hm_bind : MBind hm := fun X Y f c h =>
  match c h with Done x h' => f x h' | Fault a => Fault a | Loops => Loops end.

Definition ld (a : Z) : hm Z := fun h =>
  match kread a (km h) with Some w => Done w h | None => Fault a end.
Definition st (a v : Z) : hm unit := fun h =>
  match kwrite a v (km h) with Some k => Done tt (set_km k h) | None => Fault a end.
Definition get {X} (f : heap -> X) : hm X := fun h => Done (f h) h.
Definition put (f : heap -> heap) : hm unit := fun h => Done tt (f h).
Definition when (b : bool) (c : hm unit) : hm unit := if b then c else mret tt.

(** The block [b] starts where the payload of [a] ends. *)
Definition adjacent (a b : Z) : hm bool :=
  sz ← ld (a + off_size); mret (u64 (a + BLOCK + sz) =? b).

Definition freelist_insert (b : Z) : hm unit :=
  st (b + off_fprev) 0;;
  f ← get free_head;
  st (b + off_fnext) f;;
  when (nz f) (st (f + off_fprev) b);;
  put (set_free_head b).

Definition freelist_remove (b : Z) : hm unit :=
  p ← ld (b + off_fprev);
  n ← ld (b + off_fnext);
  (if nz p then st (p + off_fnext) n else put (set_free_head n));;
  when (nz n) (st (n + off_fprev) p).

Definition merge_next (b : Z) : hm unit :=
  n ← ld (b + off_next);
  freelist_remove n;;
  bs ← ld (b + off_size);
  ns ← ld (n + off_size);
  st (b + off_size) (u64 (bs + u64 (BLOCK + ns)));;
  nn ← ld (n + off_next);
  st (b + off_next) nn;;
  when (nz nn) (st (nn + off_prev) b);;
  t ← get heap_tail;
  when (n =? t) (put (set_heap_tail b)).

Definition frame_alloc : hm Z := fun h =>
  let '(p, k) := kalloc_frame (km h) in Done p (set_km k h).
Definition frame_free (phys : Z) : hm unit := put (fun h => set_km (kfree_frame phys (km h)) h).
Definition page_map (virt phys : Z) : hm Z := fun h =>
  match kmap virt phys (Z.lor PAGE64_PRESENT PAGE64_WRITE) (km h) with
  | Some (r, k) => Done r (set_km k h)
  | None => Fault virt
  end.

(** [while (heap_end < new_end)]: a page each time round. *)
Fixpoint expand_loop (fuel : nat) (new_end : Z) : hm bool :=
  match fuel with
  | O => fun _ => Loops
  | Datatypes.S fuel' =>
    e ← get heap_end;
    if negb (e <? new_end) then mret true else
    phys ← frame_alloc;
    if phys =? 0 then mret false else
    r ← page_map e phys;
    if negb (r =? PAGING64_OK)
    then frame_free phys;; mret false
    else put (set_heap_end (u64 (e + PAGE64_SIZE)));; expand_loop fuel' new_end
  end.

(** A heap holds [KHEAP64_MAX_SIZE] bytes: more pages are never asked for. *)
Definition heap_expand (new_end : Z) : hm bool :=
  expand_loop (Z.to_nat (KHEAP64_MAX_SIZE / PAGE64_SIZE + 1)) new_end.

Definition kheap64_init : hm unit :=
  put (fun h => mkHeap 0 0 0 KHEAP64_BASE 0 0 0 (km h));;
  ok ← heap_expand (KHEAP64_BASE + KHEAP64_INITIAL);
  if negb ok then mret tt else
  e ← get heap_end;
  if e =? KHEAP64_BASE then mret tt else
  put (set_heap_head KHEAP64_BASE);;
  st (KHEAP64_BASE + off_size) (u64 (e - KHEAP64_BASE - BLOCK));;
  st (KHEAP64_BASE + off_used) 0;;
  st (KHEAP64_BASE + off_prev) 0;;
  st (KHEAP64_BASE + off_next) 0;;
  put (set_heap_tail KHEAP64_BASE);;
  freelist_insert KHEAP64_BASE.

Definition split (b size : Z) : hm unit :=
  bs ← ld (b + off_size);
  if bs <? u64 (size + BLOCK + MIN_PAYLOAD) then mret tt else
  let rest := u64 (b + BLOCK + size) in
  st (rest + off_size) (u64 (bs - size - BLOCK));;
  st (rest + off_used) 0;;
  st (rest + off_prev) b;;
  bn ← ld (b + off_next);
  st (rest + off_next) bn;;
  when (nz bn) (st (bn + off_prev) rest);;
  st (b + off_next) rest;;
  t ← get heap_tail;
  when (b =? t) (put (set_heap_tail rest));;
  st (b + off_size) size;;
  freelist_insert rest.

Definition grow (payload_needed : Z) : hm bool :=
  let want := align_up (u64 (BLOCK + payload_needed)) PAGE64_SIZE in
  old_end ← get heap_end;
  if KHEAP64_BASE + KHEAP64_MAX_SIZE <? u64 (old_end + want) then mret false else
  ok ← heap_expand (u64 (old_end + want));
  e ← get heap_end;
  if negb ok && (u64 (e - old_end) <? BLOCK + MIN_PAYLOAD) then mret false else
  let b := old_end in
  st (b + off_size) (u64 (u64 (e - old_end) - BLOCK));;
  st (b + off_used) 0;;
  t ← get heap_tail;
  st (b + off_prev) t;;
  st (b + off_next) 0;;
  (if nz t then st (t + off_next) b else put (set_heap_head b));;
  put (set_heap_tail b);;
  freelist_insert b;;
  p ← ld (b + off_prev);
  (if nz p then
     pu ← ld (p + off_used);
     if pu =? 0 then a ← adjacent p b; when a (merge_next p) else mret tt
   else mret tt);;
  mret true.

(** The walk of the free list: the first block large enough, 0 if none is. *)
Fixpoint scan (fuel : nat) (b want : Z) : hm Z :=
  match fuel with
  | O => fun _ => Loops
  | Datatypes.S fuel' =>
    if b =? 0 then mret 0 else
    put (fun h => set_stat_steps (u64 (stat_steps h + 1)) h);;
    bs ← ld (b + off_size);
    if want <=? bs then mret b else
    n ← ld (b + off_fnext);
    scan fuel' n want
  end.

(** No more blocks than headers fit. *)
Definition block_fuel (h : heap) : nat := Z.to_nat ((heap_end h - KHEAP64_BASE) / BLOCK + 1).

Definition take_block (b want : Z) : hm Z :=
  freelist_remove b;;
  split b want;;
  st (b + off_used) 1;;
  mret (b + BLOCK).

(** [for (;;)]: at most twice round, because [grown] is set. *)
Definition kmalloc64 (size : Z) : hm Z :=
  if size =? 0 then mret 0 else
  let want := align_up (if size <? MIN_PAYLOAD then MIN_PAYLOAD else size) KHEAP64_ALIGN in
  put (fun h => set_stat_calls (u64 (stat_calls h + 1)) h);;
  fuel ← get block_fuel;
  f ← get free_head;
  b ← scan fuel f want;
  if nz b then take_block b want else
  ok ← grow want;
  if negb ok then mret 0 else
  fuel ← get block_fuel;
  f ← get free_head;
  b ← scan fuel f want;
  if nz b then take_block b want else mret 0.

Definition kfree64 (ptr : Z) : hm unit :=
  if ptr =? 0 then mret tt else
  let b := ptr - BLOCK in
  used ← ld (b + off_used);
  if used =? 0 then put (fun h => set_double_frees (u64 (double_frees h + 1)) h) else
  st (b + off_used) 0;;
  freelist_insert b;;
  n ← ld (b + off_next);
  (if nz n then
     nu ← ld (n + off_used);
     if nu =? 0 then a ← adjacent b n; when a (merge_next b) else mret tt
   else mret tt);;
  p ← ld (b + off_prev);
  if nz p then
    pu ← ld (p + off_used);
    if pu =? 0 then a ← adjacent p b; when a (merge_next p) else mret tt
  else mret tt.

(** The blocks in address order: used and total bytes. *)
Fixpoint stats_loop (fuel : nat) (b u t : Z) : hm (Z * Z) :=
  match fuel with
  | O => fun _ => Loops
  | Datatypes.S fuel' =>
    if b =? 0 then mret (u, t) else
    bs ← ld (b + off_size);
    bu ← ld (b + off_used);
    n ← ld (b + off_next);
    stats_loop fuel' n (if nz bu then u64 (u + u64 (bs + BLOCK)) else u) (u64 (t + u64 (bs + BLOCK)))
  end.

Definition kheap64_stats : hm (Z * Z) :=
  fuel ← get block_fuel;
  b ← get heap_head;
  stats_loop fuel b 0 0.

Definition kheap64_walk_stats (h : heap) : Z * Z := (stat_steps h, stat_calls h).
Definition kheap64_double_frees (h : heap) : Z := double_frees h.

Fixpoint count_loop (fuel : nat) (b n : Z) : hm Z :=
  match fuel with
  | O => fun _ => Loops
  | Datatypes.S fuel' =>
    if b =? 0 then mret n else
    x ← ld (b + off_fnext);
    count_loop fuel' x (u64 (n + 1))
  end.

Definition kheap64_free_blocks : hm Z :=
  fuel ← get block_fuel;
  b ← get free_head;
  count_loop fuel b 0.
End kheap64.

Arguments heap : clear implicits.
Arguments Done {K X}. Arguments Fault {K X}. Arguments Loops {K X}.

(** ** Running a computation *)

Section rules.
  Context {K : Type} `{!KernelMemory K, !KernelMemoryLaws K}.
  Implicit Types h : heap K.

(** It runs within its fuel, without a fault, and ends in [Q]. *)
Definition wp {X} (c : hm X) (Q : X -> heap K -> Prop) (h : heap K) : Prop :=
  match c h with Done x h' => Q x h' | _ => False end.

Lemma wp_bind {X Y} (c : hm X) (f : X -> hm Y) Q h :
  wp c (fun x => wp (f x) Q) h -> wp (c ≫= f) Q h.
Proof. unfold wp, mbind, hm_bind. by destruct (c h) as [x h'|a|]. Qed.

Lemma wp_ret {X} (x : X) (Q : X -> heap K -> Prop) h : Q x h -> wp (mret x) Q h.
Proof. done. Qed.

Lemma wp_put f (Q : unit -> heap K -> Prop) h : Q tt (f h) -> wp (put f) Q h.
Proof. done. Qed.

Lemma wp_get {X} (f : heap K -> X) (Q : X -> heap K -> Prop) h : Q (f h) h -> wp (get f) Q h.
Proof. done. Qed.

Lemma wp_mono {X} (c : hm X) (Q Q' : X -> heap K -> Prop) h :
  wp c Q h -> (forall x h', Q x h' -> Q' x h') -> wp c Q' h.
Proof. unfold wp. destruct (c h) as [x h'|a|]; auto. Qed.

Lemma wp_when b c (Q : unit -> heap K -> Prop) h :
  (b = true -> wp c Q h) -> (b = false -> Q tt h) -> wp (when b c) Q h.
Proof. destruct b; intros H H'; [exact (H eq_refl)|exact (H' eq_refl)]. Qed.

(** ** The heap's words *)

Definition W h (a : Z) : Z := km_word (km h) a.

(** The mapped part is whole, and ends inside the heap's range. *)
Record zone h : Prop := {
  zn_ok : km_ok (km h);
  zn_range : KHEAP64_BASE <= heap_end h <= KHEAP64_BASE + KHEAP64_MAX_SIZE;
  zn_page : heap_end h mod PAGE64_SIZE = 0;
  zn_mapped a : word_at a -> in_heap a -> km_mapped (km h) a = (a <? heap_end h)
}.

Definition live h (a : Z) : Prop := word_at a /\ KHEAP64_BASE <= a < heap_end h.

(** The state after a store. *)
Definition wr (a v : Z) h : heap K :=
  match kwrite a v (km h) with Some k => set_km k h | None => h end.

Lemma live_in h a : zone h -> live h a -> in_heap a /\ km_mapped (km h) a = true.
Proof.
  intros Hz [Hw Ha]. pose proof (zn_range h Hz). assert (in_heap a) as Hin by (unfold in_heap; lia).
  split; [done|]. rewrite (zn_mapped h Hz) by done. apply Z.ltb_lt. lia.
Qed.

Lemma wp_ld a (Q : Z -> heap K -> Prop) h : zone h -> live h a -> Q (W h a) h -> wp (ld a) Q h.
Proof.
  intros Hz Hl HQ. destruct (live_in h a Hz Hl) as [Hin Hm]. unfold wp, ld.
  rewrite km_read by (apply Hz || apply Hl || done). by rewrite Hm.
Qed.

Lemma wr_run a v h : zone h -> live h a -> 0 <= v < 2 ^ 64 ->
  st a v h = Done tt (wr a v h) /\ km_ok (km (wr a v h)) /\
  forall c, word_at c -> in_heap c -> km_mapped (km (wr a v h)) c = km_mapped (km h) c /\
    W (wr a v h) c = if c =? a then v else W h c.
Proof.
  intros Hz Hl Hv. destruct (live_in h a Hz Hl) as [Hin Hm]. unfold st, wr, W.
  pose proof (km_write (km h) a v (zn_ok h Hz) (proj1 Hl) Hin Hv) as H. rewrite Hm in H.
  destruct H as (k & -> & Hk & H). done.
Qed.

Lemma wp_st a v (Q : unit -> heap K -> Prop) h :
  zone h -> live h a -> 0 <= v < 2 ^ 64 -> Q tt (wr a v h) -> wp (st a v) Q h.
Proof. intros Hz Hl Hv HQ. unfold wp. by rewrite (proj1 (wr_run a v h Hz Hl Hv)). Qed.

(** A store changes nothing but its word. *)
Lemma wr_same a v h :
  heap_head (wr a v h) = heap_head h /\ heap_tail (wr a v h) = heap_tail h /\
  free_head (wr a v h) = free_head h /\ heap_end (wr a v h) = heap_end h /\
  stat_steps (wr a v h) = stat_steps h /\ stat_calls (wr a v h) = stat_calls h /\
  double_frees (wr a v h) = double_frees h.
Proof. unfold wr. by destruct (kwrite a v (km h)). Qed.

Lemma wr_zone a v h : zone h -> live h a -> 0 <= v < 2 ^ 64 -> zone (wr a v h).
Proof.
  intros Hz Hl Hv. destruct (wr_run a v h Hz Hl Hv) as (_ & Hok & Hw).
  destruct (wr_same a v h) as (_ & _ & _ & He & _). split; [done|by rewrite He; apply Hz|by rewrite He; apply Hz|].
  intros c Hc Hin. rewrite He. rewrite (proj1 (Hw c Hc Hin)). by apply Hz.
Qed.

Lemma wr_W a v h c : zone h -> live h a -> 0 <= v < 2 ^ 64 -> live h c ->
  W (wr a v h) c = if c =? a then v else W h c.
Proof.
  intros Hz Hl Hv Hc. destruct (wr_run a v h Hz Hl Hv) as (_ & _ & Hw).
  apply Hw; [apply Hc|]. by apply (live_in h c Hz Hc).
Qed.

(** A change of the static variables only. *)
Lemma zone_statics h h' : km h' = km h -> heap_end h' = heap_end h -> zone h -> zone h'.
Proof. intros Hk He Hz. destruct Hz as [? ? ? Hm]. split; rewrite ?Hk, ?He; done. Qed.

(** The words a piece of code stored, the last first. *)
Fixpoint upds (l : list (Z * Z)) (g : Z -> Z) (c : Z) : Z :=
  match l with
  | [] => g c
  | (a, v) :: l' => if c =? a then v else upds l' g c
  end.

(** The code stored [l], and the mapping and the counters are as they were. *)
Record writes (l : list (Z * Z)) h h' : Prop := {
  ws_zone : zone h';
  ws_end : heap_end h' = heap_end h;
  ws_stats : stat_steps h' = stat_steps h /\ stat_calls h' = stat_calls h /\ double_frees h' = double_frees h;
  ws_words c : live h c -> W h' c = upds l (W h) c
}.

Lemma live_end h h' c : heap_end h' = heap_end h -> live h' c <-> live h c.
Proof. intros He. unfold live. by rewrite He. Qed.

Lemma writes_nil h : zone h -> writes [] h h.
Proof. intros Hz. by split. Qed.

Lemma writes_statics l h h' h'' :
  writes l h h' -> km h'' = km h' -> heap_end h'' = heap_end h' ->
  stat_steps h'' = stat_steps h' /\ stat_calls h'' = stat_calls h' /\ double_frees h'' = double_frees h' ->
  writes l h h''.
Proof.
  intros [Hz He Hs Hw] Hk He' (S1 & S2 & S3). split; [by apply (zone_statics h')|congruence|by rewrite S1, S2, S3|].
  intros c Hc. rewrite <-Hw by done. unfold W. by rewrite Hk.
Qed.

Lemma writes_wr l h h' a v :
  writes l h h' -> live h a -> 0 <= v < 2 ^ 64 -> writes ((a, v) :: l) h (wr a v h').
Proof.
  intros [Hz He Hs Hw] Ha Hv. assert (live h' a) as Ha' by (by apply (live_end h h')).
  destruct (wr_same a v h') as (_ & _ & _ & We & Ws1 & Ws2 & Ws3).
  split; [by apply wr_zone|congruence|by rewrite Ws1, Ws2, Ws3|].
  intros c Hc. rewrite wr_W by (done || by apply (live_end h h')). simpl. by rewrite Hw.
Qed.

(** Steps of the symbolic execution, against a start state [h0]. *)
Lemma step_ld {Y} l h0 h a (f : Z -> hm Y) Q :
  writes l h0 h -> live h0 a -> wp (f (upds l (W h0) a)) Q h -> wp (ld a ≫= f) Q h.
Proof.
  intros Hw Ha H. apply wp_bind, wp_ld; [apply Hw|by apply (live_end h0 h), Ha; apply Hw|].
  by rewrite (ws_words _ _ _ Hw).
Qed.

Lemma step_st l h0 h a v (Q : unit -> heap K -> Prop) :
  writes l h0 h -> live h0 a -> 0 <= v < 2 ^ 64 ->
  (writes ((a, v) :: l) h0 (wr a v h) -> Q tt (wr a v h)) -> wp (st a v) Q h.
Proof.
  intros Hw Ha Hv H. apply wp_st; [apply Hw|by apply (live_end h0 h), Ha; apply Hw|done|].
  apply H. by apply writes_wr.
Qed.

(** ** The free list *)

(** Addresses of blocks: aligned, with room for header and links, apart. *)
Definition apart h (A : list Z) : Prop :=
  forall b, b ∈ A -> b mod 16 = 0 /\ KHEAP64_BASE <= b /\ b + 48 <= heap_end h /\
    forall b', b' ∈ A -> b' <> b -> b + 48 <= b' \/ b' + 48 <= b.

Definition field (o : Z) : Prop := o mod 8 = 0 /\ 0 <= o < 48.

Lemma apart_live h A b o : apart h A -> b ∈ A -> field o -> live h (b + o).
Proof.
  intros HA Hb [Ho Hr]. destruct (HA b Hb) as (Hal & Hlo & Hhi & _). split; [|lia].
  unfold word_at. rewrite Z.add_mod, Ho, Z.add_0_r, Z.mod_mod by lia.
  apply Z.mod_divide; [lia|]. apply Z.mod_divide in Hal as [k ->]; [|lia]. exists (2 * k). lia.
Qed.

Lemma apart_eq h A b b' o o' : apart h A -> b ∈ A -> b' ∈ A -> field o -> field o' ->
  (b + o =? b' + o') = (b =? b') && (o =? o').
Proof.
  intros HA Hb Hb' [Ho Hr] [Ho' Hr']. destruct (Z.eqb_spec b b') as [->|Hne]; simpl.
  - destruct (Z.eqb_spec (b' + o) (b' + o')), (Z.eqb_spec o o'); done || lia.
  - destruct (HA b Hb) as (_ & _ & _ & Hd). destruct (Z.eqb_spec (b + o) (b' + o')); [|done].
    destruct (Hd b' Hb' ltac:(done)); lia.
Qed.

Lemma apart_range h A b : zone h -> apart h A -> b ∈ A -> 0 < b < 2 ^ 64.
Proof.
  intros Hz HA Hb. destruct (HA b Hb) as (_ & Hlo & Hhi & _). pose proof (zn_range h Hz).
  unfold KHEAP64_BASE, KHEAP64_MAX_SIZE in *. lia.
Qed.

Lemma apart_end h h' A : heap_end h' = heap_end h -> apart h A -> apart h' A.
Proof. unfold apart. by intros ->. Qed.

(** The list in the links of the blocks [F]. *)
Definition frees h (F : list Z) : Prop :=
  free_head h = hd0 0 F /\
  dseg (fun x => W h (x + off_fnext)) (fun x => W h (x + off_fprev)) 0 F 0.

(** Only links of the blocks [F] have changed, and the head of the list. *)
Record links_only (F : list Z) h h' : Prop := {
  lo_zone : zone h';
  lo_end : heap_end h' = heap_end h;
  lo_head : heap_head h' = heap_head h;
  lo_tail : heap_tail h' = heap_tail h;
  lo_stats : stat_steps h' = stat_steps h /\ stat_calls h' = stat_calls h /\ double_frees h' = double_frees h;
  lo_words c : live h c -> (forall b, b ∈ F -> c <> b + off_fnext /\ c <> b + off_fprev) -> W h' c = W h c
}.

Lemma links_of_writes F l h h' h'' :
  writes l h h' -> (forall a v, (a, v) ∈ l -> exists b, b ∈ F /\ (a = b + off_fnext \/ a = b + off_fprev)) ->
  heap_head h' = heap_head h -> heap_tail h' = heap_tail h ->
  (exists f, h'' = set_free_head f h') -> links_only F h h''.
Proof.
  intros Hw Hl Hh Ht [f ->]. pose proof Hw as [Hz He Hs Hwd]. split; try done.
  - by apply (zone_statics h').
  - intros c Hc Hno. change (W (set_free_head f h') c) with (W h' c). rewrite Hwd by done.
    clear - Hl Hno. induction l as [|[a v] l IH]; [done|]. simpl.
    destruct (Hl a v ltac:(set_solver)) as (b & Hb & Ha). destruct (Hno b Hb).
    destruct (Z.eqb_spec c a); [destruct Ha; congruence|]. apply IH. intros. apply (Hl a0 v0). set_solver.
Qed.

End rules.

(** Side conditions: offsets of fields, members of explicit lists. *)
Ltac mem :=
  first [ assumption
        | apply elem_of_cons; first [left; reflexivity | right; mem]
        | apply elem_of_app; first [left; mem | right; mem] ].
Ltac fld := match goal with
  | |- field _ => split; [reflexivity|split; [discriminate|reflexivity]]
  | |- _ ∈ _ => mem
  end.

Section free_list.
  Context {K : Type} `{!KernelMemory K, !KernelMemoryLaws K}.
  Implicit Types h : heap K.

(** What a list of stores does to a field of a block. *)
Lemma upds_field h A l b o b' o' v :
  apart h A -> b ∈ A -> b' ∈ A -> field o -> field o' ->
  upds ((b' + o', v) :: l) (W h) (b + o) = if (b =? b') && (o =? o') then v else upds l (W h) (b + o).
Proof. intros HA Hb Hb' Ho Ho'. simpl. by rewrite (apart_eq h A). Qed.

(** The premises the operations on the free list share. *)
Record flist h (A F : list Z) : Prop := {
  fl_zone : zone h;
  fl_apart : apart h A;
  fl_in x : x ∈ F -> x ∈ A;
  fl_frees : frees h F
}.

Lemma hd0_range h A F : zone h -> apart h A -> (forall x, x ∈ F -> x ∈ A) -> 0 <= hd0 0 F < 2 ^ 64.
Proof.
  intros Hz HA HF. destruct F as [|x F]; simpl; [lia|].
  pose proof (apart_range h A x Hz HA (HF x ltac:(mem))). lia.
Qed.

Lemma last0_range h A F : zone h -> apart h A -> (forall x, x ∈ F -> x ∈ A) -> 0 <= last0 0 F < 2 ^ 64.
Proof.
  intros Hz HA HF. destruct (decide (F = [])) as [->|Hne]; simpl; [lia|].
  pose proof (apart_range h A _ Hz HA (HF _ (last0_in 0 F Hne))). lia.
Qed.

Lemma wp_freelist_insert A F b h (Q : unit -> heap K -> Prop) :
  flist h A F -> b ∈ A -> NoDup (b :: F) ->
  (forall h', links_only (b :: F) h h' -> frees h' (b :: F) -> Q tt h') ->
  wp (freelist_insert b) Q h.
Proof.
  intros [Hz HA HF [Hf Hd]] Hb Hnd HQ. unfold freelist_insert.
  assert (forall x o, x ∈ b :: F -> field o -> live h (x + o)) as Hlive.
  { intros x o [->|Hx]%elem_of_cons Ho; apply (apart_live h A); auto. }
  pose proof (apart_range h A b Hz HA Hb) as Hbr. pose proof (hd0_range h A F Hz HA HF) as Hfr.
  apply wp_bind. eapply (step_st [] h h); [by apply writes_nil|apply Hlive; fld|lia|]. intros W1.
  apply wp_bind, wp_get. destruct (wr_same (b + off_fprev) 0 h) as (E1 & E2 & E3 & _). rewrite E3, Hf.
  set (h1 := wr (b + off_fprev) 0 h) in *.
  apply wp_bind. eapply step_st; [exact W1|apply Hlive; fld|done|].
  intros W2. set (h2 := wr (b + off_fnext) _ h1) in *.
  destruct (wr_same (b + off_fnext) (hd0 0 F) h1) as (G1 & G2 & _). fold h2 in G1, G2.
  pose proof Hnd as [HbF _]%NoDup_cons. apply wp_bind. apply wp_when; intros Hnz.
  - destruct F as [|f F]; [done|]. simpl in Hf, W2 |- *. assert (b <> f) as Hbf by (intros ->; apply HbF; mem).
    eapply step_st; [exact W2|apply Hlive; fld|lia|]. intros W3.
    destruct (wr_same (f + off_fprev) b h2) as (I1 & I2 & _). set (h3 := wr (f + off_fprev) b h2) in *.
    apply wp_put, HQ.
    + eapply links_of_writes; [exact W3| |congruence|congruence|by eexists].
      intros a v [[= -> _]|Ha]%elem_of_cons; [exists f; split; [mem|by right]|]. exists b. split; [mem|]. set_solver.
    + split; [done|]. assert (forall y, y ∈ f :: F -> y <> b) as Hyb by (intros y Hy ->; done).
      eapply dseg_push; [done|exact Hd| | | |]; cbv beta;
        change (W (set_free_head b h3)) with (W h3);
        intros; rewrite (ws_words _ _ _ W3) by (apply Hlive; fld);
        rewrite !(upds_field h A) by (first [done | fld | apply HF; fld]); simpl;
        rewrite ?andb_false_r, ?andb_true_r, ?Z.eqb_refl, ?(proj2 (Z.eqb_neq b f)) by done; try done;
        rewrite ?(proj2 (Z.eqb_neq y b)) by (by apply Hyb); done.
  - apply nz_false in Hnz. destruct F as [|f F].
    2: { simpl in Hnz. pose proof (apart_range h A f Hz HA (HF f ltac:(mem))). lia. }
    apply wp_put, HQ.
    + eapply links_of_writes; [exact W2| |congruence|congruence|by eexists].
      intros a v Ha. exists b. split; [mem|]. set_solver.
    + split; [done|]. split; [|split; [|done]]; cbv beta; change (W (set_free_head b h2)) with (W h2);
        rewrite (ws_words _ _ _ W2) by (apply Hlive; fld);
        rewrite !(upds_field h A) by (first [done | fld]); simpl;
        rewrite ?andb_false_r, ?andb_true_r, ?Z.eqb_refl; done.
Qed.

Lemma nonzero_links h (A F : list Z) : zone h -> apart h A -> (forall x, x ∈ F -> x ∈ A) -> 0 ∉ F.
Proof. intros Hz HA HF H0. pose proof (apart_range h A 0 Hz HA (HF 0 H0)). lia. Qed.

Lemma nz_hd0 (l : list Z) : 0 ∉ l -> nz (hd0 0 l) = match l with [] => false | _ => true end.
Proof. intros H0. destruct l as [|x l]; [done|]. apply nz_true. simpl. intros ->. apply H0. mem. Qed.

Lemma nz_last0 (l : list Z) : 0 ∉ l -> nz (last0 0 l) = match l with [] => false | _ => true end.
Proof. intros H0. destruct l as [|x l]; [done|]. apply nz_true. intros He. apply H0. rewrite <-He. by apply last0_in. Qed.

Lemma wp_freelist_remove A F1 b F2 h (Q : unit -> heap K -> Prop) :
  flist h A (F1 ++ b :: F2) -> NoDup (F1 ++ b :: F2) ->
  (forall h', links_only (F1 ++ F2) h h' -> frees h' (F1 ++ F2) -> Q tt h') ->
  wp (freelist_remove b) Q h.
Proof.
  intros [Hz HA HF [Hf Hd]] Hnd HQ. unfold freelist_remove.
  pose proof (nonzero_links h A _ Hz HA HF) as H0.
  assert (forall x, x ∈ F1 ++ F2 -> x ∈ F1 ++ b :: F2) as Hsub.
  { intros x. rewrite !elem_of_app, elem_of_cons. tauto. }
  assert (b ∈ F1 ++ b :: F2) as HbF by (apply elem_of_app; right; mem).
  assert (forall x o, x ∈ F1 ++ b :: F2 -> field o -> live h (x + o)) as Hlive.
  { intros x o Hx Ho. apply (apart_live h A); auto. }
  destruct (dseg_mid _ _ _ _ _ _ _ Hd) as [Hp Hn]. cbv beta in Hp, Hn.
  set (p := last0 0 F1) in *. set (n := hd0 0 F2) in *.
  assert (0 <= p < 2 ^ 64) as Hpr by (apply (last0_range h A F1); auto; intros; apply HF, elem_of_app; by left).
  assert (0 <= n < 2 ^ 64) as Hnr.
  { apply (hd0_range h A F2); auto. intros; apply HF, elem_of_app; right; mem. }
  assert (nz p = match F1 with [] => false | _ => true end) as Hnzp.
  { apply nz_last0. intros H. apply H0, elem_of_app. by left. }
  assert (nz n = match F2 with [] => false | _ => true end) as Hnzn.
  { apply nz_hd0. intros H. apply H0, elem_of_app. right. mem. }
  assert (F1 <> [] -> p ∈ F1 ++ F2) as Hpin by (intros; apply elem_of_app; left; by apply last0_in).
  assert (F2 <> [] -> n ∈ F1 ++ F2) as Hnin by (intros; apply elem_of_app; right; by apply hd0_in).
  apply wp_bind, wp_ld; [done|by apply Hlive; fld|]. rewrite Hp.
  apply wp_bind, wp_ld; [done|by apply Hlive; fld|]. rewrite Hn.
  (* the first store, or the head *)
  apply wp_bind. set (l1 := if nz p then [(p + off_fnext, n)] else []).
  assert (forall h1, writes l1 h h1 -> heap_head h1 = heap_head h -> heap_tail h1 = heap_tail h ->
    free_head h1 = hd0 0 (F1 ++ F2) -> wp (when (nz n) (st (n + off_fprev) p)) Q h1) as Hrest.
  { intros h1 W1 E1 E2 E3. set (l2 := if nz n then (n + off_fprev, p) :: l1 else l1).
    assert (forall h2, writes l2 h h2 -> heap_head h2 = heap_head h -> heap_tail h2 = heap_tail h ->
      free_head h2 = hd0 0 (F1 ++ F2) -> Q tt h2) as Hend.
    { intros h2 W2 G1 G2 G3. apply HQ.
      - eapply (links_of_writes _ l2 h h2 h2); [done| |done|done|exists (free_head h2); by destruct h2].
        intros a v Ha. unfold l2, l1 in Ha. rewrite Hnzp, Hnzn in Ha.
        destruct F1, F2; try (apply elem_of_cons in Ha as [[= -> _]|Ha]); try (apply elem_of_cons in Ha as [[= -> _]|Ha]);
          try (by apply elem_of_nil in Ha); solve [exists n; split; [by apply Hnin|by right] | exists p; split; [by apply Hpin|by left]].
      - split; [done|]. eapply dseg_unlink; [exact Hnd|exact H0|exact Hd| |]; cbv beta; intros y Hy; fold p n;
          (assert (y <> 0) as Hy0 by (intros ->; by apply H0, Hsub));
          rewrite (ws_words _ _ _ W2) by (apply Hlive; [by apply Hsub|fld]); unfold l2, l1; rewrite Hnzp, Hnzn.
        + destruct F1, F2; try rewrite !(upds_field h A) by (first [done | fld | apply HF, Hsub; first [done | by apply Hnin | by apply Hpin]]);
            simpl; rewrite ?andb_false_r, ?andb_true_r; try done;
            by rewrite (proj2 (Z.eqb_neq y p)).
        + destruct F1, F2; try rewrite !(upds_field h A) by (first [done | fld | apply HF, Hsub; first [done | by apply Hnin | by apply Hpin]]);
            simpl; rewrite ?andb_false_r, ?andb_true_r; try done; by rewrite (proj2 (Z.eqb_neq y n)). }
    apply wp_when; intros Hz2; unfold l2 in Hend; rewrite Hz2 in Hend; [|by apply Hend].
    rewrite Hnzn in Hz2. assert (F2 <> []) as HF2 by (intros ->; done).
    eapply step_st; [exact W1|apply Hlive; [by apply Hsub, Hnin|fld]|done|]. intros W2.
    destruct (wr_same (n + off_fprev) p h1) as (I1 & I2 & I3 & _). apply Hend; congruence || done. }
  subst l1. destruct (nz p) eqn:Hzp; rewrite Hnzp in Hzp.
  - assert (F1 <> []) as HF1 by (intros ->; done). destruct F1 as [|f F1]; [done|].
    eapply (step_st [] h h); [by apply writes_nil|apply Hlive; [by apply Hsub, Hpin|fld]|done|]. intros W1.
    destruct (wr_same (p + off_fnext) n h) as (I1 & I2 & I3 & _). apply Hrest; try done. by rewrite I3, Hf.
  - destruct F1 as [|f F1]; [|done]. apply wp_put. apply Hrest; try done.
    apply (writes_statics [] h h); [by apply writes_nil|done|done|done].
Qed.
End free_list.

(** ** The blocks *)

Record blk := mkBlk { b_at : Z; b_size : Z; b_used : bool }.

Definition b_end (b : blk) : Z := b_at b + BLOCK + b_size b.
Definition addrs (L : list blk) : list Z := b_at <$> L.
Definition used_word (b : blk) : Z := if b_used b then 1 else 0.

(** Contiguous from [a] to [e], each big enough for the links. *)
Fixpoint chain (a : Z) (L : list blk) (e : Z) : Prop :=
  match L with
  | [] => a = e
  | b :: L' => b_at b = a /\ MIN_PAYLOAD <= b_size b /\ b_size b mod KHEAP64_ALIGN = 0 /\ chain (b_end b) L' e
  end.

Lemma chain_app a L1 L2 e : chain a (L1 ++ L2) e <-> exists m, chain a L1 m /\ chain m L2 e.
Proof.
  revert a. induction L1 as [|b L1 IH]; intros a; simpl; [split; [eauto|by intros (m & -> & ?)]|].
  rewrite IH. split; [intros (? & ? & ? & m & ? & ?); eauto 6|intros (m & (? & ? & ? & ?) & ?); eauto 6].
Qed.

Lemma chain_le a L e : chain a L e -> a <= e.
Proof.
  revert a. induction L as [|b L IH]; intros a; simpl; [lia|]. intros (<- & Hs & _ & Hc%IH).
  unfold b_end, BLOCK, MIN_PAYLOAD in *. lia.
Qed.

Lemma chain_in a L e b : chain a L e -> b ∈ L ->
  a <= b_at b /\ b_end b <= e /\ MIN_PAYLOAD <= b_size b /\ b_size b mod KHEAP64_ALIGN = 0.
Proof.
  intros Hc (L1 & L2 & ->)%list_elem_of_split. apply chain_app in Hc as (m & H1 & H2).
  pose proof (chain_le _ _ _ H1). destruct H2 as (<- & Hs & Ha & H2). apply chain_le in H2. lia.
Qed.

Lemma chain_mod a L e b : chain a L e -> a mod 16 = 0 -> b ∈ L -> b_at b mod 16 = 0.
Proof.
  revert a. induction L as [|x L IH]; intros a; simpl; [by intros _ _ ?%elem_of_nil|].
  intros (<- & _ & Hs & Hc) Ha [->|Hb]%elem_of_cons; [done|]. apply (IH _ Hc); [|done].
  unfold b_end, BLOCK, KHEAP64_ALIGN in *. apply Z.mod_divide in Ha as [j Hj]; [|lia].
  apply Z.mod_divide in Hs as [k Hk]; [|lia]. apply Z.mod_divide; [lia|]. exists (j + k + 2). lia.
Qed.

(** Two blocks are the same or one ends before the other. *)
Lemma chain_apart a L e b b' : chain a L e -> b ∈ L -> b' ∈ L -> b = b' \/ b_end b <= b_at b' \/ b_end b' <= b_at b.
Proof.
  revert a. induction L as [|x L IH]; intros a; simpl; [by intros _ ?%elem_of_nil|].
  intros (<- & _ & _ & Hc) [->|Hb]%elem_of_cons [->|Hb']%elem_of_cons.
  - by left.
  - right. left. apply (chain_in _ _ _ _ Hc Hb').
  - right. right. apply (chain_in _ _ _ _ Hc Hb).
  - by apply (IH _ Hc).
Qed.

Lemma addrs_in L x : x ∈ addrs L <-> exists b, b ∈ L /\ b_at b = x.
Proof. unfold addrs. rewrite list_elem_of_fmap. naive_solver. Qed.

Lemma in_addrs L b : b ∈ L -> b_at b ∈ addrs L.
Proof. intros. apply addrs_in. eauto. Qed.

Lemma chain_at_inj a L e b b' : chain a L e -> b ∈ L -> b' ∈ L -> b_at b = b_at b' -> b = b'.
Proof.
  intros Hc Hb Hb' He. destruct (chain_apart _ _ _ _ _ Hc Hb Hb') as [|[H|H]]; [done| |];
    pose proof (chain_in _ _ _ _ Hc Hb); pose proof (chain_in _ _ _ _ Hc Hb');
    unfold b_end, BLOCK, MIN_PAYLOAD in *; lia.
Qed.

Lemma chain_NoDup a L e : chain a L e -> NoDup (addrs L).
Proof.
  revert a. induction L as [|b L IH]; intros a; simpl; [constructor|]. intros (<- & Hs & _ & Hc).
  apply NoDup_cons. split; [|by apply (IH _ Hc)]. intros (b' & Hb' & He)%addrs_in.
  pose proof (chain_in _ _ _ _ Hc Hb') as (H & _). unfold b_end, BLOCK, MIN_PAYLOAD in *. lia.
Qed.

Section blocks.
  Context {K : Type} `{!KernelMemory K, !KernelMemoryLaws K}.
  Implicit Types h : heap K.

(** Where the blocks start: past [KHEAP64_BASE] when the initial pages were lost. *)
Definition start h (L : list blk) : Z := hd0 (heap_end h) (addrs L).

(** The heap is the blocks [L]: their headers say so, and so do the ends. *)
Record skel h (L : list blk) : Prop := {
  sk_zone : zone h;
  sk_chain : chain (start h L) L (heap_end h);
  sk_start : KHEAP64_BASE <= start h L /\ start h L mod 16 = 0;
  sk_head : heap_head h = hd0 0 (addrs L);
  sk_tail : heap_tail h = last0 0 (addrs L);
  sk_list : dseg (fun x => W h (x + off_next)) (fun x => W h (x + off_prev)) 0 (addrs L) 0;
  sk_header b : b ∈ L -> W h (b_at b + off_size) = b_size b /\ W h (b_at b + off_used) = used_word b
}.

Lemma skel_in h L b : skel h L -> b ∈ L ->
  KHEAP64_BASE <= b_at b /\ b_end b <= heap_end h /\ MIN_PAYLOAD <= b_size b /\ b_size b mod KHEAP64_ALIGN = 0.
Proof.
  intros Hs Hb. destruct (chain_in _ _ _ _ (sk_chain _ _ Hs) Hb) as (H & ?).
  destruct (sk_start _ _ Hs). split; [lia|done].
Qed.

Lemma chain_blocks h a L : KHEAP64_BASE <= a -> a mod 16 = 0 -> chain a L (heap_end h) -> apart h (addrs L).
Proof.
  intros Ha Hm Hc x (b & Hb & <-)%addrs_in.
  destruct (chain_in _ _ _ _ Hc Hb) as (Hlo & Hhi & Hsz & _). unfold b_end, BLOCK, MIN_PAYLOAD in *.
  split; [by apply (chain_mod _ _ _ _ Hc)|]. split; [lia|]. split; [lia|].
  intros x' (b' & Hb' & <-)%addrs_in Hne.
  destruct (chain_in _ _ _ _ Hc Hb') as (_ & _ & Hsz' & _).
  destruct (chain_apart _ _ _ _ _ Hc Hb Hb') as [->|[H|H]]; unfold b_end, BLOCK, MIN_PAYLOAD in *; [done|lia|lia].
Qed.

Lemma skel_apart h L : skel h L -> apart h (addrs L).
Proof. intros Hs. apply (chain_blocks h (start h L)); apply Hs. Qed.

(** The contents of a block in use. *)
Definition payload (u : blk) (c : Z) : Prop := word_at c /\ b_at u + BLOCK <= c < b_end u.
Definition stable h h' (u : blk) : Prop := forall c, payload u c -> W h' c = W h c.

Lemma stable_refl h u : stable h h u.
Proof. done. Qed.

Lemma stable_trans h1 h2 h3 u : stable h1 h2 u -> stable h2 h3 u -> stable h1 h3 u.
Proof. intros H1 H2 c Hc. by rewrite H2, H1. Qed.

Lemma payload_live h L u c : skel h L -> u ∈ L -> payload u c -> live h c.
Proof.
  intros Hs Hu [Hc Hr]. destruct (skel_in h L u Hs Hu) as (Hlo & Hhi & _).
  split; [done|]. unfold BLOCK in *. lia.
Qed.

(** A payload is not a field of another block, nor of its own header. *)
Lemma payload_field h L u c x o : skel h L -> u ∈ L -> payload u c -> x ∈ addrs L -> field o ->
  x <> b_at u \/ o < BLOCK -> c <> x + o.
Proof.
  intros Hs Hu [_ Hc] (b & Hb & <-)%addrs_in [_ Ho] Hd. pose proof (sk_chain _ _ Hs) as Hch.
  destruct (chain_in _ _ _ _ Hch Hb) as (_ & _ & Hsz & _).
  destruct (chain_apart _ _ _ _ _ Hch Hb Hu) as [->|[H|H]]; unfold b_end, BLOCK, MIN_PAYLOAD in *; [|lia|lia].
  destruct Hd; [done|lia].
Qed.

Lemma stable_links h h' L F u :
  skel h L -> links_only F h h' -> (forall x, x ∈ F -> x ∈ addrs L) -> u ∈ L -> b_at u ∉ F -> stable h h' u.
Proof.
  intros Hs Hl HF Hu Hn c Hc. apply (lo_words _ _ _ Hl); [by apply (payload_live h L u)|].
  intros x Hx. split; apply (payload_field h L u); try done; try fld; try (by apply HF); left; by intros ->.
Qed.

Lemma stable_writes h h' L l u :
  skel h L -> writes l h h' -> u ∈ L ->
  (forall a v, (a, v) ∈ l -> exists x o, x ∈ addrs L /\ field o /\ a = x + o /\ (x <> b_at u \/ o < BLOCK)) ->
  stable h h' u.
Proof.
  intros Hs Hw Hu Hl c Hc. rewrite (ws_words _ _ _ Hw) by (by apply (payload_live h L u)). clear Hw.
  induction l as [|[a v] l IH]; [done|]. simpl. destruct (Hl a v ltac:(mem)) as (x & o & Hx & Ho & -> & Hd).
  pose proof (payload_field h L u c x o Hs Hu Hc Hx Ho Hd). destruct (Z.eqb_spec c (x + o)); [done|].
  apply IH. intros. apply (Hl a v0). mem.
Qed.

(** A header field is not a link. *)
Lemma links_header h h' L F b o :
  skel h L -> links_only F h h' -> (forall x, x ∈ F -> x ∈ addrs L) -> b ∈ addrs L -> field o -> o < BLOCK ->
  W h' (b + o) = W h (b + o).
Proof.
  intros Hs Hl HF Hb Ho Hlt. pose proof (skel_apart h L Hs) as HA.
  apply (lo_words _ _ _ Hl); [by apply (apart_live h (addrs L))|]. unfold BLOCK in Hlt.
  intros x Hx. split; apply Z.eqb_neq; rewrite (apart_eq h (addrs L)) by (first [done | fld | by apply HF]);
    apply andb_false_iff; right; apply Z.eqb_neq; unfold off_fnext, off_fprev; lia.
Qed.

Lemma skel_links h h' L F :
  skel h L -> links_only F h h' -> (forall x, x ∈ F -> x ∈ addrs L) -> skel h' L.
Proof.
  intros Hs Hl HF. pose proof Hs as [Hz Hc Hst Hh Ht Hd Hb]. pose proof Hl as [Lz Le Lh Lt _ _].
  assert (forall b o, b ∈ addrs L -> field o -> o < BLOCK -> W h' (b + o) = W h (b + o)) as Hw
    by (intros; by apply (links_header h h' L F)).
  assert (start h' L = start h L) as Hst' by (unfold start; by rewrite Le).
  split; [done|by rewrite Hst', Le|by rewrite Hst'|congruence|congruence| |].
  - eapply dseg_ext; [|exact Hd]. intros x Hx. cbv beta. split; apply Hw; (done || fld).
  - intros b Hbl. destruct (Hb b Hbl) as [<- <-]. split; apply Hw; try fld; try done; by apply in_addrs.
Qed.
End blocks.

Section operations.
  Context {K : Type} `{!KernelMemory K, !KernelMemoryLaws K}.
  Implicit Types h : heap K.

(** Links are not header fields: the free list survives writes to headers. *)
Lemma frees_writes h h' A F l :
  apart h A -> (forall x, x ∈ F -> x ∈ A) -> frees h F -> writes l h h' -> free_head h' = free_head h ->
  (forall a v, (a, v) ∈ l -> exists x o, x ∈ A /\ field o /\ a = x + o /\ o < BLOCK) -> frees h' F.
Proof.
  intros HA HF [Hf Hd] Hw He Hl. split; [congruence|]. eapply dseg_ext; [|exact Hd]. intros x Hx.
  assert (forall o, field o -> BLOCK <= o -> W h' (x + o) = W h (x + o)) as Hx'.
  { intros o Ho Hge. rewrite (ws_words _ _ _ Hw) by (apply (apart_live h A); auto). clear Hw.
    induction l as [|[a v] l IH]; [done|]. simpl. destruct (Hl a v ltac:(mem)) as (y & o' & Hy & Ho' & -> & Hlt).
    rewrite (apart_eq h A) by auto. rewrite (proj2 (Z.eqb_neq o o')) by lia. rewrite andb_false_r.
    apply IH. intros. apply (Hl a v0). mem. }
  split; apply Hx'; try fld; done.
Qed.

Definition merged (b n : blk) : blk := mkBlk (b_at b) (b_size b + BLOCK + b_size n) (b_used b).

Lemma addrs_app L1 L2 : addrs (L1 ++ L2) = addrs L1 ++ addrs L2.
Proof. apply fmap_app. Qed.

Lemma merged_end b n : b_at n = b_end b -> b_end (merged b n) = b_end n.
Proof. unfold b_end, merged. simpl. lia. Qed.

Lemma chain_merge a L1 b n L2 e : chain a (L1 ++ b :: n :: L2) e -> chain a (L1 ++ merged b n :: L2) e.
Proof.
  rewrite !chain_app. intros (m & H1 & Hb & Hbs & Hba & Hn & Hns & Hna & H2). exists m. split; [done|].
  cbn [chain]. rewrite merged_end by done. unfold merged, BLOCK, MIN_PAYLOAD, KHEAP64_ALIGN in *. cbn [b_at b_size].
  split; [done|]. split; [lia|]. split; [|done].
  apply Z.mod_divide in Hba as [j ->]; [|lia]. apply Z.mod_divide in Hna as [k ->]; [|lia].
  apply Z.mod_divide; [lia|]. exists (j + k + 2). lia.
Qed.

Lemma block_range h L b : skel h L -> b ∈ L ->
  0 < b_at b < 2 ^ 64 /\ MIN_PAYLOAD <= b_size b /\ b_size b + BLOCK <= KHEAP64_MAX_SIZE /\ b_end b <= heap_end h.
Proof.
  intros Hs Hb. destruct (skel_in h L b Hs Hb) as (H1 & H2 & H3 & _).
  pose proof (zn_range h (sk_zone _ _ Hs)). pose proof (apart_range h _ _ (sk_zone _ _ Hs) (skel_apart h L Hs) (in_addrs L b Hb)).
  unfold b_end in *. lia.
Qed.

(** The counters, and where the heap ends. *)
Definition same_stats h h' : Prop :=
  heap_end h' = heap_end h /\ stat_steps h' = stat_steps h /\ stat_calls h' = stat_calls h /\
  double_frees h' = double_frees h.

Lemma same_stats_trans h1 h2 h3 : same_stats h1 h2 -> same_stats h2 h3 -> same_stats h1 h3.
Proof. unfold same_stats. intuition congruence. Qed.

Lemma links_stats F h h' : links_only F h h' -> same_stats h h'.
Proof. intros [_ He _ _ Hs _]. split; [done|exact Hs]. Qed.

Lemma writes_stats l h h' : writes l h h' -> same_stats h h'.
Proof. intros [_ He Hs _]. by split. Qed.

(** The blocks [U], in use, keep their contents. *)
Definition stables (U : list blk) h h' : Prop := forall u, u ∈ U -> stable h h' u.

(** Rewriting a field through the stores made since [h]. *)
Ltac rd_field W HA := rewrite (ws_words _ _ _ W) by (eapply (apart_live _ _ _ _ HA); first [fld | done]);
  rewrite !(upds_field _ _ _ _ _ _ _ _ HA) by (first [fld | done]).

(** The second half of [merge_next]: the headers. *)
Definition absorb (b n : Z) : hm (K := K) unit :=
  bs ← ld (b + off_size);
  ns ← ld (n + off_size);
  st (b + off_size) (u64 (bs + u64 (BLOCK + ns)));;
  nn ← ld (n + off_next);
  st (b + off_next) nn;;
  when (nz nn) (st (nn + off_prev) b);;
  t ← get heap_tail;
  when (n =? t) (put (set_heap_tail b)).

(** What the stores of [absorb] make of the blocks. *)
Lemma absorb_skel L1 b n L2 l h h' :
  skel h (L1 ++ b :: n :: L2) ->
  l = (if nz (hd0 0 (addrs L2)) then [(hd0 0 (addrs L2) + off_prev, b_at b)] else []) ++
      [(b_at b + off_next, hd0 0 (addrs L2)); (b_at b + off_size, b_size (merged b n))] ->
  writes l h h' -> heap_head h' = heap_head h ->
  heap_tail h' = (if b_at n =? heap_tail h then b_at b else heap_tail h) ->
  skel h' (L1 ++ merged b n :: L2).
Proof.
  intros Hs -> Hw Eh Et. set (L := L1 ++ b :: n :: L2) in *. set (nn := hd0 0 (addrs L2)) in *.
  pose proof (skel_apart h L Hs) as HA. pose proof (sk_zone _ _ Hs) as Hz.
  assert (addrs L = addrs L1 ++ b_at b :: b_at n :: addrs L2) as HaL by apply addrs_app.
  pose proof (chain_NoDup _ _ _ (sk_chain _ _ Hs)) as Hnd. rewrite HaL in Hnd.
  pose proof (nonzero_links h (addrs L) (addrs L) Hz HA (fun x H => H)) as H0.
  assert (b_at b ∈ addrs L) as Hba by (rewrite HaL; apply elem_of_app; right; mem).
  assert (addrs L2 <> [] -> nn ∈ addrs L) as Hnnin.
  { intros H. rewrite HaL. apply elem_of_app; right. do 2 (apply elem_of_cons; right). by apply hd0_in. }
  assert (nz nn = match addrs L2 with [] => false | _ => true end) as Hnz.
  { apply nz_hd0. intros H. apply H0. rewrite HaL. apply elem_of_app; right; mem. }
  assert (forall x o, x ∈ addrs L -> field o -> W h' (x + o) =
    if nz nn && (x =? nn) && (o =? off_prev) then b_at b else
    if (x =? b_at b) && (o =? off_next) then nn else
    if (x =? b_at b) && (o =? off_size) then b_size (merged b n) else W h (x + o)) as Hf.
  { intros x o Hx Ho. rewrite (ws_words _ _ _ Hw) by (by apply (apart_live h _ _ _ HA)).
    rewrite Hnz. destruct (addrs L2) eqn:He; cbn [app andb];
      rewrite !(upds_field h _ _ _ _ _ _ _ HA) by (first [fld | done | apply Hnnin; done]); done. }
  pose proof (ws_zone _ _ _ Hw) as Hz'. pose proof (ws_end _ _ _ Hw) as He.
  assert (start h' (L1 ++ merged b n :: L2) = start h L) as Hst.
  { unfold start. rewrite He, HaL, addrs_app. by destruct (addrs L1). }
  split; [done|rewrite Hst, He; by apply chain_merge, (sk_chain _ _ Hs)|rewrite Hst; apply (sk_start _ _ Hs)| | | |].
  - rewrite Eh, (sk_head _ _ Hs), HaL, addrs_app. by destruct (addrs L1).
  - rewrite Et, (sk_tail _ _ Hs), HaL, addrs_app, !last0_app. simpl.
    destruct (Z.eqb_spec (b_at n) (last0 (b_at n) (addrs L2))) as [Hl|Hl].
    + destruct (addrs L2) as [|y l] eqn:Hl2; [done|]. exfalso.
      apply NoDup_app in Hnd as (_ & _ & Hnd). apply NoDup_cons in Hnd as [_ Hnd]. apply NoDup_cons in Hnd as [Hnd _].
      apply Hnd. rewrite Hl at 1. by apply last0_in.
    + destruct (addrs L2); [done|]. done.
  - rewrite addrs_app. simpl. pose proof (sk_list _ _ Hs) as Hd. rewrite HaL in Hd.
    rewrite cons_middle, app_assoc in Hd, Hnd. rewrite (cons_middle (b_at b)), app_assoc.
    eapply dseg_unlink; [exact Hnd| |exact Hd| |]; cbv beta.
    + by rewrite <-app_assoc, <-cons_middle, <-HaL.
    + intros y Hy. rewrite last0_app. simpl. fold nn. rewrite Hf; [|rewrite HaL; revert Hy; rewrite !elem_of_app, !elem_of_cons, elem_of_nil; tauto|fld].
      rewrite !andb_false_r, andb_true_r. done.
    + intros y Hy. rewrite last0_app. simpl. fold nn. rewrite Hf; [|rewrite HaL; revert Hy; rewrite !elem_of_app, !elem_of_cons, elem_of_nil; tauto|fld].
      rewrite !andb_false_r, andb_true_r. rewrite Hnz. destruct (addrs L2) as [|z l] eqn:Hl2; [|done].
      simpl. rewrite (proj2 (Z.eqb_neq y nn)); [done|]. intros ->. apply H0. rewrite HaL.
      revert Hy. rewrite !elem_of_app, !elem_of_cons, elem_of_nil. simpl. tauto.
  - intros x Hx. assert (x = merged b n \/ (x ∈ L /\ b_at x <> b_at b)) as [->|[HxL Hne]].
    { apply elem_of_app in Hx as [Hx|[->|Hx]%elem_of_cons]; [right|by left|right].
      - split; [apply elem_of_app; by left|]. intros He'. apply NoDup_app in Hnd as (_ & Hd & _).
        apply (Hd (b_at x)); [by apply in_addrs|]. rewrite He'. mem.
      - split; [apply elem_of_app; right; mem|]. intros He'. apply NoDup_app in Hnd as (_ & _ & [Hd _]%NoDup_cons).
        apply Hd. rewrite <-He'. apply elem_of_cons; right. by apply in_addrs. }
    + cbn [b_at merged]. rewrite !Hf by (done || fld). rewrite Z.eqb_refl, !andb_false_r. cbn [andb].
      split; [done|]. apply (sk_header _ _ Hs b). apply elem_of_app; right; mem.
    + rewrite !Hf by (first [fld | by apply in_addrs]). rewrite (proj2 (Z.eqb_neq _ _) Hne), !andb_false_r.
      cbn [andb]. by apply (sk_header _ _ Hs).
Qed.

(** Blocks whose payload the free list does not use. *)
Definition untouched (L : list blk) (F : list Z) (U : list blk) : Prop :=
  forall u, u ∈ U -> u ∈ L /\ b_at u ∉ F.

Lemma wp_absorb L1 b n L2 F U h (Q : unit -> heap K -> Prop) :
  skel h (L1 ++ b :: n :: L2) -> frees h F -> (forall x, x ∈ F -> x ∈ addrs (L1 ++ b :: n :: L2)) ->
  (forall u, u ∈ U -> u ∈ L1 ++ b :: n :: L2) ->
  (forall h', skel h' (L1 ++ merged b n :: L2) -> frees h' F -> same_stats h h' -> stables U h h' -> Q tt h') ->
  wp (absorb (b_at b) (b_at n)) Q h.
Proof.
  intros Hs HF HFin HU HQ. set (L := L1 ++ b :: n :: L2) in *.
  pose proof (skel_apart h L Hs) as HA. pose proof (sk_zone _ _ Hs) as Hz.
  assert (b ∈ L) as Hb by (apply elem_of_app; right; mem).
  assert (n ∈ L) as Hn by (apply elem_of_app; right; mem).
  pose proof (in_addrs L b Hb) as Hba. pose proof (in_addrs L n Hn) as Hna.
  assert (addrs L = addrs L1 ++ b_at b :: b_at n :: addrs L2) as HaL by apply addrs_app.
  set (nn := hd0 0 (addrs L2)) in *.
  assert (W h (b_at n + off_next) = nn) as Hnn.
  { pose proof (sk_list _ _ Hs) as Hd. rewrite HaL, cons_middle, app_assoc in Hd. apply (dseg_mid _ _ _ _ _ _ _ Hd). }
  assert (b_at b <> b_at n) as Hbn.
  { pose proof (chain_NoDup _ _ _ (sk_chain _ _ Hs)) as Hnd. rewrite HaL in Hnd.
    apply NoDup_app in Hnd as (_ & _ & [Hd _]%NoDup_cons). intros He. apply Hd. rewrite He. mem. }
  destruct (sk_header _ _ Hs b Hb) as [Hbs _]. destruct (sk_header _ _ Hs n Hn) as [Hns _].
  destruct (block_range h L b Hs Hb) as (Hbr & Hb1 & Hb2 & _). destruct (block_range h L n Hs Hn) as (_ & Hn1 & Hn2 & _).
  assert (addrs L2 <> [] -> nn ∈ addrs L) as Hnnin.
  { intros H. rewrite HaL. apply elem_of_app; right. do 2 (apply elem_of_cons; right). by apply hd0_in. }
  assert (0 <= nn < 2 ^ 64) as Hnnr.
  { apply (hd0_range h (addrs L)); [done..|]. intros x Hx. rewrite HaL. apply elem_of_app; right; mem. }
  unfold absorb.
  eapply (step_ld [] h h); [by apply writes_nil|by apply (apart_live h _ _ _ HA); fld|]. simpl. rewrite Hbs.
  eapply (step_ld [] h h); [by apply writes_nil|by apply (apart_live h _ _ _ HA); fld|]. simpl. rewrite Hns.
  unfold MIN_PAYLOAD, BLOCK, KHEAP64_MAX_SIZE in *.
  rewrite (u64_small (32 + b_size n)), u64_small by lia.
  assert (b_size (merged b n) = b_size b + (32 + b_size n)) as Hm by (unfold merged, BLOCK; simpl; lia).
  apply wp_bind. eapply (step_st [] h h); [by apply writes_nil|by apply (apart_live h _ _ _ HA); fld|lia|]. intros W1.
  destruct (wr_same (b_at b + off_size) (b_size b + (32 + b_size n)) h) as (E1 & E2 & E3 & _).
  set (h1 := wr _ _ h) in *.
  eapply step_ld; [exact W1|by apply (apart_live h _ _ _ HA); fld|].
  rewrite (upds_field h _ _ _ _ _ _ _ HA) by (first [fld | done]). rewrite andb_false_r. cbn [upds]. rewrite Hnn.
  apply wp_bind. eapply step_st; [exact W1|by apply (apart_live h _ _ _ HA); fld|done|]. intros W2.
  destruct (wr_same (b_at b + off_next) nn h1) as (G1 & G2 & G3 & _). set (h2 := wr _ _ h1) in *.
  apply wp_bind.
  assert (forall l h3, writes l h h3 -> l = (if nz nn then [(nn + off_prev, b_at b)] else []) ++
      [(b_at b + off_next, nn); (b_at b + off_size, b_size (merged b n))] ->
    heap_head h3 = heap_head h -> heap_tail h3 = heap_tail h -> free_head h3 = free_head h ->
    wp (t ← get heap_tail; when (b_at n =? t) (put (set_heap_tail (b_at b)))) Q h3) as Hend.
  { intros l h3 W3 Hl I1 I2 I3. apply wp_bind, wp_get. rewrite I2.
    assert (forall h4, writes l h h4 -> heap_head h4 = heap_head h -> free_head h4 = free_head h ->
      heap_tail h4 = (if b_at n =? heap_tail h then b_at b else heap_tail h) -> Q tt h4) as Hq.
    { intros h4 W4 J1 J2 J3.
      assert (forall a v, (a, v) ∈ l -> exists x o, x ∈ addrs L /\ field o /\ a = x + o /\ o < BLOCK) as Hlf.
      { intros a v Ha. subst l.
        destruct (nz nn) eqn:Hz2; cbn [app] in Ha; rewrite ?elem_of_cons, elem_of_nil in Ha.
        - assert (nn ∈ addrs L) as Hi by (apply Hnnin; intros He; unfold nn in Hz2; by rewrite He in Hz2).
          destruct Ha as [[= -> _]|[[= -> _]|[[= -> _]|[]]]]; eauto 6 using Hi; eexists _, _; (split; [|split; [|split; [reflexivity|done]]]); (done || fld).
        - destruct Ha as [[= -> _]|[[= -> _]|[]]]; eexists _, _; (split; [|split; [|split; [reflexivity|done]]]); (done || fld). }
      apply HQ.
      - by apply (absorb_skel L1 b n L2 l h h4).
      - by apply (frees_writes h h4 (addrs L) F l).
      - by apply (writes_stats l).
      - intros u Hu. apply (stable_writes h h4 L l u Hs W4 (HU u Hu)). intros a v Ha.
        destruct (Hlf a v Ha) as (x & o & Hx & Ho & -> & Hlt). exists x, o. auto. }
    apply wp_when; intros Ht; rewrite Ht in Hq.
    - apply wp_put, Hq; try done. by apply (writes_statics l h h3).
    - by apply Hq. }
  apply wp_when; intros Hz2; rewrite Hz2 in Hend.
  - assert (nn ∈ addrs L) as Hi by (apply Hnnin; intros He; unfold nn in Hz2; by rewrite He in Hz2).
    eapply step_st; [exact W2|by apply (apart_live h _ _ _ HA); fld|lia|]. intros W3.
    destruct (wr_same (nn + off_prev) (b_at b) h2) as (I1 & I2 & I3 & _).
    eapply Hend; [exact W3| |congruence..]. by rewrite Hm.
  - eapply Hend; [exact W2| |congruence..]. by rewrite Hm.
Qed.
End operations.
