(* ===== verification/Kheapinv.v ===== *)
(** * The kernel heap's invariant ([kernel/kheap64.c])

    The free list holds the free blocks, each once, and no two free blocks
    are neighbours: [hinv] and [coalesced].  What the operations of [Kheap64]
    do is stated on the list of blocks. *)

From S2P Require Import Prelude FrameAlloc Paging64 Dll Kheap64.

Definition usedb (L : list blk) : list blk := filter (fun b => b_used b = true) L.
Definition freeb (L : list blk) : list blk := filter (fun b => b_used b = false) L.

(** No two neighbours are both free. *)
Fixpoint coalesced (L : list blk) : Prop :=
  match L with
  | a :: (b :: _) as L' => (b_used a = true \/ b_used b = true) /\ coalesced L'
  | _ => True
  end.

Lemma coalesced_mid L1 b L2 : coalesced (L1 ++ b :: L2) <-> coalesced (L1 ++ [b]) /\ coalesced (b :: L2).
Proof.
  induction L1 as [|a L1 IH]; [simpl; tauto|]. destruct L1 as [|c L1]; [simpl; tauto|].
  cbn [app coalesced] in *. rewrite IH. tauto.
Qed.

Lemma coalesced_app L1 L2 : coalesced (L1 ++ L2) -> coalesced L1 /\ coalesced L2.
Proof.
  induction L1 as [|a L1 IH]; [done|]. destruct L1 as [|c L1].
  - destruct L2; [done|]. by intros [_ ?].
  - cbn [app coalesced] in *. intros [? H]. destruct (IH H). done.
Qed.

Lemma usedb_app L1 L2 : usedb (L1 ++ L2) = usedb L1 ++ usedb L2.
Proof. apply filter_app. Qed.
Lemma freeb_app L1 L2 : freeb (L1 ++ L2) = freeb L1 ++ freeb L2.
Proof. apply filter_app. Qed.
Lemma usedb_cons b L : usedb (b :: L) = if b_used b then b :: usedb L else usedb L.
Proof. unfold usedb. rewrite filter_cons. destruct (b_used b); by case_decide. Qed.
Lemma freeb_cons b L : freeb (b :: L) = if b_used b then freeb L else b :: freeb L.
Proof. unfold freeb. rewrite filter_cons. destruct (b_used b); by case_decide. Qed.

Lemma usedb_in L b : b ∈ usedb L <-> b_used b = true /\ b ∈ L.
Proof. apply (list_elem_of_filter (fun b => _) L b). Qed.
Lemma freeb_in L b : b ∈ freeb L <-> b_used b = false /\ b ∈ L.
Proof. apply (list_elem_of_filter (fun b => _) L b). Qed.

Section invariant.
  Context {K : Type} `{!KernelMemory K, !KernelMemoryLaws K}.
  Implicit Types h : heap K.

Record hinv h (L : list blk) (F : list Z) : Prop := {
  hi_skel : skel h L;
  hi_frees : frees h F;
  hi_perm : F ≡ₚ addrs (freeb L)
}.

Lemma hinv_in h L F x : hinv h L F -> x ∈ F -> exists b, b ∈ L /\ b_used b = false /\ b_at b = x.
Proof. intros Hi. rewrite (hi_perm _ _ _ Hi). intros (b & [? ?]%freeb_in & ?)%addrs_in. eauto. Qed.

Lemma hinv_addrs h L F x : hinv h L F -> x ∈ F -> x ∈ addrs L.
Proof. intros Hi Hx. destruct (hinv_in h L F x Hi Hx) as (b & Hb & _ & <-). by apply in_addrs. Qed.

Lemma hinv_free h L F b : hinv h L F -> b ∈ L -> b_used b = false -> b_at b ∈ F.
Proof. intros Hi Hb Hu. rewrite (hi_perm _ _ _ Hi). by apply in_addrs, freeb_in. Qed.

Lemma freeb_NoDup h L : skel h L -> NoDup (addrs (freeb L)).
Proof.
  intros Hs. pose proof (chain_NoDup _ _ _ (sk_chain _ _ Hs)) as Hnd.
  eapply sublist_NoDup; [exact Hnd|]. apply fmap_sublist, sublist_filter.
Qed.

Lemma hinv_NoDup h L F : hinv h L F -> NoDup F.
Proof. intros Hi. rewrite (hi_perm _ _ _ Hi). apply (freeb_NoDup h), Hi. Qed.

Lemma hinv_flist h L F : hinv h L F -> flist h (addrs L) F.
Proof.
  intros Hi. pose proof (hi_skel _ _ _ Hi) as Hs. split; [apply Hs|by apply skel_apart|by intros; apply (hinv_addrs h L F)|apply Hi].
Qed.

Lemma block_inj h L b b' : skel h L -> b ∈ L -> b' ∈ L -> b_at b = b_at b' -> b = b'.
Proof. intros Hs. apply (chain_at_inj _ _ _ b b' (sk_chain _ _ Hs)). Qed.

Lemma hinv_untouched h L F u : hinv h L F -> u ∈ usedb L -> u ∈ L /\ b_at u ∉ F.
Proof.
  intros Hi [Hu Hin]%usedb_in. split; [done|]. intros Hf. destruct (hinv_in h L F _ Hi Hf) as (b & Hb & Hbu & He).
  rewrite (block_inj h L b u (hi_skel _ _ _ Hi) Hb Hin He) in Hbu. by rewrite Hu in Hbu.
Qed.

Lemma stables_trans U h1 h2 h3 : stables U h1 h2 -> stables U h2 h3 -> stables U h1 h3.
Proof. intros H1 H2 u Hu. by apply (stable_trans h1 h2); [apply H1|apply H2]. Qed.

Lemma next_of h L1 b L2 : skel h (L1 ++ b :: L2) -> W h (b_at b + off_next) = hd0 0 (addrs L2).
Proof. intros Hs. pose proof (sk_list _ _ Hs) as Hd. rewrite addrs_app in Hd. apply (dseg_mid _ _ _ _ _ _ _ Hd). Qed.
Lemma prev_of h L1 b L2 : skel h (L1 ++ b :: L2) -> W h (b_at b + off_prev) = last0 0 (addrs L1).
Proof. intros Hs. pose proof (sk_list _ _ Hs) as Hd. rewrite addrs_app in Hd. apply (dseg_mid _ _ _ _ _ _ _ Hd). Qed.

Lemma block_live h L b o : skel h L -> b ∈ L -> field o -> live h (b_at b + o).
Proof. intros Hs Hb Ho. apply (apart_live h (addrs L)); [by apply skel_apart|by apply in_addrs|done]. Qed.

(** The links of the blocks not in use may change. *)
Lemma hinv_links h h' L F F' :
  hinv h L F -> links_only F' h h' -> (forall x, x ∈ F' -> x ∈ F) -> skel h' L /\ same_stats h h' /\ stables (usedb L) h h'.
Proof.
  intros Hi Hl HF. pose proof (hi_skel _ _ _ Hi) as Hs.
  assert (forall x, x ∈ F' -> x ∈ addrs L) as Hin by (intros; apply (hinv_addrs h L F); auto).
  split_and!; [by apply (skel_links h h' L F')|by apply (links_stats F')|].
  intros u Hu. destruct (hinv_untouched h L F u Hi Hu) as [HuL Hn].
  apply (stable_links h h' L F'); auto.
Qed.

(** ** [merge_next] *)

Lemma wp_merge_free L1 b n L2 F h (Q : unit -> heap K -> Prop) :
  hinv h (L1 ++ b :: n :: L2) F -> b_used b = false -> b_used n = false ->
  (forall h' F', hinv h' (L1 ++ merged b n :: L2) F' -> same_stats h h' ->
    stables (usedb (L1 ++ b :: n :: L2)) h h' -> Q tt h') ->
  wp (merge_next (b_at b)) Q h.
Proof.
  intros Hi Hub Hun HQ. pose proof (hi_skel _ _ _ Hi) as Hs. set (L := L1 ++ b :: n :: L2) in *.
  assert (b ∈ L) as Hb by (apply elem_of_app; right; mem).
  assert (n ∈ L) as Hn by (apply elem_of_app; right; mem).
  pose proof (hinv_free h L F n Hi Hn Hun) as HnF.
  change (merge_next (b_at b)) with (x ← ld (b_at b + off_next); freelist_remove x;; absorb (b_at b) x).
  apply wp_bind, wp_ld; [apply Hs|apply (block_live h L); [done|done|fld]|].
  rewrite (next_of h L1 b (n :: L2)) by done. change (hd0 0 (addrs (n :: L2))) with (b_at n).
  apply list_elem_of_split in HnF as (F1 & F2 & ->). apply wp_bind.
  apply (wp_freelist_remove (addrs L) F1 (b_at n) F2); [by apply hinv_flist|by apply (hinv_NoDup h L)|].
  intros h1 Hl Hf1.
  assert (forall x, x ∈ F1 ++ F2 -> x ∈ F1 ++ b_at n :: F2) as Hsub by (intros x; rewrite !elem_of_app, elem_of_cons; tauto).
  destruct (hinv_links h h1 L _ _ Hi Hl Hsub) as (Hs1 & Hst & Hu).
  apply (wp_absorb L1 b n L2 (F1 ++ F2) (usedb L)); [done|done| | |].
  - intros x Hx. apply (hinv_addrs h L _ x Hi), Hsub, Hx.
  - intros u Hu'. by apply usedb_in in Hu' as [_ ?].
  - intros h' Hs' Hf' Hst' Hu'. apply (HQ h' (F1 ++ F2)); [|by apply (same_stats_trans h h1)|by apply (stables_trans _ h h1)].
    split; [done|done|]. apply (Permutation_cons_inv (a := b_at n)). rewrite Permutation_middle, (hi_perm _ _ _ Hi).
    unfold L. rewrite !freeb_app, !freeb_cons, Hub, Hun. cbn [merged b_used]. rewrite Hub, !addrs_app.
    cbn [addrs fmap list_fmap]. rewrite <-Permutation_middle, <-Permutation_middle. rewrite <-Permutation_middle. apply perm_swap.
Qed.

(** ** Coalescing with a neighbour *)

(** [x], one of the neighbours [b] and [n], is tested; [n] goes into [b]. *)
Definition try_merge (x b n : Z) : hm (K := K) unit :=
  if nz x then
    xu ← ld (x + off_used);
    if xu =? 0 then a ← adjacent b n; when a (merge_next b) else mret tt
  else mret tt.

Lemma neighbours h L1 b n L2 : skel h (L1 ++ b :: n :: L2) -> b_at n = b_end b.
Proof. intros Hs. pose proof (sk_chain _ _ Hs) as Hc. apply chain_app in Hc as (m & _ & _ & _ & _ & Hc). apply Hc. Qed.

Lemma used_nz b : (used_word b =? 0) = negb (b_used b).
Proof. unfold used_word. by destruct (b_used b). Qed.

Lemma wp_try_both L1 b n L2 F x h (Q : unit -> heap K -> Prop) :
  hinv h (L1 ++ b :: n :: L2) F -> x = b \/ x = n ->
  (b_used x = true -> Q tt h) ->
  (b_used x = false -> wp (merge_next (b_at b)) Q h) ->
  wp (try_merge (b_at x) (b_at b) (b_at n)) Q h.
Proof.
  intros Hi Hx Hno Hyes. pose proof (hi_skel _ _ _ Hi) as Hs. set (L := L1 ++ b :: n :: L2) in *.
  assert (b ∈ L) as Hb by (apply elem_of_app; right; mem).
  assert (n ∈ L) as Hn by (apply elem_of_app; right; mem).
  assert (x ∈ L) as HxL by (by destruct Hx; subst x).
  destruct (block_range h L x Hs HxL) as (Hxr & _). destruct (block_range h L b Hs Hb) as (Hbr & Hb1 & Hb2 & Hb3).
  unfold try_merge. rewrite (proj2 (nz_true (b_at x))) by lia.
  apply wp_bind, wp_ld; [apply Hs|apply (block_live h L); [done|done|fld]|].
  rewrite (proj2 (sk_header _ _ Hs x HxL)), used_nz. destruct (b_used x); [by apply Hno|].
  cbn [negb]. apply wp_bind, wp_bind, wp_ld; [apply Hs|apply (block_live h L); [done|done|fld]|].
  rewrite (proj1 (sk_header _ _ Hs b Hb)). pose proof (neighbours h L1 b n L2 Hs) as Hnb.
  pose proof (zn_range h (sk_zone _ _ Hs)).
  unfold b_end, MIN_PAYLOAD, BLOCK, KHEAP64_MAX_SIZE, KHEAP64_BASE in *.
  apply wp_ret. rewrite u64_small by lia. rewrite Hnb, Z.eqb_refl. by apply Hyes.
Qed.

Lemma wp_try_next L1 b L2 F h (Q : unit -> heap K -> Prop) :
  hinv h (L1 ++ b :: L2) F -> b_used b = false ->
  (forall h' b' L2' F', hinv h' (L1 ++ b' :: L2') F' -> b_used b' = false -> usedb L2' = usedb L2 ->
    (coalesced L2 -> coalesced (b' :: L2')) -> b_at b' = b_at b -> same_stats h h' ->
    stables (usedb (L1 ++ b :: L2)) h h' -> Q tt h') ->
  wp (try_merge (hd0 0 (addrs L2)) (b_at b) (hd0 0 (addrs L2))) Q h.
Proof.
  intros Hi Hub HQ. destruct L2 as [|n L2].
  - by apply (HQ h b [] F).
  - apply (wp_try_both L1 b n L2 F n); [done|by right| |]; intros Hun.
    + apply (HQ h b (n :: L2) F); try done. intros Hc. split; [by right|done].
    + apply (wp_merge_free L1 b n L2 F); [done..|]. intros h' F' Hi' Hst Hu.
      apply (HQ h' (merged b n) L2 F'); try done; [by rewrite usedb_cons, Hun|].
      destruct L2 as [|m L2]; [done|]. cbn [coalesced]. rewrite Hun. naive_solver.
Qed.

Lemma wp_try_prev L1 b L2 F h (Q : unit -> heap K -> Prop) :
  hinv h (L1 ++ b :: L2) F -> b_used b = false ->
  (forall h' L' F' c, hinv h' L' F' -> usedb L' = usedb L1 ++ usedb L2 ->
    (coalesced L1 -> coalesced (b :: L2) -> coalesced L') ->
    c ∈ L' -> b_used c = false -> b_size b <= b_size c -> same_stats h h' ->
    stables (usedb (L1 ++ b :: L2)) h h' -> Q tt h') ->
  wp (try_merge (last0 0 (addrs L1)) (last0 0 (addrs L1)) (b_at b)) Q h.
Proof.
  intros Hi Hub HQ. destruct L1 as [|p L1 _] using rev_ind.
  - apply (HQ h (b :: L2) F b); try done; [by rewrite usedb_cons, Hub|mem].
  - rewrite addrs_app, last0_app. cbn [addrs fmap list_fmap last0].
    rewrite <-app_assoc in Hi, HQ. cbn [app] in Hi, HQ.
    apply (wp_try_both L1 p b L2 F p); [done|by left| |]; intros Hup.
    + apply (HQ h (L1 ++ p :: b :: L2) F b); try done; [| |apply elem_of_app; right; mem].
      * by rewrite !usedb_app, !usedb_cons, Hub, Hup, <-app_assoc.
      * intros Hc1 Hc2. apply coalesced_mid. split; [done|]. split; [by left|done].
    + apply (wp_merge_free L1 p b L2 F); [done..|]. intros h' F' Hi' Hst Hu.
      apply (HQ h' (L1 ++ merged p b :: L2) F' (merged p b)); try done.
      * rewrite !usedb_app, !usedb_cons. cbn [merged b_used]. by rewrite Hup, app_nil_r.
      * intros Hc1 Hc2. apply coalesced_mid. apply coalesced_mid in Hc1 as [Hc1 _]. split.
        -- clear -Hc1 Hup. induction L1 as [|a L1 IH]; [done|]. destruct L1 as [|a' L1]; cbn [app coalesced] in *.
           ++ cbn [merged b_used]. rewrite Hup in *. done.
           ++ destruct Hc1 as [? Hc1]. split; [done|]. by apply IH.
        -- destruct L2 as [|m L2]; [done|]. cbn [coalesced merged b_used] in *. rewrite Hub in Hc2. naive_solver.
      * apply elem_of_app; right; mem.
      * cbn [merged b_size]. pose proof (hi_skel _ _ _ Hi) as Hs.
        destruct (block_range h _ p Hs ltac:(apply elem_of_app; right; mem)) as (_ & H1 & _).
        unfold MIN_PAYLOAD, BLOCK in *. lia.
Qed.

(** ** The [used] word *)

Definition set_used (v : bool) (b : blk) : blk := mkBlk (b_at b) (b_size b) v.

Lemma chain_set_used a L1 v b L2 e : chain a (L1 ++ b :: L2) e -> chain a (L1 ++ set_used v b :: L2) e.
Proof. rewrite !chain_app. intros (m & H1 & H2). by exists m. Qed.

Lemma addrs_set_used L1 v b L2 : addrs (L1 ++ set_used v b :: L2) = addrs (L1 ++ b :: L2).
Proof. by rewrite !addrs_app. Qed.

Lemma skel_set_used L1 v b L2 h h' :
  skel h (L1 ++ b :: L2) -> writes [(b_at b + off_used, used_word (set_used v b))] h h' ->
  heap_head h' = heap_head h -> heap_tail h' = heap_tail h ->
  skel h' (L1 ++ set_used v b :: L2).
Proof.
  intros Hs Hw Eh Et. set (L := L1 ++ b :: L2) in *. pose proof (skel_apart h L Hs) as HA.
  assert (b ∈ L) as Hb by (apply elem_of_app; right; mem).
  assert (forall x o, x ∈ addrs L -> field o ->
    W h' (x + o) = if (x =? b_at b) && (o =? off_used) then used_word (set_used v b) else W h (x + o)) as Hf.
  { intros x o Hx Ho. rewrite (ws_words _ _ _ Hw) by (by apply (apart_live h _ _ _ HA)).
    by rewrite (upds_field h _ _ _ _ _ _ _ HA) by (first [done | fld | by apply in_addrs]). }
  pose proof (ws_end _ _ _ Hw) as He.
  assert (start h' (L1 ++ set_used v b :: L2) = start h L) as Hst by (unfold start; by rewrite He, addrs_set_used).
  split; [apply Hw|rewrite Hst, He; by apply chain_set_used, Hs|rewrite Hst; apply (sk_start _ _ Hs)| | | |].
  - rewrite addrs_set_used, Eh. apply Hs.
  - rewrite addrs_set_used, Et. apply Hs.
  - rewrite addrs_set_used. eapply dseg_ext; [|exact (sk_list _ _ Hs)]. intros x Hx. cbv beta.
    rewrite !Hf by (done || fld). by rewrite !andb_false_r.
  - intros x Hx. assert (x = set_used v b \/ (x ∈ L /\ b_at x <> b_at b)) as [->|[HxL Hne]].
    { pose proof (chain_NoDup _ _ _ (sk_chain _ _ Hs)) as Hnd. unfold L in Hnd. rewrite addrs_app in Hnd.
      apply NoDup_app in Hnd as (_ & Hd & [Hd2 _]%NoDup_cons).
      apply elem_of_app in Hx as [Hx|[->|Hx]%elem_of_cons]; [right|by left|right].
      - split; [apply elem_of_app; by left|]. intros He'. apply (Hd (b_at x)); [by apply in_addrs|]. rewrite He'. mem.
      - split; [apply elem_of_app; right; mem|]. intros He'. apply Hd2. rewrite <-He'. by apply in_addrs. }
    + cbn [b_at b_size set_used]. rewrite !Hf by (first [fld | by apply in_addrs]).
      rewrite Z.eqb_refl. cbn [andb]. split; [|done]. rewrite (proj2 (Z.eqb_neq off_size off_used)) by done.
      by apply (sk_header _ _ Hs).
    + rewrite !Hf by (first [fld | by apply in_addrs]). rewrite (proj2 (Z.eqb_neq _ _) Hne).
      cbn [andb]. by apply (sk_header _ _ Hs).
Qed.

(** The store to [b->used]: the free list and the payloads are as they were. *)
Lemma wp_set_used L1 v b L2 F h (Q : unit -> heap K -> Prop) :
  skel h (L1 ++ b :: L2) -> frees h F -> (forall x, x ∈ F -> x ∈ addrs (L1 ++ b :: L2)) ->
  (forall h', skel h' (L1 ++ set_used v b :: L2) -> frees h' F -> same_stats h h' ->
    stables (L1 ++ b :: L2) h h' -> Q tt h') ->
  wp (st (b_at b + off_used) (used_word (set_used v b))) Q h.
Proof.
  intros Hs HF HFin HQ. set (L := L1 ++ b :: L2) in *. pose proof (skel_apart h L Hs) as HA.
  assert (b ∈ L) as Hb by (apply elem_of_app; right; mem).
  eapply (step_st [] h h); [apply writes_nil, Hs|apply (block_live h L); [done|done|fld]| |].
  { unfold used_word. destruct (b_used _); lia. }
  intros Hw. destruct (wr_same (b_at b + off_used) (used_word (set_used v b)) h) as (E1 & E2 & E3 & _).
  assert (forall a w, (a, w) ∈ [(b_at b + off_used, used_word (set_used v b))] ->
    exists x o, x ∈ addrs L /\ field o /\ a = x + o /\ o < BLOCK) as Hlf.
  { intros a w [[= -> ->]|[]%elem_of_nil]%elem_of_cons.
    exists (b_at b), off_used. split; [by apply in_addrs|]. split; [fld|done]. }
  apply HQ.
  - by apply (skel_set_used L1 v b L2 h).
  - by apply (frees_writes h _ (addrs L) F _ HA HFin HF Hw).
  - by apply (writes_stats _ _ _ Hw).
  - intros u Hu. apply (stable_writes h _ L _ u Hs Hw Hu). intros a w Ha.
    destruct (Hlf a w Ha) as (x & o & ? & ? & ? & ?). exists x, o. auto.
Qed.

(** ** Freeing *)

(** An unused block joins the free list. *)
Lemma wp_insert_any L b F h (Q : unit -> heap K -> Prop) :
  skel h L -> frees h F -> b ∈ L -> b_used b = false -> NoDup (b_at b :: F) ->
  (forall x, x ∈ F -> exists c, c ∈ L /\ b_used c = false /\ b_at c = x) ->
  (forall h', skel h' L -> frees h' (b_at b :: F) -> same_stats h h' -> stables (usedb L) h h' -> Q tt h') ->
  wp (freelist_insert (b_at b)) Q h.
Proof.
  intros Hs HF Hb Hub Hnd HFin HQ. pose proof (skel_apart h L Hs) as HA.
  assert (forall x, x ∈ b_at b :: F -> exists c, c ∈ L /\ b_used c = false /\ b_at c = x) as Hin.
  { intros x [->|Hx]%elem_of_cons; eauto. }
  assert (forall x, x ∈ b_at b :: F -> x ∈ addrs L) as Hin'.
  { intros x Hx. destruct (Hin x Hx) as (c & Hc & _ & <-). by apply in_addrs. }
  apply (wp_freelist_insert (addrs L) F); [|by apply in_addrs|done|].
  { split; [apply Hs|done|intros; apply Hin'; mem|done]. }
  intros h' Hl Hf'. apply HQ; [by apply (skel_links h h' L (b_at b :: F))|done|by apply (links_stats (b_at b :: F))|].
  intros u [Hu HuL]%usedb_in. apply (stable_links h h' L (b_at b :: F)); [done..|].
  intros (c & Hc & Hcu & He)%Hin. rewrite (block_inj h L c u Hs Hc HuL He) in Hcu. by rewrite Hu in Hcu.
Qed.

Lemma wp_insert_free L1 b L2 F h (Q : unit -> heap K -> Prop) :
  skel h (L1 ++ b :: L2) -> frees h F -> F ≡ₚ addrs (freeb L1 ++ freeb L2) -> b_used b = false ->
  (forall h', hinv h' (L1 ++ b :: L2) (b_at b :: F) -> same_stats h h' ->
    stables (usedb (L1 ++ b :: L2)) h h' -> Q tt h') ->
  wp (freelist_insert (b_at b)) Q h.
Proof.
  intros Hs HF Hperm Hub HQ. set (L := L1 ++ b :: L2) in *.
  assert (b ∈ L) as Hb by (apply elem_of_app; right; mem).
  assert (b_at b :: F ≡ₚ addrs (freeb L)) as Hperm'.
  { unfold L. rewrite freeb_app, freeb_cons, Hub. rewrite Hperm, !addrs_app. cbn [addrs fmap list_fmap].
    by rewrite Permutation_middle. }
  apply (wp_insert_any L b F); [done|done|done|done|rewrite Hperm'; by apply (freeb_NoDup h)| |].
  - intros x Hx. assert (x ∈ b_at b :: F) as Hx' by mem. rewrite Hperm' in Hx'.
    apply addrs_in in Hx' as (c & [? ?]%freeb_in & ?). eauto.
  - intros h' Hs' Hf' Hst Hu. by apply HQ.
Qed.

Lemma used_not_free h L F b L1 L2 : L = L1 ++ b :: L2 -> hinv h L F -> b_used b = true -> F ≡ₚ addrs (freeb L1 ++ freeb L2).
Proof. intros -> Hi Hu. rewrite (hi_perm _ _ _ Hi). by rewrite freeb_app, freeb_cons, Hu. Qed.

Lemma stables_sub U U' h h' : (forall u, u ∈ U' -> u ∈ U) -> stables U h h' -> stables U' h h'.
Proof. intros H Hu u Hin. apply Hu, H, Hin. Qed.

Lemma kfree64_used b h : 
  kfree64 (b + BLOCK) h = (if b + BLOCK =? 0 then mret tt else
    used ← ld (b + off_used);
    if used =? 0 then put (fun h => set_double_frees (u64 (double_frees h + 1)) h) else
    st (b + off_used) 0;;
    freelist_insert b;;
    (n ← ld (b + off_next); try_merge n b n);;
    p ← ld (b + off_prev);
    try_merge p p b) h.
Proof.
  unfold kfree64. replace (b + BLOCK - BLOCK) with b by lia. destruct (b + BLOCK =? 0); [done|].
  unfold mbind, hm_bind. destruct (ld (b + off_used) h) as [u h1|?|]; [|done|done]. destruct (u =? 0); [done|].
  destruct (st _ _ h1) as [? h2|?|]; [|done|done]. destruct (freelist_insert b h2) as [? h3|?|]; [|done|done].
  destruct (ld (b + off_next) h3) as [n h4|?|]; reflexivity.
Qed.

Lemma wp_kfree64 L1 b L2 F h (Q : unit -> heap K -> Prop) :
  hinv h (L1 ++ b :: L2) F -> b_used b = true ->
  (forall h' L' F', hinv h' L' F' -> usedb L' = usedb L1 ++ usedb L2 ->
    (coalesced (L1 ++ b :: L2) -> coalesced L') -> same_stats h h' ->
    stables (usedb L1 ++ usedb L2) h h' -> Q tt h') ->
  wp (kfree64 (b_at b + BLOCK)) Q h.
Proof.
  intros Hi Hub HQ. set (L := L1 ++ b :: L2) in *. pose proof (hi_skel _ _ _ Hi) as Hs.
  assert (b ∈ L) as Hb by (apply elem_of_app; right; mem).
  destruct (block_range h L b Hs Hb) as (Hbr & _ & _ & Hbe).
  unfold wp. rewrite kfree64_used. rewrite (proj2 (Z.eqb_neq _ 0)) by (unfold BLOCK; lia).
  match goal with |- match ?c h with _ => _ end => change (wp c Q h) end.
  apply wp_bind, wp_ld; [done || apply Hs|apply (block_live h L); [done|done|fld]|].
  rewrite (proj2 (sk_header _ _ Hs b Hb)), used_nz, Hub. cbn [negb].
  set (b1 := set_used false b). change 0 with (used_word b1) at 1. apply wp_bind.
  apply (wp_set_used L1 false b L2 F h); [done|apply Hi|intros x; apply (hinv_addrs h L F x Hi)|].
  intros h1 Hs1 Hf1 Hst1 Hu1. fold b1 in Hs1. change (b_at b) with (b_at b1). apply wp_bind.
  apply (wp_insert_free L1 b1 L2 F h1); [done|done|by apply (used_not_free h L F b)|done|].
  intros h2 Hi2 Hst2 Hu2. assert (usedb (L1 ++ b1 :: L2) = usedb L1 ++ usedb L2) as Hus.
  { by rewrite usedb_app, usedb_cons. }
  rewrite Hus in Hu2.
  apply wp_bind, wp_bind, wp_ld; [apply Hi2|apply (block_live h2 (L1 ++ b1 :: L2)); [apply Hi2|apply elem_of_app; right; mem|fld]|].
  rewrite (next_of h2 L1 b1 L2) by apply Hi2.
  apply (wp_try_next L1 b1 L2 (b_at b1 :: F) h2); [done|done|].
  intros h3 b2 L2' F3 Hi3 Hub2 Hus2 Hco2 Hat Hst3 Hu3. rewrite Hus in Hu3. rewrite <-Hat.
  apply wp_bind, wp_ld; [apply Hi3|apply (block_live h3 (L1 ++ b2 :: L2')); [apply Hi3|apply elem_of_app; right; mem|fld]|].
  rewrite (prev_of h3 L1 b2 L2') by apply Hi3.
  apply (wp_try_prev L1 b2 L2' F3 h3); [done|done|].
  intros h4 L' F' c Hi4 Hus4 Hco4 _ _ _ Hst4 Hu4. rewrite usedb_app, usedb_cons, Hub2, Hus2 in Hu4.
  apply (HQ h4 L' F').
  - done.
  - by rewrite Hus4, Hus2.
  - intros Hc. apply coalesced_app in Hc as Hc1. destruct Hc1 as [Hc1 _].
    unfold L in Hc. rewrite cons_middle, app_assoc in Hc. apply coalesced_app in Hc as [_ Hc2].
    apply Hco4; [done|]. by apply Hco2.
  - eauto using same_stats_trans.
  - apply (stables_trans _ h h1); [|eauto using stables_trans].
    apply (stables_sub L); [|done]. intros u. unfold L. rewrite !elem_of_app, elem_of_cons, !usedb_in. tauto.
Qed.

(** ** Splitting *)

Definition shrunk (b : blk) (size : Z) : blk := mkBlk (b_at b) size (b_used b).
Definition rest (b : blk) (size : Z) : blk := mkBlk (b_at b + BLOCK + size) (b_size b - size - BLOCK) false.

Lemma chain_split a L1 b size L2 e :
  chain a (L1 ++ b :: L2) e -> MIN_PAYLOAD <= size -> size mod KHEAP64_ALIGN = 0 ->
  size + BLOCK + MIN_PAYLOAD <= b_size b -> chain a (L1 ++ shrunk b size :: rest b size :: L2) e.
Proof.
  rewrite !chain_app. intros (m & H1 & Hb & Hbs & Hba & H2) Hmin Hal Hfit. exists m. split; [done|].
  cbn [chain]. unfold b_end in *. cbn [shrunk rest b_at b_size].
  unfold BLOCK, MIN_PAYLOAD, KHEAP64_ALIGN in *.
  split_and!; [done|done|done|lia|lia| |].
  - apply Z.mod_divide in Hba as [j Hj]; [|lia]. apply Z.mod_divide in Hal as [k Hk]; [|lia].
    apply Z.mod_divide; [lia|]. exists (j - k - 2). lia.
  - by replace (b_at b + 32 + size + 32 + (b_size b - size - 32)) with (b_at b + 32 + b_size b) by lia.
Qed.

Lemma in_split_list (L1 L2 : list blk) (b b' r x : blk) :
  x ∈ L1 ++ b' :: r :: L2 -> x = b' \/ x = r \/ (x ∈ L1 ++ b :: L2 /\ (x ∈ L1 \/ x ∈ L2)).
Proof. rewrite !elem_of_app, !elem_of_cons. tauto. Qed.

Lemma split_skel L1 b size L2 l h h' :
  let r := b_at (rest b size) in let bn := hd0 0 (addrs L2) in
  skel h (L1 ++ b :: L2) -> MIN_PAYLOAD <= size -> size mod KHEAP64_ALIGN = 0 ->
  size + BLOCK + MIN_PAYLOAD <= b_size b ->
  l = [(b_at b + off_size, size); (b_at b + off_next, r)] ++
      (if nz bn then [(bn + off_prev, r)] else []) ++
      [(r + off_next, bn); (r + off_prev, b_at b); (r + off_used, 0); (r + off_size, b_size (rest b size))] ->
  writes l h h' -> heap_head h' = heap_head h ->
  heap_tail h' = (if b_at b =? heap_tail h then r else heap_tail h) ->
  skel h' (L1 ++ shrunk b size :: rest b size :: L2).
Proof.
  intros r bn Hs Hmin Hal Hfit -> Hw Eh Et. set (L := L1 ++ b :: L2) in *.
  set (L' := L1 ++ shrunk b size :: rest b size :: L2).
  pose proof (chain_split _ L1 b size L2 _ (sk_chain _ _ Hs) Hmin Hal Hfit) as Hc. fold L L' in Hc.
  destruct (sk_start _ _ Hs) as [Hst1 Hst2]. pose proof (chain_blocks h _ L' Hst1 Hst2 Hc) as HA.
  pose proof (sk_zone _ _ Hs) as Hz.
  assert (addrs L = addrs L1 ++ b_at b :: addrs L2) as HaL by apply addrs_app.
  assert (addrs L' = addrs L1 ++ b_at b :: r :: addrs L2) as HaL' by apply addrs_app.
  pose proof (chain_NoDup _ _ _ Hc) as Hnd. rewrite HaL' in Hnd.
  pose proof (nonzero_links h (addrs L') (addrs L') Hz HA (fun x H => H)) as H0.
  assert (b_at b ∈ addrs L') as Hba by (rewrite HaL'; apply elem_of_app; right; mem).
  assert (r ∈ addrs L') as Hra by (rewrite HaL'; apply elem_of_app; right; mem).
  assert (forall x, x ∈ addrs L2 -> x ∈ addrs L') as Hin2 by (intros; rewrite HaL'; apply elem_of_app; right; mem).
  assert (nz bn = match addrs L2 with [] => false | _ => true end) as Hnz by (apply nz_hd0; auto).
  assert (addrs L2 <> [] -> bn ∈ addrs L') as Hbnin by (intros H; by apply Hin2, hd0_in).
  assert (forall x o, x ∈ addrs L' -> field o -> W h' (x + o) =
    if (x =? b_at b) && (o =? off_size) then size else if (x =? b_at b) && (o =? off_next) then r else
    if nz bn && ((x =? bn) && (o =? off_prev)) then r else
    if (x =? r) && (o =? off_next) then bn else if (x =? r) && (o =? off_prev) then b_at b else
    if (x =? r) && (o =? off_used) then 0 else if (x =? r) && (o =? off_size) then b_size (rest b size) else W h (x + o)) as Hf.
  { intros x o Hx Ho. rewrite (ws_words _ _ _ Hw) by (by apply (apart_live h _ _ _ HA)).
    rewrite Hnz. destruct (addrs L2) eqn:He; cbn [app andb];
      rewrite !(upds_field h _ _ _ _ _ _ _ HA) by (first [fld | done | apply Hbnin; done]); done. }
  apply NoDup_app in Hnd as (Hnd1 & Hnd12 & [Hbr Hnd2]%NoDup_cons). apply NoDup_cons in Hnd2 as [Hr2 Hnd2].
  assert (b_at b <> r) as Hbr' by (intros He; apply Hbr; rewrite He; mem).
  pose proof (ws_end _ _ _ Hw) as He.
  assert (start h' L' = start h L) as Hst by (unfold start; rewrite He, HaL, HaL'; by destruct (addrs L1)).
  split; [apply Hw|by rewrite Hst, He|by rewrite Hst| | | |].
  - rewrite Eh, (sk_head _ _ Hs), HaL, HaL'. by destruct (addrs L1).
  - rewrite Et, (sk_tail _ _ Hs), HaL, HaL', !last0_app. simpl. destruct (addrs L2) as [|y k] eqn:Hk.
    + by rewrite Z.eqb_refl.
    + rewrite (proj2 (Z.eqb_neq _ _)); [done|]. intros Hl. apply Hbr. apply elem_of_cons; right.
      rewrite Hl. cbn [last0]. by apply (last0_in (b_at b) (y :: k)).
  - rewrite HaL'. pose proof (sk_list _ _ Hs) as Hd. rewrite HaL in Hd.
    assert (forall y, y ∈ addrs L1 ++ b_at b :: addrs L2 -> y ∈ addrs L' /\ y <> r) as Hy.
    { intros y Hy. split; [rewrite HaL'; revert Hy; rewrite !elem_of_app, !elem_of_cons; tauto|]. intros ->.
      apply elem_of_app in Hy as [Hy|[Hy|Hy]%elem_of_cons]; [apply (Hnd12 r Hy); mem|done|done]. }
    assert (bn <> r) as Hbnr by (unfold bn; destruct (addrs L2); simpl; [|set_solver]; by intros <-).
    eapply dseg_insert; [| | |exact Hd| | | |]; cbv beta.
    + apply NoDup_app. split; [done|]. split.
      * intros y Hy1 [->|Hy2]%elem_of_cons; apply (Hnd12 _ Hy1); mem.
      * apply NoDup_cons. split; [intros H; apply Hbr; mem|done].
    + intros H. by apply Hy in H as [H _].
    + intros H. by apply Hy in H as [_ H].
    + rewrite Hf by (done || fld). rewrite !Z.eqb_refl, !andb_false_r, (proj2 (Z.eqb_neq r (b_at b))) by done. done.
    + rewrite Hf by (done || fld). rewrite !Z.eqb_refl, !andb_false_r, (proj2 (Z.eqb_neq r bn)) by done.
      by rewrite !andb_false_r.
    + intros y Hy'. destruct (Hy y Hy') as [Hy1 Hy2]. rewrite Hf by (done || fld).
      rewrite !andb_false_r, !andb_true_r, (proj2 (Z.eqb_neq y r)) by done. done.
    + intros y Hy'. destruct (Hy y Hy') as [Hy1 Hy2]. rewrite Hf by (done || fld).
      rewrite !andb_false_r, !andb_true_r, (proj2 (Z.eqb_neq y r)) by done. fold bn.
      rewrite Hnz. destruct (addrs L2); [|done]. cbn [andb].
      rewrite (proj2 (Z.eqb_neq y bn)); [done|]. intros ->. by apply H0.
  - intros x [->|[->|[HxL Hx]]]%(in_split_list L1 L2 b).
    + cbn [b_at b_size shrunk]. rewrite !Hf by (done || fld).
      rewrite !Z.eqb_refl, !andb_false_r, !(proj2 (Z.eqb_neq (b_at b) r)) by done. cbn [andb].
      split; [done|]. apply (sk_header _ _ Hs b). apply elem_of_app; right; mem.
    + change (b_at (rest b size)) with r. rewrite !Hf by (done || fld).
      rewrite !Z.eqb_refl, !andb_false_r, !(proj2 (Z.eqb_neq r (b_at b))) by done. done.
    + assert (b_at x ∈ addrs L1 \/ b_at x ∈ addrs L2) as Hxa by (destruct Hx; [left|right]; by apply in_addrs).
      assert (b_at x <> b_at b /\ b_at x <> r) as [Hn1 Hn2].
      { split; intros He'; rewrite He' in Hxa; destruct Hxa as [Hxa|Hxa]; try (apply (Hnd12 _ Hxa); mem); try done.
        apply Hbr. mem. }
      assert (b_at x ∈ addrs L') as Hx' by (rewrite HaL'; apply elem_of_app; destruct Hxa; [left|right]; mem).
      rewrite !Hf by (done || fld). rewrite (proj2 (Z.eqb_neq _ _) Hn1), (proj2 (Z.eqb_neq _ _) Hn2), !andb_false_r.
      cbn [andb]. by apply (sk_header _ _ Hs).
Qed.

Lemma stable_new h h' L' l u :
  skel h' L' -> writes l h h' -> u ∈ L' ->
  (forall a v, (a, v) ∈ l -> exists x o, x ∈ addrs L' /\ field o /\ a = x + o /\ (x <> b_at u \/ o < BLOCK)) ->
  stable h h' u.
Proof.
  intros Hs Hw Hu Hl c Hc. rewrite (ws_words _ _ _ Hw).
  2: { apply (live_end h h'); [apply Hw|]. by apply (payload_live h' L' u). }
  clear Hw. induction l as [|[a v] l IH]; [done|]. simpl. destruct (Hl a v ltac:(mem)) as (x & o & Hx & Ho & -> & Hd).
  pose proof (payload_field h' L' u c x o Hs Hu Hc Hx Ho Hd). destruct (Z.eqb_spec c (x + o)); [done|].
  apply IH. intros. apply (Hl a v0). mem.
Qed.

(** The stores of [split]: the header of the rest, then the links round it. *)
Definition carve (b size : Z) : hm (K := K) unit :=
  let r := u64 (b + BLOCK + size) in
  bs ← ld (b + off_size);
  st (r + off_size) (u64 (bs - size - BLOCK));;
  st (r + off_used) 0;;
  st (r + off_prev) b;;
  bn ← ld (b + off_next);
  st (r + off_next) bn;;
  when (nz bn) (st (bn + off_prev) r);;
  st (b + off_next) r;;
  t ← get heap_tail;
  when (b =? t) (put (set_heap_tail r));;
  st (b + off_size) size.

Lemma wp_carve L1 b size L2 F h (Q : unit -> heap K -> Prop) :
  skel h (L1 ++ b :: L2) -> frees h F -> (forall x, x ∈ F -> x ∈ addrs (L1 ++ b :: L2)) ->
  MIN_PAYLOAD <= size -> size mod KHEAP64_ALIGN = 0 -> size + BLOCK + MIN_PAYLOAD <= b_size b ->
  b_used b = false ->
  (forall h', skel h' (L1 ++ shrunk b size :: rest b size :: L2) -> frees h' F -> same_stats h h' ->
    stables (usedb (L1 ++ b :: L2)) h h' -> Q tt h') ->
  wp (carve (b_at b) size) Q h.
Proof.
  intros Hs HF HFin Hmin Hal Hfit Hub HQ. set (L := L1 ++ b :: L2) in *.
  set (L' := L1 ++ shrunk b size :: rest b size :: L2) in *.
  pose proof (chain_split _ L1 b size L2 _ (sk_chain _ _ Hs) Hmin Hal Hfit) as Hc. fold L L' in Hc.
  destruct (sk_start _ _ Hs) as [Hst1 Hst2]. pose proof (chain_blocks h _ L' Hst1 Hst2 Hc) as HA.
  pose proof (sk_zone _ _ Hs) as Hz.
  assert (b ∈ L) as Hb by (apply elem_of_app; right; mem).
  destruct (block_range h L b Hs Hb) as (Hbr & Hb1 & Hb2 & Hb3).
  destruct (sk_header _ _ Hs b Hb) as [Hbs _]. pose proof (zn_range h Hz) as Hzr.
  assert (addrs L' = addrs L1 ++ b_at b :: b_at (rest b size) :: addrs L2) as HaL' by apply addrs_app.
  set (r := b_at (rest b size)) in *. set (bn := hd0 0 (addrs L2)).
  assert (b_at b ∈ addrs L') as Hba by (rewrite HaL'; apply elem_of_app; right; mem).
  assert (r ∈ addrs L') as Hra by (rewrite HaL'; apply elem_of_app; right; mem).
  assert (addrs L2 <> [] -> bn ∈ addrs L') as Hbnin.
  { intros H. rewrite HaL'. apply elem_of_app; right. do 2 (apply elem_of_cons; right). by apply hd0_in. }
  pose proof (apart_range h _ r Hz HA Hra) as Hrr.
  assert (0 <= bn < 2 ^ 64) as Hbnr.
  { apply (hd0_range h (addrs L')); [done..|]. intros x Hx. rewrite HaL'. apply elem_of_app; right; mem. }
  assert (b_at b <> r) as Hbr'.
  { unfold r. cbn [rest b_at]. unfold BLOCK, MIN_PAYLOAD in *. lia. }
  assert (b_size (rest b size) = b_size b - size - BLOCK) as Hrs by done.
  unfold carve. assert (u64 (b_at b + BLOCK + size) = r) as ->.
  { unfold r. cbn [rest b_at]. apply u64_small. unfold b_end, BLOCK, MIN_PAYLOAD, KHEAP64_BASE, KHEAP64_MAX_SIZE in *. lia. }
  assert (forall o, field o -> live h (b_at b + o)) as Hlb by (intros; by apply (apart_live h _ _ _ HA)).
  assert (forall o, field o -> live h (r + o)) as Hlr by (intros; by apply (apart_live h _ _ _ HA)).
  eapply (step_ld [] h h); [by apply writes_nil|apply Hlb; fld|]. cbn [upds]. rewrite Hbs.
  assert (u64 (b_size b - size - BLOCK) = b_size (rest b size)) as ->.
  { rewrite Hrs. apply u64_small. unfold BLOCK, MIN_PAYLOAD, KHEAP64_MAX_SIZE in *. lia. }
  assert (0 <= b_size (rest b size) < 2 ^ 64) as Hrsr.
  { rewrite Hrs. unfold BLOCK, MIN_PAYLOAD, KHEAP64_MAX_SIZE in *. lia. }
  apply wp_bind. eapply (step_st [] h h); [by apply writes_nil|apply Hlr; fld|done|]. intros W1.
  destruct (wr_same (r + off_size) (b_size (rest b size)) h) as (E1 & E2 & E3 & _). set (h1 := wr _ _ h) in *.
  apply wp_bind. eapply step_st; [exact W1|apply Hlr; fld|done|]. intros W2.
  destruct (wr_same (r + off_used) 0 h1) as (F1 & F2 & F3 & _). set (h2 := wr _ _ h1) in *.
  apply wp_bind. eapply step_st; [exact W2|apply Hlr; fld|lia|]. intros W3.
  destruct (wr_same (r + off_prev) (b_at b) h2) as (G1 & G2 & G3 & _). set (h3 := wr _ _ h2) in *.
  eapply step_ld; [exact W3|apply Hlb; fld|].
  rewrite !(upds_field h _ _ _ _ _ _ _ HA) by (first [fld | done]). rewrite (proj2 (Z.eqb_neq (b_at b) r)) by done.
  cbn [andb upds]. rewrite (next_of h L1 b L2 Hs). fold bn.
  apply wp_bind. eapply step_st; [exact W3|apply Hlr; fld|done|]. intros W4.
  destruct (wr_same (r + off_next) bn h3) as (I1 & I2 & I3 & _). set (h4 := wr _ _ h3) in *.
  assert (forall l h5, writes l h h5 -> l = (if nz bn then [(bn + off_prev, r)] else []) ++
      [(r + off_next, bn); (r + off_prev, b_at b); (r + off_used, 0); (r + off_size, b_size (rest b size))] ->
    heap_head h5 = heap_head h -> heap_tail h5 = heap_tail h -> free_head h5 = free_head h ->
    wp (st (b_at b + off_next) r;; t ← get heap_tail; when (b_at b =? t) (put (set_heap_tail r));; st (b_at b + off_size) size) Q h5) as Hend.
  { intros l h5 W5 Hl J1 J2 J3.
    apply wp_bind. eapply step_st; [exact W5|apply Hlb; fld|lia|]. intros W6.
    destruct (wr_same (b_at b + off_next) r h5) as (K1 & K2 & K3 & _). set (h6 := wr _ _ h5) in *.
    apply wp_bind, wp_get. rewrite K2, J2.
    assert (forall h7, writes ((b_at b + off_next, r) :: l) h h7 -> heap_head h7 = heap_head h -> free_head h7 = free_head h ->
      heap_tail h7 = (if b_at b =? heap_tail h then r else heap_tail h) -> wp (st (b_at b + off_size) size) Q h7) as Hq.
    { intros h7 W7 M1 M2 M3. eapply step_st; [exact W7|apply Hlb; fld| |].
      { unfold MIN_PAYLOAD, BLOCK, KHEAP64_MAX_SIZE in *. lia. }
      intros W8. destruct (wr_same (b_at b + off_size) size h7) as (N1 & N2 & N3 & _). set (h8 := wr _ _ h7) in *.
      assert (forall a v, (a, v) ∈ (b_at b + off_size, size) :: (b_at b + off_next, r) :: l ->
        exists x o, x ∈ addrs L' /\ field o /\ a = x + o /\ o < BLOCK) as Hlf.
      { intros a v Ha. subst l. destruct (nz bn) eqn:Hz2; cbn [app] in Ha; rewrite ?elem_of_cons, elem_of_nil in Ha.
        - assert (bn ∈ addrs L') as Hi by (apply Hbnin; intros He; unfold bn in Hz2; by rewrite He in Hz2).
          destruct_or! Ha; try injection Ha as -> _; try done; eexists _, _;
            (split; [|split; [|split; [reflexivity|done]]]); (done || fld).
        - destruct_or! Ha; try injection Ha as -> _; try done; eexists _, _;
            (split; [|split; [|split; [reflexivity|done]]]); (done || fld). }
      assert (skel h8 L') as Hs8.
      { apply (split_skel L1 b size L2 ((b_at b + off_size, size) :: (b_at b + off_next, r) :: l) h h8);
          [done|done|done|done|by subst l|exact W8|congruence|]. fold r. congruence. }
      apply HQ; [done| | |].
      - apply (frees_writes h h8 (addrs L') F _ HA) with (5 := Hlf); [|done|done|congruence].
        intros x Hx%HFin. rewrite HaL'. unfold L in Hx. rewrite addrs_app in Hx. cbn [addrs fmap list_fmap] in Hx.
        rewrite elem_of_app, !elem_of_cons in *. tauto.
      - by apply (writes_stats _ _ _ W8).
      - intros u Hu. apply usedb_in in Hu as [Huu HuL].
        apply (stable_new h h8 L' _ u Hs8 W8).
        + unfold L, L' in *. rewrite elem_of_app, elem_of_cons in HuL.
          rewrite elem_of_app, !elem_of_cons. destruct HuL as [|[->|]]; [tauto|congruence|tauto].
        + intros a v Ha. destruct (Hlf a v Ha) as (x & o & ? & ? & ? & ?). exists x, o. auto. }
    apply wp_bind. apply wp_when; intros Ht; rewrite Ht in Hq.
    - apply wp_put, Hq; [by apply (writes_statics _ h h6)|exact (eq_trans K1 J1)|exact (eq_trans K3 J3)|done].
    - apply Hq; congruence || done. }
  apply wp_bind. apply wp_when; intros Hz2; rewrite Hz2 in Hend.
  - assert (bn ∈ addrs L') as Hi by (apply Hbnin; intros He; unfold bn in Hz2; by rewrite He in Hz2).
    eapply step_st; [exact W4|by apply (apart_live h _ _ _ HA); fld|lia|]. intros W5.
    destruct (wr_same (bn + off_prev) r h4) as (J1 & J2 & J3 & _).
    eapply Hend; [exact W5|done|congruence..].
  - eapply Hend; [exact W4|done|congruence..].
Qed.

Lemma split_carve b size h :
  split b size h = (bs ← ld (b + off_size);
    if bs <? u64 (size + BLOCK + MIN_PAYLOAD) then mret tt else
    carve b size;; freelist_insert (u64 (b + BLOCK + size))) h.
Proof.
  unfold split, carve, mbind, hm_bind. unfold ld at 1 3. destruct (kread (b + off_size) (km h)) as [bs|] eqn:Hr; [|done].
  destruct (bs <? _); [done|]. unfold ld at 2. rewrite Hr.
  repeat (match goal with |- match ?c ?x with _ => _ end = _ => destruct (c x) as [? ?|?|]; [|reflexivity|reflexivity] end).
  reflexivity.
Qed.

Lemma coalesced_free b L : b_used b = false -> coalesced (b :: L) -> forall n L', L = n :: L' -> b_used n = true.
Proof. intros Hb Hc n L' ->. destruct Hc as [[H|H] _]; [congruence|done]. Qed.

(** What [split] leaves of the block [b]: what was asked for, and maybe a rest. *)
Lemma wp_split L1 b size L2 F h (Q : unit -> heap K -> Prop) :
  skel h (L1 ++ b :: L2) -> frees h F -> F ≡ₚ addrs (freeb L1 ++ freeb L2) ->
  MIN_PAYLOAD <= size <= b_size b -> size mod KHEAP64_ALIGN = 0 -> b_used b = false ->
  (forall h' b' R, skel h' (L1 ++ b' :: R ++ L2) -> frees h' (addrs R ++ F) ->
    R = [] \/ (exists r, R = [r] /\ b_used r = false) -> b_at b' = b_at b -> size <= b_size b' ->
    same_stats h h' -> stables (usedb (L1 ++ b :: L2)) h h' -> Q tt h') ->
  wp (split (b_at b) size) Q h.
Proof.
  intros Hs HF Hperm Hsz Hal Hub HQ. set (L := L1 ++ b :: L2) in *.
  assert (b ∈ L) as Hb by (apply elem_of_app; right; mem).
  destruct (block_range h L b Hs Hb) as (Hbr & Hb1 & Hb2 & Hb3).
  pose proof (zn_range h (sk_zone _ _ Hs)) as Hzr.
  assert (forall x, x ∈ F -> exists c, c ∈ L /\ b_used c = false /\ b_at c = x /\ (c ∈ L1 \/ c ∈ L2)) as Hin.
  { intros x. rewrite Hperm. intros (c & Hc & <-)%addrs_in. exists c. unfold L.
    rewrite elem_of_app, elem_of_cons. apply elem_of_app in Hc as [[? ?]%freeb_in|[? ?]%freeb_in]; auto. }
  unfold wp. rewrite split_carve.
  match goal with |- match ?c h with _ => _ end => change (wp c Q h) end.
  apply wp_bind, wp_ld; [apply Hs|apply (block_live h L); [done|done|fld]|].
  rewrite (proj1 (sk_header _ _ Hs b Hb)).
  assert (size + BLOCK + MIN_PAYLOAD < 2 ^ 64) as Hlt by (unfold BLOCK, MIN_PAYLOAD, KHEAP64_MAX_SIZE in *; lia).
  rewrite (u64_small (size + BLOCK + MIN_PAYLOAD)) by (unfold BLOCK, MIN_PAYLOAD in *; lia).
  destruct (Z.ltb_spec (b_size b) (size + BLOCK + MIN_PAYLOAD)) as [Hno|Hfit].
  { apply (HQ h b []); try done; [by left|lia]. }
  apply wp_bind, (wp_carve L1 b size L2 F h); [done|done| |lia|done|done|done|].
  { intros x Hx. destruct (Hin x Hx) as (c & Hc & _ & <- & _). by apply in_addrs. }
  intros h1 Hs1 Hf1 Hst1 Hu1.
  assert (u64 (b_at b + BLOCK + size) = b_at (rest b size)) as ->.
  { cbn [rest b_at]. apply u64_small. unfold b_end, BLOCK, MIN_PAYLOAD, KHEAP64_BASE, KHEAP64_MAX_SIZE in *. lia. }
  set (L' := L1 ++ shrunk b size :: rest b size :: L2) in *.
  assert (forall c, c ∈ L1 \/ c ∈ L2 -> c ∈ L' /\ b_at c <> b_at (rest b size)) as Hold.
  { intros c Hc. pose proof (chain_NoDup _ _ _ (sk_chain _ _ Hs1)) as Hnd. unfold L' in Hnd |- *.
    rewrite addrs_app in Hnd. apply NoDup_app in Hnd as (_ & Hd & [_ [Hd2 _]%NoDup_cons]%NoDup_cons).
    rewrite elem_of_app, !elem_of_cons. split; [tauto|]. intros He.
    destruct Hc as [Hc%in_addrs|Hc%in_addrs]; rewrite He in Hc; [apply (Hd _ Hc); mem|done]. }
  apply (wp_insert_any L' (rest b size) F h1); [done|done|apply elem_of_app; right; mem|done| | |].
  - apply NoDup_cons. split.
    + intros Hx. destruct (Hin _ Hx) as (c & _ & _ & He & Hc). by apply (Hold c Hc).
    + rewrite Hperm. pose proof (freeb_NoDup h L Hs) as Hnd. unfold L in Hnd. rewrite freeb_app, freeb_cons, Hub in Hnd.
      eapply sublist_NoDup; [exact Hnd|]. apply fmap_sublist. apply sublist_app; [done|]. by apply sublist_cons.
  - intros x Hx. destruct (Hin x Hx) as (c & _ & Hcu & He & Hc). exists c. split; [by apply Hold|done].
  - intros h2 Hs2 Hf2 Hst2 Hu2. apply (HQ h2 (shrunk b size) [rest b size]); [done|done| |done|simpl; lia| |].
    + right. by eexists.
    + by apply (same_stats_trans h h1).
    + apply (stables_trans _ h h1); [done|]. apply (stables_sub (usedb L')); [|done]. intros u.
      unfold L, L'. rewrite !usedb_app, !usedb_cons. cbn [shrunk rest b_used]. by rewrite Hub.
Qed.

(** ** Taking a block off the free list *)

Lemma wp_take_block L1 b want L2 F h (Q : Z -> heap K -> Prop) :
  hinv h (L1 ++ b :: L2) F -> b_used b = false ->
  MIN_PAYLOAD <= want <= b_size b -> want mod KHEAP64_ALIGN = 0 ->
  (forall h' L' F' b', hinv h' L' F' -> usedb L' = usedb L1 ++ b' :: usedb L2 ->
    b_at b' = b_at b -> want <= b_size b' -> (coalesced (L1 ++ b :: L2) -> coalesced L') ->
    same_stats h h' -> stables (usedb L1 ++ usedb L2) h h' -> Q (b_at b + BLOCK) h') ->
  wp (take_block (b_at b) want) Q h.
Proof.
  intros Hi Hub Hsz Hal HQ. pose proof (hi_skel _ _ _ Hi) as Hs. set (L := L1 ++ b :: L2) in *.
  assert (b ∈ L) as Hb by (apply elem_of_app; right; mem).
  assert (usedb L = usedb L1 ++ usedb L2) as HusL by (unfold L; by rewrite usedb_app, usedb_cons, Hub).
  pose proof (hinv_free h L F b Hi Hb Hub) as HbF. apply list_elem_of_split in HbF as (F1 & F2 & ->).
  unfold take_block. apply wp_bind.
  apply (wp_freelist_remove (addrs L) F1 (b_at b) F2); [by apply hinv_flist|by apply (hinv_NoDup h L)|].
  intros h1 Hl Hf1.
  assert (forall x, x ∈ F1 ++ F2 -> x ∈ F1 ++ b_at b :: F2) as Hsub by (intros x; rewrite !elem_of_app, elem_of_cons; tauto).
  destruct (hinv_links h h1 L _ _ Hi Hl Hsub) as (Hs1 & Hst1 & Hu1).
  assert (F1 ++ F2 ≡ₚ addrs (freeb L1 ++ freeb L2)) as Hperm.
  { apply (Permutation_cons_inv (a := b_at b)). rewrite Permutation_middle, (hi_perm _ _ _ Hi). unfold L.
    rewrite freeb_app, freeb_cons, Hub, !addrs_app. cbn [addrs fmap list_fmap]. by rewrite Permutation_middle. }
  apply wp_bind, (wp_split L1 b want L2 (F1 ++ F2) h1); [done..|].
  intros h2 b2 R Hs2 Hf2 HR Hat Hsz2 Hst2 Hu2. rewrite <-Hat. apply wp_bind. change 1 with (used_word (set_used true b2)).
  assert (freeb R = R /\ usedb R = []) as [HRf HRu].
  { destruct HR as [->|(r & -> & Hr)]; [done|]. by rewrite freeb_cons, usedb_cons, Hr. }
  apply (wp_set_used L1 true b2 (R ++ L2) (addrs R ++ F1 ++ F2) h2); [done|done| |].
  { intros x. rewrite Hperm, addrs_app, addrs_app. cbn [addrs fmap list_fmap].
    rewrite (fmap_app b_at R L2), !elem_of_app, elem_of_cons, !elem_of_app.
    intros [H|[(c & [_ Hc]%freeb_in & <-)%addrs_in|(c & [_ Hc]%freeb_in & <-)%addrs_in]]; [auto|..];
      apply in_addrs in Hc; auto. }
  intros h3 Hs3 Hf3 Hst3 Hu3. apply wp_ret. rewrite Hat. fold L in Hu2. rewrite HusL in Hu1, Hu2.
  apply (HQ h3 (L1 ++ set_used true b2 :: R ++ L2) (addrs R ++ F1 ++ F2) (set_used true b2)).
  - split; [done|done|]. rewrite Hperm, freeb_app, freeb_cons, freeb_app, HRf. cbn [set_used b_used].
    rewrite !addrs_app. rewrite !app_assoc. f_equiv. by rewrite Permutation_app_comm.
  - by rewrite usedb_app, usedb_cons, usedb_app, HRu.
  - done.
  - done.
  - intros Hc. unfold L in Hc. apply coalesced_mid in Hc as [Hc1 Hc2]. apply coalesced_mid. split.
    + clear -Hc1. induction L1 as [|a L1 IH]; [done|]. destruct L1 as [|c L1]; cbn [app coalesced] in *; [naive_solver|].
      destruct Hc1 as [? Hc1]. split; [done|]. by apply IH.
    + destruct HR as [->|(r & -> & Hr)]; cbn [app].
      * destruct L2 as [|n L2]; [done|]. cbn [coalesced] in *. split; [by left|apply Hc2].
      * cbn [coalesced]. split; [by left|]. destruct L2 as [|n L2]; [done|]. cbn [coalesced] in *.
        rewrite Hub in Hc2. split; [right; naive_solver|apply Hc2].
  - eauto using same_stats_trans.
  - apply (stables_trans _ h h1); [done|]. apply (stables_trans _ h1 h2); [done|]. eapply stables_sub; [|exact Hu3].
    intros u. rewrite !elem_of_app, !elem_of_cons, !usedb_in, elem_of_app. tauto.
Qed.

(** ** The walk of the free list *)

Lemma skel_statics h h' L :
  km h' = km h -> heap_end h' = heap_end h -> heap_head h' = heap_head h -> heap_tail h' = heap_tail h ->
  skel h L -> skel h' L.
Proof.
  intros Hk He Hh Ht Hs. assert (forall c, W h' c = W h c) as HW by (intros c; unfold W; by rewrite Hk).
  assert (start h' L = start h L) as Hst by (unfold start; by rewrite He).
  destruct Hs as [Hz Hc Hst1 Hhd Htl Hd Hb]. split.
  - by apply (zone_statics h).
  - by rewrite Hst, He.
  - by rewrite Hst.
  - congruence.
  - congruence.
  - eapply dseg_ext; [|exact Hd]. intros x _. cbv beta. by rewrite !HW.
  - intros b Hin. rewrite !HW. by apply Hb.
Qed.

Lemma hinv_statics h h' L F :
  km h' = km h -> heap_end h' = heap_end h -> heap_head h' = heap_head h -> heap_tail h' = heap_tail h ->
  free_head h' = free_head h -> hinv h L F -> hinv h' L F.
Proof.
  intros Hk He Hh Ht Hf [Hs [Hfh Hd] Hp]. split; [by apply (skel_statics h)| |done]. split; [congruence|].
  eapply dseg_ext; [|exact Hd]. intros x _. cbv beta. unfold W. by rewrite Hk.
Qed.

Definition add_steps (n : nat) h : heap K := Nat.iter n (fun h => set_stat_steps (u64 (stat_steps h + 1)) h) h.

Lemma add_steps_hinv n h L F : hinv h L F -> hinv (add_steps n h) L F.
Proof. intros Hi. induction n as [|n IH]; [done|]. by apply (hinv_statics (add_steps n h)). Qed.

Lemma add_steps_succ n h : add_steps n (set_stat_steps (u64 (stat_steps h + 1)) h) = add_steps (S n) h.
Proof. unfold add_steps. by rewrite Nat.iter_succ_r. Qed.

(** The first large enough block, after a step for each block looked at. *)
Lemma wp_scan L F1 F2 fuel want h (Q : Z -> heap K -> Prop) :
  hinv h L (F1 ++ F2) -> (length F2 < fuel)%nat ->
  (forall n, (n <= length F2)%nat -> (forall b, b ∈ L -> b_at b ∈ F2 -> b_used b = false -> b_size b < want) ->
    Q 0 (add_steps n h)) ->
  (forall n b, (n <= length F2)%nat -> b ∈ L -> b_used b = false -> want <= b_size b -> Q (b_at b) (add_steps n h)) ->
  wp (scan fuel (hd0 0 F2) want) Q h.
Proof.
  revert fuel F1 h Q. induction F2 as [|x F2 IH]; intros fuel F1 h Q Hi Hfuel Hno Hyes.
  - destruct fuel as [|fuel]; [simpl in Hfuel; lia|]. simpl. apply (Hno 0%nat); [done|by intros b _ ?%elem_of_nil].
  - destruct fuel as [|fuel]; [simpl in Hfuel; lia|]. pose proof (hi_skel _ _ _ Hi) as Hs.
    destruct (hinv_in h L _ x Hi ltac:(apply elem_of_app; right; mem)) as (b & Hb & Hbu & <-).
    destruct (block_range h L b Hs Hb) as (Hbr & _). cbn [hd0 scan]. rewrite (proj2 (Z.eqb_neq _ 0)) by lia.
    apply wp_bind, wp_put. set (h1 := set_stat_steps _ h).
    assert (hinv h1 L (F1 ++ b_at b :: F2)) as Hi1 by (by apply (hinv_statics h)).
    apply wp_bind, wp_ld; [apply Hi1|apply (block_live h1 L); [apply Hi1|done|fld]|].
    rewrite (proj1 (sk_header _ _ (hi_skel _ _ _ Hi1) b Hb)). destruct (Z.leb_spec want (b_size b)) as [Hle|Hgt].
    + apply wp_ret. apply (Hyes 1%nat b); [simpl; lia|done..].
    + apply wp_bind, wp_ld; [apply Hi1|apply (block_live h1 L); [apply Hi1|done|fld]|].
      destruct (hi_frees _ _ _ Hi1) as [_ Hd]. rewrite (proj2 (dseg_mid _ _ _ _ _ _ _ Hd)).
      apply (IH fuel (F1 ++ [b_at b]) h1); [by rewrite <-app_assoc|simpl in Hfuel; lia| |].
      * intros n Hn Hall. unfold h1. rewrite add_steps_succ. apply Hno; [simpl; lia|].
        intros c Hc Hin Hcu. apply elem_of_cons in Hin as [He|Hin]; [|by apply Hall].
        by rewrite (block_inj h L c b Hs Hc Hb He).
      * intros n c Hn Hc Hcu Hsz. unfold h1. rewrite add_steps_succ. apply Hyes; [simpl; lia|done..].
Qed.

Lemma chain_length a L e : chain a L e -> 48 * Z.of_nat (length L) <= e - a.
Proof.
  revert a. induction L as [|b L IH]; intros a; simpl; [lia|]. intros (<- & Hsz & _ & H%IH).
  unfold b_end, MIN_PAYLOAD, BLOCK in *. lia.
Qed.

Lemma length_fuel h L : skel h L -> (length L < block_fuel h)%nat.
Proof.
  intros Hs. pose proof (chain_length _ _ _ (sk_chain _ _ Hs)).
  destruct (sk_start _ _ Hs) as [Hst _].
  unfold block_fuel, BLOCK. apply Nat2Z.inj_lt. pose proof (zn_range h (sk_zone _ _ Hs)).
  rewrite Z2Nat.id by (apply Z.add_nonneg_nonneg; [apply Z.div_pos; lia|lia]).
  pose proof (Z.div_le_lower_bound (heap_end h - KHEAP64_BASE) 32 (Z.of_nat (length L)) ltac:(lia)). lia.
Qed.

Lemma free_fuel h L F : hinv h L F -> (length F < block_fuel h)%nat.
Proof.
  intros Hi. eapply Nat.le_lt_trans; [|apply (length_fuel h L), Hi].
  rewrite (hi_perm _ _ _ Hi). unfold addrs. rewrite length_fmap. apply sublist_length, sublist_filter.
Qed.

(** ** Growing *)

(** More is mapped at the end, and nothing else changed. *)
Record grown h h' : Prop := {
  gr_zone : zone h';
  gr_end : heap_end h <= heap_end h';
  gr_head : heap_head h' = heap_head h;
  gr_tail : heap_tail h' = heap_tail h;
  gr_free : free_head h' = free_head h;
  gr_stats : stat_steps h' = stat_steps h /\ stat_calls h' = stat_calls h /\ double_frees h' = double_frees h;
  gr_words c : live h c -> W h' c = W h c
}.

Lemma grown_refl h : zone h -> grown h h.
Proof. intros Hz. by split. Qed.

Lemma grown_trans h1 h2 h3 : grown h1 h2 -> grown h2 h3 -> grown h1 h3.
Proof.
  intros [? ? ? ? ? (? & ? & ?) W1] [? ? ? ? ? (? & ? & ?) W2].
  split; try congruence; try done; [lia|split_and!; congruence|].
  intros c Hc. rewrite W2, W1; [done|done|]. destruct Hc. split; [done|lia].
Qed.

Lemma same_words_zone h k' : zone h -> same_words (km h) k' -> grown h (set_km k' h).
Proof.
  intros Hz [Hok Hw]. split; try done.
  - split; [done|apply Hz|apply Hz|]. intros a Ha Hin. cbn [set_km km heap_end]. rewrite (proj1 (Hw a Ha Hin)).
    by apply Hz.
  - intros c Hc. destruct (live_in h c Hz Hc) as [Hin _]. apply Hw; [apply Hc|done].
Qed.

(** One page more. *)
Lemma grown_page h k' : zone h -> heap_end h < KHEAP64_BASE + KHEAP64_MAX_SIZE -> km_ok k' ->
  (forall a, word_at a -> in_heap a ->
    km_mapped k' a = (km_mapped (km h) a || ((heap_end h <=? a) && (a <? heap_end h + PAGE64_SIZE))) /\
    (km_mapped (km h) a = true -> km_word k' a = km_word (km h) a)) ->
  grown h (set_heap_end (u64 (heap_end h + PAGE64_SIZE)) (set_km k' h)).
Proof.
  intros Hz Hlt Hok Hw. pose proof (zn_range h Hz) as Hr. pose proof (zn_page h Hz) as Hp.
  assert (u64 (heap_end h + PAGE64_SIZE) = heap_end h + PAGE64_SIZE) as He.
  { apply u64_small. unfold KHEAP64_BASE, KHEAP64_MAX_SIZE, PAGE64_SIZE in *. lia. }
  split; try done; cbn [heap_end set_heap_end set_km]; rewrite ?He; [|unfold PAGE64_SIZE; lia|].
  - split; cbn [km heap_end set_heap_end set_km]; rewrite ?He.
    + done.
    + apply Z.mod_divide in Hp as [q Hq]; [|done]. unfold KHEAP64_BASE, KHEAP64_MAX_SIZE, PAGE64_SIZE in *. lia.
    + rewrite Z.add_mod, Hp by done. done.
    + intros a Ha Hin. rewrite (proj1 (Hw a Ha Hin)), (zn_mapped h Hz) by done.
      destruct (Z.ltb_spec a (heap_end h)), (Z.leb_spec (heap_end h) a), (Z.ltb_spec a (heap_end h + PAGE64_SIZE));
        unfold PAGE64_SIZE in *; try lia; done.
  - intros c Hc. destruct (live_in h c Hz Hc) as [Hin Hm]. apply Hw; [apply Hc|done|done].
Qed.

Lemma grown_alloc h : zone h -> let '(p, k') := kalloc_frame (km h) in
  grown h (set_km k' h) /\ (p <> 0 -> km_fresh k' p).
Proof.
  intros Hz. pose proof (km_alloc (km h) (zn_ok h Hz)) as H. destruct (kalloc_frame (km h)) as [p k'].
  destruct H as [H Hf]. split; [by apply same_words_zone|done].
Qed.

Lemma wp_expand_loop fuel new_end h (Q : bool -> heap K -> Prop) :
  zone h -> new_end mod PAGE64_SIZE = 0 -> new_end <= KHEAP64_BASE + KHEAP64_MAX_SIZE ->
  Z.max 0 (new_end - heap_end h) < Z.of_nat fuel * PAGE64_SIZE ->
  (forall r h', grown h h' -> heap_end h' <= Z.max (heap_end h) new_end -> (r = true -> new_end <= heap_end h') -> Q r h') ->
  wp (expand_loop fuel new_end) Q h.
Proof.
  intros Hz Hal Hmax. revert h Q Hz. induction fuel as [|fuel IH]; intros h Q Hz Hfuel HQ; [lia|].
  cbn [expand_loop]. apply wp_bind, wp_get. destruct (Z.ltb_spec (heap_end h) new_end) as [Hlt|Hge]; cbn [negb].
  2: { apply wp_ret, HQ; [by apply grown_refl|lia|done]. }
  assert (heap_end h + PAGE64_SIZE <= new_end) as Hpage.
  { pose proof (zn_page h Hz) as Hp. apply Z.mod_divide in Hp as [q Hq]; [|done].
    apply Z.mod_divide in Hal as [q' Hq']; [|done]. unfold PAGE64_SIZE in *. lia. }
  apply wp_bind. unfold wp at 1, frame_alloc. pose proof (grown_alloc h Hz) as Hall.
  destruct (kalloc_frame (km h)) as [p k1]. destruct Hall as [Hg1 Hfr].
  set (h1 := set_km k1 h) in *. destruct (Z.eqb_spec p 0) as [->|Hp].
  { apply wp_ret, HQ; [done|change (heap_end h1) with (heap_end h); lia|done]. }
  apply wp_bind. unfold wp at 1, page_map. pose proof (gr_zone _ _ Hg1) as Hz1. pose proof (zn_range h Hz) as Hr.
  assert (in_heap (heap_end h)) as Hin by (unfold in_heap, PAGE64_SIZE in *; lia).
  assert (word_at (heap_end h)) as Hwd.
  { pose proof (zn_page h Hz) as Hpg. apply Z.mod_divide in Hpg as [q ->]; [|done]. unfold word_at.
    apply Z.mod_divide; [done|]. exists (q * 512). unfold PAGE64_SIZE. lia. }
  destruct (km_map (km h1) (heap_end h) p (zn_ok h1 Hz1) (Hfr Hp) (zn_page h Hz) Hin) as (r & k2 & -> & Hmap).
  { rewrite (zn_mapped h1 Hz1) by done. apply Z.ltb_irrefl. }
  destruct (r =? PAGING64_OK); cbn [negb].
  - destruct Hmap as [Hok Hmap]. apply wp_bind, wp_put.
    assert (grown h1 (set_heap_end (u64 (heap_end h + PAGE64_SIZE)) (set_km k2 h1))) as Hg2.
    { apply (grown_page h1 k2); try done. change (heap_end h1) with (heap_end h). unfold PAGE64_SIZE in *. lia. }
    set (h2 := set_heap_end _ _) in *.
    assert (heap_end h2 = heap_end h + PAGE64_SIZE) as He.
    { unfold h2. cbn [heap_end set_heap_end]. apply u64_small. unfold KHEAP64_BASE, KHEAP64_MAX_SIZE, PAGE64_SIZE in *. lia. }
    apply IH; [apply Hg2|rewrite He; unfold PAGE64_SIZE in *; lia|].
    intros r' h' Hg' Hle Hr'. apply HQ; [|lia|done]. eauto using grown_trans.
  - destruct Hmap as [Hsw Hfr2]. apply wp_bind, wp_put, wp_ret.
    assert (grown h1 (set_km k2 h1)) as Hg2 by (by apply same_words_zone).
    assert (grown (set_km k2 h1) (set_km (kfree_frame p k2) (set_km k2 h1))) as Hg3.
    { apply same_words_zone; [apply Hg2|]. apply km_free; [apply Hsw|done]. }
    apply HQ; [|change (heap_end h <= Z.max (heap_end h) new_end); lia|done].
    eauto using grown_trans.
Qed.

Lemma wp_heap_expand new_end h (Q : bool -> heap K -> Prop) :
  zone h -> new_end mod PAGE64_SIZE = 0 -> new_end <= KHEAP64_BASE + KHEAP64_MAX_SIZE ->
  (forall r h', grown h h' -> heap_end h' <= Z.max (heap_end h) new_end -> (r = true -> new_end <= heap_end h') -> Q r h') ->
  wp (heap_expand new_end) Q h.
Proof.
  intros Hz Hal Hmax HQ. apply wp_expand_loop; [done..| |done].
  change (KHEAP64_MAX_SIZE / PAGE64_SIZE + 1) with 65537. pose proof (zn_range h Hz).
  unfold KHEAP64_BASE, KHEAP64_MAX_SIZE, PAGE64_SIZE in *. lia.
Qed.

(** ** The new block at the end *)

(** The stores of [grow]. *)
Definition append_block (b sz : Z) : hm (K := K) unit :=
  st (b + off_size) sz;;
  st (b + off_used) 0;;
  t ← get heap_tail;
  st (b + off_prev) t;;
  st (b + off_next) 0;;
  (if nz t then st (t + off_next) b else put (set_heap_head b));;
  put (set_heap_tail b).

Lemma chain_append a L e sz : chain a L e -> MIN_PAYLOAD <= sz -> sz mod KHEAP64_ALIGN = 0 ->
  chain a (L ++ [mkBlk e sz false]) (e + BLOCK + sz).
Proof. intros Hc Hmin Hal. apply chain_app. exists e. split; [done|]. by repeat split. Qed.

Lemma append_skel L sz l h h1 h' :
  let b := heap_end h in let t := last0 0 (addrs L) in
  skel h L -> grown h h1 -> heap_end h1 = b + BLOCK + sz -> MIN_PAYLOAD <= sz -> sz mod KHEAP64_ALIGN = 0 ->
  l = (if nz t then [(t + off_next, b)] else []) ++
      [(b + off_next, 0); (b + off_prev, t); (b + off_used, 0); (b + off_size, sz)] ->
  writes l h1 h' -> heap_head h' = (if nz t then heap_head h else b) -> heap_tail h' = b ->
  skel h' (L ++ [mkBlk b sz false]).
Proof.
  intros b t Hs Hg He1 Hmin Hal -> Hw Eh Et. set (nb := mkBlk b sz false). set (L' := L ++ [nb]).
  pose proof (chain_append _ _ _ sz (sk_chain _ _ Hs) Hmin Hal) as Hc. fold b nb L' in Hc. rewrite <-He1 in Hc.
  destruct (sk_start _ _ Hs) as [Hst1 Hst2]. pose proof (chain_blocks h1 _ L' Hst1 Hst2 Hc) as HA.
  pose proof (gr_zone _ _ Hg) as Hz1.
  assert (addrs L' = addrs L ++ [b]) as HaL' by apply addrs_app.
  pose proof (chain_NoDup _ _ _ Hc) as Hnd. rewrite HaL' in Hnd.
  pose proof (nonzero_links h1 (addrs L') (addrs L') Hz1 HA (fun x H => H)) as H0.
  apply NoDup_app in Hnd as (HndL & Hnb & _).
  assert (b ∉ addrs L) as HbL by (intros Hx; apply (Hnb b Hx); mem).
  assert (b ∈ addrs L') as Hba by (rewrite HaL'; apply elem_of_app; right; mem).
  assert (forall x, x ∈ addrs L -> x ∈ addrs L' /\ x <> b) as Hin.
  { intros x Hx. split; [rewrite HaL'; apply elem_of_app; by left|by intros ->]. }
  assert (nz t = match addrs L with [] => false | _ => true end) as Hnz.
  { apply nz_last0. intros H. by apply H0, Hin. }
  assert (addrs L <> [] -> t ∈ addrs L) as Htin by (intros; by apply last0_in).
  assert (forall x o, x ∈ addrs L' -> field o -> W h' (x + o) =
    if nz t && ((x =? t) && (o =? off_next)) then b else
    if (x =? b) && (o =? off_next) then 0 else if (x =? b) && (o =? off_prev) then t else
    if (x =? b) && (o =? off_used) then 0 else if (x =? b) && (o =? off_size) then sz else W h1 (x + o)) as Hf.
  { intros x o Hx Ho. rewrite (ws_words _ _ _ Hw) by (by apply (apart_live h1 _ _ _ HA)).
    rewrite Hnz. destruct (addrs L) eqn:HaL; cbn [app andb];
      rewrite !(upds_field h1 _ _ _ _ _ _ _ HA) by (first [fld | done | apply Hin, Htin; done]); done. }
  assert (forall x o, x ∈ addrs L -> field o -> W h' (x + o) = if (x =? t) && (o =? off_next) then b else W h (x + o)) as Hold.
  { intros x o Hx Ho. destruct (Hin x Hx) as [Hx' Hne]. rewrite Hf by done. rewrite !(proj2 (Z.eqb_neq x b) Hne). cbn [andb].
    rewrite (gr_words _ _ Hg) by (apply (apart_live h (addrs L)); [by apply skel_apart|done|done]).
    rewrite Hnz. destruct (addrs L); [by apply elem_of_nil in Hx|done]. }
  assert (nz t = false \/ b <> t) as Hbt.
  { destruct (addrs L) eqn:HaL; [left; by rewrite Hnz|right]. intros Hx. apply HbL. rewrite Hx. by apply Htin. }
  assert (forall o, field o -> W h' (b + o) = if o =? off_next then 0 else if o =? off_prev then t else
    if o =? off_used then 0 else if o =? off_size then sz else W h1 (b + o)) as Hnew.
  { intros o Ho. rewrite Hf by done. rewrite !Z.eqb_refl. cbn [andb].
    destruct Hbt as [->|Hbt]; [done|]. rewrite (proj2 (Z.eqb_neq b t) Hbt). by rewrite andb_false_r. }
  pose proof (ws_end _ _ _ Hw) as He.
  assert (start h' L' = start h L) as Hst.
  { unfold start. rewrite He, HaL', He1. by destruct (addrs L). }
  split; [apply Hw|rewrite Hst, He; done|by rewrite Hst| | | |].
  - rewrite Eh, Hnz, (sk_head _ _ Hs), HaL'. by destruct (addrs L).
  - by rewrite Et, HaL', last0_app.
  - rewrite HaL'. eapply dseg_append; [done|done|exact (sk_list _ _ Hs)| | | |]; cbv beta.
    + by rewrite Hnew by fld.
    + by rewrite Hnew by fld.
    + intros y Hy. rewrite Hold by (done || fld). by rewrite andb_true_r.
    + intros y Hy. rewrite Hold by (done || fld). by rewrite andb_false_r.
  - intros x [Hx|[->|[]%elem_of_nil]%elem_of_cons]%elem_of_app.
    + pose proof (in_addrs _ _ Hx) as Hxa. rewrite !Hold by (done || fld). rewrite !andb_false_r. by apply (sk_header _ _ Hs).
    + cbn [b_at b_size]. by rewrite !Hnew by fld.
Qed.

Lemma wp_append_block L F sz h h1 (Q : unit -> heap K -> Prop) :
  skel h L -> frees h F -> (forall x, x ∈ F -> x ∈ addrs L) -> grown h h1 ->
  heap_end h1 = heap_end h + BLOCK + sz -> MIN_PAYLOAD <= sz -> sz mod KHEAP64_ALIGN = 0 ->
  (forall h', skel h' (L ++ [mkBlk (heap_end h) sz false]) -> frees h' F -> same_stats h1 h' -> stables L h h' -> Q tt h') ->
  wp (append_block (heap_end h) sz) Q h1.
Proof.
  intros Hs [Hfh Hfd] HFin Hg He1 Hmin Hal HQ. set (b := heap_end h) in *. set (nb := mkBlk b sz false) in *.
  set (L' := L ++ [nb]) in *. set (t := last0 0 (addrs L)).
  pose proof (chain_append _ _ _ sz (sk_chain _ _ Hs) Hmin Hal) as Hc. fold b nb L' in Hc. rewrite <-He1 in Hc.
  destruct (sk_start _ _ Hs) as [Hst1 Hst2]. pose proof (chain_blocks h1 _ L' Hst1 Hst2 Hc) as HA.
  pose proof (gr_zone _ _ Hg) as Hz1.
  assert (addrs L' = addrs L ++ [b]) as HaL' by apply addrs_app.
  assert (b ∈ addrs L') as Hba by (rewrite HaL'; apply elem_of_app; right; mem).
  assert (forall x, x ∈ addrs L -> x ∈ addrs L') as Hin by (intros; rewrite HaL'; apply elem_of_app; by left).
  assert (nz t = match addrs L with [] => false | _ => true end) as Hnz.
  { apply nz_last0. intros H. by apply (nonzero_links h1 (addrs L') (addrs L') Hz1 HA (fun x H => H)), Hin. }
  assert (addrs L <> [] -> t ∈ addrs L) as Htin by (intros; by apply last0_in).
  pose proof (apart_range h1 _ b Hz1 HA Hba) as Hbr. pose proof (zn_range h1 Hz1) as Hzr.
  assert (0 <= t < 2 ^ 64) as Htr by (by apply (last0_range h1 (addrs L'))).
  assert (forall o, field o -> live h1 (b + o)) as Hlb by (intros; by apply (apart_live h1 _ _ _ HA)).
  assert (0 <= sz < 2 ^ 64) as Hszr.
  { destruct (sk_start _ _ Hs). pose proof (chain_le _ _ _ (sk_chain _ _ Hs)).
    unfold b, BLOCK, MIN_PAYLOAD, KHEAP64_BASE, KHEAP64_MAX_SIZE in *. lia. }
  assert (heap_tail h1 = t) as Ht1 by (rewrite (gr_tail _ _ Hg); apply Hs).
  unfold append_block.
  apply wp_bind. eapply (step_st [] h1 h1); [by apply writes_nil|apply Hlb; fld|done|]. intros W1.
  destruct (wr_same (b + off_size) sz h1) as (E1 & E2 & E3 & _). set (h2 := wr _ _ h1) in *.
  apply wp_bind. eapply step_st; [exact W1|apply Hlb; fld|done|]. intros W2.
  destruct (wr_same (b + off_used) 0 h2) as (F1 & F2 & F3 & _). set (h3 := wr _ _ h2) in *.
  apply wp_bind, wp_get. rewrite F2, E2, Ht1.
  apply wp_bind. eapply step_st; [exact W2|apply Hlb; fld|done|]. intros W3.
  destruct (wr_same (b + off_prev) t h3) as (G1 & G2 & G3 & _). set (h4 := wr _ _ h3) in *.
  apply wp_bind. eapply step_st; [exact W3|apply Hlb; fld|done|]. intros W4.
  destruct (wr_same (b + off_next) 0 h4) as (I1 & I2 & I3 & _). set (h5 := wr _ _ h4) in *.
  assert (forall l h6, writes l h1 h6 -> l = (if nz t then [(t + off_next, b)] else []) ++
      [(b + off_next, 0); (b + off_prev, t); (b + off_used, 0); (b + off_size, sz)] ->
    heap_head h6 = (if nz t then heap_head h else b) -> free_head h6 = free_head h ->
    wp (put (set_heap_tail b)) Q h6) as Hend.
  { intros l h6 W6 Hl J1 J3. apply wp_put. set (h7 := set_heap_tail b h6).
    assert (writes l h1 h7) as W7 by (by apply (writes_statics l h1 h6)).
    assert (forall a v, (a, v) ∈ l -> exists x o, x ∈ addrs L' /\ field o /\ a = x + o /\ o < BLOCK) as Hlf.
    { intros a v Ha. subst l. destruct (nz t) eqn:Hz2; cbn [app] in Ha; rewrite ?elem_of_cons, elem_of_nil in Ha.
      - assert (t ∈ addrs L') as Hi by (apply Hin, Htin; intros He; unfold t in Hz2; by rewrite He in Hz2).
        destruct_or! Ha; try injection Ha as -> _; try done; eexists _, _;
          (split; [|split; [|split; [reflexivity|done]]]); (done || fld).
      - destruct_or! Ha; try injection Ha as -> _; try done; eexists _, _;
          (split; [|split; [|split; [reflexivity|done]]]); (done || fld). }
    assert (skel h7 L') as Hs7 by (by apply (append_skel L sz l h h1 h7)).
    apply HQ; [done| |by apply (writes_stats l)|].
    - apply (frees_writes h1 h7 (addrs L') F l HA); [by intros x ?%HFin; apply Hin| |done|by rewrite (gr_free _ _ Hg)|done].
      split; [by rewrite (gr_free _ _ Hg)|]. eapply dseg_ext; [|exact Hfd]. intros x Hx%HFin. cbv beta.
      split; apply (gr_words _ _ Hg), (apart_live h (addrs L)); try done; try fld; by apply skel_apart.
    - intros u Hu c Hcu. rewrite <-(gr_words _ _ Hg) by (by apply (payload_live h L u)). revert c Hcu.
      change (stable h1 h7 u). apply (stable_new h1 h7 L' l u Hs7 W7); [apply elem_of_app; by left|].
      intros a v Ha. destruct (Hlf a v Ha) as (x & o & ? & ? & ? & ?). exists x, o. auto. }
  apply wp_bind. destruct (nz t) eqn:Hz2.
  - assert (t ∈ addrs L') as Hi by (apply Hin, Htin; intros He; unfold t in Hz2; by rewrite He in Hz2).
    eapply step_st; [exact W4|by apply (apart_live h1 _ _ _ HA); fld|lia|]. intros W5.
    destruct (wr_same (t + off_next) b h5) as (J1 & J2 & J3 & _).
    eapply Hend; [exact W5|done| |]; [rewrite <-(gr_head _ _ Hg)|rewrite <-(gr_free _ _ Hg)]; congruence.
  - apply wp_put. eapply (Hend _ (set_heap_head b h5)); [|done|done|].
    + by apply (writes_statics _ h1 h5).
    + rewrite <-(gr_free _ _ Hg). change (free_head h5 = free_head h1). congruence.
Qed.

Lemma grow_append payload_needed h :
  grow payload_needed h = (
    let want := align_up (u64 (BLOCK + payload_needed)) PAGE64_SIZE in
    old_end ← get heap_end;
    if KHEAP64_BASE + KHEAP64_MAX_SIZE <? u64 (old_end + want) then mret false else
    ok ← heap_expand (u64 (old_end + want));
    e ← get heap_end;
    if negb ok && (u64 (e - old_end) <? BLOCK + MIN_PAYLOAD) then mret false else
    append_block old_end (u64 (u64 (e - old_end) - BLOCK));;
    freelist_insert old_end;;
    p ← ld (old_end + off_prev);
    try_merge p p old_end;;
    mret true) h.
Proof.
  unfold grow, append_block, mbind, hm_bind, get. destruct (_ <? u64 _); [done|].
  destruct (heap_expand _ h) as [ok h1|?|]; [|done|done]. destruct (negb ok && _); [done|].
  repeat (match goal with |- match ?c ?x with _ => _ end = _ => destruct (c x) as [? ?|?|]; [|reflexivity|reflexivity] end).
  reflexivity.
Qed.

Lemma hinv_grown h h' L F : grown h h' -> heap_end h' = heap_end h -> hinv h L F -> hinv h' L F.
Proof.
  intros Hg He Hi. pose proof (hi_skel _ _ _ Hi) as Hs.
  assert (forall x o, x ∈ addrs L -> field o -> W h' (x + o) = W h (x + o)) as HW.
  { intros x o Hx Ho. apply (gr_words _ _ Hg), (apart_live h (addrs L)); [by apply skel_apart|done|done]. }
  assert (start h' L = start h L) as Hst by (unfold start; by rewrite He).
  split; [split| |apply Hi].
  - apply Hg.
  - rewrite Hst, He. apply Hs.
  - rewrite Hst. apply Hs.
  - rewrite (gr_head _ _ Hg). apply Hs.
  - rewrite (gr_tail _ _ Hg). apply Hs.
  - eapply dseg_ext; [|apply (sk_list _ _ Hs)]. intros x Hx. cbv beta. split; apply HW; (done || fld).
  - intros b Hb. rewrite !HW by (first [fld | by apply in_addrs]). by apply (sk_header _ _ Hs).
  - destruct (hi_frees _ _ _ Hi) as [Hf Hd]. split; [by rewrite (gr_free _ _ Hg)|].
    eapply dseg_ext; [|exact Hd]. intros x Hx%(hinv_addrs h L F x Hi). cbv beta. split; apply HW; (done || fld).
Qed.

Lemma align_up_eq k v : 0 <= k <= 64 -> 0 <= v -> v + 2 ^ k - 1 < 2 ^ 64 ->
  align_up v (2 ^ k) = (v + (2 ^ k - 1)) / 2 ^ k * 2 ^ k.
Proof.
  intros Hk Hv Hlt. assert (0 < 2 ^ k) as Hpos by (apply Z.pow_pos_nonneg; lia).
  unfold align_up. rewrite u64_small by lia. unfold and_not64.
  replace (2 ^ 64 - 1 - (2 ^ k - 1)) with (Z.shiftl (Z.ones (64 - k)) k).
  2: { rewrite Z.shiftl_mul_pow2, Z.ones_equiv by lia. rewrite Z.mul_pred_l, <-Z.pow_add_r by lia.
       replace (64 - k + k) with 64 by lia. lia. }
  rewrite land_field by lia. rewrite (Z.mod_small (_ / _)).
  - f_equal. f_equal. lia.
  - split; [apply Z.div_pos; lia|]. apply Z.div_lt_upper_bound; [lia|]. rewrite <-Z.pow_add_r by lia.
    replace (k + (64 - k)) with 64 by lia. lia.
Qed.

Lemma align_up_spec k v : 0 <= k <= 64 -> 0 <= v -> v + 2 ^ k - 1 < 2 ^ 64 ->
  v <= align_up v (2 ^ k) < v + 2 ^ k /\ align_up v (2 ^ k) mod 2 ^ k = 0.
Proof.
  intros Hk Hv Hlt. rewrite align_up_eq by done. assert (0 < 2 ^ k) as Hpos by (apply Z.pow_pos_nonneg; lia).
  split; [|apply Z.mod_mul; lia]. pose proof (Z.div_mod (v + (2 ^ k - 1)) (2 ^ k)).
  pose proof (Z.mod_pos_bound (v + (2 ^ k - 1)) (2 ^ k)). nia.
Qed.

(** What a request for [want] bytes makes the heap grow by. *)
Definition growth (want : Z) : Z := align_up (BLOCK + want) PAGE64_SIZE.

Lemma growth_spec want : 0 <= want < 2 ^ 46 ->
  BLOCK + want <= growth want < BLOCK + want + PAGE64_SIZE /\ growth want mod PAGE64_SIZE = 0.
Proof. intros Hw. apply (align_up_spec 12); unfold BLOCK; lia. Qed.

Lemma wp_grow L F want h (Q : bool -> heap K -> Prop) :
  hinv h L F -> 0 <= want < 2 ^ 46 ->
  (forall h', hinv h' L F -> same_stats h h' -> stables (usedb L) h h' -> Q false h') ->
  (forall h' L' F' c, hinv h' L' F' -> usedb L' = usedb L -> (coalesced L -> coalesced L') ->
    stat_calls h' = stat_calls h -> double_frees h' = double_frees h ->
    heap_end h + growth want <= KHEAP64_BASE + KHEAP64_MAX_SIZE ->
    heap_end h < heap_end h' <= heap_end h + growth want ->
    c ∈ L' -> b_used c = false -> heap_end h' - heap_end h - BLOCK <= b_size c -> stables (usedb L) h h' -> Q true h') ->
  wp (grow want) Q h.
Proof.
  intros Hi Hw HQf HQt. pose proof (hi_skel _ _ _ Hi) as Hs. pose proof (sk_zone _ _ Hs) as Hz.
  pose proof (zn_range h Hz) as Hzr. destruct (growth_spec want Hw) as [Hg1 Hg2].
  unfold wp. rewrite grow_append.
  match goal with |- match ?c h with _ => _ end => change (wp c Q h) end. cbv zeta.
  rewrite (u64_small (BLOCK + want)) by (unfold BLOCK; lia). change (align_up (BLOCK + want) PAGE64_SIZE) with (growth want).
  apply wp_bind, wp_get. rewrite (u64_small (heap_end h + growth want)).
  2: { unfold KHEAP64_BASE, KHEAP64_MAX_SIZE, BLOCK, PAGE64_SIZE in *. lia. }
  assert (Q false h) as HQ0 by (apply HQf; [done|by repeat split|done]).
  destruct (Z.ltb_spec (KHEAP64_BASE + KHEAP64_MAX_SIZE) (heap_end h + growth want)) as [|Hfit]; [by apply wp_ret|].
  assert ((heap_end h + growth want) mod PAGE64_SIZE = 0) as Hal.
  { rewrite Z.add_mod, (zn_page h Hz), Hg2 by done. done. }
  apply wp_bind, wp_heap_expand; [done..|]. intros ok h1 Hgr Hle Hok. pose proof (gr_end _ _ Hgr) as Hge.
  pose proof (gr_zone _ _ Hgr) as Hz1. pose proof (zn_range h1 Hz1) as Hzr1.
  apply wp_bind, wp_get. rewrite (u64_small (heap_end h1 - heap_end h)).
  2: { unfold KHEAP64_BASE, KHEAP64_MAX_SIZE in *. lia. }
  set (d := heap_end h1 - heap_end h).
  assert (d mod PAGE64_SIZE = 0) as Hd.
  { unfold d. rewrite Zminus_mod, (zn_page h Hz), (zn_page h1 Hz1). done. }
  assert (d = 0 \/ PAGE64_SIZE <= d) as Hdd.
  { apply Z.mod_divide in Hd as [q Hq]; [|done]. unfold PAGE64_SIZE in *. lia. }
  destruct (negb ok && (d <? BLOCK + MIN_PAYLOAD)) eqn:Hfail.
  { apply andb_true_iff in Hfail as [_ Hlt%Z.ltb_lt]. assert (heap_end h1 = heap_end h) as He.
    { unfold d, BLOCK, MIN_PAYLOAD, PAGE64_SIZE in *. lia. }
    apply wp_ret, HQf; [by apply (hinv_grown h)|split; [done|apply Hgr]|].
    intros u [_ Hu]%usedb_in c Hc. apply (gr_words _ _ Hgr). by apply (payload_live h L u). }
  assert (PAGE64_SIZE <= d) as Hpage.
  { destruct Hdd as [Hd0|]; [|done]. exfalso. rewrite Hd0 in Hfail. destruct ok; [|done].
    specialize (Hok eq_refl). unfold d, BLOCK, PAGE64_SIZE in *. lia. }
  assert (u64 (d - BLOCK) = d - BLOCK) as ->.
  { apply u64_small. unfold d, BLOCK, PAGE64_SIZE, KHEAP64_BASE, KHEAP64_MAX_SIZE in *. lia. }
  apply wp_bind, (wp_append_block L F (d - BLOCK) h h1); [done|apply Hi|by intros; apply (hinv_addrs h L F)|done|unfold d; lia| | |].
  { unfold BLOCK, MIN_PAYLOAD, PAGE64_SIZE in *. lia. }
  { apply Z.mod_divide in Hd as [q ->]; [|done]. apply Z.mod_divide; [done|]. exists (q * 256 - 2).
    unfold PAGE64_SIZE, BLOCK, KHEAP64_ALIGN. lia. }
  intros h2 Hs2 Hf2 Hst2 Hu2. set (nb := mkBlk (heap_end h) (d - BLOCK) false) in *. change (heap_end h) with (b_at nb) at 1 2 3.
  apply wp_bind, (wp_insert_free L nb [] F h2); [done|done|rewrite app_nil_r; apply Hi|done|].
  intros h3 Hi3 Hst3 Hu3. rewrite usedb_app, usedb_cons in Hu3. cbn [nb b_used usedb] in Hu3.
  change (usedb L ++ usedb []) with (usedb L ++ []) in Hu3. rewrite app_nil_r in Hu3.
  apply wp_bind, wp_ld; [apply Hi3|apply (block_live h3 (L ++ [nb])); [apply Hi3|apply elem_of_app; right; mem|fld]|].
  rewrite (prev_of h3 L nb []) by apply Hi3. apply wp_bind, (wp_try_prev L nb [] (b_at nb :: F) h3); [done|done|].
  intros h4 L' F' c Hi4 Hus Hco Hc Hcu Hcs Hst4 Hu4. apply wp_ret.
  destruct Hst2 as (He2 & _ & Hc2 & Hd2), Hst3 as (He3 & _ & Hc3 & Hd3), Hst4 as (He4 & _ & Hc4 & Hd4).
  destruct (gr_stats _ _ Hgr) as (_ & Hc1 & Hd1).
  assert (heap_end h4 = heap_end h1) as He by congruence.
  apply (HQt h4 L' F' c); try done; try congruence.
  - by rewrite Hus, app_nil_r.
  - intros Hcl. by apply Hco.
  - rewrite He. unfold d, PAGE64_SIZE in *. lia.
  - rewrite He. cbn [nb b_size] in Hcs. unfold d in Hcs. lia.
  - rewrite usedb_app, usedb_cons in Hu4. cbn [nb b_used] in Hu4. change (usedb []) with (@nil blk) in Hu4. rewrite app_nil_r in Hu4.
    apply (stables_trans _ h h2); [|by apply (stables_trans _ h2 h3)].
    apply (stables_sub L); [|done]. intros u Hu. by apply usedb_in in Hu as [_ ?].
Qed.

(** ** Allocation *)

(** The size a request is rounded up to. *)
Definition want_of (size : Z) : Z := align_up (if size <? MIN_PAYLOAD then MIN_PAYLOAD else size) KHEAP64_ALIGN.

Lemma want_spec size : 0 <= size < 2 ^ 45 ->
  size <= want_of size /\ MIN_PAYLOAD <= want_of size < 2 ^ 46 /\ want_of size mod KHEAP64_ALIGN = 0.
Proof.
  intros Hs. unfold want_of. set (v := if _ <? _ then _ else _).
  assert (size <= v /\ MIN_PAYLOAD <= v < 2 ^ 45 + 16) as (H1 & H2 & H3).
  { unfold v, MIN_PAYLOAD. destruct (Z.ltb_spec size 16); lia. }
  unfold MIN_PAYLOAD in *. destruct (align_up_spec 4 v) as [H4 H5]; [lia..|].
  change (2 ^ 4) with KHEAP64_ALIGN in *. unfold KHEAP64_ALIGN in *. lia.
Qed.

(** The walk and, if it found one, the taking of the block. *)
Definition alloc_from (want : Z) (other : hm (K := K) Z) : hm (K := K) Z :=
  fuel ← get block_fuel;
  f ← get free_head;
  b ← scan fuel f want;
  if nz b then take_block b want else other.

Lemma add_steps_end n h : heap_end (add_steps n h) = heap_end h /\ stat_calls (add_steps n h) = stat_calls h /\
  double_frees (add_steps n h) = double_frees h /\ km (add_steps n h) = km h.
Proof. induction n as [|n IH]; [done|]. exact IH. Qed.

Lemma stable_km h h' u : km h' = km h -> stable h h' u.
Proof. intros Hk c _. unfold W. by rewrite Hk. Qed.

Lemma wp_alloc_from L F want other h (Q : Z -> heap K -> Prop) :
  hinv h L F -> coalesced L -> MIN_PAYLOAD <= want -> want mod KHEAP64_ALIGN = 0 ->
  (forall h', hinv h' L F -> heap_end h' = heap_end h -> stat_calls h' = stat_calls h -> double_frees h' = double_frees h ->
    km h' = km h -> (forall b, b ∈ L -> b_used b = false -> b_size b < want) -> wp other Q h') ->
  (forall h' L' F' A1 A2 b, hinv h' L' F' -> coalesced L' -> usedb L = A1 ++ A2 -> usedb L' = A1 ++ b :: A2 ->
    want <= b_size b -> double_frees h' = double_frees h ->
    stables (usedb L) h h' -> Q (b_at b + BLOCK) h') ->
  wp (alloc_from want other) Q h.
Proof.
  intros Hi Hco Hmin Hal Hno Hyes. unfold alloc_from. apply wp_bind, wp_get, wp_bind, wp_get.
  rewrite (proj1 (hi_frees _ _ _ Hi)). apply wp_bind.
  apply (wp_scan L [] F); [done|by apply (free_fuel h L)| |].
  - intros n _ Hall. cbn [nz]. change (nz 0) with false. cbv iota. destruct (add_steps_end n h) as (E1 & E2 & E3 & E4).
    apply Hno; [by apply add_steps_hinv|done..|]. intros b Hb Hu. apply Hall; [done| |done]. by apply (hinv_free h L).
  - intros n b _ Hb Hu Hsz. destruct (add_steps_end n h) as (E1 & E2 & E3 & E4).
    pose proof (add_steps_hinv n h L F Hi) as Hi'. destruct (block_range _ L b (hi_skel _ _ _ Hi') Hb) as (Hbr & _).
    rewrite (proj2 (nz_true (b_at b))) by lia. apply list_elem_of_split in Hb as (L1 & L2 & ->).
    apply (wp_take_block L1 b want L2 F); [done|done|lia|done|].
    intros h' L' F' b' Hi2 Hus Hat Hsz' Hco' Hst Hu'. rewrite <-Hat.
    assert (usedb (L1 ++ b :: L2) = usedb L1 ++ usedb L2) as HusL by (by rewrite usedb_app, usedb_cons, Hu).
    apply (Hyes h' L' F' (usedb L1) (usedb L2) b'); try done; [by apply Hco'| |].
    + destruct Hst as (_ & _ & _ & ->). done.
    + rewrite HusL. apply (stables_trans _ h (add_steps n h)); [|done]. intros u _. by apply stable_km.
Qed.

Lemma wp_kmalloc64 L F size h (Q : Z -> heap K -> Prop) :
  hinv h L F -> coalesced L -> 0 <= size < 2 ^ 45 ->
  (forall h' L' F', hinv h' L' F' -> coalesced L' -> usedb L' = usedb L -> double_frees h' = double_frees h ->
    (size <> 0 -> forall b, b ∈ L \/ b ∈ L' -> b_used b = false -> b_size b < want_of size) ->
    stables (usedb L) h h' -> Q 0 h') ->
  (forall h' L' F' A1 A2 b, hinv h' L' F' -> coalesced L' -> usedb L = A1 ++ A2 -> usedb L' = A1 ++ b :: A2 ->
    want_of size <= b_size b -> double_frees h' = double_frees h -> stables (usedb L) h h' -> Q (b_at b + BLOCK) h') ->
  wp (kmalloc64 size) Q h.
Proof.
  intros Hi Hco Hsize Hno Hyes. unfold kmalloc64. destruct (Z.eqb_spec size 0) as [->|Hnz].
  { apply wp_ret, (Hno h L F); done. }
  fold (want_of size). destruct (want_spec size Hsize) as (_ & [Hmin Hmax] & Hal). cbv zeta. set (want := want_of size) in *.
  apply wp_bind, wp_put. set (h0 := set_stat_calls _ h).
  assert (hinv h0 L F) as Hi0 by (by apply (hinv_statics h)).
  change (wp (alloc_from want (ok ← grow want; if negb ok then mret 0 else alloc_from want (mret 0))) Q h0).
  apply (wp_alloc_from L F); [done..| |].
  - intros h1 Hi1 He1 _ Hd1 Hk1 Hsmall. apply wp_bind.
    assert (forall U, stables U h h1) as Hu1 by (intros U u _; by apply stable_km).
    apply (wp_grow L F); [done|unfold MIN_PAYLOAD in *; lia| |].
    + intros h2 Hi2 (_ & _ & _ & Hd2) Hu2. cbn [negb]. apply wp_ret, (Hno h2 L F); try done; [by rewrite Hd2| |].
      { intros _ b [Hb|Hb]; by apply Hsmall. }
      by apply (stables_trans _ h h1).
    + intros h2 L2 F2 c Hi2 Hus2 Hco2 _ Hd2 _ _ _ _ _ Hu2. cbn [negb].
      apply (wp_alloc_from L2 F2); [done|by apply Hco2|done|done| |].
      * intros h3 Hi3 _ _ Hd3 Hk3 Hsmall3. apply wp_ret, (Hno h3 L2 F2); try done; [by apply Hco2|by rewrite Hd3, Hd2| |].
        { intros _ b [Hb|Hb]; [by apply Hsmall|by apply Hsmall3]. }
        apply (stables_trans _ h h1); [done|]. apply (stables_trans _ h1 h2); [done|]. intros u _. by apply stable_km.
      * intros h3 L3 F3 A1 A2 b Hi3 Hco3 HA HA' Hsz Hd3 Hu3. rewrite Hus2 in *.
        apply (Hyes h3 L3 F3 A1 A2 b); try done; [by rewrite Hd3, Hd2|].
        apply (stables_trans _ h h1); [done|]. by apply (stables_trans _ h1 h2).
  - intros h' L' F' A1 A2 b Hi' Hco' HA HA' Hsz Hd Hu. by apply (Hyes h' L' F' A1 A2 b).
Qed.

(** ** Initialisation *)

Lemma hinv_nil h : zone h -> heap_head h = 0 -> heap_tail h = 0 -> free_head h = 0 -> hinv h [] [].
Proof.
  intros Hz Hh Ht Hf. pose proof (zn_range h Hz) as Hr. pose proof (zn_page h Hz) as Hp.
  split; [split|split|]; try done.
  - split; [apply Hr|]. change (start h []) with (heap_end h). apply Z.mod_divide in Hp as [q ->]; [|done].
    apply Z.mod_divide; [done|]. exists (q * 256). unfold PAGE64_SIZE. lia.
  - by intros b ?%elem_of_nil.
Qed.

Definition first_block : blk := mkBlk KHEAP64_BASE (KHEAP64_INITIAL - BLOCK) false.

Lemma skel_first h : zone h -> heap_end h = KHEAP64_BASE + KHEAP64_INITIAL ->
  heap_head h = KHEAP64_BASE -> heap_tail h = KHEAP64_BASE ->
  W h (KHEAP64_BASE + off_prev) = 0 -> W h (KHEAP64_BASE + off_next) = 0 ->
  W h (KHEAP64_BASE + off_size) = KHEAP64_INITIAL - BLOCK -> W h (KHEAP64_BASE + off_used) = 0 ->
  skel h [first_block].
Proof.
  intros Hz He Hh Ht Hp Hn Hs Hu. split; try done. by intros b [->|[]%elem_of_nil]%elem_of_cons.
Qed.

Lemma wp_kheap64_init h (Q : unit -> heap K -> Prop) :
  km_ok (km h) -> (forall a, word_at a -> in_heap a -> km_mapped (km h) a = false) ->
  (forall h' L F, hinv h' L F -> L = [] \/ (L = [first_block] /\ F = [KHEAP64_BASE]) ->
    double_frees h' = 0 -> stat_calls h' = 0 -> Q tt h') ->
  wp kheap64_init Q h.
Proof.
  intros Hok Hun HQ. unfold kheap64_init. apply wp_bind, wp_put. set (h0 := mkHeap _ _ _ _ _ _ _ _).
  assert (zone h0) as Hz0.
  { split; [done|split; done|done|]. intros a Ha Hin. cbn [h0 heap_end km]. rewrite Hun by done. symmetry.
    apply Z.ltb_ge. apply Hin. }
  apply wp_bind, wp_heap_expand; [done..|]. intros ok h1 Hg Hle Hok1. pose proof (gr_zone _ _ Hg) as Hz1.
  destruct (gr_stats _ _ Hg) as (_ & Hc1 & Hd1). destruct ok; cbn [negb].
  2: { apply wp_ret, (HQ h1 [] []); [|by left|done|done].
       apply hinv_nil; [done|by rewrite (gr_head _ _ Hg)|by rewrite (gr_tail _ _ Hg)|by rewrite (gr_free _ _ Hg)]. }
  specialize (Hok1 eq_refl).
  assert (heap_end h1 = KHEAP64_BASE + KHEAP64_INITIAL) as He1.
  { change (heap_end h0) with KHEAP64_BASE in Hle. unfold KHEAP64_INITIAL in *. lia. }
  apply wp_bind, wp_get. rewrite He1. change (KHEAP64_BASE + KHEAP64_INITIAL =? KHEAP64_BASE) with false. cbv iota.
  apply wp_bind, wp_put. set (h2 := set_heap_head KHEAP64_BASE h1).
  assert (zone h2) as Hz2 by (by apply (zone_statics h1)).
  assert (apart h2 (addrs [first_block])) as HA.
  { apply (chain_blocks h2 KHEAP64_BASE); [lia|done|]. change (heap_end h2) with (heap_end h1). rewrite He1. done. }
  assert (forall o, field o -> live h2 (KHEAP64_BASE + o)) as Hlb by (intros; apply (apart_live h2 _ _ _ HA); [mem|done]).
  change (u64 (KHEAP64_BASE + KHEAP64_INITIAL - KHEAP64_BASE - BLOCK)) with (KHEAP64_INITIAL - BLOCK).
  apply wp_bind. eapply (step_st [] h2 h2); [by apply writes_nil|apply Hlb; fld|done|]. intros W1.
  destruct (wr_same (KHEAP64_BASE + off_size) (KHEAP64_INITIAL - BLOCK) h2) as (E1 & E2 & E3 & _). set (h3 := wr _ _ h2) in *.
  apply wp_bind. eapply step_st; [exact W1|apply Hlb; fld|done|]. intros W2.
  destruct (wr_same (KHEAP64_BASE + off_used) 0 h3) as (F1 & F2 & F3 & _). set (h4 := wr _ _ h3) in *.
  apply wp_bind. eapply step_st; [exact W2|apply Hlb; fld|done|]. intros W3.
  destruct (wr_same (KHEAP64_BASE + off_prev) 0 h4) as (G1 & G2 & G3 & _). set (h5 := wr _ _ h4) in *.
  apply wp_bind. eapply step_st; [exact W3|apply Hlb; fld|done|]. intros W4.
  destruct (wr_same (KHEAP64_BASE + off_next) 0 h5) as (I1 & I2 & I3 & _). set (h6 := wr _ _ h5) in *.
  apply wp_bind, wp_put. set (h7 := set_heap_tail KHEAP64_BASE h6).
  assert (writes _ h2 h7) as W7 by (apply (writes_statics _ h2 h6 h7 W4); by repeat split).
  assert (heap_head h7 = KHEAP64_BASE) as Hh7 by (change (heap_head h6 = KHEAP64_BASE); rewrite I1, G1, F1, E1; done).
  assert (forall o, field o -> W h7 (KHEAP64_BASE + o) = if o =? off_size then KHEAP64_INITIAL - BLOCK else
    if (o =? off_next) || (o =? off_prev) || (o =? off_used) then 0 else W h2 (KHEAP64_BASE + o)) as Hf.
  { intros o Ho. rewrite (ws_words _ _ _ W7) by (by apply Hlb).
    rewrite !(upds_field h2 _ _ _ _ _ _ _ HA) by (first [done | fld | mem]). rewrite !Z.eqb_refl. cbn [andb upds].
    destruct (Z.eqb_spec o off_size) as [->|]; [done|].
    destruct (o =? off_next), (o =? off_prev), (o =? off_used); done. }
  assert (skel h7 [first_block]) as Hs7.
  { apply skel_first; [apply W7|by rewrite (ws_end _ _ _ W7)|done|done|by rewrite Hf by fld..]. }
  apply (wp_insert_free [] first_block [] [] h7 Q Hs7); [|done|done|].
  { split; [|done]. change (free_head h6 = 0). rewrite I3, G3, F3, E3. apply (gr_free _ _ Hg). }
  intros h8 Hi8 Hst8 _. destruct Hst8 as (_ & _ & Hc8 & Hd8). destruct (ws_stats _ _ _ W7) as (_ & Hc7 & Hd7).
  apply (HQ h8 _ _ Hi8); [by right| |].
  - rewrite Hd8, Hd7. exact Hd1.
  - rewrite Hc8, Hc7. exact Hc1.
Qed.

(** ** The counts *)

Definition bytes_of (L : list blk) : Z := foldr (fun b s => b_size b + BLOCK + s) 0 L.

Lemma bytes_cons b L : bytes_of (b :: L) = b_size b + BLOCK + bytes_of L.
Proof. done. Qed.

Lemma chain_bytes a L e : chain a L e -> bytes_of L = e - a.
Proof.
  revert a. induction L as [|b L IH]; intros a; simpl; [lia|]. intros (<- & _ & _ & H%IH). unfold b_end in *. lia.
Qed.

Lemma bytes_nonneg h L L' : skel h L -> (forall b, b ∈ L' -> b ∈ L) -> 0 <= bytes_of L'.
Proof.
  intros Hs. induction L' as [|b L' IH]; intros Hin; simpl; [lia|].
  pose proof (block_range h L b Hs (Hin b ltac:(mem))). unfold MIN_PAYLOAD, BLOCK in *.
  assert (0 <= bytes_of L') by (apply IH; intros; apply Hin; mem). lia.
Qed.

Lemma bytes_usedb h L L' : skel h L -> (forall b, b ∈ L' -> b ∈ L) -> bytes_of (usedb L') <= bytes_of L'.
Proof.
  intros Hs. induction L' as [|b L' IH]; intros Hin; [done|]. rewrite usedb_cons.
  assert (bytes_of (usedb L') <= bytes_of L') by (apply IH; intros; apply Hin; mem).
  pose proof (block_range h L b Hs (Hin b ltac:(mem))). unfold MIN_PAYLOAD, BLOCK in *.
  destruct (b_used b); rewrite !bytes_cons; unfold BLOCK; lia.
Qed.

Lemma wp_stats_loop L1 L2 fuel u t h (Q : Z * Z -> heap K -> Prop) :
  skel h (L1 ++ L2) -> (length L2 < fuel)%nat ->
  0 <= u -> 0 <= t -> u + bytes_of (usedb L2) < 2 ^ 64 -> t + bytes_of L2 < 2 ^ 64 ->
  Q (u + bytes_of (usedb L2), t + bytes_of L2) h ->
  wp (stats_loop fuel (hd0 0 (addrs L2)) u t) Q h.
Proof.
  revert fuel L1 u t. induction L2 as [|b L2 IH]; intros fuel L1 u t Hs Hfuel Hu Ht Hu2 Ht2 HQ.
  - destruct fuel as [|fuel]; [simpl in Hfuel; lia|]. apply wp_ret. simpl in HQ. by rewrite !Z.add_0_r in HQ.
  - destruct fuel as [|fuel]; [simpl in Hfuel; lia|]. set (L := L1 ++ b :: L2) in *.
    assert (b ∈ L) as Hb by (apply elem_of_app; right; mem).
    destruct (block_range h L b Hs Hb) as (Hbr & Hb1 & Hb2 & _). destruct (sk_header _ _ Hs b Hb) as [Hhs Hhu].
    assert (0 <= bytes_of L2) as Hn1 by (apply (bytes_nonneg h L); [done|]; intros; apply elem_of_app; right; mem).
    assert (0 <= bytes_of (usedb L2)) as Hn2.
    { apply (bytes_nonneg h L); [done|]. intros c [_ Hc]%usedb_in. apply elem_of_app; right; mem. }
    cbn [addrs fmap list_fmap hd0 stats_loop]. rewrite (proj2 (Z.eqb_neq (b_at b) 0)) by lia.
    apply wp_bind, wp_ld; [apply Hs|apply (block_live h L); [done|done|fld]|]. rewrite Hhs.
    apply wp_bind, wp_ld; [apply Hs|apply (block_live h L); [done|done|fld]|]. rewrite Hhu.
    apply wp_bind, wp_ld; [apply Hs|apply (block_live h L); [done|done|fld]|]. rewrite (next_of h L1 b L2 Hs).
    unfold MIN_PAYLOAD, KHEAP64_MAX_SIZE in *. rewrite (u64_small (b_size b + BLOCK)) by (unfold BLOCK in *; lia).
    rewrite usedb_cons in *. rewrite bytes_cons in *. rewrite (u64_small (t + _)) by (unfold BLOCK in *; lia).
    unfold used_word. destruct (b_used b); rewrite ?bytes_cons in *.
    + change (nz 1) with true. cbv iota. rewrite (u64_small (u + _)) by (unfold BLOCK in *; lia).
      apply (IH fuel (L1 ++ [b])); [by rewrite <-app_assoc|simpl in Hfuel; lia|unfold BLOCK in *; lia..|].
      by rewrite <-!Z.add_assoc in *.
    + change (nz 0) with false. cbv iota.
      apply (IH fuel (L1 ++ [b])); [by rewrite <-app_assoc|simpl in Hfuel; lia|unfold BLOCK in *; lia..|].
      by rewrite <-!Z.add_assoc in *.
Qed.

Lemma wp_kheap64_stats h L (Q : Z * Z -> heap K -> Prop) :
  skel h L -> Q (bytes_of (usedb L), heap_end h - start h L) h -> wp kheap64_stats Q h.
Proof.
  intros Hs HQ. apply wp_bind, wp_get, wp_bind, wp_get. rewrite (sk_head _ _ Hs).
  pose proof (chain_bytes _ _ _ (sk_chain _ _ Hs)) as Hb. pose proof (zn_range h (sk_zone _ _ Hs)) as Hr.
  destruct (sk_start _ _ Hs) as [Hst _]. pose proof (bytes_usedb h L L Hs (fun b H => H)) as Hu.
  unfold KHEAP64_BASE, KHEAP64_MAX_SIZE in *.
  apply (wp_stats_loop [] L); [done|by apply length_fuel|lia|lia|lia|lia|]. by rewrite Hb.
Qed.

Lemma wp_count_loop L F1 F2 fuel n h (Q : Z -> heap K -> Prop) :
  hinv h L (F1 ++ F2) -> (length F2 < fuel)%nat -> 0 <= n -> n + Z.of_nat (length F2) < 2 ^ 64 ->
  Q (n + Z.of_nat (length F2)) h -> wp (count_loop fuel (hd0 0 F2) n) Q h.
Proof.
  revert fuel F1 n. induction F2 as [|x F2 IH]; intros fuel F1 n Hi Hfuel Hn Hlt HQ.
  - destruct fuel as [|fuel]; [simpl in Hfuel; lia|]. apply wp_ret. by rewrite Z.add_0_r in HQ.
  - destruct fuel as [|fuel]; [simpl in Hfuel; lia|]. pose proof (hi_skel _ _ _ Hi) as Hs.
    destruct (hinv_in h L _ x Hi ltac:(apply elem_of_app; right; mem)) as (b & Hb & Hbu & <-).
    destruct (block_range h L b Hs Hb) as (Hbr & _). cbn [hd0 count_loop length] in *.
    rewrite (proj2 (Z.eqb_neq _ 0)) by lia.
    apply wp_bind, wp_ld; [apply Hs|apply (block_live h L); [done|done|fld]|].
    destruct (hi_frees _ _ _ Hi) as [_ Hd]. rewrite (proj2 (dseg_mid _ _ _ _ _ _ _ Hd)), u64_small by lia.
    apply (IH fuel (F1 ++ [b_at b])); [by rewrite <-app_assoc|lia|lia|lia|].
    by replace (n + 1 + Z.of_nat (length F2)) with (n + Z.of_nat (S (length F2))) by lia.
Qed.

Lemma wp_free_blocks h L F (Q : Z -> heap K -> Prop) :
  hinv h L F -> Q (Z.of_nat (length (freeb L))) h -> wp kheap64_free_blocks Q h.
Proof.
  intros Hi HQ. apply wp_bind, wp_get, wp_bind, wp_get. rewrite (proj1 (hi_frees _ _ _ Hi)).
  assert (length (freeb L) = length F) as Hl by (rewrite (hi_perm _ _ _ Hi); unfold addrs; by rewrite length_fmap).
  apply (wp_count_loop L [] F); [done|by apply (free_fuel h L)|lia| |by rewrite <-Hl].
  pose proof (hi_skel _ _ _ Hi) as Hs. pose proof (chain_length _ _ _ (sk_chain _ _ Hs)).
  assert (length F <= length L)%nat by (rewrite <-Hl; apply sublist_length, sublist_filter).
  pose proof (zn_range h (sk_zone _ _ Hs)). destruct (sk_start _ _ Hs) as [Hst _].
  unfold KHEAP64_BASE, KHEAP64_MAX_SIZE in *. lia.
Qed.
End invariant.

(** At most one free block between two in use, and at the ends. *)
Lemma coalesced_count L : coalesced L ->
  (length (freeb L) <= S (length (usedb L)))%nat /\
  match L with b :: _ => b_used b = true -> (length (freeb L) <= length (usedb L))%nat | [] => True end.
Proof.
  induction L as [|b L IH]; intros Hc; [simpl; lia|].
  assert (coalesced L) as HcL by (destruct L; [done|apply Hc]). destruct (IH HcL) as [H1 H2].
  rewrite freeb_cons, usedb_cons. destruct (b_used b) eqn:Hb.
  - split; [|intros _]; simpl; lia.
  - split; [|done]. destruct L as [|n L]; [simpl; lia|]. destruct Hc as [[Hc|Hc] _]; [congruence|].
    specialize (H2 Hc). simpl length at 1. lia.
Qed.
