(* ===== verification/Kheapspec.v ===== *)
(** * What the kernel heap promises ([kernel/kheap64.c])

    The allocator seen from outside: [heap_ok h A] says that the heap [h] is
    well formed and that [A], in address order, are the blocks in use.
    [alloc_step] is the specification - what a request may do to [A] -, and
    the theorems say that the code does that, with no fault, without touching
    the contents of the blocks in use, and keeps the free space coalesced. *)

From S2P Require Import Prelude FrameAlloc Paging64 Dll Kheap64 Kheapinv.

Section spec.
  Context {K : Type} `{!KernelMemory K}.

Inductive op : Type :=
  | Malloc (size : Z)
  | Free (ptr : Z).

Definition exec (o : op) : hm (K := K) Z :=
  match o with
  | Malloc size => kmalloc64 size
  | Free ptr => kfree64 ptr;; mret 0
  end.

(** The address handed out for a block. *)
Definition ptr_of (b : blk) : Z := b_at b + BLOCK.

Definition disjoint_blk (a b : blk) : Prop := b_end a <= b_at b \/ b_end b <= b_at a.

(** A block the heap may hand out while [A] are in use. *)
Record fresh_block (A : list blk) (size : Z) (b : blk) : Prop := {
  fb_size : size <= b_size b;
  fb_align : ptr_of b mod KHEAP64_ALIGN = 0;
  fb_range : KHEAP64_BASE <= b_at b /\ b_end b <= KHEAP64_BASE + KHEAP64_MAX_SIZE;
  fb_disjoint a : a ∈ A -> disjoint_blk a b
}.

Inductive alloc_step (A : list blk) : op -> Z -> list blk -> Prop :=
  | step_null size : alloc_step A (Malloc size) 0 A
  | step_malloc size A1 A2 b :
      A = A1 ++ A2 -> size <> 0 -> fresh_block A size b ->
      alloc_step A (Malloc size) (ptr_of b) (A1 ++ b :: A2)
  | step_free_null : alloc_step A (Free 0) 0 A
  | step_free A1 A2 b :
      A = A1 ++ b :: A2 -> alloc_step A (Free (ptr_of b)) 0 (A1 ++ A2).

(** What a client may ask: a size below 2^45, or the return of what it has. *)
Definition legal (A : list blk) (o : op) : Prop :=
  match o with
  | Malloc size => 0 <= size < 2 ^ 45
  | Free ptr => ptr = 0 \/ exists b, b ∈ A /\ ptr = ptr_of b
  end.

Definition heap_ok (h : heap K) (A : list blk) : Prop :=
  exists L F, hinv h L F /\ coalesced L /\ usedb L = A.
End spec.

Section theorems.
  Context {K : Type} `{!KernelMemory K, !KernelMemoryLaws K}.
  Implicit Types h : heap K.

Lemma wp_run {X} (c : hm X) (Q : X -> heap K -> Prop) h :
  wp c Q h -> exists x h', c h = Done x h' /\ Q x h'.
Proof. unfold wp. destruct (c h) as [x h'|a|]; [eauto|done|done]. Qed.

Lemma hinv_fresh h L F A1 A2 b size :
  hinv h L F -> usedb L = A1 ++ b :: A2 -> size <= b_size b -> fresh_block (A1 ++ A2) size b.
Proof.
  intros Hi Hus Hsz. pose proof (hi_skel _ _ _ Hi) as Hs.
  assert (forall c, c ∈ A1 ++ b :: A2 -> c ∈ L) as Hin by (intros c; rewrite <-Hus; by intros [_ ?]%usedb_in).
  assert (b ∈ L) as Hb by (apply Hin, elem_of_app; right; mem).
  destruct (skel_in h L b Hs Hb) as (Hlo & Hhi & _). pose proof (zn_range h (sk_zone _ _ Hs)) as Hr.
  destruct (skel_apart h L Hs (b_at b) (in_addrs L b Hb)) as (Hal & _).
  split; [done| |lia|].
  - unfold ptr_of, BLOCK, KHEAP64_ALIGN. rewrite Z.add_mod, Hal by done. done.
  - intros a Ha. assert (a ∈ L) as HaL by (apply Hin; revert Ha; rewrite !elem_of_app, elem_of_cons; tauto).
    destruct (chain_apart _ _ _ _ _ (sk_chain _ _ Hs) HaL Hb) as [->|H]; [|exact H].
    exfalso. pose proof (chain_NoDup _ _ _ (sk_chain _ _ Hs)) as Hnd.
    assert (NoDup (addrs (usedb L))) as Hnd'.
    { eapply sublist_NoDup; [exact Hnd|]. apply fmap_sublist, sublist_filter. }
    rewrite Hus, addrs_app in Hnd'. apply NoDup_app in Hnd' as (_ & Hd & [Hd2 _]%NoDup_cons).
    apply elem_of_app in Ha as [Ha%in_addrs|Ha%in_addrs]; [apply (Hd _ Ha); mem|done].
Qed.

(** C8: The heap refines the specification: a legal request does not fault, does
    one of the steps allowed, and leaves the contents of the blocks still in
    use alone. *)
Theorem kheap64_refines h A o :
  heap_ok h A -> legal A o ->
  exists r h' A', exec o h = Done r h' /\ alloc_step A o r A' /\ heap_ok h' A' /\
    forall u, u ∈ A -> u ∈ A' -> stable h h' u.
Proof.
  intros (L & F & Hi & Hco & <-) Hleg. destruct o as [size|ptr]; cbn [exec legal] in *.
  - edestruct (wp_run (kmalloc64 size) (fun r h' => exists A', alloc_step (usedb L) (Malloc size) r A' /\ heap_ok h' A' /\
      forall u, u ∈ usedb L -> u ∈ A' -> stable h h' u) h) as (r & h' & Hr & A' & ?); [|by exists r, h', A'].
    destruct (decide (size = 0)) as [->|Hnz].
    { apply wp_ret. exists (usedb L). split; [constructor|]. split; [by exists L, F|]. done. }
    apply (wp_kmalloc64 L F); [done..| |].
    + intros h' L' F' Hi' Hco' Hus _ _ Hu. exists (usedb L). split; [constructor|]. split; [by exists L', F'|]. auto.
    + intros h' L' F' A1 A2 b Hi' Hco' HA HA' Hsz _ Hu. exists (A1 ++ b :: A2).
      split; [|split; [by exists L', F'|auto]]. apply step_malloc; [done|done|]. rewrite HA.
      apply (hinv_fresh h' L' F'); [done..|]. pose proof (want_spec size Hleg). lia.
  - destruct Hleg as [->|(b & Hb & ->)].
    { exists 0, h, (usedb L). split; [done|]. split; [constructor|]. split; [by exists L, F|done]. }
    apply usedb_in in Hb as [Hbu Hb]. apply list_elem_of_split in Hb as (L1 & L2 & ->).
    edestruct (wp_run (kfree64 (ptr_of b)) (fun _ h' => heap_ok h' (usedb L1 ++ usedb L2) /\ stables (usedb L1 ++ usedb L2) h h') h)
      as ([] & h' & Hr & Hok & Hu).
    { apply (wp_kfree64 L1 b L2 F); [done|done|]. intros h' L' F' Hi' Hus Hco' _ Hu. split; [|done].
      exists L', F'. auto. }
    exists 0, h', (usedb L1 ++ usedb L2). split; [unfold mbind, hm_bind; by rewrite Hr|].
    split; [|split; [done|auto]]. apply step_free. by rewrite usedb_app, usedb_cons, Hbu.
Qed.

(** A request that a free block can hold is not refused. *)
Theorem kmalloc64_serves h L F b size :
  hinv h L F -> coalesced L -> 0 < size < 2 ^ 45 ->
  b ∈ L -> b_used b = false -> want_of size <= b_size b ->
  exists p h' A1 A2 c, kmalloc64 size h = Done p h' /\ usedb L = A1 ++ A2 /\ heap_ok h' (A1 ++ c :: A2) /\
    p = ptr_of c /\ size <= b_size c.
Proof.
  intros Hi Hco Hsize Hb Hbu Hfit.
  edestruct (wp_run (kmalloc64 size) (fun p h' => exists A1 A2 c, usedb L = A1 ++ A2 /\ heap_ok h' (A1 ++ c :: A2) /\
    p = ptr_of c /\ size <= b_size c) h) as (p & h' & Hr & A1 & A2 & c & H); [|by exists p, h', A1, A2, c].
  apply (wp_kmalloc64 L F); [done|done|lia| |].
  - intros h' L' F' _ _ _ _ Hsmall _. exfalso. pose proof (Hsmall ltac:(lia) b (or_introl Hb) Hbu). lia.
  - intros h' L' F' A1 A2 c Hi' Hco' HA HA' Hsz _ _. exists A1, A2, c. split; [done|]. split; [by exists L', F'|].
    split; [done|]. pose proof (want_spec size ltac:(lia)). lia.
Qed.

(** The boot memory, nothing of the heap's range mapped: after
    [kheap64_init] nothing is in use, and there is one free block or, when
    the frames ran out, none. *)
Theorem kheap64_init_ok h :
  km_ok (km h) -> (forall a, word_at a -> in_heap a -> km_mapped (km h) a = false) ->
  exists h', kheap64_init h = Done tt h' /\ heap_ok h' [] /\ double_frees h' = 0 /\
    (kheap64_free_blocks h' = Done 0 h' \/
     kheap64_free_blocks h' = Done 1 h' /\ hinv h' [first_block] [KHEAP64_BASE]).
Proof.
  intros Hok Hun. edestruct (wp_run kheap64_init (fun _ h' => exists L F, hinv h' L F /\
    (L = [] \/ (L = [first_block] /\ F = [KHEAP64_BASE])) /\ double_frees h' = 0) h)
    as ([] & h' & Hr & L & F & Hi & HL & Hd).
  { apply wp_kheap64_init; [done|done|]. eauto 10. }
  assert (wp kheap64_free_blocks (fun n h'' => n = Z.of_nat (length (freeb L)) /\ h'' = h') h') as Hn
    by (by apply (wp_free_blocks h' L F)).
  apply wp_run in Hn as (n & h'' & Hn & -> & ->).
  exists h'. split; [done|]. split.
  { exists L, F. split; [done|]. destruct HL as [->|[-> _]]; done. }
  split; [done|]. destruct HL as [->|[-> ->]]; [by left|by right].
Qed.

(** The pointer of a free block, or null, is not freed again: nothing changes
    but the count. *)
Theorem kfree64_double h L F b :
  hinv h L F -> b ∈ L -> b_used b = false ->
  kfree64 (ptr_of b) h = Done tt (set_double_frees (u64 (double_frees h + 1)) h) /\ kfree64 0 h = Done tt h.
Proof.
  intros Hi Hb Hbu. split; [|done]. pose proof (hi_skel _ _ _ Hi) as Hs.
  destruct (block_range h L b Hs Hb) as (Hbr & _).
  assert (wp (kfree64 (ptr_of b)) (fun _ h' => h' = set_double_frees (u64 (double_frees h + 1)) h) h) as Hw.
  { unfold kfree64, ptr_of. rewrite (proj2 (Z.eqb_neq _ 0)) by (unfold BLOCK; lia).
    replace (b_at b + BLOCK - BLOCK) with (b_at b) by lia. cbv zeta.
    apply wp_bind, wp_ld; [apply Hs|apply (block_live h L); [done|done|fld]|].
    rewrite (proj2 (sk_header _ _ Hs b Hb)), used_nz, Hbu. cbn [negb]. done. }
  apply wp_run in Hw as ([] & h' & -> & ->). done.
Qed.

(** C11: The counts are those of the blocks: what is in use, and all that is
    mapped; and the free blocks never outnumber those in use by more than
    one, so a heap with nothing in use has at most one. *)
Theorem kheap64_accounts h A :
  heap_ok h A ->
  exists total n, kheap64_stats h = Done (bytes_of A, total) h /\ bytes_of A <= total <= KHEAP64_MAX_SIZE /\
    kheap64_free_blocks h = Done n h /\ 0 <= n <= Z.of_nat (length A) + 1 /\
    (A = [] -> n = if total =? 0 then 0 else 1).
Proof.
  intros (L & F & Hi & Hco & <-). pose proof (hi_skel _ _ _ Hi) as Hs.
  assert (wp kheap64_stats (fun ut h' => ut = (bytes_of (usedb L), heap_end h - start h L) /\ h' = h) h) as Hw1
    by (by apply (wp_kheap64_stats h L)).
  assert (wp kheap64_free_blocks (fun n h' => n = Z.of_nat (length (freeb L)) /\ h' = h) h) as Hw2
    by (by apply (wp_free_blocks h L F)).
  apply wp_run in Hw1 as (ut & ? & Hr1 & -> & ->). apply wp_run in Hw2 as (n & ? & Hr2 & -> & ->).
  exists (heap_end h - start h L), (Z.of_nat (length (freeb L))). split; [done|].
  pose proof (chain_bytes _ _ _ (sk_chain _ _ Hs)) as Hb. pose proof (bytes_usedb h L L Hs (fun b H => H)) as Hle.
  pose proof (zn_range h (sk_zone _ _ Hs)) as Hz. destruct (sk_start _ _ Hs) as [Hst _].
  pose proof (coalesced_count L Hco) as [Hcnt _].
  split; [lia|]. split; [done|]. split; [lia|]. intros HA. rewrite HA in Hcnt. cbn [length] in Hcnt.
  destruct (Z.eqb_spec (heap_end h - start h L) 0) as [H0|H0].
  - destruct L as [|b L]; [done|]. exfalso. rewrite bytes_cons in Hb.
    destruct (block_range h _ b Hs ltac:(mem)) as (_ & Hb1 & _).
    assert (0 <= bytes_of L) by (apply (bytes_nonneg h (b :: L)); [done|intros; mem]). unfold MIN_PAYLOAD, BLOCK in *. lia.
  - destruct L as [|b L]; [done|]. assert (b_used b = false) as Hbu.
    { destruct (b_used b) eqn:Hbu; [|done]. by rewrite usedb_cons, Hbu in HA. }
    rewrite freeb_cons, Hbu in *. cbn [length] in *. lia.
Qed.

Lemma grow_wraps h L F want :
  hinv h L F -> heap_end h < KHEAP64_BASE + KHEAP64_MAX_SIZE ->
  2 ^ 64 - KHEAP64_BASE <= want <= 2 ^ 64 - 8128 ->
  grow want h = Fault (heap_end h) /\ km_mapped (km h) (heap_end h) = false.
Proof.
  intros Hi Hroom Hw. pose proof (hi_skel _ _ _ Hi) as Hs. pose proof (sk_zone _ _ Hs) as Hz.
  pose proof (zn_range h Hz) as Hr. destruct (align_up_spec 12 (BLOCK + want)) as [Hg _]; [done|unfold BLOCK, KHEAP64_BASE in *; lia..|].
  change (2 ^ 12) with PAGE64_SIZE in Hg. rewrite grow_append. cbv zeta.
  rewrite (u64_small (BLOCK + want)) by (unfold BLOCK, KHEAP64_BASE in *; lia).
  set (g := align_up (BLOCK + want) PAGE64_SIZE) in *.
  assert (u64 (heap_end h + g) = heap_end h + g - 2 ^ 64) as He.
  { unfold u64. symmetry. apply (Z.mod_unique _ _ 1); unfold KHEAP64_BASE, KHEAP64_MAX_SIZE, BLOCK, PAGE64_SIZE in *; lia. }
  unfold mbind, hm_bind, get. rewrite He.
  destruct (Z.ltb_spec (KHEAP64_BASE + KHEAP64_MAX_SIZE) (heap_end h + g - 2 ^ 64)) as [H|_].
  { unfold BLOCK, PAGE64_SIZE, KHEAP64_BASE in *. lia. }
  assert (heap_expand (heap_end h + g - 2 ^ 64) h = Done true h) as ->.
  { unfold heap_expand. change (KHEAP64_MAX_SIZE / PAGE64_SIZE + 1) with 65537.
    destruct (Z.to_nat 65537) as [|fuel] eqn:Hfuel; [lia|]. cbn [expand_loop].
    unfold mbind, hm_bind, get. destruct (Z.ltb_spec (heap_end h) (heap_end h + g - 2 ^ 64)); [|done].
    unfold BLOCK, PAGE64_SIZE in *. lia. }
  cbn [negb andb]. rewrite Z.sub_diag. change (u64 (u64 0 - BLOCK)) with (2 ^ 64 - BLOCK).
  unfold append_block, mbind, hm_bind. unfold st at 1. unfold off_size. rewrite Z.add_0_r.
  assert (word_at (heap_end h)) as Hwd.
  { pose proof (zn_page h Hz) as Hpg. apply Z.mod_divide in Hpg as [q ->]; [|done]. unfold word_at.
    apply Z.mod_divide; [done|]. exists (q * 512). unfold PAGE64_SIZE. lia. }
  assert (in_heap (heap_end h)) as Hin by (unfold in_heap; lia).
  pose proof (km_write (km h) (heap_end h) (2 ^ 64 - BLOCK) (zn_ok h Hz) Hwd Hin ltac:(done)) as Hf.
  assert (km_mapped (km h) (heap_end h) = false) as Hm by (rewrite (zn_mapped h Hz) by done; apply Z.ltb_irrefl).
  rewrite Hm in Hf. by rewrite Hf.
Qed.

(** C12: A request so large that [heap_end + want] wraps is not refused: the call
    ends in a page fault at [heap_end], the first address that is not mapped,
    where [grow] stores the size of a block it has no memory for. *)
Theorem kmalloc64_huge_faults h A size :
  heap_ok h A -> heap_end h < KHEAP64_BASE + KHEAP64_MAX_SIZE ->
  2 ^ 64 - KHEAP64_BASE <= size <= 2 ^ 64 - 8192 ->
  kmalloc64 size h = Fault (heap_end h) /\ km_mapped (km h) (heap_end h) = false.
Proof.
  intros (L & F & Hi & _ & _) Hroom Hsize.
  assert (size <= want_of size < size + 16) as [Hw1 Hw2].
  { unfold want_of. destruct (Z.ltb_spec size MIN_PAYLOAD) as [H|H]; [unfold MIN_PAYLOAD, KHEAP64_BASE in *; lia|].
    apply (align_up_spec 4); [done|unfold KHEAP64_BASE in *; lia..]. }
  unfold kmalloc64. destruct (Z.eqb_spec size 0) as [->|_]; [unfold KHEAP64_BASE in *; lia|].
  fold (want_of size). cbv zeta. unfold mbind at 1, hm_bind at 1, put at 1. set (h0 := set_stat_calls _ h).
  assert (hinv h0 L F) as Hi0 by (by apply (hinv_statics h)).
  assert (wp (scan (block_fuel h0) (hd0 0 F) (want_of size)) (fun b h' => b = 0 /\ exists n, h' = add_steps n h0) h0) as Hscan.
  { apply (wp_scan L [] F); [done|by apply (free_fuel h0 L)|eauto|].
    intros n b _ Hb _ Hle. destruct (block_range h0 L b (hi_skel _ _ _ Hi0) Hb) as (_ & _ & H & _).
    unfold BLOCK, KHEAP64_BASE, KHEAP64_MAX_SIZE in *. lia. }
  apply wp_run in Hscan as (b & h1 & Hscan & -> & n & ->).
  unfold mbind, hm_bind, get. rewrite (proj1 (hi_frees _ _ _ Hi0)), Hscan. change (nz 0) with false. cbv beta iota.
  destruct (add_steps_end n h0) as (He & _ & _ & Hk).
  destruct (grow_wraps (add_steps n h0) L F (want_of size)) as [-> Hm]; [by apply add_steps_hinv|by rewrite He|lia|].
  rewrite He in Hm |- *. rewrite Hk in Hm. done.
Qed.

(** The last fifteen sizes wrap in the rounding, to a block of no bytes. *)
Theorem kmalloc64_wraps_to_zero size : 2 ^ 64 - 15 <= size < 2 ^ 64 -> want_of size = 0.
Proof.
  intros Hs. unfold want_of. destruct (Z.ltb_spec size MIN_PAYLOAD) as [H|_]; [unfold MIN_PAYLOAD in H; lia|].
  unfold align_up, KHEAP64_ALIGN. assert (u64 (size + 16 - 1) = size - (2 ^ 64 - 15)) as ->.
  { unfold u64. symmetry. apply (Z.mod_unique _ _ 1); lia. }
  assert (size - (2 ^ 64 - 15) ∈ seqZ 0 15) as Hin by (apply elem_of_seqZ; lia).
  revert Hin. generalize (size - (2 ^ 64 - 15)). intros v Hv. repeat (apply elem_of_cons in Hv as [->|Hv]; [done|]).
  by apply elem_of_nil in Hv.
Qed.
End theorems.

(** ** A memory to run it on *)

Module SimMemory.

(** Words, mapped pages and the free frames. *)
Record sim := mkSim { words : gmap Z Z; pages : gset Z; frames : list Z }.

Definition page_start (a : Z) : Z := a / 4096 * 4096.

#[export] Instance sim_memory : KernelMemory sim := {|
  kread a k := if decide (page_start a ∈ pages k) then Some (default 0 (words k !! a)) else None;
  kwrite a v k := if decide (page_start a ∈ pages k) then Some (mkSim (<[a := v]> (words k)) (pages k) (frames k)) else None;
  kalloc_frame k := match frames k with [] => (0, k) | p :: r => (p, mkSim (words k) (pages k) r) end;
  kfree_frame p k := mkSim (words k) (pages k) (p :: frames k);
  kmap v _ _ k := Some (PAGING64_OK, mkSim (words k) ({[v]} ∪ pages k) (frames k));
  km_ok _ := True;
  km_mapped k a := bool_decide (page_start a ∈ pages k);
  km_word k a := default 0 (words k !! a);
  km_fresh _ _ := True
|}.

Lemma page_start_eq v a : v mod PAGE64_SIZE = 0 -> page_start a = v <-> v <= a < v + PAGE64_SIZE.
Proof.
  intros Hv. apply Z.mod_divide in Hv as [q ->]; [|done]. unfold page_start, PAGE64_SIZE.
  pose proof (Z.div_mod a 4096 ltac:(done)). pose proof (Z.mod_pos_bound a 4096 ltac:(done)). split; intros; lia || nia.
Qed.

#[export] Instance sim_laws : KernelMemoryLaws sim.
Proof.
  split.
  - intros k a _ _ _. cbn. by destruct (decide _), (bool_decide_reflect (page_start a ∈ pages k)).
  - intros k a v _ _ _ _. cbn. destruct (bool_decide_reflect (page_start a ∈ pages k)) as [H|H].
    + eexists. split; [by rewrite decide_True|]. split; [done|]. intros c _ _. cbn. split; [done|].
      destruct (Z.eqb_spec c a) as [->|Hne]; [by rewrite lookup_insert_eq|by rewrite lookup_insert_ne].
    + by rewrite decide_False.
  - intros k _. cbn. by destruct (frames k).
  - intros k p _ _. done.
  - intros k v p _ _ Hv _ _. cbn. eexists _, _. split; [done|]. split; [done|]. intros a _ _. split; [|done].
    pose proof (page_start_eq v a Hv) as H. cbn [km_mapped sim_memory pages].
    destruct (bool_decide_reflect (page_start a ∈ {[v]} ∪ pages k)) as [Hin|Hin], (bool_decide_reflect (page_start a ∈ pages k)) as [Hi|Hi];
      cbn [orb]; try done; destruct (Z.leb_spec v a), (Z.ltb_spec a (v + PAGE64_SIZE)); cbn [andb]; try done;
      exfalso; rewrite elem_of_union, elem_of_singleton, H in Hin; (destruct Hin as [Hin|Hin]; [lia|done]) || (apply Hin; solve [by right | left; lia]).
Qed.

(** Frames for the first 16 pages and a few more. *)
Definition boot : heap sim := mkHeap 0 0 0 0 0 0 0 (mkSim ∅ ∅ (seqZ 4096 24)).

Definition after {X} (r : outcome X) : heap sim := match r with Done _ h => h | _ => boot end.
Definition result {X} (r : @outcome sim X) : option X := match r with Done x _ => Some x | _ => None end.
End SimMemory.

(** ** On that memory *)

Section simulated.
Import SimMemory.

Definition sim_init : heap sim := after (kheap64_init boot).

Lemma sim_boot : km_ok (km boot) /\ forall a, word_at a -> in_heap a -> km_mapped (km boot) a = false.
Proof. split; [done|]. intros a _ _. by apply bool_decide_eq_false. Qed.

Lemma sim_init_inv : kheap64_init boot = Done tt sim_init /\ hinv sim_init [first_block] [KHEAP64_BASE].
Proof.
  assert (wp kheap64_init (fun _ h => exists L F, hinv h L F /\ (L = [] \/ (L = [first_block] /\ F = [KHEAP64_BASE]))) boot) as Hw.
  { apply wp_kheap64_init; [done|apply sim_boot|]. eauto. }
  apply wp_run in Hw as ([] & h & Hr & L & F & Hi & HL).
  assert (sim_init = h) as Hh by (unfold sim_init; by rewrite Hr). rewrite Hh. split; [done|].
  destruct HL as [->|[-> ->]]; [|done]. exfalso. pose proof (hi_perm _ _ _ Hi) as HF. apply Permutation_nil_r in HF as ->.
  destruct (hi_frees _ _ _ Hi) as [Hf _]. rewrite <-Hh in Hf. vm_compute in Hf. done.
Qed.

Lemma sim_init_ok : heap_ok sim_init [].
Proof. exists [first_block], [KHEAP64_BASE]. split; [apply sim_init_inv|done]. Qed.

(** Two blocks, both freed: one free block again; a second free is counted. *)
Example kheap64_round :
  match kmalloc64 100 sim_init with
  | Done p h1 =>
    match kmalloc64 5000 h1 with
    | Done q h2 =>
      let h4 := after (kfree64 q (after (kfree64 p h2))) in
      (p, q) = (KHEAP64_BASE + 32, KHEAP64_BASE + 176) /\
      result (kheap64_stats h2) = Some (5184, 65536) /\ result (kheap64_free_blocks h4) = Some 1 /\
      result (kheap64_stats h4) = Some (0, 65536) /\ double_frees (after (kfree64 p h4)) = 1
    | _ => False
    end
  | _ => False
  end.
Proof. vm_compute. done. Qed.

Lemma kheap64_refines_witness : heap_ok sim_init [] /\
  exists r h' A', exec (Malloc 100) sim_init = Done r h' /\ alloc_step [] (Malloc 100) r A' /\ heap_ok h' A' /\
    forall u, u ∈ [] -> u ∈ A' -> stable sim_init h' u.
Proof. split; [exact sim_init_ok|]. apply (kheap64_refines sim_init [] (Malloc 100)); [exact sim_init_ok|split; done]. Defined.

Lemma kmalloc64_serves_witness :
  exists p h' A1 A2 c, kmalloc64 100 sim_init = Done p h' /\ usedb [first_block] = A1 ++ A2 /\ heap_ok h' (A1 ++ c :: A2) /\
    p = ptr_of c /\ 100 <= b_size c.
Proof.
  apply (kmalloc64_serves sim_init [first_block] [KHEAP64_BASE] first_block 100);
    [apply sim_init_inv|done|split; done|by apply list_elem_of_singleton|done|done].
Defined.

Lemma kheap64_init_ok_witness :
  exists h', kheap64_init boot = Done tt h' /\ heap_ok h' [] /\ double_frees h' = 0 /\
    (kheap64_free_blocks h' = Done 0 h' \/
     kheap64_free_blocks h' = Done 1 h' /\ hinv h' [first_block] [KHEAP64_BASE]).
Proof. apply (kheap64_init_ok boot); apply sim_boot. Defined.

Lemma kfree64_double_witness :
  kfree64 (ptr_of first_block) sim_init = Done tt (set_double_frees (u64 (double_frees sim_init + 1)) sim_init) /\
  kfree64 0 sim_init = Done tt sim_init.
Proof.
  apply (kfree64_double sim_init [first_block] [KHEAP64_BASE] first_block);
    [apply sim_init_inv|by apply list_elem_of_singleton|done].
Defined.

Lemma kheap64_accounts_witness :
  exists total n, kheap64_stats sim_init = Done (bytes_of [], total) sim_init /\ bytes_of [] <= total <= KHEAP64_MAX_SIZE /\
    kheap64_free_blocks sim_init = Done n sim_init /\ 0 <= n <= Z.of_nat (length (@nil blk)) + 1 /\
    (@nil blk = [] -> n = if total =? 0 then 0 else 1).
Proof. apply (kheap64_accounts sim_init []), sim_init_ok. Defined.

Lemma kmalloc64_huge_faults_witness :
  kmalloc64 (2 ^ 63) sim_init = Fault (heap_end sim_init) /\ km_mapped (km sim_init) (heap_end sim_init) = false.
Proof. apply (kmalloc64_huge_faults sim_init []); [exact sim_init_ok|vm_compute; done|split; discriminate]. Defined.

Lemma kmalloc64_wraps_to_zero_witness : want_of (2 ^ 64 - 1) = 0.
Proof. apply (kmalloc64_wraps_to_zero (2 ^ 64 - 1)). split; [discriminate|reflexivity]. Defined.

(** The block it is given has no bytes, so its next use as a free block
    overwrites what follows it. *)
Example kmalloc64_no_bytes : result (kmalloc64 (2 ^ 64 - 1) sim_init) = Some (KHEAP64_BASE + 32) /\
  match kmalloc64 (2 ^ 64 - 1) sim_init with Done p h => km_word (km h) (p - 32) = 0 | _ => False end.
Proof. vm_compute. done. Qed.

(** With frames for three pages only, the pages are mapped and then lost:
    nothing is free, and [heap_end] has moved. *)
Example kheap64_init_partial :
  let h := after (kheap64_init (mkHeap 0 0 0 0 0 0 0 (mkSim ∅ ∅ [4096; 8192; 12288]))) in
  heap_end h = KHEAP64_BASE + 3 * 4096 /\ heap_head h = 0 /\ free_head h = 0.
Proof. vm_compute. done. Qed.
End simulated.
