(* ===== verification/Ramfs64.v ===== *)
(** * The RAM file system ([kernel/ramfs64.c])

    A table of nodes: a name, a parent, a child list threaded through the
    table, and the bytes - in one block of the kernel heap, or in physical
    frames once the file is large or mapped shared.  The heap and the frame
    allocator are used through their interfaces.  A C string is the list of
    its bytes before the NUL; [None] is a loop that does not end, or an access
    outside a block of the heap. *)

From S2P Require Import Prelude FrameAlloc.
From S2P Require Pipe64.
From Stdlib Require Import String Ascii.

Definition RAMFS64_MAX_NODES : Z := 4096.
Definition RAMFS64_NAME_MAX : Z := 256.
Definition RAMFS64_PATH_MAX : Z := 1024.
Definition RAMFS64_LINK_MAX : Z := 40.
Definition RAMFS64_CONTIGUOUS_MAX : Z := 32 * 1024 * 1024.
Definition RAMFS64_DEV_NONE : Z := 0.
Definition RAMFS64_DEV_NULL : Z := 5.
Definition RAMFS64_DEV_CON : Z := 6.
Definition PAGE64_SIZE : Z := 4096.
Definition ROOT : Z := 0.

(** [sizeof(node64_t)]. *)
Definition NODE64_SIZE : Z := 352.
Definition NNODES : nat := Z.to_nat RAMFS64_MAX_NODES.

Definition slash : Z := 47.
Definition dot : Z := 46.

(** A string literal of the source. *)
Fixpoint bytes (s : string) : list Z :=
  match s with
  | EmptyString => []
  | String c s' => Z.of_N (N_of_ascii c) :: bytes s'
  end.

(** What [kstrlcpy] into an array of [n] bytes keeps. *)
Definition cut (n : Z) (s : list Z) : list Z := take (Z.to_nat (n - 1)) s.

(** The capacity of [data] is the length of [n_block], and the capacity of
    [frames] the length of [n_farr]. *)
Record node64 := mkNode {
  n_name : list Z;
  n_parent : Z;
  n_data : Z;                  (* the block in the heap, 0 for none *)
  n_block : list Z;            (* the bytes at [n_data] *)
  n_size : Z;
  n_is_dir : bool;
  n_is_link : bool;
  n_mode : Z;
  n_frames : Z;                (* the array in the heap, 0 for none *)
  n_farr : list Z;             (* the array at [n_frames] *)
  n_nframes : Z;
  n_openers : Z;
  n_unlinked : bool;
  n_device : Z;
  n_used : bool;
  n_first_child : Z;
  n_next_sibling : Z
}.

#[export] Instance node64_inhabited : Inhabited node64 :=
  populate (mkNode [] 0 0 [] 0 false false 0 0 [] 0 0 false 0 false 0 0).

Definition set_name (v : list Z) (n : node64) : node64 :=
  mkNode v (n_parent n) (n_data n) (n_block n) (n_size n) (n_is_dir n) (n_is_link n) (n_mode n) (n_frames n)
    (n_farr n) (n_nframes n) (n_openers n) (n_unlinked n) (n_device n) (n_used n) (n_first_child n) (n_next_sibling n).
Definition set_parent (v : Z) (n : node64) : node64 :=
  mkNode (n_name n) v (n_data n) (n_block n) (n_size n) (n_is_dir n) (n_is_link n) (n_mode n) (n_frames n)
    (n_farr n) (n_nframes n) (n_openers n) (n_unlinked n) (n_device n) (n_used n) (n_first_child n) (n_next_sibling n).
Definition set_data (p : Z) (b : list Z) (n : node64) : node64 :=
  mkNode (n_name n) (n_parent n) p b (n_size n) (n_is_dir n) (n_is_link n) (n_mode n) (n_frames n)
    (n_farr n) (n_nframes n) (n_openers n) (n_unlinked n) (n_device n) (n_used n) (n_first_child n) (n_next_sibling n).
Definition set_size (v : Z) (n : node64) : node64 :=
  mkNode (n_name n) (n_parent n) (n_data n) (n_block n) v (n_is_dir n) (n_is_link n) (n_mode n) (n_frames n)
    (n_farr n) (n_nframes n) (n_openers n) (n_unlinked n) (n_device n) (n_used n) (n_first_child n) (n_next_sibling n).
Definition set_is_link (v : bool) (n : node64) : node64 :=
  mkNode (n_name n) (n_parent n) (n_data n) (n_block n) (n_size n) (n_is_dir n) v (n_mode n) (n_frames n)
    (n_farr n) (n_nframes n) (n_openers n) (n_unlinked n) (n_device n) (n_used n) (n_first_child n) (n_next_sibling n).
Definition set_mode (v : Z) (n : node64) : node64 :=
  mkNode (n_name n) (n_parent n) (n_data n) (n_block n) (n_size n) (n_is_dir n) (n_is_link n) v (n_frames n)
    (n_farr n) (n_nframes n) (n_openers n) (n_unlinked n) (n_device n) (n_used n) (n_first_child n) (n_next_sibling n).
Definition set_frames (p : Z) (a : list Z) (k : Z) (n : node64) : node64 :=
  mkNode (n_name n) (n_parent n) (n_data n) (n_block n) (n_size n) (n_is_dir n) (n_is_link n) (n_mode n) p
    a k (n_openers n) (n_unlinked n) (n_device n) (n_used n) (n_first_child n) (n_next_sibling n).
Definition set_openers (v : Z) (n : node64) : node64 :=
  mkNode (n_name n) (n_parent n) (n_data n) (n_block n) (n_size n) (n_is_dir n) (n_is_link n) (n_mode n) (n_frames n)
    (n_farr n) (n_nframes n) v (n_unlinked n) (n_device n) (n_used n) (n_first_child n) (n_next_sibling n).
Definition set_unlinked (v : bool) (n : node64) : node64 :=
  mkNode (n_name n) (n_parent n) (n_data n) (n_block n) (n_size n) (n_is_dir n) (n_is_link n) (n_mode n) (n_frames n)
    (n_farr n) (n_nframes n) (n_openers n) v (n_device n) (n_used n) (n_first_child n) (n_next_sibling n).
Definition set_device (v : Z) (n : node64) : node64 :=
  mkNode (n_name n) (n_parent n) (n_data n) (n_block n) (n_size n) (n_is_dir n) (n_is_link n) (n_mode n) (n_frames n)
    (n_farr n) (n_nframes n) (n_openers n) (n_unlinked n) v (n_used n) (n_first_child n) (n_next_sibling n).
Definition set_used (v : bool) (n : node64) : node64 :=
  mkNode (n_name n) (n_parent n) (n_data n) (n_block n) (n_size n) (n_is_dir n) (n_is_link n) (n_mode n) (n_frames n)
    (n_farr n) (n_nframes n) (n_openers n) (n_unlinked n) (n_device n) v (n_first_child n) (n_next_sibling n).
Definition set_first_child (v : Z) (n : node64) : node64 :=
  mkNode (n_name n) (n_parent n) (n_data n) (n_block n) (n_size n) (n_is_dir n) (n_is_link n) (n_mode n) (n_frames n)
    (n_farr n) (n_nframes n) (n_openers n) (n_unlinked n) (n_device n) (n_used n) v (n_next_sibling n).
Definition set_next_sibling (v : Z) (n : node64) : node64 :=
  mkNode (n_name n) (n_parent n) (n_data n) (n_block n) (n_size n) (n_is_dir n) (n_is_link n) (n_mode n) (n_frames n)
    (n_farr n) (n_nframes n) (n_openers n) (n_unlinked n) (n_device n) (n_used n) (n_first_child n) v.

Section ramfs64.
  Context {H A : Type} `{!Pipe64.KernelHeap H, !FrameAllocator A}.

Record fs := mkFs {
  table : Z;                   (* [nodes], 0 before the first initialisation *)
  nodes : list node64;
  free_head : Z;
  node_count : Z;
  seed_failures : Z;
  heap : H;
  frames : A;
  page : Z -> list Z           (* the bytes of a frame, through the direct map *)
}.

Definition set_nodes (v : list node64) (s : fs) : fs :=
  mkFs (table s) v (free_head s) (node_count s) (seed_failures s) (heap s) (frames s) (page s).
Definition set_free_head (v : Z) (s : fs) : fs :=
  mkFs (table s) (nodes s) v (node_count s) (seed_failures s) (heap s) (frames s) (page s).
Definition set_node_count (v : Z) (s : fs) : fs :=
  mkFs (table s) (nodes s) (free_head s) v (seed_failures s) (heap s) (frames s) (page s).
Definition set_seed_failures (v : Z) (s : fs) : fs :=
  mkFs (table s) (nodes s) (free_head s) (node_count s) v (heap s) (frames s) (page s).
Definition set_heap (v : H) (s : fs) : fs :=
  mkFs (table s) (nodes s) (free_head s) (node_count s) (seed_failures s) v (frames s) (page s).
Definition set_alloc (v : A) (s : fs) : fs :=
  mkFs (table s) (nodes s) (free_head s) (node_count s) (seed_failures s) (heap s) v (page s).
Definition set_page (p : Z) (v : list Z) (s : fs) : fs :=
  mkFs (table s) (nodes s) (free_head s) (node_count s) (seed_failures s) (heap s) (frames s)
    (fun q => if q =? p then v else page s q).

Definition node (s : fs) (i : Z) : node64 := zget (nodes s) i.
Definition upd (i : Z) (f : node64 -> node64) (s : fs) : fs := set_nodes (zset (nodes s) i (f (node s i))) s.

Definition kfree (p : Z) (s : fs) : fs := set_heap (Pipe64.kfree64 p (heap s)) s.
Definition kmalloc (n : Z) (s : fs) : Z * fs :=
  let '(p, h) := Pipe64.kmalloc64 n (heap s) in (p, set_heap h s).
Definition free_phys (p : Z) (s : fs) : fs := set_alloc (free_frame p (frames s)) s.

Definition in_range (n : Z) : bool := (0 <=? n) && (n <? RAMFS64_MAX_NODES).
Definition valid (n : Z) (s : fs) : bool := nz (table s) && in_range n && n_used (node s n).

(** ** Nodes *)

Definition alloc_node (name : list Z) (parent : Z) (is_dir : bool) (s : fs) : Z * fs :=
  if negb (nz (table s)) || (free_head s <? 0) then (-1, s) else
  let i := free_head s in
  let s := set_free_head (n_next_sibling (node s i)) s in
  let s := upd i (fun _ => mkNode (cut RAMFS64_NAME_MAX name) parent 0 [] 0 is_dir false
    (if is_dir then 0x1ed else 0x1a4) 0 [] 0 0 false RAMFS64_DEV_NONE true (-1) (-1)) s in
  let s := if in_range parent
           then upd parent (set_first_child i) (upd i (set_next_sibling (n_first_child (node s parent))) s)
           else s in
  (i, set_node_count (node_count s + 1) s).

(** [while (c >= 0 && nodes[c].next_sibling != n) c = nodes[c].next_sibling] *)
Fixpoint find_prev (fuel : nat) (c n : Z) (s : fs) : option Z :=
  match fuel with
  | O => None
  | Datatypes.S fuel' =>
    if (0 <=? c) && negb (n_next_sibling (node s c) =? n)
    then find_prev fuel' (n_next_sibling (node s c)) n s else Some c
  end.

(** Out of the child list of [p]. *)
Definition unhook (p n : Z) (s : fs) : option fs :=
  if in_range p then
    let c := n_first_child (node s p) in
    if c =? n then Some (upd p (set_first_child (n_next_sibling (node s n))) s) else
    c ← find_prev (Datatypes.S NNODES) c n s;
    Some (if 0 <=? c then upd c (set_next_sibling (n_next_sibling (node s n))) s else s)
  else Some s.

Definition detach_from_parent (n : Z) (s : fs) : option fs :=
  s ← unhook (n_parent (node s n)) n s;
  Some (upd n (fun nd => set_next_sibling (-1) (set_parent (-1) nd)) s).

(** The frames of the array, freed. *)
Definition free_frames (l : list Z) (s : fs) : fs := fold_left (fun s p => free_phys p s) l s.

Definition release_node (n : Z) (s : fs) : fs :=
  let nd := node s n in
  let s := if nz (n_data nd) then kfree (n_data nd) s else s in
  let s := upd n (set_data 0 (n_block nd)) s in
  let s := if nz (n_frames nd)
           then upd n (set_frames 0 [] 0) (kfree (n_frames nd) (free_frames (take (Z.to_nat (n_nframes nd)) (n_farr nd)) s))
           else s in
  let s := upd n (fun nd => set_next_sibling (free_head s) (set_first_child (-1) (set_used false nd))) s in
  let s := set_free_head n s in
  if nz (node_count s) then set_node_count (node_count s - 1) s else s.

Definition free_node (n : Z) (s : fs) : option fs :=
  s ← detach_from_parent n s;
  Some (release_node n s).

Definition ramfs64_ref_node (n : Z) (s : fs) : fs :=
  if valid n s then upd n (fun nd => set_openers (n_openers nd + 1) nd) s else s.

Definition ramfs64_unref_node (n : Z) (s : fs) : fs :=
  if negb (valid n s) then s else
  let s := if 0 <? n_openers (node s n) then upd n (fun nd => set_openers (n_openers nd - 1) nd) s else s in
  if (n_openers (node s n) =? 0) && n_unlinked (node s n) then release_node n s else s.

Fixpoint child_loop (fuel : nat) (i : Z) (name : list Z) (s : fs) : option Z :=
  match fuel with
  | O => None
  | Datatypes.S fuel' =>
    if i <? 0 then Some (-1) else
    if bool_decide (n_name (node s i) = name) then Some i
    else child_loop fuel' (n_next_sibling (node s i)) name s
  end.

Definition find_child (dir : Z) (name : list Z) (s : fs) : option Z :=
  if negb (valid dir s) || negb (n_is_dir (node s dir)) then Some (-1)
  else child_loop (Datatypes.S NNODES) (n_first_child (node s dir)) name s.

(** ** Paths *)

Fixpoint drop_slashes (p : list Z) : list Z :=
  match p with c :: p' => if c =? slash then drop_slashes p' else p | [] => [] end.

Fixpoint component (p : list Z) : list Z * list Z :=
  match p with
  | [] => ([], [])
  | c :: p' => if c =? slash then ([], p) else let '(a, b) := component p' in (c :: a, b)
  end.

Fixpoint upto_nul (p : list Z) : list Z :=
  match p with c :: p' => if c =? 0 then [] else c :: upto_nul p' | [] => [] end.

(** [for (rest = p; *rest; rest++)]: [None] is the path too long. *)
Fixpoint copy_rest (first : bool) (out rest : list Z) : option (list Z) :=
  match rest with
  | [] => Some out
  | c :: r =>
    if RAMFS64_PATH_MAX <=? zlen out + 2 then None else
    let out := if first && negb (c =? slash) then out ++ [slash] else out in
    copy_rest false (out ++ [c]) r
  end.

Definition WALK_FAIL : option (Z * list Z) := Some (-1, []).

(** The node and the last component, if the parent was wanted. *)
Fixpoint walk_loop (fuel : nat) (want_parent follow_final : bool) (links node_ : Z) (p : list Z) (s : fs)
    : option (Z * list Z) :=
  match fuel with
  | O => None
  | Datatypes.S fuel' =>
    match drop_slashes p with
    | [] => if want_parent then WALK_FAIL else Some (node_, [])
    | p =>
      let '(comp, p) := component p in
      let is_last := bool_decide (drop_slashes p = []) in
      if is_last && want_parent then
        if (zlen comp =? 0) || (RAMFS64_NAME_MAX <=? zlen comp) then WALK_FAIL else Some (node_, comp)
      else if bool_decide (comp = [dot]) then walk_loop fuel' want_parent follow_final links node_ p s
      else if bool_decide (comp = [dot; dot]) then
        walk_loop fuel' want_parent follow_final links
          (if 0 <=? n_parent (node s node_) then n_parent (node s node_) else node_) p s
      else
        child ← find_child node_ comp s;
        if child <? 0 then WALK_FAIL else
        if n_is_link (node s child) && (negb is_last || follow_final) then
          let tlen := n_size (node s child) in
          if RAMFS64_LINK_MAX <? links + 1 then WALK_FAIL else
          if negb (nz (n_data (node s child))) || negb (nz tlen) then WALK_FAIL else
          if RAMFS64_PATH_MAX <=? tlen then WALK_FAIL else
          match copy_rest true (take (Z.to_nat tlen) (n_block (node s child))) p with
          | None => WALK_FAIL
          | Some out =>
            let out := upto_nul out in
            walk_loop fuel' want_parent follow_final (links + 1)
              (match out with c :: _ => if c =? slash then ROOT else node_ | [] => node_ end) out s
          end
        else walk_loop fuel' want_parent follow_final links child p s
    end
  end.

(** A component, or a link followed, each time round. *)
Definition walk_fuel (path : list Z) : nat :=
  Z.to_nat (zlen path + (RAMFS64_LINK_MAX + 1) * RAMFS64_PATH_MAX + 1).

Definition walk (path : list Z) (want_parent follow_final : bool) (s : fs) : option (Z * list Z) :=
  if negb (nz (table s)) then WALK_FAIL else
  match path with
  | c :: _ => if c =? slash then walk_loop (walk_fuel path) want_parent follow_final 0 ROOT path s else WALK_FAIL
  | [] => WALK_FAIL
  end.

Definition ramfs64_lookup (path : list Z) (s : fs) : option Z := fst <$> walk path false true s.
Definition ramfs64_lookup_nofollow (path : list Z) (s : fs) : option Z := fst <$> walk path false false s.

Definition ramfs64_create (path : list Z) (is_dir : bool) (s : fs) : option (Z * fs) :=
  '(parent, comp) ← walk path true true s;
  if parent <? 0 then Some (-1, s) else
  existing ← find_child parent comp s;
  if 0 <=? existing then Some (existing, s) else Some (alloc_node comp parent is_dir s).

(** ** Contents *)

(** [memcpy] of [len] bytes between the file's frames and a buffer; past the
    last frame it stops. *)
Fixpoint frames_put (fuel : nat) (nd : node64) (off done len : Z) (buf : list Z) (s : fs) : fs :=
  match fuel with
  | O => s
  | Datatypes.S fuel' =>
    if negb (done <? len) then s else
    let pg := u64 (off + done) / PAGE64_SIZE in
    let in_ := u64 (off + done) mod PAGE64_SIZE in
    if n_nframes nd <=? pg then s else
    let run := if len - done <? PAGE64_SIZE - in_ then len - done else PAGE64_SIZE - in_ in
    let f := zget (n_farr nd) pg in
    frames_put fuel' nd off (done + run) len buf (set_page f (zsplice in_ (zslice done run buf) (page s f)) s)
  end.

Fixpoint frames_get (fuel : nat) (nd : node64) (off done len : Z) (buf : list Z) (s : fs) : list Z :=
  match fuel with
  | O => buf
  | Datatypes.S fuel' =>
    if negb (done <? len) then buf else
    let pg := u64 (off + done) / PAGE64_SIZE in
    let in_ := u64 (off + done) mod PAGE64_SIZE in
    if n_nframes nd <=? pg then buf else
    let run := if len - done <? PAGE64_SIZE - in_ then len - done else PAGE64_SIZE - in_ in
    frames_get fuel' nd off (done + run) len (zsplice done (zslice in_ run (page s (zget (n_farr nd) pg))) buf) s
  end.

(** A page a turn, so no more turns than frames, and one to stop. *)
Definition copy_fuel (nd : node64) : nat := Datatypes.S (Z.to_nat (n_nframes nd)).

(** [while (cap < want) cap *= 2], on 64-bit words: sixty-four doublings end
    it or make it 0, from where it does not end. *)
Fixpoint grow_cap (fuel : nat) (cap want : Z) : option Z :=
  match fuel with
  | O => None
  | Datatypes.S fuel' => if cap <? want then grow_cap fuel' (u64 (cap * 2)) want else Some cap
  end.

(** [for (got = nframes; got < need; got++)]: each frame zeroed and entered;
    when there is none the ones just taken go back. *)
Fixpoint take_frames (fuel : nat) (i got need : Z) (s : fs) : bool * fs :=
  match fuel with
  | O => (true, s)
  | Datatypes.S fuel' =>
    if negb (got <? need) then (true, s) else
    let '(f, a) := alloc_frame (frames s) in
    let s := set_alloc a s in
    if f =? 0 then
      let nd := node s i in
      (false, free_frames (zslice (n_nframes nd) (got - n_nframes nd) (n_farr nd)) s)
    else
      let s := set_page f (replicate (Z.to_nat PAGE64_SIZE) 0) s in
      let s := upd i (fun nd => set_frames (n_frames nd) (zset (n_farr nd) got f) (n_nframes nd) nd) s in
      take_frames fuel' i (got + 1) need s
  end.

Definition make_framed (i bytes : Z) (s : fs) : option (bool * fs) :=
  let need := u64 (bytes + PAGE64_SIZE - 1) / PAGE64_SIZE in
  let need := if nz need then need else 1 in
  let nd := node s i in
  if nz (n_frames nd) && (need <=? n_nframes nd) then Some (true, s) else
  r ← (if zlen (n_farr nd) <? need then
         cap ← grow_cap 65 (if nz (zlen (n_farr nd)) then zlen (n_farr nd) else 16) need;
         let '(fresh, s) := kmalloc (u64 (cap * 8)) s in
         if fresh =? 0 then Some (false, s) else
         let arr := take (Z.to_nat (n_nframes nd)) (n_farr nd) ++ replicate (Z.to_nat (cap - n_nframes nd)) 0 in
         let s := if nz (n_frames nd) then kfree (n_frames nd) s else s in
         Some (true, upd i (set_frames fresh arr (n_nframes nd)) s)
       else Some (true, s));
  let '(ok, s) := (r : bool * fs) in
  if negb ok then Some (false, s) else
  let '(ok, s) := take_frames (Z.to_nat (need - n_nframes nd)) i (n_nframes nd) need s in
  if negb ok then Some (false, s) else
  let s := upd i (fun nd => set_frames (n_frames nd) (n_farr nd) need nd) s in
  let nd := node s i in
  Some (true,
    if nz (n_data nd) then
      let s := frames_put (copy_fuel nd) nd 0 0 (n_size nd) (n_block nd) s in
      upd i (set_data 0 []) (kfree (n_data nd) s)
    else s).

Definition ensure_capacity (i want : Z) (s : fs) : option (bool * fs) :=
  let nd := node s i in
  let capacity := zlen (n_block nd) in
  if want <=? capacity then Some (true, s) else
  cap ← grow_cap 65 (if nz capacity then capacity else 64) want;
  let '(fresh, s) := kmalloc cap s in
  if fresh =? 0 then Some (false, s) else
  let block := take (Z.to_nat (n_size nd)) (n_block nd) ++ replicate (Z.to_nat (cap - n_size nd)) 0 in
  let s := if nz (n_data nd) then kfree (n_data nd) s else s in
  Some (true, upd i (set_data fresh block) s).

(** The result, and the caller's buffer. *)
Definition ramfs64_read (i offset : Z) (buf : list Z) (len : Z) (s : fs) : option (Z * list Z) :=
  if negb (valid i s) then Some (-9, buf) else
  let nd := node s i in
  if n_is_dir nd then Some (-21, buf) else
  if n_size nd <=? offset then Some (0, buf) else
  let len := if n_size nd <? u64 (offset + len) then n_size nd - offset else len in
  if nz (n_frames nd) then Some (len, frames_get (copy_fuel nd) nd offset 0 len buf s)
  else if zlen (n_block nd) <? offset + len then None
  else Some (len, zsplice 0 (zslice offset len (n_block nd)) buf).

Definition ramfs64_write (i offset : Z) (buf : list Z) (s : fs) : option (Z * fs) :=
  let len := zlen buf in
  if negb (valid i s) then Some (-9, s) else
  if n_is_dir (node s i) then Some (-21, s) else
  r ← (if negb (nz (n_frames (node s i))) && (u64 (offset + len) <=? RAMFS64_CONTIGUOUS_MAX)
       then ensure_capacity i (u64 (offset + len)) s else Some (false, s));
  let '(flat, s) := (r : bool * fs) in
  r ← (if flat then
         if zlen (n_block (node s i)) <? offset + len then None
         else Some (true, upd i (fun nd => set_data (n_data nd) (zsplice offset buf (n_block nd)) nd) s)
       else
         r ← make_framed i (u64 (offset + len)) s;
         let '(ok, s) := (r : bool * fs) in
         if negb ok then Some (false, s) else
         let nd := node s i in
         Some (true, frames_put (copy_fuel nd) nd offset 0 len buf s));
  let '(ok, s) := (r : bool * fs) in
  if negb ok then Some (-12, s) else
  Some (len, if n_size (node s i) <? u64 (offset + len) then upd i (set_size (u64 (offset + len))) s else s).

Definition ramfs64_truncate (i : Z) (s : fs) : Z * fs :=
  if negb (valid i s) then (-9, s) else (0, upd i (set_size 0) s).

Definition ramfs64_resize (i len : Z) (s : fs) : option (Z * fs) :=
  if negb (valid i s) then Some (-9, s) else
  let nd := node s i in
  if n_is_dir nd then Some (-21, s) else
  r ← (if n_size nd <? len then
         if nz (n_frames nd) then make_framed i len s else
         r ← ensure_capacity i len s;
         let '(ok, s) := (r : bool * fs) in
         if negb ok then Some (false, s) else
         Some (true, upd i (fun nd => set_data (n_data nd)
           (zsplice (n_size nd) (replicate (Z.to_nat (len - n_size nd)) 0) (n_block nd)) nd) s)
       else Some (true, s));
  let '(ok, s) := (r : bool * fs) in
  if negb ok then Some (-28, s) else Some (0, upd i (set_size len) s).

(** The array of frames, and how many; 0 if there is none to have. *)
Definition ramfs64_frames (i bytes : Z) (s : fs) : option (Z * list Z * fs) :=
  if negb (valid i s) || n_is_dir (node s i) then Some (0, [], s) else
  let bytes := if bytes <? n_size (node s i) then n_size (node s i) else bytes in
  r ← make_framed i bytes s;
  let '(ok, s) := (r : bool * fs) in
  if negb ok then Some (0, [], s) else
  let nd := node s i in Some (n_frames nd, take (Z.to_nat (n_nframes nd)) (n_farr nd), s).

(** ** Names *)

Definition ramfs64_symlink (path target : list Z) (s : fs) : option (Z * fs) :=
  if bool_decide (target = []) then Some (-22, s) else
  let tlen := zlen target in
  if RAMFS64_PATH_MAX <=? tlen then Some (-36, s) else
  '(parent, comp) ← walk path true true s;
  if parent <? 0 then Some (-2, s) else
  existing ← find_child parent comp s;
  if 0 <=? existing then Some (-17, s) else
  let '(n, s) := alloc_node comp parent false s in
  if n <? 0 then Some (-28, s) else
  let s := upd n (set_is_link true) s in
  r ← ensure_capacity n (tlen + 1) s;
  let '(ok, s) := (r : bool * fs) in
  if negb ok then s ← free_node n s; Some (-12, s) else
  let s := upd n (fun nd => set_size tlen (set_data (n_data nd) (zsplice 0 (target ++ [0]) (n_block nd)) nd)) s in
  Some (n, s).

Definition ramfs64_readlink (n : Z) (s : fs) : option (list Z) :=
  if negb (valid n s) || negb (n_is_link (node s n)) then None else
  if nz (n_data (node s n)) then Some (upto_nul (n_block (node s n))) else None.
Definition ramfs64_is_link (n : Z) (s : fs) : bool := valid n s && n_is_link (node s n).

(** The chain of nodes up to the root, nearest last; [None] is deeper than
    can be described. *)
Fixpoint path_chain (depth : nat) (n : Z) (chain : list Z) (s : fs) : option (list Z) :=
  if negb (0 <? n) then Some chain else
  match depth with
  | O => None
  | Datatypes.S depth' => path_chain depth' (n_parent (node s n)) (n :: chain) s
  end.

Fixpoint path_emit (chain : list Z) (size : Z) (out : list Z) (s : fs) : option (list Z) :=
  match chain with
  | [] => Some out
  | n :: chain' =>
    let nm := n_name (node s n) in
    if size <? zlen out + zlen nm + 2 then None else path_emit chain' size (out ++ slash :: nm) s
  end.

Definition ramfs64_path (n size : Z) (s : fs) : option (list Z) :=
  if negb (valid n s) || (size <? 2) then None else
  match path_chain 64 n [] s with
  | None => None
  | Some [] => Some [slash]
  | Some chain => path_emit chain size [] s
  end.

Fixpoint mkdirp_loop (fuel : nat) (p partial : list Z) (n : Z) (s : fs) : option (Z * fs) :=
  match fuel with
  | O => None
  | Datatypes.S fuel' =>
    match drop_slashes p with
    | [] => Some (n, s)
    | p =>
      let '(comp, p) := component p in
      if RAMFS64_PATH_MAX <=? zlen partial + zlen comp + 1 then Some (-1, s) else
      let partial := (if 1 <? zlen partial then partial ++ [slash] else partial) ++ comp in
      n ← ramfs64_lookup partial s;
      r ← (if n <? 0 then ramfs64_create partial true s else Some (n, s));
      let '(n, s) := (r : Z * fs) in
      if n <? 0 then Some (-1, s) else mkdirp_loop fuel' p partial n s
    end
  end.

Definition ramfs64_mkdirp (path : list Z) (s : fs) : option (Z * fs) :=
  match path with
  | c :: _ => if c =? slash then mkdirp_loop (Datatypes.S (Datatypes.length path)) path [slash] ROOT s else Some (-1, s)
  | [] => Some (-1, s)
  end.

(** [for (a = dst_parent; a >= 0; a = nodes[a].parent)]: is [src] met? *)
Fixpoint above (fuel : nat) (a src : Z) (s : fs) : option bool :=
  match fuel with
  | O => None
  | Datatypes.S fuel' =>
    if negb (0 <=? a) then Some false else
    if a =? src then Some true else
    if a =? ROOT then Some false else above fuel' (n_parent (node s a)) src s
  end.

Definition ramfs64_rename (oldpath newpath : list Z) (s : fs) : option (Z * fs) :=
  src ← ramfs64_lookup_nofollow oldpath s;
  if src <? 0 then Some (-2, s) else
  if src =? ROOT then Some (-16, s) else
  '(dst_parent, comp) ← walk newpath true true s;
  if dst_parent <? 0 then Some (-2, s) else
  existing ← find_child dst_parent comp s;
  if existing =? src then Some (0, s) else
  r ← (if 0 <=? existing then
         if negb (Bool.eqb (n_is_dir (node s existing)) (n_is_dir (node s src)))
         then Some (Some (if n_is_dir (node s existing) then -21 else -20), s)
         else if n_is_dir (node s existing) && (0 <=? n_first_child (node s existing)) then Some (Some (-39), s)
         else
           s ← detach_from_parent existing s;
           let s := upd existing (set_unlinked true) s in
           Some (None, if n_openers (node s existing) =? 0 then release_node existing s else s)
       else Some (None, s));
  let '(err, s) := (r : option Z * fs) in
  match err with Some e => Some (e, s) | None =>
  cyc ← (if n_is_dir (node s src) then above (Datatypes.S NNODES) dst_parent src s else Some false);
  if (cyc : bool) then Some (-22, s) else
  s ← unhook (n_parent (node s src)) src s;
  let s := upd src (fun nd => set_parent dst_parent (set_name (cut RAMFS64_NAME_MAX comp) nd)) s in
  let s := upd src (set_next_sibling (n_first_child (node s dst_parent))) s in
  Some (0, upd dst_parent (set_first_child src) s)
  end.

Definition has_children (dir : Z) (s : fs) : bool := valid dir s && (0 <=? n_first_child (node s dir)).

Definition ramfs64_unlink (path : list Z) (s : fs) : option (Z * fs) :=
  i ← ramfs64_lookup_nofollow path s;
  if i <? 0 then Some (-2, s) else
  if n_is_dir (node s i) then Some (-21, s) else
  s ← detach_from_parent i s;
  let s := upd i (set_unlinked true) s in
  Some (0, if n_openers (node s i) =? 0 then release_node i s else s).

Definition ramfs64_rmdir (path : list Z) (s : fs) : option (Z * fs) :=
  i ← ramfs64_lookup_nofollow path s;
  if i <? 0 then Some (-2, s) else
  if negb (n_is_dir (node s i)) then Some (-20, s) else
  if i =? ROOT then Some (-16, s) else
  if has_children i s then Some (-39, s) else
  s ← free_node i s;
  Some (0, s).

Fixpoint nth_child (fuel : nat) (i index : Z) (s : fs) : option Z :=
  match fuel with
  | O => None
  | Datatypes.S fuel' =>
    if i <? 0 then Some (-1) else if index =? 0 then Some i else nth_child fuel' (n_next_sibling (node s i)) (index - 1) s
  end.

(** The child, -1 for no more. *)
Definition ramfs64_child (dir index : Z) (s : fs) : option Z :=
  if negb (valid dir s) then Some (-1) else
  if negb (n_is_dir (node s dir)) then Some (-1) else
  nth_child (Datatypes.S NNODES) (n_first_child (node s dir)) index s.

Definition ramfs64_name (n : Z) (s : fs) : option (list Z) := if valid n s then Some (n_name (node s n)) else None.
Definition ramfs64_data (n : Z) (s : fs) : Z := if valid n s then n_data (node s n) else 0.
Definition ramfs64_size (n : Z) (s : fs) : Z := if valid n s then n_size (node s n) else 0.
Definition ramfs64_mode (n : Z) (s : fs) : Z := if valid n s then n_mode (node s n) else 0.
Definition ramfs64_set_mode (n mode : Z) (s : fs) : fs :=
  if valid n s then upd n (set_mode (Z.land mode 0xfff)) s else s.
Definition ramfs64_is_dir (n : Z) (s : fs) : bool := valid n s && n_is_dir (node s n).
Definition ramfs64_parent (n : Z) (s : fs) : Z := if valid n s then n_parent (node s n) else -1.
Definition ramfs64_set_device (n device : Z) (s : fs) : bool * fs :=
  if negb (valid n s) || n_is_dir (node s n) then (false, s) else (true, upd n (set_device device) s).
Definition ramfs64_device (n : Z) (s : fs) : Z := if valid n s then n_device (node s n) else RAMFS64_DEV_NONE.
Definition ramfs64_count (s : fs) : Z := node_count s.
Definition ramfs64_seed_failures (s : fs) : Z := seed_failures s.

(** ** Initialisation *)

(** What the nodes of an earlier file system held, given back. *)
Definition give_back (i : Z) (s : fs) : fs :=
  let nd := node s i in
  if negb (n_used nd) then s else
  let s := if nz (n_data nd) then kfree (n_data nd) s else s in
  if nz (n_frames nd)
  then kfree (n_frames nd) (free_frames (take (Z.to_nat (n_nframes nd)) (n_farr nd)) s) else s.

Definition clear_node (i : Z) (s : fs) : fs :=
  upd i (fun nd => set_next_sibling (if i + 1 <? RAMFS64_MAX_NODES then i + 1 else -1)
    (set_first_child (-1) (set_frames 0 [] 0 (set_size 0 (set_data 0 [] (set_used false nd)))))) s.

Definition make_device (path : list Z) (device : Z) (s : fs) : option fs :=
  '(n, s) ← ramfs64_create path false s;
  Some (if 0 <=? n then ramfs64_set_mode n 0x1b6 (snd (ramfs64_set_device n device s)) else s).

Definition make_file (path contents : list Z) (s : fs) : option fs :=
  '(n, s) ← ramfs64_create path false s;
  if 0 <=? n then '(_, s) ← ramfs64_write n 0 contents s; Some s else Some s.

Definition mkdirp_ (path : list Z) (s : fs) : option fs := '(_, s) ← ramfs64_mkdirp path s; Some s.

Definition ramfs64_init (s : fs) : option fs :=
  let '(ok, s) :=
    if nz (table s) then (true, for_up NNODES 0 give_back s)
    else let '(p, s) := kmalloc (NODE64_SIZE * RAMFS64_MAX_NODES) s in
         (nz p, mkFs p (nodes s) (free_head s) (node_count s) (seed_failures s) (heap s) (frames s) (page s)) in
  if negb ok then Some s else
  let s := for_up NNODES 0 clear_node s in
  let s := set_node_count 0 (set_free_head 0 s) in
  let '(_, s) := alloc_node (bytes "/") (-1) true s in
  s ← mkdirp_ (bytes "/tmp") s;
  s ← mkdirp_ (bytes "/root") s;
  s ← mkdirp_ (bytes "/etc") s;
  s ← mkdirp_ (bytes "/dev") s;
  s ← make_device (bytes "/dev/null") RAMFS64_DEV_NULL s;
  s ← make_device (bytes "/dev/console") RAMFS64_DEV_CON s;
  s ← make_file (bytes "/etc/passwd") (bytes "root:x:0:0:root:/root:/bin/sh" ++ [10]) s;
  make_file (bytes "/etc/nsswitch.conf")
    (bytes "passwd: files" ++ 10 :: bytes "group: files" ++ 10 :: bytes "shadow: files" ++ 10 :: bytes "hosts: files" ++ [10]) s.

(** The index of the last slash, -1 if there is none. *)
Fixpoint last_slash (p : list Z) (c cut : Z) : Z :=
  match p with [] => cut | x :: p' => last_slash p' (c + 1) (if x =? slash then c else cut) end.

(** One file of the archive; the archive itself is a list. *)
Definition seed_one (s : fs) (f : list Z * list Z) : option fs :=
  let '(name, data) := f in
  let path := slash :: cut (RAMFS64_PATH_MAX - 1) name in
  let at_ := last_slash path 0 (-1) in
  s ← (if 0 <? at_ then mkdirp_ (cut (at_ + 1) path) s else Some s);
  '(n, s) ← ramfs64_create path false s;
  if n <? 0 then Some (set_seed_failures (seed_failures s + 1) s) else
  '(w, s) ← ramfs64_write n 0 data s;
  Some (if w =? zlen data then s else set_seed_failures (seed_failures s + 1) s).

Definition ramfs64_seed_from_initrd (files : list (list Z * list Z)) (s : fs) : option fs := fold_opt seed_one s files.
End ramfs64.

Arguments fs : clear implicits.
