(* ===== verification/Ramtree.v ===== *)
(** * The tree of the RAM file system ([kernel/ramfs64.c])

    The node table is a tree: [tree_ok] says that the child lists threaded
    through the table hold exactly the nodes whose parent they belong to,
    each name once in a directory, that the free list holds the unused nodes,
    and that every node with a name hangs below the root.  Every operation
    on names keeps it so, and does to the names what it says. *)

From S2P Require Import Prelude FrameAlloc Ramfs64.
From S2P Require Pipe64.

(** ** Lists threaded through the table *)

(** The list that starts at [x]; a negative index ends it. *)
Fixpoint seg (nx : Z -> Z) (x : Z) (L : list Z) : Prop :=
  match L with
  | [] => x < 0
  | y :: L' => x = y /\ 0 <= y /\ seg nx (nx y) L'
  end.

Lemma seg_ext nx nx' x L : (forall y, y ∈ L -> nx' y = nx y) -> seg nx x L -> seg nx' x L.
Proof.
  revert x. induction L as [|y L IH]; intros x Heq; simpl; [done|]. intros (-> & Hy & Hs).
  split; [done|]. split; [done|]. rewrite Heq by (apply elem_of_cons; by left). apply IH; [|done].
  intros z Hz. apply Heq. apply elem_of_cons. by right.
Qed.

Lemma seg_nil nx x : seg nx x [] <-> x < 0.
Proof. done. Qed.

Lemma seg_cons nx x L : 0 <= x -> seg nx x L -> exists L', L = x :: L' /\ seg nx (nx x) L'.
Proof. destruct L as [|y L]; simpl; [lia|]. intros _ (-> & _ & H). eauto. Qed.

Section tree.
  Context {H A : Type} `{!Pipe64.KernelHeap H, !FrameAllocator A}.
  Implicit Types s : fs H A.

Definition sized s : Prop := zlen (nodes s) = RAMFS64_MAX_NODES.
Definition rng (i : Z) : Prop := 0 <= i < RAMFS64_MAX_NODES.

Lemma in_range_true i : in_range i = true <-> rng i.
Proof. unfold in_range, rng. rewrite andb_true_iff, Z.leb_le, Z.ltb_lt. done. Qed.

Lemma upd_sized i f s : sized s -> sized (upd i f s).
Proof. unfold sized, upd. cbn [nodes set_nodes]. by rewrite zlen_zset. Qed.

Lemma node_upd i f s j : sized s -> rng i -> rng j ->
  node (upd i f s) j = if j =? i then f (node s i) else node s j.
Proof.
  unfold sized, rng, node, upd. intros Hs Hi Hj. cbn [nodes set_nodes].
  destruct (Z.eqb_spec j i) as [->|Hne]; [by rewrite zget_zset_eq by lia|].
  by rewrite zget_zset_ne by lia.
Qed.

Definition nx s (i : Z) : Z := n_next_sibling (node s i).
Definition fc s (i : Z) : Z := n_first_child (node s i).
Definition used s (i : Z) : bool := n_used (node s i).
Definition par s (i : Z) : Z := n_parent (node s i).

(** The node without its two links. *)
Definition body (nd : node64) : node64 := set_first_child 0 (set_next_sibling 0 nd).

(** Only links changed. *)
Definition same_bodies s s' : Prop := forall j, rng j -> body (node s' j) = body (node s j).

(** What [body] keeps. *)
Lemma body_eq a b : body a = body b ->
  n_name a = n_name b /\ n_parent a = n_parent b /\ n_is_dir a = n_is_dir b /\ n_is_link a = n_is_link b /\
  n_openers a = n_openers b /\ n_unlinked a = n_unlinked b /\ n_used a = n_used b.
Proof.
  intros E. pose proof (f_equal n_name E). pose proof (f_equal n_parent E). pose proof (f_equal n_is_dir E).
  pose proof (f_equal n_is_link E). pose proof (f_equal n_openers E). pose proof (f_equal n_unlinked E).
  pose proof (f_equal n_used E). done.
Qed.

(** ** The invariant *)

(** The lists: the free list and the children of each node in use. *)
Record lists_ok s (K : Z -> list Z) (Fl : list Z) : Prop := {
  lo_free : seg (nx s) (free_head s) Fl;
  lo_free_nodup : NoDup Fl;
  lo_kids d : rng d -> used s d = true -> seg (nx s) (fc s d) (K d);
  lo_kids_nodup d : rng d -> used s d = true -> NoDup (K d)
}.

(** The way up from [c] has [k] steps. *)
Fixpoint climb s (k : nat) (c : Z) : Prop :=
  match k with
  | O => par s c = -1
  | S k' => par s c <> -1 /\ climb s k' (par s c)
  end.

(** [x], if it is a node, may have lost its name. *)
Record tree_but (x : Z) s (K : Z -> list Z) (Fl : list Z) : Prop := {
  tr_table : nz (table s) = true;
  tr_sized : sized s;
  tr_lists : lists_ok s K Fl;
  tr_free i : i ∈ Fl <-> rng i /\ used s i = false;
  tr_kid d c : rng d -> used s d = true -> c ∈ K d <-> rng c /\ used s c = true /\ par s c = d;
  tr_name d c c' : rng d -> used s d = true -> c ∈ K d -> c' ∈ K d -> n_name (node s c) = n_name (node s c') -> c = c';
  tr_dir d : rng d -> used s d = true -> n_is_dir (node s d) = false -> K d = [];
  tr_parent c : rng c -> used s c = true -> par s c = -1 \/ rng (par s c) /\ used s (par s c) = true;
  tr_orphan c : rng c -> used s c = true -> par s c = -1 -> c = ROOT \/ c = x \/ n_unlinked (node s c) = true /\ K c = [];
  tr_linked c : rng c -> used s c = true -> par s c <> -1 -> n_unlinked (node s c) = false;
  tr_root : used s ROOT = true /\ n_is_dir (node s ROOT) = true /\ par s ROOT = -1 /\ n_unlinked (node s ROOT) = false;
  tr_climb c : rng c -> used s c = true -> exists k, climb s k c;
  tr_count : node_count s + zlen Fl = RAMFS64_MAX_NODES
}.

Abbreviation tree_ok := (tree_but (-1)).

Definition fs_ok s : Prop := exists K Fl, tree_ok s K Fl.

Arguments tr_table {x}.
Arguments tr_sized {x}.
Arguments tr_lists {x}.
Arguments tr_free {x}.
Arguments tr_kid {x}.
Arguments tr_name {x}.
Arguments tr_dir {x}.
Arguments tr_parent {x}.
Arguments tr_orphan {x}.
Arguments tr_linked {x}.
Arguments tr_root {x}.
Arguments tr_climb {x}.
Arguments tr_count {x}.

Lemma root_rng : rng ROOT.
Proof. done. Qed.

Lemma kid_rng e s K Fl d c : tree_but e s K Fl -> rng d -> used s d = true -> c ∈ K d ->
  rng c /\ used s c = true /\ par s c = d.
Proof. intros Ht Hd Hu. apply (tr_kid _ _ _ Ht d c Hd Hu). Qed.

(** A node is in one list only. *)
Lemma kids_disjoint e s K Fl d d' c : tree_but e s K Fl -> rng d -> used s d = true -> rng d' -> used s d' = true ->
  c ∈ K d -> c ∈ K d' -> d = d'.
Proof.
  intros Ht Hd Hu Hd' Hu' Hc Hc'. destruct (kid_rng _ s K Fl d c Ht Hd Hu Hc) as (_ & _ & <-).
  by destruct (kid_rng _ s K Fl d' c Ht Hd' Hu' Hc') as (_ & _ & <-).
Qed.

Lemma kid_not_free e s K Fl d c : tree_but e s K Fl -> rng d -> used s d = true -> c ∈ K d -> c ∉ Fl.
Proof.
  intros Ht Hd Hu Hc Hf. destruct (kid_rng _ s K Fl d c Ht Hd Hu Hc) as (_ & Hc' & _).
  apply (tr_free _ _ _ Ht) in Hf as [_ Hf]. congruence.
Qed.

(** Lists fit the table. *)
Lemma NoDup_rng_length (L : list Z) : NoDup L -> (forall x, x ∈ L -> rng x) -> (length L <= NNODES)%nat.
Proof.
  intros Hnd Hr. replace NNODES with (length (seqZ 0 RAMFS64_MAX_NODES)) by (by rewrite length_seqZ).
  apply submseteq_length, NoDup_submseteq; [done|]. intros x Hx%Hr. apply elem_of_seqZ. unfold rng in Hx. lia.
Qed.

Lemma kids_length e s K Fl d : tree_but e s K Fl -> rng d -> used s d = true -> (length (K d) <= NNODES)%nat.
Proof.
  intros Ht Hd Hu. apply NoDup_rng_length; [by apply (lo_kids_nodup _ _ _ (tr_lists _ _ _ Ht))|].
  intros x Hx. by apply (kid_rng _ s K Fl d x Ht Hd Hu).
Qed.

(** ** Looking a name up *)

Lemma child_loop_spec fuel x L name s : seg (nx s) x L -> (length L < fuel)%nat ->
  (exists c, child_loop fuel x name s = Some c /\ c ∈ L /\ n_name (node s c) = name) \/
  (child_loop fuel x name s = Some (-1) /\ forall c, c ∈ L -> n_name (node s c) <> name).
Proof.
  revert fuel x. induction L as [|y L IH]; intros fuel x Hs Hf; (destruct fuel as [|fuel]; [simpl in Hf; lia|]); simpl in Hs |- *.
  - right. rewrite (proj2 (Z.ltb_lt x 0)) by done. split; [done|]. by intros c ?%elem_of_nil.
  - destruct Hs as (-> & Hy & Hs). rewrite (proj2 (Z.ltb_ge y 0)) by done. case_bool_decide as Hn.
    + left. exists y. split; [done|]. split; [apply elem_of_cons; by left|done].
    + simpl in Hf. destruct (IH fuel (nx s y) Hs ltac:(lia)) as [(c & Hc & Hin & He)|[Hc Hno]].
      * left. exists c. split; [done|]. split; [apply elem_of_cons; by right|done].
      * right. split; [done|]. intros c [->|Hin]%elem_of_cons; [done|by apply Hno].
Qed.

(** [find_child] finds the entry of that name, and there is at most one. *)
Lemma find_child_spec e s K Fl d name : tree_but e s K Fl -> rng d -> used s d = true ->
  (exists c, find_child d name s = Some c /\ c ∈ K d /\ n_name (node s c) = name) \/
  (find_child d name s = Some (-1) /\ forall c, c ∈ K d -> n_name (node s c) <> name).
Proof.
  intros Ht Hd Hu. unfold find_child, valid. rewrite (tr_table _ _ _ Ht), (proj2 (in_range_true d) Hd).
  change (n_used (node s d)) with (used s d). rewrite Hu. cbn [andb negb orb].
  destruct (n_is_dir (node s d)) eqn:Hdir; cbn [negb].
  - apply child_loop_spec; [by apply (lo_kids _ _ _ (tr_lists _ _ _ Ht))|].
    pose proof (kids_length _ s K Fl d Ht Hd Hu). lia.
  - right. split; [done|]. rewrite (tr_dir _ _ _ Ht d Hd Hu Hdir). by intros c ?%elem_of_nil.
Qed.

Lemma find_child_total e s K Fl d name : tree_but e s K Fl -> rng d -> used s d = true ->
  exists c, find_child d name s = Some c /\ (c = -1 \/ c ∈ K d).
Proof. intros Ht Hd Hu. destruct (find_child_spec _ s K Fl d name Ht Hd Hu) as [(c & ? & ? & _)|[? _]]; eauto. Qed.

Lemma find_child_unique e s K Fl d c : tree_but e s K Fl -> rng d -> used s d = true -> c ∈ K d ->
  find_child d (n_name (node s c)) s = Some c.
Proof.
  intros Ht Hd Hu Hc. destruct (find_child_spec _ s K Fl d (n_name (node s c)) Ht Hd Hu) as [(c' & -> & Hin & He)|[_ Hno]].
  - f_equal. by apply (tr_name _ _ _ Ht d).
  - by apply Hno in Hc.
Qed.

(** ** The way up *)

Lemma climb_ext x s s' K Fl k c : tree_but x s K Fl -> (forall j, rng j -> used s j = true -> par s' j = par s j) ->
  rng c -> used s c = true -> climb s k c -> climb s' k c.
Proof.
  intros Ht Hp. revert c. induction k as [|k IH]; intros c Hc Hu; cbn [climb]; rewrite (Hp c Hc Hu); [done|].
  intros [Hne Hk]. split; [done|]. destruct (tr_parent _ _ _ Ht c Hc Hu) as [|[Hpr Hpu]]; [done|]. by apply IH.
Qed.

Lemma climb_det s k k' c : climb s k c -> climb s k' c -> k = k'.
Proof.
  revert k' c. induction k as [|k IH]; intros [|k'] c; cbn [climb]; [done|by intros ? [? _]|by intros [? _] ?|].
  intros [_ H1] [_ H2]. f_equal. by apply (IH k' (par s c)).
Qed.

(** ** A new node *)

Definition kset (K : Z -> list Z) (d : Z) (l : list Z) : Z -> list Z := fun x => if x =? d then l else K x.

Lemma kset_eq K d l : kset K d l d = l.
Proof. unfold kset. by rewrite Z.eqb_refl. Qed.
Lemma kset_ne K d l x : x <> d -> kset K d l x = K x.
Proof. intros Hne. unfold kset. by rewrite (proj2 (Z.eqb_neq x d) Hne). Qed.

Definition new_node (name : list Z) (parent : Z) (dir : bool) : node64 :=
  mkNode (cut RAMFS64_NAME_MAX name) parent 0 [] 0 dir false (if dir then 0x1ed else 0x1a4) 0 [] 0 0 false
    RAMFS64_DEV_NONE true (-1) (-1).

(** The storage the nodes and the allocators hold. *)
Definition same_store s s' : Prop := heap s' = heap s /\ frames s' = frames s /\ page s' = page s /\ table s' = table s.

Lemma alloc_node_run s i Fl K name p dir :
  tree_ok s K (i :: Fl) -> rng p -> used s p = true ->
  exists s', alloc_node name p dir s = (i, s') /\ sized s' /\ same_store s s' /\ free_head s' = nx s i /\ i <> p /\
    node_count s' = node_count s + 1 /\
    forall j, rng j -> node s' j = if j =? p then set_first_child i (node s p)
                                  else if j =? i then set_next_sibling (fc s p) (new_node name p dir) else node s j.
Proof.
  intros Ht Hp Hup. pose proof (lo_free _ _ _ (tr_lists _ _ _ Ht)) as (Hfh & Hi0 & _).
  destruct (proj1 (tr_free _ _ _ Ht i) ltac:(apply elem_of_cons; by left)) as [Hi Hui].
  assert (i <> p) as Hne by (intros ->; congruence).
  unfold alloc_node. rewrite (tr_table _ _ _ Ht), Hfh, (proj2 (Z.ltb_ge i 0)) by done. cbn [negb orb].
  rewrite (proj2 (in_range_true p) Hp). eexists. split; [reflexivity|].
  set (s1 := set_free_head (n_next_sibling (node s i)) s). set (s2 := upd i (fun _ => new_node name p dir) s1).
  assert (sized s1) as Hs1 by apply Ht. assert (sized s2) as Hs2 by (by apply upd_sized).
  split; [by apply (upd_sized p), upd_sized|]. do 4 (split; [done|]).
  intros j Hj. change (node (set_node_count ?n ?x) j) with (node x j).
  change (upd i (fun _ => mkNode (cut RAMFS64_NAME_MAX name) p 0 [] 0 dir false (if dir then 0x1ed else 0x1a4) 0 [] 0 0 false
    RAMFS64_DEV_NONE true (-1) (-1)) s1) with s2.
  rewrite node_upd by (done || by apply upd_sized). rewrite !node_upd by done.
  assert (node s2 p = node s p) as Hp2 by (unfold s2; rewrite node_upd by done; by rewrite (proj2 (Z.eqb_neq p i)) by congruence).
  assert (node s2 i = new_node name p dir) as Hi2 by (unfold s2; rewrite node_upd by done; by rewrite Z.eqb_refl).
  rewrite (proj2 (Z.eqb_neq p i)), Hp2, Hi2 by congruence.
  destruct (Z.eqb_spec j p) as [->|]; [done|]. destruct (Z.eqb_spec j i) as [->|]; [done|].
  unfold s2. rewrite node_upd by done. by rewrite (proj2 (Z.eqb_neq j i)).
Qed.

Lemma alloc_node_ok s i Fl K name p dir :
  tree_ok s K (i :: Fl) -> rng p -> used s p = true -> n_is_dir (node s p) = true -> n_unlinked (node s p) = false ->
  (forall c, c ∈ K p -> n_name (node s c) <> cut RAMFS64_NAME_MAX name) ->
  exists s', alloc_node name p dir s = (i, s') /\ tree_ok s' (kset (kset K i []) p (i :: K p)) Fl /\ same_store s s' /\
    used s i = false /\ rng i /\ body (node s' i) = body (new_node name p dir) /\
    forall j, rng j -> j <> i -> body (node s' j) = body (node s j).
Proof.
  intros Ht Hp Hup Hdir Hpl Hfresh.
  destruct (alloc_node_run s i Fl K name p dir Ht Hp Hup) as (s' & Hr & Hs' & Hst & Hfh & Hne & Hcnt & Hn).
  exists s'. split; [done|]. pose proof (tr_lists _ _ _ Ht) as Hl.
  destruct (proj1 (tr_free _ _ _ Ht i) ltac:(apply elem_of_cons; by left)) as [Hi Hui].
  pose proof (lo_free_nodup _ _ _ Hl) as [HiFl HndFl]%NoDup_cons.
  assert (forall j, rng j -> j <> i -> body (node s' j) = body (node s j)) as Hb.
  { intros j Hj Hji. rewrite Hn by done. rewrite (proj2 (Z.eqb_neq j i) Hji).
    by destruct (Z.eqb_spec j p) as [->|]. }
  assert (body (node s' i) = body (new_node name p dir)) as Hbi.
  { rewrite Hn by done. by rewrite (proj2 (Z.eqb_neq i p) Hne), Z.eqb_refl. }
  assert (forall j, rng j -> used s' j = if j =? i then true else used s j) as Hus.
  { intros j Hj. unfold used. destruct (Z.eqb_spec j i) as [->|Hji].
    - by apply body_eq in Hbi as (_ & _ & _ & _ & _ & _ & ->).
    - by apply (Hb j Hj) in Hji as (_ & _ & _ & _ & _ & _ & ->)%body_eq. }
  assert (forall j, rng j -> par s' j = if j =? i then p else par s j) as Hpar.
  { intros j Hj. unfold par. destruct (Z.eqb_spec j i) as [->|Hji].
    - by apply body_eq in Hbi as (_ & -> & _).
    - by apply (Hb j Hj) in Hji as (_ & -> & _)%body_eq. }
  assert (forall j, rng j -> nx s' j = if j =? i then fc s p else nx s j) as Hnx.
  { intros j Hj. unfold nx. rewrite Hn by done. destruct (Z.eqb_spec j p) as [->|].
    - by rewrite (proj2 (Z.eqb_neq p i)) by congruence.
    - by destruct (Z.eqb_spec j i) as [->|]. }
  assert (forall j, rng j -> fc s' j = if j =? p then i else if j =? i then -1 else fc s j) as Hfc.
  { intros j Hj. unfold fc. rewrite Hn by done. destruct (Z.eqb_spec j p) as [->|]; [done|].
    by destruct (Z.eqb_spec j i) as [->|]. }
  assert (forall d, rng d -> used s d = true -> d <> i) as Hdi by (intros d _ Hu ->; congruence).
  assert (forall d c, rng d -> used s d = true -> c ∈ K d -> rng c /\ c <> i) as HKi.
  { intros d c Hd Hu Hc. destruct (kid_rng _ s K _ d c Ht Hd Hu Hc) as (? & ? & _). split; [done|by intros ->; congruence]. }
  assert (forall d, rng d -> used s d = true -> kset (kset K i []) p (i :: K p) d = if d =? p then i :: K p else K d) as HK.
  { intros d Hd Hu. unfold kset. destruct (Z.eqb_spec d p) as [->|]; [done|].
    by rewrite (proj2 (Z.eqb_neq d i)) by (by apply Hdi). }
  assert (kset (kset K i []) p (i :: K p) i = []) as HKnew by (by rewrite kset_ne, kset_eq).
  split; [split|].
  - destruct Hst as (_ & _ & _ & ->). apply Ht.
  - done.
  - split.
    + rewrite Hfh. destruct (lo_free _ _ _ Hl) as (_ & _ & Hseg). eapply seg_ext; [|exact Hseg].
      intros y Hy. destruct (proj1 (tr_free _ _ _ Ht y) ltac:(apply elem_of_cons; by right)) as [Hyr _].
      rewrite Hnx by done. by rewrite (proj2 (Z.eqb_neq y i)) by (by intros ->).
    + done.
    + intros d Hd Hu. rewrite Hus in Hu by done. destruct (Z.eqb_spec d i) as [->|Hd2].
      { rewrite HKnew, Hfc by done. rewrite (proj2 (Z.eqb_neq i p) Hne), Z.eqb_refl. done. }
      rewrite HK by done. rewrite Hfc by done. rewrite (proj2 (Z.eqb_neq d i) Hd2). destruct (Z.eqb_spec d p) as [->|Hdp].
      * split; [done|]. split; [apply Hi|]. rewrite Hnx, Z.eqb_refl by done.
        eapply seg_ext; [|by apply (lo_kids _ _ _ Hl)]. intros y Hy. destruct (HKi p y Hp Hup Hy) as [Hyr Hyi].
        rewrite Hnx by done. by rewrite (proj2 (Z.eqb_neq y i)).
      * eapply seg_ext; [|by apply (lo_kids _ _ _ Hl)]. intros y Hy. destruct (HKi d y Hd Hu Hy) as [Hyr Hyi].
        rewrite Hnx by done. by rewrite (proj2 (Z.eqb_neq y i)).
    + intros d Hd Hu. rewrite Hus in Hu by done. destruct (Z.eqb_spec d i) as [->|Hd2]; [rewrite HKnew; constructor|].
      rewrite HK by done. destruct (Z.eqb_spec d p) as [->|Hdp]; [|by apply (lo_kids_nodup _ _ _ Hl)].
      apply NoDup_cons. split; [|by apply (lo_kids_nodup _ _ _ Hl)]. intros Hin. by apply HKi in Hin as [_ ?].
  - intros j. split.
    + intros Hj. destruct (proj1 (tr_free _ _ _ Ht j) ltac:(apply elem_of_cons; by right)) as [Hjr Hju].
      split; [done|]. rewrite Hus by done. by rewrite (proj2 (Z.eqb_neq j i)) by (by intros ->).
    + intros [Hjr Hju]. rewrite Hus in Hju by done. destruct (Z.eqb_spec j i) as [->|Hji]; [done|].
      assert (j ∈ i :: Fl) as [->|]%elem_of_cons by (by apply (tr_free _ _ _ Ht)); done.
  - intros d c Hd Hu. rewrite Hus in Hu by done. destruct (Z.eqb_spec d i) as [->|Hd2].
    { rewrite HKnew. split; [by intros ?%elem_of_nil|]. intros (Hc & Huc & Hpc). rewrite Hus in Huc by done.
      rewrite Hpar in Hpc by done. destruct (Z.eqb_spec c i); [congruence|].
      destruct (tr_parent _ _ _ Ht c Hc Huc) as [He|[_ He]]; rewrite Hpc in He; [unfold rng in Hi; lia|congruence]. }
    rewrite HK by done. destruct (Z.eqb_spec d p) as [->|Hdp].
    + rewrite elem_of_cons, (tr_kid _ _ _ Ht p c Hp Hup). split.
      * intros [->|(Hc & Huc & Hpc)]; [by rewrite Hus, Hpar, Z.eqb_refl by done|].
        assert (c <> i) as Hci by (intros ->; congruence). rewrite Hus, Hpar by done. by rewrite (proj2 (Z.eqb_neq c i) Hci).
      * intros (Hc & Huc & Hpc). rewrite Hus in Huc by done. rewrite Hpar in Hpc by done.
        destruct (Z.eqb_spec c i); [by left|by right].
    + rewrite (tr_kid _ _ _ Ht d c Hd Hu). split.
      * intros (Hc & Huc & Hpc). assert (c <> i) as Hci by (intros ->; congruence).
        rewrite Hus, Hpar by done. by rewrite (proj2 (Z.eqb_neq c i) Hci).
      * intros (Hc & Huc & Hpc). rewrite Hus in Huc by done. rewrite Hpar in Hpc by done.
        destruct (Z.eqb_spec c i); [congruence|done].
  - intros d c c' Hd Hu Hc Hc' He. rewrite Hus in Hu by done. destruct (Z.eqb_spec d i) as [->|Hd2].
    { rewrite HKnew in Hc. by apply elem_of_nil in Hc. }
    rewrite HK in Hc, Hc' by done.
    assert (forall x, x ∈ K d -> n_name (node s' x) = n_name (node s x)) as Hnm.
    { intros x Hx. destruct (HKi d x Hd Hu Hx) as [Hxr Hxi]. by apply (Hb x Hxr) in Hxi as (-> & _)%body_eq. }
    assert (n_name (node s' i) = cut RAMFS64_NAME_MAX name) as Hni by (by apply body_eq in Hbi as (-> & _)).
    destruct (Z.eqb_spec d p) as [->|Hdp].
    + apply elem_of_cons in Hc as [->|Hc], Hc' as [->|Hc']; [done| | |].
      * rewrite Hni, Hnm in He by done. by destruct (Hfresh c' Hc').
      * rewrite Hni, Hnm in He by done. by destruct (Hfresh c Hc).
      * rewrite !Hnm in He by done. by apply (tr_name _ _ _ Ht p).
    + rewrite !Hnm in He by done. by apply (tr_name _ _ _ Ht d).
  - intros d Hd Hu Hdd. rewrite Hus in Hu by done. destruct (Z.eqb_spec d i) as [->|Hd2]; [done|].
    rewrite HK by done. pose proof (Hb d Hd Hd2) as (_ & _ & E & _)%body_eq. rewrite E in Hdd.
    destruct (Z.eqb_spec d p) as [->|Hdp]; [congruence|]. by apply (tr_dir _ _ _ Ht).
  - intros c Hc Hu. rewrite Hus in Hu by done. rewrite Hpar by done. destruct (Z.eqb_spec c i) as [->|Hci].
    + right. split; [done|]. rewrite Hus by done. by destruct (p =? i).
    + destruct (tr_parent _ _ _ Ht c Hc Hu) as [|[Hpr Hpu]]; [by left|right]. split; [done|].
      rewrite Hus by done. by destruct (par s c =? i).
  - intros c Hc Hu Hpc. rewrite Hus in Hu by done. rewrite Hpar in Hpc by done. destruct (Z.eqb_spec c i) as [->|Hci].
    { unfold rng in Hp. lia. }
    destruct (tr_orphan _ _ _ Ht c Hc Hu Hpc) as [|[->|[Hul HKc]]]; [by left|by destruct Hc|right; right].
    pose proof (Hb c Hc Hci) as (_ & _ & _ & _ & _ & -> & _)%body_eq. split; [done|].
    rewrite HK by done. by destruct (Z.eqb_spec c p) as [->|]; [congruence|].
  - intros c Hc Hu Hpc. rewrite Hus in Hu by done. rewrite Hpar in Hpc by done. destruct (Z.eqb_spec c i) as [->|Hci].
    + by apply body_eq in Hbi as (_ & _ & _ & _ & _ & -> & _).
    + pose proof (Hb c Hc Hci) as (_ & _ & _ & _ & _ & -> & _)%body_eq. by apply (tr_linked _ _ _ Ht).
  - destruct (tr_root _ _ _ Ht) as (Hr1 & Hr2 & Hr3 & Hr4). assert (ROOT <> i) as Hri by (by apply Hdi).
    pose proof (Hb ROOT root_rng Hri) as (_ & _ & -> & _ & _ & -> & _)%body_eq.
    rewrite Hus, Hpar by done. by rewrite (proj2 (Z.eqb_neq ROOT i) Hri).
  - assert (forall k c, rng c -> used s c = true -> climb s k c -> climb s' k c) as Hcl.
    { intros k c Hc Hu. apply (climb_ext _ s s' K _ k c Ht); [|done|done]. intros j Hj Hju.
      rewrite Hpar by done. by rewrite (proj2 (Z.eqb_neq j i)) by (by apply Hdi). }
    intros c Hc Hu. rewrite Hus in Hu by done. destruct (Z.eqb_spec c i) as [->|Hci].
    + destruct (tr_climb _ _ _ Ht p Hp Hup) as [k Hk]. exists (S k). cbn [climb]. rewrite Hpar, Z.eqb_refl by done.
      split; [unfold rng in Hp; lia|by apply Hcl].
    + destruct (tr_climb _ _ _ Ht c Hc Hu) as [k Hk]. exists k. by apply Hcl.
  - rewrite Hcnt. pose proof (tr_count _ _ _ Ht) as E. rewrite zlen_cons in E. lia.
  - done.
Qed.

(** ** Out of a list *)

Lemma find_prev_spec fuel x L1 q n L2 s : seg (nx s) x (L1 ++ q :: n :: L2) -> n ∉ L1 ++ [q] ->
  NoDup (L1 ++ q :: n :: L2) -> (length L1 < fuel)%nat -> find_prev fuel x n s = Some q.
Proof.
  revert fuel x. induction L1 as [|y L1 IH]; intros fuel x Hs Hn Hnd Hf; (destruct fuel as [|fuel]; [simpl in Hf; lia|]); simpl in Hs |- *.
  - destruct Hs as (-> & Hq & Hnext & _). change (n_next_sibling (node s q)) with (nx s q). rewrite Hnext, Z.eqb_refl.
    by rewrite andb_false_r.
  - destruct Hs as (-> & Hy & Hs). rewrite (proj2 (Z.leb_le 0 y)) by done. change (n_next_sibling (node s y)) with (nx s y).
    apply NoDup_cons in Hnd as [Hy' Hnd]. simpl in Hn; rewrite not_elem_of_cons in Hn. simpl in Hf.
    rewrite (proj2 (Z.eqb_neq (nx s y) n)).
    + cbn [negb andb]. apply IH; [done|apply Hn|done|lia].
    + intros He. destruct L1 as [|z L1]; simpl in Hs; destruct Hs as (He' & _ & Hs).
      * rewrite He in He'. subst q. apply Hn. simpl. apply elem_of_cons. by left.
      * rewrite He in He'. subst z. apply Hn. simpl. apply elem_of_cons. by left.
Qed.

Lemma seg_app nx_ x L1 q L2 : seg nx_ x (L1 ++ q :: L2) -> seg nx_ (nx_ q) L2.
Proof. revert x. induction L1 as [|y L1 IH]; intros x; simpl; [by intros (_ & _ & ?)|intros (_ & _ & ?); eauto]. Qed.

(** [n] goes round: the one before it, or the head, now leads to the next. *)
Lemma seg_unhook nx_ nx' x L1 q n L2 : seg nx_ x (L1 ++ q :: n :: L2) ->
  (forall y, y ∈ L1 ++ L2 -> nx' y = nx_ y) -> nx' q = nx_ n -> seg nx' x (L1 ++ q :: L2).
Proof.
  revert x. induction L1 as [|y L1 IH]; intros x; simpl.
  - intros (-> & Hq & Hqn & Hn & Hs) Heq Hq2. split; [done|]. split; [done|]. rewrite Hq2. by eapply seg_ext.
  - intros (-> & Hy & Hs) Heq Hq. split; [done|]. split; [done|]. rewrite Heq by (apply elem_of_cons; by left).
    apply IH; [done| |done]. intros z Hz. apply Heq. apply elem_of_cons. by right.
Qed.

Lemma unhook_run s p n L1 L2 : sized s -> rng p -> (forall x, x ∈ L1 ++ n :: L2 -> rng x) ->
  seg (nx s) (fc s p) (L1 ++ n :: L2) -> NoDup (L1 ++ n :: L2) ->
  exists s', unhook p n s = Some s' /\ sized s' /\ same_store s s' /\ free_head s' = free_head s /\
    node_count s' = node_count s /\ same_bodies s s' /\ seg (nx s') (fc s' p) (L1 ++ L2) /\
    (forall j, rng j -> j ∉ L1 -> nx s' j = nx s j) /\ (forall j, rng j -> j <> p -> fc s' j = fc s j).
Proof.
  intros Hz Hp Hr Hs Hnd. unfold unhook. rewrite (proj2 (in_range_true p) Hp). cbv zeta. change (n_first_child (node s p)) with (fc s p).
  assert (rng n) as Hn by (apply Hr, elem_of_app; right; apply elem_of_cons; by left).
  destruct L1 as [|q L1 _] using rev_ind.
  - cbn [app seg] in Hs, Hr, Hnd |- *. destruct Hs as (He & Hn0 & Hs). rewrite He, Z.eqb_refl. eexists. split; [reflexivity|].
    set (s' := upd p _ s).
    assert (forall j, rng j -> node s' j = if j =? p then set_first_child (nx s n) (node s p) else node s j) as Hnode.
    { intros j Hj. by apply node_upd. }
    split; [by apply upd_sized|]. do 3 (split; [done|]).
    assert (forall j, rng j -> nx s' j = nx s j) as Hnx.
    { intros j Hj. unfold nx. rewrite Hnode by done. by destruct (Z.eqb_spec j p) as [->|]. }
    split; [|split; [|split]].
    + intros j Hj. rewrite Hnode by done. by destruct (Z.eqb_spec j p) as [->|].
    + assert (fc s' p = nx s n) as -> by (unfold fc; rewrite Hnode by done; by rewrite Z.eqb_refl).
      eapply seg_ext; [|exact Hs]. intros y Hy. apply Hnx, Hr. apply elem_of_cons. by right.
    + intros j Hj _. by apply Hnx.
    + intros j Hj Hne. unfold fc. rewrite Hnode by done. by rewrite (proj2 (Z.eqb_neq j p) Hne).
  - rewrite <-app_assoc in Hs, Hr, Hnd. simpl in Hs, Hr, Hnd.
    assert (rng q) as Hq by (apply Hr, elem_of_app; right; apply elem_of_cons; by left).
    assert (n ∉ L1 ++ [q]) as HnL.
    { rewrite cons_middle, app_assoc in Hnd. apply NoDup_app in Hnd as (_ & Hd & _). intros Hx. apply (Hd n Hx). apply elem_of_cons. by left. }
    assert (fc s p <> n) as Hfn.
    { intros He. rewrite He in Hs. destruct L1 as [|y L1]; simpl in Hs; destruct Hs as (E & _); subst; apply HnL; apply elem_of_cons; by left. }
    rewrite (proj2 (Z.eqb_neq _ _) Hfn).
    assert (length L1 < Datatypes.S NNODES)%nat as Hlen.
    { apply Nat.lt_succ_r. apply NoDup_rng_length; [by apply NoDup_app in Hnd as (? & _)|].
      intros y Hy. apply Hr, elem_of_app. by left. }
    rewrite (find_prev_spec (Datatypes.S NNODES) (fc s p) L1 q n L2 s) by done. cbn [mbind option_bind].
    rewrite (proj2 (Z.leb_le 0 q)) by apply Hq. eexists. split; [reflexivity|]. set (s' := upd q _ s).
    assert (forall j, rng j -> node s' j = if j =? q then set_next_sibling (nx s n) (node s q) else node s j) as Hnode.
    { intros j Hj. by apply node_upd. }
    split; [by apply upd_sized|]. do 3 (split; [done|]).
    assert (forall j, rng j -> fc s' j = fc s j) as Hfc.
    { intros j Hj. unfold fc. rewrite Hnode by done. by destruct (Z.eqb_spec j q) as [->|]. }
    assert (forall j, rng j -> j <> q -> nx s' j = nx s j) as Hnx.
    { intros j Hj Hne. unfold nx. rewrite Hnode by done. by rewrite (proj2 (Z.eqb_neq j q) Hne). }
    split; [|split; [|split]].
    + intros j Hj. rewrite Hnode by done. by destruct (Z.eqb_spec j q) as [->|].
    + rewrite Hfc by done. rewrite <-app_assoc. simpl. eapply seg_unhook; [exact Hs| |].
      * intros y Hy. apply Hnx; [apply Hr; revert Hy; rewrite !elem_of_app, !elem_of_cons; tauto|].
        intros ->. apply NoDup_app in Hnd as (_ & Hd & [Hq2 _]%NoDup_cons).
        apply elem_of_app in Hy as [Hy|Hy]; [apply (Hd q Hy); apply elem_of_cons; by left|apply Hq2; apply elem_of_cons; by right].
      * unfold nx. rewrite Hnode by done. by rewrite Z.eqb_refl.
    + intros j Hj Hne. apply Hnx; [done|]. intros ->. apply Hne, elem_of_app. right. apply elem_of_cons. by left.
    + intros j Hj _. by apply Hfc.
Qed.

Lemma body_used a b : body a = body b -> n_used a = n_used b.
Proof. by intros (_ & _ & _ & _ & _ & _ & ?)%body_eq. Qed.
Lemma body_parent a b : body a = body b -> n_parent a = n_parent b.
Proof. by intros (_ & ? & _)%body_eq. Qed.
Lemma body_name a b : body a = body b -> n_name a = n_name b.
Proof. by intros (? & _)%body_eq. Qed.
Lemma body_is_dir a b : body a = body b -> n_is_dir a = n_is_dir b.
Proof. by intros (_ & _ & ? & _)%body_eq. Qed.
Lemma body_unlinked a b : body a = body b -> n_unlinked a = n_unlinked b.
Proof. by intros (_ & _ & _ & _ & _ & ? & _)%body_eq. Qed.

Lemma tree_weaken e s K Fl : tree_ok s K Fl -> tree_but e s K Fl.
Proof.
  intros Ht. destruct Ht as [? ? ? ? ? ? ? ? Ho ? ? ? ?]. split; try done.
  intros c Hc Hu Hp. destruct (Ho c Hc Hu Hp) as [|[->|]]; [by left|by destruct Hc|by do 2 right].
Qed.

Lemma linked_parent e s K Fl n : tree_but e s K Fl -> rng n -> used s n = true -> par s n <> -1 ->
  rng (par s n) /\ used s (par s n) = true /\ n ∈ K (par s n).
Proof.
  intros Ht Hn Hu Hp. destruct (tr_parent _ _ _ Ht n Hn Hu) as [|[Hpr Hpu]]; [done|]. split; [done|]. split; [done|].
  by apply (tr_kid _ _ _ Ht (par s n) n Hpr Hpu).
Qed.

Lemma kset_same_list K p L1 n L2 d c : K p = L1 ++ n :: L2 -> NoDup (K p) ->
  c ∈ kset K p (L1 ++ L2) d <-> c ∈ K d /\ (d = p -> c <> n).
Proof.
  intros HK Hnd. unfold kset. destruct (Z.eqb_spec d p) as [->|Hne]; [|tauto]. rewrite HK in *.
  apply NoDup_app in Hnd as (_ & Hd & [Hn _]%NoDup_cons). rewrite !elem_of_app, elem_of_cons. split.
  - intros [Hc|Hc]; (split; [tauto|]); intros _ ->; [apply (Hd n Hc); apply elem_of_cons; by left|done].
  - intros [[?|[->|?]] Hne]; [by left|by destruct Hne|by right].
Qed.

(** [n] loses its name: its parent's list closes up, and nothing else moves. *)
Lemma detach_ok s K Fl n : tree_ok s K Fl -> rng n -> used s n = true -> par s n <> -1 ->
  exists s' L1 L2, detach_from_parent n s = Some s' /\ K (par s n) = L1 ++ n :: L2 /\
    tree_but n s' (kset K (par s n) (L1 ++ L2)) Fl /\ same_store s s' /\ par s' n = -1 /\
    body (node s' n) = body (set_parent (-1) (node s n)) /\
    forall j, rng j -> j <> n -> body (node s' j) = body (node s j).
Proof.
  intros Ht Hn Hu Hp. destruct (linked_parent _ s K Fl n Ht Hn Hu Hp) as (Hpr & Hpu & Hin).
  set (p := par s n) in *. apply list_elem_of_split in Hin as (L1 & L2 & HK). pose proof (tr_lists _ _ _ Ht) as Hl.
  pose proof (lo_kids_nodup _ _ _ Hl p Hpr Hpu) as Hnd. pose proof (lo_kids _ _ _ Hl p Hpr Hpu) as Hseg.
  assert (forall x, x ∈ L1 ++ n :: L2 -> rng x) as HLr by (intros x; rewrite <-HK; intros Hx; by apply (kid_rng _ s K Fl p x Ht)).
  destruct (unhook_run s p n L1 L2 (tr_sized _ _ _ Ht) Hpr HLr ltac:(by rewrite <-HK) ltac:(by rewrite <-HK))
    as (s1 & Hr & Hz1 & Hst1 & Hfh & Hcnt & Hb1 & Hseg1 & Hnx1 & Hfc1).
  unfold detach_from_parent. change (n_parent (node s n)) with p. rewrite Hr. cbn [mbind option_bind].
  set (s' := upd n _ s1). exists s', L1, L2. split; [done|]. split; [done|].
  assert (forall j, rng j -> node s' j = if j =? n then set_next_sibling (-1) (set_parent (-1) (node s1 n)) else node s1 j) as Hnode.
  { intros j Hj. by apply node_upd. }
  assert (body (node s' n) = body (set_parent (-1) (node s n))) as Hbn.
  { rewrite Hnode, Z.eqb_refl by done. pose proof (Hb1 n Hn) as E. unfold body in *.
    change (set_parent (-1) (set_first_child 0 (set_next_sibling 0 (node s1 n))) =
            set_parent (-1) (set_first_child 0 (set_next_sibling 0 (node s n)))). by rewrite E. }
  assert (forall j, rng j -> j <> n -> body (node s' j) = body (node s j)) as Hb.
  { intros j Hj Hne. rewrite Hnode by done. rewrite (proj2 (Z.eqb_neq j n) Hne). by apply Hb1. }
  assert (forall j, rng j -> used s' j = used s j) as Hus.
  { intros j Hj. unfold used. destruct (decide (j = n)) as [->|Hne]; [by rewrite (body_used _ _ Hbn)|by apply body_used, Hb]. }
  assert (forall j, rng j -> par s' j = if j =? n then -1 else par s j) as Hpar.
  { intros j Hj. unfold par. destruct (Z.eqb_spec j n) as [->|Hne]; [by rewrite (body_parent _ _ Hbn)|by apply body_parent, Hb]. }
  assert (forall j, rng j -> j <> n -> nx s' j = nx s1 j) as Hnx.
  { intros j Hj Hne. unfold nx. rewrite Hnode by done. by rewrite (proj2 (Z.eqb_neq j n) Hne). }
  assert (forall j, rng j -> fc s' j = fc s1 j) as Hfc.
  { intros j Hj. unfold fc. rewrite Hnode by done. by destruct (Z.eqb_spec j n) as [->|]. }
  assert (n ∉ L1 ++ L2) as HnL.
  { rewrite HK in Hnd. apply NoDup_app in Hnd as (_ & Hd & [Hd2 _]%NoDup_cons). rewrite elem_of_app.
    intros [Hx|Hx]; [apply (Hd n Hx); apply elem_of_cons; by left|done]. }
  assert (forall d c, rng d -> used s d = true -> d <> p -> c ∈ K d -> c <> n /\ (c ∉ L1) /\ rng c) as Hother.
  { intros d c Hd Hdu Hdp Hc. destruct (kid_rng _ s K Fl d c Ht Hd Hdu Hc) as (Hcr & _ & Hcp).
    split; [intros ->; by apply Hdp|]. split; [|done]. intros Hx. apply Hdp. rewrite <-Hcp.
    apply (kid_rng _ s K Fl p c Ht Hpr Hpu). rewrite HK. apply elem_of_app. by left. }
  split; [|split; [|split; [|split]]]; [|by destruct Hst1 as (? & ? & ? & ?)|by rewrite Hpar, Z.eqb_refl by done|done|done].
  split.
  - destruct Hst1 as (_ & _ & _ & E). change (nz (table s1) = true). rewrite E. apply Ht.
  - by apply upd_sized.
  - split.
    + change (free_head s') with (free_head s1). rewrite Hfh. eapply seg_ext; [|apply (lo_free _ _ _ Hl)]. intros y Hy.
      apply (tr_free _ _ _ Ht) in Hy as [Hyr Hyu]. assert (y <> n) as Hyn by (intros ->; congruence).
      rewrite Hnx by done. apply Hnx1; [done|]. intros Hy.
      destruct (kid_rng _ s K Fl p y Ht Hpr Hpu) as (_ & ? & _); [rewrite HK; apply elem_of_app; by left|congruence].
    + apply Hl.
    + intros d Hd Hdu. rewrite Hus in Hdu by done. unfold kset. destruct (Z.eqb_spec d p) as [->|Hdp].
      * rewrite Hfc by done. eapply seg_ext; [|exact Hseg1]. intros y Hy. apply Hnx; [|by intros ->].
        apply HLr. revert Hy. rewrite !elem_of_app, elem_of_cons. tauto.
      * rewrite Hfc, Hfc1 by done. eapply seg_ext; [|by apply (lo_kids _ _ _ Hl)]. intros y Hy.
        destruct (Hother d y Hd Hdu Hdp Hy) as (? & ? & ?). rewrite Hnx by done. by apply Hnx1.
    + intros d Hd Hdu. rewrite Hus in Hdu by done. unfold kset. destruct (Z.eqb_spec d p) as [->|Hdp]; [|by apply (lo_kids_nodup _ _ _ Hl)].
      rewrite HK in Hnd. apply NoDup_app in Hnd as (N1 & Hd1 & [_ N2]%NoDup_cons). apply NoDup_app. split; [done|]. split; [|done].
      intros y Hy1 Hy2. apply (Hd1 y Hy1). apply elem_of_cons. by right.
  - intros i. rewrite (tr_free _ _ _ Ht i). split; intros [Hi ?]; (split; [done|]); by rewrite Hus in *.
  - intros d c Hd Hdu. rewrite Hus in Hdu by done. rewrite (kset_same_list K p L1 n L2) by done.
    rewrite (tr_kid _ _ _ Ht d c Hd Hdu). split.
    + intros ((Hc & Hcu & Hcp) & Hne). assert (c <> n) as Hcn by (intros ->; by apply Hne).
      rewrite Hus, Hpar by done. by rewrite (proj2 (Z.eqb_neq c n) Hcn).
    + intros (Hc & Hcu & Hcp). rewrite Hus in Hcu by done. rewrite Hpar in Hcp by done.
      destruct (Z.eqb_spec c n) as [->|Hcn]; [unfold rng in Hd; lia|done].
  - intros d c c' Hd Hdu Hc Hc' He. rewrite Hus in Hdu by done.
    rewrite (kset_same_list K p L1 n L2) in Hc, Hc' by done. destruct Hc as [Hc Hne], Hc' as [Hc' Hne'].
    assert (forall y, y ∈ K d -> (d = p -> y <> n) -> n_name (node s' y) = n_name (node s y)) as Hnm.
    { intros y Hy Hyn. destruct (kid_rng _ s K Fl d y Ht Hd Hdu Hy) as (Hyr & _ & Hyp). apply body_name, Hb; [done|].
      intros ->. by apply Hyn. }
    rewrite !Hnm in He by done. by apply (tr_name _ _ _ Ht d).
  - intros d Hd Hdu Hdd. rewrite Hus in Hdu by done.
    assert (n_is_dir (node s d) = false) as Hdd2.
    { destruct (decide (d = n)) as [->|Hne]; [by rewrite (body_is_dir _ _ Hbn) in Hdd|by rewrite <-(body_is_dir _ _ (Hb d Hd Hne))]. }
    pose proof (tr_dir _ _ _ Ht d Hd Hdu Hdd2) as HKd. unfold kset. destruct (Z.eqb_spec d p) as [->|]; [|done].
    rewrite HK in HKd. by destruct L1.
  - intros c Hc Hcu. rewrite Hus in Hcu by done. rewrite Hpar by done. destruct (Z.eqb_spec c n); [by left|].
    destruct (tr_parent _ _ _ Ht c Hc Hcu) as [|[Hcr Hcu2]]; [by left|right]. split; [done|]. by rewrite Hus.
  - intros c Hc Hcu Hcp. rewrite Hus in Hcu by done. rewrite Hpar in Hcp by done. destruct (Z.eqb_spec c n) as [->|Hcn]; [by right; left|].
    destruct (tr_orphan _ _ _ Ht c Hc Hcu Hcp) as [|[->|[Hul HKc]]]; [by left|by destruct Hc|right; right].
    rewrite (body_unlinked _ _ (Hb c Hc Hcn)). split; [done|]. unfold kset. destruct (Z.eqb_spec c p) as [->|]; [|done].
    rewrite HK in HKc. by destruct L1.
  - intros c Hc Hcu Hcp. rewrite Hus in Hcu by done. rewrite Hpar in Hcp by done. destruct (Z.eqb_spec c n) as [->|Hcn]; [done|].
    rewrite (body_unlinked _ _ (Hb c Hc Hcn)). by apply (tr_linked _ _ _ Ht).
  - destruct (tr_root _ _ _ Ht) as (R1 & R2 & R3 & R4). assert (ROOT <> n) as Hrn by (intros <-; done).
    rewrite (body_unlinked _ _ (Hb ROOT root_rng Hrn)), (body_is_dir _ _ (Hb ROOT root_rng Hrn)), Hus, Hpar by done.
    by rewrite (proj2 (Z.eqb_neq ROOT n) Hrn).
  - intros c Hc Hcu. rewrite Hus in Hcu by done. destruct (tr_climb _ _ _ Ht c Hc Hcu) as [k Hk]. revert c Hc Hcu Hk.
    induction k as [|k IH]; intros c Hc Hcu; cbn [climb].
    + intros Hk. exists 0%nat. cbn [climb]. rewrite Hpar by done. by destruct (c =? n).
    + intros [Hne Hk]. destruct (Z.eqb_spec c n) as [->|Hcn].
      { exists 0%nat. cbn [climb]. by rewrite Hpar, Z.eqb_refl by done. }
      destruct (linked_parent _ s K Fl c Ht Hc Hcu Hne) as (Hcr & Hcu2 & _). destruct (IH (par s c) Hcr Hcu2 Hk) as [k' Hk'].
      exists (S k'). cbn [climb]. rewrite Hpar by done. by rewrite (proj2 (Z.eqb_neq c n) Hcn).
  - change (node_count s') with (node_count s1). rewrite Hcnt. apply Ht.
Qed.

(** The part of a node that makes the tree. *)
Definition skel (nd : node64) : list Z * Z * bool * bool * Z * Z :=
  (n_name nd, n_parent nd, n_is_dir nd, n_used nd, n_first_child nd, n_next_sibling nd).

Record same_tree s s' : Prop := {
  st_sized : sized s';
  st_table : table s' = table s;
  st_free : free_head s' = free_head s;
  st_count : node_count s' = node_count s;
  st_node j : rng j -> skel (node s' j) = skel (node s j)
}.

Lemma same_tree_fields s s' j : same_tree s s' -> rng j ->
  n_name (node s' j) = n_name (node s j) /\ par s' j = par s j /\ used s' j = used s j /\
  n_is_dir (node s' j) = n_is_dir (node s j) /\ nx s' j = nx s j /\ fc s' j = fc s j.
Proof. intros Hs Hj. pose proof (st_node _ _ Hs j Hj) as E. unfold skel in E. unfold par, used, nx, fc. by injection E. Qed.

(** A change to fields that are not of the tree; of the marks, only that of
    the exception. *)
Lemma same_tree_ok e s s' K Fl : tree_but e s K Fl -> same_tree s s' ->
  (forall j, rng j -> n_unlinked (node s' j) = n_unlinked (node s j) \/ j = e /\ par s j = -1 /\ j <> ROOT) ->
  tree_but e s' K Fl.
Proof.
  intros Ht Hst Hul. pose proof (fun j => same_tree_fields s s' j Hst) as Hf.
  assert (forall y L, (forall z, z ∈ L -> rng z) -> seg (nx s) y L -> seg (nx s') y L) as Hseg.
  { intros y L HL. apply seg_ext. intros z Hz'. by apply Hf, HL. }
  pose proof (tr_lists _ _ _ Ht) as Hl. split.
  - rewrite (st_table _ _ Hst). apply Ht.
  - apply Hst.
  - split.
    + rewrite (st_free _ _ Hst). apply Hseg; [intros z Hz'; by apply (tr_free _ _ _ Ht)|apply Hl].
    + apply Hl.
    + intros d Hd Hu. destruct (Hf d Hd) as (_ & _ & Eu & _ & _ & ->). rewrite Eu in Hu.
      apply Hseg; [intros z Hz'; by apply (kid_rng _ s K Fl d z Ht)|by apply (lo_kids _ _ _ Hl)].
    + intros d Hd Hu. destruct (Hf d Hd) as (_ & _ & Eu & _). rewrite Eu in Hu. by apply (lo_kids_nodup _ _ _ Hl).
  - intros i. rewrite (tr_free _ _ _ Ht). split; intros [Hi ?]; (split; [done|]); destruct (Hf i Hi) as (_ & _ & Eu & _); congruence.
  - intros d c Hd Hu. destruct (Hf d Hd) as (_ & _ & Eu & _). rewrite Eu in Hu. rewrite (tr_kid _ _ _ Ht d c Hd Hu).
    split; intros (Hc & ? & ?); destruct (Hf c Hc) as (_ & ? & ? & _); (split; [done|]); split; congruence.
  - intros d c c' Hd Hu Hc Hc' He. destruct (Hf d Hd) as (_ & _ & Eu & _). rewrite Eu in Hu.
    destruct (kid_rng _ s K Fl d c Ht Hd Hu Hc) as [Hcr _]. destruct (kid_rng _ s K Fl d c' Ht Hd Hu Hc') as [Hcr' _].
    rewrite (proj1 (Hf c Hcr)), (proj1 (Hf c' Hcr')) in He. by apply (tr_name _ _ _ Ht d).
  - intros d Hd Hu Hdd. destruct (Hf d Hd) as (_ & _ & Eu & Ed & _). rewrite Eu in Hu. rewrite Ed in Hdd. by apply (tr_dir _ _ _ Ht).
  - intros c Hc Hu. destruct (Hf c Hc) as (_ & Ep & Eu & _). rewrite Eu in Hu. rewrite Ep.
    destruct (tr_parent _ _ _ Ht c Hc Hu) as [|[Hpr Hpu]]; [by left|right]. split; [done|]. by destruct (Hf _ Hpr) as (_ & _ & -> & _).
  - intros c Hc Hu Hp. destruct (Hf c Hc) as (_ & Ep & Eu & _). rewrite Eu in Hu. rewrite Ep in Hp.
    destruct (tr_orphan _ _ _ Ht c Hc Hu Hp) as [|[->|[Hul' HK]]]; [by left|by right; left|].
    destruct (Hul c Hc) as [->|(-> & _)]; [by do 2 right|by right; left].
  - intros c Hc Hu Hp. destruct (Hf c Hc) as (_ & Ep & Eu & _). rewrite Eu in Hu. rewrite Ep in Hp.
    destruct (Hul c Hc) as [->|(_ & ? & _)]; [by apply (tr_linked _ _ _ Ht)|done].
  - destruct (tr_root _ _ _ Ht) as (R1 & R2 & R3 & R4). destruct (Hf ROOT root_rng) as (_ & -> & -> & -> & _).
    do 3 (split; [done|]). destruct (Hul ROOT root_rng) as [->|(_ & _ & ?)]; done.
  - intros c Hc Hu. destruct (Hf c Hc) as (_ & _ & Eu & _). rewrite Eu in Hu. destruct (tr_climb _ _ _ Ht c Hc Hu) as [k Hk].
    exists k. apply (climb_ext e s s' K Fl k c Ht); [|done|done|done]. intros j Hj _. by apply Hf.
  - rewrite (st_count _ _ Hst). apply Ht.
Qed.

(** One node changed, outside what makes the tree. *)
Lemma upd_same_tree i f s : sized s -> rng i -> (forall nd, skel (f nd) = skel nd) -> same_tree s (upd i f s).
Proof.
  intros Hz Hi Hf. split; [by apply upd_sized|done|done|done|]. intros j Hj. rewrite node_upd by done.
  by destruct (Z.eqb_spec j i) as [->|].
Qed.

(** The exception is none: the node has its mark. *)
Lemma tree_settle n s K Fl : tree_but n s K Fl -> n_unlinked (node s n) = true -> K n = [] -> tree_ok s K Fl.
Proof.
  intros Ht Hul HK. destruct Ht as [? ? ? ? ? ? ? ? Ho ? ? ? ?]. split; try done.
  intros c Hc Hu Hp. destruct (Ho c Hc Hu Hp) as [|[->|]]; [by left|by do 2 right|by do 2 right].
Qed.

Lemma mark_ok s K Fl n : tree_but n s K Fl -> rng n -> used s n = true -> par s n = -1 -> n <> ROOT -> K n = [] ->
  tree_ok (upd n (set_unlinked true) s) K Fl.
Proof.
  intros Ht Hn Hu Hp Hr HK. pose proof (tr_sized _ _ _ Ht) as Hz. set (s' := upd n (set_unlinked true) s).
  assert (forall j, rng j -> node s' j = if j =? n then set_unlinked true (node s n) else node s j) as Hnode
    by (intros; by apply node_upd).
  apply (tree_settle n); [|rewrite Hnode by done; by rewrite Z.eqb_refl|done].
  apply (same_tree_ok n s _ K Fl Ht); [by apply upd_same_tree|]. intros j Hj. rewrite Hnode by done.
  destruct (Z.eqb_spec j n) as [->|]; [by right|by left].
Qed.

Lemma free_frames_same l s : nodes (free_frames l s) = nodes s /\ table (free_frames l s) = table s /\
  free_head (free_frames l s) = free_head s /\ node_count (free_frames l s) = node_count s /\ page (free_frames l s) = page s.
Proof. unfold free_frames. revert s. induction l as [|p l IH]; intros s; [done|]. apply (IH (free_phys p s)). Qed.

(** What [release_node] does to the table. *)
Lemma release_run s n : sized s -> rng n -> nz (table s) = true ->
  sized (release_node n s) /\ table (release_node n s) = table s /\ free_head (release_node n s) = n /\
  node_count (release_node n s) = (if nz (node_count s) then node_count s - 1 else node_count s) /\
  page (release_node n s) = page s /\
  (forall j, rng j -> j <> n -> node (release_node n s) j = node s j) /\
  used (release_node n s) n = false /\ nx (release_node n s) n = free_head s.
Proof.
  intros Hz Hn Htab. unfold release_node. cbv zeta. set (nd := node s n).
  set (s1 := if nz (n_data nd) then kfree (n_data nd) s else s).
  assert (nodes s1 = nodes s /\ table s1 = table s /\ free_head s1 = free_head s /\ page s1 = page s /\ node_count s1 = node_count s) as (A1 & A2 & A3 & A4 & A5).
  { unfold s1. by destruct (nz (n_data nd)). }
  set (s2 := upd n (set_data 0 (n_block nd)) s1).
  assert (sized s1) as Hz1 by (unfold sized; by rewrite A1). assert (sized s2) as Hz2 by (by apply upd_sized).
  assert (forall j, rng j -> j <> n -> node s2 j = node s j) as B.
  { intros j Hj Hne. unfold s2. rewrite node_upd by done. rewrite (proj2 (Z.eqb_neq j n) Hne). unfold node. by rewrite A1. }
  set (s3 := if nz (n_frames nd) then _ else s2).
  assert (sized s3 /\ table s3 = table s /\ free_head s3 = free_head s /\ page s3 = page s /\ node_count s3 = node_count s /\
    forall j, rng j -> j <> n -> node s3 j = node s j) as (Hz3 & C2 & C3 & C4 & C6 & C5).
  { unfold s3. destruct (nz (n_frames nd)); [|by split_and!].
    set (l := take _ _). destruct (free_frames_same l s2) as (D1 & D2 & D3 & D4 & D5).
    set (s2' := kfree (n_frames nd) (free_frames l s2)).
    assert (sized s2') as Hz2' by (unfold sized; change (nodes s2') with (nodes (free_frames l s2)); by rewrite D1).
    split; [by apply upd_sized|]. split; [exact (eq_trans D2 A2)|]. split; [exact (eq_trans D3 A3)|]. split; [exact (eq_trans D5 A4)|]. split; [exact (eq_trans D4 A5)|].
    intros j Hj Hne. rewrite node_upd by done. rewrite (proj2 (Z.eqb_neq j n) Hne).
    transitivity (node s2 j); [|by apply B]. unfold node. change (nodes s2') with (nodes (free_frames l s2)). by rewrite D1. }
  set (s4 := upd n _ s3). assert (sized s4) as Hz4 by (by apply upd_sized).
  assert (forall j, rng j -> node s4 j = if j =? n then set_next_sibling (free_head s3) (set_first_child (-1) (set_used false (node s3 n))) else node s3 j) as Hnode
    by (intros; by apply node_upd).
  set (s5 := set_free_head n s4).
  assert (forall s6, nodes s6 = nodes s4 -> table s6 = table s4 -> free_head s6 = n -> page s6 = page s4 ->
    node_count s6 = (if nz (node_count s) then node_count s - 1 else node_count s) ->
    sized s6 /\ table s6 = table s /\ free_head s6 = n /\
    node_count s6 = (if nz (node_count s) then node_count s - 1 else node_count s) /\ page s6 = page s /\
    (forall j, rng j -> j <> n -> node s6 j = node s j) /\ used s6 n = false /\ nx s6 n = free_head s) as Hend.
  { intros s6 F1 F2 F3 F4 F6. split; [unfold sized; by rewrite F1|]. split; [by rewrite F2|]. split; [done|]. split; [done|]. split; [by rewrite F4|].
    assert (forall j, node s6 j = node s4 j) as F5 by (intros j; unfold node; by rewrite F1).
    split; [|split].
    - intros j Hj Hne. rewrite F5, Hnode by done. rewrite (proj2 (Z.eqb_neq j n) Hne). by apply C5.
    - unfold used. rewrite F5, Hnode by done. by rewrite Z.eqb_refl.
    - unfold nx. rewrite F5, Hnode by done. rewrite Z.eqb_refl. exact C3. }
  change (node_count s5) with (node_count s3). rewrite C6. destruct (nz (node_count s)) eqn:E; apply Hend; try done; cbn; by rewrite ?E, C6.
Qed.

Lemma release_ok s K Fl n : tree_but n s K Fl -> rng n -> used s n = true -> par s n = -1 -> n <> ROOT -> K n = [] ->
  tree_ok (release_node n s) K (n :: Fl).
Proof.
  intros Ht Hn Hu Hp Hr HK. destruct (release_run s n (tr_sized _ _ _ Ht) Hn (tr_table _ _ _ Ht)) as (Hz & Htab & Hfh & Hcnt & _ & Hb & Hun & Hnxn).
  set (s' := release_node n s) in *. pose proof (tr_lists _ _ _ Ht) as Hl.
  assert (forall j, rng j -> used s' j = true -> j <> n /\ used s j = true /\ node s' j = node s j) as Hus.
  { intros j Hj Hju. assert (j <> n) as Hne by (intros ->; congruence). split; [done|]. unfold used in *. by rewrite Hb in * by done. }
  assert (forall j, rng j -> j <> n -> used s j = true -> used s' j = true) as Hus2.
  { intros j Hj Hne. unfold used. by rewrite Hb. }
  assert (forall d c, rng d -> used s d = true -> c ∈ K d -> c <> n) as Hkn.
  { intros d c Hd Hdu Hc ->. destruct (kid_rng _ s K Fl d n Ht Hd Hdu Hc) as (_ & _ & E). unfold rng in Hd. lia. }
  assert (n ∉ Fl) as HnF by (intros [_ ?]%(tr_free _ _ _ Ht); congruence).
  assert (forall c, rng c -> used s c = true -> par s c <> n) as Hpn.
  { intros c Hc Hcu E. assert (c ∈ K n) as Hin by (by apply (tr_kid _ _ _ Ht n c Hn Hu)). rewrite HK in Hin. by apply elem_of_nil in Hin. }
  assert (forall j, rng j -> j <> n -> par s' j = par s j /\ nx s' j = nx s j /\ fc s' j = fc s j) as Hf.
  { intros j Hj Hne. unfold par, nx, fc. by rewrite Hb. }
  split.
  - rewrite Htab. apply Ht.
  - done.
  - split.
    + rewrite Hfh. split; [done|]. split; [apply Hn|]. rewrite Hnxn. eapply seg_ext; [|apply (lo_free _ _ _ Hl)]. intros y Hy.
      pose proof Hy as [Hyr _]%(tr_free _ _ _ Ht). apply Hf; [done|by intros ->].
    + apply NoDup_cons. split; [done|apply Hl].
    + intros d Hd Hdu. destruct (Hus d Hd Hdu) as (Hdn & Hdu' & _). destruct (Hf d Hd Hdn) as (_ & _ & ->).
      eapply seg_ext; [|by apply (lo_kids _ _ _ Hl)]. intros y Hy. pose proof (Hkn d y Hd Hdu' Hy).
      apply Hf; [by apply (kid_rng _ s K Fl d y Ht)|done].
    + intros d Hd Hdu. destruct (Hus d Hd Hdu) as (_ & Hdu' & _). by apply (lo_kids_nodup _ _ _ Hl).
  - intros i. rewrite elem_of_cons, (tr_free _ _ _ Ht). split.
    + intros [->|[Hi Hiu]]; [done|]. split; [done|]. destruct (used s' i) eqn:E; [|done].
      destruct (Hus i Hi E) as (_ & ? & _). congruence.
    + intros [Hi Hiu]. destruct (decide (i = n)) as [->|Hne]; [by left|right]. split; [done|].
      destruct (used s i) eqn:E; [|done]. rewrite (Hus2 i Hi Hne E) in Hiu. done.
  - intros d c Hd Hdu. destruct (Hus d Hd Hdu) as (Hdn & Hdu' & _). rewrite (tr_kid _ _ _ Ht d c Hd Hdu'). split.
    + intros (Hc & Hcu & Hcp). assert (c <> n) as Hcn by (intros ->; unfold rng in Hd; lia).
      split; [done|]. split; [by apply Hus2|]. by rewrite (proj1 (Hf c Hc Hcn)).
    + intros (Hc & Hcu & Hcp). destruct (Hus c Hc Hcu) as (Hcn & ? & _). by rewrite (proj1 (Hf c Hc Hcn)) in Hcp.
  - intros d c c' Hd Hdu Hc Hc' He. destruct (Hus d Hd Hdu) as (Hdn & Hdu' & _).
    destruct (kid_rng _ s K Fl d c Ht Hd Hdu' Hc) as [Hcr _]. destruct (kid_rng _ s K Fl d c' Ht Hd Hdu' Hc') as [Hcr' _].
    rewrite !Hb in He by (done || by apply (Hkn d)). by apply (tr_name _ _ _ Ht d).
  - intros d Hd Hdu Hdd. destruct (Hus d Hd Hdu) as (Hdn & Hdu' & E). rewrite E in Hdd. by apply (tr_dir _ _ _ Ht).
  - intros c Hc Hcu. destruct (Hus c Hc Hcu) as (Hcn & Hcu' & _). rewrite (proj1 (Hf c Hc Hcn)).
    destruct (tr_parent _ _ _ Ht c Hc Hcu') as [|[Hpr Hpu]]; [by left|right]. split; [done|]. apply Hus2; [done|by apply Hpn|done].
  - intros c Hc Hcu Hcp. destruct (Hus c Hc Hcu) as (Hcn & Hcu' & E). rewrite E. rewrite (proj1 (Hf c Hc Hcn)) in Hcp.
    destruct (tr_orphan _ _ _ Ht c Hc Hcu' Hcp) as [|[->|]]; [by left|done|by do 2 right].
  - intros c Hc Hcu Hcp. destruct (Hus c Hc Hcu) as (Hcn & Hcu' & E). rewrite E. rewrite (proj1 (Hf c Hc Hcn)) in Hcp. by apply (tr_linked _ _ _ Ht).
  - destruct (tr_root _ _ _ Ht) as (R1 & R2 & R3 & R4). assert (ROOT <> n) as Hrn by done.
    rewrite (proj1 (Hf ROOT root_rng Hrn)), (Hb ROOT root_rng Hrn). split; [by apply Hus2|done].
  - intros c Hc Hcu. destruct (Hus c Hc Hcu) as (Hcn & Hcu' & _). destruct (tr_climb _ _ _ Ht c Hc Hcu') as [k Hk]. exists k.
    revert c Hc Hcu Hcn Hcu' Hk. induction k as [|k IH]; intros c Hc Hcu Hcn Hcu'; cbn [climb]; rewrite (proj1 (Hf c Hc Hcn)); [done|].
    intros [Hne Hk]. split; [done|]. destruct (linked_parent _ s K Fl c Ht Hc Hcu' Hne) as (Hpr & Hpu & _).
    pose proof (Hpn c Hc Hcu'). apply IH; try done. by apply Hus2.
  - pose proof (tr_count _ _ _ Ht) as Hc. assert (length (n :: Fl) <= NNODES)%nat as Hlen.
    { apply NoDup_rng_length; [apply NoDup_cons; split; [done|apply Hl]|]. intros y [->|Hy]%elem_of_cons; [done|]. by apply (tr_free _ _ _ Ht). }
    assert (zlen Fl < RAMFS64_MAX_NODES) as Hlt by (unfold zlen, NNODES in *; cbn [length] in Hlen; lia).
    rewrite zlen_cons. rewrite Hcnt. unfold nz. destruct (Z.eqb_spec (node_count s) 0); cbn [negb]; lia.
Qed.

(** ** Into a list *)

(** [n] is met on the way up from [c], in at most [k] steps. *)
Fixpoint meets s (k : nat) (c n : Z) : Prop :=
  c = n \/ match k with O => False | S k' => meets s k' (par s c) n end.

(** Put under [p], under a name. *)
Definition attach (p n : Z) (nm : list Z) (s : fs H A) : fs H A :=
  let s := upd n (fun nd => set_parent p (set_name nm nd)) s in
  let s := upd n (set_next_sibling (n_first_child (node s p))) s in
  upd p (set_first_child n) s.

Lemma attach_run s p n nm : sized s -> rng p -> rng n -> p <> n ->
  sized (attach p n nm s) /\ same_store s (attach p n nm s) /\ free_head (attach p n nm s) = free_head s /\
  node_count (attach p n nm s) = node_count s /\
  forall j, rng j -> node (attach p n nm s) j =
    if j =? p then set_first_child n (node s p)
    else if j =? n then set_next_sibling (fc s p) (set_parent p (set_name nm (node s n))) else node s j.
Proof.
  intros Hz Hp Hn Hpn. unfold attach. cbv zeta. set (s1 := upd n (fun nd => set_parent p (set_name nm nd)) s).
  assert (sized s1) as Hz1 by (by apply upd_sized).
  assert (forall j, rng j -> node s1 j = if j =? n then set_parent p (set_name nm (node s n)) else node s j) as H1
    by (intros; unfold s1; by rewrite node_upd).
  rewrite (H1 p) by done. rewrite (proj2 (Z.eqb_neq p n) Hpn). set (s2 := upd n _ s1).
  assert (sized s2) as Hz2 by (by apply upd_sized).
  assert (forall j, rng j -> node s2 j = if j =? n then set_next_sibling (fc s p) (set_parent p (set_name nm (node s n))) else node s j) as H2.
  { intros j Hj. unfold s2. rewrite node_upd, !H1, Z.eqb_refl by done. by destruct (Z.eqb_spec j n). }
  split; [by apply upd_sized|]. do 3 (split; [done|]). intros j Hj. rewrite node_upd, !H2 by done.
  rewrite (proj2 (Z.eqb_neq p n) Hpn). done.
Qed.

(** A way up that does not meet [n] stays when only [n] got a parent. *)
Lemma climb_avoid e s s' K Fl n k c : tree_but e s K Fl -> (forall j, rng j -> j <> n -> par s' j = par s j) ->
  rng c -> used s c = true -> climb s k c -> ~ meets s k c n -> climb s' k c.
Proof.
  intros Ht Hp. revert c. induction k as [|k IH]; intros c Hc Hu; cbn [climb meets]; intros Hk Hm;
    (rewrite Hp; [|done|by intros ->; apply Hm; left]); [done|].
  destruct Hk as [Hne Hk]. destruct (linked_parent _ s K Fl c Ht Hc Hu Hne) as (Hpr & Hpu & _).
  split; [done|]. apply IH; [done..|]. intros Hm2. apply Hm. by right.
Qed.

(** ... and one that does goes on up from there. *)
Lemma climb_through e s s' K Fl n p k' k c : tree_but e s K Fl -> (forall j, rng j -> j <> n -> par s' j = par s j) ->
  par s' n = p -> p <> -1 -> climb s' k' p -> rng c -> used s c = true -> climb s k c -> par s n = -1 -> meets s k c n ->
  climb s' (k + S k') c.
Proof.
  intros Ht Hp Hpn Hp1 Hk' Hc Hu Hk Hn. revert c Hc Hu Hk. induction k as [|k IH]; intros c Hc Hu; cbn [climb meets].
  - intros _ [->|[]]. cbn [Nat.add climb]. by rewrite Hpn.
  - intros [Hne Hk] Hm. assert (c <> n) as Hcn by (intros ->; done). destruct Hm as [|Hm]; [done|].
    destruct (linked_parent _ s K Fl c Ht Hc Hu Hne) as (Hpr & Hpu & _). cbn [Nat.add climb]. rewrite Hp by done.
    split; [done|]. by apply IH.
Qed.

Lemma meets_dec s k c n : meets s k c n \/ ~ meets s k c n.
Proof.
  revert c. induction k as [|k IH]; intros c; cbn [meets].
  - destruct (decide (c = n)); [by left; left|right; tauto].
  - destruct (decide (c = n)); [by left; left|]. destruct (IH (par s c)); [left|right]; tauto.
Qed.

Lemma attach_ok s K Fl p n nm : tree_but n s K Fl -> rng n -> used s n = true -> par s n = -1 -> n <> ROOT ->
  n_unlinked (node s n) = false -> rng p -> used s p = true -> n_is_dir (node s p) = true -> n_unlinked (node s p) = false ->
  (forall c, c ∈ K p -> n_name (node s c) <> nm) -> (forall k, climb s k p -> ~ meets s k p n) ->
  tree_ok (attach p n nm s) (kset K p (n :: K p)) Fl.
Proof.
  intros Ht Hn Hnu Hnp Hnr Hnl Hp Hpu Hpd Hpl Hfresh Hcyc. destruct (tr_climb _ _ _ Ht p Hp Hpu) as [kp Hkp].
  assert (p <> n) as Hpn.
  { intros ->. apply (Hcyc kp Hkp). destruct kp; by left. }
  destruct (attach_run s p n nm (tr_sized _ _ _ Ht) Hp Hn Hpn) as (Hz' & Hst & Hfh & Hcnt & Hnode).
  set (s' := attach p n nm s) in *. pose proof (tr_lists _ _ _ Ht) as Hl.
  assert (forall j, rng j -> used s' j = used s j /\ n_is_dir (node s' j) = n_is_dir (node s j) /\
    n_unlinked (node s' j) = n_unlinked (node s j) /\ par s' j = (if j =? n then p else par s j) /\
    n_name (node s' j) = (if j =? n then nm else n_name (node s j)) /\ nx s' j = (if j =? n then fc s p else nx s j) /\
    fc s' j = (if j =? p then n else fc s j)) as F.
  { intros j Hj. unfold used, par, nx, fc. rewrite Hnode by done. destruct (Z.eqb_spec j p) as [->|].
    - by rewrite (proj2 (Z.eqb_neq p n) Hpn).
    - by destruct (Z.eqb_spec j n) as [->|]. }
  assert (forall d, rng d -> used s d = true -> n ∉ K d) as HnK.
  { intros d Hd Hdu Hin. apply (kid_rng _ s K Fl d n Ht Hd Hdu) in Hin as (_ & _ & E). unfold rng in Hd. lia. }
  assert (forall d c, rng d -> used s d = true -> c ∈ K d -> rng c /\ c <> n) as HKn.
  { intros d c Hd Hdu Hc. split; [by apply (kid_rng _ s K Fl d c Ht)|]. intros ->. by apply (HnK d). }
  assert (forall j, rng j -> par s' j = if j =? n then p else par s j) as Hpar by (intros j Hj; by apply (F j Hj)).
  assert (forall j, rng j -> used s' j = used s j) as Hus by (intros j Hj; by apply (F j Hj)).
  assert (forall j, rng j -> j <> n -> par s' j = par s j) as Hpar2.
  { intros j Hj Hne. rewrite Hpar by done. by rewrite (proj2 (Z.eqb_neq j n) Hne). }
  split.
  - destruct Hst as (_ & _ & _ & ->). apply Ht.
  - done.
  - split.
    + rewrite Hfh. eapply seg_ext; [|apply (lo_free _ _ _ Hl)]. intros y [Hyr Hyu]%(tr_free _ _ _ Ht).
      destruct (F y Hyr) as (_ & _ & _ & _ & _ & -> & _). by rewrite (proj2 (Z.eqb_neq y n)) by (intros ->; congruence).
    + apply Hl.
    + intros d Hd Hdu. rewrite Hus in Hdu by done. destruct (F d Hd) as (_ & _ & _ & _ & _ & _ & ->).
      assert (seg (nx s') (fc s d) (K d)) as Hseg.
      { eapply seg_ext; [|by apply (lo_kids _ _ _ Hl)]. intros y Hy. destruct (HKn d y Hd Hdu Hy) as [Hyr Hyn].
        destruct (F y Hyr) as (_ & _ & _ & _ & _ & -> & _). by rewrite (proj2 (Z.eqb_neq y n) Hyn). }
      unfold kset. destruct (Z.eqb_spec d p) as [->|]; [|done]. split; [done|]. split; [apply Hn|].
      destruct (F n Hn) as (_ & _ & _ & _ & _ & -> & _). by rewrite Z.eqb_refl.
    + intros d Hd Hdu. rewrite Hus in Hdu by done. unfold kset. destruct (Z.eqb_spec d p) as [->|]; [|by apply (lo_kids_nodup _ _ _ Hl)].
      apply NoDup_cons. split; [by apply HnK|by apply (lo_kids_nodup _ _ _ Hl)].
  - intros i. rewrite (tr_free _ _ _ Ht i). split; intros [Hi ?]; (split; [done|]); by rewrite Hus in *.
  - intros d c Hd Hdu. rewrite Hus in Hdu by done. assert (c ∈ kset K p (n :: K p) d <-> (c = n /\ d = p) \/ c ∈ K d) as ->.
    { unfold kset. destruct (Z.eqb_spec d p) as [->|]; [rewrite elem_of_cons; tauto|naive_solver]. }
    rewrite (tr_kid _ _ _ Ht d c Hd Hdu). split.
    + intros [[-> ->]|(Hc & Hcu & Hcp)]; [by rewrite Hus, Hpar, Z.eqb_refl by done|].
      assert (c <> n) as Hcn by (intros ->; unfold rng in Hd; lia). by rewrite Hus, Hpar2 by done.
    + intros (Hc & Hcu & Hcp). rewrite Hus in Hcu by done. rewrite Hpar in Hcp by done.
      destruct (Z.eqb_spec c n); [by left|by right].
  - intros d c c' Hd Hdu Hc Hc' He. rewrite Hus in Hdu by done.
    assert (forall y, y ∈ kset K p (n :: K p) d -> (y = n /\ d = p /\ n_name (node s' y) = nm) \/ (y <> n /\ y ∈ K d /\ n_name (node s' y) = n_name (node s y))) as Hy.
    { intros y Hy. assert ((y = n /\ d = p) \/ y ∈ K d) as [[-> ->]|Hy2].
      { revert Hy. unfold kset. destruct (Z.eqb_spec d p) as [->|]; [rewrite elem_of_cons; tauto|tauto]. }
      - left. destruct (F n Hn) as (_ & _ & _ & _ & -> & _). by rewrite Z.eqb_refl.
      - right. destruct (HKn d y Hd Hdu Hy2) as [Hyr Hyn]. destruct (F y Hyr) as (_ & _ & _ & _ & -> & _).
        by rewrite (proj2 (Z.eqb_neq y n) Hyn). }
    destruct (Hy c Hc) as [(-> & -> & E)|(Hcn & Hc2 & E)], (Hy c' Hc') as [(-> & E0 & E')|(Hcn' & Hc2' & E')]; [done|..].
    + rewrite E, E' in He. by destruct (Hfresh c').
    + subst d. rewrite E, E' in He. by destruct (Hfresh c).
    + rewrite E, E' in He. by apply (tr_name _ _ _ Ht d).
  - intros d Hd Hdu Hdd. rewrite Hus in Hdu by done. destruct (F d Hd) as (_ & Ed & _). rewrite Ed in Hdd.
    unfold kset. destruct (Z.eqb_spec d p) as [->|]; [congruence|]. by apply (tr_dir _ _ _ Ht).
  - intros c Hc Hcu. rewrite Hus in Hcu by done. rewrite Hpar by done. destruct (Z.eqb_spec c n) as [->|].
    + right. split; [done|]. by rewrite Hus.
    + destruct (tr_parent _ _ _ Ht c Hc Hcu) as [|[Hcr Hcu2]]; [by left|right]. split; [done|]. by rewrite Hus.
  - intros c Hc Hcu Hcp. rewrite Hus in Hcu by done. rewrite Hpar in Hcp by done. destruct (Z.eqb_spec c n) as [->|Hcn]; [unfold rng in Hp; lia|].
    destruct (F c Hc) as (_ & _ & -> & _). destruct (tr_orphan _ _ _ Ht c Hc Hcu Hcp) as [|[|[Hul HKc]]]; [by left|done|right; right].
    split; [done|]. unfold kset. destruct (Z.eqb_spec c p) as [->|]; [congruence|done].
  - intros c Hc Hcu Hcp. rewrite Hus in Hcu by done. rewrite Hpar in Hcp by done. destruct (F c Hc) as (_ & _ & -> & _).
    destruct (Z.eqb_spec c n) as [->|Hcn]; [done|]. by apply (tr_linked _ _ _ Ht).
  - destruct (tr_root _ _ _ Ht) as (R1 & R2 & R3 & R4). destruct (F ROOT root_rng) as (-> & -> & -> & -> & _).
    by rewrite (proj2 (Z.eqb_neq ROOT n)) by congruence.
  - intros c Hc Hcu. rewrite Hus in Hcu by done. destruct (tr_climb _ _ _ Ht c Hc Hcu) as [k Hk].
    destruct (meets_dec s k c n) as [Hm|Hm].
    + exists (k + S kp)%nat. apply (climb_through n s s' K Fl n p kp k c Ht); try done; [by rewrite Hpar, Z.eqb_refl by done|unfold rng in Hp; lia|].
      apply (climb_avoid n s s' K Fl n kp p Ht); try done. by apply Hcyc.
    + exists k. by apply (climb_avoid n s s' K Fl n k c Ht).
  - rewrite Hcnt. apply Ht.
Qed.

(** ** Above *)

(** The way up, nearest first. *)
Fixpoint way s (k : nat) (c : Z) : list Z :=
  match k with O => [c] | S k' => c :: way s k' (par s c) end.

Lemma way_climb e s K Fl k c x : tree_but e s K Fl -> rng c -> used s c = true -> climb s k c -> x ∈ way s k c ->
  rng x /\ exists k', (k' <= k)%nat /\ climb s k' x.
Proof.
  intros Ht. revert c. induction k as [|k IH]; intros c Hc Hu; cbn [climb way]; intros Hk; rewrite elem_of_cons.
  - intros [->|?%elem_of_nil]; [|done]. eauto.
  - intros [->|Hx]; [split; [done|]; exists (S k); by split|]. destruct Hk as [Hne Hk].
    destruct (linked_parent _ s K Fl c Ht Hc Hu Hne) as (Hpr & Hpu & _).
    destruct (IH _ Hpr Hpu Hk Hx) as (? & k' & ? & ?). split; [done|]. exists k'. split; [lia|done].
Qed.

(** The way up visits no node twice, so it is shorter than the table. *)
Lemma climb_short e s K Fl k c : tree_but e s K Fl -> rng c -> used s c = true -> climb s k c -> (k < NNODES)%nat.
Proof.
  intros Ht Hc Hu Hk. assert (length (way s k c) = S k) as Hlen.
  { clear Hc Hu Hk. revert c. induction k as [|k IH]; intros c; [done|]. cbn [way length]. by rewrite IH. }
  assert (S k <= NNODES)%nat; [|lia]. rewrite <-Hlen. apply NoDup_rng_length.
  - clear Hlen. revert c Hc Hu Hk. induction k as [|k IH]; intros c Hc Hu Hk; cbn [way]; [apply NoDup_singleton|].
    pose proof Hk as [Hne Hk2]. destruct (linked_parent _ s K Fl c Ht Hc Hu Hne) as (Hpr & Hpu & _).
    apply NoDup_cons. split; [|by apply IH]. intros Hin.
    destruct (way_climb e s K Fl k (par s c) c Ht Hpr Hpu Hk2 Hin) as (_ & k' & Hle & Hk').
    pose proof (climb_det s _ _ _ Hk Hk'). lia.
  - intros x Hx. by apply (way_climb e s K Fl k c x Ht).
Qed.

(** The loop that looks for a cycle ends, and finds it. *)
Lemma above_spec s K Fl a src : tree_ok s K Fl -> rng a -> used s a = true ->
  exists b k, above (S NNODES) a src s = Some b /\ climb s k a /\ (b = true <-> meets s k a src).
Proof.
  intros Ht Ha Hu. destruct (tr_climb _ _ _ Ht a Ha Hu) as [k Hk]. pose proof (climb_short _ s K Fl k a Ht Ha Hu Hk) as Hlt.
  assert (forall fuel k a, rng a -> used s a = true -> climb s k a -> (k + 1 < fuel)%nat ->
    exists b, above fuel a src s = Some b /\ (b = true <-> meets s k a src)) as Hgen.
  { clear a Ha Hu k Hk Hlt. induction fuel as [|fuel IH]; intros k a Ha Hu Hk Hf; [lia|]. cbn [above].
    rewrite (proj2 (Z.leb_le 0 a)) by apply Ha. cbn [negb]. destruct (Z.eqb_spec a src) as [->|Hne].
    { exists true. split; [done|]. split; [|done]. intros _. destruct k; by left. }
    destruct (Z.eqb_spec a ROOT) as [->|Hr].
    { exists false. split; [done|]. split; [done|]. destruct (tr_root _ _ _ Ht) as (_ & _ & R3 & _).
      rewrite (climb_det s k 0 ROOT Hk R3). by intros [|[]]. }
    destruct k as [|k]; cbn [climb] in Hk.
    - exists false. change (n_parent (node s a)) with (par s a). rewrite Hk. destruct fuel as [|fuel]; [lia|].
      split; [done|]. split; [done|]. by intros [|[]].
    - destruct Hk as [Hnp Hk]. destruct (linked_parent _ s K Fl a Ht Ha Hu Hnp) as (Hpr & Hpu & _).
      destruct (IH k (par s a) Hpr Hpu Hk ltac:(lia)) as (b & Hb & Hm). exists b. split; [exact Hb|].
      rewrite Hm. split; [by right|by intros [|]]. }
  destruct (Hgen (S NNODES) k a Ha Hu Hk ltac:(lia)) as (b & ? & ?). by exists b, k.
Qed.

(** ** Walking a path *)

(** A node a path can lead to. *)
Definition named s (d : Z) : Prop := rng d /\ used s d = true /\ n_unlinked (node s d) = false.

Lemma root_named s K Fl : tree_ok s K Fl -> named s ROOT.
Proof. intros Ht. by destruct (tr_root _ _ _ Ht) as (? & _ & _ & ?). Qed.

Lemma kid_named s K Fl d c : tree_ok s K Fl -> rng d -> used s d = true -> c ∈ K d -> named s c.
Proof.
  intros Ht Hd Hu Hc. destruct (kid_rng _ s K Fl d c Ht Hd Hu Hc) as (Hcr & Hcu & Hcp). split; [done|]. split; [done|].
  apply (tr_linked _ _ _ Ht); [done|done|]. unfold rng in Hd. lia.
Qed.

Lemma parent_named s K Fl c : tree_ok s K Fl -> rng c -> used s c = true -> 0 <= par s c -> named s (par s c).
Proof.
  intros Ht Hc Hu Hp. destruct (linked_parent _ s K Fl c Ht Hc Hu ltac:(lia)) as (Hpr & Hpu & Hin).
  split; [done|]. split; [done|]. destruct (decide (par s (par s c) = -1)) as [Hpp|Hpp]; [|by apply (tr_linked _ _ _ Ht)].
  destruct (tr_orphan _ _ _ Ht _ Hpr Hpu Hpp) as [->|[E|[_ HK]]]; [by apply (tr_root _ _ _ Ht)|rewrite E in Hpr; by destruct Hpr|].
  rewrite HK in Hin. by apply elem_of_nil in Hin.
Qed.

Lemma find_child_named s K Fl d name c : tree_ok s K Fl -> rng d -> used s d = true -> find_child d name s = Some c ->
  0 <= c -> named s c /\ c ∈ K d /\ n_name (node s c) = name.
Proof.
  intros Ht Hd Hu Hf Hc. destruct (find_child_spec _ s K Fl d name Ht Hd Hu) as [(c' & Hf' & Hin & Hn)|[Hf' _]];
    rewrite Hf in Hf'; apply (inj Some) in Hf'; subst c; [|lia]. split; [by apply (kid_named s K Fl d)|done].
Qed.

Lemma drop_slashes_length p : (length (drop_slashes p) <= length p)%nat.
Proof. induction p as [|c p IH]; simpl; [lia|]. destruct (c =? slash); simpl; lia. Qed.

Lemma drop_slashes_head p c q : drop_slashes p = c :: q -> c <> slash.
Proof. induction p as [|x p IH]; simpl; [done|]. destruct (Z.eqb_spec x slash); [done|]. by intros [= -> ->]. Qed.

Lemma component_app p : fst (component p) ++ snd (component p) = p.
Proof. induction p as [|x p IH]; [done|]. simpl. destruct (x =? slash); [done|]. destruct (component p). simpl in *. by rewrite IH. Qed.

(** A component is not empty. *)
Lemma component_shrinks p c q a b : drop_slashes p = c :: q -> component (c :: q) = (a, b) ->
  (length b < length p)%nat /\ (0 < length a)%nat.
Proof.
  intros Hd Hc. pose proof (drop_slashes_head _ _ _ Hd) as Hs. pose proof (drop_slashes_length p) as Hl. rewrite Hd in Hl.
  pose proof (component_app (c :: q)) as E. rewrite Hc in E. simpl in E. apply (f_equal length) in E. rewrite length_app in E.
  simpl in Hc, E, Hl. rewrite (proj2 (Z.eqb_neq c slash) Hs) in Hc. destruct (component q). injection Hc as <- <-. simpl in *. lia.
Qed.

Lemma copy_rest_length first out rest o : zlen out < RAMFS64_PATH_MAX -> copy_rest first out rest = Some o -> zlen o < RAMFS64_PATH_MAX.
Proof.
  revert first out. induction rest as [|c r IH]; intros first out Ho; simpl; [by intros [= <-]|].
  destruct (Z.leb_spec RAMFS64_PATH_MAX (zlen out + 2)) as [|Hlt]; [done|]. apply IH.
  destruct (first && negb (c =? slash)); rewrite ?zlen_app; change (zlen [c]) with 1; change (zlen [slash]) with 1; lia.
Qed.

Lemma upto_nul_length p : (length (upto_nul p) <= length p)%nat.
Proof. induction p as [|c p IH]; simpl; [lia|]. destruct (c =? 0); simpl; lia. Qed.

(** What the walk still has before it. *)
Definition walk_left (links : Z) (p : list Z) : Z := zlen p + (RAMFS64_LINK_MAX - links) * RAMFS64_PATH_MAX.

Lemma walk_left_link links p q : links + 1 <= RAMFS64_LINK_MAX -> zlen q < RAMFS64_PATH_MAX -> walk_left (links + 1) q < walk_left links p.
Proof. unfold walk_left, RAMFS64_LINK_MAX, RAMFS64_PATH_MAX. pose proof (zlen_nonneg p). lia. Qed.

(** What a path can end in: a name that fits the node. *)
Definition good_name (c : list Z) : Prop := c <> [] /\ zlen c < RAMFS64_NAME_MAX.

(** The walk ends, within its fuel, at a node that has a name. *)
Lemma walk_loop_ok s K Fl fuel wp ff links nd p : tree_ok s K Fl -> named s nd -> 0 <= links <= RAMFS64_LINK_MAX ->
  walk_left links p < Z.of_nat fuel ->
  exists r comp, walk_loop fuel wp ff links nd p s = Some (r, comp) /\
    (r = -1 \/ named s r /\ (wp = true -> good_name comp)).
Proof.
  intros Ht. assert (forall l, exists r comp, WALK_FAIL = Some (r, comp) /\ (r = -1 \/ named s r /\ (l = true -> good_name comp))) as Hfail
    by (intros l; exists (-1), []; split; [done|by left]).
  revert links nd p. induction fuel as [|fuel IH]; intros links nd p Hnd Hl Hf.
  { unfold walk_left, RAMFS64_LINK_MAX, RAMFS64_PATH_MAX in *. pose proof (zlen_nonneg p). lia. }
  cbn [walk_loop]. destruct (drop_slashes p) as [|c q] eqn:Ed.
  { destruct wp; [apply Hfail|]. exists nd, []. split; [done|]. right. by split. }
  destruct (component (c :: q)) as [comp p'] eqn:Ec. destruct (component_shrinks p c q comp p' Ed Ec) as [Hlen Hcl].
  assert (walk_left links p' < Z.of_nat fuel) as Hf' by (unfold walk_left, zlen in *; lia).
  cbv zeta. destruct (bool_decide (drop_slashes p' = []) && wp) eqn:Elast.
  { destruct ((zlen comp =? 0) || (RAMFS64_NAME_MAX <=? zlen comp)) eqn:En; [apply Hfail|].
    apply orb_false_iff in En as [_ En%Z.leb_gt]. exists nd, comp. split; [done|]. right. split; [done|]. intros _.
    split; [|done]. intros ->. simpl in Hcl. lia. }
  destruct (bool_decide (comp = [dot])); [by apply IH|]. destruct (bool_decide (comp = [dot; dot])).
  { apply IH; [|done|done]. change (n_parent (node s nd)) with (par s nd). destruct (Z.leb_spec 0 (par s nd)); [|done].
    destruct Hnd as (? & ? & _). by apply (parent_named s K Fl). }
  destruct (find_child_total _ s K Fl nd comp Ht ltac:(apply Hnd) ltac:(apply Hnd)) as (child & Hfc & _). rewrite Hfc. cbn [mbind option_bind].
  destruct (Z.ltb_spec child 0) as [|Hc0]; [apply Hfail|].
  destruct (find_child_named s K Fl nd comp child Ht ltac:(apply Hnd) ltac:(apply Hnd) Hfc Hc0) as (Hcn & _ & _).
  destruct (n_is_link _ && _); [|by apply IH]. destruct (Z.ltb_spec RAMFS64_LINK_MAX (links + 1)) as [|Hlk]; [apply Hfail|].
  destruct (negb (nz (n_data _)) || _); [apply Hfail|]. destruct (Z.leb_spec RAMFS64_PATH_MAX (n_size (node s child))) as [|Hsz]; [apply Hfail|].
  destruct (copy_rest _ _ _) as [out|] eqn:Eo; [|apply Hfail]. apply copy_rest_length in Eo.
  - assert (zlen (upto_nul out) < RAMFS64_PATH_MAX) as Hlo by (unfold zlen in *; pose proof (upto_nul_length out); lia).
    assert (walk_left (links + 1) (upto_nul out) < Z.of_nat fuel) as Hlf by (pose proof (walk_left_link links p (upto_nul out) Hlk Hlo); lia).
    apply IH; [|lia|done]. destruct (upto_nul out) as [|x ?]; [done|]. destruct (x =? slash); [by apply (root_named s K Fl)|done].
  - unfold zlen. rewrite length_take. unfold RAMFS64_PATH_MAX in *. lia.
Qed.

(** [s'] answers at least what [s] does. *)
Record grows s s' : Prop := {
  gr_named d : named s d -> named s' d;
  gr_par d : named s d -> par s' d = par s d;
  gr_link d : named s d -> n_is_link (node s' d) = n_is_link (node s d) /\ n_size (node s' d) = n_size (node s d) /\
    n_data (node s' d) = n_data (node s d) /\ n_block (node s' d) = n_block (node s d);
  gr_find d name c : named s d -> find_child d name s = Some c -> 0 <= c -> find_child d name s' = Some c
}.

Lemma walk_loop_grows s s' K Fl fuel wp ff links nd p r comp : tree_ok s K Fl -> grows s s' -> named s nd ->
  walk_loop fuel wp ff links nd p s = Some (r, comp) -> 0 <= r -> walk_loop fuel wp ff links nd p s' = Some (r, comp).
Proof.
  intros Ht Hg. assert (WALK_FAIL = Some (r, comp) -> 0 <= r -> False) as Hfail by (intros [= <- _]; lia).
  revert links nd p. induction fuel as [|fuel IH]; intros links nd p Hnd; cbn [walk_loop]; [done|].
  destruct (drop_slashes p) as [|c q]; [auto|]. destruct (component (c :: q)) as [comp' p']. cbv zeta.
  destruct (_ && wp); [auto|]. destruct (bool_decide (comp' = [dot])); [by apply IH|]. destruct (bool_decide (comp' = [dot; dot])).
  { change (n_parent (node s' nd)) with (par s' nd). rewrite (gr_par _ _ Hg nd Hnd). apply IH.
    change (n_parent (node s nd)) with (par s nd). destruct (Z.leb_spec 0 (par s nd)); [|done].
    destruct Hnd as (? & ? & _). by apply (parent_named s K Fl). }
  destruct (find_child nd comp' s) as [child|] eqn:Hfc; cbn [mbind option_bind]; [|done].
  destruct (Z.ltb_spec child 0) as [|Hc0]; [intros HF Hr; by destruct (Hfail HF Hr)|].
  rewrite (gr_find _ _ Hg nd comp' child Hnd Hfc Hc0). cbn [mbind option_bind]. rewrite (proj2 (Z.ltb_ge child 0) Hc0).
  destruct (find_child_named s K Fl nd comp' child Ht ltac:(apply Hnd) ltac:(apply Hnd) Hfc Hc0) as (Hcn & _ & _).
  destruct (gr_link _ _ Hg child Hcn) as (-> & -> & -> & ->).
  destruct (n_is_link _ && _); [|by apply IH]. destruct (_ <? _); [auto|]. destruct (_ || _); [auto|]. destruct (_ <=? _); [auto|].
  destruct (copy_rest _ _ _) as [out|]; [|auto]. apply IH. destruct (upto_nul out) as [|x ?]; [done|].
  destruct (x =? slash); [by apply (root_named s K Fl)|done].
Qed.

(** A walk that stopped before the last component, taken one step on. *)
Lemma walk_loop_last s fuel ff ff' links nd p r comp child : walk_loop fuel true ff links nd p s = Some (r, comp) -> 0 <= r ->
  0 <= links <= RAMFS64_LINK_MAX -> walk_left links p < Z.of_nat fuel -> comp <> [dot] -> comp <> [dot; dot] ->
  find_child r comp s = Some child -> (0 <= child -> n_is_link (node s child) && ff' = false) ->
  walk_loop fuel false ff' links nd p s = if child <? 0 then WALK_FAIL else Some (child, []).
Proof.
  intros Hw Hr Hl Hf Hd Hdd Hfc Hlk. assert (WALK_FAIL = Some (r, comp) -> False) as Hfail by (intros [= <- _]; lia).
  revert links nd p Hw Hl Hf. induction fuel as [|fuel IH]; intros links nd p Hw Hl Hf; cbn [walk_loop] in *; [done|].
  destruct (drop_slashes p) as [|c q] eqn:Ed; [by destruct (Hfail Hw)|].
  destruct (component (c :: q)) as [comp' p'] eqn:Ec. destruct (component_shrinks p c q comp' p' Ed Ec) as [Hlen Hcl].
  assert (walk_left links p' < Z.of_nat fuel) as Hf' by (unfold walk_left, zlen in *; lia).
  cbv zeta in *. rewrite andb_true_r in Hw. rewrite andb_false_r. destruct (bool_decide (drop_slashes p' = [])) eqn:Elast.
  { destruct ((zlen comp' =? 0) || _); [by destruct (Hfail Hw)|]. injection Hw as -> ->.
    rewrite (bool_decide_eq_false_2 _ Hd), (bool_decide_eq_false_2 _ Hdd), Hfc. cbn [mbind option_bind]. destruct (Z.ltb_spec child 0); [done|].
    cbn [negb orb]. rewrite Hlk by done. apply bool_decide_eq_true in Elast. destruct fuel as [|fuel].
    { unfold walk_left, RAMFS64_LINK_MAX, RAMFS64_PATH_MAX in *. pose proof (zlen_nonneg p'). lia. }
    cbn [walk_loop]. by rewrite Elast. }
  destruct (bool_decide (comp' = [dot])); [by apply IH|]. destruct (bool_decide (comp' = [dot; dot])); [by apply IH|].
  destruct (find_child nd comp' s) as [child'|]; cbn [mbind option_bind] in *; [|done].
  destruct (child' <? 0); [by destruct (Hfail Hw)|]. cbn [negb orb andb] in *.
  destruct (n_is_link (node s child') && true); [|by apply IH].
  destruct (Z.ltb_spec RAMFS64_LINK_MAX (links + 1)) as [|Hlk']; [by destruct (Hfail Hw)|].
  destruct (negb (nz (n_data (node s child'))) || _); [by destruct (Hfail Hw)|].
  destruct (Z.leb_spec RAMFS64_PATH_MAX (n_size (node s child'))) as [|Hsz]; [by destruct (Hfail Hw)|].
  destruct (copy_rest _ _ _) as [out|] eqn:Eo; [|by destruct (Hfail Hw)]. apply IH; [done|lia|]. apply copy_rest_length in Eo.
  - assert (zlen (upto_nul out) < RAMFS64_PATH_MAX) as Hlo by (unfold zlen in *; pose proof (upto_nul_length out); lia).
    pose proof (walk_left_link links p (upto_nul out) Hlk' Hlo). lia.
  - unfold zlen. rewrite length_take. unfold RAMFS64_PATH_MAX in *. lia.
Qed.
End tree.

Arguments tr_table {H A x}.
Arguments tr_sized {H A x}.
Arguments tr_lists {H A x}.
Arguments tr_free {H A x}.
Arguments tr_kid {H A x}.
Arguments tr_name {H A x}.
Arguments tr_dir {H A x}.
Arguments tr_parent {H A x}.
Arguments tr_orphan {H A x}.
Arguments tr_linked {H A x}.
Arguments tr_root {H A x}.
Arguments tr_climb {H A x}.
Arguments tr_count {H A x}.
