(* ===== verification/Ramnames.v ===== *)
(** * The names of the RAM file system ([kernel/ramfs64.c])

    What the operations on names and on contents do to the tree of
    [Ramtree]: each keeps it a tree, and changes exactly the directory
    entries it is called for. *)

From S2P Require Import Prelude FrameAlloc Ramfs64 Ramtree.
From S2P Require Pipe64.

Section names.
  Context {H A : Type} `{!Pipe64.KernelHeap H, !FrameAllocator A}.
  Implicit Types s : fs H A.

Abbreviation tree_ok := (tree_but (-1)).

(** ** Contents do not touch the tree *)

(** Only contents, permissions and counts of openers changed. *)
Definition quiet s s' : Prop := same_tree s s' /\ forall j, rng j -> n_unlinked (node s' j) = n_unlinked (node s j).

Lemma still_refl s : sized s -> quiet s s.
Proof. done. Qed.

Lemma still_trans s1 s2 s3 : quiet s1 s2 -> quiet s2 s3 -> quiet s1 s3.
Proof.
  intros [[Z1 T1 F1 C1 N1] U1] [[Z2 T2 F2 C2 N2] U2]. split; [split; [done|congruence|congruence|congruence|]|]; intros j Hj; [by rewrite N2, N1|by rewrite U2, U1].
Qed.

Lemma quiet_upd i f s : sized s -> rng i -> (forall nd, skel (f nd) = skel nd /\ n_unlinked (f nd) = n_unlinked nd) -> quiet s (upd i f s).
Proof.
  intros Hz Hi Hf. split; [apply upd_same_tree; [done|done|by intros nd; apply Hf]|]. intros j Hj. rewrite node_upd by done.
  destruct (Z.eqb_spec j i) as [->|]; [apply Hf|done].
Qed.

(** The allocators and the pages are not of the tree. *)
Lemma quiet_store s s' : sized s -> nodes s' = nodes s -> table s' = table s -> free_head s' = free_head s ->
  node_count s' = node_count s -> quiet s s'.
Proof.
  intros Hz En Et Ef Ec. assert (forall j, node s' j = node s j) as Hn by (intros; unfold node; by rewrite En).
  split; [split|]; try done; [unfold sized; by rewrite En|intros j _; by rewrite Hn..].
Qed.

Lemma quiet_sized s s' : quiet s s' -> sized s'.
Proof. by intros [[] _]. Qed.

Lemma quiet_ok e s s' K Fl : tree_but e s K Fl -> quiet s s' -> tree_but e s' K Fl.
Proof. intros Ht [Hst Hu]. apply (same_tree_ok e s); [done|done|]. intros j Hj. left. by apply Hu. Qed.

Lemma valid_rng i s : valid i s = true -> rng i /\ used s i = true.
Proof. unfold valid. rewrite !andb_true_iff, in_range_true. tauto. Qed.

Lemma quiet_free_frames l s : sized s -> quiet s (free_frames l s).
Proof. intros Hz. destruct (free_frames_same l s) as (? & ? & ? & ? & _). by apply quiet_store. Qed.

Lemma quiet_frames_put fuel nd off k len buf s : sized s -> quiet s (frames_put fuel nd off k len buf s).
Proof.
  revert k s. induction fuel as [|fuel IH]; intros k s Hz; simpl; [done|]. destruct (negb _); [done|]. destruct (_ <=? _); [done|].
  eapply still_trans; [|by apply IH]. by apply quiet_store.
Qed.

Lemma quiet_take_frames fuel i got need s : sized s -> rng i -> quiet s (snd (take_frames fuel i got need s)).
Proof.
  intros Hz Hi. revert got s Hz. induction fuel as [|fuel IH]; intros got s Hz; simpl; [done|]. destruct (negb _); [done|].
  destruct (alloc_frame (frames s)) as [f a]. destruct (f =? 0); simpl.
  - set (s1 := set_alloc a s). eapply (still_trans _ s1); [by apply quiet_store|by apply quiet_free_frames].
  - set (s1 := set_page f _ _). set (s2 := upd i _ s1). assert (quiet s s1) as Q1 by (by apply quiet_store).
    assert (quiet s1 s2) as Q2 by (by apply quiet_upd). eapply still_trans; [exact Q1|]. eapply still_trans; [exact Q2|].
    by apply IH, (quiet_sized s1).
Qed.

Lemma quiet_ensure i want s ok s' : sized s -> rng i -> ensure_capacity i want s = Some (ok, s') -> quiet s s'.
Proof.
  intros Hz Hi. unfold ensure_capacity. cbv zeta. destruct (want <=? _); [by intros [= _ <-]|].
  destruct (grow_cap _ _ _) as [cap|]; cbn [mbind option_bind]; [|done]. unfold kmalloc.
  destruct (Pipe64.kmalloc64 cap (heap s)) as [p h]. destruct (p =? 0); intros [= _ <-]; [by apply quiet_store|].
  set (s1 := if nz (n_data _) then _ else _). assert (quiet s s1) as Q by (unfold s1; destruct (nz _); by apply quiet_store).
  eapply still_trans; [exact Q|]. apply quiet_upd; [by apply (quiet_sized s)|done|done].
Qed.

Lemma quiet_make_framed i n s ok s' : sized s -> rng i -> make_framed i n s = Some (ok, s') -> quiet s s'.
Proof.
  intros Hz Hi. unfold make_framed. cbv zeta. set (need := if nz _ then _ else _). destruct (nz (n_frames _) && _); [by intros [= _ <-]|].
  set (r := if zlen _ <? need then _ else _). intros Hr. destruct r as [[ok1 s1]|] eqn:Er; cbn [mbind option_bind] in Hr; [|done].
  assert (quiet s s1) as Q1.
  { unfold r in Er. destruct (zlen _ <? need); [|by injection Er as _ <-]. destruct (grow_cap _ _ _) as [cap|]; cbn [mbind option_bind] in Er; [|done].
    unfold kmalloc in Er. destruct (Pipe64.kmalloc64 (u64 (cap * 8)) (heap s)) as [p h]. destruct (p =? 0); injection Er as _ <-; [by apply quiet_store|].
    set (s0 := if nz (n_frames _) then _ else _). assert (quiet s s0) as Q by (unfold s0; destruct (nz (n_frames _)); by apply quiet_store).
    eapply still_trans; [exact Q|]. apply quiet_upd; [by apply (quiet_sized s)|done|done]. }
  pose proof (quiet_sized _ _ Q1) as Hz1. destruct ok1; cbn [negb] in Hr; [|by injection Hr as _ <-].
  pose proof (quiet_take_frames (Z.to_nat (need - n_nframes (node s i))) i (n_nframes (node s i)) need s1 Hz1 Hi) as Q2.
  destruct (take_frames _ _ _ _ s1) as [ok2 s2]. cbn [snd] in Q2. pose proof (still_trans _ _ _ Q1 Q2) as Q12. pose proof (quiet_sized _ _ Q2) as Hz2.
  destruct ok2; cbn [negb] in Hr; [|by injection Hr as _ <-]. set (s3 := upd i _ s2) in Hr.
  assert (quiet s2 s3) as Q3 by (by apply quiet_upd). pose proof (still_trans _ _ _ Q12 Q3) as Q13. pose proof (quiet_sized _ _ Q3) as Hz3.
  apply (inj Some), pair_equal_spec in Hr as [_ <-]. destruct (nz (n_data _)); [|done]. set (s4 := frames_put _ _ _ _ _ _ s3).
  assert (quiet s3 s4) as Q4 by (by apply quiet_frames_put). eapply still_trans; [exact Q13|]. eapply still_trans; [exact Q4|].
  set (s5 := kfree _ s4). assert (quiet s4 s5) as Q5 by (apply quiet_store; [by apply (quiet_sized s3)|done..]).
  eapply still_trans; [exact Q5|]. apply quiet_upd; [by apply (quiet_sized s4)|done|done].
Qed.

Lemma quiet_write i off buf s r s' : sized s -> ramfs64_write i off buf s = Some (r, s') -> quiet s s'.
Proof.
  intros Hz. unfold ramfs64_write. cbv zeta. destruct (valid i s) eqn:Hv; cbn [negb]; [|by intros [= _ <-]]. destruct (valid_rng _ _ Hv) as [Hi _].
  destruct (n_is_dir _); [by intros [= _ <-]|]. set (r1 := if negb _ && _ then _ else _). intros Hr.
  destruct r1 as [[flat s1]|] eqn:E1; cbn [mbind option_bind] in Hr; [|done].
  assert (quiet s s1) as Q1.
  { unfold r1 in E1. destruct (negb _ && _); [by eapply (quiet_ensure i)|by injection E1 as _ <-]. }
  pose proof (quiet_sized _ _ Q1) as Hz1. set (r2 := if flat then _ else _) in Hr. destruct r2 as [[ok s2]|] eqn:E2; cbn [mbind option_bind] in Hr; [|done].
  assert (quiet s1 s2) as Q2.
  { unfold r2 in E2. destruct flat.
    - destruct (_ <? _); [done|]. injection E2 as _ <-. by apply quiet_upd.
    - destruct (make_framed _ _ s1) as [[ok' s2']|] eqn:Em; cbn [mbind option_bind] in E2; [|done].
      pose proof (quiet_make_framed _ _ _ _ _ Hz1 Hi Em) as Qm.
      destruct ok'; apply (inj Some), pair_equal_spec in E2 as [_ <-]; [|done].
      eapply still_trans; [exact Qm|]. apply quiet_frames_put. exact (quiet_sized _ _ Qm). }
  pose proof (still_trans _ _ _ Q1 Q2) as Q12. pose proof (quiet_sized _ _ Q2) as Hz2.
  destruct ok; cbn [negb] in Hr; apply (inj Some), pair_equal_spec in Hr as [_ <-]; [|done]. destruct (n_size (node s2 i) <? _); [|done]. eapply still_trans; [exact Q12|]. by apply quiet_upd.
Qed.

Lemma quiet_resize i len s r s' : sized s -> ramfs64_resize i len s = Some (r, s') -> quiet s s'.
Proof.
  intros Hz. unfold ramfs64_resize. cbv zeta. destruct (valid i s) eqn:Hv; cbn [negb]; [|by intros [= _ <-]]. destruct (valid_rng _ _ Hv) as [Hi _].
  destruct (n_is_dir _); [by intros [= _ <-]|]. set (r1 := if _ <? len then _ else _). intros Hr.
  destruct r1 as [[ok s1]|] eqn:E1; cbn [mbind option_bind] in Hr; [|done].
  assert (quiet s s1) as Q1.
  { unfold r1 in E1. destruct (_ <? len); [|by injection E1 as _ <-]. destruct (nz (n_frames _)); [by eapply (quiet_make_framed i)|].
    destruct (ensure_capacity _ _ _) as [[ok' s1']|] eqn:Ee; cbn [mbind option_bind] in E1; [|done].
    pose proof (quiet_ensure _ _ _ _ _ Hz Hi Ee) as Qe. destruct ok'; injection E1 as _ <-; [|done].
    eapply still_trans; [exact Qe|]. apply quiet_upd; [by apply (quiet_sized s)|done|done]. }
  destruct ok; cbn [negb] in Hr; injection Hr as _ <-; [|done]. eapply still_trans; [exact Q1|].
  apply quiet_upd; [by apply (quiet_sized s)|done|done].
Qed.

Lemma quiet_frames i n s k l s' : sized s -> ramfs64_frames i n s = Some (k, l, s') -> quiet s s'.
Proof.
  intros Hz. unfold ramfs64_frames. cbv zeta. destruct (valid i s) eqn:Hv; cbn [negb orb]; [|by intros [= _ _ <-]]. destruct (valid_rng _ _ Hv) as [Hi _].
  destruct (n_is_dir _); [by intros [= _ _ <-]|]. destruct (make_framed _ _ s) as [[ok s1]|] eqn:Em; cbn [mbind option_bind]; [|done].
  pose proof (quiet_make_framed _ _ _ _ _ Hz Hi Em) as Q. by destruct ok; intros [= _ _ <-].
Qed.

Lemma quiet_truncate i s : sized s -> quiet s (snd (ramfs64_truncate i s)).
Proof. intros Hz. unfold ramfs64_truncate. destruct (valid i s) eqn:Hv; cbn [negb snd]; [|done]. destruct (valid_rng _ _ Hv). by apply quiet_upd. Qed.

Lemma quiet_set_mode i m s : sized s -> quiet s (ramfs64_set_mode i m s).
Proof. intros Hz. unfold ramfs64_set_mode. destruct (valid i s) eqn:Hv; [|done]. destruct (valid_rng _ _ Hv). by apply quiet_upd. Qed.

Lemma quiet_set_device i d s : sized s -> quiet s (snd (ramfs64_set_device i d s)).
Proof. intros Hz. unfold ramfs64_set_device. destruct (valid i s) eqn:Hv; cbn [negb orb]; [|done]. destruct (valid_rng _ _ Hv). destruct (n_is_dir _); [done|]. by apply quiet_upd. Qed.

Lemma quiet_ref i s : sized s -> quiet s (ramfs64_ref_node i s).
Proof. intros Hz. unfold ramfs64_ref_node. destruct (valid i s) eqn:Hv; [|done]. destruct (valid_rng _ _ Hv). by apply quiet_upd. Qed.

(** ** Entries *)

(** [c] is in the directory [d] under [nm]. *)
Definition entry s (d : Z) (nm : list Z) (c : Z) : Prop :=
  rng d /\ rng c /\ used s c = true /\ par s c = d /\ n_name (node s c) = nm.

Lemma entry_kid s K Fl d nm c : tree_ok s K Fl -> entry s d nm c <->
  rng d /\ used s d = true /\ c ∈ K d /\ n_name (node s c) = nm.
Proof.
  intros Ht. unfold entry. split.
  - intros (Hd & Hc & Hu & Hp & Hn). destruct (linked_parent _ s K Fl c Ht Hc Hu ltac:(unfold rng in Hd; lia)) as (_ & Hpu & Hin). subst d. done.
  - intros (Hd & Hdu & Hin & Hn). destruct (kid_rng _ s K Fl d c Ht Hd Hdu Hin) as (? & ? & ?). done.
Qed.

(** [find_child] is the directory as a map. *)
Lemma find_child_entry s K Fl d nm c : tree_ok s K Fl -> rng d -> used s d = true -> 0 <= c ->
  find_child d nm s = Some c <-> entry s d nm c.
Proof.
  intros Ht Hd Hu Hc. rewrite (entry_kid s K Fl d nm c Ht). split.
  - intros Hf. destruct (find_child_named s K Fl d nm c Ht Hd Hu Hf Hc) as (_ & ? & ?). done.
  - intros (_ & _ & Hin & <-). by eapply find_child_unique.
Qed.

Lemma find_child_none s K Fl d nm : tree_ok s K Fl -> rng d -> used s d = true -> find_child d nm s = Some (-1) ->
  forall c, c ∈ K d -> n_name (node s c) <> nm.
Proof.
  intros Ht Hd Hu Hf c Hc Hn. pose proof (find_child_unique _ s K Fl d c Ht Hd Hu Hc) as E. rewrite Hn, Hf in E.
  destruct (kid_rng _ s K Fl d c Ht Hd Hu Hc) as ([? _] & _). injection E as E. lia.
Qed.

Lemma find_child_cases s K Fl d nm : tree_ok s K Fl -> rng d -> used s d = true ->
  find_child d nm s = Some (-1) \/ exists c, find_child d nm s = Some c /\ 0 <= c /\ named s c /\ c ∈ K d /\ n_name (node s c) = nm.
Proof.
  intros Ht Hd Hu. destruct (find_child_spec _ s K Fl d nm Ht Hd Hu) as [(c & Hf & Hin & Hn)|[Hf _]]; [right|by left].
  exists c. split; [done|]. pose proof (kid_named s K Fl d c Ht Hd Hu Hin) as Hc. split; [apply Hc|done].
Qed.

Lemma cut_name comp : good_name comp -> cut RAMFS64_NAME_MAX comp = comp.
Proof. intros [_ Hl]. unfold cut, zlen, RAMFS64_NAME_MAX in *. apply take_ge. lia. Qed.

(** ** Paths *)

Lemma walk_ok s K Fl path wp ff : tree_ok s K Fl ->
  exists r comp, walk path wp ff s = Some (r, comp) /\ (r = -1 \/ named s r /\ (wp = true -> good_name comp)).
Proof.
  intros Ht. unfold walk. rewrite (tr_table _ _ _ Ht). cbn [negb].
  destruct path as [|c path]; [by exists (-1), []; split; [|left]|]. destruct (c =? slash); [|by exists (-1), []; split; [|left]].
  apply (walk_loop_ok s K Fl); [done|by apply (root_named s K Fl)|done|]. unfold walk_left, walk_fuel, RAMFS64_LINK_MAX, RAMFS64_PATH_MAX.
  pose proof (zlen_nonneg (c :: path)). lia.
Qed.

Lemma walk_named s K Fl path wp ff r comp : tree_ok s K Fl -> walk path wp ff s = Some (r, comp) -> 0 <= r ->
  named s r /\ (wp = true -> good_name comp).
Proof.
  intros Ht Hw Hr. destruct (walk_ok s K Fl path wp ff Ht) as (r' & comp' & Hw' & Hok). rewrite Hw in Hw'. injection Hw' as <- <-.
  destruct Hok as [->|]; [lia|done].
Qed.

Lemma lookup_ok s K Fl path ff : tree_ok s K Fl -> exists r, fst <$> walk path false ff s = Some r /\ (r = -1 \/ named s r).
Proof.
  intros Ht. destruct (walk_ok s K Fl path false ff Ht) as (r & comp & -> & Hok). exists r. split; [done|]. destruct Hok as [|[? _]]; tauto.
Qed.

Lemma lookup_named s K Fl path ff r : tree_ok s K Fl -> fst <$> walk path false ff s = Some r -> 0 <= r -> named s r.
Proof. intros Ht Hw Hr. destruct (lookup_ok s K Fl path ff Ht) as (r' & Hw' & [->|?]); rewrite Hw in Hw'; injection Hw' as ->; [lia|done]. Qed.

Lemma walk_grows s s' K Fl path wp ff r comp : tree_ok s K Fl -> table s' = table s -> grows s s' ->
  walk path wp ff s = Some (r, comp) -> 0 <= r -> walk path wp ff s' = Some (r, comp).
Proof.
  intros Ht Htab Hg. unfold walk. rewrite Htab. destruct (negb _); [by intros [= <- _]; lia|].
  destruct path as [|c path]; [by intros [= <- _]; lia|]. destruct (c =? slash); [|by intros [= <- _]; lia].
  apply (walk_loop_grows s s' K Fl); [done|done|by apply (root_named s K Fl)].
Qed.

Lemma walk_last s path ff ff' r comp child : walk path true ff s = Some (r, comp) -> 0 <= r ->
  comp <> [dot] -> comp <> [dot; dot] -> find_child r comp s = Some child -> (0 <= child -> n_is_link (node s child) && ff' = false) ->
  fst <$> walk path false ff' s = Some (if child <? 0 then -1 else child).
Proof.
  unfold walk. intros Hw Hr Hd Hdd Hf Hl. destruct (negb _); [injection Hw as <- _; lia|]. destruct path as [|c path]; [injection Hw as <- _; lia|].
  destruct (c =? slash); [|injection Hw as <- _; lia].
  rewrite (walk_loop_last s _ ff ff' 0 ROOT (c :: path) r comp child Hw Hr); try done.
  - by destruct (child <? 0).
  - unfold walk_left, walk_fuel, RAMFS64_LINK_MAX, RAMFS64_PATH_MAX. pose proof (zlen_nonneg (c :: path)). lia.
Qed.

(** ** Making a node *)

(** The contents of a node, and what is known of it besides its place. *)
Definition contents (nd : node64) : Z * list Z * Z * Z * list Z * Z :=
  (n_data nd, n_block nd, n_size nd, n_frames nd, n_farr nd, n_nframes nd).

(** ... and what a caller sees of a node besides its name and place. *)
Definition kept (nd : node64) : Z * list Z * Z * Z * list Z * Z * Z * bool * bool * bool * Z * Z :=
  (n_data nd, n_block nd, n_size nd, n_frames nd, n_farr nd, n_nframes nd, n_openers nd, n_used nd, n_is_dir nd, n_is_link nd, n_mode nd, n_device nd).

Lemma body_kept a b : body a = body b -> kept a = kept b.
Proof. intros E. exact (f_equal kept E). Qed.

Lemma body_contents a b : body a = body b -> contents a = contents b.
Proof. intros E. exact (f_equal contents E). Qed.

(** [c] is new, under [nm] in [p], and the other nodes are as they were. *)
Record made s s' (p : Z) (nm : list Z) (c : Z) : Prop := {
  md_free : used s c = false;
  md_rng : rng c;
  md_used : used s' c = true;
  md_par : par s' c = p;
  md_name : n_name (node s' c) = nm;
  md_plain : n_unlinked (node s' c) = false;
  md_rest j : rng j -> j <> c -> body (node s' j) = body (node s j)
}.

Lemma made_entry s s' p nm c : made s s' p nm c -> rng p ->
  forall d nm' c', entry s' d nm' c' <-> (d = p /\ nm' = nm /\ c' = c) \/ entry s d nm' c'.
Proof.
  intros [M1 M2 M3 M4 M5 _ M7] Hp d nm' c'. unfold entry. destruct (decide (c' = c)) as [->|Hne].
  - rewrite M1, M3, M4, M5. naive_solver.
  - split.
    + intros (Hd & Hc & Hu & Hpar & Hn). right. pose proof (M7 c' Hc Hne) as E.
      unfold used, par in *. rewrite (body_used _ _ E) in Hu. rewrite (body_parent _ _ E) in Hpar. rewrite (body_name _ _ E) in Hn. done.
    + intros [(_ & _ & ?)|(Hd & Hc & Hu & Hpar & Hn)]; [done|]. pose proof (M7 c' Hc Hne) as E.
      unfold used, par in *. rewrite (body_used _ _ E), (body_parent _ _ E), (body_name _ _ E). done.
Qed.

Lemma made_grows s s' K Fl K' Fl' p nm c : tree_ok s K Fl -> tree_ok s' K' Fl' -> made s s' p nm c -> rng p -> grows s s'.
Proof.
  intros Ht Ht' Hm Hp. assert (forall d, named s d -> rng d /\ d <> c) as Hne.
  { intros d (Hd & Hu & _). split; [done|]. intros ->. by rewrite (md_free _ _ _ _ _ Hm) in Hu. }
  assert (forall d, named s d -> named s' d) as Hnm.
  { intros d Hd. destruct (Hne d Hd) as [Hr Hdc]. destruct Hd as (_ & Hu & Hul). pose proof (md_rest _ _ _ _ _ Hm d Hr Hdc) as E.
    split; [done|]. unfold used. by rewrite (body_used _ _ E), (body_unlinked _ _ E). }
  split; [done| | |].
  - intros d Hd. destruct (Hne d Hd). apply body_parent. by apply (md_rest _ _ _ _ _ Hm).
  - intros d Hd. destruct (Hne d Hd) as [Hr Hdc]. pose proof (md_rest _ _ _ _ _ Hm d Hr Hdc) as E.
    pose proof (body_contents _ _ E) as Ec. unfold contents in Ec. injection Ec as -> -> -> _ _ _.
    by apply body_eq in E as (_ & _ & _ & -> & _).
  - intros d name c' Hd Hf Hc. pose proof Hd as (Hr & Hu & _). destruct (Hnm d Hd) as (_ & Hu' & _).
    apply (find_child_entry s' K' Fl'); [done..|]. apply (made_entry s s' p nm c Hm Hp). right. by apply (find_child_entry s K Fl).
Qed.

(** The free list has run out. *)
Lemma alloc_node_full s K nm p dir : tree_ok s K [] -> alloc_node nm p dir s = (-1, s).
Proof.
  intros Ht. pose proof (lo_free _ _ _ (tr_lists _ _ _ Ht)) as Hf. cbn [seg] in Hf. unfold alloc_node.
  rewrite (proj2 (Z.ltb_lt _ 0) Hf). by rewrite orb_true_r.
Qed.

Lemma alloc_node_made s K i Fl nm p dir : tree_ok s K (i :: Fl) -> named s p -> n_is_dir (node s p) = true -> good_name nm ->
  find_child p nm s = Some (-1) ->
  exists s' K', alloc_node nm p dir s = (i, s') /\ tree_ok s' K' Fl /\ same_store s s' /\ made s s' p nm i /\
    body (node s' i) = body (new_node nm p dir).
Proof.
  intros Ht (Hp & Hpu & Hpl) Hdir Hg Hf.
  destruct (alloc_node_ok s i Fl K nm p dir Ht Hp Hpu Hdir Hpl) as (s' & Hr & Ht' & Hst & Hiu & Hi & Hb & Hrest).
  { rewrite (cut_name nm Hg). by apply (find_child_none s K (i :: Fl)). }
  exists s', (kset (kset K i []) p (i :: K p)). split; [done|]. split; [done|]. split; [done|]. split; [|done].
  pose proof (body_name _ _ Hb) as Hbn. cbn in Hbn. rewrite (cut_name nm Hg) in Hbn.
  split; [done|done|unfold used; by rewrite (body_used _ _ Hb)|unfold par; by rewrite (body_parent _ _ Hb)|done|by rewrite (body_unlinked _ _ Hb)|done].
Qed.

Definition fs_ok s : Prop := exists K Fl, tree_ok s K Fl.

Lemma free_left s K Fl : tree_ok s K Fl -> node_count s < RAMFS64_MAX_NODES -> exists i Fl', Fl = i :: Fl'.
Proof. intros Ht Hc. pose proof (tr_count _ _ _ Ht) as E. destruct Fl as [|i Fl']; [change (zlen (@nil Z)) with 0 in E; lia|eauto]. Qed.

Lemma created_ok s K Fl path p comp dir : tree_ok s K Fl -> walk path true true s = Some (p, comp) -> 0 <= p ->
  n_is_dir (node s p) = true -> find_child p comp s = Some (-1) -> node_count s < RAMFS64_MAX_NODES ->
  exists n s', alloc_node comp p dir s = (n, s') /\ fs_ok s' /\ grows s s' /\ same_store s s' /\ made s s' p comp n /\
    body (node s' n) = body (new_node comp p dir) /\ node_count s' = node_count s + 1 /\ rng p /\ 0 <= n /\
    walk path true true s' = Some (p, comp) /\ find_child p comp s' = Some n.
Proof.
  intros Ht Hw Hp Hd Hf Hc. destruct (walk_named s K Fl path true true p comp Ht Hw Hp) as [Hpn Hg].
  destruct (free_left s K Fl Ht Hc) as (i & Fl' & ->).
  destruct (alloc_node_made s K i Fl' comp p dir Ht Hpn Hd (Hg eq_refl) Hf) as (s' & K' & Hr & Ht' & Hst & Hm & Hb).
  pose proof Hpn as (Hpr & Hpu & _). pose proof (made_grows s s' K (i :: Fl') K' Fl' p comp i Ht Ht' Hm Hpr) as Hgr.
  exists i, s'. split; [done|]. split; [by exists K', Fl'|]. do 4 (split; [done|]).
  split; [|split; [done|split; [apply (md_rng _ _ _ _ _ Hm)|split]]].
  - pose proof (tr_count _ _ _ Ht) as E1. pose proof (tr_count _ _ _ Ht') as E2. rewrite zlen_cons in E1. lia.
  - apply (walk_grows s s' K (i :: Fl')); [done| |done..]. apply Hst.
  - apply (find_child_entry s' K' Fl'); [done|done|by apply (gr_named _ _ Hgr)|apply (md_rng _ _ _ _ _ Hm)|].
    apply (made_entry s s' p comp i Hm Hpr). by left.
Qed.

(** ** Taking a name away *)

(** [n] has no entry any more, and the other nodes are as they were. *)
Record removed s s' (n : Z) : Prop := {
  rm_gone : used s' n = false \/ par s' n = -1 /\ n_unlinked (node s' n) = true;
  rm_rest j : rng j -> j <> n -> body (node s' j) = body (node s j)
}.

Lemma removed_entry s s' n : removed s s' n -> forall d nm c, entry s' d nm c <-> entry s d nm c /\ c <> n.
Proof.
  intros [Hg Hr] d nm c. unfold entry. destruct (decide (c = n)) as [->|Hne].
  - split; [|by intros [_ ?]]. intros (Hd & _ & Hu & Hp & _). destruct Hg as [?|[? _]]; [congruence|]. unfold rng in Hd. lia.
  - unfold used, par. split.
    + intros (? & Hc & Hb). rewrite (body_used _ _ (Hr c Hc Hne)), (body_parent _ _ (Hr c Hc Hne)), (body_name _ _ (Hr c Hc Hne)) in Hb. done.
    + intros ((? & Hc & Hb) & _). by rewrite (body_used _ _ (Hr c Hc Hne)), (body_parent _ _ (Hr c Hc Hne)), (body_name _ _ (Hr c Hc Hne)).
Qed.

Lemma removed_named s s' n d : removed s s' n -> named s' d -> d <> n /\ named s d /\ body (node s' d) = body (node s d).
Proof.
  intros [Hg Hr] (Hd & Hu & Hl). assert (d <> n) as Hne by (intros ->; destruct Hg as [?|[_ ?]]; congruence).
  split; [done|]. pose proof (Hr d Hd Hne) as E. split; [|done]. unfold named, used in *. by rewrite <-(body_used _ _ E), <-(body_unlinked _ _ E).
Qed.

Lemma removed_grows s s' K Fl K' Fl' n : tree_ok s K Fl -> tree_ok s' K' Fl' -> removed s s' n -> grows s' s.
Proof.
  intros Ht Ht' Hm. pose proof (removed_named s s' n) as Hn. split.
  - intros d Hd. by apply Hn.
  - intros d Hd. symmetry. apply body_parent. by apply Hn.
  - intros d Hd. destruct (Hn d Hm Hd) as (_ & _ & E). pose proof (body_contents _ _ E) as Ec. unfold contents in Ec.
    injection Ec as -> -> -> _ _ _. by apply body_eq in E as (_ & _ & _ & -> & _).
  - intros d name c Hd Hf Hc. destruct (Hn d Hm Hd) as (_ & (Hr & Hu & _) & _). pose proof Hd as (_ & Hu' & _).
    apply (find_child_entry s K Fl); [done..|]. apply (find_child_entry s' K' Fl') in Hf; [|done..].
    by apply (removed_entry s s' n Hm) in Hf as [? _].
Qed.

(** What unlink and rename do with a node that loses its name. *)
Definition drop_name (n : Z) (s : fs H A) : option (fs H A) :=
  s ← detach_from_parent n s;
  let s := upd n (set_unlinked true) s in
  Some (if n_openers (node s n) =? 0 then release_node n s else s).

Lemma kset_self K p l1 l2 n : p <> n -> K n = [] -> kset K p (l1 ++ l2) n = [].
Proof. intros. by rewrite kset_ne. Qed.

Lemma parent_not_self s K Fl n : tree_ok s K Fl -> rng n -> used s n = true -> K n = [] -> par s n <> n.
Proof.
  intros Ht Hn Hu HK E. assert (par s n <> -1) as Hp by (unfold rng in Hn; lia).
  destruct (linked_parent _ s K Fl n Ht Hn Hu Hp) as (_ & _ & Hin). rewrite E, HK in Hin. by apply elem_of_nil in Hin.
Qed.

Lemma drop_name_ok s K Fl n : tree_ok s K Fl -> rng n -> used s n = true -> par s n <> -1 -> K n = [] ->
  exists s', drop_name n s = Some s' /\ fs_ok s' /\ removed s s' n /\ page s' = page s /\ table s' = table s /\
    (n_openers (node s n) <> 0 -> used s' n = true /\ n_unlinked (node s' n) = true /\ n_is_dir (node s' n) = n_is_dir (node s n) /\
      n_openers (node s' n) = n_openers (node s n) /\ contents (node s' n) = contents (node s n) /\ same_store s s') /\
    (n_openers (node s n) = 0 -> used s' n = false /\ node_count s' = node_count s - 1).
Proof.
  intros Ht Hn Hu Hp HK. destruct (detach_ok s K Fl n Ht Hn Hu Hp) as (s1 & L1 & L2 & Hd & HKp & Ht1 & Hst & Hp1 & Hbn & Hb).
  assert (n <> ROOT) as Hr by (intros ->; by destruct (tr_root _ _ _ Ht) as (_ & _ & ? & _)).
  pose proof (parent_not_self s K Fl n Ht Hn Hu HK) as Hself. set (K1 := kset K (par s n) (L1 ++ L2)) in *.
  assert (K1 n = []) as HK1 by (by apply kset_self).
  assert (used s1 n = true) as Hu1 by (unfold used; by rewrite (body_used _ _ Hbn)).
  unfold drop_name. rewrite Hd. cbn [mbind option_bind]. set (s2 := upd n (set_unlinked true) s1).
  pose proof (mark_ok s1 K1 Fl n Ht1 Hn Hu1 Hp1 Hr HK1) as Ht2. fold s2 in Ht2.
  assert (forall j, rng j -> node s2 j = if j =? n then set_unlinked true (node s1 n) else node s1 j) as Hnode
    by (intros; apply node_upd; [apply Ht1|done|done]).
  assert (node s2 n = set_unlinked true (node s1 n)) as Hnn by (rewrite Hnode by done; by rewrite Z.eqb_refl).
  assert (forall j, rng j -> j <> n -> node s2 j = node s1 j) as Hno.
  { intros j Hj Hne. rewrite Hnode by done. by rewrite (proj2 (Z.eqb_neq j n) Hne). }
  assert (contents (node s2 n) = contents (node s n)) as Hcn by (rewrite Hnn; exact (f_equal contents Hbn)).
  assert (n_openers (node s2 n) = n_openers (node s n)) as Hop by (rewrite Hnn; exact (f_equal n_openers Hbn)).
  rewrite Hop. destruct (Z.eqb_spec (n_openers (node s n)) 0) as [Ho|Ho]; eexists; (split; [reflexivity|]).
  - destruct (release_run s2 n (tr_sized _ _ _ Ht2) Hn (tr_table _ _ _ Ht2)) as (_ & Htab & _ & Hcnt & Hpg & Hrest & Hun & _).
    pose proof (release_ok s2 K1 Fl n (tree_weaken n _ _ _ Ht2) Hn) as Hrel.
    assert (used s2 n = true /\ par s2 n = -1) as [Hu2 Hp2] by (unfold used, par; rewrite Hnn; done).
    pose proof (Hrel Hu2 Hp2 Hr HK1) as Ht3.
    split; [by exists K1, (n :: Fl)|]. split; [|split; [rewrite Hpg; apply Hst|split; [rewrite Htab; apply Hst|split; [done|intros _; split; [done|]]]]].
    + split; [by left|]. intros j Hj Hne. rewrite Hrest, Hno by done. by apply Hb.
    + pose proof (tr_count _ _ _ Ht) as E1. pose proof (tr_count _ _ _ Ht3) as E2. rewrite zlen_cons in E2. lia.
  - split; [by exists K1, Fl|]. split; [|split; [apply Hst|split; [apply Hst|split; [intros _|done]]]].
    + split; [right; unfold par; by rewrite Hnn|]. intros j Hj Hne. rewrite Hno by done. by apply Hb.
    + unfold used. rewrite Hnn. split; [done|]. split; [done|]. split; [exact (f_equal n_is_dir Hbn)|].
      split; [exact (f_equal n_openers Hbn)|]. split; [exact (f_equal contents Hbn)|done].
Qed.

Lemma free_node_ok s K Fl n : tree_ok s K Fl -> rng n -> used s n = true -> par s n <> -1 -> K n = [] ->
  exists s', free_node n s = Some s' /\ fs_ok s' /\ removed s s' n /\ used s' n = false /\ node_count s' = node_count s - 1 /\ table s' = table s.
Proof.
  intros Ht Hn Hu Hp HK. destruct (detach_ok s K Fl n Ht Hn Hu Hp) as (s1 & L1 & L2 & Hd & HKp & Ht1 & Hst & Hp1 & Hbn & Hb).
  assert (n <> ROOT) as Hr by (intros ->; by destruct (tr_root _ _ _ Ht) as (_ & _ & ? & _)).
  pose proof (parent_not_self s K Fl n Ht Hn Hu HK) as Hself. set (K1 := kset K (par s n) (L1 ++ L2)) in *.
  assert (K1 n = []) as HK1 by (by apply kset_self).
  assert (used s1 n = true) as Hu1 by (unfold used; by rewrite (body_used _ _ Hbn)).
  unfold free_node. rewrite Hd. cbn [mbind option_bind]. eexists. split; [reflexivity|].
  pose proof (release_ok s1 K1 Fl n Ht1 Hn Hu1 Hp1 Hr HK1) as Ht3.
  destruct (release_run s1 n (tr_sized _ _ _ Ht1) Hn (tr_table _ _ _ Ht1)) as (_ & Htab & _ & _ & _ & Hrest & Hun & _).
  split; [by exists K1, (n :: Fl)|]. split; [|split; [done|split; [|rewrite Htab; apply Hst]]].
  - split; [by left|]. intros j Hj Hne. rewrite Hrest by done. by apply Hb.
  - pose proof (tr_count _ _ _ Ht) as E1. pose proof (tr_count _ _ _ Ht3) as E2. rewrite zlen_cons in E2. lia.
Qed.

(** A closed file that lost its name goes; any other stays. *)
Lemma unref_ok s K Fl n : tree_ok s K Fl -> exists Fl', tree_ok (ramfs64_unref_node n s) K Fl'.
Proof.
  intros Ht. unfold ramfs64_unref_node. destruct (valid n s) eqn:Hv; cbn [negb]; [|by exists Fl]. destruct (valid_rng _ _ Hv) as [Hn Hu].
  set (s1 := if 0 <? n_openers (node s n) then _ else s).
  assert (quiet s s1) as Hq by (unfold s1; destruct (0 <? _); [by apply quiet_upd; [apply Ht|..]|apply still_refl, Ht]).
  pose proof (quiet_ok _ _ _ _ _ Ht Hq) as Ht1. destruct (_ && n_unlinked (node s1 n)) eqn:E; [|by exists Fl].
  apply andb_true_iff in E as [_ Hul]. destruct Hq as [Hst _]. destruct (same_tree_fields _ _ n Hst Hn) as (_ & _ & Hu1 & _). rewrite Hu in Hu1.
  assert (par s1 n = -1) as Hp1.
  { destruct (decide (par s1 n = -1)) as [|Hp]; [done|]. pose proof (tr_linked _ _ _ Ht1 n Hn Hu1 Hp). congruence. }
  assert (n <> ROOT) as Hr by (intros ->; destruct (tr_root _ _ _ Ht1) as (_ & _ & _ & ?); congruence).
  destruct (tr_orphan _ _ _ Ht1 n Hn Hu1 Hp1) as [|[->|[_ HK]]]; [done|by destruct Hn|].
  exists (n :: Fl). apply release_ok; [by apply tree_weaken|done..].
Qed.

(** ** What the operations do *)

(** A path whose last component is to be made or replaced in [p]. *)
Definition leads_to s (path : list Z) (p : Z) (comp : list Z) : Prop :=
  walk path true true s = Some (p, comp) /\ 0 <= p /\ n_is_dir (node s p) = true.

Lemma leads_named s K Fl path p comp : tree_ok s K Fl -> leads_to s path p comp -> named s p /\ good_name comp.
Proof. intros Ht (Hw & Hp & _). destruct (walk_named s K Fl path true true p comp Ht Hw Hp) as [? Hg]. auto. Qed.

Lemma file_no_kids s K Fl n : tree_ok s K Fl -> rng n -> used s n = true -> n_is_dir (node s n) = false \/ fc s n < 0 -> K n = [].
Proof.
  intros Ht Hn Hu [Hd|Hf]; [by apply (tr_dir _ _ _ Ht)|]. pose proof (lo_kids _ _ _ (tr_lists _ _ _ Ht) n Hn Hu) as Hs.
  destruct (K n) as [|y L]; [done|]. destruct Hs as (? & ? & _). lia.
Qed.

Lemma named_linked s K Fl n : tree_ok s K Fl -> named s n -> n <> ROOT -> par s n <> -1.
Proof.
  intros Ht (Hn & Hu & Hl) Hr Hp. destruct (tr_orphan _ _ _ Ht n Hn Hu Hp) as [|[->|[? _]]]; [done|by destruct Hn|congruence].
Qed.

Lemma unlink_run s K Fl path i : tree_ok s K Fl -> ramfs64_lookup_nofollow path s = Some i -> 0 <= i -> n_is_dir (node s i) = false ->
  rng i /\ used s i = true /\ par s i <> -1 /\ K i = [] /\ ramfs64_unlink path s = s' ← drop_name i s; Some (0, s').
Proof.
  intros Ht Hl Hi Hd. pose proof (lookup_named s K Fl path false i Ht Hl Hi) as Hn. pose proof Hn as (Hr & Hu & _).
  split; [done|]. split; [done|]. split; [|split].
  - apply (named_linked s K Fl); [done|done|]. intros ->. destruct (tr_root _ _ _ Ht) as (_ & ? & _). congruence.
  - apply (file_no_kids s K Fl); tauto.
  - unfold ramfs64_unlink, drop_name. rewrite Hl. cbn [mbind option_bind]. rewrite (proj2 (Z.ltb_ge i 0) Hi), Hd.
    by destruct (detach_from_parent i s).
Qed.

Lemma read_same_contents i off len buf s s' : valid i s' = valid i s -> n_is_dir (node s' i) = n_is_dir (node s i) ->
  contents (node s' i) = contents (node s i) -> page s' = page s -> ramfs64_read i off buf len s' = ramfs64_read i off buf len s.
Proof.
  intros Hv Hd Hc Hp. unfold contents in Hc. injection Hc as C1 C2 C3 C4 C5 C6. unfold ramfs64_read. cbv zeta.
  rewrite Hv, Hd, C2, C3, C4. unfold copy_fuel. rewrite C6.
  assert (forall fuel o k n b, frames_get fuel (node s' i) o k n b s' = frames_get fuel (node s i) o k n b s) as Hfg.
  { induction fuel as [|fuel IH]; intros o k n b; simpl; [done|]. rewrite C5, C6, Hp. destruct (negb _); [done|]. destruct (_ <=? _); [done|]. apply IH. }
  by rewrite Hfg.
Qed.

Lemma has_children_spec s K Fl i : tree_ok s K Fl -> rng i -> used s i = true -> has_children i s = bool_decide (K i <> []).
Proof.
  intros Ht Hi Hu. unfold has_children, valid. rewrite (tr_table _ _ _ Ht), (proj2 (in_range_true i) Hi). unfold used in Hu. rewrite Hu. cbn [andb].
  pose proof (lo_kids _ _ _ (tr_lists _ _ _ Ht) i Hi Hu) as Hs. fold (fc s i). destruct (K i) as [|y L].
  - by rewrite (proj2 (Z.leb_gt 0 (fc s i))).
  - destruct Hs as (-> & Hy & _). rewrite (proj2 (Z.leb_le 0 y) Hy). by rewrite bool_decide_eq_true_2.
Qed.

Lemma no_entry_no_kids s K Fl i : tree_ok s K Fl -> rng i -> used s i = true -> (forall nm c, ~ entry s i nm c) <-> K i = [].
Proof.
  intros Ht Hi Hu. split.
  - intros Hno. destruct (K i) as [|y L] eqn:E; [done|]. destruct (Hno (n_name (node s y)) y). apply (entry_kid s K Fl); [done|].
    rewrite E. repeat split; try done; try apply Hi. apply elem_of_cons. by left.
  - intros E nm c (_ & _ & Hin & _)%(entry_kid s K Fl); [|done]. rewrite E in Hin. by apply elem_of_nil in Hin.
Qed.

(** ** Renaming *)

(** [c] is [n], or below it. *)
Definition below s (n c : Z) : Prop := exists k, climb s k c /\ meets s k c n.

Lemma meets_kid s K Fl n k c : tree_ok s K Fl -> rng c -> used s c = true -> climb s k c -> meets s k c n -> c = n \/ K n <> [].
Proof.
  intros Ht. revert c. induction k as [|k IH]; intros c Hc Hu; cbn [climb meets]; [intros _ [|[]]; by left|].
  intros [Hne Hk] [|Hm]; [by left|]. destruct (linked_parent _ s K Fl c Ht Hc Hu Hne) as (Hpr & Hpu & Hin).
  right. destruct (IH _ Hpr Hpu Hk Hm) as [E|]; [|done]. rewrite E in Hin. intros E2. rewrite E2 in Hin. by apply elem_of_nil in Hin.
Qed.

(** The place under [p] does not depend on what was in the node's links. *)
Lemma upd_upd i f g s : sized s -> rng i -> upd i f (upd i g s) = upd i (fun nd => f (g nd)) s.
Proof.
  intros Hz Hi. pose proof (node_upd i g s i Hz Hi Hi) as E. rewrite Z.eqb_refl in E. unfold upd at 1. rewrite E. unfold upd, set_nodes. cbn.
  f_equal. unfold zset. apply list_insert_insert_eq.
Qed.

Lemma attach_detached p n nm s : sized s -> rng n -> rng p -> p <> n ->
  attach p n nm (upd n (fun nd => set_next_sibling (-1) (set_parent (-1) nd)) s) = attach p n nm s.
Proof.
  intros Hz Hn Hp Hpn. unfold attach. cbv zeta. set (g := fun nd => set_next_sibling (-1) (set_parent (-1) nd)). set (f := fun nd => set_parent p (set_name nm nd)).
  rewrite (upd_upd n f g s) by done.
  assert (forall h, n_first_child (node (upd n h s) p) = fc s p) as E.
  { intros h. rewrite node_upd by done. by rewrite (proj2 (Z.eqb_neq p n) Hpn). }
  rewrite !E. rewrite !upd_upd by (done || by apply upd_sized). done.
Qed.

Lemma meets_back s s' K Fl n k k' c : tree_ok s K Fl -> (forall j, rng j -> j <> n -> par s' j = par s j) -> rng c -> used s c = true ->
  climb s k' c -> climb s' k c -> meets s' k c n -> meets s k' c n.
Proof.
  intros Ht Hp. revert k' c. induction k as [|k IH]; intros k' c Hc Hu Hk' Hk Hm; cbn [climb meets] in Hk, Hm.
  - destruct Hm as [->|[]]. destruct k'; by left.
  - destruct Hm as [->|Hm]; [destruct k'; by left|]. destruct (decide (c = n)) as [->|Hne]; [destruct k'; by left|].
    rewrite Hp in Hk, Hm by done. destruct Hk as [Hn1 Hk]. destruct k' as [|k']; cbn [climb] in Hk'; [done|]. destruct Hk' as [_ Hk'].
    destruct (linked_parent _ s K Fl c Ht Hc Hu Hn1) as (Hpr & Hpu & _). right. by apply IH.
Qed.

Definition do_move (p n : Z) (nm : list Z) (s : fs H A) : option (fs H A) :=
  s ← unhook (n_parent (node s n)) n s; Some (attach p n nm s).

Lemma unhook_sized p n s s' : sized s -> unhook p n s = Some s' -> sized s'.
Proof.
  intros Hz. unfold unhook. destruct (in_range p); [|by intros [= <-]]. cbv zeta. destruct (_ =? n); [intros [= <-]; by apply upd_sized|].
  destruct (find_prev _ _ _ _) as [c|]; cbn [mbind option_bind]; [|done]. destruct (0 <=? c); intros [= <-]; [by apply upd_sized|done].
Qed.

(** Moving a node: its one entry goes, and comes back under [p]. *)
Lemma do_move_ok s K Fl p n nm : tree_ok s K Fl -> rng n -> used s n = true -> par s n <> -1 -> named s p -> n_is_dir (node s p) = true ->
  (n_is_dir (node s n) = true -> ~ below s n p) -> p <> n -> (forall c, entry s p nm c -> c = n) ->
  exists s', do_move p n nm s = Some s' /\ fs_ok s' /\ same_store s s' /\
    (forall d nm' c, entry s' d nm' c <-> (c = n /\ d = p /\ nm' = nm) \/ (c <> n /\ entry s d nm' c)) /\
    (forall j, rng j -> kept (node s' j) = kept (node s j)).
Proof.
  intros Ht Hn Hu Hp (Hpr & Hpu & Hpl) Hpd Hbel Hpn Hfree.
  destruct (detach_ok s K Fl n Ht Hn Hu Hp) as (s1 & L1 & L2 & Hd & HKp & Ht1 & Hst & Hp1 & Hbn & Hb).
  assert (n <> ROOT) as Hr by (intros ->; by destruct (tr_root _ _ _ Ht) as (_ & _ & ? & _)).
  assert (n_unlinked (node s n) = false) as Hnl by (by apply (tr_linked _ _ _ Ht)).

  assert (used s1 n = true) as Hu1 by (unfold used; by rewrite (body_used _ _ Hbn)).
  assert (n_unlinked (node s1 n) = false) as Hl1 by (by rewrite (body_unlinked _ _ Hbn)).
  assert (forall j, rng j -> j <> n -> par s1 j = par s j) as Hpar by (intros j Hj Hne; by apply body_parent, Hb).
  destruct (attach_run s1 p n nm (tr_sized _ _ _ Ht1) Hpr Hn Hpn) as (_ & Hst2 & _ & _ & Hnode). set (s' := attach p n nm s1) in *.
  assert (forall j, rng j -> j <> n -> body (node s' j) = body (node s j)) as Hb2.
  { intros j Hj Hne. rewrite <-(Hb j Hj Hne), Hnode by done. rewrite (proj2 (Z.eqb_neq j n) Hne). by destruct (Z.eqb_spec j p) as [->|]. }
  assert (node s' n = set_next_sibling (fc s1 p) (set_parent p (set_name nm (node s1 n)))) as Hnn.
  { rewrite Hnode by done. by rewrite (proj2 (Z.eqb_neq n p)), Z.eqb_refl by congruence. }
  assert (do_move p n nm s = Some s') as Hdo.
  { unfold do_move. unfold detach_from_parent in Hd. destruct (unhook (n_parent (node s n)) n s) as [s0|] eqn:E0; [|done]. cbn [mbind option_bind] in *.
    injection Hd as <-. f_equal. symmetry. apply attach_detached; [|done..]. by apply (unhook_sized _ _ _ _ (tr_sized _ _ _ Ht) E0). }
  assert (forall d nm' c, entry s' d nm' c <-> (c = n /\ d = p /\ nm' = nm) \/ (c <> n /\ entry s d nm' c)) as He.
  { intros d nm' c. unfold entry, used, par. destruct (decide (c = n)) as [->|Hne].
    - rewrite Hnn. cbn [n_used n_parent n_name set_next_sibling set_parent set_name]. unfold used in Hu1. rewrite Hu1. naive_solver.
    - split.
      + intros (? & Hc & Hx). right. rewrite (body_used _ _ (Hb2 c Hc Hne)), (body_parent _ _ (Hb2 c Hc Hne)), (body_name _ _ (Hb2 c Hc Hne)) in Hx. done.
      + intros [(? & _)|(_ & ? & Hc & Hx)]; [done|]. by rewrite (body_used _ _ (Hb2 c Hc Hne)), (body_parent _ _ (Hb2 c Hc Hne)), (body_name _ _ (Hb2 c Hc Hne)). }
  exists s'. split; [done|]. split; [|split; [|split; [done|]]].
  - exists (kset (kset K (par s n) (L1 ++ L2)) p (n :: kset K (par s n) (L1 ++ L2) p)), Fl. pose proof (Hb p Hpr Hpn) as Ep. apply attach_ok; try done.
    + unfold used. by rewrite (body_used _ _ Ep).
    + by rewrite (body_is_dir _ _ Ep).
    + by rewrite (body_unlinked _ _ Ep).
    + intros c Hc Hcn. apply (tr_kid _ _ _ Ht1) in Hc as (Hcr & Hcu & Hcp); [|done|unfold used; by rewrite (body_used _ _ Ep)].
      assert (c <> n) as Hne by (intros ->; unfold rng in Hpr; lia). apply Hne, Hfree. unfold entry, used, par in *. pose proof (Hb c Hcr Hne) as Ec.
      by rewrite (body_used _ _ Ec), (body_parent _ _ Ec), (body_name _ _ Ec) in *.
    + intros k Hk Hm. destruct (tr_climb _ _ _ Ht p Hpr Hpu) as [kp Hkp]. pose proof (meets_back s s1 K Fl n k kp p Ht Hpar Hpr Hpu Hkp Hk Hm) as Hm'.
      destruct (n_is_dir (node s n)) eqn:Hnd; [by apply Hbel; [|exists kp]|].
      destruct (meets_kid s K Fl n kp p Ht Hpr Hpu Hkp Hm') as [|HK]; [done|]. by apply HK, (tr_dir _ _ _ Ht).
  - destruct Hst as (? & ? & ? & ?), Hst2 as (? & ? & ? & ?). repeat split; congruence.
  - intros j Hj. destruct (decide (j = n)) as [->|Hne].
    + rewrite Hnn. exact (f_equal kept Hbn).
    + exact (body_kept _ _ (Hb2 j Hj Hne)).
Qed.

(** A node without entries is on nobody's way up. *)
Lemma way_same s s' K Fl e k c : tree_ok s K Fl -> (forall j, rng j -> j <> e -> par s' j = par s j) -> (rng e -> K e = []) -> rng c -> used s c = true ->
  c <> e -> climb s k c -> climb s' k c /\ forall n, meets s' k c n <-> meets s k c n.
Proof.
  intros Ht Hp HK. revert c. induction k as [|k IH]; intros c Hc Hu Hne; cbn [climb meets]; rewrite (Hp c Hc Hne); [done|].
  intros [Hn1 Hk]. destruct (linked_parent _ s K Fl c Ht Hc Hu Hn1) as (Hpr & Hpu & Hin).
  destruct (IH (par s c) Hpr Hpu) as [H1 H2]; [|done|].
  - intros E. rewrite E, HK in Hin by (by rewrite <-E). by apply elem_of_nil in Hin.
  - split; [done|]. intros n. by rewrite H2.
Qed.

(** What stands under the new name may be replaced: nothing, or a node of the
    same kind with nothing in it. *)
Definition replaceable s (src e : Z) : Prop :=
  e < 0 \/ n_is_dir (node s e) = n_is_dir (node s src) /\ forall nm c, ~ entry s e nm c.

(** The part of rename that clears the way. *)
Definition make_way (src e : Z) (s : fs H A) : option (option Z * fs H A) :=
  if 0 <=? e then
    if negb (Bool.eqb (n_is_dir (node s e)) (n_is_dir (node s src)))
    then Some (Some (if n_is_dir (node s e) then -21 else -20), s)
    else if n_is_dir (node s e) && (0 <=? n_first_child (node s e)) then Some (Some (-39), s)
    else s ← drop_name e s; Some (None, s)
  else Some (None, s).

Lemma make_way_ok s K Fl src p comp e : tree_ok s K Fl -> named s p -> find_child p comp s = Some e -> replaceable s src e ->
  exists s1, make_way src e s = Some (None, s1) /\ fs_ok s1 /\ table s1 = table s /\
    (forall d nm c, entry s1 d nm c <-> entry s d nm c /\ c <> e) /\
    (forall j, rng j -> j <> e -> body (node s1 j) = body (node s j)) /\ (0 <= e -> e <> p /\ K e = []) /\ page s1 = page s.
Proof.
  intros Ht (Hpr & Hpu & _) Hf Hrep. unfold make_way. destruct (Z.leb_spec 0 e) as [He|He].
  - apply (find_child_entry s K Fl p comp e Ht Hpr Hpu He) in Hf as (_ & Her & Heu & Hep & _).
    destruct Hrep as [|[Hk Hno%(no_entry_no_kids s K Fl e Ht Her Heu)]]; [lia|]. rewrite Hk, eqb_reflx. cbn [negb].
    assert (n_is_dir (node s src) && (0 <=? n_first_child (node s e)) = false) as ->.
    { apply andb_false_iff. right. apply Z.leb_gt. pose proof (lo_kids _ _ _ (tr_lists _ _ _ Ht) e Her Heu) as Hs. by rewrite Hno in Hs. }
    destruct (drop_name_ok s K Fl e Ht Her Heu ltac:(unfold rng in Hpr; lia) Hno) as (s1 & -> & Hok & Hm & Hpg & Htab & _). cbn [mbind option_bind].
    exists s1. split; [done|]. split; [done|]. split; [done|]. split; [by apply removed_entry|]. split; [apply Hm|]. split; [|done]. intros _. split; [|done].
    intros ->. by apply (parent_not_self s K Fl p Ht Her Heu Hno).
  - exists s. split; [done|]. split; [by exists K, Fl|]. split; [done|]. split; [|split; [done|split; [lia|done]]].
    intros d nm c. split; [|by intros [? _]]. intros Hx. split; [done|]. destruct Hx as (_ & Hc & _). unfold rng in Hc. lia.
Qed.

Lemma rename_run s src p comp e oldp newp : ramfs64_lookup_nofollow oldp s = Some src -> 0 <= src -> src <> ROOT ->
  leads_to s newp p comp -> find_child p comp s = Some e -> e <> src ->
  ramfs64_rename oldp newp s =
    '(err, s) ← make_way src e s;
    match err with Some x => Some (x, s) | None =>
      cyc ← (if n_is_dir (node s src) then above (S NNODES) p src s else Some false);
      if (cyc : bool) then Some (-22, s) else s ← do_move p src (cut RAMFS64_NAME_MAX comp) s; Some (0, s)
    end.
Proof.
  intros Hl Hs Hr (Hw & Hp & _) Hf Hne. unfold ramfs64_rename. rewrite Hl. cbn [mbind option_bind].
  rewrite (proj2 (Z.ltb_ge src 0) Hs), (proj2 (Z.eqb_neq src ROOT) Hr), Hw. cbn [mbind option_bind].
  rewrite (proj2 (Z.ltb_ge p 0) Hp), Hf. cbn [mbind option_bind]. rewrite (proj2 (Z.eqb_neq e src) Hne). unfold make_way, drop_name, do_move.
  destruct (0 <=? e).
  - destruct (negb _); [done|]. destruct (_ && (0 <=? _)); [done|]. destruct (detach_from_parent e s) as [s1|]; cbn [mbind option_bind]; [|done].
    cbv zeta. destruct (n_is_dir (node _ src)); [|by destruct (unhook _ src _)].
    destruct (above _ _ _ _) as [[]|]; cbn [mbind option_bind]; [done| |done]. by destruct (unhook _ src _).
  - cbn [mbind option_bind]. destruct (n_is_dir (node s src)); [|by cbn [mbind option_bind]; destruct (unhook _ src _)].
    destruct (above _ _ _ _) as [[]|]; cbn [mbind option_bind]; [done| |done]. by destruct (unhook _ src _).
Qed.

(** The loop that refuses a cycle, after the way was cleared. *)
Lemma rename_cycle s s1 K Fl src p e : tree_ok s K Fl -> named s p -> e <> src -> rng src ->
  fs_ok s1 -> (forall j, rng j -> j <> e -> body (node s1 j) = body (node s j)) -> (0 <= e -> e <> p /\ K e = []) ->
  exists b, (if n_is_dir (node s1 src) then above (S NNODES) p src s1 else Some false) = Some b /\
    (b = true <-> n_is_dir (node s src) = true /\ below s src p).
Proof.
  intros Ht (Hpr & Hpu & _) Hne Hsr (K1 & Fl1 & Ht1) Hb HKe. rewrite (body_is_dir _ _ (Hb src Hsr ltac:(done))).
  destruct (n_is_dir (node s src)); [|exists false; split; [done|]; by split; [|intros [? _]]].
  destruct (tr_climb _ _ _ Ht p Hpr Hpu) as [k Hk].
  assert (p <> e) as Hpe by (intros <-; by apply HKe; [apply Hpr|]).
  assert (forall j, rng j -> j <> e -> par s1 j = par s j) as Hpar by (intros j Hj Hje; by apply body_parent, Hb).
  destruct (way_same s s1 K Fl e k p Ht Hpar ltac:(intros [He _]; by apply HKe) Hpr Hpu Hpe Hk) as [Hk1 Hm].
  assert (used s1 p = true) as Hpu1 by (unfold used; by rewrite (body_used _ _ (Hb p Hpr Hpe))).
  destruct (above_spec s1 K1 Fl1 p src Ht1 Hpr Hpu1) as (b & k' & Hab & Hk' & Hbm). exists b. split; [done|].
  rewrite (climb_det _ _ _ _ Hk' Hk1), Hm in Hbm. rewrite Hbm. split; [intros Hx; split; [done|by exists k]|].
  intros (_ & k2 & Hk2 & Hm2). by rewrite (climb_det _ _ _ _ Hk2 Hk) in Hm2.
Qed.

Lemma rename_moves s oldp newp src p comp e : fs_ok s -> ramfs64_lookup_nofollow oldp s = Some src -> 0 <= src -> src <> ROOT ->
  leads_to s newp p comp -> find_child p comp s = Some e -> e <> src -> replaceable s src e ->
  (n_is_dir (node s src) = true -> ~ below s src p) ->
  exists s', ramfs64_rename oldp newp s = Some (0, s') /\ fs_ok s' /\
    (forall d nm c, entry s' d nm c <-> (c = src /\ d = p /\ nm = comp) \/ (c <> src /\ c <> e /\ entry s d nm c)) /\
    (forall j, rng j -> j <> e -> kept (node s' j) = kept (node s j)) /\ page s' = page s /\ table s' = table s.
Proof.
  intros (K & Fl & Ht) Hl Hs Hr Hlead Hf Hne Hrep Hcyc. destruct (leads_named s K Fl newp p comp Ht Hlead) as [Hpn Hg].
  pose proof (lookup_named s K Fl oldp false src Ht Hl Hs) as Hsn. pose proof Hsn as (Hsr & Hsu & _).
  rewrite (rename_run s src p comp e) by done.
  destruct (make_way_ok s K Fl src p comp e Ht Hpn Hf Hrep) as (s1 & -> & Hok1 & Htab & He1 & Hb1 & HKe & Hpg1). cbn [mbind option_bind].
  destruct (rename_cycle s s1 K Fl src p e Ht Hpn Hne Hsr Hok1 Hb1 HKe) as (b & -> & Hbm). cbn [mbind option_bind].
  destruct b; [destruct Hbm as [Hbm _]; destruct (Hbm eq_refl) as [Hd Hbel]; by destruct (Hcyc Hd)|].
  pose proof Hpn as (Hpr & Hpu & Hpl). assert (p <> e) as Hpe by (intros <-; by apply HKe; [apply Hpr|]).
  pose proof (Hb1 p Hpr Hpe) as Ep. pose proof (Hb1 src Hsr ltac:(done)) as Es. destruct Hlead as (_ & _ & Hpd).
  assert (p <> src) as Hps.
  { intros ->. destruct (tr_climb _ _ _ Ht src Hsr Hsu) as [k Hk]. apply (Hcyc Hpd). exists k. split; [done|]. destruct k; by left. }
  pose proof Hok1 as (K1 & Fl1 & Ht1). rewrite (cut_name comp Hg).
  destruct (do_move_ok s1 K1 Fl1 p src comp Ht1 Hsr) as (s' & -> & Hok' & Hst' & He' & Hc').
  - unfold used. by rewrite (body_used _ _ Es).
  - unfold par. rewrite (body_parent _ _ Es). by apply (named_linked s K Fl).
  - split; [done|]. unfold used. by rewrite (body_used _ _ Ep), (body_unlinked _ _ Ep).
  - by rewrite (body_is_dir _ _ Ep).
  - intros Hd Hbel. rewrite (body_is_dir _ _ Es) in Hd. destruct Hbel as (k & Hk & Hm).
    destruct (rename_cycle s s1 K Fl src p e Ht Hpn Hne Hsr Hok1 Hb1 HKe) as (b & Hab & Hbm').
    rewrite (body_is_dir _ _ Es), Hd in Hab. destruct (above_spec s1 K1 Fl1 p src Ht1 Hpr) as (b' & k' & Hab' & Hk' & Hbk).
    { unfold used. by rewrite (body_used _ _ Ep). }
    rewrite Hab in Hab'. injection Hab' as <-. rewrite (climb_det _ _ _ _ Hk Hk') in Hm. apply Hbk in Hm. apply Hbm' in Hm as [_ Hx]. by apply Hcyc.
  - done.
  - intros c [Hx Hce]%He1. pose proof Hx as (_ & [Hc0 _] & _). apply (find_child_entry s K Fl p comp c Ht Hpr Hpu Hc0) in Hx.
    rewrite Hf in Hx. by injection Hx as ->.
  - cbn [mbind option_bind]. exists s'. split; [done|]. split; [done|]. split.
    + intros d nm c. rewrite He', He1. tauto.
    + destruct Hst' as (_ & _ & Hpg' & Htab'). split; [|split; congruence]. intros j Hj Hje. rewrite (Hc' j Hj). by apply body_kept, Hb1.
Qed.

Lemma rename_refuses s oldp newp src p comp e : fs_ok s -> ramfs64_lookup_nofollow oldp s = Some src -> 0 <= src -> src <> ROOT ->
  leads_to s newp p comp -> find_child p comp s = Some e ->
  (e = src -> ramfs64_rename oldp newp s = Some (0, s)) /\
  (0 <= e -> n_is_dir (node s e) = true -> n_is_dir (node s src) = false -> ramfs64_rename oldp newp s = Some (-21, s)) /\
  (0 <= e -> n_is_dir (node s e) = false -> n_is_dir (node s src) = true -> ramfs64_rename oldp newp s = Some (-20, s)) /\
  (0 <= e -> e <> src -> n_is_dir (node s e) = true -> n_is_dir (node s src) = true -> (exists nm c, entry s e nm c) ->
    ramfs64_rename oldp newp s = Some (-39, s)) /\
  (e <> src -> replaceable s src e -> n_is_dir (node s src) = true -> below s src p ->
    exists s', ramfs64_rename oldp newp s = Some (-22, s') /\ fs_ok s' /\ forall d nm c, entry s' d nm c <-> entry s d nm c /\ c <> e).
Proof.
  intros (K & Fl & Ht) Hl Hs Hr Hlead Hf. destruct (leads_named s K Fl newp p comp Ht Hlead) as [Hpn Hg].
  pose proof (lookup_named s K Fl oldp false src Ht Hl Hs) as Hsn. pose proof Hsn as (Hsr & Hsu & _).
  split; [|split; [|split; [|split]]].
  - intros ->. destruct Hlead as (Hw & Hp & _). unfold ramfs64_rename. rewrite Hl. cbn [mbind option_bind].
    rewrite (proj2 (Z.ltb_ge src 0) Hs), (proj2 (Z.eqb_neq src ROOT) Hr), Hw. cbn [mbind option_bind].
    rewrite (proj2 (Z.ltb_ge p 0) Hp), Hf. cbn [mbind option_bind]. by rewrite Z.eqb_refl.
  - intros He Hd Hd'. rewrite (rename_run s src p comp e) by (done || (intros ->; congruence)).
    unfold make_way. by rewrite (proj2 (Z.leb_le 0 e) He), Hd, Hd'.
  - intros He Hd Hd'. rewrite (rename_run s src p comp e) by (done || (intros ->; congruence)).
    unfold make_way. by rewrite (proj2 (Z.leb_le 0 e) He), Hd, Hd'.
  - intros He Hne Hd Hd' (nm & c & Hx). rewrite (rename_run s src p comp e) by done. unfold make_way.
    rewrite (proj2 (Z.leb_le 0 e) He), Hd, Hd'. cbn [Bool.eqb negb andb]. apply (entry_kid s K Fl) in Hx as (Her & Heu & Hin & _); [|done].
    pose proof (lo_kids _ _ _ (tr_lists _ _ _ Ht) e Her Heu) as Hsg. destruct (K e) as [|y L]; [by apply elem_of_nil in Hin|].
    destruct Hsg as (Hfc & Hy & _). fold (fc s e). rewrite Hfc. by rewrite (proj2 (Z.leb_le 0 y) Hy).
  - intros Hne Hrep Hd Hbel. rewrite (rename_run s src p comp e) by done.
    destruct (make_way_ok s K Fl src p comp e Ht Hpn Hf Hrep) as (s1 & -> & Hok1 & Htab & He1 & Hb1 & HKe & Hpg1). cbn [mbind option_bind].
    destruct (rename_cycle s s1 K Fl src p e Ht Hpn Hne Hsr Hok1 Hb1 HKe) as (b & -> & Hbm). cbn [mbind option_bind].
    rewrite (proj2 Hbm (conj Hd Hbel)). by exists s1.
Qed.

(** ** Every operation keeps the tree *)

(** What the path names above its last component, if anything, is a
    directory.  The walk does not ask for that. *)
Definition dir_path s (path : list Z) : Prop :=
  forall p comp, walk path true true s = Some (p, comp) -> 0 <= p -> n_is_dir (node s p) = true.

Lemma find_child_free s K Fl p comp c : tree_ok s K Fl -> rng p -> used s p = true -> find_child p comp s = Some c -> c < 0 -> c = -1.
Proof. intros Ht Hp Hu Hf Hc. destruct (find_child_cases s K Fl p comp Ht Hp Hu) as [E|(c' & E & ? & _)]; rewrite Hf in E; injection E as ->; lia. Qed.

(** The first part of create and symlink. *)
Lemma create_total s path dir : fs_ok s -> dir_path s path -> exists r s', ramfs64_create path dir s = Some (r, s') /\ fs_ok s'.
Proof.
  intros Hok Hdp. pose proof Hok as (K & Fl & Ht). unfold ramfs64_create.
  destruct (walk_ok s K Fl path true true Ht) as (p & comp & Hw & Hp). rewrite Hw. cbn [mbind option_bind].
  destruct (Z.ltb_spec p 0) as [|Hp0]; [by exists (-1), s|]. destruct Hp as [->|[Hpn _]]; [lia|]. pose proof Hpn as (Hpr & Hpu & _).
  destruct (find_child_total _ s K Fl p comp Ht Hpr Hpu) as (c & Hf & _). rewrite Hf. cbn [mbind option_bind].
  destruct (Z.leb_spec 0 c) as [|Hc]; [by exists c, s|]. pose proof (find_child_free s K Fl p comp c Ht Hpr Hpu Hf Hc) as ->.
  destruct Fl as [|i Fl]; [rewrite (alloc_node_full s K) by done; by exists (-1), s|].
  destruct (walk_named s K (i :: Fl) path true true p comp Ht Hw Hp0) as [_ Hg].
  destruct (alloc_node_made s K i Fl comp p dir Ht Hpn (Hdp p comp Hw Hp0) (Hg eq_refl) Hf) as (s' & K' & -> & Ht' & _).
  exists i, s'. split; [done|by exists K', Fl].
Qed.

Lemma unlink_total s path : fs_ok s -> exists r s', ramfs64_unlink path s = Some (r, s') /\ fs_ok s'.
Proof.
  intros Hok. pose proof Hok as (K & Fl & Ht). destruct (lookup_ok s K Fl path false Ht) as (i & Hl & Hi).
  destruct (Z.ltb_spec i 0) as [Hi0|Hi0].
  { exists (-2), s. split; [|done]. unfold ramfs64_unlink, ramfs64_lookup_nofollow. rewrite Hl. cbn [mbind option_bind]. by rewrite (proj2 (Z.ltb_lt i 0)). }
  destruct (n_is_dir (node s i)) eqn:Hd.
  { exists (-21), s. split; [|done]. unfold ramfs64_unlink, ramfs64_lookup_nofollow. rewrite Hl. cbn [mbind option_bind]. by rewrite (proj2 (Z.ltb_ge i 0)), Hd. }
  destruct (unlink_run s K Fl path i Ht Hl Hi0 Hd) as (Hr & Hu & Hp & HK & ->).
  destruct (drop_name_ok s K Fl i Ht Hr Hu Hp HK) as (s' & -> & Hok' & _). by exists 0, s'.
Qed.

Lemma rmdir_total s path : fs_ok s -> exists r s', ramfs64_rmdir path s = Some (r, s') /\ fs_ok s'.
Proof.
  intros Hok. pose proof Hok as (K & Fl & Ht). destruct (lookup_ok s K Fl path false Ht) as (i & Hl & Hi). unfold ramfs64_rmdir, ramfs64_lookup_nofollow.
  rewrite Hl. cbn [mbind option_bind]. destruct (Z.ltb_spec i 0) as [Hi0|Hi0]; [by exists (-2), s|]. destruct (n_is_dir (node s i)); [|by exists (-20), s].
  destruct (Z.eqb_spec i ROOT) as [|Hr]; [by exists (-16), s|]. destruct Hi as [->|Hn]; [lia|]. pose proof Hn as (Hir & Hu & _). cbn [negb].
  rewrite (has_children_spec s K Fl i Ht Hir Hu). case_bool_decide as HK; [by exists (-39), s|].
  destruct (free_node_ok s K Fl i Ht Hir Hu (named_linked s K Fl i Ht Hn Hr) HK) as (s' & -> & Hok' & _). by exists 0, s'.
Qed.

Lemma rename_total s oldp newp : fs_ok s -> dir_path s newp -> exists r s', ramfs64_rename oldp newp s = Some (r, s') /\ fs_ok s'.
Proof.
  intros Hok Hdp. pose proof Hok as (K & Fl & Ht). destruct (lookup_ok s K Fl oldp false Ht) as (src & Hl & Hsrc).
  destruct (Z.ltb_spec src 0) as [Hs0|Hs0].
  { exists (-2), s. split; [|done]. unfold ramfs64_rename, ramfs64_lookup_nofollow. rewrite Hl. cbn [mbind option_bind]. by rewrite (proj2 (Z.ltb_lt src 0)). }
  destruct (Z.eqb_spec src ROOT) as [Hr|Hr].
  { exists (-16), s. split; [|done]. unfold ramfs64_rename, ramfs64_lookup_nofollow. rewrite Hl. cbn [mbind option_bind]. by rewrite (proj2 (Z.ltb_ge src 0)), Hr. }
  destruct (walk_ok s K Fl newp true true Ht) as (p & comp & Hw & Hp). destruct (Z.ltb_spec p 0) as [Hp0|Hp0].
  { exists (-2), s. split; [|done]. unfold ramfs64_rename, ramfs64_lookup_nofollow. rewrite Hl. cbn [mbind option_bind].
    rewrite (proj2 (Z.ltb_ge src 0)), (proj2 (Z.eqb_neq src ROOT)), Hw by done. cbn [mbind option_bind]. by rewrite (proj2 (Z.ltb_lt p 0)). }
  destruct Hp as [->|[Hpn _]]; [lia|]. pose proof Hpn as (Hpr & Hpu & _). assert (leads_to s newp p comp) as Hlead by (split; [done|split; [done|by apply (Hdp p comp)]]).
  destruct (find_child_total _ s K Fl p comp Ht Hpr Hpu) as (e & Hf & He).
  destruct (rename_refuses s oldp newp src p comp e Hok Hl Hs0 Hr Hlead Hf) as (R1 & R2 & R3 & R4 & R5).
  destruct (decide (e = src)) as [Hes|Hes]; [by exists 0, s; split; [apply R1|]|].
  assert (replaceable s src e \/ 0 <= e /\ ~ replaceable s src e) as [Hrep|[He0 Hrep]].
  { destruct (Z.ltb_spec e 0); [by left; left|]. destruct He as [->|He]; [lia|]. destruct (kid_rng _ s K Fl p e Ht Hpr Hpu He) as (Her & Heu & _).
    destruct (Bool.eqb (n_is_dir (node s e)) (n_is_dir (node s src))) eqn:E; [apply eqb_prop in E|apply eqb_false_iff in E].
    - destruct (decide (K e = [])) as [HK|HK]; [left; right; split; [done|by apply (no_entry_no_kids s K Fl)]|right].
      split; [done|]. intros [|[_ Hx]]; [lia|]. by apply (no_entry_no_kids s K Fl) in Hx.
    - right. split; [done|]. intros [|[Hx _]]; [lia|done]. }
  - assert (n_is_dir (node s src) = true /\ below s src p \/ (n_is_dir (node s src) = true -> ~ below s src p)) as [[Hd Hb]|Hb].
    { destruct (n_is_dir (node s src)); [|by right]. destruct (tr_climb _ _ _ Ht p Hpr Hpu) as [k Hk]. destruct (meets_dec s k p src) as [Hm|Hm].
      - left. split; [done|by exists k].
      - right. intros _ (k' & Hk' & Hm'). by rewrite (climb_det _ _ _ _ Hk' Hk) in Hm'. }
    + destruct (R5 Hes Hrep Hd Hb) as (s' & ? & ? & _). by exists (-22), s'.
    + destruct (rename_moves s oldp newp src p comp e Hok Hl Hs0 Hr Hlead Hf Hes Hrep Hb) as (s' & ? & ? & _). by exists 0, s'.
  - destruct He as [->|He]; [lia|]. destruct (kid_rng _ s K Fl p e Ht Hpr Hpu He) as (Her & Heu & _).
    destruct (n_is_dir (node s e)) eqn:Ede, (n_is_dir (node s src)) eqn:Eds.
    + exists (-39), s. split; [|done]. apply R4; try done. destruct (K e) as [|y L] eqn:EK.
      * destruct Hrep. right. split; [congruence|]. by apply (no_entry_no_kids s K Fl).
      * exists (n_name (node s y)), y. apply (entry_kid s K Fl); [done|]. rewrite EK. split; [done|]. split; [done|]. split; [apply elem_of_cons; by left|done].
    + exists (-21), s. split; [by apply R2|done].
    + exists (-20), s. split; [by apply R3|done].
    + destruct Hrep. right. split; [congruence|]. apply (no_entry_no_kids s K Fl); try done. by apply (tr_dir _ _ _ Ht).
Qed.

(** ** Symbolic links *)

Lemma grow_loop k fuel cap want : (k < fuel)%nat -> 0 < cap -> want <= 2 ^ 63 -> want <= cap * 2 ^ Z.of_nat k -> cap < want \/ k = O ->
  exists c, grow_cap fuel cap want = Some c /\ want <= c /\ cap <= c /\ (cap < want -> c < 2 * want).
Proof.
  revert fuel cap. induction k as [|k IH]; intros fuel cap Hf Hc Hw Hk Hlt; (destruct fuel as [|fuel]; [lia|]); cbn [grow_cap].
  - change (2 ^ Z.of_nat 0) with 1 in Hk. destruct (Z.ltb_spec cap want); [lia|]. exists cap. split; [done|lia].
  - destruct Hlt as [Hlt|]; [|lia]. rewrite (proj2 (Z.ltb_lt cap want) Hlt). assert (u64 (cap * 2) = cap * 2) as -> by (apply u64_small; lia).
    destruct (Z.ltb_spec (cap * 2) want) as [Hlt2|Hge].
    + destruct (IH fuel (cap * 2)) as (c & ? & ? & ? & ?); [lia|lia|lia| |by left|exists c; split; [done|lia]].
      rewrite Nat2Z.inj_succ, Z.pow_succ_r in Hk by lia. lia.
    + exists (cap * 2). split; [|lia]. destruct fuel as [|fuel]; [lia|]. cbn [grow_cap]. by rewrite (proj2 (Z.ltb_ge (cap * 2) want) Hge).
Qed.

(** The doubling ends for every size up to 2^63. *)
Lemma grow_cap_ends cap want : 0 < cap -> want <= 2 ^ 63 ->
  exists c, grow_cap 65 cap want = Some c /\ want <= c /\ cap <= c /\ (cap < want -> c < 2 * want).
Proof.
  intros Hc Hw. destruct (Z.ltb_spec cap want) as [Hlt|Hge].
  - apply (grow_loop 63); [lia|done|done| |by left]. change (2 ^ Z.of_nat 63) with (2 ^ 63). lia.
  - exists cap. cbn [grow_cap]. rewrite (proj2 (Z.ltb_ge cap want) Hge). split; [done|lia].
Qed.

(** Only the node [i] changed, and of it only where its bytes are. *)
Definition only_node (i : Z) s s' : Prop := forall j, rng j -> j <> i -> node s' j = node s j.

Lemma ensure_ok i want s : sized s -> rng i -> want <= 2 ^ 63 -> 0 <= n_size (node s i) <= zlen (n_block (node s i)) ->
  exists ok s', ensure_capacity i want s = Some (ok, s') /\ quiet s s' /\ only_node i s s' /\ page s' = page s /\ frames s' = frames s /\
    (ok = false -> node s' i = node s i) /\
    (ok = true -> want <= zlen (n_block (node s' i)) /\ n_size (node s i) <= zlen (n_block (node s' i)) /\
       node s' i = set_data (n_data (node s' i)) (n_block (node s' i)) (node s i) /\
       take (Z.to_nat (n_size (node s i))) (n_block (node s' i)) = take (Z.to_nat (n_size (node s i))) (n_block (node s i)) /\
       (want <= zlen (n_block (node s i)) -> s' = s) /\ (zlen (n_block (node s i)) < want -> n_data (node s' i) <> 0)).
Proof.
  intros Hz Hi Hw Hsz. unfold ensure_capacity. cbv zeta. set (nd := node s i) in *. destruct (Z.leb_spec want (zlen (n_block nd))) as [Hle|Hlt].
  { exists true, s. split; [done|]. split; [by apply still_refl|]. do 3 (split; [done|]). split; [done|]. intros _. change (node s i) with nd.
    split; [done|]. split; [lia|]. split; [by destruct nd|]. split; [done|]. split; [done|lia]. }
  destruct (grow_cap_ends (if nz (zlen (n_block nd)) then zlen (n_block nd) else 64) want) as (cap & -> & Hcw & _); [|done|].
  { unfold nz. destruct (Z.eqb_spec (zlen (n_block nd)) 0); cbn [negb]; [lia|]. pose proof (zlen_nonneg (n_block nd)). lia. }
  cbn [mbind option_bind]. unfold kmalloc. destruct (Pipe64.kmalloc64 cap (heap s)) as [fr h]. destruct (Z.eqb_spec fr 0) as [->|Hfr].
  { exists false, (set_heap h s). split; [done|]. split; [by apply quiet_store|]. do 4 (split; [done|]). done. }
  set (s1 := if nz (n_data nd) then _ else _). set (block := _ ++ _).
  assert (quiet s s1 /\ nodes s1 = nodes s /\ page s1 = page s /\ frames s1 = frames s) as (Hq & Hn & Hpg & Hfm).
  { unfold s1. destruct (nz (n_data nd)); (split; [by apply quiet_store|done]). }
  assert (sized s1) as Hz1 by (by apply (quiet_sized s)).
  assert (forall j, rng j -> node (upd i (set_data fr block) s1) j = if j =? i then set_data fr block nd else node s j) as Hnode.
  { intros j Hj. rewrite node_upd by done. unfold nd, node. by rewrite Hn. }
  assert (node (upd i (set_data fr block) s1) i = set_data fr block nd) as Hni by (rewrite Hnode by done; by rewrite Z.eqb_refl).
  exists true, (upd i (set_data fr block) s1). split; [done|]. split; [eapply still_trans; [exact Hq|by apply quiet_upd]|].
  split; [intros j Hj Hne; rewrite Hnode by done; by rewrite (proj2 (Z.eqb_neq j i) Hne)|]. split; [done|]. split; [done|]. split; [done|].
  intros _. rewrite Hni. cbn [n_block n_data set_data].
  assert (length (take (Z.to_nat (n_size nd)) (n_block nd)) = Z.to_nat (n_size nd)) as Hlt2 by (rewrite length_take; unfold zlen in Hsz; lia).
  assert (zlen block = cap) as Hlb by (unfold block, zlen; rewrite length_app, Hlt2, length_replicate; lia).
  split; [lia|]. split; [lia|]. split; [done|]. split; [|split; [lia|done]].
  unfold block. by rewrite take_app_length' by done.
Qed.

Lemma quiet_entry s s' d nm c : quiet s s' -> entry s' d nm c <-> entry s d nm c.
Proof.
  intros [Hst _]. unfold entry. split; intros (Hd & Hc & Hx); pose proof (same_tree_fields s s' c Hst Hc) as (E1 & E2 & E3 & _).
  - rewrite E1, E2, E3 in Hx. done.
  - by rewrite E1, E2, E3.
Qed.

Lemma upto_nul_end t r : Forall (fun c => c <> 0) t -> upto_nul (t ++ 0 :: r) = t.
Proof. induction 1 as [|c t Hc Ht IH]; simpl; [done|]. rewrite (proj2 (Z.eqb_neq c 0) Hc). by rewrite IH. Qed.

(** A link is a new entry, whose target is read back; without memory for it
    the entries are as before. *)
Lemma symlink_made s path target p comp : fs_ok s -> leads_to s path p comp -> find_child p comp s = Some (-1) ->
  node_count s < RAMFS64_MAX_NODES -> target <> [] -> zlen target < RAMFS64_PATH_MAX ->
  (exists n s', ramfs64_symlink path target s = Some (n, s') /\ fs_ok s' /\ valid n s' = true /\ ramfs64_is_link n s' = true /\
     ramfs64_size n s' = zlen target /\ (Forall (fun c => c <> 0) target -> ramfs64_readlink n s' = Some target) /\
     forall d nm c, entry s' d nm c <-> (d = p /\ nm = comp /\ c = n) \/ entry s d nm c) \/
  (exists s', ramfs64_symlink path target s = Some (-12, s') /\ fs_ok s' /\ forall d nm c, entry s' d nm c <-> entry s d nm c).
Proof.
  intros (K & Fl & Ht) Hlead Hf Hc Hne Hlen. pose proof Hlead as (Hw & Hp & Hpd).
  destruct (created_ok s K Fl path p comp false Ht Hw Hp Hpd Hf Hc) as (n & s1 & Hr & (K1 & Fl1 & Ht1) & _ & _ & Hm & Hb & _ & Hpr & Hn0 & _).
  pose proof (md_rng _ _ _ _ _ Hm) as Hn. pose proof (made_entry s s1 p comp n Hm Hpr) as He1.
  unfold ramfs64_symlink. rewrite bool_decide_eq_false_2 by done. cbv zeta. rewrite (proj2 (Z.leb_gt RAMFS64_PATH_MAX (zlen target)) Hlen), Hw.
  cbn [mbind option_bind]. rewrite (proj2 (Z.ltb_ge p 0) Hp), Hf. cbn [mbind option_bind]. rewrite (proj2 (Z.leb_gt 0 (-1))) by done.
  rewrite Hr, (proj2 (Z.ltb_ge n 0) Hn0). set (s2 := upd n (set_is_link true) s1).
  pose proof (tr_sized _ _ _ Ht1) as Hz1. assert (quiet s1 s2) as Hq2 by (by apply quiet_upd). pose proof (quiet_sized _ _ Hq2) as Hz2.
  assert (node s2 n = set_is_link true (node s1 n)) as Hn2 by (unfold s2; rewrite node_upd by done; by rewrite Z.eqb_refl).
  assert (n_size (node s2 n) = 0 /\ n_block (node s2 n) = [] /\ n_used (node s2 n) = true) as (Hs2 & Hb2 & Hu2).
  { rewrite Hn2. cbn [n_size n_block n_used set_is_link]. split; [exact (f_equal n_size Hb)|]. split; [exact (f_equal n_block Hb)|exact (f_equal n_used Hb)]. }
  destruct (ensure_ok n (zlen target + 1) s2 Hz2 Hn) as (ok & s3 & -> & Hq3 & Ho3 & _ & _ & Hno & Hyes).
  { unfold RAMFS64_PATH_MAX in Hlen. lia. }
  { rewrite Hs2, Hb2. done. }
  cbn [mbind option_bind]. pose proof (still_trans _ _ _ Hq2 Hq3) as Hq13. pose proof (quiet_sized _ _ Hq3) as Hz3.
  pose proof (quiet_ok _ _ _ _ _ Ht1 Hq13) as Ht3. destruct ok; cbn [negb].
  - left. destruct (Hyes eq_refl) as (Hcap & _ & Hnd3 & _ & _ & Hdata). set (s4 := upd n _ s3).
    assert (quiet s3 s4) as Hq4 by (by apply quiet_upd). pose proof (still_trans _ _ _ Hq13 Hq4) as Hq14.
    assert (node s4 n = set_size (zlen target) (set_data (n_data (node s3 n)) (zsplice 0 (target ++ [0]) (n_block (node s3 n))) (node s3 n))) as Hn4
      by (unfold s4; rewrite node_upd by done; by rewrite Z.eqb_refl).
    assert (valid n s4 = true) as Hv.
    { unfold valid. change (table s4) with (table s3). rewrite (tr_table _ _ _ Ht3), (proj2 (in_range_true n) Hn), Hn4, Hnd3. exact Hu2. }
    exists n, s4. split; [done|]. split; [exists K1, Fl1; by apply (quiet_ok _ s1)|]. split; [done|].
    assert (n_is_link (node s4 n) = true) as Hlk by (rewrite Hn4, Hnd3, Hn2; done).
    split; [unfold ramfs64_is_link; by rewrite Hv, Hlk|]. split; [unfold ramfs64_size; by rewrite Hv, Hn4|].
    assert (n_data (node s4 n) <> 0) as Hd4.
    { rewrite Hn4. apply Hdata. rewrite Hb2. change (zlen (@nil Z)) with 0. pose proof (zlen_nonneg target). lia. }
    split; [|intros d nm c; by rewrite (quiet_entry _ _ d nm c Hq14)]. intros Hnul. unfold ramfs64_readlink. rewrite Hv, Hlk. cbn [negb orb].
    unfold nz. rewrite (proj2 (Z.eqb_neq _ _) Hd4). cbn [negb]. rewrite Hn4. cbn [n_block set_size set_data]. f_equal.
    unfold zsplice. change (Z.to_nat 0) with O. rewrite take_0. cbn [app]. rewrite <-app_assoc. by apply upto_nul_end.
  - right. assert (forall d nm c, entry s3 d nm c <-> (d = p /\ nm = comp /\ c = n) \/ entry s d nm c) as He3 by (intros; by rewrite (quiet_entry _ _ _ _ _ Hq13)).
    assert (used s3 n = true /\ par s3 n = p) as [Hu3 Hp3].
    { destruct (same_tree_fields _ _ n (proj1 Hq13) Hn) as (_ & -> & -> & _). split; apply Hm. }
    assert (K1 n = []) as HK1.
    { apply (no_entry_no_kids s3 K1 Fl1); [done..|]. intros nm c [(E & _)|(_ & Hcr & Hcu & Hcp & _)]%He3.
      - rewrite <-E in Hw. destruct (walk_named s K Fl path true true n comp Ht Hw Hn0) as [(_ & Hnu & _) _]. pose proof (md_free _ _ _ _ _ Hm). congruence.
      - destruct (linked_parent _ s K Fl c Ht Hcr Hcu) as (_ & Hnu & _); [unfold rng in Hn; lia|]. rewrite Hcp in Hnu. pose proof (md_free _ _ _ _ _ Hm). congruence. }
    destruct (free_node_ok s3 K1 Fl1 n Ht3 Hn Hu3 ltac:(unfold rng in Hpr; lia) HK1) as (s4 & -> & Hok4 & Hrm & _). cbn [mbind option_bind].
    exists s4. split; [done|]. split; [done|]. intros d nm c. rewrite (removed_entry s3 s4 n Hrm), He3. split.
    + intros [[(_ & _ & ?)|?] ?]; done.
    + intros Hx. split; [by right|]. intros ->. destruct Hx as (_ & _ & Hx & _). pose proof (md_free _ _ _ _ _ Hm). congruence.
Qed.

Lemma symlink_total s path target : fs_ok s -> dir_path s path -> exists r s', ramfs64_symlink path target s = Some (r, s') /\ fs_ok s'.
Proof.
  intros Hok Hdp. pose proof Hok as (K & Fl & Ht). destruct (bool_decide (target = [])) eqn:Et.
  { exists (-22), s. split; [|done]. unfold ramfs64_symlink. by rewrite Et. }
  apply bool_decide_eq_false in Et. destruct (Z.leb_spec RAMFS64_PATH_MAX (zlen target)) as [Hl|Hl].
  { exists (-36), s. split; [|done]. unfold ramfs64_symlink. rewrite bool_decide_eq_false_2 by done. cbv zeta. by rewrite (proj2 (Z.leb_le _ _) Hl). }
  destruct (walk_ok s K Fl path true true Ht) as (p & comp & Hw & Hp). assert (forall r s', (if p <? 0 then Some (-2, s) else
    existing ← find_child p comp s; if 0 <=? existing then Some (-17, s) else
    let '(n, s0) := alloc_node comp p false s in if n <? 0 then Some (-28, s0) else
    let s1 := upd n (set_is_link true) s0 in r ← ensure_capacity n (zlen target + 1) s1; let '(ok, s2) := (r : bool * fs H A) in
    if negb ok then s3 ← free_node n s2; Some (-12, s3) else
    let s3 := upd n (fun nd => set_size (zlen target) (set_data (n_data nd) (zsplice 0 (target ++ [0]) (n_block nd)) nd)) s2 in Some (n, s3)) = Some (r, s') ->
    ramfs64_symlink path target s = Some (r, s')) as Hrun.
  { intros r s' <-. unfold ramfs64_symlink. rewrite bool_decide_eq_false_2 by done. cbv zeta. rewrite (proj2 (Z.leb_gt _ _) Hl), Hw. done. }
  destruct (Z.ltb_spec p 0) as [Hp0|Hp0]; [exists (-2), s; split; [by apply Hrun|done]|]. destruct Hp as [->|[Hpn Hg]]; [lia|]. pose proof Hpn as (Hpr & Hpu & _).
  destruct (find_child_total _ s K Fl p comp Ht Hpr Hpu) as (c & Hf & _). destruct (Z.leb_spec 0 c) as [Hc|Hc].
  { exists (-17), s. split; [|done]. apply Hrun. rewrite Hf. cbn [mbind option_bind]. by rewrite (proj2 (Z.leb_le 0 c) Hc). }
  pose proof (find_child_free s K Fl p comp c Ht Hpr Hpu Hf Hc) as ->. destruct Fl as [|i Fl].
  { exists (-28), s. split; [|done]. apply Hrun. rewrite Hf. cbn [mbind option_bind]. change (0 <=? -1) with false. cbv iota. rewrite (alloc_node_full s K) by done. done. }
  assert (node_count s < RAMFS64_MAX_NODES) as Hcnt.
  { pose proof (tr_count _ _ _ Ht) as E. rewrite zlen_cons in E. pose proof (zlen_nonneg Fl). lia. }
  destruct (symlink_made s path target p comp Hok) as [(n & s' & Hr & Hok' & _)|(s' & Hr & Hok' & _)]; try done.
  - split; [done|]. split; [done|]. by apply (Hdp p comp).
  - by exists n, s'.
  - by exists (-12), s'.
Qed.

(** A call of the file system, with any arguments, and the state it leaves;
    [None] where the code does not come back, or writes outside its memory. *)
Inductive fs_call :=
| Create (path : list Z) (dir : bool)
| Symlink (path target : list Z)
| Rename (oldp newp : list Z)
| Unlink (path : list Z)
| Rmdir (path : list Z)
| RefNode (n : Z)
| UnrefNode (n : Z)
| Write (n off : Z) (buf : list Z)
| Truncate (n : Z)
| Resize (n len : Z)
| Frames (n len : Z)
| SetMode (n m : Z)
| SetDevice (n d : Z).

Definition fs_do (c : fs_call) (s : fs H A) : option (fs H A) :=
  match c with
  | Create path dir => snd <$> ramfs64_create path dir s
  | Symlink path target => snd <$> ramfs64_symlink path target s
  | Rename oldp newp => snd <$> ramfs64_rename oldp newp s
  | Unlink path => snd <$> ramfs64_unlink path s
  | Rmdir path => snd <$> ramfs64_rmdir path s
  | RefNode n => Some (ramfs64_ref_node n s)
  | UnrefNode n => Some (ramfs64_unref_node n s)
  | Write n off buf => snd <$> ramfs64_write n off buf s
  | Truncate n => Some (snd (ramfs64_truncate n s))
  | Resize n len => snd <$> ramfs64_resize n len s
  | Frames n len => snd <$> ramfs64_frames n len s
  | SetMode n m => Some (ramfs64_set_mode n m s)
  | SetDevice n d => Some (snd (ramfs64_set_device n d s))
  end.

Fixpoint fs_run (cs : list fs_call) (s : fs H A) : option (fs H A) :=
  match cs with [] => Some s | c :: cs => s' ← fs_do c s; fs_run cs s' end.

(** What the callers owe: a new name goes into a directory.  The code does not
    check it: [walk] takes any node for a parent. *)
Definition into_directory (c : fs_call) (s : fs H A) : Prop :=
  match c with Create path _ | Symlink path _ | Rename _ path => dir_path s path | _ => True end.

Fixpoint into_directories (cs : list fs_call) (s : fs H A) : Prop :=
  match cs with
  | [] => True
  | c :: cs => into_directory c s /\ forall s', fs_do c s = Some s' -> into_directories cs s'
  end.

(** Both, computed. *)
Definition dir_pathb (path : list Z) (s : fs H A) : bool :=
  match walk path true true s with Some (p, _) => (p <? 0) || n_is_dir (node s p) | None => true end.

Definition into_directoryb (c : fs_call) (s : fs H A) : bool :=
  match c with Create path _ | Symlink path _ | Rename _ path => dir_pathb path s | _ => true end.

Fixpoint into_directoriesb (cs : list fs_call) (s : fs H A) : bool :=
  match cs with
  | [] => true
  | c :: cs => into_directoryb c s && match fs_do c s with Some s' => into_directoriesb cs s' | None => true end
  end.

Lemma into_directoryb_spec c s : into_directoryb c s = true -> into_directory c s.
Proof.
  assert (forall path, dir_pathb path s = true -> dir_path s path) as Hdp.
  { intros path Hb p comp Hw Hp. unfold dir_pathb in Hb. rewrite Hw in Hb.
    apply orb_true_iff in Hb as [Hb|Hb]; [|done]. apply Z.ltb_lt in Hb. lia. }
  destruct c; cbn [into_directoryb into_directory]; auto.
Qed.

Lemma into_directoriesb_spec cs s : into_directoriesb cs s = true -> into_directories cs s.
Proof.
  revert s. induction cs as [|c cs IH]; intros s; [done|]. cbn [into_directoriesb into_directories].
  intros [H1 H2]%andb_prop. split; [by apply into_directoryb_spec|]. intros s' Hr. rewrite Hr in H2. by apply IH.
Qed.

(** The calls that move no bytes: these always come back. *)
Definition on_names (c : fs_call) : Prop :=
  match c with Write _ _ _ | Resize _ _ | Frames _ _ => False | _ => True end.

Lemma quiet_fs_ok s s' : fs_ok s -> (sized s -> quiet s s') -> fs_ok s'.
Proof. intros (K & Fl & Ht) Hq. exists K, Fl. apply (quiet_ok _ s); [done|]. apply Hq, Ht. Qed.

Lemma total_do {X} (r : option (X * fs H A)) :
  (exists x s', r = Some (x, s') /\ fs_ok s') -> exists s', snd <$> r = Some s' /\ fs_ok s'.
Proof. intros (x & s' & -> & ?). by exists s'. Qed.

Lemma fs_do_names s c : fs_ok s -> into_directory c s -> on_names c -> exists s', fs_do c s = Some s' /\ fs_ok s'.
Proof.
  intros Hok Hd Hn. destruct c; cbn [fs_do into_directory on_names] in *; try done; try (eexists; split; [reflexivity|]).
  - apply total_do. by apply create_total.
  - apply total_do. by apply symlink_total.
  - apply total_do. by apply rename_total.
  - apply total_do. by apply unlink_total.
  - apply total_do. by apply rmdir_total.
  - apply (quiet_fs_ok s); [done|]. apply quiet_ref.
  - destruct Hok as (K & Fl & Ht). destruct (unref_ok s K Fl n Ht) as [Fl' ?]. by exists K, Fl'.
  - apply (quiet_fs_ok s); [done|]. apply quiet_truncate.
  - apply (quiet_fs_ok s); [done|]. apply quiet_set_mode.
  - apply (quiet_fs_ok s); [done|]. apply quiet_set_device.
Qed.

Lemma fs_do_ok s c s' : fs_ok s -> into_directory c s -> fs_do c s = Some s' -> fs_ok s'.
Proof.
  intros Hok Hd Hr. assert (on_names c -> fs_ok s') as Hn.
  { intros Hn. destruct (fs_do_names s c Hok Hd Hn) as (s2 & Hr2 & ?). rewrite Hr in Hr2. by injection Hr2 as <-. }
  destruct c; try (by apply Hn); cbn [fs_do] in Hr; apply fmap_Some in Hr as ([] & Hr & ->); cbn [snd];
    apply (quiet_fs_ok s); try done; intros Hz.
  - by eapply quiet_write.
  - by eapply quiet_resize.
  - destruct p. by eapply quiet_frames.
Qed.
End names.
