(* ===== verification/Ramdata.v ===== *)
(** * The bytes of the RAM file system's files ([kernel/ramfs64.c])

    A file's bytes are in one block of the heap or spread over frames; what
    reading and writing promise does not depend on which.  [fbyte s nd k] is
    the byte at [k], [file_ok] what the representation keeps, and the
    theorems say that reading gives those bytes and writing replaces exactly
    the ones it is given - also when the write moves the file from the block
    into frames. *)

From S2P Require Import Prelude FrameAlloc Ramfs64 Ramtree Ramnames.
From S2P Require Pipe64.

(** ** Pages *)

Lemma page_split x : x = PAGE64_SIZE * (x / PAGE64_SIZE) + x mod PAGE64_SIZE /\ 0 <= x mod PAGE64_SIZE < PAGE64_SIZE.
Proof. unfold PAGE64_SIZE. split; [apply Z.div_mod; lia|apply Z.mod_pos_bound; lia]. Qed.

Lemma page_of q r : 0 <= r < PAGE64_SIZE -> (PAGE64_SIZE * q + r) / PAGE64_SIZE = q /\ (PAGE64_SIZE * q + r) mod PAGE64_SIZE = r.
Proof. unfold PAGE64_SIZE. intros Hr. split; [symmetry; apply (Z.div_unique_pos _ _ _ r); lia|symmetry; apply (Z.mod_unique_pos _ _ q); lia]. Qed.

Section data.
  Context {H A : Type} `{!Pipe64.KernelHeap H, !FrameAllocator A}.
  Implicit Types s : fs H A.

(** The byte at [x] of the frames of [nd]. *)
Definition cat s (nd : node64) (x : Z) : Z := zget (page s (zget (n_farr nd) (x / PAGE64_SIZE))) (x mod PAGE64_SIZE).

(** The frames of [nd] are different ones, a page each. *)
Record pages_ok s (nd : node64) : Prop := {
  pg_len a : 0 <= a < n_nframes nd -> zlen (page s (zget (n_farr nd) a)) = PAGE64_SIZE;
  pg_inj a b : 0 <= a < n_nframes nd -> 0 <= b < n_nframes nd -> zget (n_farr nd) a = zget (n_farr nd) b -> a = b
}.

Definition held (nd : node64) (p : Z) : Prop := exists a, 0 <= a < n_nframes nd /\ p = zget (n_farr nd) a.

(** The same state but for the pages. *)
Definition pages_only s s' : Prop :=
  nodes s' = nodes s /\ table s' = table s /\ heap s' = heap s /\ frames s' = frames s /\ free_head s' = free_head s /\ node_count s' = node_count s.

(** One turn of the copy: a run inside one page. *)
Lemma run_bounds off k len : 0 <= off -> 0 <= k < len -> off + len < 2 ^ 64 ->
  let in_ := (off + k) mod PAGE64_SIZE in
  let run := if len - k <? PAGE64_SIZE - in_ then len - k else PAGE64_SIZE - in_ in
  u64 (off + k) = off + k /\ 0 <= in_ < PAGE64_SIZE /\ 0 < run /\ in_ + run <= PAGE64_SIZE /\ k + run <= len /\
  (k + run < len -> (off + (k + run)) / PAGE64_SIZE = (off + k) / PAGE64_SIZE + 1) /\
  (forall x, off + k <= x < off + (k + run) -> x / PAGE64_SIZE = (off + k) / PAGE64_SIZE /\ x mod PAGE64_SIZE = in_ + (x - (off + k))) /\
  (forall x, 0 <= x -> x / PAGE64_SIZE = (off + k) / PAGE64_SIZE -> in_ <= x mod PAGE64_SIZE < in_ + run -> off + k <= x < off + (k + run)).
Proof.
  intros Hoff Hk Hlen. cbv zeta. set (q := (off + k) / PAGE64_SIZE). set (r := (off + k) mod PAGE64_SIZE).
  destruct (page_split (off + k)) as [Eq Hr]. fold q r in Eq, Hr. set (run := if _ <? _ then _ else _).
  assert (0 < run /\ r + run <= PAGE64_SIZE /\ k + run <= len /\ (k + run < len -> run = PAGE64_SIZE - r)) as (R1 & R2 & R3 & R4)
    by (unfold run; destruct (Z.ltb_spec (len - k) (PAGE64_SIZE - r)); lia).
  split; [apply u64_small; lia|]. do 4 (split; [done|]). split; [|split].
  - intros Hlt. destruct (page_of (q + 1) 0) as [E _]; [done|]. rewrite <-E. f_equal. rewrite (R4 Hlt). lia.
  - intros x Hx. destruct (page_of q (r + (x - (off + k)))) as [E1 E2]; [lia|]. replace x with (PAGE64_SIZE * q + (r + (x - (off + k)))) at 1 2 by lia. done.
  - intros x Hx0 Hx1 Hx2. destruct (page_split x) as [Ex _]. rewrite Hx1 in Ex. lia.
Qed.

Lemma frames_put_spec fuel nd off k len buf s : 0 <= off -> 0 <= k <= len -> len <= zlen buf -> off + len < 2 ^ 64 ->
  off + len <= n_nframes nd * PAGE64_SIZE -> pages_ok s nd ->
  k = len \/ off + len <= ((off + k) / PAGE64_SIZE + Z.of_nat fuel) * PAGE64_SIZE ->
  let s' := frames_put fuel nd off k len buf s in
  pages_only s s' /\ pages_ok s' nd /\ (forall p, ~ held nd p -> page s' p = page s p) /\
  forall x, 0 <= x < n_nframes nd * PAGE64_SIZE -> cat s' nd x = if (off + k <=? x) && (x <? off + len) then zget buf (x - off) else cat s nd x.
Proof.
  intros Hoff Hk Hbuf Hw Hfit. revert k s Hk. induction fuel as [|fuel IH]; intros k s Hk Hpg Hf; cbv zeta; cbn [frames_put].
  - assert (k = len) as ->.
    { destruct Hf as [|Hf]; [done|]. destruct (page_split (off + k)) as [E ?]. unfold PAGE64_SIZE in *. lia. }
    split; [done|]. split; [done|]. split; [done|]. intros x _. destruct (Z.leb_spec (off + len) x); [|done]. by rewrite (proj2 (Z.ltb_ge x (off + len))).
  - destruct (Z.ltb_spec k len) as [Hlt|Hge]; cbn [negb].
    2:{ assert (k = len) as -> by lia. split; [done|]. split; [done|]. split; [done|]. intros x _.
        destruct (Z.leb_spec (off + len) x); [|done]. by rewrite (proj2 (Z.ltb_ge x (off + len))). }
    destruct (run_bounds off k len Hoff ltac:(lia) Hw) as (Eu & Hr & R1 & R2 & R3 & R4 & R5 & R6). rewrite Eu.
    set (q := (off + k) / PAGE64_SIZE) in *. set (r := (off + k) mod PAGE64_SIZE) in *. set (run := if _ <? _ then _ else _) in *.
    assert (0 <= q < n_nframes nd) as Hq.
    { destruct (page_split (off + k)) as [E ?]. fold q r in E. unfold PAGE64_SIZE in *. nia. }
    rewrite (proj2 (Z.leb_gt (n_nframes nd) q)) by lia. set (f := zget (n_farr nd) q). set (s1 := set_page f _ s).
    assert (zlen (zslice k run buf) = run) as Hsl by (apply zlen_zslice; lia).
    pose proof (pg_len _ _ Hpg q Hq) as Hfl. fold f in Hfl.
    assert (forall p, page s1 p = if p =? f then zsplice r (zslice k run buf) (page s f) else page s p) as Hp1 by done.
    assert (pages_ok s1 nd) as Hpg1.
    { split; [|apply Hpg]. intros a Ha. rewrite Hp1. destruct (Z.eqb_spec (zget (n_farr nd) a) f); [|by apply Hpg].
      rewrite zlen_zsplice; [done|lia|]. rewrite Hsl, Hfl. lia. }
    destruct (IH (k + run) s1) as (I1 & I2 & I3 & I4); [lia|done| |].
    { destruct (Z.eqb_spec (k + run) len); [by left|right]. destruct Hf as [|Hf]; [lia|]. rewrite R4 by lia. fold q. unfold PAGE64_SIZE in *. lia. }
    split; [done|]. split; [done|]. split.
    + intros p Hp. rewrite I3 by done. rewrite Hp1. destruct (Z.eqb_spec p f) as [->|]; [|done]. destruct Hp. by exists q.
    + intros x Hx. rewrite I4 by done. destruct (Z.leb_spec (off + (k + run)) x) as [Hx2|Hx2].
      * cbn [andb]. rewrite (proj2 (Z.leb_le (off + k) x)) by lia. cbn [andb]. destruct (Z.ltb_spec x (off + len)) as [Hx3|Hx3]; [done|].
        unfold cat. rewrite Hp1. destruct (Z.eqb_spec (zget (n_farr nd) (x / PAGE64_SIZE)) f) as [E|]; [|done].
        destruct (page_split x) as [Ex Hxm]. apply (pg_inj _ _ Hpg) in E; [|unfold PAGE64_SIZE in *; nia|done].
        rewrite E. fold f. rewrite zget_zsplice by (rewrite ?Hsl; lia). rewrite Hsl. destruct (Z.leb_spec r (x mod PAGE64_SIZE)); [|done]. cbn [andb].
        destruct (Z.ltb_spec (x mod PAGE64_SIZE) (r + run)); [|done]. pose proof (R6 x ltac:(lia) E ltac:(lia)). lia.
      * cbn [andb]. destruct (Z.leb_spec (off + k) x) as [Hx1|Hx1].
        -- rewrite (proj2 (Z.ltb_lt x (off + len))) by lia. cbn [andb]. destruct (R5 x ltac:(lia)) as [E1 E2]. unfold cat. rewrite E1, Hp1. fold f.
           rewrite Z.eqb_refl, E2. rewrite zget_zsplice by (rewrite ?Hsl; lia). rewrite Hsl, (proj2 (Z.leb_le _ _)), (proj2 (Z.ltb_lt _ _)) by lia. cbn [andb].
           rewrite zget_zslice by lia. f_equal. lia.
        -- cbn [andb]. unfold cat. rewrite Hp1. destruct (Z.eqb_spec (zget (n_farr nd) (x / PAGE64_SIZE)) f) as [E|]; [|done].
           destruct (page_split x) as [Ex Hxm]. apply (pg_inj _ _ Hpg) in E; [|unfold PAGE64_SIZE in *; nia|done].
           rewrite E. fold f. rewrite zget_zsplice by (rewrite ?Hsl; lia). rewrite Hsl. destruct (Z.leb_spec r (x mod PAGE64_SIZE)); [|done]. cbn [andb].
           destruct (Z.ltb_spec (x mod PAGE64_SIZE) (r + run)); [|done]. pose proof (R6 x ltac:(lia) E ltac:(lia)). lia.
Qed.

Lemma frames_get_spec fuel nd off k len buf s : 0 <= off -> 0 <= k <= len -> len <= zlen buf -> off + len < 2 ^ 64 ->
  off + len <= n_nframes nd * PAGE64_SIZE -> pages_ok s nd ->
  k = len \/ off + len <= ((off + k) / PAGE64_SIZE + Z.of_nat fuel) * PAGE64_SIZE ->
  let buf' := frames_get fuel nd off k len buf s in
  zlen buf' = zlen buf /\ forall j, 0 <= j < zlen buf -> zget buf' j = if (k <=? j) && (j <? len) then cat s nd (off + j) else zget buf j.
Proof.
  intros Hoff Hk Hbuf Hw Hfit Hpg. revert k buf Hk Hbuf. induction fuel as [|fuel IH]; intros k buf Hk Hbuf Hf; cbv zeta; cbn [frames_get].
  - assert (k = len) as ->.
    { destruct Hf as [|Hf]; [done|]. destruct (page_split (off + k)) as [E ?]. unfold PAGE64_SIZE in *. lia. }
    split; [done|]. intros j _. destruct (Z.leb_spec len j); [|done]. by rewrite (proj2 (Z.ltb_ge j len)).
  - destruct (Z.ltb_spec k len) as [Hlt|Hge]; cbn [negb].
    2:{ assert (k = len) as -> by lia. split; [done|]. intros j _. destruct (Z.leb_spec len j); [|done]. by rewrite (proj2 (Z.ltb_ge j len)). }
    destruct (run_bounds off k len Hoff ltac:(lia) Hw) as (Eu & Hr & R1 & R2 & R3 & R4 & R5 & R6). rewrite Eu.
    set (q := (off + k) / PAGE64_SIZE) in *. set (r := (off + k) mod PAGE64_SIZE) in *. set (run := if _ <? _ then _ else _) in *.
    assert (0 <= q < n_nframes nd) as Hq.
    { destruct (page_split (off + k)) as [E ?]. fold q r in E. unfold PAGE64_SIZE in *. nia. }
    rewrite (proj2 (Z.leb_gt (n_nframes nd) q)) by lia. pose proof (pg_len _ _ Hpg q Hq) as Hfl.
    set (pg := page s (zget (n_farr nd) q)) in *. assert (zlen (zslice r run pg) = run) as Hsl by (apply zlen_zslice; lia).
    set (buf1 := zsplice k (zslice r run pg) buf). assert (zlen buf1 = zlen buf) as Hl1 by (apply zlen_zsplice; rewrite ?Hsl; lia).
    destruct (IH (k + run) buf1) as (I1 & I2); [lia|lia| |].
    { destruct (Z.eqb_spec (k + run) len); [by left|right]. destruct Hf as [|Hf]; [lia|]. rewrite R4 by lia. fold q. unfold PAGE64_SIZE in *. lia. }
    split; [by rewrite I1|]. intros j Hj. rewrite I2 by lia. destruct (Z.leb_spec (k + run) j) as [Hj2|Hj2]; cbn [andb].
    + rewrite (proj2 (Z.leb_le k j)) by lia. cbn [andb]. destruct (j <? len); [done|]. unfold buf1. rewrite zget_zsplice by (rewrite ?Hsl; lia).
      rewrite Hsl, (proj2 (Z.ltb_ge j (k + run))) by lia. by rewrite andb_false_r.
    + unfold buf1. rewrite zget_zsplice by (rewrite ?Hsl; lia). rewrite Hsl, (proj2 (Z.ltb_lt j (k + run))) by lia. rewrite andb_true_r.
      destruct (Z.leb_spec k j) as [Hj1|Hj1]; [|done]. cbn [andb]. rewrite (proj2 (Z.ltb_lt j len)) by lia.
      rewrite zget_zslice by lia. destruct (R5 (off + j) ltac:(lia)) as [E1 E2]. unfold cat. rewrite E1, E2. fold pg. f_equal. lia.
Qed.

(** ** Frames taken and given back *)

Definition owners s (f : Z) : Z := fa_owners (frames s) f.
Definition frame_no (p : Z) : Z := p / 4096.

Lemma free_frames_owners l s : fa_ok (frames s) -> Forall (fun p => 0 <= p) l -> NoDup (map frame_no l) ->
  fa_ok (frames (free_frames l s)) /\
  forall g, owners (free_frames l s) g = if bool_decide (g ∈ map frame_no l) then Z.max 0 (owners s g - 1) else owners s g.
Proof.
  unfold free_frames. revert s. induction l as [|p l IH]; intros s Hok Hl Hnd; cbn [fold_left map].
  { split; [done|]. intros g. by rewrite bool_decide_eq_false_2 by apply not_elem_of_nil. }
  apply Forall_cons in Hl as [Hp Hl]. cbn [map] in Hnd. apply NoDup_cons in Hnd as [Hpl Hnd].
  destruct (fa_free_frame (frames s) p Hok Hp) as (Hok1 & _ & Ho1). destruct (IH (free_phys p s) Hok1 Hl Hnd) as [Hok2 Ho2].
  split; [done|]. intros g. rewrite Ho2. unfold owners at 1 2, free_phys at 1 2. cbn [frames set_alloc]. rewrite Ho1. fold (frame_no p) (owners s g).
  destruct (Z.eqb_spec g (frame_no p)) as [->|Hne].
  - rewrite bool_decide_eq_false_2 by done. by rewrite bool_decide_eq_true_2 by (apply elem_of_cons; by left).
  - destruct (decide (g ∈ map frame_no l)); [rewrite !bool_decide_eq_true_2; [done|apply elem_of_cons; by right|done]|].
    rewrite !bool_decide_eq_false_2; [done|by rewrite elem_of_cons; intros [|]|done].
Qed.

(** The frames [nframes .. got-1] are new ones for the node [i]; nothing else
    changed since [s0]. *)
Record grown (s0 s : fs H A) (i : Z) (nd0 : node64) (got : Z) : Prop := {
  gw_ok : fa_ok (frames s);
  gw_node : node s i = set_frames (n_frames nd0) (n_farr (node s i)) (n_nframes nd0) nd0;
  gw_len : zlen (n_farr (node s i)) = zlen (n_farr nd0);
  gw_old a : 0 <= a < n_nframes nd0 -> zget (n_farr (node s i)) a = zget (n_farr nd0) a;
  gw_new a : n_nframes nd0 <= a < got -> exists f, 0 < f /\ zget (n_farr (node s i)) a = f * 4096 /\ owners s0 f = 0 /\ owners s f = 1 /\
    page s (f * 4096) = replicate (Z.to_nat PAGE64_SIZE) 0;
  gw_inj a b : n_nframes nd0 <= a < got -> n_nframes nd0 <= b < got -> zget (n_farr (node s i)) a = zget (n_farr (node s i)) b -> a = b;
  gw_own g : g <> 0 -> (forall a, n_nframes nd0 <= a < got -> zget (n_farr (node s i)) a <> g * 4096) -> owners s g = owners s0 g;
  gw_page p : (forall a, n_nframes nd0 <= a < got -> zget (n_farr (node s i)) a <> p) -> page s p = page s0 p;
  gw_only : only_node i s0 s;
  gw_quiet : quiet s0 s
}.

(** As [s0] but for the entries past the end of the array, and for pages that
    nobody owned. *)
Record untaken (s0 s : fs H A) (i : Z) (nd0 : node64) : Prop := {
  ut_ok : fa_ok (frames s);
  ut_node : node s i = set_frames (n_frames nd0) (n_farr (node s i)) (n_nframes nd0) nd0;
  ut_len : zlen (n_farr (node s i)) = zlen (n_farr nd0);
  ut_old a : 0 <= a < n_nframes nd0 -> zget (n_farr (node s i)) a = zget (n_farr nd0) a;
  ut_own g : g <> 0 -> owners s g = owners s0 g;
  ut_page f : 0 < owners s0 f -> page s (f * 4096) = page s0 (f * 4096);
  ut_only : only_node i s0 s;
  ut_quiet : quiet s0 s
}.

Lemma grown_nil s0 i : sized s0 -> fa_ok (frames s0) -> grown s0 s0 i (node s0 i) (n_nframes (node s0 i)).
Proof. intros Hz Hok. split; try done; try lia. by destruct (node s0 i). Qed.

Lemma frame_no_mul f : frame_no (f * 4096) = f.
Proof. unfold frame_no. by apply Z.div_mul. Qed.

(** The new frames of [zslice] as a list. *)
Lemma grown_entries s0 s i nd0 got : grown s0 s i nd0 got -> 0 <= n_nframes nd0 <= got -> got <= zlen (n_farr nd0) ->
  let l := zslice (n_nframes nd0) (got - n_nframes nd0) (n_farr (node s i)) in
  Forall (fun p => 0 <= p) l /\ NoDup (map frame_no l) /\
  forall g, g ∈ map frame_no l <-> exists a, n_nframes nd0 <= a < got /\ zget (n_farr (node s i)) a = g * 4096.
Proof.
  intros Hg Hn Hgot. cbv zeta. set (l := zslice _ _ _). pose proof (gw_len _ _ _ _ _ Hg) as Hlen.
  assert (zlen l = got - n_nframes nd0) as Hl by (apply zlen_zslice; lia).
  assert (forall k p, l !! k = Some p -> exists f, n_nframes nd0 <= n_nframes nd0 + Z.of_nat k < got /\ p = zget (n_farr (node s i)) (n_nframes nd0 + Z.of_nat k) /\ p = f * 4096 /\ 0 < f) as Hk.
  { intros k p Hkp. pose proof (lookup_lt_Some _ _ _ Hkp) as Hlt. unfold zlen in Hl.
    assert (p = zget (n_farr (node s i)) (n_nframes nd0 + Z.of_nat k)) as Ep.
    { symmetry. rewrite <-(zget_zslice (n_nframes nd0) (got - n_nframes nd0)) by lia. apply (zget_lookup l); [lia|]. by rewrite Nat2Z.id. }
    destruct (gw_new _ _ _ _ _ Hg (n_nframes nd0 + Z.of_nat k) ltac:(lia)) as (f & Hf & Ef & _). exists f. split; [lia|]. split; [done|]. split; [congruence|done]. }
  split; [|split].
  - apply Forall_lookup. intros k p (f & _ & _ & -> & ?)%Hk. lia.
  - apply NoDup_alt. intros k1 k2 g H1 H2. change (map frame_no l) with (frame_no <$> l) in *. apply list_lookup_fmap_Some in H1 as (p1 & -> & H1).
    apply list_lookup_fmap_Some in H2 as (p2 & E & H2). destruct (Hk _ _ H1) as (f1 & R1 & E1 & F1 & _), (Hk _ _ H2) as (f2 & R2 & E2 & F2 & _).
    rewrite F1, F2, !frame_no_mul in E. pose proof (gw_inj _ _ _ _ _ Hg _ _ R1 R2). lia.
  - intros g. change (map frame_no l) with (frame_no <$> l). rewrite list_elem_of_fmap. split.
    + intros (p & -> & [k Hkp]%list_elem_of_lookup). destruct (Hk _ _ Hkp) as (f & R & E & F & _). eexists. split; [exact R|]. rewrite <-E, F, frame_no_mul. done.
    + intros (a & Ha & E). exists (g * 4096). split; [by rewrite frame_no_mul|]. apply list_elem_of_lookup. exists (Z.to_nat (a - n_nframes nd0)).
      destruct (lookup_lt_is_Some_2 l (Z.to_nat (a - n_nframes nd0))) as [p Hp]; [unfold zlen in Hl; lia|]. rewrite Hp. f_equal.
      destruct (Hk _ _ Hp) as (f & R & E' & _). rewrite E', <-E. f_equal. lia.
Qed.

(** One more frame, or all of the new ones back. *)
Lemma take_frames_spec s0 i nd0 fuel got need s : rng i -> 0 <= n_nframes nd0 <= got -> got <= need -> need <= zlen (n_farr nd0) ->
  fuel = Z.to_nat (need - got) -> (forall f, 0 <= owners s0 f) -> grown s0 s i nd0 got ->
  (exists s', take_frames fuel i got need s = (true, s') /\ grown s0 s' i nd0 need) \/
  (exists s', take_frames fuel i got need s = (false, s') /\ untaken s0 s' i nd0).
Proof.
  intros Hi Hn Hgot Hneed Hfuel Hpos Hg. revert got s Hn Hgot Hfuel Hg. induction fuel as [|fuel IH]; intros got s Hn Hgot Hfuel Hg; cbn [take_frames].
  { left. exists s. split; [done|]. by replace need with got by lia. }
  rewrite (proj2 (Z.ltb_lt got need)) by lia. cbn [negb].
  destruct (fa_alloc_frame (frames s) (gw_ok _ _ _ _ _ Hg)) as ((Hok1 & Hout) & _). destruct (alloc_frame (frames s)) as [p a]. cbn [fst snd] in *.
  destruct Hout as [(f & Hf & -> & Hf0 & Ho)|[-> Ho]].
  - rewrite (proj2 (Z.eqb_neq (f * 4096) 0)) by lia. set (s1 := set_page (f * 4096) _ (set_alloc a s)). set (s2 := upd i _ s1).
    assert (sized s1) as Hz1 by exact (quiet_sized _ _ (gw_quiet _ _ _ _ _ Hg)).
    assert (node s2 i = set_frames (n_frames (node s i)) (zset (n_farr (node s i)) got (f * 4096)) (n_nframes (node s i)) (node s i)) as Hn2.
    { unfold s2. rewrite node_upd by done. by rewrite Z.eqb_refl. }
    pose proof (gw_len _ _ _ _ _ Hg) as Hlen. pose proof (gw_node _ _ _ _ _ Hg) as Hnode.
    assert (forall x, 0 <= x -> x <> got -> zget (n_farr (node s2 i)) x = zget (n_farr (node s i)) x) as Hne.
    { intros x Hx Hxg. rewrite Hn2. apply zget_zset_ne; lia. }
    assert (zget (n_farr (node s2 i)) got = f * 4096) as Hnew by (rewrite Hn2; apply zget_zset_eq; lia).
    assert (forall x, n_nframes nd0 <= x < got -> zget (n_farr (node s i)) x <> f * 4096) as Hfresh.
    { intros x Hx E. destruct (gw_new _ _ _ _ _ Hg x Hx) as (f' & _ & E' & _ & Ho' & _). assert (f' = f) as -> by lia. unfold owners in Ho'. lia. }
    assert (forall g, owners s2 g = if g =? f then 1 else owners s g) as Ho2 by exact Ho.
    assert (forall q, page s2 q = if q =? f * 4096 then replicate (Z.to_nat PAGE64_SIZE) 0 else page s q) as Hpg2 by done.
    apply (IH (got + 1) s2); [lia|lia|lia|]. split.
    + done.
    + rewrite Hn2, Hnode. done.
    + rewrite Hn2. cbn [n_farr set_frames]. by rewrite zlen_zset.
    + intros x Hx. rewrite Hne by lia. by apply (gw_old _ _ _ _ _ Hg).
    + intros x Hx. destruct (Z.eqb_spec x got) as [->|Hxg].
      * exists f. rewrite Ho2, Hpg2, !Z.eqb_refl. split; [lia|]. split; [done|]. split; [|done].
        rewrite <-(gw_own _ _ _ _ _ Hg f) by (done || lia). done.
      * destruct (gw_new _ _ _ _ _ Hg x ltac:(lia)) as (f' & F1 & F2 & F3 & F4 & F5). exists f'. rewrite Hne, Ho2, Hpg2 by lia.
        assert (f' <> f) by (intros ->; by apply (Hfresh x); [lia|]). by rewrite (proj2 (Z.eqb_neq f' f)), (proj2 (Z.eqb_neq (f' * 4096) (f * 4096))) by lia.
    + intros x y Hx Hy E. destruct (Z.eqb_spec x got) as [->|Hxg], (Z.eqb_spec y got) as [->|Hyg]; [done|..].
      * rewrite Hnew, Hne in E by lia. symmetry in E. by destruct (Hfresh y ltac:(lia)).
      * rewrite Hnew, Hne in E by lia. by destruct (Hfresh x ltac:(lia)).
      * rewrite !Hne in E by lia. apply (gw_inj _ _ _ _ _ Hg); [lia|lia|done].
    + intros g Hg0 Hno. rewrite Ho2. destruct (Z.eqb_spec g f) as [->|]; [by destruct (Hno got ltac:(lia))|].
      apply (gw_own _ _ _ _ _ Hg); [done|]. intros x Hx. rewrite <-Hne by lia. apply Hno. lia.
    + intros q Hno. rewrite Hpg2. destruct (Z.eqb_spec q (f * 4096)) as [->|]; [by destruct (Hno got ltac:(lia))|].
      apply (gw_page _ _ _ _ _ Hg). intros x Hx. rewrite <-Hne by lia. apply Hno. lia.
    + intros j Hj Hji. unfold s2. rewrite node_upd by done. rewrite (proj2 (Z.eqb_neq j i) Hji). by apply (gw_only _ _ _ _ _ Hg).
    + eapply still_trans; [apply Hg|]. eapply (still_trans _ s1); [by apply quiet_store|by apply quiet_upd].
  - rewrite Z.eqb_refl. right. eexists. split; [reflexivity|]. set (s1 := set_alloc a s).
    pose proof (gw_node _ _ _ _ _ Hg) as Hnode. assert (n_nframes (node s1 i) = n_nframes nd0) as -> by (change (node s1 i) with (node s i); by rewrite Hnode).
    change (n_farr (node s1 i)) with (n_farr (node s i)).
    destruct (grown_entries s0 s i nd0 got Hg Hn ltac:(lia)) as (L1 & L2 & L3). set (l := zslice _ _ _) in *.
    destruct (free_frames_owners l s1 Hok1 L1 L2) as [Hok2 Ho2]. destruct (free_frames_same l s1) as (N1 & N2 & N3 & N4 & N5).
    assert (forall j, node (free_frames l s1) j = node s j) as Hnn by (intros j; unfold node; by rewrite N1).
    split.
    + done.
    + by rewrite Hnn.
    + rewrite Hnn. apply Hg.
    + intros x Hx. rewrite Hnn. by apply (gw_old _ _ _ _ _ Hg).
    + intros g Hg0. rewrite Ho2. change (owners s1 g) with (fa_owners a g). rewrite Ho by done. fold (owners s g). case_bool_decide as Hin.
      * apply L3 in Hin as (x & Hx & E). destruct (gw_new _ _ _ _ _ Hg x Hx) as (f & _ & E' & F3 & F4 & _). assert (f = g) as -> by lia. rewrite F3, F4. done.
      * apply (gw_own _ _ _ _ _ Hg); [done|]. intros x Hx E. apply Hin, L3. by exists x.
    + intros f Hf. rewrite N5. change (page s1) with (page s). apply (gw_page _ _ _ _ _ Hg). intros x Hx E.
      destruct (gw_new _ _ _ _ _ Hg x Hx) as (f' & _ & E' & F3 & _). assert (f' = f) as -> by lia. lia.
    + intros j Hj Hji. rewrite Hnn. by apply (gw_only _ _ _ _ _ Hg).
    + eapply still_trans; [apply Hg|]. apply quiet_store; [exact (quiet_sized _ _ (gw_quiet _ _ _ _ _ Hg))|done..].
Qed.

(** ** Files *)

(** A file in one block; a file in frames, each owned. *)
Record flat (nd : node64) : Prop := {
  fl_frames : n_frames nd = 0;
  fl_none : n_nframes nd = 0;
  fl_arr : n_farr nd = [];
  fl_size : 0 <= n_size nd <= zlen (n_block nd);
  fl_data : n_data nd = 0 -> zlen (n_block nd) = 0
}.

Record framed s (nd : node64) : Prop := {
  fr_frames : n_frames nd <> 0;
  fr_data : n_data nd = 0;
  fr_arr : 0 < n_nframes nd <= zlen (n_farr nd);
  fr_size : 0 <= n_size nd <= n_nframes nd * PAGE64_SIZE;
  fr_pages : pages_ok s nd;
  fr_own a : 0 <= a < n_nframes nd -> exists f, 0 < f /\ zget (n_farr nd) a = f * 4096 /\ 0 < owners s f
}.

Lemma flat_empty nd : flat nd -> n_data nd = 0 -> n_size nd = 0.
Proof. intros Hf Hd. pose proof (fl_size _ Hf). pose proof (fl_data _ Hf Hd). lia. Qed.

Definition file_ok s (nd : node64) : Prop := flat nd \/ framed s nd.

Definition fbyte s (nd : node64) (k : Z) : Z := if nz (n_frames nd) then cat s nd k else zget (n_block nd) k.

(** Frames that have an owner keep one, and their bytes. *)
Definition keeps_owned s s' : Prop := forall f, 0 < f -> 0 < owners s f -> 0 < owners s' f /\ page s' (f * 4096) = page s (f * 4096).

Lemma keeps_refl s : keeps_owned s s.
Proof. done. Qed.

Lemma keeps_trans s1 s2 s3 : keeps_owned s1 s2 -> keeps_owned s2 s3 -> keeps_owned s1 s3.
Proof. intros K1 K2 f Hf Ho. destruct (K1 f Hf Ho) as [Ho2 E]. destruct (K2 f Hf Ho2) as [? E2]. split; [done|congruence]. Qed.

Lemma owners_pos s f : fa_ok (frames s) -> 0 <= owners s f.
Proof. intros Hok. by apply (fa_owners_range (frames s) f). Qed.

Lemma cat_range (nd : node64) k : 0 <= k < n_nframes nd * PAGE64_SIZE -> 0 <= k / PAGE64_SIZE < n_nframes nd.
Proof. intros Hk. destruct (page_split k) as [E ?]. unfold PAGE64_SIZE in *. nia. Qed.

(** What a file is does not depend on the rest of the state. *)
Lemma framed_keeps s s' nd : framed s nd -> keeps_owned s s' -> framed s' nd /\ forall k, 0 <= k < n_size nd -> fbyte s' nd k = fbyte s nd k.
Proof.
  intros [F1 F2 F3 F4 F5 F6] Hk. split.
  - split; try done.
    + split; [|apply F5]. intros a Ha. destruct (F6 a Ha) as (f & Hf & E & Ho). destruct (Hk f Hf Ho) as [_ E2]. rewrite E, E2, <-E. by apply (pg_len _ _ F5).
    + intros a Ha. destruct (F6 a Ha) as (f & Hf & E & Ho). destruct (Hk f Hf Ho) as [? _]. by exists f.
  - intros k Hk2. unfold fbyte. destruct (nz _); [|done]. unfold cat. destruct (F6 (k / PAGE64_SIZE)) as (f & Hf & E & Ho); [apply cat_range; lia|].
    destruct (Hk f Hf Ho) as [_ E2]. by rewrite E, E2.
Qed.

Lemma file_keeps s s' nd : file_ok s nd -> keeps_owned s s' -> file_ok s' nd /\ forall k, 0 <= k < n_size nd -> fbyte s' nd k = fbyte s nd k.
Proof.
  intros [Hfl|Hfr] Hk.
  - split; [by left|]. intros k _. unfold fbyte. by rewrite (fl_frames _ Hfl).
  - destruct (framed_keeps s s' nd Hfr Hk). split; [by right|done].
Qed.

(** The array of frames, made large enough. *)
Lemma grow_array_spec s i need : sized s -> rng i -> file_ok s (node s i) -> fa_ok (frames s) -> 0 < need <= 2 ^ 60 ->
  n_nframes (node s i) < need ->
  let nd := node s i in
  exists ok s1, (if zlen (n_farr nd) <? need then
         cap ← grow_cap 65 (if nz (zlen (n_farr nd)) then zlen (n_farr nd) else 16) need;
         let '(fresh, s) := kmalloc (u64 (cap * 8)) s in
         if fresh =? 0 then Some (false, s) else
         let arr := take (Z.to_nat (n_nframes nd)) (n_farr nd) ++ replicate (Z.to_nat (cap - n_nframes nd)) 0 in
         let s := if nz (n_frames nd) then kfree (n_frames nd) s else s in
         Some (true, upd i (set_frames fresh arr (n_nframes nd)) s)
       else Some (true, s)) = Some (ok, s1) /\
    quiet s s1 /\ only_node i s s1 /\ frames s1 = frames s /\ page s1 = page s /\
    (ok = false -> node s1 i = nd) /\
    (ok = true -> node s1 i = set_frames (n_frames (node s1 i)) (n_farr (node s1 i)) (n_nframes nd) nd /\ n_frames (node s1 i) <> 0 /\
      need <= zlen (n_farr (node s1 i)) /\ forall a, 0 <= a < n_nframes nd -> zget (n_farr (node s1 i)) a = zget (n_farr nd) a).
Proof.
  intros Hz Hi Hfile Hok Hneed Hlt. cbv zeta. set (nd := node s i) in *.
  assert (0 <= n_nframes nd <= zlen (n_farr nd)) as Hnf.
  { destruct Hfile as [Hf|Hf]; [rewrite (fl_none _ Hf); pose proof (zlen_nonneg (n_farr nd)); lia|pose proof (fr_arr _ _ Hf); lia]. }
  destruct (Z.ltb_spec (zlen (n_farr nd)) need) as [Hl|Hl].
  - destruct (grow_cap_ends (if nz (zlen (n_farr nd)) then zlen (n_farr nd) else 16) need) as (cap & -> & Hcw & _ & _); [|lia|].
    { unfold nz. destruct (Z.eqb_spec (zlen (n_farr nd)) 0); cbn [negb]; lia. }
    cbn [mbind option_bind]. unfold kmalloc. destruct (Pipe64.kmalloc64 (u64 (cap * 8)) (heap s)) as [fr h]. destruct (Z.eqb_spec fr 0) as [->|Hfr].
    { exists false, (set_heap h s). split; [done|]. split; [by apply quiet_store|]. do 3 (split; [done|]). split; [done|done]. }
    set (arr := _ ++ _). set (s0 := if nz (n_frames nd) then _ else _).
    assert (quiet s s0 /\ nodes s0 = nodes s /\ page s0 = page s /\ frames s0 = frames s) as (Hq & Hn & Hpg & Hfm).
    { unfold s0. destruct (nz (n_frames nd)); (split; [by apply quiet_store|done]). }
    assert (sized s0) as Hz0 by (by apply (quiet_sized s)). set (s1 := upd i _ s0).
    assert (forall j, rng j -> node s1 j = if j =? i then set_frames fr arr (n_nframes nd) nd else node s j) as Hnode.
    { intros j Hj. unfold s1. rewrite node_upd by done. unfold nd, node. by rewrite Hn. }
    assert (node s1 i = set_frames fr arr (n_nframes nd) nd) as Hni by (rewrite Hnode by done; by rewrite Z.eqb_refl).
    assert (zlen (take (Z.to_nat (n_nframes nd)) (n_farr nd)) = n_nframes nd) as Hlt2 by (unfold zlen in *; rewrite length_take; lia).
    exists true, s1. split; [done|]. split; [eapply still_trans; [exact Hq|by apply quiet_upd]|].
    split; [intros j Hj Hne; rewrite Hnode by done; by rewrite (proj2 (Z.eqb_neq j i) Hne)|]. split; [done|]. split; [done|]. split; [done|].
    intros _. rewrite Hni. cbn [n_frames n_farr n_nframes set_frames]. split; [done|]. split; [done|]. split.
    + unfold arr. rewrite zlen_app, Hlt2. unfold zlen. rewrite length_replicate. lia.
    + intros a Ha. unfold arr. rewrite zget_app_l by lia. unfold zget. rewrite !list_lookup_total_alt, lookup_take_lt by lia. done.
  - exists true, s. split; [done|]. split; [by apply still_refl|]. do 3 (split; [done|]). split; [done|]. intros _. change (node s i) with nd.
    split; [by destruct nd|]. split; [|by split].
    destruct Hfile as [Hf|Hf]; [rewrite (fl_arr _ Hf) in Hl; change (zlen (@nil Z)) with 0 in Hl; lia|by apply (fr_frames _ _ Hf)].
Qed.

(** Only the frames in use count. *)
Lemma framed_same_frames s nd nd' : framed s nd -> n_frames nd' <> 0 -> n_data nd' = n_data nd -> n_size nd' = n_size nd ->
  n_nframes nd' = n_nframes nd -> n_nframes nd <= zlen (n_farr nd') ->
  (forall a, 0 <= a < n_nframes nd -> zget (n_farr nd') a = zget (n_farr nd) a) ->
  framed s nd' /\ n_size nd' = n_size nd /\ forall k, 0 <= k < n_size nd -> fbyte s nd' k = fbyte s nd k.
Proof.
  intros [F1 F2 F3 F4 F5 F6] E1 E2 E3 E4 E5 E6. split; [|split; [done|]].
  - split; [done|by rewrite E2|rewrite E4; lia|by rewrite E3, E4| |].
    + split; rewrite E4; intros a.
      * intros Ha. rewrite E6 by done. by apply (pg_len _ _ F5).
      * intros b Ha Hb. rewrite !E6 by done. by apply (pg_inj _ _ F5).
    + rewrite E4. intros a Ha. rewrite E6 by done. by apply F6.
  - intros k Hk. unfold fbyte, nz. rewrite (proj2 (Z.eqb_neq _ _) E1), (proj2 (Z.eqb_neq _ _) F1). cbn [negb]. unfold cat.
    rewrite E6; [done|]. apply cat_range. lia.
Qed.

(** Frames just taken are nobody else's. *)
Lemma grown_keeps s0 s i nd0 got : grown s0 s i nd0 got -> 0 <= n_nframes nd0 -> keeps_owned s0 s.
Proof.
  intros Hg Hn f Hf Ho. assert (forall a, n_nframes nd0 <= a < got -> zget (n_farr (node s i)) a <> f * 4096) as Hno.
  { intros a Ha E. destruct (gw_new _ _ _ _ _ Hg a Ha) as (f' & _ & E' & Ho0 & _). assert (f' = f) as -> by lia. lia. }
  rewrite (gw_own _ _ _ _ _ Hg f) by (done || lia). split; [done|]. by apply (gw_page _ _ _ _ _ Hg).
Qed.

(** The whole array after it: different frames, each owned, a page each. *)
Lemma grown_array s s1 s2 i nd nd1 need : file_ok s nd -> keeps_owned s s1 -> grown s1 s2 i nd1 need -> n_nframes nd1 = n_nframes nd ->
  n_nframes nd < need -> 0 <= n_nframes nd -> (forall a, 0 <= a < n_nframes nd -> zget (n_farr nd1) a = zget (n_farr nd) a) ->
  forall fr, pages_ok s2 (set_frames fr (n_farr (node s2 i)) need nd) /\
  forall a, 0 <= a < need -> exists f, 0 < f /\ zget (n_farr (node s2 i)) a = f * 4096 /\ 0 < owners s2 f.
Proof.
  intros Hfile Hk Hg Hnn Hlt Hn0 Hold fr. pose proof (grown_keeps _ _ _ _ _ Hg ltac:(lia)) as Hk2.
  assert (forall a, 0 <= a < n_nframes nd -> exists f, 0 < f /\ zget (n_farr (node s2 i)) a = f * 4096 /\ 0 < owners s1 f /\ 0 < owners s2 f /\
    zget (n_farr (node s2 i)) a = zget (n_farr nd) a /\ zlen (page s2 (f * 4096)) = PAGE64_SIZE /\ framed s nd) as Ho.
  { intros a Ha. destruct Hfile as [Hf|Hf]; [rewrite (fl_none _ Hf) in Ha; lia|]. destruct (fr_own _ _ Hf a Ha) as (f & F1 & F2 & F3).
    destruct (Hk f F1 F3) as [O1 E1]. destruct (Hk2 f F1 O1) as [O2 E2]. exists f. rewrite (gw_old _ _ _ _ _ Hg) by (rewrite Hnn; lia).
    rewrite Hold by done. do 5 (split; [done|]). split; [|done]. rewrite E2, E1, <-F2. by apply (pg_len _ _ (fr_pages _ _ Hf)). }
  assert (forall a, n_nframes nd <= a < need -> exists f, 0 < f /\ zget (n_farr (node s2 i)) a = f * 4096 /\ owners s1 f = 0 /\ owners s2 f = 1 /\
    page s2 (f * 4096) = replicate (Z.to_nat PAGE64_SIZE) 0) as Hn by (intros a Ha; apply (gw_new _ _ _ _ _ Hg); rewrite Hnn; lia).
  split; [split; cbn [n_nframes n_farr set_frames]|].
  - intros a Ha. destruct (Z.ltb_spec a (n_nframes nd)).
    + destruct (Ho a ltac:(lia)) as (f & _ & -> & _ & _ & _ & E & _). done.
    + destruct (Hn a ltac:(lia)) as (f & _ & -> & _ & _ & ->). unfold zlen. by rewrite length_replicate.
  - intros a b Ha Hb E. destruct (Z.ltb_spec a (n_nframes nd)), (Z.ltb_spec b (n_nframes nd)).
    + destruct (Ho a ltac:(lia)) as (_ & _ & _ & _ & _ & Ea & _ & Hf). destruct (Ho b ltac:(lia)) as (_ & _ & _ & _ & _ & Eb & _ & _).
      apply (pg_inj _ _ (fr_pages _ _ Hf)); [lia|lia|]. congruence.
    + destruct (Ho a ltac:(lia)) as (f & _ & Ea & Oa & _). destruct (Hn b ltac:(lia)) as (g & _ & Eb & Ob & _). assert (f = g) as -> by lia. lia.
    + destruct (Hn a ltac:(lia)) as (f & _ & Ea & Oa & _). destruct (Ho b ltac:(lia)) as (g & _ & Eb & Ob & _). assert (f = g) as -> by lia. lia.
    + apply (gw_inj _ _ _ _ _ Hg); [rewrite Hnn; lia|rewrite Hnn; lia|done].
  - intros a Ha. destruct (Z.ltb_spec a (n_nframes nd)).
    + destruct (Ho a ltac:(lia)) as (f & ? & ? & _ & ? & _). by exists f.
    + destruct (Hn a ltac:(lia)) as (f & ? & ? & _ & E & _). exists f. split; [done|]. split; [done|]. lia.
Qed.

(** Moving a file to frames, or giving it more. *)
Lemma make_framed_spec s i n : sized s -> rng i -> file_ok s (node s i) -> fa_ok (frames s) -> 0 <= n < 2 ^ 62 ->
  (flat (node s i) -> n_size (node s i) <= n) ->
  let nd := node s i in
  exists ok s', make_framed i n s = Some (ok, s') /\ quiet s s' /\ only_node i s s' /\ keeps_owned s s' /\ fa_ok (frames s') /\
    (ok = true -> framed s' (node s' i) /\ n <= n_nframes (node s' i) * PAGE64_SIZE /\ n_size (node s' i) = n_size nd /\
       (forall p, held (node s' i) p -> held nd p \/ forall f, p = f * 4096 -> owners s f = 0) /\
       forall k, 0 <= k < n_size nd -> fbyte s' (node s' i) k = fbyte s nd k) /\
    (ok = false -> framed s nd -> framed s' (node s' i) /\ n_size (node s' i) = n_size nd /\ forall k, 0 <= k < n_size nd -> fbyte s' (node s' i) k = fbyte s nd k).
Proof.
  intros Hz Hi Hfile Hfa Hn Hsz. cbv zeta. unfold make_framed. cbv zeta. set (nd := node s i) in *.
  replace (u64 (n + PAGE64_SIZE - 1)) with (n + PAGE64_SIZE - 1) by (symmetry; apply u64_small; unfold PAGE64_SIZE; lia).
  set (need := if nz _ then _ else _).
  assert (0 < need <= 2 ^ 60 /\ n <= need * PAGE64_SIZE) as (Hneed & Hcover).
  { unfold need, nz. destruct (page_split (n + PAGE64_SIZE - 1)) as [E ?]. unfold PAGE64_SIZE in *. destruct (Z.eqb_spec ((n + 4096 - 1) / 4096) 0); cbn [negb]; lia. }
  clearbody need. destruct (nz (n_frames nd) && (need <=? n_nframes nd)) eqn:Eenough.
  { apply andb_true_iff in Eenough as [Efr Enf%Z.leb_le]. assert (framed s nd) as Hfr.
    { destruct Hfile as [Hf|]; [|done]. rewrite (fl_frames _ Hf) in Efr. done. }
    exists true, s. split; [done|]. split; [by apply still_refl|]. split; [done|]. split; [apply keeps_refl|]. split; [done|]. split; [|done].
    intros _. split; [done|]. change (node s i) with nd. split; [unfold PAGE64_SIZE in *; lia|]. split; [done|]. split; [by left|done]. }
  assert (n_nframes nd < need) as Hlt.
  { apply andb_false_iff in Eenough as [E|E%Z.leb_gt]; [|done]. destruct Hfile as [Hf|Hf]; [rewrite (fl_none _ Hf); lia|].
    pose proof (fr_frames _ _ Hf). unfold nz in E. apply negb_false_iff, Z.eqb_eq in E. done. }
  pose proof (grow_array_spec s i need Hz Hi Hfile Hfa Hneed Hlt) as Hga. cbv zeta in Hga. fold nd in Hga.
  destruct Hga as (ok1 & s1 & -> & Hq1 & Ho1 & Hfm1 & Hpg1 & Hno & Hyes).
  cbn [mbind option_bind]. assert (keeps_owned s s1) as Hk1 by (intros f _ Ho; unfold owners; by rewrite Hfm1, Hpg1).
  destruct ok1; cbn [negb].
  2:{ exists false, s1. split; [done|]. split; [done|]. split; [done|]. split; [done|]. split; [by rewrite Hfm1|]. split; [done|].
      intros _ Hfr. rewrite (Hno eq_refl). destruct (framed_keeps s s1 nd Hfr Hk1). done. }
  destruct (Hyes eq_refl) as (Hn1 & Hfr1 & Hlen1 & Hold1). set (nd1 := node s1 i) in *. pose proof (quiet_sized _ _ Hq1) as Hz1.
  assert (0 <= n_nframes nd) as Hnf0 by (destruct Hfile as [Hf|Hf]; [rewrite (fl_none _ Hf); lia|pose proof (fr_arr _ _ Hf); lia]).
  assert (n_nframes nd1 = n_nframes nd) as Hnn1 by (by rewrite Hn1).
  assert (forall f, 0 <= owners s1 f) as Hpos by (intros f; apply owners_pos; by rewrite Hfm1).
  pose proof (take_frames_spec s1 i nd1 (Z.to_nat (need - n_nframes nd)) (n_nframes nd) need s1 Hi) as Htf. rewrite Hnn1 in Htf.
  specialize (Htf ltac:(lia) ltac:(lia) Hlen1 eq_refl Hpos).
  assert (grown s1 s1 i nd1 (n_nframes nd)) as Hg0 by (rewrite <-Hnn1; apply grown_nil; [done|by rewrite Hfm1]).
  destruct (Htf Hg0) as [(s2 & -> & Hg)|(s2 & -> & Hut)]; cbn [negb].
  2:{ exists false, s2. split; [done|]. split; [eapply still_trans; [exact Hq1|apply Hut]|].
      split; [intros j Hj Hne; rewrite (ut_only _ _ _ _ Hut j Hj Hne); by apply Ho1|].
      assert (keeps_owned s s2) as Hk2.
      { eapply keeps_trans; [exact Hk1|]. intros f Hf Ho. rewrite (ut_own _ _ _ _ Hut f) by lia. split; [done|]. by apply (ut_page _ _ _ _ Hut). }
      split; [done|]. split; [apply Hut|]. split; [done|]. intros _ Hfr.
      destruct (framed_keeps s s2 nd Hfr Hk2) as [Hfr2 Hb2].
      assert (framed s2 (node s2 i) /\ n_size (node s2 i) = n_size nd /\ forall k, 0 <= k < n_size nd -> fbyte s2 (node s2 i) k = fbyte s2 nd k) as (G1 & G2 & G3).
      { apply (framed_same_frames s2 nd (node s2 i)); [done|..].
        - rewrite (ut_node _ _ _ _ Hut). exact Hfr1.
        - rewrite (ut_node _ _ _ _ Hut), Hn1. done.
        - rewrite (ut_node _ _ _ _ Hut), Hn1. done.
        - rewrite (ut_node _ _ _ _ Hut). cbn [n_nframes set_frames]. done.
        - rewrite (ut_len _ _ _ _ Hut). pose proof (fr_arr _ _ Hfr). lia.
        - intros a Ha. rewrite (ut_old _ _ _ _ Hut) by lia. by apply Hold1. }
      split; [done|]. split; [done|]. intros k Hk. rewrite G3 by done. by apply Hb2. }
  pose proof (grown_keeps _ _ _ _ _ Hg ltac:(lia)) as Hk2. pose proof (keeps_trans _ _ _ Hk1 Hk2) as Hk12.
  set (s3 := upd i _ s2). pose proof (quiet_sized _ _ (gw_quiet _ _ _ _ _ Hg)) as Hz2.
  assert (quiet s2 s3) as Hq3 by (by apply quiet_upd). pose proof (quiet_sized _ _ Hq3) as Hz3.
  assert (quiet s s3) as Hqs3 by (eapply still_trans; [exact Hq1|]; eapply still_trans; [apply Hg|exact Hq3]).
  assert (node s3 i = set_frames (n_frames nd1) (n_farr (node s2 i)) need nd) as Hn3.
  { unfold s3. rewrite node_upd by done. rewrite Z.eqb_refl, (gw_node _ _ _ _ _ Hg), Hn1. done. }
  assert (only_node i s s3) as Ho3.
  { intros j Hj Hne. unfold s3. rewrite node_upd by done. rewrite (proj2 (Z.eqb_neq j i) Hne), (gw_only _ _ _ _ _ Hg j Hj Hne). by apply Ho1. }
  destruct (grown_array s s1 s2 i nd nd1 need Hfile Hk1 Hg Hnn1 Hlt Hnf0 Hold1 (n_frames nd1)) as [Hpg3 Hown3].
  set (nd3 := node s3 i) in *. assert (pages_ok s3 nd3) as Hpg3' by (rewrite Hn3; split; apply Hpg3).
  assert (forall a, 0 <= a < n_nframes nd -> zget (n_farr (node s2 i)) a = zget (n_farr nd) a) as Hold3.
  { intros a Ha. rewrite (gw_old _ _ _ _ _ Hg) by (rewrite Hnn1; lia). by apply Hold1. }
  assert (zlen (n_farr (node s2 i)) = zlen (n_farr nd1)) as Hlen3 by apply Hg.
  assert (forall p, held (set_frames (n_frames nd1) (n_farr (node s2 i)) need nd) p -> held nd p \/ forall f, p = f * 4096 -> owners s f = 0) as Hheld3.
  { intros p (a & Ha & ->). cbn [n_nframes n_farr set_frames] in *. destruct (Z.ltb_spec a (n_nframes nd)); [left; exists a; split; [lia|by rewrite Hold3 by lia]|right].
    intros f Ef. destruct (gw_new _ _ _ _ _ Hg a) as (f' & _ & Ef' & Ho0 & _); [rewrite Hnn1; lia|]. assert (f' = f) as -> by lia.
    unfold owners in *. by rewrite <-Hfm1. }
  replace (n_data nd3) with (n_data nd) by (by rewrite Hn3). replace (n_size nd3) with (n_size nd) by (by rewrite Hn3).
  replace (n_block nd3) with (n_block nd) by (by rewrite Hn3). unfold nz at 1. destruct (Z.eqb_spec (n_data nd) 0) as [Hd|Hd]; cbn [negb].
  - exists true, s3. split; [done|]. split; [done|]. split; [done|]. split; [done|]. split; [apply Hg|]. split; [|done]. intros _. fold nd3. rewrite Hn3.
    assert (0 <= n_size nd <= need * PAGE64_SIZE) as Hsz3.
    { destruct Hfile as [Hf|Hf]; [rewrite (flat_empty _ Hf Hd); unfold PAGE64_SIZE; lia|]. pose proof (fr_size _ _ Hf). unfold PAGE64_SIZE in *. lia. }
    split; [|split; [done|split; [done|split; [exact Hheld3|]]]].
    + split; cbn [n_frames n_data n_nframes n_farr n_size set_frames]; [done|done|lia|done|split; apply Hpg3|exact Hown3].
    + intros k Hk. destruct Hfile as [Hf|Hf]; [rewrite (flat_empty _ Hf Hd) in Hk; lia|].
      destruct (framed_keeps s s3 nd Hf Hk12) as [Hf3 Hb3]. rewrite <-(Hb3 k Hk). unfold fbyte. cbn [n_frames set_frames]. unfold nz.
      rewrite (proj2 (Z.eqb_neq _ _) Hfr1), (proj2 (Z.eqb_neq _ _) (fr_frames _ _ Hf)). cbn [negb]. unfold cat. cbn [n_farr set_frames].
      rewrite Hold3; [done|]. apply cat_range. pose proof (fr_size _ _ Hf). lia.
  - destruct Hfile as [Hf|Hf]; [|by destruct (Hd (fr_data _ _ Hf))]. pose proof (fl_size _ Hf) as Hfs. pose proof (Hsz Hf) as Hszn. pose proof (fl_none _ Hf) as Hnf.
    assert (n_nframes nd3 = need) as Hnn3 by (by rewrite Hn3).
    destruct (frames_put_spec (copy_fuel nd3) nd3 0 0 (n_size nd) (n_block nd) s3) as (P1 & P2 & P3 & P4); [lia|lia|lia|lia|rewrite Hnn3; lia|done| |].
    { right. unfold copy_fuel. rewrite Hnn3. change ((0 + 0) / PAGE64_SIZE) with 0. unfold PAGE64_SIZE in *. lia. }
    set (s4 := frames_put _ _ _ _ _ _ s3) in *. destruct P1 as (Q1 & Q2 & Q3 & Q4 & Q5 & Q6). set (s5 := kfree (n_data nd) s4).
    assert (quiet s3 s5) as Hq5 by (apply quiet_store; done). pose proof (quiet_sized _ _ Hq5) as Hz5. set (s6 := upd i (set_data 0 []) s5).
    assert (node s6 i = set_data 0 [] nd3) as Hn6 by (unfold s6; rewrite node_upd by done; rewrite Z.eqb_refl; unfold nd3, node; change (nodes s5) with (nodes s4); by rewrite Q1).
    exists true, s6. split; [done|]. split; [eapply still_trans; [exact Hqs3|]; eapply still_trans; [exact Hq5|by apply quiet_upd]|].
    split; [|split; [|split; [|split; [|done]]]].
    + intros j Hj Hne. unfold s6. rewrite node_upd by done. rewrite (proj2 (Z.eqb_neq j i) Hne), <-(Ho3 j Hj Hne). unfold node. change (nodes s5) with (nodes s4). by rewrite Q1.
    + intros f Hf0 Ho. destruct (Hk12 f Hf0 Ho) as [Ho' E]. unfold owners. change (frames s6) with (frames s4). rewrite Q4. split; [exact Ho'|].
      change (page s6) with (page s4). rewrite P3; [exact E|]. intros (a & Ha & Ea). rewrite Hn3 in Ea. cbn [n_farr set_frames] in Ea. rewrite Hnn3 in Ha.
      destruct (gw_new _ _ _ _ _ Hg a) as (f' & _ & Ef & Ho0 & _); [rewrite Hnn1; lia|]. assert (f' = f) as -> by lia.
      pose proof (Hk1 f Hf0 Ho) as [? _]. lia.
    + change (frames s6) with (frames s4). rewrite Q4. apply Hg.
    + intros _. rewrite Hn6. cbn [n_nframes n_size set_data]. rewrite Hnn3. split; [|split; [done|split; [by rewrite Hn3|split; [change (held (set_data 0 [] nd3)) with (held nd3); rewrite Hn3; exact Hheld3|]]]].
      * split; cbn [n_frames n_data n_nframes n_farr n_size set_data]; rewrite ?Hnn3; try done.
        -- by rewrite Hn3.
        -- rewrite Hn3. cbn [n_farr set_frames]. lia.
        -- rewrite Hn3. cbn [n_size set_frames]. lia.
        -- split; [apply P2|apply P2].
        -- rewrite Hn3. cbn [n_farr set_frames]. intros a Ha. destruct (Hown3 a Ha) as (f & ? & ? & Ho). exists f. split; [done|]. split; [done|].
           unfold owners in *. change (frames s6) with (frames s4). by rewrite Q4.
      * intros k Hk. unfold fbyte. cbn [n_frames set_data]. replace (n_frames nd3) with (n_frames nd1) by (by rewrite Hn3). unfold nz.
        rewrite (proj2 (Z.eqb_neq _ _) Hfr1), (fl_frames _ Hf). cbn [negb Z.eqb]. change (cat s6 (set_data 0 [] nd3) k) with (cat s4 nd3 k).
        rewrite P4 by (rewrite Hnn3; lia). rewrite (proj2 (Z.leb_le (0 + 0) k)), (proj2 (Z.ltb_lt k (0 + n_size nd))) by lia. cbn [andb]. f_equal. lia.
Qed.

(** ** Reading and writing *)

(** A file other than [i], none of its frames shared with it. *)
Definition other_file s (i j : Z) : Prop :=
  rng j /\ j <> i /\ file_ok s (node s j) /\ forall p, held (node s i) p -> held (node s j) p -> False.

Definition same_file s s' (j : Z) : Prop :=
  file_ok s' (node s' j) /\ n_size (node s' j) = n_size (node s j) /\
  forall k, 0 <= k < n_size (node s j) -> fbyte s' (node s' j) k = fbyte s (node s j) k.

Lemma file_frames s nd : file_ok s nd -> n_frames nd = 0 /\ flat nd \/ n_frames nd <> 0 /\ framed s nd.
Proof. intros [Hf|Hf]; [left; split; [apply Hf|done]|right; split; [apply Hf|done]]. Qed.

(** Reading gives the bytes of the file, up to its end. *)
Lemma read_bytes s i off buf len : valid i s = true -> n_is_dir (node s i) = false -> file_ok s (node s i) ->
  0 <= off -> 0 <= len <= zlen buf -> off + len < 2 ^ 64 ->
  let size := n_size (node s i) in
  let n := if size <=? off then 0 else Z.min len (size - off) in
  exists buf', ramfs64_read i off buf len s = Some (n, buf') /\ zlen buf' = zlen buf /\
    forall j, 0 <= j < zlen buf -> zget buf' j = if j <? n then fbyte s (node s i) (off + j) else zget buf j.
Proof.
  intros Hv Hd Hf Hoff Hlen Hw. cbv zeta. unfold ramfs64_read. rewrite Hv, Hd. cbn [negb]. set (nd := node s i) in *.
  destruct (Z.leb_spec (n_size nd) off) as [Hs|Hs].
  { exists buf. split; [done|]. split; [done|]. intros j Hj. by rewrite (proj2 (Z.ltb_ge j 0)) by lia. }
  rewrite u64_small by lia. replace (if n_size nd <? off + len then n_size nd - off else len) with (Z.min len (n_size nd - off))
    by (destruct (Z.ltb_spec (n_size nd) (off + len)); lia).
  set (n := Z.min len (n_size nd - off)). destruct (file_frames s nd Hf) as [[E Hfl]|[E Hfr]]; unfold nz.
  - rewrite E. cbn [negb Z.eqb]. pose proof (fl_size _ Hfl). rewrite (proj2 (Z.ltb_ge (zlen (n_block nd)) (off + n))) by lia.
    assert (zlen (zslice off n (n_block nd)) = n) as Hsl by (apply zlen_zslice; lia).
    eexists. split; [reflexivity|]. split; [apply zlen_zsplice; rewrite ?Hsl; lia|]. intros j Hj. rewrite zget_zsplice by (rewrite ?Hsl; lia).
    rewrite Hsl, (proj2 (Z.leb_le 0 j)) by lia. cbn [andb]. destruct (Z.ltb_spec j n); [|by rewrite (proj2 (Z.ltb_ge j (0 + n))) by lia].
    rewrite (proj2 (Z.ltb_lt j (0 + n))) by lia. unfold fbyte. rewrite E. cbn [nz negb Z.eqb]. rewrite zget_zslice by lia. f_equal. lia.
  - rewrite (proj2 (Z.eqb_neq _ _) E). cbn [negb]. pose proof (fr_size _ _ Hfr).
    destruct (frames_get_spec (copy_fuel nd) nd off 0 n buf s) as [G1 G2]; [lia|lia|lia|lia|lia|apply Hfr| |].
    { right. unfold copy_fuel. destruct (page_split (off + 0)) as [Eo ?]. unfold PAGE64_SIZE in *. pose proof (fr_arr _ _ Hfr). lia. }
    eexists. split; [reflexivity|]. split; [done|]. intros j Hj. rewrite G2, (proj2 (Z.leb_le 0 j)) by lia. cbn [andb].
    unfold fbyte, nz. by rewrite (proj2 (Z.eqb_neq _ _) E).
Qed.

(** The end of a write: the size. *)
Lemma set_size_bytes s i v : sized s -> rng i -> file_ok s (node s i) -> 0 <= v ->
  (flat (node s i) -> v <= zlen (n_block (node s i))) -> (framed s (node s i) -> v <= n_nframes (node s i) * PAGE64_SIZE) ->
  let s' := upd i (set_size v) s in
  quiet s s' /\ only_node i s s' /\ file_ok s' (node s' i) /\ n_size (node s' i) = v /\ (forall k, fbyte s' (node s' i) k = fbyte s (node s i) k) /\
  keeps_owned s s' /\ frames s' = frames s /\ page s' = page s.
Proof.
  intros Hz Hi Hf Hv Hfl Hfr. cbv zeta. set (s' := upd i (set_size v) s). assert (node s' i = set_size v (node s i)) as Hn by (unfold s'; rewrite node_upd by done; by rewrite Z.eqb_refl).
  split; [by apply quiet_upd|]. split; [intros j Hj Hne; unfold s'; rewrite node_upd by done; by rewrite (proj2 (Z.eqb_neq j i) Hne)|].
  rewrite Hn. split; [|split; [done|split; [done|split; [done|done]]]]. destruct Hf as [F|F].
  - left. pose proof (Hfl F). destruct F as [F1 F2 F3 F4 F5]. split; try done.
  - right. pose proof (Hfr F). destruct F as [F1 F2 F3 F4 F5 F6]. split; try done. by split; apply F5.
Qed.

(** Bytes put in the block. *)
Lemma put_flat_bytes s i off buf : sized s -> rng i -> flat (node s i) -> 0 <= off -> off + zlen buf <= zlen (n_block (node s i)) ->
  let s' := upd i (fun nd => set_data (n_data nd) (zsplice off buf (n_block nd)) nd) s in
  quiet s s' /\ only_node i s s' /\ flat (node s' i) /\ n_size (node s' i) = n_size (node s i) /\ n_data (node s' i) = n_data (node s i) /\
  zlen (n_block (node s' i)) = zlen (n_block (node s i)) /\
  (forall k, 0 <= k -> fbyte s' (node s' i) k = if (off <=? k) && (k <? off + zlen buf) then zget buf (k - off) else fbyte s (node s i) k).
Proof.
  intros Hz Hi Hf Hoff Hfit. cbv zeta. set (s' := upd i _ s).
  assert (node s' i = set_data (n_data (node s i)) (zsplice off buf (n_block (node s i))) (node s i)) as Hn by (unfold s'; rewrite node_upd by done; by rewrite Z.eqb_refl).
  assert (zlen (zsplice off buf (n_block (node s i))) = zlen (n_block (node s i))) as Hl by (by apply zlen_zsplice).
  split; [by apply quiet_upd|]. split; [intros j Hj Hne; unfold s'; rewrite node_upd by done; by rewrite (proj2 (Z.eqb_neq j i) Hne)|].
  rewrite Hn. cbn [n_size n_data n_block set_data]. split; [destruct Hf; split; try done; cbn [n_block n_size n_data set_data]; by rewrite Hl|]. do 2 (split; [done|]). split; [done|].
  intros k Hk. unfold fbyte. cbn [n_frames n_block set_data]. rewrite (fl_frames _ Hf). cbn [nz negb Z.eqb]. by apply zget_zsplice.
Qed.

(** Bytes put in the frames. *)
Lemma put_frames_bytes s i off buf : sized s -> rng i -> framed s (node s i) -> 0 <= off -> off + zlen buf < 2 ^ 64 -> off + zlen buf <= n_nframes (node s i) * PAGE64_SIZE ->
  let s' := frames_put (copy_fuel (node s i)) (node s i) off 0 (zlen buf) buf s in
  pages_only s s' /\ framed s' (node s' i) /\ node s' i = node s i /\ (forall p, ~ held (node s i) p -> page s' p = page s p) /\
  (forall k, 0 <= k < n_nframes (node s i) * PAGE64_SIZE -> fbyte s' (node s' i) k = if (off <=? k) && (k <? off + zlen buf) then zget buf (k - off) else fbyte s (node s i) k).
Proof.
  intros Hz Hi Hf Hoff Hw Hfit. cbv zeta. set (nd := node s i) in *. pose proof (zlen_nonneg buf).
  destruct (frames_put_spec (copy_fuel nd) nd off 0 (zlen buf) buf s) as (P1 & P2 & P3 & P4); [lia|lia|lia|lia|lia|apply Hf| |].
  { right. unfold copy_fuel. destruct (page_split (off + 0)) as [Eo ?]. unfold PAGE64_SIZE in *. pose proof (fr_arr _ _ Hf). lia. }
  set (s' := frames_put _ _ _ _ _ _ s) in *. destruct P1 as (Q1 & Q2 & Q3 & Q4 & Q5 & Q6).
  assert (node s' i = nd) as Hn by (unfold nd, node; by rewrite Q1). split; [done|]. rewrite Hn. split; [|split; [done|split; [done|]]].
  - destruct Hf as [F1 F2 F3 F4 F5 F6]. split; try done. intros a Ha. destruct (F6 a Ha) as (f & ? & ? & ?). exists f. unfold owners in *. by rewrite Q4.
  - intros k Hk. unfold fbyte, nz. rewrite (proj2 (Z.eqb_neq _ _) (fr_frames _ _ Hf)). cbn [negb]. rewrite P4 by done. by rewrite Z.add_0_r.
Qed.

Lemma pages_only_quiet s s' : sized s -> pages_only s s' -> quiet s s'.
Proof. intros Hz (Q1 & Q2 & _ & _ & Q5 & Q6). by apply quiet_store. Qed.

Lemma same_file_trans s1 s2 s3 j : same_file s1 s2 j -> same_file s2 s3 j -> same_file s1 s3 j.
Proof. intros (_ & Z1 & B1) (F2 & Z2 & B2). split; [done|]. split; [congruence|]. intros k Hk. rewrite B2 by (by rewrite Z1). by apply B1. Qed.

Lemma other_keeps s s' i j : other_file s i j -> only_node i s s' -> keeps_owned s s' -> same_file s s' j.
Proof.
  intros (Hj & Hne & Hf & _) Ho Hk. unfold same_file. rewrite (Ho j Hj Hne). destruct (file_keeps s s' (node s j) Hf Hk) as [? ?]. done.
Qed.

Lemma same_pages s s' nd ndj : file_ok s ndj -> frames s' = frames s ->
  (forall p, ~ held nd p -> page s' p = page s p) -> (forall p, held nd p -> held ndj p -> False) ->
  file_ok s' ndj /\ forall k, 0 <= k < n_size ndj -> fbyte s' ndj k = fbyte s ndj k.
Proof.
  intros Hf Hfm Hp Hdis. destruct Hf as [Hf|Hf]; [split; [by left|]; intros k _; unfold fbyte; by rewrite (fl_frames _ Hf)|].
  assert (forall a, 0 <= a < n_nframes ndj -> page s' (zget (n_farr ndj) a) = page s (zget (n_farr ndj) a)) as E.
  { intros a Ha. apply Hp. intros Hh. apply (Hdis _ Hh). by exists a. }
  split; [right|].
  - destruct Hf as [F1 F2 F3 F4 F5 F6]. split; try done.
    + split; [|apply F5]. intros a Ha. rewrite E by done. by apply (pg_len _ _ F5).
    + intros a Ha. destruct (F6 a Ha) as (f & ? & ? & ?). exists f. unfold owners in *. by rewrite Hfm.
  - intros k Hk. unfold fbyte. destruct (nz _); [|done]. unfold cat. rewrite E; [done|]. apply cat_range. pose proof (fr_size _ _ Hf). lia.
Qed.

Lemma ensure_flat s i want : sized s -> rng i -> flat (node s i) -> want <= 2 ^ 63 ->
  exists ok s', ensure_capacity i want s = Some (ok, s') /\ quiet s s' /\ only_node i s s' /\ keeps_owned s s' /\ frames s' = frames s /\
    flat (node s' i) /\ n_size (node s' i) = n_size (node s i) /\ (forall k, 0 <= k < n_size (node s i) -> fbyte s' (node s' i) k = fbyte s (node s i) k) /\
    (ok = true -> want <= zlen (n_block (node s' i))) /\ (ok = false -> zlen (n_block (node s i)) < want).
Proof.
  intros Hz Hi Hf Hw. destruct (ensure_ok i want s Hz Hi Hw (fl_size _ Hf)) as (ok & s' & Hr & Hq & Ho & Hpg & Hfm & Hno & Hyes).
  exists ok, s'. split; [done|]. split; [done|]. split; [done|]. split; [intros f _ Hown; unfold owners; by rewrite Hfm, Hpg|]. split; [done|]. destruct ok.
  - destruct (Hyes eq_refl) as (H1 & H2 & H3 & H4 & H5 & H6). split; [|split; [by rewrite H3|split; [|done]]].
    + destruct Hf as [F1 F2 F3 F4 F5]. rewrite H3. split; cbn [n_frames n_nframes n_farr n_size n_block n_data set_data]; [done|done|done|lia|].
      intros Hd. destruct (Z.leb_spec want (zlen (n_block (node s i)))) as [Hle|Hgt]; [|by apply H6 in Hgt]. rewrite (H5 Hle) in Hd |- *. by apply F5.
    + intros k Hk. unfold fbyte. rewrite H3 at 1. cbn [n_frames set_data]. rewrite (fl_frames _ Hf). cbn [nz negb Z.eqb].
      unfold zget. rewrite !list_lookup_total_alt. rewrite <-(lookup_take_lt (n_block (node s' i)) (Z.to_nat (n_size (node s i)))) by lia.
      rewrite <-(lookup_take_lt (n_block (node s i)) (Z.to_nat (n_size (node s i)))) by lia. by rewrite H4.
  - rewrite (Hno eq_refl). split; [done|]. split; [done|]. split; [intros k _; unfold fbyte; by rewrite (fl_frames _ Hf)|]. split; [done|]. intros _.
    unfold ensure_capacity in Hr. cbv zeta in Hr. destruct (Z.leb_spec want (zlen (n_block (node s i)))); [done|lia].
Qed.

(** What a write of [buf] at [off] makes of the file. *)
Definition written s s' (i off : Z) (buf : list Z) : Prop :=
  file_ok s' (node s' i) /\ n_size (node s' i) = Z.max (n_size (node s i)) (off + zlen buf) /\
  (forall k, off <= k < off + zlen buf -> fbyte s' (node s' i) k = zget buf (k - off)) /\
  (forall k, 0 <= k < n_size (node s i) -> k < off \/ off + zlen buf <= k -> fbyte s' (node s' i) k = fbyte s (node s i) k).

(** The write through the block. *)
Lemma write_flat s i off buf : sized s -> rng i -> flat (node s i) -> 0 <= off -> off + zlen buf <= zlen (n_block (node s i)) ->
  let s1 := upd i (fun nd => set_data (n_data nd) (zsplice off buf (n_block nd)) nd) s in
  let s' := if n_size (node s1 i) <? off + zlen buf then upd i (set_size (off + zlen buf)) s1 else s1 in
  quiet s s' /\ only_node i s s' /\ frames s' = frames s /\ page s' = page s /\ written s s' i off buf.
Proof.
  intros Hz Hi Hf Hoff Hfit. cbv zeta. pose proof (zlen_nonneg buf) as Hb.
  destruct (put_flat_bytes s i off buf Hz Hi Hf Hoff Hfit) as (Q1 & O1 & F1 & Z1 & D1 & L1 & B1). set (s1 := upd i _ s) in *.
  pose proof (quiet_sized _ _ Q1) as Hz1. destruct (Z.ltb_spec (n_size (node s1 i)) (off + zlen buf)) as [Hlt|Hge].
  - destruct (set_size_bytes s1 i (off + zlen buf)) as (Q2 & O2 & F2 & Z2 & B2 & _ & Hfm & Hpg); [done|done|by left|lia|intros _; lia| |].
    { intros Hfr. by rewrite (fl_frames _ F1) in Hfr || destruct (fr_frames _ _ Hfr (fl_frames _ F1)). }
    split; [by eapply still_trans|]. split; [intros j Hj Hne; rewrite O2 by done; by apply O1|]. split; [done|]. split; [done|].
    split; [done|]. split; [lia|]. split.
    + intros k Hk. rewrite B2, B1, (proj2 (Z.leb_le off k)), (proj2 (Z.ltb_lt k _)) by lia. done.
    + intros k Hk Hout. rewrite B2, B1 by lia. destruct Hout; [by rewrite (proj2 (Z.leb_gt off k)) by lia|]. rewrite (proj2 (Z.ltb_ge k _)) by lia. by rewrite andb_false_r.
  - split; [done|]. split; [done|]. split; [done|]. split; [done|]. split; [by left|]. split; [lia|]. split.
    + intros k Hk. rewrite B1, (proj2 (Z.leb_le off k)), (proj2 (Z.ltb_lt k _)) by lia. done.
    + intros k Hk Hout. rewrite B1 by lia. destruct Hout; [by rewrite (proj2 (Z.leb_gt off k)) by lia|]. rewrite (proj2 (Z.ltb_ge k _)) by lia. by rewrite andb_false_r.
Qed.

(** ... and through the frames. *)
Lemma write_framed s i off buf : sized s -> rng i -> framed s (node s i) -> 0 <= off -> off + zlen buf < 2 ^ 64 -> off + zlen buf <= n_nframes (node s i) * PAGE64_SIZE ->
  let s1 := frames_put (copy_fuel (node s i)) (node s i) off 0 (zlen buf) buf s in
  let s' := if n_size (node s1 i) <? off + zlen buf then upd i (set_size (off + zlen buf)) s1 else s1 in
  quiet s s' /\ only_node i s s' /\ frames s' = frames s /\ (forall p, ~ held (node s i) p -> page s' p = page s p) /\ written s s' i off buf.
Proof.
  intros Hz Hi Hf Hoff Hw Hfit. cbv zeta. pose proof (zlen_nonneg buf) as Hb.
  destruct (put_frames_bytes s i off buf Hz Hi Hf Hoff Hw Hfit) as (P1 & F1 & N1 & G1 & B1). set (s1 := frames_put _ _ _ _ _ _ s) in *.
  pose proof (pages_only_quiet s s1 Hz P1) as Q1. pose proof (quiet_sized _ _ Q1) as Hz1. destruct P1 as (E1 & _ & _ & E4 & _ & _).
  assert (only_node i s s1) as O1 by (intros j Hj _; unfold node; by rewrite E1). pose proof (fr_size _ _ Hf) as Hsz.
  destruct (Z.ltb_spec (n_size (node s1 i)) (off + zlen buf)) as [Hlt|Hge]; rewrite N1 in *.
  - destruct (set_size_bytes s1 i (off + zlen buf)) as (Q2 & O2 & F2 & Z2 & B2 & _ & Hfm & Hpg); [done|done|rewrite N1; by right|lia| |intros _; by rewrite N1|].
    { intros Hfl. rewrite N1 in Hfl. destruct (fr_frames _ _ Hf (fl_frames _ Hfl)). }
    split; [by eapply still_trans|]. split; [intros j Hj Hne; rewrite O2 by done; by apply O1|]. split; [congruence|]. split; [intros p Hp; rewrite Hpg; by apply G1|].
    split; [done|]. split; [lia|]. split.
    + intros k Hk. rewrite B2, N1, B1, (proj2 (Z.leb_le off k)), (proj2 (Z.ltb_lt k _)) by lia. done.
    + intros k Hk Hout. rewrite B2, N1, B1 by lia. destruct Hout; [by rewrite (proj2 (Z.leb_gt off k)) by lia|]. rewrite (proj2 (Z.ltb_ge k _)) by lia. by rewrite andb_false_r.
  - split; [done|]. split; [done|]. split; [done|]. split; [done|]. unfold written. rewrite N1. split; [by right|]. split; [lia|]. split.
    + intros k Hk. rewrite B1, (proj2 (Z.leb_le off k)), (proj2 (Z.ltb_lt k _)) by lia. done.
    + intros k Hk Hout. rewrite B1 by lia. destruct Hout; [by rewrite (proj2 (Z.leb_gt off k)) by lia|]. rewrite (proj2 (Z.ltb_ge k _)) by lia. by rewrite andb_false_r.
Qed.

(** A write gives the file its bytes and leaves every other file alone, or
    fails for want of memory. *)
Lemma write_bytes s i off buf : sized s -> valid i s = true -> n_is_dir (node s i) = false -> file_ok s (node s i) -> fa_ok (frames s) ->
  0 <= off -> off + zlen buf < 2 ^ 62 -> (flat (node s i) -> n_size (node s i) <= RAMFS64_CONTIGUOUS_MAX) ->
  exists r s', ramfs64_write i off buf s = Some (r, s') /\ quiet s s' /\ only_node i s s' /\ fa_ok (frames s') /\
    (forall j, other_file s i j -> same_file s s' j) /\
    (r = zlen buf /\ written s s' i off buf \/ r = -12 /\ (framed s (node s i) -> same_file s s' i)).
Proof.
  intros Hz Hv Hd Hfile Hfa Hoff Hw Hmax. destruct (valid_rng _ _ Hv) as [Hi _]. pose proof (zlen_nonneg buf) as Hb.
  unfold ramfs64_write. cbv zeta. rewrite Hv, Hd. cbn [negb]. rewrite u64_small by lia. set (fin := off + zlen buf) in *.
  assert (forall s1, quiet s s1 -> only_node i s s1 -> keeps_owned s s1 -> fa_ok (frames s1) -> file_ok s1 (node s1 i) -> n_size (node s1 i) = n_size (node s i) ->
    (forall k, 0 <= k < n_size (node s i) -> fbyte s1 (node s1 i) k = fbyte s (node s i) k) ->
    (flat (node s1 i) -> flat (node s i)) -> (flat (node s1 i) -> n_size (node s1 i) <= fin) ->
    (forall p, held (node s1 i) p -> held (node s i) p \/ forall f, p = f * 4096 -> owners s f = 0) ->
    exists r s', (r ← (r ← make_framed i fin s1; let '(ok, s) := (r : bool * fs H A) in if negb ok then Some (false, s) else
         Some (true, frames_put (copy_fuel (node s i)) (node s i) off 0 (zlen buf) buf s));
       let '(ok, s) := (r : bool * fs H A) in if negb ok then Some (-12, s) else
       Some (zlen buf, if n_size (node s i) <? fin then upd i (set_size fin) s else s)) = Some (r, s') /\
      quiet s s' /\ only_node i s s' /\ fa_ok (frames s') /\ (forall j, other_file s i j -> same_file s s' j) /\
      (r = zlen buf /\ written s s' i off buf \/ r = -12 /\ (framed s (node s i) -> same_file s s' i))) as Hbig.
  { intros s1 Q1 O1 K1 A1 F1 Z1 B1 Hfl1 Hsz1 Hh1. pose proof (quiet_sized _ _ Q1) as Hz1.
    destruct (make_framed_spec s1 i fin Hz1 Hi F1 A1 ltac:(lia) Hsz1) as (ok & s2 & -> & Q2 & O2 & K2 & A2 & Hyes & Hno). cbn [mbind option_bind].
    pose proof (keeps_trans _ _ _ K1 K2) as K12. pose proof (still_trans _ _ _ Q1 Q2) as Q12. pose proof (quiet_sized _ _ Q2) as Hz2.
    assert (only_node i s s2) as O12 by (intros j Hj Hne; rewrite O2 by done; by apply O1). destruct ok; cbn [negb mbind option_bind].
    - destruct (Hyes eq_refl) as (Fr2 & Hcov & Z2 & Hh2 & B2).
      destruct (write_framed s2 i off buf Hz2 Hi Fr2 Hoff ltac:(lia) Hcov) as (Q3 & O3 & Fm3 & Pg3 & W1 & W2 & W3 & W4). fold fin in Q3, O3, Fm3, Pg3, W1, W2, W3, W4.
      set (s3 := if _ <? fin then _ else _) in *. exists (zlen buf), s3. split; [done|]. split; [by eapply still_trans|].
      split; [intros j Hj Hne; rewrite O3 by done; by apply O12|]. split; [by rewrite Fm3|]. split.
      + intros j Hj. eapply same_file_trans; [by apply (other_keeps s s2 i j)|]. destruct Hj as (Hjr & Hji & Hjf & Hdis).
        assert (node s2 j = node s j) as Ej by (by apply O12). assert (node s3 j = node s2 j) as Ej3 by (by apply O3).
        destruct (file_keeps s s2 (node s j) Hjf K12) as [Hjf2 _].
        destruct (same_pages s2 s3 (node s2 i) (node s j) Hjf2 Fm3 Pg3) as [G1 G2].
        { intros p Hp Hpj. destruct (Hh2 p Hp) as [Hp1|Hfree].
          - destruct (Hh1 p Hp1) as [Hp0|Hfree]; [by apply (Hdis p)|]. destruct Hpj as (a & Ha & ->).
            destruct Hjf as [Hjf|Hjf]; [rewrite (fl_none _ Hjf) in Ha; lia|]. destruct (fr_own _ _ Hjf a Ha) as (f & ? & E & ?). pose proof (Hfree f E). lia.
          - destruct Hpj as (a & Ha & ->). destruct Hjf as [Hjf|Hjf]; [rewrite (fl_none _ Hjf) in Ha; lia|].
            destruct (fr_own _ _ Hjf a Ha) as (f & Hf0 & E & Ho). pose proof (Hfree f E). destruct (K1 f Hf0 Ho). lia. }
        unfold same_file. rewrite Ej3, Ej. done.
      + left. split; [done|]. split; [done|]. split; [rewrite W2, Z2, Z1; done|]. split; [done|]. intros k Hk Hout. rewrite W4 by (rewrite ?Z2, ?Z1; done).
        rewrite B2 by (by rewrite Z1). by apply B1.
    - exists (-12), s2. split; [done|]. split; [done|]. split; [done|]. split; [done|]. split; [intros j Hj; by apply (other_keeps s s2 i j)|].
      right. split; [done|]. intros Hfr. assert (framed s1 (node s1 i)) as Fr1.
      { destruct F1 as [F1|]; [|done]. destruct (fr_frames _ _ Hfr (fl_frames _ (Hfl1 F1))). }
      destruct (Hno eq_refl Fr1) as (G1 & G2 & G3). split; [by right|]. split; [congruence|]. intros k Hk. rewrite G3 by (by rewrite Z1). by apply B1. }
  destruct (file_frames s (node s i) Hfile) as [[E Hfl]|[E Hfr]]; unfold nz at 1.
  - rewrite E. cbn [negb Z.eqb andb]. destruct (Z.leb_spec fin RAMFS64_CONTIGUOUS_MAX) as [Hc|Hc].
    + destruct (ensure_flat s i fin Hz Hi Hfl ltac:(lia)) as (ok & s1 & -> & Q1 & O1 & K1 & Fm1 & F1 & Z1 & B1 & Hyes & Hno). cbn [mbind option_bind].
      pose proof (quiet_sized _ _ Q1) as Hz1. destruct ok.
      * rewrite (proj2 (Z.ltb_ge _ _)) by (by apply Hyes). cbn [mbind option_bind negb].
        destruct (write_flat s1 i off buf Hz1 Hi F1 Hoff ltac:(by apply Hyes)) as (Q2 & O2 & Fm2 & Pg2 & W1 & W2 & W3 & W4). fold fin in Q2, O2, Fm2, Pg2, W1, W2, W3, W4.
        set (s2 := if _ <? fin then _ else _) in *. exists (zlen buf), s2. split; [done|]. split; [by eapply still_trans|].
        split; [intros j Hj Hne; rewrite O2 by done; by apply O1|]. split; [by rewrite Fm2, Fm1|].
        assert (keeps_owned s s2) as K2 by (eapply keeps_trans; [exact K1|]; intros f _ Ho; unfold owners; by rewrite Fm2, Pg2).
        split; [intros j Hj; apply (other_keeps s s2 i j Hj); [|done]; intros j' Hj' Hne; rewrite O2 by done; by apply O1|].
        left. split; [done|]. split; [done|]. split; [by rewrite W2, Z1|]. split; [done|]. intros k Hk Hout. rewrite W4 by (rewrite ?Z1; done). by apply B1.
      * apply Hbig; try done; [by rewrite Fm1|by left|intros _; rewrite Z1; pose proof (fl_size _ Hfl); pose proof (Hno eq_refl); lia|].
        intros p (a & Ha & _). rewrite (fl_none _ F1) in Ha. lia.
    + apply (Hbig s); try done; [intros _; pose proof (Hmax Hfl); lia|by left].
  - rewrite (proj2 (Z.eqb_neq _ _) E). cbn [negb andb]. apply (Hbig s); try done; [|by left].
    intros Hfl. destruct (fr_frames _ _ Hfr (fl_frames _ Hfl)).
Qed.

(** ** What a caller sees *)

Lemma quiet_valid s s' j : quiet s s' -> valid j s' = valid j s.
Proof.
  intros [Hst _]. unfold valid. rewrite (st_table _ _ Hst). destruct (in_range j) eqn:E; [|by rewrite !andb_false_r].
  apply in_range_true in E. destruct (same_tree_fields _ _ j Hst E) as (_ & _ & Hu & _). unfold used in Hu. by rewrite Hu.
Qed.

Lemma quiet_is_dir s s' j : quiet s s' -> rng j -> n_is_dir (node s' j) = n_is_dir (node s j).
Proof. intros [Hst _] Hj. by apply (same_tree_fields s s' j). Qed.

(** Files of the same bytes read the same. *)
Lemma read_same s s' i off buf len : quiet s s' -> file_ok s (node s i) -> file_ok s' (node s' i) -> 0 <= off -> 0 <= len <= zlen buf -> off + len < 2 ^ 64 ->
  off + len <= n_size (node s i) /\ off + len <= n_size (node s' i) \/ n_size (node s' i) = n_size (node s i) ->
  (forall k, off <= k < off + len -> k < n_size (node s i) -> fbyte s' (node s' i) k = fbyte s (node s i) k) ->
  ramfs64_read i off buf len s' = ramfs64_read i off buf len s.
Proof.
  intros Hq Hf Hf' Hoff Hlen Hw Hsz Hb. destruct (valid i s) eqn:Hv.
  2:{ unfold ramfs64_read. by rewrite (quiet_valid s s' i Hq), Hv. }
  destruct (valid_rng _ _ Hv) as [Hi _]. destruct (n_is_dir (node s i)) eqn:Hd.
  { unfold ramfs64_read. by rewrite (quiet_valid s s' i Hq), Hv, (quiet_is_dir s s' i Hq Hi), Hd. }
  assert (valid i s' = true) as Hv' by (by rewrite (quiet_valid s s' i Hq)).
  assert (n_is_dir (node s' i) = false) as Hd' by (by rewrite (quiet_is_dir s s' i Hq Hi)).
  destruct (read_bytes s i off buf len Hv Hd Hf Hoff Hlen Hw) as (b & -> & L1 & B1).
  destruct (read_bytes s' i off buf len Hv' Hd' Hf' Hoff Hlen Hw) as (b' & -> & L2 & B2).
  set (n := if n_size (node s i) <=? off then 0 else _) in *. set (n' := if n_size (node s' i) <=? off then 0 else _) in *.
  assert (n' = n /\ n <= len /\ (0 < n -> off + n <= n_size (node s i))) as (-> & Hn & Hn2).
  { unfold n, n'. destruct (Z.leb_spec (n_size (node s i)) off), (Z.leb_spec (n_size (node s' i)) off); lia. }
  do 2 f_equal. apply zlist_eq; [lia|]. intros j Hj. rewrite B2, B1 by lia. destruct (Z.ltb_spec j n); [|done]. apply Hb; lia.
Qed.

Lemma upd_ext i f g s : f (node s i) = g (node s i) -> upd i f s = upd i g s.
Proof. intros E. unfold upd. by rewrite E. Qed.

End data.
