(* ===== verification/Raminit.v ===== *)
(** * Starting the RAM file system ([ramfs64_init])

    The tree of the first boot, built by the operations of [Ramnames]: the
    table cleared and threaded into one free list, the root taken from it,
    and the directories, devices and files made below it. *)

From S2P Require Import Prelude FrameAlloc Ramfs64 Ramtree Ramnames Ramdata.
From S2P Require Pipe64.
From Stdlib Require Import String.

Section init.
  Context {H A : Type} `{!Pipe64.KernelHeap H, !FrameAllocator A}.
  Implicit Types s : fs H A.

Abbreviation tree_ok := (tree_but (-1)).

(** ** The empty table *)

Lemma seg_seqZ nx_ n i m : m = i + Z.of_nat n -> 0 <= i -> (forall j, i <= j < m -> nx_ j = if j + 1 <? m then j + 1 else -1) ->
  seg nx_ (if i <? m then i else -1) (seqZ i (m - i)).
Proof.
  revert i. induction n as [|n IH]; intros i Hm Hi Hnx.
  - replace (m - i) with 0 by lia. rewrite (proj2 (Z.ltb_ge i m)) by lia. done.
  - rewrite (proj2 (Z.ltb_lt i m)), seqZ_cons by lia. split; [done|]. split; [done|]. rewrite Hnx by lia.
    replace (Z.succ i) with (i + 1) by lia. replace (Z.pred (m - i)) with (m - (i + 1)) by lia.
    apply IH; [lia|lia|]. intros j Hj. apply Hnx. lia.
Qed.

(** Every node out of use, and in the free list. *)
Record blank s : Prop := {
  bl_table : nz (table s) = true;
  bl_sized : sized s;
  bl_free : free_head s = 0;
  bl_count : node_count s = 0;
  bl_used i : rng i -> used s i = false;
  bl_next i : rng i -> nx s i = if i + 1 <? RAMFS64_MAX_NODES then i + 1 else -1
}.

(** The root alone. *)
Lemma root_ok s : blank s -> exists s', alloc_node (bytes "/") (-1) true s = (ROOT, s') /\
  tree_ok s' (fun _ => []) (seqZ 1 (RAMFS64_MAX_NODES - 1)) /\ table s' = table s /\ same_store s s' /\
  node_count s' = 1 /\ forall j, rng j -> used s' j = true -> j = ROOT.
Proof.
  intros [Ht Hz Hf Hc Hu Hn]. unfold alloc_node. rewrite Ht, Hf. cbn [negb orb Z.ltb Z.compare]. change (in_range (-1)) with false. cbv iota zeta.
  set (nd := mkNode _ _ _ _ _ _ _ _ _ _ _ _ _ _ _ _ _). set (s1 := set_free_head _ s). set (s2 := upd 0 (fun _ => nd) s1).
  eexists. split; [reflexivity|]. set (s' := set_node_count _ s2). pose proof root_rng as Hr. unfold ROOT in Hr.
  assert (forall j, rng j -> node s' j = if j =? 0 then nd else node s j) as Hnode by (intros; by apply (node_upd 0 (fun _ => nd) s1)).
  assert (node s' 0 = nd) as Hn0 by (by rewrite Hnode).
  assert (forall j, rng j -> used s' j = (j =? 0)) as Hus.
  { intros j Hj. unfold used. rewrite Hnode by done. destruct (Z.eqb_spec j 0); [done|]. by apply Hu. }
  assert (free_head s' = 1) as Hfh.
  { change (free_head s') with (nx s 0). rewrite Hn by done. reflexivity. }
  assert (sized s') as Hz' by (by apply (upd_sized 0 (fun _ => nd) s1)).
  assert (forall j, rng j -> used s' j = true -> j = ROOT) as Honly by (intros j Hj; rewrite Hus by done; by intros ?%Z.eqb_eq).
  assert (par s' ROOT = -1) as Hp0 by (unfold par, ROOT; by rewrite Hn0).
  split; [|split; [done|split; [done|split; [|done]]]]; [|change (node_count s + 1 = 1); lia]. split.
  - exact Ht.
  - done.
  - split.
    + rewrite Hfh. eapply seg_ext; [|apply (seg_seqZ (nx s) (Z.to_nat (RAMFS64_MAX_NODES - 1)) 1 RAMFS64_MAX_NODES); [done|done|]].
      * intros y [Hy1 Hy2]%elem_of_seqZ. assert (rng y) by (unfold rng; lia). unfold nx. rewrite Hnode by done. by rewrite (proj2 (Z.eqb_neq y 0)) by lia.
      * intros j Hj. apply Hn. unfold rng. lia.
    + apply NoDup_seqZ.
    + intros d Hd Hdu. rewrite (Honly d Hd Hdu). unfold fc, ROOT. rewrite Hn0. done.
    + intros. constructor.
  - intros i. rewrite elem_of_seqZ. split.
    + intros Hi. assert (rng i) by (unfold rng; lia). split; [done|]. rewrite Hus by done. apply Z.eqb_neq. lia.
    + intros [Hi Hiu]. rewrite Hus in Hiu by done. apply Z.eqb_neq in Hiu. unfold rng in Hi. lia.
  - intros d c Hd Hdu. rewrite (Honly d Hd Hdu). split; [by intros ?%elem_of_nil|]. intros (Hc' & Hcu & Hcp). rewrite (Honly c Hc' Hcu), Hp0 in Hcp. done.
  - intros d c c' _ _ Hin. by apply elem_of_nil in Hin.
  - done.
  - intros c Hc' Hcu. rewrite (Honly c Hc' Hcu). by left.
  - intros c Hc' Hcu _. left. by apply Honly.
  - intros c Hc' Hcu Hp. by rewrite (Honly c Hc' Hcu) in Hp.
  - unfold used, ROOT in *. rewrite Hn0. done.
  - intros c Hc' Hcu. rewrite (Honly c Hc' Hcu). exists O. exact Hp0.
  - change (node_count s + 1 + zlen (seqZ 1 (RAMFS64_MAX_NODES - 1)) = RAMFS64_MAX_NODES). rewrite Hc. unfold zlen. rewrite length_seqZ. done.
Qed.

(** ** Clearing *)

Lemma clear_blank s : nz (table s) = true -> sized s -> blank (set_node_count 0 (set_free_head 0 (for_up NNODES 0 clear_node s))).
Proof.
  intros Ht Hz.
  set (P := fun (k : Z) (t : fs H A) => table t = table s /\ sized t /\ forall i, rng i -> i < k ->
    used t i = false /\ nx t i = if i + 1 <? RAMFS64_MAX_NODES then i + 1 else -1).
  assert (P (0 + Z.of_nat NNODES) (for_up NNODES 0 clear_node s)) as (H1 & H2 & H3).
  { apply for_up_ind; [split; [done|]; split; [done|]; intros i Hi; unfold rng in Hi; lia|].
    intros k t Hk (T1 & T2 & T3). assert (rng k) as Hkr by (unfold rng, NNODES in *; lia). unfold clear_node.
    split; [done|]. split; [by apply upd_sized|]. intros i Hi Hlt. unfold used, nx. rewrite node_upd by done.
    destruct (Z.eqb_spec i k) as [->|Hne]; [done|]. apply T3; [done|lia]. }
  revert H1 H2 H3. generalize (for_up NNODES 0 clear_node s) as t. unfold P. clear P. intros t T1 T2 T3.
  assert (forall i, rng i -> i < 0 + Z.of_nat NNODES) as Hlt by (intros i Hi; unfold rng, NNODES in *; lia).
  split; [by rewrite <-Ht, <-T1|exact T2|reflexivity|reflexivity|..]; intros i Hi; by apply (T3 i Hi (Hlt i Hi)).
Qed.

Lemma give_back_same s i : nodes (give_back i s) = nodes s /\ table (give_back i s) = table s.
Proof.
  unfold give_back. destruct (negb _); [done|]. set (s1 := if nz (n_data _) then _ else _).
  assert (nodes s1 = nodes s /\ table s1 = table s) as [E1 E2] by (unfold s1; by destruct (nz (n_data _))).
  destruct (nz (n_frames _)); [|done]. destruct (free_frames_same (take (Z.to_nat (n_nframes (node s i))) (n_farr (node s i))) s1) as (F1 & F2 & _).
  split; [exact (eq_trans F1 E1)|exact (eq_trans F2 E2)].
Qed.

Lemma give_all_same s : nodes (for_up NNODES 0 give_back s) = nodes s /\ table (for_up NNODES 0 give_back s) = table s.
Proof.
  apply (for_up_ind (fun (_ : Z) (t : fs H A) => nodes t = nodes s /\ table t = table s)); [done|]. intros k t _ [T1 T2].
  destruct (give_back_same t k) as [-> ->]. done.
Qed.

(** ** The first entries *)

(** The entries are exactly [E]: directory, name, node, and whether it is a
    directory itself. *)
Record stage s (E : list (Z * list Z * Z * bool)) : Prop := {
  sg_ok : fs_ok s;
  sg_fa : fa_ok (frames s);
  sg_count : node_count s = 1 + zlen E;
  sg_entry d nm c : entry s d nm c <-> exists b, (d, nm, c, b) ∈ E;
  sg_node d nm c b : (d, nm, c, b) ∈ E -> n_is_dir (node s c) = b /\ (b = true -> n_is_link (node s c) = false)
}.

Definition simple (nm : list Z) : bool :=
  bool_decide (nm <> []) && (zlen nm <? RAMFS64_NAME_MAX) && bool_decide (slash ∉ nm) && bool_decide (nm <> [dot]) && bool_decide (nm <> [dot; dot]).

Lemma simple_spec nm : simple nm = true -> good_name nm /\ (slash ∉ nm) /\ nm <> [dot] /\ nm <> [dot; dot].
Proof. unfold simple, good_name. rewrite !andb_true_iff, !bool_decide_eq_true, Z.ltb_lt. tauto. Qed.

Lemma component_one nm : slash ∉ nm -> component nm = (nm, []).
Proof.
  induction nm as [|c nm IH]; [done|]. rewrite not_elem_of_cons. intros [Hc Hn]. simpl. rewrite (proj2 (Z.eqb_neq c slash)) by congruence. by rewrite IH.
Qed.

Lemma component_two nm p : slash ∉ nm -> component (nm ++ slash :: p) = (nm, slash :: p).
Proof.
  induction nm as [|c nm IH]; [done|]. rewrite not_elem_of_cons. intros [Hc Hn]. simpl. rewrite (proj2 (Z.eqb_neq c slash)) by congruence. by rewrite IH.
Qed.

Lemma drop_slashes_name nm p : nm <> [] -> slash ∉ nm -> drop_slashes (slash :: nm ++ p) = nm ++ p.
Proof.
  destruct nm as [|c nm]; [done|]. intros _. rewrite not_elem_of_cons. intros [Hc _]. cbn [drop_slashes app]. rewrite Z.eqb_refl.
  by rewrite (proj2 (Z.eqb_neq c slash)) by congruence.
Qed.

Lemma walk_fuel_S p : exists f, walk_fuel p = S (S f).
Proof.
  unfold walk_fuel, RAMFS64_LINK_MAX, RAMFS64_PATH_MAX. pose proof (zlen_nonneg p). exists (Z.to_nat (zlen p + (40 + 1) * 1024 + 1 - 2)). lia.
Qed.

(** A name at the top. *)
Lemma walk_top s nm : nz (table s) = true -> simple nm = true -> walk (slash :: nm) true true s = Some (ROOT, nm).
Proof.
  intros Ht ([Hne Hlen] & Hs & _ & _)%simple_spec. unfold walk. rewrite Ht. cbn [negb]. rewrite Z.eqb_refl.
  destruct (walk_fuel_S (slash :: nm)) as [f ->]. cbn [walk_loop]. pose proof (drop_slashes_name nm [] Hne Hs) as E. rewrite app_nil_r in E. rewrite E.
  destruct nm as [|c nm]; [done|]. rewrite component_one by done. cbv zeta. change (drop_slashes []) with (@nil Z). rewrite bool_decide_eq_true_2 by done.
  cbn [andb]. rewrite (proj2 (Z.eqb_neq (zlen (c :: nm)) 0)) by (rewrite zlen_cons; pose proof (zlen_nonneg nm); lia). by rewrite (proj2 (Z.leb_gt _ _) Hlen).
Qed.

(** A name in a directory at the top. *)
Lemma walk_in s d nm x : nz (table s) = true -> simple d = true -> simple nm = true -> find_child ROOT d s = Some x -> 0 <= x ->
  n_is_link (node s x) = false -> walk (slash :: d ++ slash :: nm) true true s = Some (x, nm).
Proof.
  intros Ht ([Hd0 _] & Hds & Hdd & Hdd2)%simple_spec ([Hne Hlen] & Hs & _ & _)%simple_spec Hf Hx Hlk. unfold walk. rewrite Ht. cbn [negb]. rewrite Z.eqb_refl.
  destruct (walk_fuel_S (slash :: d ++ slash :: nm)) as [f ->]. cbn [walk_loop]. rewrite drop_slashes_name by done.
  destruct (d ++ slash :: nm) as [|c0 q0] eqn:E0; [by destruct d|]. rewrite <-E0, component_two by done. cbv zeta.
  pose proof (drop_slashes_name nm [] Hne Hs) as E. rewrite app_nil_r in E. rewrite E. rewrite (bool_decide_eq_false_2 (nm = [])) by done. cbn [andb].
  rewrite (bool_decide_eq_false_2 _ Hdd), (bool_decide_eq_false_2 _ Hdd2), Hf. cbn [mbind option_bind]. rewrite (proj2 (Z.ltb_ge x 0) Hx), Hlk. cbn [andb].
  destruct nm as [|c nm]; [done|]. rewrite component_one by done. change (drop_slashes []) with (@nil Z). rewrite bool_decide_eq_true_2 by done. cbn [andb].
  rewrite (proj2 (Z.eqb_neq (zlen (c :: nm)) 0)) by (rewrite zlen_cons; pose proof (zlen_nonneg nm); lia). by rewrite (proj2 (Z.leb_gt _ _) Hlen).
Qed.

Lemma stage_table s E : stage s E -> nz (table s) = true.
Proof. intros [(K & Fl & Ht) _ _ _ _]. apply Ht. Qed.

Lemma new_flat nm p : flat (new_node nm p false).
Proof. by split. Qed.

Lemma flat_body a b : body a = body b -> flat b -> flat a.
Proof. intros Hb Hf. apply body_contents in Hb. unfold contents in Hb. injection Hb as E1 E2 E3 E4 E5 E6. destruct Hf. split; by rewrite ?E1, ?E2, ?E3, ?E4, ?E5, ?E6. Qed.

Lemma stage_create s E path dir p nm : stage s E -> walk path true true s = Some (p, nm) -> rng p -> n_is_dir (node s p) = true ->
  simple nm = true -> (forall c b, (p, nm, c, b) ∉ E) -> 1 + zlen E < RAMFS64_MAX_NODES ->
  exists n s', ramfs64_create path dir s = Some (n, s') /\ ramfs64_lookup path s = Some (-1) /\ 0 <= n /\ stage s' ((p, nm, n, dir) :: E) /\
    valid n s' = true /\ n_is_dir (node s' n) = dir /\ (dir = false -> flat (node s' n)) /\ n_size (node s' n) = 0.
Proof.
  intros Hst Hw Hpr Hpd Hsm Hno Hc. pose proof (simple_spec _ Hsm) as (Hg & _ & Hd1 & Hd2). pose proof (sg_ok _ _ Hst) as (K & Fl & Ht).
  assert (0 <= p) as Hp by apply Hpr. destruct (walk_named s K Fl path true true p nm Ht Hw Hp) as [(_ & Hpu & _) _].
  assert (find_child p nm s = Some (-1)) as Hf.
  { destruct (find_child_cases s K Fl p nm Ht Hpr Hpu) as [|(c & Hf & Hc0 & _)]; [done|]. apply (find_child_entry s K Fl) in Hf; [|done..].
    apply (sg_entry _ _ Hst) in Hf as [b Hb]. by destruct (Hno c b). }
  destruct (created_ok s K Fl path p nm dir Ht Hw Hp Hpd Hf) as (n & s' & Hr & Hok' & Hgr & Hstore & Hm & Hb & Hcnt & _ & Hn & _ & _).
  { rewrite (sg_count _ _ Hst). done. }
  exists n, s'. split.
  { unfold ramfs64_create. rewrite Hw. cbn [mbind option_bind]. rewrite (proj2 (Z.ltb_ge p 0) Hp), Hf. cbn [mbind option_bind]. change (0 <=? -1) with false. cbv iota. by rewrite Hr. }
  split.
  { unfold ramfs64_lookup. rewrite (walk_last s path true true p nm (-1) Hw Hp Hd1 Hd2 Hf); [done|]. lia. }
  pose proof (md_rng _ _ _ _ _ Hm) as Hnr. split; [done|]. split; [|split; [|split; [by rewrite (body_is_dir _ _ Hb)|split; [|exact (f_equal n_size Hb)]]]].
  - split; [done| | | |].
    + destruct Hstore as (_ & -> & _). apply (sg_fa _ _ Hst).
    + rewrite Hcnt, (sg_count _ _ Hst), zlen_cons. lia.
    + intros d' nm' c. rewrite (made_entry s s' p nm n Hm Hpr), (sg_entry _ _ Hst). split.
      * intros [(-> & -> & ->)|[b Hin]]; [exists dir|exists b]; apply elem_of_cons; [by left|by right].
      * intros [b [[= -> -> -> _]|Hin]%elem_of_cons]; [by left|right; by exists b].
    + intros d' nm' c b [[= -> -> -> ->]|Hin]%elem_of_cons.
      * split; [by rewrite (body_is_dir _ _ Hb)|]. intros _. by apply body_eq in Hb as (_ & _ & _ & -> & _).
      * assert (entry s d' nm' c) as (_ & Hcr & Hcu & _) by (apply (sg_entry _ _ Hst); by exists b).
        assert (c <> n) as Hcn by (intros ->; pose proof (md_free _ _ _ _ _ Hm); congruence). pose proof (md_rest _ _ _ _ _ Hm c Hcr Hcn) as Ec.
        destruct (sg_node _ _ Hst d' nm' c b Hin) as [E1 E2]. apply body_eq in Ec as (_ & _ & -> & -> & _). done.
  - destruct Hok' as (K' & Fl' & Ht'). unfold valid. rewrite (tr_table _ _ _ Ht'), (proj2 (in_range_true n) Hnr). exact (md_used _ _ _ _ _ Hm).
  - intros ->. exact (flat_body _ _ Hb (new_flat nm p)).
Qed.

Lemma stage_quiet s s' E i : stage s E -> quiet s s' -> only_node i s s' -> n_is_dir (node s i) = false -> fa_ok (frames s') -> stage s' E.
Proof.
  intros [S1 S2 S3 S4 S5] Hq Ho Hi Hfa. split; [|done| | |].
  - by apply (quiet_fs_ok s).
  - destruct Hq as [Hst _]. by rewrite (st_count _ _ Hst).
  - intros d nm c. by rewrite (quiet_entry s s' d nm c Hq).
  - intros d nm c b Hin. destruct (S5 d nm c b Hin) as [E1 E2]. assert (entry s d nm c) as (_ & Hcr & _) by (apply S4; by exists b).
    rewrite (quiet_is_dir s s' c Hq Hcr). split; [done|]. intros ->. destruct (decide (c = i)) as [->|Hne]; [congruence|]. rewrite Ho by done. by apply E2.
Qed.

Lemma stage_mkdir s E nm : stage s E -> simple nm = true -> (forall c b, (ROOT, nm, c, b) ∉ E) -> 1 + zlen E < RAMFS64_MAX_NODES ->
  exists n s', mkdirp_ (slash :: nm) s = Some s' /\ stage s' ((ROOT, nm, n, true) :: E).
Proof.
  intros Hst Hsm Hno Hc. pose proof (simple_spec _ Hsm) as ([Hne Hlen] & Hs & _). pose proof (sg_ok _ _ Hst) as (K & Fl & Ht).
  pose proof (walk_top s nm (stage_table _ _ Hst) Hsm) as Hw.
  destruct (stage_create s E (slash :: nm) true ROOT nm Hst Hw root_rng ltac:(apply (tr_root _ _ _ Ht)) Hsm Hno Hc) as (n & s' & Hcr & Hlk & Hn & Hst' & _).
  exists n, s'. split; [|done]. unfold mkdirp_, ramfs64_mkdirp. rewrite Z.eqb_refl.
  assert (exists f, Datatypes.length (slash :: nm) = S f) as [f Ef] by (exists (Datatypes.length nm); done). rewrite Ef. cbn [mkdirp_loop].
  pose proof (drop_slashes_name nm [] Hne Hs) as Ed. rewrite app_nil_r in Ed. rewrite Ed. destruct nm as [|c q]; [done|]. rewrite component_one by done.
  cbv zeta. change (zlen [slash]) with 1. change (1 <? 1) with false. cbv iota. rewrite (proj2 (Z.leb_gt _ _)) by (unfold RAMFS64_NAME_MAX, RAMFS64_PATH_MAX in *; lia).
  change ([slash] ++ c :: q) with (slash :: c :: q). rewrite Hlk. cbn [mbind option_bind]. change (-1 <? 0) with true. cbv iota. rewrite Hcr. cbn [mbind option_bind].
  rewrite (proj2 (Z.ltb_ge n 0) Hn). destruct f; reflexivity.
Qed.

Lemma stage_walk_in s E d x nm : stage s E -> (ROOT, d, x, true) ∈ E -> simple d = true -> simple nm = true ->
  rng x /\ n_is_dir (node s x) = true /\ walk (slash :: d ++ slash :: nm) true true s = Some (x, nm).
Proof.
  intros Hst Hin Hd Hnm. pose proof (sg_ok _ _ Hst) as (K & Fl & Ht). destruct (sg_node _ _ Hst ROOT d x true Hin) as [Hxd Hxl].
  assert (entry s ROOT d x) as Hx by (apply (sg_entry _ _ Hst); by exists true). pose proof Hx as (_ & Hxr & _).
  split; [done|]. split; [done|]. apply walk_in; try done; [by apply (stage_table s E)| |apply Hxr|by apply Hxl].
  apply (find_child_entry s K Fl); [done|done|apply (tr_root _ _ _ Ht)|apply Hxr|done].
Qed.

Lemma stage_device s E d x nm dev : stage s E -> (ROOT, d, x, true) ∈ E -> simple d = true -> simple nm = true -> (forall c b, (x, nm, c, b) ∉ E) ->
  1 + zlen E < RAMFS64_MAX_NODES -> exists n s', make_device (slash :: d ++ slash :: nm) dev s = Some s' /\ stage s' ((x, nm, n, false) :: E) /\
    ramfs64_device n s' = dev.
Proof.
  intros Hst Hin Hd Hnm Hno Hc. destruct (stage_walk_in s E d x nm Hst Hin Hd Hnm) as (Hxr & Hxd & Hw).
  destruct (stage_create s E _ false x nm Hst Hw Hxr Hxd Hnm Hno Hc) as (n & s1 & Hcr & _ & Hn & Hst1 & Hv & Hnd & _ & _).
  destruct (valid_rng _ _ Hv) as [Hnr _]. pose proof (sg_ok _ _ Hst1) as (K1 & Fl1 & Ht1). pose proof (tr_sized _ _ _ Ht1) as Hz1.
  unfold make_device. rewrite Hcr. cbn [mbind option_bind]. rewrite (proj2 (Z.leb_le 0 n) Hn). unfold ramfs64_set_device. rewrite Hv, Hnd. cbn [negb orb snd].
  set (s2 := upd n (set_device dev) s1). assert (quiet s1 s2) as Q2 by (by apply quiet_upd). pose proof (quiet_sized _ _ Q2) as Hz2.
  unfold ramfs64_set_mode. rewrite (quiet_valid s1 s2 n Q2), Hv. set (s3 := upd n _ s2). assert (quiet s2 s3) as Q3 by (by apply quiet_upd).
  assert (quiet s1 s3) as Q13 by exact (still_trans _ _ _ Q2 Q3).
  assert (node s3 n = set_mode (Z.land 0x1b6 0xfff) (set_device dev (node s1 n))) as Hn3.
  { unfold s3. rewrite node_upd, Z.eqb_refl by done. unfold s2. by rewrite node_upd, Z.eqb_refl by done. }
  exists n, s3. split; [done|]. split.
  - apply (stage_quiet s1 s3 _ n); [done|done| |done|apply (sg_fa _ _ Hst1)]. intros j Hj Hne. unfold s3, s2.
    rewrite node_upd by done. rewrite (proj2 (Z.eqb_neq j n) Hne), node_upd by done. by rewrite (proj2 (Z.eqb_neq j n) Hne).
  - unfold ramfs64_device. by rewrite (quiet_valid s1 s3 n Q13), Hv, Hn3.
Qed.

Lemma stage_file s E d x nm data : stage s E -> (ROOT, d, x, true) ∈ E -> simple d = true -> simple nm = true -> (forall c b, (x, nm, c, b) ∉ E) ->
  1 + zlen E < RAMFS64_MAX_NODES -> zlen data < 2 ^ 32 ->
  exists n s', make_file (slash :: d ++ slash :: nm) data s = Some s' /\ stage s' ((x, nm, n, false) :: E).
Proof.
  intros Hst Hin Hd Hnm Hno Hc Hlen. destruct (stage_walk_in s E d x nm Hst Hin Hd Hnm) as (Hxr & Hxd & Hw).
  destruct (stage_create s E _ false x nm Hst Hw Hxr Hxd Hnm Hno Hc) as (n & s1 & Hcr & _ & Hn & Hst1 & Hv & Hnd & Hfl & Hsz).
  pose proof (sg_ok _ _ Hst1) as (K1 & Fl1 & Ht1). unfold make_file. rewrite Hcr. cbn [mbind option_bind]. rewrite (proj2 (Z.leb_le 0 n) Hn).
  destruct (write_bytes s1 n 0 data (tr_sized _ _ _ Ht1) Hv Hnd (or_introl (Hfl eq_refl)) (sg_fa _ _ Hst1)) as (r & s2 & -> & Q2 & O2 & A2 & _).
  { lia. } { lia. } { intros _. rewrite Hsz. done. }
  cbn [mbind option_bind]. exists n, s2. split; [done|]. by apply (stage_quiet s1 s2 _ n).
Qed.

Definition name_in (e : Z * list Z * Z * bool) : list Z := let '(_, nm, _, _) := e in nm.

Lemma names_fresh E p nm : bool_decide (nm ∈ map name_in E) = false -> forall c b, (p, nm, c, b) ∉ E.
Proof. intros Hb c b Hin. apply bool_decide_eq_false in Hb. apply Hb. apply (list_elem_of_fmap_2 name_in E (p, nm, c, b) Hin). Qed.

(** What the file system starts with. *)
Definition first_entries (tmp root etc dev null con pw ns : Z) : list (Z * list Z * Z * bool) :=
  [(etc, bytes "nsswitch.conf", ns, false); (etc, bytes "passwd", pw, false); (dev, bytes "console", con, false); (dev, bytes "null", null, false);
   (ROOT, bytes "dev", dev, true); (ROOT, bytes "etc", etc, true); (ROOT, bytes "root", root, true); (ROOT, bytes "tmp", tmp, true)].

Lemma blank_stage s : blank s -> fa_ok (frames s) -> exists s', alloc_node (bytes "/") (-1) true s = (ROOT, s') /\ stage s' [].
Proof.
  intros Hb Hfa. destruct (root_ok s Hb) as (s' & Hr & Ht & _ & Hst & Hc & Hu). exists s'. split; [done|]. split; [by eexists _, _| | | |].
  - destruct Hst as (_ & -> & _). done.
  - rewrite Hc. done.
  - intros d nm c. rewrite (entry_kid _ _ _ d nm c Ht). split; [by intros (_ & _ & ?%elem_of_nil & _)|by intros [b ?%elem_of_nil]].
  - by intros d nm c b ?%elem_of_nil.
Qed.

(** What initialisation makes below the root. *)
Definition first_files (s : fs H A) : option (fs H A) :=
  s ← mkdirp_ (bytes "/tmp") s; s ← mkdirp_ (bytes "/root") s; s ← mkdirp_ (bytes "/etc") s; s ← mkdirp_ (bytes "/dev") s;
  s ← make_device (bytes "/dev/null") RAMFS64_DEV_NULL s; s ← make_device (bytes "/dev/console") RAMFS64_DEV_CON s;
  s ← make_file (bytes "/etc/passwd") (bytes "root:x:0:0:root:/root:/bin/sh" ++ [10]) s;
  make_file (bytes "/etc/nsswitch.conf")
    (bytes "passwd: files" ++ 10 :: bytes "group: files" ++ 10 :: bytes "shadow: files" ++ 10 :: bytes "hosts: files" ++ [10]) s.

Lemma init_files s : stage s [] -> exists tmp root etc dev null con pw ns s', first_files s = Some s' /\
  stage s' (first_entries tmp root etc dev null con pw ns).
Proof.
  intros H0'. unfold first_entries, first_files.
  destruct (stage_mkdir s _ (bytes "tmp") H0' eq_refl ltac:(by apply names_fresh) eq_refl) as (tmp & s1 & E1 & H1).
  change (bytes "/tmp") with (slash :: bytes "tmp"). rewrite E1. cbn [mbind option_bind].
  destruct (stage_mkdir s1 _ (bytes "root") H1 eq_refl ltac:(by apply names_fresh) eq_refl) as (root & s2 & E2 & H2).
  change (bytes "/root") with (slash :: bytes "root"). rewrite E2. cbn [mbind option_bind].
  destruct (stage_mkdir s2 _ (bytes "etc") H2 eq_refl ltac:(by apply names_fresh) eq_refl) as (etc & s3 & E3 & H3).
  change (bytes "/etc") with (slash :: bytes "etc"). rewrite E3. cbn [mbind option_bind].
  destruct (stage_mkdir s3 _ (bytes "dev") H3 eq_refl ltac:(by apply names_fresh) eq_refl) as (dev & s4 & E4 & H4).
  change (bytes "/dev") with (slash :: bytes "dev"). rewrite E4. cbn [mbind option_bind].
  destruct (stage_device s4 _ (bytes "dev") dev (bytes "null") RAMFS64_DEV_NULL H4) as (null & s5 & E5 & H5 & _); [by apply elem_of_cons; left|done|done|by apply names_fresh|done|].
  change (bytes "/dev/null") with (slash :: bytes "dev" ++ slash :: bytes "null"). rewrite E5. cbn [mbind option_bind].
  destruct (stage_device s5 _ (bytes "dev") dev (bytes "console") RAMFS64_DEV_CON H5) as (con & s6 & E6 & H6 & _); [by do 1 (apply elem_of_cons; right); apply elem_of_cons; left|done|done|by apply names_fresh|done|].
  change (bytes "/dev/console") with (slash :: bytes "dev" ++ slash :: bytes "console"). rewrite E6. cbn [mbind option_bind].
  destruct (stage_file s6 _ (bytes "etc") etc (bytes "passwd") (bytes "root:x:0:0:root:/root:/bin/sh" ++ [10]) H6) as (pw & s7 & E7 & H7); [by do 3 (apply elem_of_cons; right); apply elem_of_cons; left|done|done|by apply names_fresh|done|done|].
  change (bytes "/etc/passwd") with (slash :: bytes "etc" ++ slash :: bytes "passwd"). rewrite E7. cbn [mbind option_bind].
  destruct (stage_file s7 _ (bytes "etc") etc (bytes "nsswitch.conf")
    (bytes "passwd: files" ++ 10 :: bytes "group: files" ++ 10 :: bytes "shadow: files" ++ 10 :: bytes "hosts: files" ++ [10]) H7)
    as (ns & s8 & E8 & H8); [by do 4 (apply elem_of_cons; right); apply elem_of_cons; left|done|done|by apply names_fresh|done|done|].
  change (bytes "/etc/nsswitch.conf") with (slash :: bytes "etc" ++ slash :: bytes "nsswitch.conf"). rewrite E8.
  by exists tmp, root, etc, dev, null, con, pw, ns, s8.
Qed.

Lemma free_frames_fa l s : fa_ok (frames s) -> Forall (fun p => 0 <= p) l -> fa_ok (frames (free_frames l s)).
Proof.
  unfold free_frames. revert s. induction l as [|p l IH]; intros s Hfa Hl; [done|]. apply Forall_cons in Hl as [Hp Hl]. cbn [fold_left].
  apply IH; [|done]. by apply (fa_free_frame (frames s) p).
Qed.

(** Giving back what an earlier file system held. *)
Lemma give_all_fa s : fa_ok (frames s) -> (forall i, rng i -> Forall (fun p => 0 <= p) (n_farr (node s i))) ->
  fa_ok (frames (for_up NNODES 0 give_back s)).
Proof.
  intros Hfa Hp. apply (for_up_ind (fun (_ : Z) (t : fs H A) => nodes t = nodes s /\ fa_ok (frames t))); [done|].
  intros k t Hk [Hn Ht]. destruct (give_back_same t k) as [E _]. split; [by rewrite E|]. unfold give_back. destruct (negb _); [done|].
  set (s1 := if nz (n_data _) then _ else _). assert (frames s1 = frames t) as Es by (unfold s1; by destruct (nz (n_data _))).
  assert (node t k = node s k) as -> by (unfold node; by rewrite Hn). destruct (nz (n_frames _)); [|by rewrite Es].
  apply (free_frames_fa _ s1); [by rewrite Es|]. apply Forall_take, Hp. unfold rng, NNODES in *. lia.
Qed.

(** initialisation - the first, or one that throws an earlier file system
    away - ends, and leaves a tree with exactly the four directories, the
    two devices and the two files of the boot; without memory for the table
    there is no file system. *)
Theorem ramfs64_init_tree s : zlen (nodes s) = RAMFS64_MAX_NODES -> fa_ok (frames s) ->
  (forall i, rng i -> Forall (fun p => 0 <= p) (n_farr (node s i))) ->
  (table s <> 0 \/ fst (Pipe64.kmalloc64 (NODE64_SIZE * RAMFS64_MAX_NODES) (heap s)) <> 0 ->
   exists s' tmp root etc dev null con pw ns, ramfs64_init s = Some s' /\ fs_ok s' /\ ramfs64_count s' = 9 /\
     forall d nm c, entry s' d nm c <-> exists b, (d, nm, c, b) ∈ first_entries tmp root etc dev null con pw ns) /\
  (table s = 0 -> fst (Pipe64.kmalloc64 (NODE64_SIZE * RAMFS64_MAX_NODES) (heap s)) = 0 ->
   exists s', ramfs64_init s = Some s' /\ table s' = 0).
Proof.
  intros Hz Hfa Hpos. unfold ramfs64_init. split.
  - intros Ht. set (start := if nz (table s) then _ else _).
    assert (exists s0, start = (true, s0) /\ nz (table s0) = true /\ sized s0 /\ fa_ok (frames s0)) as (s0 & -> & Ht0 & Hz0 & Hfa0).
    { unfold start, kmalloc. destruct (nz (table s)) eqn:E.
      - exists (for_up NNODES 0 give_back s). destruct (give_all_same s) as [E1 E2]. split; [done|]. rewrite E2. split; [done|].
        split; [unfold sized; by rewrite E1|by apply give_all_fa].
      - destruct (Pipe64.kmalloc64 _ (heap s)) as [p h]. eexists. assert (nz p = true) as Hp.
        { unfold nz in *. apply negb_false_iff, Z.eqb_eq in E. destruct Ht as [|Hp]; [done|]. apply negb_true_iff. by apply Z.eqb_neq. }
        rewrite Hp. split; [reflexivity|]. done. }
    cbn [negb]. pose proof (clear_blank s0 Ht0 Hz0) as Hb. cbv zeta.
    assert (frames (for_up NNODES 0 clear_node s0) = frames s0) as Ef by (by apply (for_up_ind (fun (_ : Z) (t : fs H A) => frames t = frames s0))).
    revert Hb Ef. generalize (for_up NNODES 0 clear_node s0) as t. intros t Hb Ef. set (s1 := set_node_count 0 (set_free_head 0 t)) in *.
    assert (frames s1 = frames s0) as Ef1 by exact Ef. clear Ef.
    destruct (blank_stage s1 Hb) as (s2 & -> & Hst); [by rewrite Ef1|].
    destruct (init_files s2 Hst) as (tmp & root & etc & dev & null & con & pw & ns & s3 & Hrun & Hst3).
    exists s3, tmp, root, etc, dev, null, con, pw, ns. split; [exact Hrun|]. split; [apply Hst3|]. split; [exact (sg_count _ _ Hst3)|apply Hst3].
  - intros Ht Hk. unfold kmalloc. rewrite Ht. cbn [nz negb Z.eqb]. destruct (Pipe64.kmalloc64 _ (heap s)) as [p h]. cbn [fst] in Hk. subst p. eexists. split; [reflexivity|done].
Qed.
End init.
