(* ===== verification/Ramspec.v ===== *)
(** * What the RAM file system promises ([kernel/ramfs64.c])

    The theorems about the operations, from the lemmas of [Ramtree] (the
    tree), [Ramnames] (names), [Ramdata] (bytes) and [Raminit] (the first
    tree), with witnesses on the file system of the boot, and examples of
    what the operations do where they should not. *)

From S2P Require Import Prelude FrameAlloc Ramfs64 Ramtree Ramnames Ramdata Raminit.
From S2P Require Pipe64 Pmm64.
From Stdlib Require Import String.

Section spec.
  Context {H A : Type} `{!Pipe64.KernelHeap H, !FrameAllocator A}.
  Implicit Types s : fs H A.

(** ** Names *)

(** C17: the tree is kept: from a tree, any sequence of calls - files made,
    linked, renamed, removed, opened and closed, written and resized, with any
    arguments - leads to a tree again, provided each name that is made (by
    create, symlink or rename) goes into a directory: each child list without
    a loop and true to the parents, each name once in a directory, every way
    up ending, every free slot in the free list and counted.  The proviso is
    the callers': the code does not check it, and without it the tree is lost
    ([create_below_a_file], [rename_file_below_itself]).  A sequence that
    moves no bytes comes back. *)
Theorem ramfs64_stays_a_tree s cs : fs_ok s -> into_directories cs s ->
  (forall s', fs_run cs s = Some s' -> fs_ok s') /\ (Forall on_names cs -> is_Some (fs_run cs s)).
Proof.
  revert s. induction cs as [|c cs IH]; intros s Hok Hd; cbn [fs_run into_directories] in *.
  { split; [by intros s' [= <-]|done]. }
  destruct Hd as [Hc Hd]. split.
  - intros s' (s1 & H1 & H2)%bind_Some. apply (IH s1); [by apply (fs_do_ok s c)|by apply Hd|done].
  - intros [Hn Hns]%Forall_cons. destruct (fs_do_names s c Hok Hc Hn) as (s1 & H1 & Hok1). rewrite H1. cbn [mbind option_bind].
    apply (IH s1); [done|by apply Hd|done].
Qed.

(** C35: the operations on names come back: no loop in a path of symbolic
    links, a child list or a way up keeps them - creating, linking and renaming
    when the new name goes into a directory, which the code does not check
    itself.  A walk fails or leads to a node that is in use and has a name. *)
Theorem ramfs64_names_end s path : fs_ok s ->
  (exists r, ramfs64_lookup path s = Some r /\ (r = -1 \/ named s r)) /\
  (exists r, ramfs64_lookup_nofollow path s = Some r /\ (r = -1 \/ named s r)) /\
  is_Some (ramfs64_unlink path s) /\ is_Some (ramfs64_rmdir path s) /\
  (dir_path s path -> forall dir target oldp, is_Some (ramfs64_create path dir s) /\ is_Some (ramfs64_symlink path target s) /\ is_Some (ramfs64_rename oldp path s)).
Proof.
  intros Hok. pose proof Hok as (K & Fl & Ht). split; [exact (lookup_ok s K Fl path true Ht)|]. split; [exact (lookup_ok s K Fl path false Ht)|].
  split; [destruct (unlink_total s path Hok) as (r & s' & -> & _); by eexists|]. split; [destruct (rmdir_total s path Hok) as (r & s' & -> & _); by eexists|].
  intros Hd dir target oldp. split; [|split].
  - destruct (create_total s path dir Hok Hd) as (r & s' & -> & _). by eexists.
  - destruct (symlink_total s path target Hok Hd) as (r & s' & -> & _). by eexists.
  - destruct (rename_total s oldp path Hok Hd) as (r & s' & -> & _). by eexists.
Qed.

(** C34: creating a file or a directory under a free name adds exactly one
    entry, of an empty node, and the path then leads to it; every path that
    led somewhere before leads there still. *)
Theorem ramfs64_create_adds s path dir p comp : fs_ok s -> leads_to s path p comp -> comp <> [dot] -> comp <> [dot; dot] ->
  ramfs64_lookup_nofollow path s = Some (-1) -> node_count s < RAMFS64_MAX_NODES ->
  exists n s', ramfs64_create path dir s = Some (n, s') /\ fs_ok s' /\
    ramfs64_lookup path s' = Some n /\ ramfs64_lookup_nofollow path s' = Some n /\
    (forall d nm c, entry s' d nm c <-> (d = p /\ nm = comp /\ c = n) \/ entry s d nm c) /\
    used s n = false /\ n_is_dir (node s' n) = dir /\ n_size (node s' n) = 0 /\ node_count s' = node_count s + 1 /\
    (forall j, rng j -> j <> n -> body (node s' j) = body (node s j)) /\
    (forall q r, ramfs64_lookup q s = Some r -> 0 <= r -> ramfs64_lookup q s' = Some r).
Proof.
  intros (K & Fl & Ht) Hlead Hd Hdd Hno Hc. destruct (leads_named s K Fl path p comp Ht Hlead) as [Hpn Hg]. destruct Hlead as (Hw & Hp & Hdir).
  destruct Hpn as (Hpr & Hpu & Hpl).
  assert (find_child p comp s = Some (-1)) as Hf.
  { destruct (find_child_cases s K Fl p comp Ht Hpr Hpu) as [|(c & Hf & Hc0 & _)]; [done|].
    unfold ramfs64_lookup_nofollow in Hno. rewrite (walk_last s path true false p comp c Hw Hp Hd Hdd Hf) in Hno by (intros; apply andb_false_r).
    rewrite (proj2 (Z.ltb_ge c 0) Hc0) in Hno. injection Hno as ->. lia. }
  destruct (created_ok s K Fl path p comp dir Ht Hw Hp Hdir Hf Hc) as (n & s' & Hr & Hok & Hgr & Hst & Hm & Hb & Hcnt & _ & Hn & Hw' & Hf').
  assert (n_is_link (node s' n) = false) as Hlk by (by apply body_eq in Hb as (_ & _ & _ & -> & _)).
  exists n, s'. split.
  { unfold ramfs64_create. rewrite Hw. cbn [mbind option_bind]. rewrite (proj2 (Z.ltb_ge p 0) Hp), Hf. cbn [mbind option_bind].
    rewrite (proj2 (Z.leb_gt 0 (-1))) by done. by rewrite Hr. }
  split; [done|]. assert (forall ff, fst <$> walk path false ff s' = Some n) as Hl.
  { intros ff. rewrite (walk_last s' path true ff p comp n Hw' Hp Hd Hdd Hf') by (intros; by rewrite Hlk). by rewrite (proj2 (Z.ltb_ge n 0) Hn). }
  split; [apply Hl|]. split; [apply Hl|]. split; [by apply made_entry|]. split; [apply Hm|].
  split; [by rewrite (body_is_dir _ _ Hb)|]. split; [exact (f_equal n_size Hb)|]. split; [done|]. split; [apply Hm|].
  intros q r Hq Hr0. unfold ramfs64_lookup in *. destruct (walk q false true s) as [[r0 c0]|] eqn:Hwq; [|done]. injection Hq as ->.
  rewrite (walk_grows s s' K Fl q false true r c0); [done|done|apply Hst|done..].
Qed.

(** Under a name that is taken, [create] gives what is there; without a
    directory to make it in, or without a node, it fails; nothing changes. *)
Theorem ramfs64_create_else s path dir : fs_ok s ->
  (forall p comp c, leads_to s path p comp -> find_child p comp s = Some c -> 0 <= c -> ramfs64_create path dir s = Some (c, s)) /\
  (forall comp, walk path true true s = Some (-1, comp) -> ramfs64_create path dir s = Some (-1, s)) /\
  (node_count s = RAMFS64_MAX_NODES -> exists c, ramfs64_create path dir s = Some (c, s)).
Proof.
  intros (K & Fl & Ht). unfold ramfs64_create. split; [|split].
  - intros p comp c (Hw & Hp & _) Hf Hc. rewrite Hw. cbn [mbind option_bind]. rewrite (proj2 (Z.ltb_ge p 0) Hp), Hf. cbn [mbind option_bind].
    by rewrite (proj2 (Z.leb_le 0 c) Hc).
  - by intros comp ->.
  - intros Hc. assert (Fl = []) as ->.
    { pose proof (tr_count _ _ _ Ht) as E. destruct Fl as [|i Fl]; [done|]. rewrite zlen_cons in E. pose proof (zlen_nonneg Fl). lia. }
    destruct (walk_ok s K [] path true true Ht) as (p & comp & -> & Hp). cbn [mbind option_bind].
    destruct (Z.ltb_spec p 0) as [|Hp0]; [by exists (-1)|]. destruct Hp as [->|[(Hpr & Hpu & _) _]]; [lia|].
    destruct (find_child_total _ s K [] p comp Ht Hpr Hpu) as (c & -> & _). cbn [mbind option_bind]. destruct (0 <=? c); [by exists c|].
    rewrite (alloc_node_full s K) by done. by exists (-1).
Qed.

(** Unlinking removes exactly the one entry; the path leads nowhere then,
    and no path leads anywhere it did not lead before. *)
Theorem ramfs64_unlink_removes s path i : fs_ok s -> ramfs64_lookup_nofollow path s = Some i -> 0 <= i -> n_is_dir (node s i) = false ->
  exists s', ramfs64_unlink path s = Some (0, s') /\ fs_ok s' /\
    (forall d nm c, entry s' d nm c <-> entry s d nm c /\ c <> i) /\
    ramfs64_lookup_nofollow path s' = Some (-1) /\
    (forall q r, ramfs64_lookup q s' = Some r -> 0 <= r -> ramfs64_lookup q s = Some r) /\
    (forall j, rng j -> j <> i -> body (node s' j) = body (node s j)).
Proof.
  intros (K & Fl & Ht) Hl Hi Hd. destruct (unlink_run s K Fl path i Ht Hl Hi Hd) as (Hr & Hu & Hp & HK & ->).
  destruct (drop_name_ok s K Fl i Ht Hr Hu Hp HK) as (s' & -> & Hok & Hm & _ & Htab & _). cbn [mbind option_bind].
  exists s'. split; [done|]. split; [done|]. split; [by apply removed_entry|]. destruct Hok as (K' & Fl' & Ht').
  pose proof (removed_grows s s' K Fl K' Fl' i Ht Ht' Hm) as Hg.
  assert (forall q ff r, fst <$> walk q false ff s' = Some r -> 0 <= r -> fst <$> walk q false ff s = Some r /\ r <> i) as Hback.
  { intros q ff r Hq Hr0. pose proof (lookup_named s' K' Fl' q ff r Ht' Hq Hr0) as Hnm. destruct (walk q false ff s') as [[r0 c0]|] eqn:Hwq; [|done].
    injection Hq as ->. rewrite (walk_grows s' s K' Fl' q false ff r c0 Ht' (eq_sym Htab) Hg Hwq Hr0). split; [done|]. by apply (removed_named s s' i). }
  split; [|split; [intros q r Hq Hr0; by apply Hback|apply Hm]].
  destruct (lookup_ok s' K' Fl' path false Ht') as (r & Hr' & [->|Hrn]); [done|].
  destruct (Hback path false r Hr' ltac:(apply Hrn)) as [E Hne]. unfold ramfs64_lookup_nofollow in Hl. rewrite Hl in E. by injection E as ->.
Qed.

(** C22: a file that is open when its name goes keeps its bytes: every read
    answers as before, the node stays in use, and the close of the last
    descriptor frees it. *)
Theorem ramfs64_unlink_keeps_open s path i : fs_ok s -> ramfs64_lookup_nofollow path s = Some i -> 0 <= i -> n_is_dir (node s i) = false ->
  0 < n_openers (node s i) ->
  exists s', ramfs64_unlink path s = Some (0, s') /\ valid i s' = true /\ same_store s s' /\
    (forall off buf len, ramfs64_read i off buf len s' = ramfs64_read i off buf len s) /\
    n_openers (node s' i) = n_openers (node s i) /\
    (n_openers (node s i) = 1 -> valid i (ramfs64_unref_node i s') = false) /\
    (1 < n_openers (node s i) -> valid i (ramfs64_unref_node i s') = true).
Proof.
  intros (K & Fl & Ht) Hl Hi Hd Ho. destruct (unlink_run s K Fl path i Ht Hl Hi Hd) as (Hr & Hu & Hp & HK & ->).
  destruct (drop_name_ok s K Fl i Ht Hr Hu Hp HK) as (s' & -> & Hok & Hm & Hpg & Htab & Hopen & _). cbn [mbind option_bind].
  destruct (Hopen ltac:(lia)) as (Hu' & Hul' & Hd' & Ho' & Hc' & Hst). destruct Hok as (K' & Fl' & Ht').
  assert (valid i s' = true) as Hv'.
  { unfold valid. rewrite (tr_table _ _ _ Ht'), (proj2 (in_range_true i) Hr). done. }
  assert (valid i s = true) as Hv by (unfold valid; by rewrite (tr_table _ _ _ Ht), (proj2 (in_range_true i) Hr)).
  exists s'. split; [done|]. split; [done|]. split; [done|]. split; [intros off buf len; by apply read_same_contents; rewrite ?Hv|].
  split; [done|]. unfold ramfs64_unref_node. rewrite Hv'. cbn [negb]. rewrite Ho'. rewrite (proj2 (Z.ltb_lt _ _) Ho).
  set (s1 := upd i _ s'). assert (node s1 i = set_openers (n_openers (node s i) - 1) (node s' i)) as Hn1.
  { unfold s1. rewrite node_upd by (done || apply Ht'). by rewrite Z.eqb_refl, Ho'. }
  rewrite Hn1. cbn [n_openers set_openers n_unlinked]. rewrite Hul', andb_true_r. split; intros E.
  - rewrite E. change (1 - 1 =? 0) with true. cbv iota. destruct (release_run s1 i (upd_sized _ _ _ (tr_sized _ _ _ Ht')) Hr (tr_table _ _ _ Ht')) as (_ & _ & _ & _ & _ & _ & Hun & _).
    unfold valid. unfold used in Hun. rewrite Hun. apply andb_false_r.
  - rewrite (proj2 (Z.eqb_neq (n_openers (node s i) - 1) 0)) by lia. unfold valid. rewrite Hn1. cbn [n_used set_openers].
    rewrite (proj2 (in_range_true i) Hr). change (table s1) with (table s'). rewrite (tr_table _ _ _ Ht'). done.
Qed.

(** Removing a directory takes away exactly its entry, and only if it is
    empty: what a path led to below it is never lost. *)
Theorem ramfs64_rmdir_removes s path i : fs_ok s -> ramfs64_lookup_nofollow path s = Some i -> 0 <= i -> n_is_dir (node s i) = true -> i <> ROOT ->
  ((forall nm c, ~ entry s i nm c) -> exists s', ramfs64_rmdir path s = Some (0, s') /\ fs_ok s' /\
     (forall d nm c, entry s' d nm c <-> entry s d nm c /\ c <> i) /\ node_count s' = node_count s - 1 /\
     (forall j, rng j -> j <> i -> body (node s' j) = body (node s j))) /\
  (forall nm c, entry s i nm c -> ramfs64_rmdir path s = Some (-39, s)).
Proof.
  intros (K & Fl & Ht) Hl Hi Hd Hr. pose proof (lookup_named s K Fl path false i Ht Hl Hi) as Hn. pose proof Hn as (Hir & Hu & _).
  pose proof (named_linked s K Fl i Ht Hn Hr) as Hp. unfold ramfs64_rmdir. rewrite Hl. cbn [mbind option_bind].
  rewrite (proj2 (Z.ltb_ge i 0) Hi), Hd, (proj2 (Z.eqb_neq i ROOT) Hr), (has_children_spec s K Fl i Ht Hir Hu). cbn [negb]. split.
  - intros HK%(no_entry_no_kids s K Fl i Ht Hir Hu). rewrite bool_decide_eq_false_2 by tauto.
    destruct (free_node_ok s K Fl i Ht Hir Hu Hp HK) as (s' & -> & Hok & Hm & _ & Hcnt & _). cbn [mbind option_bind].
    exists s'. split; [done|]. split; [done|]. split; [by apply removed_entry|]. split; [done|]. apply Hm.
  - intros nm c (_ & _ & Hin & _)%(entry_kid s K Fl); [|done]. rewrite bool_decide_eq_true_2; [done|]. intros E. rewrite E in Hin. by apply elem_of_nil in Hin.
Qed.

(** C5: a rename moves exactly one entry, in one step: the renamed node is
    found under the new name and no longer under the old one, what stood there
    has lost its name, every other entry is as it was; the node keeps its
    openers and permissions, and it and every other file read the same. *)
Theorem ramfs64_rename_moves s oldp newp src p comp e : fs_ok s -> ramfs64_lookup_nofollow oldp s = Some src -> 0 <= src -> src <> ROOT ->
  leads_to s newp p comp -> find_child p comp s = Some e -> e <> src -> replaceable s src e ->
  (n_is_dir (node s src) = true -> ~ below s src p) ->
  exists s', ramfs64_rename oldp newp s = Some (0, s') /\ fs_ok s' /\ find_child p comp s' = Some src /\
    (forall d nm c, entry s' d nm c <-> (c = src /\ d = p /\ nm = comp) \/ (c <> src /\ c <> e /\ entry s d nm c)) /\
    (forall j, rng j -> j <> e -> kept (node s' j) = kept (node s j)) /\
    (forall j off buf len, rng j -> j <> e -> ramfs64_read j off buf len s' = ramfs64_read j off buf len s).
Proof.
  intros Hok Hl Hs Hr Hlead Hf Hne Hrep Hcyc. pose proof Hok as (K & Fl & Ht). destruct (leads_named s K Fl newp p comp Ht Hlead) as [(Hpr & Hpu & _) _].
  destruct (rename_moves s oldp newp src p comp e Hok Hl Hs Hr Hlead Hf Hne Hrep Hcyc) as (s' & Hrun & Hok' & He & Hk & Hpg & Htab).
  exists s'. split; [done|]. split; [done|]. pose proof Hok' as (K' & Fl' & Ht'). split; [|split; [done|split; [done|]]].
  - assert (entry s' p comp src) as Hx by (apply He; by left). pose proof Hx as Hx2. apply (entry_kid s' K' Fl') in Hx2 as (_ & Hpu' & _); [|done].
    by apply (find_child_entry s' K' Fl').
  - intros j off buf len Hj Hje. specialize (Hk j Hj Hje). unfold kept in Hk. injection Hk as K1 K2 K3 K4 K5 K6 _ K8 K9 _ _ _.
    apply read_same_contents; [unfold valid; by rewrite Htab, K8|done|unfold contents; congruence|done].
Qed.

(** ** Bytes *)

(** C6: a write either puts all its bytes in the file or fails for want of
    memory.  Read back they are the bytes written - also when the write moved
    the file out of its heap block into frames - the rest of the file reads
    as before, and so does every file that shares no frame with it. *)
Theorem ramfs64_write_then_read s i off buf : sized s -> valid i s = true -> n_is_dir (node s i) = false -> file_ok s (node s i) -> fa_ok (frames s) ->
  0 <= off -> off + zlen buf < 2 ^ 62 -> (flat (node s i) -> n_size (node s i) <= RAMFS64_CONTIGUOUS_MAX) ->
  exists r s', ramfs64_write i off buf s = Some (r, s') /\ (r = zlen buf \/ r = -12) /\
    (r = zlen buf -> file_ok s' (node s' i) /\ ramfs64_size i s' = Z.max (ramfs64_size i s) (off + zlen buf) /\
       (forall b, 0 < zlen buf -> zlen b = zlen buf -> ramfs64_read i off b (zlen buf) s' = Some (zlen buf, buf)) /\
       (forall o b n, 0 <= o -> 0 <= n <= zlen b -> o + n < 2 ^ 64 -> o + n <= off \/ off + zlen buf <= o -> o + n <= ramfs64_size i s ->
          ramfs64_read i o b n s' = ramfs64_read i o b n s)) /\
    (forall j o b n, other_file s i j -> 0 <= o -> 0 <= n <= zlen b -> o + n < 2 ^ 64 -> ramfs64_read j o b n s' = ramfs64_read j o b n s).
Proof.
  intros Hz Hv Hd Hf Hfa Hoff Hw Hmax. destruct (write_bytes s i off buf Hz Hv Hd Hf Hfa Hoff Hw Hmax) as (r & s' & Hr & Hq & Ho & _ & Hoth & Hcase).
  pose proof (zlen_nonneg buf) as Hb0. destruct (valid_rng _ _ Hv) as [Hi _].
  assert (valid i s' = true) as Hv' by (by rewrite (quiet_valid s s' i Hq)).
  assert (n_is_dir (node s' i) = false) as Hd' by (by rewrite (quiet_is_dir s s' i Hq Hi)).
  exists r, s'. split; [done|]. split; [tauto|]. split.
  - intros Hrl. destruct Hcase as [[_ (W1 & W2 & W3 & W4)]|[? _]]; [|lia]. split; [done|]. unfold ramfs64_size. rewrite Hv, Hv'. split; [done|]. split.
    + intros b Hb Hbl. destruct (read_bytes s' i off b (zlen buf) Hv' Hd' W1 Hoff ltac:(lia) ltac:(lia)) as (b' & -> & L & B).
      rewrite (proj2 (Z.leb_gt _ _)) in B |- * by lia. replace (Z.min (zlen buf) (n_size (node s' i) - off)) with (zlen buf) in * by lia.
      do 2 f_equal. apply zlist_eq; [lia|]. intros j Hj. rewrite B, (proj2 (Z.ltb_lt j (zlen buf))), W3 by lia. f_equal. lia.
    + intros o b n Ho0 Hn Hn64 Hout Hin. apply read_same; try done; [left; lia|]. intros k Hk Hks. apply W4; lia.
  - intros j o b n Hj Ho0 Hn Hw2. destruct (Hoth j Hj) as (F & Z2 & B). destruct Hj as (Hjr & Hji & Hjf & _). apply read_same; try done; [by right|].
    intros k Hk Hks. apply B. lia.
Qed.

(** Reading gives the bytes of the file from the offset on, at most to its
    end, and leaves the rest of the buffer; at or past the end it gives 0, on
    a directory -21, and through a number that is no node -9. *)
Theorem ramfs64_read_bytes s i off buf len : 0 <= off -> 0 <= len <= zlen buf -> off + len < 2 ^ 64 ->
  (valid i s = false -> ramfs64_read i off buf len s = Some (-9, buf)) /\
  (valid i s = true -> n_is_dir (node s i) = true -> ramfs64_read i off buf len s = Some (-21, buf)) /\
  (valid i s = true -> n_is_dir (node s i) = false -> n_size (node s i) <= off -> ramfs64_read i off buf len s = Some (0, buf)) /\
  (valid i s = true -> n_is_dir (node s i) = false -> file_ok s (node s i) -> off < n_size (node s i) ->
     exists buf', ramfs64_read i off buf len s = Some (Z.min len (n_size (node s i) - off), buf') /\ zlen buf' = zlen buf /\
       forall j, 0 <= j < zlen buf -> zget buf' j = if j <? Z.min len (n_size (node s i) - off) then fbyte s (node s i) (off + j) else zget buf j).
Proof.
  intros Hoff Hlen Hw. split; [|split; [|split]].
  - intros Hv. unfold ramfs64_read. by rewrite Hv.
  - intros Hv Hd. unfold ramfs64_read. by rewrite Hv, Hd.
  - intros Hv Hd Hs. unfold ramfs64_read. rewrite Hv, Hd. cbn [negb]. by rewrite (proj2 (Z.leb_le _ _) Hs).
  - intros Hv Hd Hf Hs. destruct (read_bytes s i off buf len Hv Hd Hf Hoff Hlen Hw) as (b & Hr & L & B).
    rewrite (proj2 (Z.leb_gt _ _) Hs) in Hr, B. by exists b.
Qed.

(** Setting a length keeps every byte below it; a file in one block is
    zero from its old end to the new one.  Without memory nothing changes. *)
Theorem ramfs64_resize_bytes s i len : sized s -> valid i s = true -> n_is_dir (node s i) = false -> file_ok s (node s i) -> fa_ok (frames s) -> 0 <= len < 2 ^ 62 ->
  exists r s', ramfs64_resize i len s = Some (r, s') /\ (r = 0 \/ r = -28) /\
    (r = 0 -> file_ok s' (node s' i) /\ ramfs64_size i s' = len /\
       (forall k, 0 <= k < Z.min len (n_size (node s i)) -> fbyte s' (node s' i) k = fbyte s (node s i) k) /\
       (flat (node s i) -> forall k, n_size (node s i) <= k < len -> fbyte s' (node s' i) k = 0)) /\
    (r = -28 -> same_file s s' i).
Proof.
  intros Hz Hv Hd Hf Hfa Hlen. destruct (valid_rng _ _ Hv) as [Hi _]. unfold ramfs64_resize, ramfs64_size. cbv zeta. rewrite Hv, Hd. cbn [negb].
  assert (forall s1, quiet s s1 -> file_ok s1 (node s1 i) -> (flat (node s1 i) -> len <= zlen (n_block (node s1 i))) ->
    (framed s1 (node s1 i) -> len <= n_nframes (node s1 i) * PAGE64_SIZE) ->
    (forall k, 0 <= k < Z.min len (n_size (node s i)) -> fbyte s1 (node s1 i) k = fbyte s (node s i) k) ->
    (flat (node s i) -> forall k, n_size (node s i) <= k < len -> fbyte s1 (node s1 i) k = 0) ->
    exists r s', Some (0, upd i (set_size len) s1) = Some (r, s') /\ (r = 0 \/ r = -28) /\
    (r = 0 -> file_ok s' (node s' i) /\ (if valid i s' then n_size (node s' i) else 0) = len /\
       (forall k, 0 <= k < Z.min len (n_size (node s i)) -> fbyte s' (node s' i) k = fbyte s (node s i) k) /\
       (flat (node s i) -> forall k, n_size (node s i) <= k < len -> fbyte s' (node s' i) k = 0)) /\
    (r = -28 -> same_file s s' i)) as Hend.
  { intros s1 Q1 F1 C1 C2 B1 B2. pose proof (quiet_sized _ _ Q1) as Hz1.
    destruct (set_size_bytes s1 i len Hz1 Hi F1 ltac:(lia) C1 C2) as (Q2 & _ & F2 & Z2 & B3 & _ & _ & _).
    exists 0, (upd i (set_size len) s1). split; [done|]. split; [by left|]. split; [|done]. intros _. split; [done|].
    rewrite (quiet_valid _ _ i (still_trans _ _ _ Q1 Q2)), Hv. split; [done|]. split; [intros k Hk; rewrite B3; by apply B1|].
    intros Hfl k Hk. rewrite B3. by apply B2. }
  destruct (Z.ltb_spec (n_size (node s i)) len) as [Hlt|Hge].
  - destruct (file_frames s (node s i) Hf) as [[E Hfl]|[E Hfr]]; unfold nz at 1.
    + rewrite E. cbn [negb Z.eqb]. destruct (ensure_flat s i len Hz Hi Hfl ltac:(lia)) as (ok & s1 & -> & Q1 & O1 & K1 & Fm1 & F1 & Z1 & B1 & Hyes & Hno).
      cbn [mbind option_bind]. destruct ok; cbn [negb mbind option_bind].
      * pose proof (quiet_sized _ _ Q1) as Hz1. set (zs := replicate (Z.to_nat (len - n_size (node s i))) 0). pose proof (fl_size _ Hfl).
        assert (zlen zs = len - n_size (node s i)) as Hzs by (unfold zs, zlen; rewrite length_replicate; lia).
        destruct (put_flat_bytes s1 i (n_size (node s i)) zs Hz1 Hi F1) as (Q2 & O2 & F2 & Z2 & D2 & L2 & B2); [lia|rewrite Hzs; pose proof (Hyes eq_refl); lia|].
        rewrite (upd_ext i _ (fun nd => set_data (n_data nd) (zsplice (n_size (node s i)) zs (n_block nd)) nd) s1) by (by rewrite Z1).
        apply Hend; [exact (still_trans _ _ _ Q1 Q2)|by left|intros _; rewrite L2; by apply Hyes| | |].
        -- intros Hfr. destruct (fr_frames _ _ Hfr (fl_frames _ F2)).
        -- intros k Hk. rewrite B2, (proj2 (Z.leb_gt _ k)) by lia. cbn [andb]. apply B1. lia.
        -- intros _ k Hk. rewrite B2, Hzs, (proj2 (Z.leb_le _ k)), (proj2 (Z.ltb_lt k _)) by lia. cbn [andb]. unfold zs. apply zget_replicate. lia.
      * exists (-28), s1. split; [done|]. split; [by right|]. split; [done|]. intros _. split; [by left|]. done.
    + rewrite (proj2 (Z.eqb_neq _ _) E). cbn [negb]. destruct (make_framed_spec s i len Hz Hi Hf Hfa ltac:(lia)) as (ok & s1 & -> & Q1 & O1 & K1 & A1 & Hyes & Hno).
      { intros Hfl. by destruct (E (fl_frames _ Hfl)). }
      cbn [mbind option_bind]. destruct ok; cbn [negb].
      * destruct (Hyes eq_refl) as (F1 & C1 & Z1 & _ & B1). apply Hend; [done|by right| |done| |].
        -- intros Hfl. destruct (fr_frames _ _ F1 (fl_frames _ Hfl)).
        -- intros k Hk. apply B1. lia.
        -- intros Hfl. destruct (E (fl_frames _ Hfl)).
      * exists (-28), s1. split; [done|]. split; [by right|]. split; [done|]. intros _. destruct (Hno eq_refl Hfr) as (F1 & Z1 & B1). split; [by right|done].
  - cbn [mbind option_bind negb]. apply (Hend s); [by apply still_refl|done| | |done|].
    + intros Hfl. pose proof (fl_size _ Hfl). lia.
    + intros Hfr. pose proof (fr_size _ _ Hfr). lia.
    + intros _ k Hk. lia.
Qed.
End spec.

(** ** Witnesses: the file system of the boot *)

#[local] Instance demo_heap : Pipe64.KernelHeap Z.
Proof.
  refine {| Pipe64.kmalloc64 := fun n h => if h + n <? 100000000 then (h, h + n) else (0, h); Pipe64.kfree64 := fun _ h => h;
            Pipe64.block_bytes := fun _ _ n => replicate (Z.to_nat n) 0 |}.
  intros _ _ n Hn. unfold zlen. rewrite length_replicate. lia.
Defined.

#[local] Existing Instance Pmm64.pmm64_frame_allocator.

(** The table cleared, and what the boot makes in it. *)
Definition demo_cleared (i : Z) : node64 :=
  mkNode [] 0 0 [] 0 false false 0 0 [] 0 0 false 0 false (-1) (if i + 1 <? RAMFS64_MAX_NODES then i + 1 else -1).
Definition demo_raw : fs Z Pmm64.pmm := mkFs 4096 (map demo_cleared (seqZ 0 4096)) 0 0 0 1445888 Pmm64.demo_pmm (fun _ => replicate 4096 0).
Definition demo_nodes : list node64 := Eval vm_compute in match first_files (snd (alloc_node (bytes "/") (-1) true demo_raw)) with Some s => nodes s | None => [] end.
Definition demo_fs : fs Z Pmm64.pmm := mkFs 4096 demo_nodes 9 9 0 1446016 Pmm64.demo_pmm (fun _ => replicate 4096 0).

Lemma demo_boot_runs : first_files (snd (alloc_node (bytes "/") (-1) true demo_raw)) = Some demo_fs.
Proof. vm_compute. reflexivity. Qed.

Lemma demo_blank : blank demo_raw.
Proof.
  assert (forall i, rng i -> node demo_raw i = demo_cleared i) as Hn.
  { intros i Hi. unfold node, demo_raw. cbn [nodes]. apply zget_lookup; [apply Hi|]. change (map demo_cleared (seqZ 0 4096)) with (demo_cleared <$> seqZ 0 4096).
    rewrite list_lookup_fmap, lookup_seqZ_lt by (unfold rng, RAMFS64_MAX_NODES in Hi; lia). cbn [fmap option_fmap option_map]. do 2 f_equal. destruct Hi. lia. }
  split; [done| |done|done|..].
  - unfold sized, demo_raw, zlen. cbn [nodes]. rewrite length_map, length_seqZ. reflexivity.
  - intros i Hi. unfold used. by rewrite Hn.
  - intros i Hi. unfold nx. by rewrite Hn.
Qed.

Lemma demo_fs_ok : fs_ok demo_fs.
Proof.
  destruct (blank_stage demo_raw demo_blank) as (s1 & H1 & Hst); [exact Pmm64.demo_pmm_ready|].
  destruct (init_files s1 Hst) as (tmp & root & etc & dev & null & con & pw & ns & s2 & Hrun & Hst2).
  pose proof demo_boot_runs as Hb. rewrite H1 in Hb. change (first_files s1 = Some demo_fs) in Hb. rewrite Hb in Hrun. apply (inj Some) in Hrun. subst s2. apply Hst2.
Qed.

(** The nodes of [/tmp] and [/etc/passwd]. *)
Definition demo_tmp : Z := 1.
Definition demo_passwd : Z := 7.

(** A file made, renamed into another directory, opened and removed. *)
Definition demo_calls : list fs_call :=
  [Create (bytes "/tmp/x") false; Rename (bytes "/tmp/x") (bytes "/etc/y"); RefNode 9; Unlink (bytes "/etc/y")].

(** Making a file below a file is what the callers must not ask for. *)
Example create_below_a_file_is_not_into_a_directory : into_directoryb (Create (bytes "/etc/passwd/x") false) demo_fs = false.
Proof. vm_compute. reflexivity. Qed.

Lemma ramfs64_stays_a_tree_witness :
  exists s', fs_run demo_calls demo_fs = Some s' /\ fs_ok s'.
Proof.
  assert (into_directories demo_calls demo_fs) as Hd by (apply into_directoriesb_spec; vm_compute; reflexivity).
  destruct (ramfs64_stays_a_tree demo_fs demo_calls demo_fs_ok Hd) as [H1 H2].
  destruct H2 as [s' Hr]; [repeat constructor|]. exists s'. split; [exact Hr|exact (H1 s' Hr)].
Defined.

Lemma ramfs64_names_end_witness :
  is_Some (ramfs64_unlink (bytes "/etc/../etc/passwd") demo_fs) /\ is_Some (ramfs64_rmdir (bytes "/etc/../etc/passwd") demo_fs).
Proof. destruct (ramfs64_names_end demo_fs (bytes "/etc/../etc/passwd") demo_fs_ok) as (_ & _ & H1 & H2 & _). exact (conj H1 H2). Defined.

Lemma ramfs64_create_adds_witness : exists n s', ramfs64_create (bytes "/tmp/x") false demo_fs = Some (n, s') /\ fs_ok s' /\
  ramfs64_lookup (bytes "/tmp/x") s' = Some n /\ ramfs64_lookup (bytes "/etc/passwd") s' = Some demo_passwd.
Proof.
  destruct (ramfs64_create_adds demo_fs (bytes "/tmp/x") false demo_tmp (bytes "x")) as (n & s' & H1 & H2 & H3 & _ & _ & _ & _ & _ & _ & _ & H4).
  - exact demo_fs_ok.
  - split; [vm_compute; reflexivity|]. split; [discriminate|vm_compute; reflexivity].
  - discriminate.
  - discriminate.
  - vm_compute. reflexivity.
  - vm_compute. reflexivity.
  - exists n, s'. split; [exact H1|]. split; [exact H2|]. split; [exact H3|]. apply H4; [vm_compute; reflexivity|discriminate].
Defined.

(** [/etc/passwd] opened once. *)
Definition demo_open : fs Z Pmm64.pmm := ramfs64_ref_node demo_passwd demo_fs.

Lemma demo_open_ok : fs_ok demo_open.
Proof. exact (fs_do_ok demo_fs (RefNode demo_passwd) demo_open demo_fs_ok I eq_refl). Qed.

Lemma ramfs64_unlink_keeps_open_witness : exists s', ramfs64_unlink (bytes "/etc/passwd") demo_open = Some (0, s') /\ valid demo_passwd s' = true /\
  ramfs64_read demo_passwd 0 (replicate 4 0) 4 s' = Some (4, bytes "root") /\ valid demo_passwd (ramfs64_unref_node demo_passwd s') = false.
Proof.
  destruct (ramfs64_unlink_keeps_open demo_open (bytes "/etc/passwd") demo_passwd) as (s' & H1 & H2 & _ & H4 & _ & H6 & _).
  - exact demo_open_ok.
  - vm_compute. reflexivity.
  - discriminate.
  - vm_compute. reflexivity.
  - vm_compute. reflexivity.
  - exists s'. split; [exact H1|]. split; [exact H2|]. split; [|apply H6; vm_compute; reflexivity].
    rewrite H4. vm_compute. reflexivity.
Defined.

Lemma ramfs64_rename_moves_witness : exists s', ramfs64_rename (bytes "/etc/passwd") (bytes "/tmp/x") demo_fs = Some (0, s') /\ fs_ok s' /\
  find_child demo_tmp (bytes "x") s' = Some demo_passwd /\ ramfs64_read demo_passwd 0 (replicate 4 0) 4 s' = Some (4, bytes "root").
Proof.
  destruct (ramfs64_rename_moves demo_fs (bytes "/etc/passwd") (bytes "/tmp/x") demo_passwd demo_tmp (bytes "x") (-1)) as (s' & H1 & H2 & H3 & _ & _ & H6).
  - exact demo_fs_ok.
  - vm_compute. reflexivity.
  - discriminate.
  - discriminate.
  - split; [vm_compute; reflexivity|]. split; [discriminate|vm_compute; reflexivity].
  - vm_compute. reflexivity.
  - discriminate.
  - left. reflexivity.
  - intros Hd. exfalso. vm_compute in Hd. discriminate Hd.
  - exists s'. split; [exact H1|]. split; [exact H2|]. split; [exact H3|]. rewrite H6; [vm_compute; reflexivity|split; [discriminate|reflexivity]|discriminate].
Defined.

Lemma demo_passwd_flat : flat (node demo_fs demo_passwd).
Proof. split; [vm_compute; reflexivity..|split; vm_compute; discriminate|intros Hd; exfalso; vm_compute in Hd; discriminate Hd]. Qed.

Lemma demo_fs_sized : sized demo_fs.
Proof. destruct demo_fs_ok as (K & Fl & Ht). apply (tr_sized _ _ _ Ht). Qed.

Lemma ramfs64_write_then_read_witness : exists s', ramfs64_write demo_passwd 27 [1; 2; 3; 4] demo_fs = Some (4, s') /\ ramfs64_size demo_passwd s' = 31 /\
  ramfs64_read demo_passwd 27 (replicate 4 0) 4 s' = Some (4, [1; 2; 3; 4]) /\ ramfs64_read demo_passwd 0 (replicate 4 0) 4 s' = Some (4, bytes "root").
Proof.
  destruct (ramfs64_write_then_read demo_fs demo_passwd 27 [1; 2; 3; 4]) as (r & s' & H1 & H2 & H3 & _).
  - exact demo_fs_sized.
  - vm_compute. reflexivity.
  - vm_compute. reflexivity.
  - left. exact demo_passwd_flat.
  - exact Pmm64.demo_pmm_ready.
  - discriminate.
  - reflexivity.
  - intros _. vm_compute. discriminate.
  - assert (r = 4) as ->.
    { assert (fst <$> ramfs64_write demo_passwd 27 [1; 2; 3; 4] demo_fs = Some 4) as E by (vm_compute; reflexivity). rewrite H1 in E. by injection E. }
    destruct (H3 eq_refl) as (_ & H4 & H5 & H6). exists s'. split; [exact H1|]. split; [rewrite H4; vm_compute; reflexivity|].
    split; [apply (H5 (replicate 4 0)); reflexivity|]. rewrite H6; [vm_compute; reflexivity|lia|split; vm_compute; discriminate|reflexivity|left; vm_compute; discriminate|vm_compute; discriminate].
Defined.

(** ** Where the code does not do what it means to *)

Definition after {X} (r : option (X * fs Z Pmm64.pmm)) : fs Z Pmm64.pmm := match r with Some (_, s) => s | None => demo_raw end.

(** A directory is not moved below itself, but what stood there is gone. *)
Example rename_below_itself_loses :
  let s := after (ramfs64_mkdirp (bytes "/tmp/a/b") demo_fs) in
  let r := ramfs64_rename (bytes "/tmp/a") (bytes "/tmp/a/b") s in
  (fst <$> r, ramfs64_lookup (bytes "/tmp/a/b") s, ramfs64_lookup (bytes "/tmp/a/b") (after r)) = (Some (-22), Some 10, Some (-1)).
Proof. vm_compute. reflexivity. Qed.

(** A file is taken for a directory to make a file in, which no path finds. *)
Example create_below_a_file :
  let r := ramfs64_create (bytes "/etc/passwd/x") false demo_fs in
  (fst <$> r, ramfs64_lookup (bytes "/etc/passwd/x") (after r), node_count (after r)) = (Some 9, Some (-1), 10).
Proof. vm_compute. reflexivity. Qed.

(** ... and a file renamed below itself is lost, its own parent. *)
Example rename_file_below_itself :
  let r := ramfs64_rename (bytes "/etc/passwd") (bytes "/etc/passwd/x") demo_fs in
  (fst <$> r, ramfs64_lookup (bytes "/etc/passwd") (after r), ramfs64_parent demo_passwd (after r)) = (Some 0, Some (-1), demo_passwd).
Proof. vm_compute. reflexivity. Qed.

(** The names [.] and [..] can be made, and not found again. *)
Example create_dot :
  let r := ramfs64_create (bytes "/tmp/.") false demo_fs in
  (fst <$> r, ramfs64_lookup (bytes "/tmp/.") (after r), ramfs64_name 9 (after r)) = (Some 9, Some demo_tmp, Some [dot]).
Proof. vm_compute. reflexivity. Qed.

(** An open directory is removed at once: the descriptor then stands for the
    next file made. *)
Example rmdir_of_an_open_directory :
  let s := after (ramfs64_rmdir (bytes "/tmp") (ramfs64_ref_node demo_tmp demo_fs)) in
  fst <$> ramfs64_create (bytes "/secret") false s = Some demo_tmp.
Proof. vm_compute. reflexivity. Qed.

(** An offset past 2^64 - len wraps: the copy is outside the block. *)
Example write_wraps : ramfs64_write demo_passwd (2 ^ 64 - 1) [1; 2] demo_fs = None.
Proof. vm_compute. reflexivity. Qed.

(** Half of the 64-bit range is a length for which the doubling does not end. *)
Example resize_does_not_end : ramfs64_resize demo_passwd (2 ^ 63 + 1) demo_fs = None.
Proof. vm_compute. reflexivity. Qed.

Lemma grow_cap_stuck fuel want : 0 < want -> grow_cap fuel 0 want = None.
Proof. intros Hw. induction fuel as [|fuel IH]; [done|]. cbn [grow_cap]. by rewrite (proj2 (Z.ltb_lt 0 want) Hw). Qed.

(** A file in frames, cut and grown again, shows its old bytes. *)
Example regrown_frames_keep_old_bytes :
  match ramfs64_frames demo_passwd 1 demo_fs with
  | Some (_, _, s) => ramfs64_read demo_passwd 0 (replicate 4 0) 4 (after (ramfs64_resize demo_passwd 4 (after (ramfs64_resize demo_passwd 0 s))))
  | None => None
  end = Some (4, bytes "root").
Proof. vm_compute. reflexivity. Qed.

(** An allocator without frames. *)
Definition no_frames : fs Z unit := mkFs (table demo_fs) (nodes demo_fs) (free_head demo_fs) (node_count demo_fs) 0 4096 tt (fun _ => []).

#[local] Instance empty_allocator : FrameAllocator unit.
Proof.
  refine {| fa_ok := fun _ => True; fa_owners := fun _ _ => 0; fa_ram := fun _ _ => false; alloc_frame := fun a => (0, a); alloc_high := fun a => (0, a);
            alloc_user := fun a => (0, a); free_frame := fun _ a => a; ref_frame := fun _ a => (false, a); frame_owners := fun _ _ => 0;
            owns_frame := fun _ _ => false; fa_limit := fun _ => 0 |}.
  - intros. lia.
  - intros. lia.
  - intros a _. split; [|done]. split; [done|]. by right.
  - intros a _. split; [|done]. split; [done|]. by right.
  - intros a _. split; [|done]. split; [done|]. by right.
  - intros a p _ _. split; [done|]. split; [done|]. intros g. by destruct (g =? p / 4096).
  - intros a p _ _. done.
  - done.
  - intros. lia.
  - done.
  - done.
  - done.
  - done.
Defined.

(** The frames run out on the first mapping: the answer is 0, and the file's
    bytes, though still in the block, are not read any more. *)
Example failed_mapping_hides_the_bytes :
  match ramfs64_frames demo_passwd 1 no_frames with
  | Some (p, _, s) => (p, ramfs64_read demo_passwd 0 (replicate 4 0) 4 no_frames, ramfs64_read demo_passwd 0 (replicate 4 0) 4 s)
  | None => (1, None, None)
  end = (0, Some (4, bytes "root"), Some (4, [0; 0; 0; 0])).
Proof. vm_compute. reflexivity. Qed.
