(* ===== verification/Proc64.v ===== *)
(** * Processes ([kernel/proc64.c])

    The table of processes: what a process owns, as opposed to a thread.  The
    descriptors refer to nodes of the RAM file system and to ends of pipes,
    so the state holds the pipe table, whose node table is the file system:
    a fork adds a reference for each descriptor it copies, through
    [Ramfs64.ramfs64_ref_node] and [Pipe64.pipe64_ref].  A path is the list of
    its bytes before the NUL.  The line printed once when the table is full
    is left out. *)

From S2P Require Import Prelude FrameAlloc.
From S2P Require Pipe64 Pmm64 Ramfs64.

Definition PROC64_MAX : Z := 128.
Definition PROC64_RESV_MAX : Z := 4096.
Definition PROC64_FD_MAX : Z := 2048.
Definition PROC64_PATH_MAX : Z := 1024.
Definition COMM_LEN : Z := 16.
Definition FD64_FILE : Z := 0.
Definition FD64_PIPE : Z := 1.
Definition FD64_SOCKET : Z := 2.
Definition NPROC : nat := Z.to_nat PROC64_MAX.
Definition NFD : nat := Z.to_nat PROC64_FD_MAX.

Record proc_fd := mkPfd {
  d_kind : Z;
  d_sigmask : Z;
  d_node : Z;
  d_pos : Z;
  d_rx : Z;
  d_tx : Z;
  d_sock : Z;
  d_nonblock : bool;
  d_cloexec : bool;
  d_used : bool
}.
Definition no_fd : proc_fd := mkPfd 0 0 0 0 0 0 0 false false false.
#[export] Instance proc_fd_inhabited : Inhabited proc_fd := populate no_fd.

(** A range of anonymous memory without pages: [[start, end)] and the flags
    its pages will be mapped with, 0 for a reservation. *)
Record region := mkRegion { r_start : Z; r_end : Z; r_flags : Z }.
#[export] Instance region_inhabited : Inhabited region := populate (mkRegion 0 0 0).

Record proc64 := mkProc {
  p_used : bool;
  p_pid : Z;
  p_parent : Z;
  p_exited : bool;
  p_exit_status : Z;
  p_term_sig : Z;
  p_vfork_parent : Z;
  p_space : Z               (* the PML4 of the address space *);
  p_brk_base : Z;
  p_brk_current : Z;
  p_mmap_next : Z;
  p_resv : list region     (* the first [nresv] *);
  p_fds : list proc_fd;
  p_exe_path : list Z;
  p_comm : list Z;
  p_cwd : list Z
}.

(** [kmemset(&procs[i], 0, sizeof(procs[i]))]. *)
Definition no_proc : proc64 := mkProc false 0 0 false 0 0 0 0 0 0 0 [] (replicate NFD no_fd) [] [] [].
#[export] Instance proc64_inhabited : Inhabited proc64 := populate no_proc.

Definition set_used (v : bool) (p : proc64) : proc64 :=
  mkProc v (p_pid p) (p_parent p) (p_exited p) (p_exit_status p) (p_term_sig p) (p_vfork_parent p) (p_space p) (p_brk_base p) (p_brk_current p) (p_mmap_next p) (p_resv p) (p_fds p) (p_exe_path p) (p_comm p) (p_cwd p).
Definition set_pid (v : Z) (p : proc64) : proc64 :=
  mkProc (p_used p) v (p_parent p) (p_exited p) (p_exit_status p) (p_term_sig p) (p_vfork_parent p) (p_space p) (p_brk_base p) (p_brk_current p) (p_mmap_next p) (p_resv p) (p_fds p) (p_exe_path p) (p_comm p) (p_cwd p).
Definition set_parent (v : Z) (p : proc64) : proc64 :=
  mkProc (p_used p) (p_pid p) v (p_exited p) (p_exit_status p) (p_term_sig p) (p_vfork_parent p) (p_space p) (p_brk_base p) (p_brk_current p) (p_mmap_next p) (p_resv p) (p_fds p) (p_exe_path p) (p_comm p) (p_cwd p).
Definition set_exited (v : bool) (p : proc64) : proc64 :=
  mkProc (p_used p) (p_pid p) (p_parent p) v (p_exit_status p) (p_term_sig p) (p_vfork_parent p) (p_space p) (p_brk_base p) (p_brk_current p) (p_mmap_next p) (p_resv p) (p_fds p) (p_exe_path p) (p_comm p) (p_cwd p).
Definition set_exit_status (v : Z) (p : proc64) : proc64 :=
  mkProc (p_used p) (p_pid p) (p_parent p) (p_exited p) v (p_term_sig p) (p_vfork_parent p) (p_space p) (p_brk_base p) (p_brk_current p) (p_mmap_next p) (p_resv p) (p_fds p) (p_exe_path p) (p_comm p) (p_cwd p).
Definition set_term_sig (v : Z) (p : proc64) : proc64 :=
  mkProc (p_used p) (p_pid p) (p_parent p) (p_exited p) (p_exit_status p) v (p_vfork_parent p) (p_space p) (p_brk_base p) (p_brk_current p) (p_mmap_next p) (p_resv p) (p_fds p) (p_exe_path p) (p_comm p) (p_cwd p).
Definition set_vfork_parent (v : Z) (p : proc64) : proc64 :=
  mkProc (p_used p) (p_pid p) (p_parent p) (p_exited p) (p_exit_status p) (p_term_sig p) v (p_space p) (p_brk_base p) (p_brk_current p) (p_mmap_next p) (p_resv p) (p_fds p) (p_exe_path p) (p_comm p) (p_cwd p).
Definition set_space (v : Z) (p : proc64) : proc64 :=
  mkProc (p_used p) (p_pid p) (p_parent p) (p_exited p) (p_exit_status p) (p_term_sig p) (p_vfork_parent p) v (p_brk_base p) (p_brk_current p) (p_mmap_next p) (p_resv p) (p_fds p) (p_exe_path p) (p_comm p) (p_cwd p).
Definition set_brk_base (v : Z) (p : proc64) : proc64 :=
  mkProc (p_used p) (p_pid p) (p_parent p) (p_exited p) (p_exit_status p) (p_term_sig p) (p_vfork_parent p) (p_space p) v (p_brk_current p) (p_mmap_next p) (p_resv p) (p_fds p) (p_exe_path p) (p_comm p) (p_cwd p).
Definition set_brk_current (v : Z) (p : proc64) : proc64 :=
  mkProc (p_used p) (p_pid p) (p_parent p) (p_exited p) (p_exit_status p) (p_term_sig p) (p_vfork_parent p) (p_space p) (p_brk_base p) v (p_mmap_next p) (p_resv p) (p_fds p) (p_exe_path p) (p_comm p) (p_cwd p).
Definition set_mmap_next (v : Z) (p : proc64) : proc64 :=
  mkProc (p_used p) (p_pid p) (p_parent p) (p_exited p) (p_exit_status p) (p_term_sig p) (p_vfork_parent p) (p_space p) (p_brk_base p) (p_brk_current p) v (p_resv p) (p_fds p) (p_exe_path p) (p_comm p) (p_cwd p).
Definition set_resv (v : list region) (p : proc64) : proc64 :=
  mkProc (p_used p) (p_pid p) (p_parent p) (p_exited p) (p_exit_status p) (p_term_sig p) (p_vfork_parent p) (p_space p) (p_brk_base p) (p_brk_current p) (p_mmap_next p) v (p_fds p) (p_exe_path p) (p_comm p) (p_cwd p).
Definition set_fds (v : list proc_fd) (p : proc64) : proc64 :=
  mkProc (p_used p) (p_pid p) (p_parent p) (p_exited p) (p_exit_status p) (p_term_sig p) (p_vfork_parent p) (p_space p) (p_brk_base p) (p_brk_current p) (p_mmap_next p) (p_resv p) v (p_exe_path p) (p_comm p) (p_cwd p).
Definition set_exe_path (v : list Z) (p : proc64) : proc64 :=
  mkProc (p_used p) (p_pid p) (p_parent p) (p_exited p) (p_exit_status p) (p_term_sig p) (p_vfork_parent p) (p_space p) (p_brk_base p) (p_brk_current p) (p_mmap_next p) (p_resv p) (p_fds p) v (p_comm p) (p_cwd p).
Definition set_comm (v : list Z) (p : proc64) : proc64 :=
  mkProc (p_used p) (p_pid p) (p_parent p) (p_exited p) (p_exit_status p) (p_term_sig p) (p_vfork_parent p) (p_space p) (p_brk_base p) (p_brk_current p) (p_mmap_next p) (p_resv p) (p_fds p) (p_exe_path p) v (p_cwd p).
Definition set_cwd (v : list Z) (p : proc64) : proc64 :=
  mkProc (p_used p) (p_pid p) (p_parent p) (p_exited p) (p_exit_status p) (p_term_sig p) (p_vfork_parent p) (p_space p) (p_brk_base p) (p_brk_current p) (p_mmap_next p) (p_resv p) (p_fds p) (p_exe_path p) (p_comm p) v.

Section proc64.
  Context {H A : Type} `{!Pipe64.KernelHeap H, !FrameAllocator A}.

(** The pipes send closed descriptors' nodes to the file system. *)
#[global] Instance fs_node_refs : Pipe64.NodeRefs (Ramfs64.fs H A) :=
  {| Pipe64.ramfs64_unref_node := Ramfs64.ramfs64_unref_node |}.

Record pst := mkPst {
  procs : list proc64;
  current_pid : Z;
  next_pid : Z;
  reaped_signal : Z;
  pipes : Pipe64.pstate H (Ramfs64.fs H A)
}.

Definition set_procs (v : list proc64) (s : pst) : pst := mkPst v (current_pid s) (next_pid s) (reaped_signal s) (pipes s).
Definition set_current_pid (v : Z) (s : pst) : pst := mkPst (procs s) v (next_pid s) (reaped_signal s) (pipes s).
Definition set_next_pid (v : Z) (s : pst) : pst := mkPst (procs s) (current_pid s) v (reaped_signal s) (pipes s).
Definition set_reaped_signal (v : Z) (s : pst) : pst := mkPst (procs s) (current_pid s) (next_pid s) v (pipes s).
Definition set_pipes (v : Pipe64.pstate H (Ramfs64.fs H A)) (s : pst) : pst :=
  mkPst (procs s) (current_pid s) (next_pid s) (reaped_signal s) v.

Definition proc (s : pst) (i : Z) : proc64 := zget (procs s) i.
Definition upd (i : Z) (f : proc64 -> proc64) (s : pst) : pst := set_procs (zset (procs s) i (f (proc s i))) s.
Definition files (s : pst) : Ramfs64.fs H A := Pipe64.nodes (pipes s).
Definition ref_node (n : Z) (s : pst) : pst :=
  set_pipes (Pipe64.set_nodes (Ramfs64.ramfs64_ref_node n (files s)) (pipes s)) s.
Definition ref_pipe (p : Z) (reader writer : bool) (s : pst) : pst :=
  set_pipes (Pipe64.pipe64_ref p reader writer (pipes s)) s.

(** ** The table *)

Definition proc64_init (s : pst) : pst :=
  set_next_pid 1 (set_current_pid (-1) (for_up NPROC 0 (fun i => upd i (set_used false)) s)).

Definition is_pid (pid : Z) (p : proc64) : bool := p_used p && (p_pid p =? pid).

(** The index of the slot. *)
Definition slot_for (pid : Z) (s : pst) : option Z := find_up NPROC 0 (fun i => is_pid pid (proc s i)).

Definition proc64_get (pid : Z) (s : pst) : option Z := slot_for pid s.
Definition proc64_current (s : pst) : option Z := slot_for (current_pid s) s.
Definition proc64_current_pid (s : pst) : Z := current_pid s.
Definition proc64_slot_of (pid : Z) (s : pst) : Z :=
  match find_up NPROC 0 (fun i => is_pid pid (proc s i)) with Some i => i | None => -1 end.
Definition proc64_current_slot (s : pst) : Z := proc64_slot_of (current_pid s) s.
Definition proc64_set_current (pid : Z) (s : pst) : pst := set_current_pid pid s.

Definition proc64_create (s : pst) : Z * pst :=
  match find_up NPROC 0 (fun i => negb (p_used (proc s i))) with
  | None => (-1, s)
  | Some i =>
      let s := upd i (fun _ => no_proc) s in
      let s := upd i (set_used true) s in
      let s := upd i (set_pid (next_pid s)) s in
      let s := set_next_pid (i32 (next_pid s + 1)) s in
      let s := upd i (set_parent 0) s in
      let s := upd i (set_cwd (Ramfs64.cut PROC64_PATH_MAX [Ramfs64.slash])) s in
      (p_pid (proc s i), s)
  end.

(** One descriptor of the child, and the references it holds. *)
Definition fork_fd (parent child f : Z) (s : pst) : pst :=
  let d := zget (p_fds (proc s parent)) f in
  let s := upd child (fun c => set_fds (zset (p_fds c) f d) c) s in
  if negb (d_used d) then s else
  if d_kind d =? FD64_FILE then ref_node (d_node d) s
  else ref_pipe (d_tx d) false true (ref_pipe (d_rx d) true false s).

Definition fork_fds (parent child : Z) (s : pst) : pst := for_up NFD 0 (fork_fd parent child) s.

(** What the child copies besides. *)
Definition fork_rest (parent child : Z) (s : pst) : pst :=
  let p := proc s parent in
  let s := upd child (set_brk_base (p_brk_base p)) s in
  let s := upd child (set_brk_current (p_brk_current p)) s in
  let s := upd child (set_mmap_next (p_mmap_next p)) s in
  let s := upd child (set_resv (p_resv p)) s in
  let s := upd child (set_exe_path (Ramfs64.cut PROC64_PATH_MAX (p_exe_path p))) s in
  let s := upd child (set_comm (Ramfs64.cut COMM_LEN (p_comm p))) s in
  let s := upd child (set_cwd (Ramfs64.cut PROC64_PATH_MAX (p_cwd p))) s in
  upd child (set_parent (p_pid p)) s.

(** [None] is a child that is not in the table: it always is. *)
Definition proc64_fork_from (pid : Z) (s : pst) : option (Z * pst) :=
  match slot_for pid s with
  | None => Some (-1, s)
  | Some parent =>
      let '(child_pid, s) := proc64_create s in
      if child_pid <? 0 then Some (-1, s) else
      match slot_for child_pid s with
      | None => None
      | Some child => Some (child_pid, fork_rest parent child (fork_fds parent child s))
      end
  end.

(** ** Ending *)

Definition proc64_exit (pid status : Z) (s : pst) : pst :=
  match slot_for pid s with
  | None => s
  | Some i => upd i (fun p => set_exit_status status (set_exited true p)) s
  end.

Definition proc64_reaped_signal (s : pst) : Z := reaped_signal s.

Definition proc64_exit_signalled (pid sig : Z) (s : pst) : pst :=
  match slot_for pid s with
  | None => s
  | Some i => proc64_exit pid (128 + sig) (upd i (set_term_sig sig) s)
  end.

(** Is the process the child [wait] asks for: [want] is a pid, or any? *)
Definition wanted (parent want : Z) (p : proc64) : bool :=
  p_used p && (p_parent p =? parent) && negb ((0 <? want) && negb (p_pid p =? want)).

(** The pid, and what is stored in [*status]. *)
Definition proc64_reap_child_pid (parent want : Z) (s : pst) : Z * option Z * pst :=
  match find_up NPROC 0 (fun i => p_exited (proc s i) && wanted parent want (proc s i)) with
  | Some i =>
      let p := proc s i in
      (p_pid p, Some (p_exit_status p), upd i (set_used false) (set_reaped_signal (p_term_sig p) s))
  | None => (-1, None, set_reaped_signal 0 s)
  end.

Definition proc64_reap_child (parent : Z) (s : pst) : Z * option Z * pst := proc64_reap_child_pid parent (-1) s.

(** An exited process nobody is left to wait for. *)
Definition orphan (p : proc64) (s : pst) : bool :=
  p_used p && p_exited p && negb (p_pid p =? current_pid s) &&
  match (if nz (p_parent p) then slot_for (p_parent p) s else None) with Some _ => false | None => true end.

(** The state, [n] and [changed]. *)
Definition orphan_pass (s : pst) (n : Z) : pst * Z * bool :=
  for_up NPROC 0 (fun i st =>
    let '(s, n, changed) := (st : pst * Z * bool) in
    if orphan (proc s i) s then (upd i (set_used false) s, n + 1, true) else st) (s, n, false).

(** [while (changed)]; [None] is a loop that goes on. *)
Fixpoint orphan_loop (fuel : nat) (n : Z) (s : pst) : option (Z * pst) :=
  match fuel with
  | O => None
  | S fuel' =>
      let '(s, n, changed) := orphan_pass s n in
      if (changed : bool) then orphan_loop fuel' n s else Some (n, s)
  end.

Definition proc64_release_orphans (s : pst) : option (Z * pst) := orphan_loop (S NPROC) 0 s.

Definition proc64_has_child (pid want : Z) (s : pst) : bool :=
  match find_up NPROC 0 (fun i => wanted pid want (proc s i)) with Some _ => true | None => false end.
Definition proc64_has_children (pid : Z) (s : pst) : bool := proc64_has_child pid (-1) s.
Definition proc64_count (s : pst) : Z := count_up NPROC 0 (fun i => p_used (proc s i)).
End proc64.

Arguments pst : clear implicits.

(** ** What the table promises *)

Section spec.
  Context {H A : Type} `{!Pipe64.KernelHeap H, !FrameAllocator A}.
  Implicit Types s : pst H A.

(** ** The table *)

Definition slot (i : Z) : Prop := 0 <= i < PROC64_MAX.

(** The arrays have their sizes; a live process has a pid of its own that has
    been given out. *)
Record procs_ok s : Prop := {
  po_len : zlen (procs s) = PROC64_MAX;
  po_fds i : slot i -> zlen (p_fds (proc s i)) = PROC64_FD_MAX;
  po_pid i : slot i -> p_used (proc s i) = true -> 0 < p_pid (proc s i) < next_pid s;
  po_own i j : slot i -> slot j -> p_used (proc s i) = true -> p_used (proc s j) = true ->
    p_pid (proc s i) = p_pid (proc s j) -> i = j;
  po_next : 0 < next_pid s
}.

Lemma proc_upd s i j f : zlen (procs s) = PROC64_MAX -> slot i -> 0 <= j ->
  proc (upd i f s) j = if i =? j then f (proc s i) else proc s j.
Proof. intros Hl Hi Hj. unfold proc, upd. cbn. apply zget_zset; [by rewrite Hl|done]. Qed.

Lemma upd_len s i f : zlen (procs (upd i f s)) = zlen (procs s).
Proof. apply zlen_zset. Qed.

Lemma upd_next_pid s i f : next_pid (upd i f s) = next_pid s.
Proof. done. Qed.
Lemma upd_pipes s i f : pipes (upd i f s) = pipes s.
Proof. done. Qed.

Lemma slot_for_Some s pid i : slot_for pid s = Some i -> slot i /\ p_used (proc s i) = true /\ p_pid (proc s i) = pid.
Proof.
  unfold slot_for, is_pid. intros (? & Hp & _)%find_up_Some. apply andb_true_iff in Hp as [? ?%Z.eqb_eq].
  split; [|done]. unfold slot, NPROC, PROC64_MAX in *. lia.
Qed.

Lemma slot_for_None s pid : slot_for pid s = None <-> forall i, slot i -> p_used (proc s i) = true -> p_pid (proc s i) <> pid.
Proof.
  unfold slot_for, is_pid. rewrite find_up_None. unfold slot, NPROC, PROC64_MAX. split; intros E i Hi.
  - intros Hu Hp. specialize (E i ltac:(lia)). rewrite Hu, Hp, Z.eqb_refl in E. done.
  - apply andb_false_iff. destruct (p_used (proc s i)) eqn:Hu; [|by left]. right. apply Z.eqb_neq. apply E; [lia|done].
Qed.

Lemma slot_for_own s pid i : procs_ok s -> slot i -> p_used (proc s i) = true -> p_pid (proc s i) = pid -> slot_for pid s = Some i.
Proof.
  intros Hok Hi Hu Hp. destruct (slot_for pid s) as [j|] eqn:E.
  - apply slot_for_Some in E as (Hj & Hu' & Hp'). f_equal. apply (po_own _ Hok); try done. congruence.
  - by destruct (proj1 (slot_for_None _ _) E i Hi Hu).
Qed.

Lemma slot_of_eq s pid : proc64_slot_of pid s = default (-1) (slot_for pid s).
Proof. done. Qed.

Lemma free_slot_Some s i : find_up NPROC 0 (fun i => negb (p_used (proc s i))) = Some i -> slot i /\ p_used (proc s i) = false.
Proof. intros (? & Hp%negb_true_iff & _)%find_up_Some. split; [|done]. unfold slot, NPROC, PROC64_MAX in *. lia. Qed.

Lemma free_slot_None s : find_up NPROC 0 (fun i => negb (p_used (proc s i))) = None <-> forall i, slot i -> p_used (proc s i) = true.
Proof.
  rewrite find_up_None. unfold slot, NPROC, PROC64_MAX. split; intros E i Hi.
  - apply negb_false_iff. apply E. lia.
  - rewrite E; [done|lia].
Qed.

(** ** Creating *)

Definition fresh_proc (pid : Z) : proc64 := set_cwd [Ramfs64.slash] (set_pid pid (set_used true no_proc)).

Lemma upd_twice s i f g : zlen (procs s) = PROC64_MAX -> slot i -> upd i g (upd i f s) = upd i (fun p => g (f p)) s.
Proof.
  intros Hl Hi. unfold upd at 1. rewrite proc_upd, Z.eqb_refl by (done || apply Hi). unfold upd, set_procs. cbn. f_equal. unfold zset. by rewrite list_insert_insert_eq.
Qed.

Lemma upd_next i f v s : upd i f (set_next_pid v s) = set_next_pid v (upd i f s).
Proof. done. Qed.

Lemma create_eq s : zlen (procs s) = PROC64_MAX ->
  proc64_create s = match find_up NPROC 0 (fun i => negb (p_used (proc s i))) with
  | None => (-1, s)
  | Some k => (next_pid s, set_next_pid (i32 (next_pid s + 1)) (upd k (fun _ => fresh_proc (next_pid s)) s))
  end.
Proof.
  intros Hl. unfold proc64_create. destruct (find_up _ _ _) as [k|] eqn:E; [|done]. apply free_slot_Some in E as [Hk _]. cbv zeta.
  rewrite !upd_next, !upd_twice by (rewrite ?upd_len; done). f_equal.
  change (p_pid (proc (upd k (fun _ => fresh_proc (next_pid s)) s) k) = next_pid s). rewrite proc_upd, Z.eqb_refl by (done || apply Hk). done.
Qed.

(** ** References *)

(** [t] is [s] with [cn n] more openers of the node [n], and [cr p] readers
    and [cw p] writers of the pipe [p], of those that are in use. *)
Record refs (cn cr cw : Z -> Z) (s t : pst H A) : Prop := {
  rf_files : exists ns, files t = Ramfs64.set_nodes ns (files s) /\ zlen ns = zlen (Ramfs64.nodes (files s));
  rf_node n : 0 <= n < Ramfs64.RAMFS64_MAX_NODES -> Ramfs64.node (files t) n =
    if Ramfs64.valid n (files s) then Ramfs64.set_openers (Ramfs64.n_openers (Ramfs64.node (files s) n) + cn n) (Ramfs64.node (files s) n)
    else Ramfs64.node (files s) n;
  rf_heap : Pipe64.heap (pipes t) = Pipe64.heap (pipes s);
  rf_pipes : zlen (Pipe64.pipes (pipes t)) = zlen (Pipe64.pipes (pipes s));
  rf_pipe p : 0 <= p < Pipe64.PIPE64_MAX -> Pipe64.pipe (pipes t) p =
    if Pipe64.pipe64_valid p (pipes s) then Pipe64.set_ends (Pipe64.p_readers (Pipe64.pipe (pipes s) p) + cr p)
      (Pipe64.p_writers (Pipe64.pipe (pipes s) p) + cw p) (Pipe64.pipe (pipes s) p)
    else Pipe64.pipe (pipes s) p
}.

(** The static tables have their sizes. *)
Definition tables_sized s : Prop :=
  zlen (Ramfs64.nodes (files s)) = Ramfs64.RAMFS64_MAX_NODES /\ zlen (Pipe64.pipes (pipes s)) = Pipe64.PIPE64_MAX.

Definition plus_at (n : Z) (b : bool) (c : Z -> Z) (m : Z) : Z := if b && (m =? n) then c m + 1 else c m.

Lemma refs_ext cn cr cw cn' cr' cw' s t : refs cn cr cw s t ->
  (forall n, Ramfs64.valid n (files s) = true -> cn n = cn' n) ->
  (forall p, Pipe64.pipe64_valid p (pipes s) = true -> cr p = cr' p /\ cw p = cw' p) -> refs cn' cr' cw' s t.
Proof.
  intros [R1 R2 R3 R4 R5] En Ep. split; try done.
  - intros n Hn. rewrite R2 by done. destruct (Ramfs64.valid n _) eqn:Hv; [|done]. by rewrite En.
  - intros p Hp. rewrite R5 by done. destruct (Pipe64.pipe64_valid p _) eqn:Hv; [|done]. by destruct (Ep p Hv) as [<- <-].
Qed.

Lemma refs_valid_node cn cr cw s t n : refs cn cr cw s t -> Ramfs64.valid n (files t) = Ramfs64.valid n (files s).
Proof.
  intros R. unfold Ramfs64.valid. destruct (rf_files _ _ _ _ _ R) as (ns & E & _). rewrite E at 1. cbn [Ramfs64.table Ramfs64.set_nodes].
  destruct (Ramfs64.in_range n) eqn:Hr; [|by rewrite !andb_false_r]. unfold Ramfs64.in_range in Hr. zbool.
  rewrite (rf_node _ _ _ _ _ R) by lia. by destruct (Ramfs64.valid n (files s)).
Qed.

Lemma refs_valid_pipe cn cr cw s t p : refs cn cr cw s t -> Pipe64.pipe64_valid p (pipes t) = Pipe64.pipe64_valid p (pipes s).
Proof.
  intros R. unfold Pipe64.pipe64_valid. destruct ((0 <=? p) && (p <? Pipe64.PIPE64_MAX)) eqn:Hr; [|done]. zbool.
  rewrite (rf_pipe _ _ _ _ _ R) by lia. by destruct (Pipe64.pipe64_valid p (pipes s)).
Qed.

Lemma refs_refl s : refs (fun _ => 0) (fun _ => 0) (fun _ => 0) s s.
Proof.
  split; try done.
  - exists (Ramfs64.nodes (files s)). split; [by destruct (files s)|done].
  - intros n _. rewrite Z.add_0_r. destruct (Ramfs64.valid _ _); [by destruct (Ramfs64.node _ _)|done].
  - intros p _. rewrite !Z.add_0_r. destruct (Pipe64.pipe64_valid _ _); [by destruct (Pipe64.pipe _ _)|done].
Qed.

Lemma refs_same cn cr cw s t t' : refs cn cr cw s t -> pipes t' = pipes t -> refs cn cr cw s t'.
Proof. intros [R1 R2 R3 R4 R5] E. split; unfold files in *; rewrite ?E; done. Qed.

Lemma refs_base cn cr cw s s1 t : refs cn cr cw s1 t -> pipes s1 = pipes s -> refs cn cr cw s t.
Proof. intros [R1 R2 R3 R4 R5] E. unfold files in *. rewrite E in *. by split. Qed.

Lemma refs_node cn cr cw s t n : tables_sized s -> refs cn cr cw s t -> refs (plus_at n true cn) cr cw s (ref_node n t).
Proof.
  intros [Hz _] R. pose proof R as [(ns & E & L) R2 R3 R4 R5]. unfold ref_node, Ramfs64.ramfs64_ref_node. rewrite (refs_valid_node _ _ _ _ _ n R).
  destruct (Ramfs64.valid n (files s)) eqn:Hv.
  - assert (0 <= n < Ramfs64.RAMFS64_MAX_NODES) as Hn by (unfold Ramfs64.valid, Ramfs64.in_range in Hv; zbool; lia). split; try done.
    + exists (zset ns n (Ramfs64.set_openers (Ramfs64.n_openers (Ramfs64.node (files t) n) + 1) (Ramfs64.node (files t) n))).
      split; [|by rewrite zlen_zset]. unfold files at 1. cbn [pipes set_pipes Pipe64.nodes Pipe64.set_nodes]. unfold Ramfs64.upd. by rewrite E.
    + intros m Hm. unfold files at 1. cbn [pipes set_pipes Pipe64.nodes Pipe64.set_nodes]. unfold Ramfs64.node at 1, Ramfs64.upd. cbn [Ramfs64.nodes Ramfs64.set_nodes].
      assert (Ramfs64.nodes (files t) = ns) as En by (by rewrite E).
      rewrite zget_zset by (rewrite ?En, ?L, ?Hz; lia). unfold plus_at. rewrite (Z.eqb_sym m n). cbn [andb]. destruct (Z.eqb_spec n m) as [->|]; [|by apply R2].
      rewrite (R2 m Hm), Hv. cbn. by rewrite <-Z.add_assoc.
  - apply (refs_ext cn cr cw); [|intros m Hm|done].
    + apply (refs_same _ _ _ _ t); [done|]. cbn. unfold files. by destruct (pipes t).
    + unfold plus_at. cbn [andb]. destruct (Z.eqb_spec m n) as [->|]; [congruence|done].
Qed.

Lemma refs_pipe cn cr cw s t p rd wr : tables_sized s -> refs cn cr cw s t ->
  refs cn (plus_at p rd cr) (plus_at p wr cw) s (ref_pipe p rd wr t).
Proof.
  intros [_ Hz] R. pose proof R as [R1 R2 R3 R4 R5]. unfold ref_pipe, Pipe64.pipe64_ref. rewrite (refs_valid_pipe _ _ _ _ _ p R).
  destruct (Pipe64.pipe64_valid p (pipes s)) eqn:Hv; cbn [negb].
  - assert (0 <= p < Pipe64.PIPE64_MAX) as Hp by (unfold Pipe64.pipe64_valid in Hv; zbool; lia). split; try done.
    + cbn. by rewrite zlen_zset.
    + intros m Hm. cbn [pipes set_pipes]. unfold Pipe64.pipe at 1, Pipe64.put. cbn [Pipe64.pipes Pipe64.set_pipes].
      rewrite zget_zset by (rewrite ?R4, ?Hz; lia). unfold plus_at. rewrite !(Z.eqb_sym m p). destruct (Z.eqb_spec p m) as [->|].
      * rewrite (R5 m Hm), Hv. cbn. by destruct rd, wr; cbn; rewrite ?Z.add_assoc.
      * rewrite !andb_false_r. by apply R5.
  - apply (refs_ext cn cr cw); [by destruct t|done|]. intros m Hm. unfold plus_at.
    destruct (Z.eqb_spec m p) as [->|]; [congruence|]. by rewrite !andb_false_r.
Qed.

(** What a descriptor refers to. *)
Definition on_file (n : Z) (d : proc_fd) : bool := d_used d && (d_kind d =? FD64_FILE) && (d_node d =? n).
Definition reads_pipe (p : Z) (d : proc_fd) : bool := d_used d && negb (d_kind d =? FD64_FILE) && (d_rx d =? p).
Definition writes_pipe (p : Z) (d : proc_fd) : bool := d_used d && negb (d_kind d =? FD64_FILE) && (d_tx d =? p).

(** How many of the first [k] descriptors do. *)
Definition fds_count (k : nat) (P : proc_fd -> bool) (l : list proc_fd) : Z := count_up k 0 (fun f => P (zget l f)).

Lemma fds_count_S k P l : fds_count (S k) P l = (if P (zget l (Z.of_nat k)) then fds_count k P l + 1 else fds_count k P l).
Proof. unfold fds_count. rewrite count_up_S, Z.add_0_l. destruct (P _); lia. Qed.

(** ** Forking *)

(** The child once [k] descriptors are copied. *)
Record forked (parent child : Z) s (k : nat) (t : pst H A) : Prop := {
  fk_fds : exists l, procs t = zset (procs s) child (set_fds l (proc s child)) /\ zlen l = PROC64_FD_MAX /\
    forall j, 0 <= j < Z.of_nat k -> zget l j = zget (p_fds (proc s parent)) j;
  fk_rest : current_pid t = current_pid s /\ next_pid t = next_pid s /\ reaped_signal t = reaped_signal s;
  fk_refs : refs (fun n => fds_count k (on_file n) (p_fds (proc s parent))) (fun p => fds_count k (reads_pipe p) (p_fds (proc s parent)))
    (fun p => fds_count k (writes_pipe p) (p_fds (proc s parent))) s t
}.

Lemma fork_fd_spec s parent child k t : zlen (procs s) = PROC64_MAX -> tables_sized s -> slot parent -> slot child -> parent <> child ->
  (k < NFD)%nat -> forked parent child s k t -> forked parent child s (S k) (fork_fd parent child (Z.of_nat k) t).
Proof.
  intros Hl Hz Hp Hc Hne Hk [(l & Epr & Hll & Hg) (E1 & E2 & E3) R].
  assert (proc t parent = proc s parent) as Eparent.
  { unfold proc. rewrite Epr, zget_zset by (rewrite ?Hl; first [apply Hc|apply Hp]). by rewrite (proj2 (Z.eqb_neq child parent)) by done. }
  assert (proc t child = set_fds l (proc s child)) as Echild.
  { unfold proc at 1. rewrite Epr, zget_zset, Z.eqb_refl by (rewrite ?Hl; apply Hc). done. }
  unfold fork_fd. rewrite Eparent. set (d := zget (p_fds (proc s parent)) (Z.of_nat k)).
  set (t1 := upd child _ t).
  assert (forked parent child s k t1 /\ exists l', procs t1 = zset (procs s) child (set_fds l' (proc s child)) /\ zlen l' = PROC64_FD_MAX /\
    forall j, 0 <= j < Z.of_nat (S k) -> zget l' j = zget (p_fds (proc s parent)) j) as [[_ F2 F3] F1'].
  { assert (procs t1 = zset (procs s) child (set_fds (zset l (Z.of_nat k) d) (proc s child))) as E.
    { unfold t1, upd. cbn [procs set_procs]. rewrite Echild, Epr. unfold zset at 1 2. by rewrite list_insert_insert_eq. }
    assert (forall j, 0 <= j < Z.of_nat (S k) -> zget (zset l (Z.of_nat k) d) j = zget (p_fds (proc s parent)) j) as Hg'.
    { intros j Hj. rewrite zget_zset by (rewrite ?Hll; unfold NFD, PROC64_FD_MAX in *; lia).
      destruct (Z.eqb_spec (Z.of_nat k) j) as [<-|]; [done|]. apply Hg. lia. }
    split; [split|]; try done.
    - eexists. split; [exact E|]. split; [by rewrite zlen_zset|]. intros j Hj. apply Hg'. lia.
    - by apply (refs_same _ _ _ _ t).
    - eexists. split; [exact E|]. split; [by rewrite zlen_zset|]. done. }
  assert (forall t2, procs t2 = procs t1 -> current_pid t2 = current_pid t1 -> next_pid t2 = next_pid t1 -> reaped_signal t2 = reaped_signal t1 ->
    refs (fun n => fds_count (S k) (on_file n) (p_fds (proc s parent))) (fun p => fds_count (S k) (reads_pipe p) (p_fds (proc s parent)))
      (fun p => fds_count (S k) (writes_pipe p) (p_fds (proc s parent))) s t2 -> forked parent child s (S k) t2) as Hwrap.
  { intros t2 G1 G2 G3 G4 G5. split; [by rewrite G1|by rewrite G2, G3, G4|done]. }
  destruct (d_used d) eqn:Hu; cbn [negb]; [destruct (d_kind d =? FD64_FILE) eqn:Hkd|]; apply Hwrap; try done.
  - eapply refs_ext; [by apply refs_node| |]; cbv beta; [intros n Hn|intros p Hpv]; rewrite !fds_count_S; fold d; unfold plus_at, on_file, reads_pipe, writes_pipe;
      rewrite Hu, Hkd; cbn [andb negb]; [by rewrite (Z.eqb_sym n)|done].
  - eapply refs_ext; [by apply refs_pipe, refs_pipe| |]; cbv beta; [intros n Hn|intros p Hpv]; rewrite !fds_count_S; fold d; unfold plus_at, on_file, reads_pipe, writes_pipe;
      rewrite Hu, Hkd; cbn [andb negb]; [done|]. by rewrite !(Z.eqb_sym p).
  - eapply refs_ext; [done| |]; cbv beta; [intros n Hn|intros p Hpv]; rewrite !fds_count_S; fold d; unfold on_file, reads_pipe, writes_pipe;
      by rewrite Hu.
Qed.

Lemma fork_loop_spec s parent child n : procs_ok s -> tables_sized s -> slot parent -> slot child -> parent <> child -> (n <= NFD)%nat ->
  forked parent child s n (for_up n 0 (fork_fd parent child) s).
Proof.
  intros Hok Hz Hp Hc Hne Hn. pose proof (for_up_ind (fun j t => forked parent child s (Z.to_nat j) t) (fork_fd parent child) n 0 s) as Hind.
  cbv beta in Hind. rewrite Z.add_0_l, Nat2Z.id in Hind. apply Hind; clear Hind.
  - split; [|done|by apply refs_refl]. exists (p_fds (proc s child)). split; [|split; [by apply (po_fds _ Hok)|intros; lia]].
    transitivity (zset (procs s) child (proc s child)); [symmetry; apply zset_id|f_equal; by destruct (proc s child)].
  - intros j t Hj Ht. rewrite Z2Nat.inj_add, Nat.add_1_r by lia. rewrite <-(Z2Nat.id j) at 2 by lia.
    apply fork_fd_spec; [apply (po_len _ Hok)|exact Hz|exact Hp|exact Hc|exact Hne|lia|exact Ht].
Qed.

Lemma fork_fds_spec s parent child : procs_ok s -> tables_sized s -> slot parent -> slot child -> parent <> child ->
  forked parent child s NFD (fork_fds parent child s).
Proof. intros. by apply fork_loop_spec. Qed.

(** What a child of [p] starts as. *)
Definition child_of (p : proc64) (pid : Z) : proc64 :=
  mkProc true pid (p_pid p) false 0 0 0 0 (p_brk_base p) (p_brk_current p) (p_mmap_next p) (p_resv p) (p_fds p)
    (Ramfs64.cut PROC64_PATH_MAX (p_exe_path p)) (Ramfs64.cut COMM_LEN (p_comm p)) (Ramfs64.cut PROC64_PATH_MAX (p_cwd p)).

(** The child [c] once it has copied the rest of [p]. *)
Definition inherit (p c : proc64) : proc64 :=
  mkProc (p_used c) (p_pid c) (p_pid p) (p_exited c) (p_exit_status c) (p_term_sig c) (p_vfork_parent c) (p_space c) (p_brk_base p) (p_brk_current p)
    (p_mmap_next p) (p_resv p) (p_fds c) (Ramfs64.cut PROC64_PATH_MAX (p_exe_path p)) (Ramfs64.cut COMM_LEN (p_comm p)) (Ramfs64.cut PROC64_PATH_MAX (p_cwd p)).

Lemma fork_rest_eq s i k : zlen (procs s) = PROC64_MAX -> slot k -> fork_rest i k s = upd k (inherit (proc s i)) s.
Proof.
  intros Hl Hk. unfold fork_rest. generalize (proc s i) as p. intros p. cbv zeta.
  rewrite !upd_twice by first [exact Hk|rewrite ?upd_len; exact Hl]. done.
Qed.

Lemma inherit_child p pid : inherit p (set_fds (p_fds p) (fresh_proc pid)) = child_of p pid.
Proof. done. Qed.

Lemma child_fds p pid : p_fds (child_of p pid) = p_fds p.
Proof. done. Qed.

Lemma fresh_fds pid : zlen (p_fds (fresh_proc pid)) = PROC64_FD_MAX.
Proof.
  change (p_fds (fresh_proc pid)) with (replicate NFD no_fd). unfold zlen. by rewrite length_replicate.
Qed.

Lemma create_ok s k : procs_ok s -> next_pid s < 2 ^ 31 - 1 -> slot k -> p_used (proc s k) = false -> forall p,
  p_used p = true -> p_pid p = next_pid s -> zlen (p_fds p) = PROC64_FD_MAX ->
  forall s', zlen (procs s') = PROC64_MAX -> next_pid s' = next_pid s + 1 ->
  (forall j, slot j -> proc s' j = if k =? j then p else proc s j) -> procs_ok s'.
Proof.
  intros [O1 O2 O3 O4 O5] Hn Hk Hf p Hu Hp Hl s' Hl' Hn' Hs. split; [done|..].
  - intros i Hi. rewrite Hs by done. destruct (k =? i); [done|by apply O2].
  - intros i Hi. rewrite Hs, Hn' by done. destruct (k =? i); [lia|]. intros Hui. specialize (O3 i Hi Hui). lia.
  - intros i j Hi Hj. rewrite !Hs by done. destruct (Z.eqb_spec k i) as [<-|], (Z.eqb_spec k j) as [<-|]; [done|..].
    + intros _ Huj E. specialize (O3 j Hj Huj). lia.
    + intros Hui _ E. specialize (O3 i Hi Hui). lia.
    + by apply O4.
  - lia.
Qed.

Lemma fork_made s pid i k : procs_ok s -> tables_sized s -> next_pid s < 2 ^ 31 - 1 -> slot_for pid s = Some i ->
  find_up NPROC 0 (fun i => negb (p_used (proc s i))) = Some k ->
  exists s', proc64_fork_from pid s = Some (next_pid s, s') /\
    slot k /\ p_used (proc s k) = false /\ slot_for (next_pid s) s = None /\ slot_for (next_pid s) s' = Some k /\
    proc s' k = child_of (proc s i) (next_pid s) /\ (forall j, slot j -> j <> k -> proc s' j = proc s j) /\ procs_ok s' /\
    refs (fun n => fds_count NFD (on_file n) (p_fds (proc s i))) (fun p => fds_count NFD (reads_pipe p) (p_fds (proc s i)))
      (fun p => fds_count NFD (writes_pipe p) (p_fds (proc s i))) s s'.
Proof.
  intros Hok Hz Hn Ei Ek. pose proof (po_len _ Hok) as Hl. unfold proc64_fork_from. rewrite Ei, create_eq, Ek by done.
  pose proof (slot_for_Some _ _ _ Ei) as (Hi & Hui & Hpi). apply free_slot_Some in Ek as [Hk Huk].
  assert (i <> k) as Hik by congruence. pose proof (po_next _ Hok) as Hn0. rewrite (proj2 (Z.ltb_ge _ _)) by lia.
  assert (i32 (next_pid s + 1) = next_pid s + 1) as ->.
  { unfold i32. rewrite u32_small by lia. by rewrite (proj2 (Z.ltb_lt _ _)) by lia. }
  set (s1 := set_next_pid _ _).
  assert (forall j, slot j -> proc s1 j = if k =? j then fresh_proc (next_pid s) else proc s j) as Hs1.
  { intros j Hj. apply (proc_upd s); [done|done|apply Hj]. }
  assert (procs_ok s1) as Hok1.
  { apply (create_ok s k Hok Hn Hk Huk (fresh_proc (next_pid s)));
      [done|done|apply fresh_fds|exact (eq_trans (upd_len s k _) Hl)|done|exact Hs1]. }
  assert (next_pid s1 = next_pid s + 1) as En1 by done. assert (pipes s1 = pipes s) as Ep1 by done. clearbody s1.
  assert (slot_for (next_pid s) s1 = Some k) as Ek1 by (apply slot_for_own; rewrite ?Hs1, ?Z.eqb_refl; done). rewrite Ek1.
  assert (proc s1 i = proc s i) as Ei1 by (rewrite Hs1 by done; by rewrite (proj2 (Z.eqb_neq k i)) by done).
  assert (forked i k s1 NFD (fork_fds i k s1)) as [(l & Epr & Hll & Hg) (E1 & E2 & E3) R].
  { apply fork_fds_spec; try done. unfold tables_sized, files in *. by rewrite Ep1. }
  assert (l = p_fds (proc s i)) as ->.
  { apply zlist_eq; [by rewrite Hll, (po_fds _ Hok)|]. intros j Hj. rewrite <-Ei1. apply Hg. unfold NFD. rewrite Hll in Hj. rewrite Z2Nat.id; [done|]. by unfold PROC64_FD_MAX. }
  set (t := fork_fds _ _ _) in *. clearbody t. assert (zlen (procs t) = PROC64_MAX) as Hlt by (rewrite Epr, zlen_zset; apply Hok1).
  assert (proc t i = proc s i) as Eti.
  { unfold proc at 1. rewrite Epr, (zget_zset_ne _ k i _ (proj1 Hk) (proj1 Hi) (not_eq_sym Hik)). exact Ei1. }
  assert (proc t k = set_fds (p_fds (proc s i)) (fresh_proc (next_pid s))) as Etk.
  { unfold proc at 1. rewrite Epr, zget_zset_eq by (rewrite (po_len _ Hok1); apply Hk). by rewrite Hs1, Z.eqb_refl. }
  rewrite fork_rest_eq by done. rewrite Eti. eexists. split; [done|].
  set (s' := upd k _ t).
  assert (forall j, slot j -> proc s' j = if k =? j then child_of (proc s i) (next_pid s) else proc s j) as Hs'.
  { intros j Hj. unfold s'. rewrite (proc_upd t k j _ Hlt Hk (proj1 Hj)). destruct (Z.eqb_spec k j) as [<-|Hkj]; [by rewrite Etk, inherit_child|].
    unfold proc at 1. rewrite Epr, (zget_zset_ne _ k j _ (proj1 Hk) (proj1 Hj) Hkj).
    change (zget (procs s1) j) with (proc s1 j). rewrite Hs1 by done. by rewrite (proj2 (Z.eqb_neq k j)) by done. }
  assert (next_pid s' = next_pid s + 1) as En' by (unfold s'; by rewrite upd_next_pid, E2).
  assert (pipes s' = pipes t) as Ep' by (unfold s'; by rewrite upd_pipes).
  assert (zlen (procs s') = PROC64_MAX) as Hl' by exact (eq_trans (upd_len t k _) Hlt). clearbody s'.
  assert (procs_ok s') as Hok'.
  { apply (create_ok s k Hok Hn Hk Huk (child_of (proc s i) (next_pid s)));
      [done|done|rewrite child_fds; by apply (po_fds _ Hok)|exact Hl'|exact En'|exact Hs']. }
  split_and!; try done.
  - apply slot_for_None. intros j Hj Huj. pose proof (po_pid _ Hok j Hj Huj). lia.
  - apply slot_for_own; rewrite ?Hs', ?Z.eqb_refl; done.
  - by rewrite Hs', Z.eqb_refl.
  - intros j Hj Hjk. rewrite Hs' by done. by rewrite (proj2 (Z.eqb_neq k j)) by done.
  - rewrite Ei1 in R. exact (refs_same _ _ _ _ t _ (refs_base _ _ _ _ _ _ R Ep1) Ep').
Qed.

(** C14: a fork makes exactly one new process, under a pid nobody had: it has
    its parent's descriptors, memory layout, name and directory, is not
    exited, and every node and pipe end has gained one reference for each
    descriptor copied - no other process, file or pipe has changed.  It fails,
    changing nothing, only when the parent is not there or the table is full. *)
Theorem proc64_fork_inherits s pid : procs_ok s -> tables_sized s -> next_pid s < 2 ^ 31 - 1 ->
  exists r s', proc64_fork_from pid s = Some (r, s') /\
    ((r = -1 /\ s' = s /\ (slot_for pid s = None \/ forall i, slot i -> p_used (proc s i) = true)) \/
     (exists i k, slot_for pid s = Some i /\ slot k /\ p_used (proc s k) = false /\ slot_for r s = None /\ slot_for r s' = Some k /\
        proc s' k = child_of (proc s i) r /\ (forall j, slot j -> j <> k -> proc s' j = proc s j) /\ procs_ok s' /\
        refs (fun n => fds_count NFD (on_file n) (p_fds (proc s i))) (fun p => fds_count NFD (reads_pipe p) (p_fds (proc s i)))
          (fun p => fds_count NFD (writes_pipe p) (p_fds (proc s i))) s s')).
Proof.
  intros Hok Hz Hn. destruct (slot_for pid s) as [i|] eqn:Ei.
  2: { eexists _, _. split; [unfold proc64_fork_from; by rewrite Ei|]. left. split_and!; [done|done|by left]. }
  destruct (find_up NPROC 0 (fun i => negb (p_used (proc s i)))) as [k|] eqn:Ek.
  - destruct (fork_made s pid i k Hok Hz Hn Ei Ek) as (s' & Hr & ?). exists (next_pid s), s'. split; [done|]. right. by exists i, k.
  - eexists _, _. split; [unfold proc64_fork_from; by rewrite Ei, create_eq, Ek by apply Hok|]. left. split_and!; [done|done|]. right. by apply free_slot_None.
Qed.

(** ** Ending *)

Lemma upd_ok s i f : procs_ok s -> slot i -> zlen (p_fds (f (proc s i))) = PROC64_FD_MAX -> p_pid (f (proc s i)) = p_pid (proc s i) ->
  (p_used (f (proc s i)) = true -> p_used (proc s i) = true) -> procs_ok (upd i f s).
Proof.
  intros [O1 O2 O3 O4 O5] Hi Hl Hp Hu.
  assert (forall j, slot j -> proc (upd i f s) j = if i =? j then f (proc s i) else proc s j) as Hs by (intros j Hj; apply proc_upd; [done|done|apply Hj]).
  assert (forall j, slot j -> p_pid (proc (upd i f s) j) = p_pid (proc s j)) as Hpid.
  { intros j Hj. rewrite Hs by done. by destruct (Z.eqb_spec i j) as [<-|]. }
  assert (forall j, slot j -> p_used (proc (upd i f s) j) = true -> p_used (proc s j) = true) as Hused.
  { intros j Hj. rewrite Hs by done. by destruct (Z.eqb_spec i j) as [<-|]. }
  split; rewrite ?upd_len, ?upd_next_pid; [done|..|done].
  - intros j Hj. rewrite Hs by done. destruct (i =? j); [done|by apply O2].
  - intros j Hj Huj. rewrite Hpid by done. by apply O3, Hused.
  - intros j k Hj Hk Huj Huk. rewrite !Hpid by done. by apply O4; try apply Hused.
Qed.

Lemma free_ok s i : procs_ok s -> slot i -> procs_ok (upd i (set_used false) s).
Proof. intros Hok Hi. apply upd_ok; [done|done|by apply (po_fds _ Hok)|done|done]. Qed.

Lemma set_signal_ok s v : procs_ok s -> procs_ok (set_reaped_signal v s).
Proof. by intros [O1 O2 O3 O4 O5]. Qed.

Lemma free_gone s i : procs_ok s -> slot i -> p_used (proc s i) = true -> slot_for (p_pid (proc s i)) (upd i (set_used false) s) = None.
Proof.
  intros Hok Hi Hu. apply slot_for_None. intros j Hj. rewrite (proc_upd s i j _ (po_len _ Hok) Hi (proj1 Hj)).
  destruct (Z.eqb_spec i j) as [<-|Hne]; [done|]. intros Huj E. by apply Hne, (po_own _ Hok).
Qed.

(** Reaping frees the first exited child that is asked for, and answers its
    pid, its status and its signal; if there is none, nothing is freed. *)
Theorem proc64_reap_child_one s parent want : procs_ok s ->
  (exists i, slot i /\ p_exited (proc s i) = true /\ wanted parent want (proc s i) = true /\
     proc64_reap_child_pid parent want s = (p_pid (proc s i), Some (p_exit_status (proc s i)), upd i (set_used false) (set_reaped_signal (p_term_sig (proc s i)) s)) /\
     slot_for (p_pid (proc s i)) s = Some i /\ slot_for (p_pid (proc s i)) (upd i (set_used false) (set_reaped_signal (p_term_sig (proc s i)) s)) = None) \/
  (proc64_reap_child_pid parent want s = (-1, None, set_reaped_signal 0 s) /\
   forall i, slot i -> p_exited (proc s i) = true -> wanted parent want (proc s i) = false).
Proof.
  intros Hok. unfold proc64_reap_child_pid. destruct (find_up _ _ _) as [i|] eqn:E.
  - left. exists i. apply find_up_Some in E as (Hi & [He Hw]%andb_true_iff & _).
    assert (slot i) as Hs by (unfold slot, NPROC, PROC64_MAX in *; lia). pose proof Hw as Hw'. unfold wanted in Hw. zbool.
    split_and!; try done; [by apply slot_for_own|]. apply (free_gone (set_reaped_signal _ s)); [by apply set_signal_ok|done|done].
  - right. split; [done|]. intros i Hi He. rewrite find_up_None in E. specialize (E i ltac:(unfold slot, NPROC, PROC64_MAX in *; lia)).
    cbv beta in E. by rewrite He in E.
Qed.

(** The end of a process, by [exit] or by a signal. *)
Definition ended (pid : Z) (by_signal : bool) (code : Z) s : pst H A :=
  if by_signal then proc64_exit_signalled pid code s else proc64_exit pid code s.

Lemma ended_eq s pid i sg code : procs_ok s -> slot_for pid s = Some i ->
  exists f, ended pid sg code s = upd i f s /\ p_used (f (proc s i)) = true /\ p_pid (f (proc s i)) = pid /\ p_parent (f (proc s i)) = p_parent (proc s i) /\
    p_exited (f (proc s i)) = true /\ p_exit_status (f (proc s i)) = (if sg then 128 + code else code) /\
    p_term_sig (f (proc s i)) = (if sg then code else p_term_sig (proc s i)) /\ p_fds (f (proc s i)) = p_fds (proc s i).
Proof.
  intros Hok E. pose proof (slot_for_Some _ _ _ E) as (Hi & Hu & Hp). unfold ended, proc64_exit_signalled. destruct sg.
  - rewrite E. unfold proc64_exit.
    assert (procs_ok (upd i (set_term_sig code) s)) as Hok1 by (apply upd_ok; [done|done|by apply (po_fds _ Hok)|done|done]).
    assert (slot_for pid (upd i (set_term_sig code) s) = Some i) as ->.
    { apply slot_for_own; [done|done|..]; by rewrite (proc_upd s i i _ (po_len _ Hok) Hi (proj1 Hi)), Z.eqb_refl. }
    rewrite upd_twice by (done || apply Hok). by eexists.
  - unfold proc64_exit. rewrite E. by eexists.
Qed.

(** C20: a parent that waits for a child learns exactly how it ended.  While
    the child runs it is not reaped, and it is known to be there; once it has
    exited, or a signal has ended it, waiting for its pid answers that pid,
    its status and its signal, frees that slot and no other, and afterwards
    the pid is gone and cannot be reaped again. *)
Theorem proc64_wait_tells s pid i sg code : procs_ok s -> slot_for pid s = Some i -> p_exited (proc s i) = false -> p_term_sig (proc s i) = 0 ->
  proc64_reap_child_pid (p_parent (proc s i)) pid s = (-1, None, set_reaped_signal 0 s) /\
  proc64_has_child (p_parent (proc s i)) pid s = true /\
  exists s', proc64_reap_child_pid (p_parent (proc s i)) pid (ended pid sg code s) = (pid, Some (if sg then 128 + code else code), s') /\
    proc64_reaped_signal s' = (if sg then code else 0) /\ procs_ok s' /\ slot_for pid s' = None /\
    p_used (proc s' i) = false /\ (forall j, slot j -> j <> i -> proc s' j = proc s j) /\ pipes s' = pipes s /\
    proc64_reap_child_pid (p_parent (proc s i)) pid s' = (-1, None, set_reaped_signal 0 s').
Proof.
  intros Hok E Hex Hsig. pose proof (slot_for_Some _ _ _ E) as (Hi & Hu & Hp). pose proof (po_pid _ Hok i Hi Hu) as Hpos. rewrite Hp in Hpos.
  assert (forall p q, wanted q pid p = true -> p_used p = true /\ p_pid p = pid) as Hw.
  { intros p q Hq. unfold wanted in Hq. rewrite (proj2 (Z.ltb_lt 0 pid)) in Hq by lia. cbn [andb] in Hq. zbool. done. }
  split; [|split].
  - destruct (proc64_reap_child_one s (p_parent (proc s i)) pid Hok) as [(j & Hj & He & Hwj & _)|[-> _]]; [|done].
    apply Hw in Hwj as [Huj Hpj]. assert (j = i) as -> by (apply (po_own _ Hok); congruence). congruence.
  - unfold proc64_has_child. destruct (find_up _ _ _) eqn:F; [done|]. rewrite find_up_None in F. specialize (F i ltac:(unfold slot, NPROC, PROC64_MAX in *; lia)).
    cbv beta in F. unfold wanted in F. by rewrite Hu, Hp, !Z.eqb_refl, andb_false_r in F.
  - destruct (ended_eq s pid i sg code Hok E) as (f & -> & F1 & F2 & F3 & F4 & F5 & F6 & F7).
    assert (procs_ok (upd i f s)) as Hok1 by (apply upd_ok; [done|done|rewrite F7; by apply (po_fds _ Hok)|congruence|done]).
    assert (proc (upd i f s) i = f (proc s i)) as Ei by (by rewrite (proc_upd s i i _ (po_len _ Hok) Hi (proj1 Hi)), Z.eqb_refl).
    destruct (proc64_reap_child_one (upd i f s) (p_parent (proc s i)) pid Hok1) as [(j & Hj & He & Hwj & Hr & _ & Hgone)|[_ Hnone]].
    2: { specialize (Hnone i Hi). rewrite Ei, F4 in Hnone. specialize (Hnone eq_refl). unfold wanted in Hnone.
         by rewrite F1, F2, F3, !Z.eqb_refl, andb_false_r in Hnone. }
    apply Hw in Hwj as [Huj Hpj]. assert (j = i) as -> by (apply (po_own _ Hok1); rewrite ?Ei; congruence).
    rewrite Ei in Hr, Hgone. rewrite F2 in Hr, Hgone. rewrite F5, F6 in Hr. rewrite F6 in Hgone. eexists. split; [exact Hr|].
    match goal with |- context [upd i (set_used false) ?x] => set (s1 := x) in * end.
    assert (forall j, slot j -> proc (upd i (set_used false) s1) j = if i =? j then set_used false (f (proc s i)) else proc s j) as Hs'.
    { intros j Hj'. rewrite (proc_upd s1 i j _ (eq_trans (upd_len s i f) (po_len _ Hok)) Hi (proj1 Hj')). change (proc s1 ?x) with (proc (upd i f s) x).
      rewrite Ei, (proc_upd s i j _ (po_len _ Hok) Hi (proj1 Hj')). by destruct (i =? j). }
    assert (procs_ok (upd i (set_used false) s1)) as Hok' by (apply free_ok; [by apply set_signal_ok|done]).
    split; [by rewrite <-Hsig; destruct sg|]. split; [done|]. split; [done|]. split; [by rewrite Hs', Z.eqb_refl|].
    split; [intros j Hj' Hne; rewrite Hs' by done; by rewrite (proj2 (Z.eqb_neq i j)) by done|]. split; [done|].
    destruct (proc64_reap_child_one _ (p_parent (proc s i)) pid Hok') as [(j & Hj' & _ & Hwj & _)|[-> _]]; [|done].
    apply Hw in Hwj as [Huj' Hpj']. by destruct (proj1 (slot_for_None _ _) Hgone j Hj' Huj').
Qed.

(** ** Orphans *)

Definition parent_gone (p : proc64) (t : pst H A) : Prop := p_parent p = 0 \/ slot_for (p_parent p) t = None.

(** [t] is [s] with [m] of its orphans released. *)
Record released s (m : Z) (t : pst H A) : Prop := {
  rl_ok : procs_ok t;
  rl_rest : current_pid t = current_pid s /\ next_pid t = next_pid s /\ reaped_signal t = reaped_signal s /\ pipes t = pipes s;
  rl_slots j : slot j -> proc t j = proc s j \/
    (proc t j = set_used false (proc s j) /\ p_used (proc s j) = true /\ p_exited (proc s j) = true /\ p_pid (proc s j) <> current_pid s /\ parent_gone (proc s j) t);
  rl_count : proc64_count t = proc64_count s - m
}.

Lemma orphan_true p s : orphan p s = true <-> p_used p = true /\ p_exited p = true /\ p_pid p <> current_pid s /\ parent_gone p s.
Proof.
  unfold orphan, parent_gone, nz. rewrite !andb_true_iff, negb_true_iff, Z.eqb_neq. destruct (Z.eqb_spec (p_parent p) 0); cbn [negb]; [tauto|].
  destruct (slot_for _ _); [|tauto]. split; [by intros [_ ?]|]. by intros (_ & _ & _ & [|]).
Qed.

Lemma released_free s m t i : released s m t -> slot i -> orphan (proc t i) t = true -> released s (m + 1) (upd i (set_used false) t).
Proof.
  intros [Hok Hr Hs Hc] Hi (Hu & He & Hp & Hg)%orphan_true. pose proof (po_len _ Hok) as Hl. destruct Hr as (R1 & R2 & R3 & R4).
  assert (proc t i = proc s i) as Ei by (destruct (Hs i Hi) as [|(E & _)]; [done|by rewrite E in Hu]).
  assert (forall p, slot_for p t = None -> slot_for p (upd i (set_used false) t) = None) as Hmono.
  { intros p. rewrite !slot_for_None. intros F j Hj. rewrite (proc_upd t i j _ Hl Hi (proj1 Hj)). destruct (Z.eqb_spec i j) as [<-|]; [done|by apply F]. }
  assert (forall p, parent_gone p t -> parent_gone p (upd i (set_used false) t)) as Hgone by (intros p [|]; [by left|right; by apply Hmono]).
  split; [by apply free_ok|done|..].
  - intros j Hj. rewrite (proc_upd t i j _ Hl Hi (proj1 Hj)). destruct (Z.eqb_spec i j) as [<-|Hne].
    + right. rewrite <-Ei, <-R1. split_and!; try done. by apply Hgone.
    + destruct (Hs j Hj) as [|(E1 & E2 & E3 & E4 & E5)]; [by left|]. right. split_and!; try done. by apply Hgone.
  - replace (proc64_count s - (m + 1)) with (proc64_count t - 1) by lia. unfold proc64_count.
    rewrite (count_up_update NPROC 0 (fun j => p_used (proc (upd i (set_used false) t) j)) (fun j => p_used (proc t j)) i).
    + rewrite (proc_upd t i i _ Hl Hi (proj1 Hi)), Z.eqb_refl, Hu. cbn. lia.
    + unfold slot, NPROC, PROC64_MAX in *. lia.
    + intros j Hj Hne. rewrite (proc_upd t i j _ Hl Hi) by lia. by rewrite (proj2 (Z.eqb_neq i j)) by done.
Qed.

(** One pass of the table: it frees orphans, or there are none. *)
Lemma orphan_pass_spec s n t m : released s n t ->
  let '(t', n', changed) := orphan_pass t m in
  released s (n + (n' - m)) t' /\ m <= n' /\ (if changed : bool then m < n' else t' = t /\ n' = m /\ forall i, slot i -> orphan (proc t i) t = false).
Proof.
  intros Hr. unfold orphan_pass.
  pose proof (for_up_ind (fun k st => let '(t', n', changed) := (st : pst H A * Z * bool) in
    released s (n + (n' - m)) t' /\ m <= n' /\ (if changed : bool then m < n' else t' = t /\ n' = m /\ forall i, 0 <= i < k -> orphan (proc t i) t = false))
    (fun i st => let '(s, n, changed) := (st : pst H A * Z * bool) in
       if orphan (proc s i) s then (upd i (set_used false) s, n + 1, true) else st) NPROC 0 (t, m, false)) as Hind.
  cbv beta iota in Hind. match type of Hind with _ -> _ -> match ?x with _ => _ end => set (st := x) in * end. clearbody st.
  assert (let '(t', n', changed) := st in
    released s (n + (n' - m)) t' /\ m <= n' /\ (if changed : bool then m < n' else t' = t /\ n' = m /\ forall i, 0 <= i < 0 + Z.of_nat NPROC -> orphan (proc t i) t = false)) as Hst.
  { apply Hind; clear Hind.
    - split; [by replace (n + (m - m)) with n by lia|]. split; [lia|]. split_and!; [done|done|]. intros. lia.
    - intros k [[t' n'] changed] Hk (Hr' & Hle & Hc). destruct (orphan (proc t' k) t') eqn:Ho.
      + split; [|lia]. replace (n + (n' + 1 - m)) with (n + (n' - m) + 1) by lia. apply released_free; [done|unfold slot, NPROC, PROC64_MAX in *; lia|done].
      + split; [done|]. split; [done|]. destruct changed; [done|]. destruct Hc as (-> & -> & Hc). split_and!; [done|done|].
        intros i Hi. destruct (decide (i = k)) as [->|]; [done|]. apply Hc. lia. }
  destruct st as [[t' n'] changed]. destruct Hst as (? & ? & Hc). split; [done|]. split; [done|]. destruct changed; [done|].
  destruct Hc as (? & ? & Hc). split_and!; [done|done|]. intros i Hi. apply Hc. unfold slot, NPROC, PROC64_MAX in *. lia.
Qed.

Lemma orphan_loop_spec fuel s n t : released s n t -> proc64_count t < Z.of_nat fuel ->
  exists n' t', orphan_loop fuel n t = Some (n', t') /\ released s n' t' /\ forall i, slot i -> orphan (proc t' i) t' = false.
Proof.
  revert n t. induction fuel as [|fuel IH]; intros n t Hr Hf.
  { pose proof (count_up_range NPROC 0 (fun i => p_used (proc t i))). unfold proc64_count in Hf. lia. }
  cbn [orphan_loop]. pose proof (orphan_pass_spec s n t n Hr) as Hp. destruct (orphan_pass t n) as [[t' n'] changed].
  replace (n + (n' - n)) with n' in Hp by lia. destruct Hp as (Hr' & Hle & Hc). destruct changed.
  - apply IH; [done|]. rewrite (rl_count _ _ _ Hr'). rewrite (rl_count _ _ _ Hr) in Hf. lia.
  - destruct Hc as (-> & -> & Hc). by exists n, t.
Qed.

(** C36: the release of orphans ends, however long the chains of exited
    parents.  It frees only exited processes that nobody can wait for any
    more - never the current one, never one whose parent is still in the
    table - and leaves none of those; it answers how many went, and touches
    nothing else. *)
Theorem proc64_release_orphans_ends s : procs_ok s ->
  exists n s', proc64_release_orphans s = Some (n, s') /\ procs_ok s' /\ proc64_count s' = proc64_count s - n /\ pipes s' = pipes s /\
    (forall i, slot i -> orphan (proc s' i) s' = false) /\
    (forall i, slot i -> proc s' i = proc s i \/
       (proc s' i = set_used false (proc s i) /\ p_used (proc s i) = true /\ p_exited (proc s i) = true /\
        p_pid (proc s i) <> current_pid s /\ parent_gone (proc s i) s')).
Proof.
  intros Hok. destruct (orphan_loop_spec (S NPROC) s 0 s) as (n & s' & Hrun & [R1 (R2 & R3 & R4 & R5) R6 R7] & Hnone).
  - split; [done|done|by left|lia].
  - pose proof (count_up_range NPROC 0 (fun i => p_used (proc s i))). unfold proc64_count. lia.
  - exists n, s'. done.
Qed.
End spec.

(** ** A small system

    Process 1 has a file, and both ends of a pipe; process 2 is its exited
    child, and process 3 the exited child of process 2. *)

#[local] Existing Instances Pmm64.pmm64_frame_allocator Ramfs64.node64_inhabited Pipe64.pipe64_inhabited.

#[local] Instance demo_heap : Pipe64.KernelHeap Z.
Proof.
  refine {| Pipe64.kmalloc64 := fun n h => (0, h); Pipe64.kfree64 := fun _ h => h;
            Pipe64.block_bytes := fun _ _ n => replicate (Z.to_nat n) 0 |}.
  intros. unfold zlen. rewrite length_replicate. lia.
Defined.

Definition demo_fds : list proc_fd :=
  mkPfd FD64_FILE 0 5 0 (-1) (-1) (-1) false false true :: mkPfd FD64_PIPE 0 (-1) 0 3 (-1) (-1) false false true ::
  mkPfd FD64_PIPE 0 (-1) 0 (-1) 3 (-1) false false true :: replicate (NFD - 3) no_fd.
Definition demo_proc (pid parent : Z) (ex : bool) (fds : list proc_fd) : proc64 :=
  mkProc true pid parent ex 7 0 0 0 0x600000 0x601000 0x7f0000000000 [] fds [47; 98] [98] [47].
Definition demo_procs : list proc64 :=
  demo_proc 1 0 false demo_fds :: demo_proc 2 1 true (replicate NFD no_fd) :: demo_proc 3 2 true (replicate NFD no_fd) :: replicate (NPROC - 3) no_proc.
Definition demo_file : Ramfs64.node64 := Ramfs64.mkNode [102] 0 0 [] 0 false false 0 0 [] 0 1 false 0 true (-1) (-1).
Definition demo_files : Ramfs64.fs Z Pmm64.pmm :=
  Ramfs64.mkFs 4096 (replicate 5 inhabitant ++ demo_file :: replicate (Ramfs64.NNODES - 6) inhabitant) 6 2 0 0 Pmm64.demo_pmm (fun _ => []).
Definition demo_pipe : Pipe64.pipe64 := Pipe64.mkPipe 4096 [] 0 0 0 1 1 [] 0 0 true.
Definition demo_pst : pst Z Pmm64.pmm :=
  mkPst demo_procs 1 4 0
    (Pipe64.mkP (replicate 3 inhabitant ++ demo_pipe :: replicate (Z.to_nat Pipe64.PIPE64_MAX - 4) inhabitant) 0 demo_files).

Lemma demo_slot i : slot i -> proc demo_pst i = (if i =? 0 then demo_proc 1 0 false demo_fds else
  if i =? 1 then demo_proc 2 1 true (replicate NFD no_fd) else if i =? 2 then demo_proc 3 2 true (replicate NFD no_fd) else no_proc).
Proof.
  intros Hi. unfold proc. change (procs demo_pst) with demo_procs. unfold demo_procs, zget.
  destruct (Z.eqb_spec i 0) as [->|]; [done|]. destruct (Z.eqb_spec i 1) as [->|]; [done|]. destruct (Z.eqb_spec i 2) as [->|]; [done|].
  unfold slot, PROC64_MAX in Hi. replace (Z.to_nat i) with (3 + Z.to_nat (i - 3))%nat by lia. cbn [Nat.add lookup_total list_lookup_total].
  apply lookup_total_replicate_2. unfold NPROC, PROC64_MAX. lia.
Qed.

Lemma demo_fds_len : zlen demo_fds = PROC64_FD_MAX /\ zlen (replicate NFD no_fd) = PROC64_FD_MAX.
Proof. unfold zlen, demo_fds. cbn [length]. rewrite !length_replicate. done. Qed.

Lemma demo_procs_ok : procs_ok demo_pst.
Proof.
  destruct demo_fds_len as [L1 L2]. split.
  - change (procs demo_pst) with demo_procs. unfold zlen, demo_procs. cbn [length]. rewrite length_replicate. done.
  - intros i Hi. rewrite demo_slot by done. by repeat case_match.
  - intros i Hi. rewrite demo_slot by done. change (next_pid demo_pst) with 4. repeat case_match; cbn; first [done|lia].
  - intros i j Hi Hj. rewrite !demo_slot by done. repeat (case_match; zbool; subst); cbn; first [done|lia].
  - done.
Qed.

Lemma demo_tables_sized : tables_sized demo_pst.
Proof.
  split; [change (Ramfs64.nodes (files demo_pst)) with (replicate 5 inhabitant ++ demo_file :: replicate (Ramfs64.NNODES - 6) inhabitant)
         |change (Pipe64.pipes (pipes demo_pst)) with (replicate 3 inhabitant ++ demo_pipe :: replicate (Z.to_nat Pipe64.PIPE64_MAX - 4) inhabitant)];
    unfold zlen; rewrite length_app; cbn [length]; rewrite !length_replicate; done.
Qed.

Lemma demo_slot_for : slot_for 1 demo_pst = Some 0 /\ find_up NPROC 0 (fun i => negb (p_used (proc demo_pst i))) = Some 3.
Proof.
  split.
  - apply slot_for_own; [exact demo_procs_ok|done|..]; by rewrite demo_slot by done.
  - apply find_up_first; [done|by rewrite demo_slot by done|]. intros j Hj. rewrite demo_slot by (unfold slot, PROC64_MAX; lia). repeat (case_match; zbool); try done. lia.
Qed.

Lemma proc64_fork_inherits_witness :
  exists r s', proc64_fork_from 1 demo_pst = Some (r, s') /\
    ((r = -1 /\ s' = demo_pst /\ (slot_for 1 demo_pst = None \/ forall i, slot i -> p_used (proc demo_pst i) = true)) \/
     (exists i k, slot_for 1 demo_pst = Some i /\ slot k /\ p_used (proc demo_pst k) = false /\ slot_for r demo_pst = None /\ slot_for r s' = Some k /\
        proc s' k = child_of (proc demo_pst i) r /\ (forall j, slot j -> j <> k -> proc s' j = proc demo_pst j) /\ procs_ok s' /\
        refs (fun n => fds_count NFD (on_file n) (p_fds (proc demo_pst i))) (fun p => fds_count NFD (reads_pipe p) (p_fds (proc demo_pst i)))
          (fun p => fds_count NFD (writes_pipe p) (p_fds (proc demo_pst i))) demo_pst s')).
Proof. apply proc64_fork_inherits; [exact demo_procs_ok|exact demo_tables_sized|done]. Defined.

Lemma demo_counts : fds_count NFD (on_file 5) demo_fds = 1.
Proof.
  unfold fds_count. change NFD with (3 + (NFD - 3))%nat. rewrite count_up_app.
  change (count_up 3 0 (fun f => on_file 5 (zget demo_fds f))) with 1.
  rewrite (count_up_ext _ _ _ (fun _ => false)).
  - generalize (0 + Z.of_nat 3) as i. induction (NFD - 3)%nat as [|n IH]; intros i; [done|]. cbn [count_up]. specialize (IH (i + 1)). lia.
  - intros j Hj. unfold demo_fds, zget. replace (Z.to_nat j) with (3 + Z.to_nat (j - 3))%nat by lia. cbn [Nat.add lookup_total list_lookup_total].
    match goal with |- on_file 5 ?x = false => assert (x = no_fd) as -> end; [|done].
    apply lookup_total_replicate_2. unfold NFD, PROC64_FD_MAX in *. lia.
Qed.

(** A fork that fails later is undone by [proc64_exit] and
    [proc64_reap_child_pid] (in [do_fork] of [syscall64.c]), which give back
    the slot but not the references: the file keeps two openers with one
    descriptor on it. *)
Example failed_fork_leaks :
  exists c s1, proc64_fork_from 1 demo_pst = Some (c, s1) /\
    let s2 := snd (proc64_reap_child_pid 1 c (proc64_exit c 0 s1)) in
    Ramfs64.n_openers (Ramfs64.node (files demo_pst) 5) = 1 /\ fds_count NFD (on_file 5) (p_fds (proc demo_pst 0)) = 1 /\
    Ramfs64.n_openers (Ramfs64.node (files s2) 5) = 2.
Proof.
  destruct (fork_made demo_pst 1 0 3 demo_procs_ok demo_tables_sized eq_refl) as (s1 & Hr & _ & _ & _ & Ek & _ & _ & Hok & R); [apply demo_slot_for..|].
  exists (next_pid demo_pst), s1. split; [done|]. intros s2.
  assert (proc demo_pst 0 = demo_proc 1 0 false demo_fds) as E0 by (by rewrite demo_slot by done). rewrite E0 in *.
  split; [done|]. split; [apply demo_counts|].
  assert (pipes s2 = pipes s1) as Ep.
  { unfold s2, proc64_exit. rewrite Ek. unfold proc64_reap_child_pid. by destruct (find_up _ _ _). }
  unfold files at 1. rewrite Ep. fold (files s1). rewrite (rf_node _ _ _ _ _ R) by done.
  change (Ramfs64.valid 5 (files demo_pst)) with true. cbv iota. change (p_fds (demo_proc 1 0 false demo_fds)) with demo_fds. rewrite demo_counts. done.
Qed.

Lemma proc64_wait_tells_witness :
  let s := proc64_set_current 2 (upd 1 (set_exited false) demo_pst) in
  p_parent (proc s 1) = 1 /\
  proc64_reap_child_pid (p_parent (proc s 1)) 2 s = (-1, None, set_reaped_signal 0 s) /\
  proc64_has_child (p_parent (proc s 1)) 2 s = true /\
  exists s', proc64_reap_child_pid (p_parent (proc s 1)) 2 (ended 2 true 15 s) = (2, Some (if true then 128 + 15 else 15), s') /\
    proc64_reaped_signal s' = (if true then 15 else 0) /\ procs_ok s' /\ slot_for 2 s' = None /\
    p_used (proc s' 1) = false /\ (forall j, slot j -> j <> 1 -> proc s' j = proc s j) /\ pipes s' = pipes s /\
    proc64_reap_child_pid (p_parent (proc s 1)) 2 s' = (-1, None, set_reaped_signal 0 s').
Proof.
  assert (proc demo_pst 1 = demo_proc 2 1 true (replicate NFD no_fd)) as E1 by (by rewrite demo_slot by done).
  assert (procs_ok (upd 1 (set_exited false) demo_pst)) as Hok.
  { apply upd_ok; [exact demo_procs_ok|done|rewrite E1; exact (proj2 demo_fds_len)|done|done]. }
  assert (proc (upd 1 (set_exited false) demo_pst) 1 = set_exited false (proc demo_pst 1)) as Eu.
  { by rewrite (proc_upd demo_pst 1 1 _ (po_len _ demo_procs_ok)). }
  intros s. assert (proc s 1 = demo_proc 2 1 false (replicate NFD no_fd)) as E by (change (proc s 1) with (proc (upd 1 (set_exited false) demo_pst) 1); by rewrite Eu, E1).
  split; [by rewrite E|]. apply proc64_wait_tells.
  - by destruct Hok.
  - change (slot_for 2 s) with (slot_for 2 (upd 1 (set_exited false) demo_pst)). apply slot_for_own; [done|done|..]; by rewrite Eu, E1.
  - by rewrite E.
  - by rewrite E.
Defined.

Lemma proc64_release_orphans_ends_witness :
  exists n s', proc64_release_orphans demo_pst = Some (n, s') /\ procs_ok s' /\ proc64_count s' = proc64_count demo_pst - n /\ pipes s' = pipes demo_pst /\
    (forall i, slot i -> orphan (proc s' i) s' = false) /\
    (forall i, slot i -> proc s' i = proc demo_pst i \/
       (proc s' i = set_used false (proc demo_pst i) /\ p_used (proc demo_pst i) = true /\ p_exited (proc demo_pst i) = true /\
        p_pid (proc demo_pst i) <> current_pid demo_pst /\ parent_gone (proc demo_pst i) s')).
Proof. apply proc64_release_orphans_ends. exact demo_procs_ok. Defined.
