(* ===== verification/Resv.v ===== *)
(** * Anonymous memory without pages ([kernel/uspace64.c], reservations)

    A process keeps the ranges of its anonymous memory that have no pages yet
    as a sorted array of at most [PROC64_RESV_MAX] regions.  The array is the
    list of its first [nresv] elements.  A region that does not fit is backed
    with pages at once, by [spill_range] (uspace64.c, lines 217-228): a
    parameter here, any function on a state [M] of its own that may fail, since
    it maps pages and this file is about the array.  [resv_add] answers what
    it answers; [resv_remove] drops its answer, as the code does: when the
    array is full and backing fails too, part of the piece is left with
    neither a record nor pages.

    The abstract view is [resv_at]: which flags, if any, an address is
    recorded with. *)

From S2P Require Import Prelude Proc64.

(** ** The array *)

(** The loop of the binary search; [None] is out of fuel. *)
Fixpoint first_after_loop (fuel : nat) (l : list region) (va lo hi : Z) : option Z :=
  match fuel with
  | O => None
  | S fuel' =>
      if negb (lo <? hi) then Some lo else
      let mid := u32 (lo + hi) / 2 in
      if r_end (zget l mid) <=? va then first_after_loop fuel' l va (mid + 1) hi else first_after_loop fuel' l va lo mid
  end.

Definition resv_first_after (l : list region) (va : Z) : option Z := first_after_loop (S (length l)) l va 0 (zlen l).

Definition resv_overlaps (l : list region) (start end_ : Z) : option bool :=
  i ← resv_first_after l start;
  Some ((i <? zlen l) && (r_start (zget l i) <? end_)).

Definition resv_delete (i : Z) (l : list region) : list region :=
  take (Z.to_nat i) l ++ drop (S (Z.to_nat i)) l.

Section resv.
  Context {M : Type} (spill_range : Z -> Z -> Z -> M -> option (bool * M)).

Record rst := mkRst { resv : list region; resv_peak : Z; env : M }.

Definition set_list (l : list region) (s : rst) : rst := mkRst l (resv_peak s) (env s).
Definition set_env (m : M) (s : rst) : rst := mkRst (resv s) (resv_peak s) m.

Definition resv_insert (i : Z) (r : region) (s : rst) : bool * rst :=
  if PROC64_RESV_MAX <=? zlen (resv s) then (false, s) else
  let l := take (Z.to_nat i) (resv s) ++ r :: drop (Z.to_nat i) (resv s) in
  (true, mkRst l (if resv_peak s <? zlen l then zlen l else resv_peak s) (env s)).

Definition spill (start end_ flags : Z) (s : rst) : option (bool * rst) :=
  '(ok, m) ← spill_range start end_ flags (env s);
  Some (ok, set_env m s).

Fixpoint remove_loop (fuel : nat) (i start end_ : Z) (s : rst) : option rst :=
  match fuel with
  | O => None
  | S fuel' =>
      if negb ((i <? zlen (resv s)) && (r_start (zget (resv s) i) <? end_)) then Some s else
      let '(mkRegion rs re fl) := zget (resv s) i in
      if (rs <? start) && (end_ <? re) then
        let s := set_list (zset (resv s) i (mkRegion rs start fl)) s in
        let '(ok, s) := resv_insert (i + 1) (mkRegion end_ re fl) s in
        if (ok : bool) then Some s else '(_, s) ← spill end_ re fl s; Some s
      else if rs <? start then remove_loop fuel' (i + 1) start end_ (set_list (zset (resv s) i (mkRegion rs start fl)) s)
      else if end_ <? re then Some (set_list (zset (resv s) i (mkRegion end_ re fl)) s)
      else remove_loop fuel' i start end_ (set_list (resv_delete i (resv s)) s)
  end.

Definition resv_remove (start end_ : Z) (s : rst) : option rst :=
  i ← resv_first_after (resv s) start;
  remove_loop (S (length (resv s))) i start end_ s.

Definition resv_add (start end_ flags : Z) (s : rst) : option (bool * rst) :=
  i ← resv_first_after (resv s) start;
  let prev := zget (resv s) (i - 1) in
  let next := zget (resv s) i in
  let join_prev := (0 <? i) && (r_end prev =? start) && (r_flags prev =? flags) in
  let join_next := (i <? zlen (resv s)) && (r_start next =? end_) && (r_flags next =? flags) in
  if join_prev && join_next then
    let l := zset (resv s) (i - 1) (mkRegion (r_start prev) (r_end next) (r_flags prev)) in
    Some (true, set_list (resv_delete i l) s)
  else if join_prev then Some (true, set_list (zset (resv s) (i - 1) (mkRegion (r_start prev) end_ (r_flags prev))) s)
  else if join_next then Some (true, set_list (zset (resv s) i (mkRegion start (r_end next) (r_flags next))) s)
  else
    let '(ok, s) := resv_insert i (mkRegion start end_ flags) s in
    if (ok : bool) then Some (true, s) else spill start end_ flags s.
End resv.

Arguments rst : clear implicits.

(** ** What the array stands for *)

Fixpoint resv_at (l : list region) (va : Z) : option Z :=
  match l with
  | [] => None
  | r :: l' => if (r_start r <=? va) && (va <? r_end r) then Some (r_flags r) else resv_at l' va
  end.

(** Sorted, disjoint, no region empty, all of them from [lo] on. *)
Fixpoint sorted_from (lo : Z) (l : list region) : Prop :=
  match l with
  | [] => True
  | r :: l' => lo <= r_start r < r_end r /\ sorted_from (r_end r) l'
  end.

(** Where the last region ends. *)
Definition top_of (lo : Z) (l : list region) : Z := List.last (map r_end l) lo.

(** ** Lists of regions *)

Lemma top_of_app lo l r : top_of lo (l ++ [r]) = r_end r.
Proof. unfold top_of. rewrite map_app. apply List.last_last. Qed.

Lemma top_of_cons lo r l : top_of lo (r :: l) = top_of (r_end r) l.
Proof.
  unfold top_of. destruct l as [|r' l]; [done|]. cbn [map].
  generalize (map r_end l) as k, (r_end r') as a. intros k. induction k as [|b k IH]; intros a; [done|]. exact (IH b).
Qed.

Lemma sorted_app lo l k : sorted_from lo (l ++ k) <-> sorted_from lo l /\ sorted_from (top_of lo l) k.
Proof.
  revert lo. induction l as [|r l IH]; intros lo; cbn [app sorted_from]; [tauto|]. rewrite IH, top_of_cons. tauto.
Qed.

Lemma sorted_weaken lo lo' l : sorted_from lo l -> lo' <= lo -> sorted_from lo' l.
Proof. destruct l; cbn; [done|]. intros [? ?] ?. split; [lia|done]. Qed.

Lemma top_of_ge lo l : sorted_from lo l -> lo <= top_of lo l.
Proof.
  revert lo. induction l as [|r l IH]; intros lo; cbn [sorted_from]; [done|]. intros [? Hs]. rewrite top_of_cons. specialize (IH _ Hs). lia.
Qed.

Lemma resv_at_app l k va : resv_at (l ++ k) va = match resv_at l va with Some f => Some f | None => resv_at k va end.
Proof. induction l as [|r l IH]; cbn; [done|]. by destruct (_ && _). Qed.

Lemma at_before b l va : Forall (fun r => r_end r <= b) l -> b <= va -> resv_at l va = None.
Proof.
  intros HF Hva. induction HF as [|r l Hr _ IH]; [done|]. cbn. rewrite (proj2 (Z.ltb_ge va (r_end r))) by lia. by rewrite andb_false_r.
Qed.

Lemma at_after lo l va : sorted_from lo l -> va < lo -> resv_at l va = None.
Proof.
  revert lo. induction l as [|r l IH]; intros lo; cbn; [done|]. intros [Hr Hs] Hva. rewrite (proj2 (Z.leb_gt (r_start r) va)) by lia. cbn.
  apply (IH (r_end r)); [done|lia].
Qed.

Lemma sorted_ends lo l : sorted_from lo l -> Forall (fun r => lo < r_end r) l.
Proof.
  revert lo. induction l as [|r l IH]; intros lo; cbn; [done|]. intros [Hr Hs]. constructor; [lia|].
  specialize (IH _ Hs). eapply Forall_impl; [exact IH|]. cbn. lia.
Qed.

Lemma before_top lo l b : sorted_from lo l -> Forall (fun r => r_end r <= b) l -> l <> [] -> top_of lo l <= b.
Proof.
  intros _ HF Hne. destruct l as [|r l] using rev_ind; [done|]. rewrite top_of_app. apply Forall_app in HF as [_ HF]. by inversion HF.
Qed.

Lemma zset_mid {A} (pre suf : list A) x y : zset (pre ++ x :: suf) (zlen pre) y = pre ++ y :: suf.
Proof. unfold zset, zlen. rewrite Nat2Z.id. rewrite insert_app_r_alt by lia. by rewrite Nat.sub_diag. Qed.

Lemma delete_mid pre suf r : resv_delete (zlen pre) (pre ++ r :: suf) = pre ++ suf.
Proof.
  unfold resv_delete, zlen. rewrite Nat2Z.id, take_app_length. f_equal. rewrite drop_app. rewrite drop_ge by lia.
  by replace (S (length pre) - length pre)%nat with 1%nat by lia.
Qed.

Lemma insert_mid (pre suf : list region) r : take (Z.to_nat (zlen pre)) (pre ++ suf) ++ r :: drop (Z.to_nat (zlen pre)) (pre ++ suf) = pre ++ r :: suf.
Proof. unfold zlen. by rewrite Nat2Z.id, take_app_length, drop_app_length. Qed.

(** ** The binary search *)

Lemma end_mono lo l i j : sorted_from lo l -> 0 <= i <= j -> j < zlen l -> r_end (zget l i) <= r_end (zget l j).
Proof.
  revert lo i j. induction l as [|r l IH]; intros lo i j; [unfold zlen; cbn; lia|]. cbn [sorted_from]. intros [Hr Hs] Hi Hj.
  rewrite zlen_cons in Hj. destruct (decide (j = 0)) as [->|Hj0]; [by replace i with 0 by lia|].
  assert (forall k, 0 < k -> zget (r :: l) k = zget l (k - 1)) as Hz.
  { intros k Hk. unfold zget. replace (Z.to_nat k) with (S (Z.to_nat (k - 1))) by lia. done. }
  rewrite (Hz j) by lia. destruct (decide (i = 0)) as [->|Hi0].
  - change (zget (r :: l) 0) with r. pose proof (sorted_ends _ _ Hs) as HF. pose proof (zget_Forall _ l (j - 1) HF ltac:(lia)). cbn in *. lia.
  - rewrite Hz by lia. apply (IH (r_end r)); [done|lia|lia].
Qed.

Lemma first_after_loop_spec lo0 l va fuel lo hi : sorted_from lo0 l -> zlen l <= PROC64_RESV_MAX ->
  0 <= lo <= hi -> hi <= zlen l -> (Z.to_nat (hi - lo) < fuel)%nat ->
  (forall j, 0 <= j < lo -> r_end (zget l j) <= va) -> (forall j, hi <= j < zlen l -> va < r_end (zget l j)) ->
  exists i, first_after_loop fuel l va lo hi = Some i /\ 0 <= i <= zlen l /\
    (forall j, 0 <= j < i -> r_end (zget l j) <= va) /\ (forall j, i <= j < zlen l -> va < r_end (zget l j)).
Proof.
  intros Hs Hm. unfold PROC64_RESV_MAX in Hm. revert lo hi. induction fuel as [|fuel IH]; intros lo hi Hlo Hhi Hf Hl Hr; [lia|]. cbn [first_after_loop].
  destruct (Z.ltb_spec lo hi); cbn [negb].
  - rewrite u32_small by lia. cbv zeta. set (mid := (lo + hi) / 2).
    assert (lo <= mid < hi) as Hmid by (unfold mid; Z.to_euclidean_division_equations; lia). destruct (Z.leb_spec (r_end (zget l mid)) va).
    + apply IH; try lia; [|done]. intros j Hj. pose proof (end_mono lo0 l j mid Hs ltac:(lia) ltac:(lia)). lia.
    + apply IH; try lia; [done|]. intros j Hj. pose proof (end_mono lo0 l mid j Hs ltac:(lia) ltac:(lia)). lia.
  - exists lo. split; [done|]. split; [lia|]. split; [done|]. intros j Hj. apply Hr. lia.
Qed.

(** The search finds where the regions that end by [va] stop. *)
Lemma resv_first_after_spec lo l va : sorted_from lo l -> zlen l <= PROC64_RESV_MAX ->
  exists pre suf, l = pre ++ suf /\ resv_first_after l va = Some (zlen pre) /\
    Forall (fun r => r_end r <= va) pre /\ Forall (fun r => va < r_end r) suf.
Proof.
  intros Hs Hm. destruct (first_after_loop_spec lo l va (S (length l)) 0 (zlen l) Hs Hm) as (i & Hi & Hr & Hb & Ha).
  { pose proof (zlen_nonneg l). lia. }
  { lia. }
  { unfold zlen. lia. }
  { intros. lia. }
  { intros. lia. }
  exists (take (Z.to_nat i) l), (drop (Z.to_nat i) l). split; [by rewrite take_drop|].
  assert (zlen (take (Z.to_nat i) l) = i) as Hz by (unfold zlen in *; rewrite length_take; lia). split; [by rewrite Hz|].
  split; apply Forall_lookup_2; intros k r Hk.
  - pose proof (lookup_lt_Some _ _ _ Hk) as Hlt. rewrite length_take in Hlt. rewrite lookup_take_lt in Hk by lia.
    rewrite <-(zget_lookup l (Z.of_nat k) r) by (rewrite ?Nat2Z.id; done || lia). apply Hb. lia.
  - rewrite lookup_drop in Hk. pose proof (lookup_lt_Some _ _ _ Hk) as Hlt.
    rewrite <-(zget_lookup l (Z.of_nat (Z.to_nat i + k)) r) by (rewrite ?Nat2Z.id; done || lia). apply Ha. unfold zlen. lia.
Qed.

(** ** Carving and recording *)

Definition regions_ok (l : list region) : Prop := sorted_from 0 l /\ zlen l <= PROC64_RESV_MAX.

(** [l'] is [l] without [[start, top)]. *)
Definition carved (l : list region) (start top : Z) (l' : list region) : Prop :=
  forall va, resv_at l' va = if (start <=? va) && (va <? top) then None else resv_at l va.

(** [l'] is [l] with [[start, end_)] recorded. *)
Definition recorded (l : list region) (start end_ flags : Z) (l' : list region) : Prop :=
  forall va, resv_at l' va = if (start <=? va) && (va <? end_) then Some flags else resv_at l va.

Section proofs.
  Context {M : Type} (spill_range : Z -> Z -> Z -> M -> option (bool * M)).
  Implicit Types s : rst M.

(** Where the array had no room for the piece above the range, that piece is
    out of the array too and has been spilled. *)
Definition remove_outcome (l : list region) (start end_ : Z) (m0 : M) (res : option (rst M)) : Prop :=
  (exists s', res = Some s' /\ regions_ok (resv s') /\ env s' = m0 /\ carved l start end_ (resv s')) \/
  (exists s' top fl, zlen l = PROC64_RESV_MAX /\ end_ < top /\ (forall va, end_ <= va < top -> resv_at l va = Some fl) /\
     res = ('(_, m) ← spill_range end_ top fl m0; Some (set_env m s')) /\ regions_ok (resv s') /\ carved l start top (resv s')).

Lemma outcome_step l l1 start end_ m0 res : zlen l1 <= zlen l -> zlen l <= PROC64_RESV_MAX ->
  (forall va, ~ start <= va < end_ -> resv_at l1 va = resv_at l va) -> remove_outcome l1 start end_ m0 res -> remove_outcome l start end_ m0 res.
Proof.
  intros Hz Hm Hat [(s' & H1 & H2 & H3 & H4)|(s' & top & fl & H1 & H2 & H3 & H4 & H5 & H6)]; [left|right].
  - exists s'. split_and!; [done|done|done|]. intros va. rewrite H4. destruct (Z.leb_spec start va), (Z.ltb_spec va end_); cbn; try done; apply Hat; lia.
  - exists s', top, fl. split_and!; [lia|done| |done|done|].
    + intros va Hva. rewrite <-Hat by lia. by apply H3.
    + intros va. rewrite H6. destruct (Z.leb_spec start va), (Z.ltb_spec va top); cbn; try done; apply Hat; lia.
Qed.

Lemma resv_at_mid pre r suf va : resv_at (pre ++ r :: suf) va =
  match resv_at pre va with Some f => Some f | None => if (r_start r <=? va) && (va <? r_end r) then Some (r_flags r) else resv_at suf va end.
Proof. by rewrite resv_at_app. Qed.

(** Everything before the range, one address against the bounds. *)
Ltac at_cases := repeat match goal with
  | |- context [Z.leb ?a ?b] => destruct (Z.leb_spec a b)
  | |- context [Z.ltb ?a ?b] => destruct (Z.ltb_spec a b)
  end; cbn [andb]; try done; try lia.

Lemma carve_head pre suf r start end_ r' : Forall (fun r => r_end r <= start) pre -> sorted_from (r_end r) suf ->
  (forall va, start <= va < end_ -> ~ r_start r' <= va < r_end r') ->
  (forall va, ~ start <= va < end_ -> r_start r' <= va < r_end r' <-> r_start r <= va < r_end r) ->
  r_flags r' = r_flags r -> end_ <= r_end r -> carved (pre ++ r :: suf) start end_ (pre ++ r' :: suf).
Proof.
  intros Hp Hs Hin Hout Hf He va. rewrite !resv_at_mid. specialize (Hin va). specialize (Hout va).
  destruct (Z.leb_spec start va); [rewrite (at_before start pre va Hp) by lia; destruct (Z.ltb_spec va end_)|]; cbn [andb].
  - assert (r_start r' <= va < r_end r' -> False) as Hn by tauto. rewrite (at_after _ suf va Hs) by lia. at_cases.
  - rewrite Hf. at_cases; tauto || lia.
  - rewrite Hf. destruct (resv_at pre va); [done|]. at_cases; tauto || lia.
Qed.

Lemma agree_mid pre suf r r' va : r_flags r' = r_flags r -> (r_start r' <= va < r_end r' <-> r_start r <= va < r_end r) ->
  resv_at (pre ++ r' :: suf) va = resv_at (pre ++ r :: suf) va.
Proof. intros Hf Hi. rewrite !resv_at_mid, Hf. destruct (resv_at pre va); [done|]. at_cases; tauto || lia. Qed.

Lemma agree_del pre suf r va : ~ r_start r <= va < r_end r -> resv_at (pre ++ suf) va = resv_at (pre ++ r :: suf) va.
Proof. intros Hi. rewrite resv_at_mid, resv_at_app. destruct (resv_at pre va); [done|]. at_cases. Qed.

Lemma sorted_head lo pre suf r : sorted_from lo (pre ++ r :: suf) ->
  sorted_from lo pre /\ top_of lo pre <= r_start r < r_end r /\ sorted_from (r_end r) suf.
Proof. rewrite sorted_app. cbn [sorted_from]. tauto. Qed.

Lemma sorted_swap lo pre suf r r' : sorted_from lo (pre ++ r :: suf) -> r_start r <= r_start r' < r_end r' -> r_end r' <= r_end r ->
  sorted_from lo (pre ++ r' :: suf).
Proof.
  rewrite !sorted_app. cbn [sorted_from]. intros (Hp & Hr & Hs) ? ?. split; [done|]. split; [lia|]. by apply (sorted_weaken (r_end r)).
Qed.

Lemma sorted_drop lo pre suf r : sorted_from lo (pre ++ r :: suf) -> sorted_from lo (pre ++ suf).
Proof. rewrite !sorted_app. cbn [sorted_from]. intros (Hp & Hr & Hs). split; [done|]. apply (sorted_weaken (r_end r)); [done|lia]. Qed.

Lemma sorted_split lo pre suf r a b : sorted_from lo (pre ++ r :: suf) -> r_start r < a -> a <= b -> b < r_end r ->
  sorted_from lo (pre ++ mkRegion (r_start r) a (r_flags r) :: mkRegion b (r_end r) (r_flags r) :: suf).
Proof. rewrite !sorted_app. cbn. intros (Hp & Hr & Hs) ? ? ?. split_and!; first [done|lia]. Qed.

Lemma zlen_mid (pre suf : list region) r : zlen (pre ++ r :: suf) = zlen pre + 1 + zlen suf.
Proof. rewrite zlen_app, zlen_cons. lia. Qed.

(** The case of a region that is split: the piece above goes back into the
    array, or is spilled. *)
Lemma split_outcome pre suf r start end_ s : sorted_from 0 (pre ++ r :: suf) -> zlen (pre ++ r :: suf) <= PROC64_RESV_MAX ->
  Forall (fun r => r_end r <= start) pre -> r_start r < start -> start < end_ -> end_ < r_end r ->
  remove_outcome (pre ++ r :: suf) start end_ (env s)
    (let '(ok, s') := resv_insert (zlen pre + 1) (mkRegion end_ (r_end r) (r_flags r)) (set_list (pre ++ mkRegion (r_start r) start (r_flags r) :: suf) s) in
     if (ok : bool) then Some s' else '(_, s') ← spill spill_range end_ (r_end r) (r_flags r) s'; Some s').
Proof.
  intros Hs Hm Hp H1 H2 H3. pose proof (sorted_head _ _ _ _ Hs) as (Hsp & Hr & Hss). pose proof (zlen_mid pre suf r) as Hz.
  set (low := mkRegion (r_start r) start (r_flags r)). set (high := mkRegion end_ (r_end r) (r_flags r)).
  pose proof (zlen_mid pre suf low) as Hz'. unfold resv_insert. cbn [resv set_list]. destruct (Z.leb_spec PROC64_RESV_MAX (zlen (pre ++ low :: suf))).
  - right. exists (set_list (pre ++ low :: suf) s), (r_end r), (r_flags r). split; [lia|]. split; [done|]. split.
    { intros va Hva. rewrite resv_at_mid, (at_before start pre va Hp) by lia. at_cases. }
    split; [unfold spill; cbn [env set_list]; destruct (spill_range _ _ _ _) as [[? ?]|]; done|].
    split; [split; [|cbn; lia]|].
    + cbn. apply (sorted_swap _ _ _ r); [done|cbn; lia|cbn; lia].
    + cbn [resv set_list]. apply carve_head; cbn; try done; intros; lia.
  - assert (take (Z.to_nat (zlen pre + 1)) (pre ++ low :: suf) ++ high :: drop (Z.to_nat (zlen pre + 1)) (pre ++ low :: suf) = pre ++ low :: high :: suf) as E.
    { replace (pre ++ low :: suf) with ((pre ++ [low]) ++ suf) by (by rewrite <-app_assoc).
      replace (zlen pre + 1) with (zlen (pre ++ [low])) by (rewrite zlen_app; done). rewrite insert_mid. by rewrite <-app_assoc. }
    rewrite E. left. eexists. split; [done|]. cbn [resv env]. split; [split|split; [done|]].
    + apply (sorted_split _ _ _ r); [done|lia|lia|lia].
    + rewrite zlen_mid, zlen_cons. lia.
    + intros va. rewrite !resv_at_mid. cbn [resv_at r_start r_end r_flags low high].
      destruct (Z.leb_spec start va); cbn [andb].
      * rewrite (at_before start pre va Hp) by lia. destruct (Z.ltb_spec va end_); [rewrite (at_after _ suf va Hss) by lia|]; at_cases.
      * destruct (resv_at pre va); [done|]. at_cases.
Qed.

Lemma remove_loop_spec start end_ suf : forall fuel pre s, resv s = pre ++ suf -> (length suf < fuel)%nat -> regions_ok (pre ++ suf) ->
  Forall (fun r => r_end r <= start) pre -> Forall (fun r => start < r_end r) suf -> start < end_ ->
  remove_outcome (pre ++ suf) start end_ (env s) (remove_loop spill_range fuel (zlen pre) start end_ s).
Proof.
  induction suf as [|r suf IH]; intros [|fuel] pre s El Hf [Hs Hm] Hp Ha Hse; cbn [length] in *; try lia; cbn [remove_loop]; rewrite El.
  - rewrite app_nil_r in *. rewrite Z.ltb_irrefl. cbn. left. exists s. split_and!; [done|by rewrite El|done|].
    rewrite El. intros va. destruct (Z.leb_spec start va); [|done]. rewrite (at_before start pre va Hp) by lia. by destruct (_ && _).
  - pose proof (sorted_head _ _ _ _ Hs) as (Hsp & Hr & Hss). pose proof (zlen_mid pre suf r) as Hz. apply Forall_cons in Ha as [Har Ha].
    rewrite (proj2 (Z.ltb_lt (zlen pre) (zlen (pre ++ r :: suf)))) by (pose proof (zlen_nonneg suf); lia).
    rewrite (zget_mid pre suf r (zlen pre) eq_refl), delete_mid. cbn [andb]. destruct r as [rs re fl]. rewrite !zset_mid. cbn [r_start r_end] in *.
    destruct (Z.ltb_spec rs end_) as [Hlt|Hge]; cbn [negb].
    + destruct (Z.ltb_spec rs start) as [Hrs|Hrs]; cbn [andb].
      * destruct (Z.ltb_spec end_ re) as [Hre|Hre].
        -- by apply (split_outcome pre suf (mkRegion rs re fl) start end_ s).
        -- set (low := mkRegion rs start fl).
           apply (outcome_step _ (pre ++ low :: suf)); [rewrite !zlen_mid; lia|done| |].
           { intros va Hva. apply agree_mid; cbn; [done|lia]. }
           replace (pre ++ low :: suf) with ((pre ++ [low]) ++ suf) in * by (by rewrite <-app_assoc).
           replace (zlen pre + 1) with (zlen (pre ++ [low])) by (rewrite zlen_app; done).
           apply (IH fuel (pre ++ [low]) (set_list _ s)); [done|lia| | |done|done].
           ++ rewrite <-app_assoc. cbn [app]. split; [|rewrite zlen_mid in *; lia]. apply (sorted_swap _ _ _ (mkRegion rs re fl)); [done|cbn; lia|cbn; lia].
           ++ apply Forall_app. split; [done|]. constructor; [cbn; lia|done].
      * destruct (Z.ltb_spec end_ re) as [Hre|Hre].
        -- left. eexists. split; [done|]. cbn [resv env set_list]. split; [split; [|rewrite zlen_mid in *; lia]|split; [done|]].
           ++ apply (sorted_swap _ _ _ (mkRegion rs re fl)); [done|cbn; lia|cbn; lia].
           ++ apply carve_head; cbn; try done; try lia; intros; lia.
        -- apply (outcome_step _ (pre ++ suf)); [rewrite zlen_mid, zlen_app; lia|done| |].
           { intros va Hva. apply agree_del. cbn. lia. }
           apply (IH fuel pre (set_list _ s)); [done|lia| |done|done|done].
           split; [by apply (sorted_drop _ _ _ (mkRegion rs re fl))|]. rewrite zlen_mid in Hm. rewrite zlen_app. lia.
    + left. exists s. split_and!; [done|by rewrite El|done|]. rewrite El. intros va. destruct (Z.leb_spec start va); [|done].
      destruct (Z.ltb_spec va end_); [|done]. cbn [andb]. rewrite resv_at_mid, (at_before start pre va Hp) by lia.
      rewrite (at_after _ suf va Hss) by lia. cbn. at_cases.
Qed.

Lemma resv_remove_spec s start end_ : regions_ok (resv s) -> start < end_ ->
  remove_outcome (resv s) start end_ (env s) (resv_remove spill_range start end_ s).
Proof.
  intros Hok Hse. destruct (resv_first_after_spec 0 (resv s) start (proj1 Hok) (proj2 Hok)) as (pre & suf & El & Hi & Hb & Ha).
  unfold resv_remove. rewrite Hi. cbn [mbind option_bind]. rewrite El at 1. apply remove_loop_spec; try done.
  - rewrite El, length_app. lia.
  - by rewrite <-El.
Qed.

(** A region put between what ends by [start] and what starts from [end_],
    in the place of neighbours with the same flags. *)
Lemma put_recorded pre gone1 gone2 suf a b start end_ flags : a <= start -> start < end_ -> end_ <= b ->
  Forall (fun r => r_end r <= a) pre -> sorted_from b suf ->
  (forall va, resv_at gone1 va = if (a <=? va) && (va <? start) then Some flags else None) ->
  (forall va, resv_at gone2 va = if (end_ <=? va) && (va <? b) then Some flags else None) ->
  recorded (pre ++ gone1 ++ gone2 ++ suf) start end_ flags (pre ++ mkRegion a b flags :: suf).
Proof.
  intros Ha Hse Hb Hp Hs H1 H2 va. rewrite resv_at_mid, !resv_at_app, H1, H2. cbn [r_start r_end r_flags].
  destruct (Z.leb_spec a va).
  - rewrite (at_before a pre va Hp) by lia. destruct (Z.ltb_spec va b); [rewrite (at_after _ suf va Hs) by lia|]; at_cases.
  - destruct (resv_at pre va); at_cases.
Qed.

Lemma sorted_put pre gone suf a b flags : sorted_from 0 (pre ++ gone ++ suf) -> Forall (fun r => r_end r <= a) pre -> 0 <= a -> a < b -> sorted_from b suf ->
  sorted_from 0 (pre ++ mkRegion a b flags :: suf).
Proof.
  rewrite !sorted_app. cbn. intros (Hp & _) Hb Ha Hab Hs. split; [done|]. split; [|done]. split; [|done].
  destruct (decide (pre = [])) as [->|Hne]; [done|]. by apply before_top.
Qed.

Lemma singleton_at a b flags va : resv_at [mkRegion a b flags] va = if (a <=? va) && (va <? b) then Some flags else None.
Proof. done. Qed.

Lemma nothing_at a flags va : resv_at [] va = if (a <=? va) && (va <? a) then Some flags else None.
Proof. cbn. at_cases. Qed.

Lemma sorted_last lo pre p suf : sorted_from lo ((pre ++ [p]) ++ suf) -> Forall (fun r => r_end r <= r_start p) pre /\ lo <= r_start p < r_end p.
Proof.
  rewrite !sorted_app. cbn. intros ((Hp & Hr & _) & _). pose proof (top_of_ge _ _ Hp). split; [|lia].
  clear H. revert lo Hp Hr. induction pre as [|r pre IH]; intros lo Hp Hr; [done|]. cbn in Hp. destruct Hp as [H1 H2]. rewrite top_of_cons in Hr.
  pose proof (top_of_ge _ _ H2). constructor; [lia|]. by apply (IH (r_end r)).
Qed.

(** The neighbour on either side of a new range: the region [g] of [l] that is
    joined to it, so that the whole starts at [a] (ends at [b]), or none, when
    none with these flags touches the range. *)
Definition left_of (l g : list region) (a start flags : Z) : Prop :=
  (a < start /\ g = [mkRegion a start flags]) \/ (a = start /\ g = [] /\ forall r, r ∈ l -> r_end r = start -> r_flags r <> flags).

Definition right_of (l g : list region) (b end_ flags : Z) : Prop :=
  (end_ < b /\ g = [mkRegion end_ b flags]) \/ (b = end_ /\ g = [] /\ forall r, r ∈ l -> r_start r = end_ -> r_flags r <> flags).

(** Where a free range goes. *)
Record place (l : list region) (start end_ flags : Z) (pre g1 g2 suf : list region) (a b : Z) : Prop := {
  pl_list : l = pre ++ g1 ++ g2 ++ suf;
  pl_pre : Forall (fun r => r_end r <= a) pre;
  pl_suf : sorted_from b suf;
  pl_left : left_of l g1 a start flags;
  pl_right : right_of l g2 b end_ flags;
  pl_low : 0 <= a
}.

Lemma last_touching lo pre r : sorted_from lo pre -> r ∈ pre -> Forall (fun q => q = r \/ r_end q <= r_end r) pre ->
  exists pre', pre = pre' ++ [r].
Proof.
  intros Hs Hr HF. apply list_elem_of_split in Hr as (p1 & p2 & ->). exists p1. destruct p2 as [|q p2]; [done|]. exfalso.
  apply sorted_app in Hs as [_ [_ [Hq _]]]. apply Forall_app in HF as [_ [_ [Hc _]%Forall_cons]%Forall_cons]. cbn in Hq. destruct Hc as [->|?]; lia.
Qed.

Lemma first_touching b suf r : sorted_from b suf -> r ∈ suf -> r_start r = b -> exists suf', suf = r :: suf'.
Proof.
  destruct suf as [|q suf]; [by intros _ ?%not_elem_of_nil|]. intros [Hq Hs] [->|Hr]%elem_of_cons Hb; [by eexists|]. exfalso.
  apply list_elem_of_split in Hr as (p1 & p2 & ->). apply sorted_app in Hs as [Hp [Hr _]]. pose proof (top_of_ge _ _ Hp). lia.
Qed.

Lemma flags_touch (l : list region) (P : region -> Prop) flags : (forall r, Decision (P r)) ->
  (exists r, r ∈ l /\ P r /\ r_flags r = flags) \/ (forall r, r ∈ l -> P r -> r_flags r <> flags).
Proof.
  intros HP. destruct (decide (Exists (fun r => P r /\ r_flags r = flags) l)) as [H|H].
  - left. apply Exists_exists in H as (r & ? & ? & ?). by exists r.
  - right. intros r Hr Hpr Hf. apply H, Exists_exists. by exists r.
Qed.

(** Every free range has its place, and the search finds it. *)
Lemma place_of l start end_ flags : regions_ok l -> 0 <= start < end_ ->
  (forall va, start <= va < end_ -> resv_at l va = None) ->
  exists pre g1 g2 suf a b, place l start end_ flags pre g1 g2 suf a b /\ resv_first_after l start = Some (zlen (pre ++ g1)).
Proof.
  intros [Hs Hm] Hse Hfree. destruct (resv_first_after_spec 0 l start Hs Hm) as (pre & suf & El & Hi & Hb & Ha).
  assert (sorted_from 0 pre) as Hpre by (rewrite El in Hs; by apply sorted_app in Hs as [? _]).
  assert (sorted_from end_ suf) as Hsuf.
  { destruct suf as [|r suf]; [done|]. rewrite El in Hs. pose proof (sorted_head _ _ _ _ Hs) as (_ & Hr & Hss). inversion Ha as [|? ? Hr2 _]; subst.
    split; [|done]. split; [|lia]. destruct (Z.le_gt_cases end_ (r_start r)) as [|Hlt]; [done|].
    specialize (Hfree (Z.max start (r_start r)) ltac:(lia)). rewrite resv_at_mid, (at_before start pre _ Hb) in Hfree by lia.
    rewrite (proj2 (Z.leb_le _ _)), (proj2 (Z.ltb_lt _ _)) in Hfree by lia. done. }
  assert (exists pre' g1 a, pre = pre' ++ g1 /\ Forall (fun r => r_end r <= a) pre' /\ left_of l g1 a start flags /\ 0 <= a) as (pre' & g1 & a & -> & H1 & H2 & H3).
  { destruct (flags_touch pre (fun r => r_end r = start) flags _) as [(r & Hr & He & Hf)|Hno].
    - destruct (last_touching 0 pre r Hpre Hr) as [pre' ->]; [eapply Forall_impl; [exact Hb|]; cbn; intros; right; lia|].
      pose proof (sorted_last 0 pre' r [] ltac:(by rewrite app_nil_r)) as [Hp Hrr]. exists pre', [r], (r_start r). split; [done|]. split; [done|].
      split; [|lia]. left. destruct r; cbn in *; subst. split; [lia|done].
    - exists pre, [], start. split; [by rewrite app_nil_r|]. split; [done|]. split; [|lia]. right. split; [done|]. split; [done|].
      rewrite El. intros r [Hr|Hr]%elem_of_app He; [by apply Hno|]. rewrite Forall_forall in Ha. specialize (Ha r Hr). lia. }
  assert (exists g2 suf' b, suf = g2 ++ suf' /\ sorted_from b suf' /\ right_of l g2 b end_ flags) as (g2 & suf' & b & -> & H4 & H5).
  { destruct (flags_touch suf (fun r => r_start r = end_) flags _) as [(r & Hr & He & Hf)|Hno].
    - destruct (first_touching end_ suf r Hsuf Hr He) as [suf' ->]. destruct Hsuf as [Hrr Hss]. exists [r], suf', (r_end r).
      split; [done|]. split; [done|]. left. destruct r; cbn in *; subst. split; [lia|done].
    - exists [], suf, end_. split; [done|]. split; [done|]. right. split; [done|]. split; [done|].
      rewrite El. intros r [Hr|Hr]%elem_of_app He; [|by apply Hno]. exfalso. rewrite Forall_forall in Hb. specialize (Hb r Hr).
      apply list_elem_of_split in Hr as (p1 & p2 & E). rewrite E in Hpre. apply sorted_app in Hpre as [_ [? _]]. lia. }
  exists pre', g1, g2, suf', a, b. split; [split; try done|done]. by rewrite El, <-app_assoc.
Qed.

Lemma place_recorded l start end_ flags pre g1 g2 suf a b : place l start end_ flags pre g1 g2 suf a b -> sorted_from 0 l -> start < end_ ->
  sorted_from 0 (pre ++ mkRegion a b flags :: suf) /\ recorded l start end_ flags (pre ++ mkRegion a b flags :: suf).
Proof.
  intros [-> Hp Hsuf Hl Hr H0] Hs Hse.
  assert (a <= start /\ forall va, resv_at g1 va = if (a <=? va) && (va <? start) then Some flags else None) as [Ha H1].
  { destruct Hl as [[? ->]|(-> & -> & _)]; (split; [lia|]); intros va; [apply singleton_at|apply nothing_at]. }
  assert (end_ <= b /\ forall va, resv_at g2 va = if (end_ <=? va) && (va <? b) then Some flags else None) as [Hb H2].
  { destruct Hr as [[? ->]|(-> & -> & _)]; (split; [lia|]); intros va; [apply singleton_at|apply nothing_at]. }
  split; [|by apply put_recorded]. apply (sorted_put pre (g1 ++ g2) suf); [by rewrite <-app_assoc|done|lia|lia|done].
Qed.

Lemma zget_in (l : list region) i : 0 <= i < zlen l -> zget l i ∈ l.
Proof.
  intros Hi. unfold zlen in Hi. destruct (lookup_lt_is_Some_2 l (Z.to_nat i)) as [r Hr]; [lia|].
  rewrite (zget_lookup l i r) by (done || lia). by eapply list_elem_of_lookup_2.
Qed.

(** What the two tests of the code find. *)
Lemma join_prev_spec l start end_ flags pre g1 g2 suf a b : place l start end_ flags pre g1 g2 suf a b ->
  let prev := zget l (zlen (pre ++ g1) - 1) in
  (0 <? zlen (pre ++ g1)) && (r_end prev =? start) && (r_flags prev =? flags) = match g1 with [] => false | _ => true end.
Proof.
  intros [El _ _ Hl _ _]. cbv zeta. destruct Hl as [[_ ->]|(_ & -> & Hno)].
  - rewrite zlen_app. change (zlen [_]) with 1. rewrite Z.add_simpl_r, El. change (?p ++ [?x] ++ ?q) with (p ++ x :: q).
    rewrite (zget_mid pre _ _ (zlen pre) eq_refl). cbn. rewrite !Z.eqb_refl, andb_true_r, andb_true_r. apply Z.ltb_lt. pose proof (zlen_nonneg pre). lia.
  - rewrite app_nil_r. destruct (Z.ltb_spec 0 (zlen pre)) as [Hlt|]; [|done]. cbn [andb].
    destruct (Z.eqb_spec (r_end (zget l (zlen pre - 1))) start) as [He|]; [|done]. cbn [andb]. apply Z.eqb_neq.
    apply Hno; [|done]. apply zget_in. rewrite El, !zlen_app. pose proof (zlen_nonneg g2). pose proof (zlen_nonneg suf). change (zlen []) with 0. lia.
Qed.

Lemma join_next_spec l start end_ flags pre g1 g2 suf a b : place l start end_ flags pre g1 g2 suf a b ->
  let next := zget l (zlen (pre ++ g1)) in
  (zlen (pre ++ g1) <? zlen l) && (r_start next =? end_) && (r_flags next =? flags) = match g2 with [] => false | _ => true end.
Proof.
  intros [El _ _ _ Hr _]. cbv zeta. destruct Hr as [[_ ->]|(_ & -> & Hno)].
  - assert (l = (pre ++ g1) ++ mkRegion end_ b flags :: suf) as E by (by rewrite El, <-app_assoc). rewrite E, (zget_mid _ suf _ _ eq_refl). cbn.
    rewrite !Z.eqb_refl, andb_true_r, andb_true_r, zlen_mid. apply Z.ltb_lt. pose proof (zlen_nonneg suf). lia.
  - destruct (Z.ltb_spec (zlen (pre ++ g1)) (zlen l)) as [Hlt|]; [|done]. cbn [andb].
    destruct (Z.eqb_spec (r_start (zget l (zlen (pre ++ g1)))) end_) as [He|]; [|done]. cbn [andb]. apply Z.eqb_neq.
    apply Hno; [|done]. apply zget_in. pose proof (zlen_nonneg (pre ++ g1)). lia.
Qed.

Lemma resv_add_run s start end_ flags pre g1 g2 suf a b : place (resv s) start end_ flags pre g1 g2 suf a b ->
  resv_first_after (resv s) start = Some (zlen (pre ++ g1)) ->
  let l' := pre ++ mkRegion a b flags :: suf in
  (exists s', resv_add spill_range start end_ flags s = Some (true, s') /\ resv s' = l' /\ env s' = env s /\
     (zlen (resv s) <= PROC64_RESV_MAX -> zlen l' <= PROC64_RESV_MAX)) \/
  (g1 = [] /\ g2 = [] /\ PROC64_RESV_MAX <= zlen (resv s) /\
   resv_add spill_range start end_ flags s = ('(ok, m) ← spill_range start end_ flags (env s); Some (ok, set_env m s))).
Proof.
  intros Hpl Hi. cbv zeta. unfold resv_add. rewrite Hi. cbn [mbind option_bind]. cbv zeta.
  rewrite (join_prev_spec _ _ _ _ _ _ _ _ _ _ Hpl), (join_next_spec _ _ _ _ _ _ _ _ _ _ Hpl).
  destruct Hpl as [El _ _ Hl Hr _]. destruct Hl as [[_ ->]|(-> & -> & _)].
  - assert (zlen (pre ++ [mkRegion a start flags]) = zlen pre + 1) as Hz by (by rewrite zlen_app).
    assert (zget (resv s) (zlen pre) = mkRegion a start flags) as Hg by (rewrite El; by apply zget_mid).
    rewrite Hz, Z.add_simpl_r, Hg. cbn [r_start r_end r_flags]. cbn [app] in El.
    left. destruct Hr as [[_ ->]|(-> & -> & _)]; cbn [andb].
    + assert (zget (resv s) (zlen pre + 1) = mkRegion end_ b flags) as ->.
      { rewrite <-Hz, El. change (pre ++ ?x :: ?q) with (pre ++ [x] ++ q). rewrite app_assoc. by apply zget_mid. }
      cbn [r_end]. eexists. split; [done|]. cbn [resv env set_list]. rewrite El. cbn [app]. rewrite zset_mid.
      replace (zlen pre + 1) with (zlen (pre ++ [mkRegion a b flags])) by (by rewrite zlen_app).
      replace (pre ++ mkRegion a b flags :: mkRegion end_ b flags :: suf) with ((pre ++ [mkRegion a b flags]) ++ mkRegion end_ b flags :: suf) by (by rewrite <-app_assoc).
      rewrite delete_mid, <-app_assoc. split; [done|]. split; [done|]. cbn [app]. rewrite !zlen_mid, zlen_cons. lia.
    + eexists. split; [done|]. cbn [resv env set_list]. rewrite El, zset_mid. split; [done|]. split; [done|]. cbn [app]. by rewrite !zlen_mid.
  - rewrite app_nil_r. cbn [app andb] in *. destruct Hr as [[_ ->]|(-> & -> & _)].
    + left. cbn [app] in El. assert (zget (resv s) (zlen pre) = mkRegion end_ b flags) as -> by (rewrite El; by apply zget_mid).
      cbn [r_end r_flags]. eexists. split; [done|]. cbn [resv env set_list]. rewrite El, zset_mid. split; [done|]. split; [done|]. by rewrite !zlen_mid.
    + cbn [app] in El. unfold resv_insert. destruct (Z.leb_spec PROC64_RESV_MAX (zlen (resv s))) as [Hf|Hf].
      * right. split; [done|]. split; [done|]. split; [done|]. unfold spill. by destruct (spill_range _ _ _ _) as [[? ?]|].
      * left. rewrite El, insert_mid. eexists. split; [done|]. cbn [resv env]. split; [done|]. split; [done|]. intros _.
        rewrite El, zlen_app in Hf. rewrite zlen_mid. lia.
Qed.

(** A range is reported taken exactly when some address of it is recorded. *)
Theorem resv_overlaps_exact l start end_ : regions_ok l -> start < end_ ->
  exists b, resv_overlaps l start end_ = Some b /\ (b = true <-> exists va, start <= va < end_ /\ is_Some (resv_at l va)).
Proof.
  intros [Hs Hm] Hse. destruct (resv_first_after_spec 0 l start Hs Hm) as (pre & suf & -> & Hi & Hb & Ha).
  unfold resv_overlaps. rewrite Hi. cbn [mbind option_bind]. eexists. split; [done|].
  destruct suf as [|r suf].
  - rewrite app_nil_r, Z.ltb_irrefl. split; [done|]. intros (va & Hva & f & E). rewrite (at_before start pre va Hb) in E by lia. done.
  - pose proof (sorted_head _ _ _ _ Hs) as (_ & Hr & Hss). inversion Ha as [|? ? Hr2 _]; subst. rewrite (zget_mid pre suf r (zlen pre) eq_refl), zlen_mid.
    rewrite (proj2 (Z.ltb_lt _ _)) by (pose proof (zlen_nonneg suf); lia). cbn [andb]. rewrite Z.ltb_lt. split.
    + intros Hlt. exists (Z.max start (r_start r)). split; [lia|]. rewrite resv_at_mid, (at_before start pre _ Hb) by lia.
      rewrite (proj2 (Z.leb_le _ _)), (proj2 (Z.ltb_lt _ _)) by lia. by eexists.
    + intros (va & Hva & f & E). destruct (Z.lt_ge_cases (r_start r) end_) as [|Hge]; [done|].
      rewrite resv_at_mid, (at_before start pre _ Hb), (at_after _ suf va Hss) in E by lia.
      rewrite (proj2 (Z.leb_gt (r_start r) va)) in E by lia. done.
Qed.

(** C16: taking a range out of the record takes out exactly its addresses; no
    other address changes.  Only when a region has to be split and the array
    is full does more go: the piece above the range, which is then backed
    with pages under the flags it was recorded with, so it stays taken. *)
Theorem resv_remove_carves s start end_ : regions_ok (resv s) -> start < end_ ->
  exists s' top, regions_ok (resv s') /\
    (forall va, resv_at (resv s') va = if (start <=? va) && (va <? top) then None else resv_at (resv s) va) /\
    ((top = end_ /\ resv_remove spill_range start end_ s = Some s' /\ env s' = env s) \/
     (exists fl, zlen (resv s) = PROC64_RESV_MAX /\ end_ < top /\ (forall va, end_ <= va < top -> resv_at (resv s) va = Some fl) /\
        resv_remove spill_range start end_ s = ('(_, m) ← spill_range end_ top fl (env s); Some (set_env m s')))).
Proof.
  intros Hok Hse. destruct (resv_remove_spec s start end_ Hok Hse) as [(s' & H1 & H2 & H3 & H4)|(s' & top & fl & H1 & H2 & H3 & H4 & H5 & H6)].
  - exists s', end_. split; [done|]. split; [done|]. by left.
  - exists s', top. split; [done|]. split; [done|]. right. by exists fl.
Qed.

(** C21: recording a free range records exactly its addresses, and in the list
    of regions the range replaces, as one region, itself and the neighbours
    that touch it with the same flags: on either side such a neighbour is
    joined to it, or there is none; the other regions keep their places.  Only
    when the array is full and neither neighbour takes the range is it handed
    to be backed with pages instead, and the array stays as it was. *)
Theorem resv_add_records s start end_ flags : regions_ok (resv s) -> 0 <= start < end_ ->
  (forall va, start <= va < end_ -> resv_at (resv s) va = None) ->
  (exists s', resv_add spill_range start end_ flags s = Some (true, s') /\ regions_ok (resv s') /\ env s' = env s /\
     (forall va, resv_at (resv s') va = if (start <=? va) && (va <? end_) then Some flags else resv_at (resv s) va) /\
     exists pre g1 g2 suf a b, resv s = pre ++ g1 ++ g2 ++ suf /\ resv s' = pre ++ mkRegion a b flags :: suf /\
       left_of (resv s) g1 a start flags /\ right_of (resv s) g2 b end_ flags) \/
  (zlen (resv s) = PROC64_RESV_MAX /\
   (forall r, r ∈ resv s -> r_end r = start \/ r_start r = end_ -> r_flags r <> flags) /\
   resv_add spill_range start end_ flags s = ('(ok, m) ← spill_range start end_ flags (env s); Some (ok, set_env m s))).
Proof.
  intros Hok Hse Hfree. destruct (place_of (resv s) start end_ flags Hok Hse Hfree) as (pre & g1 & g2 & suf & a & b & Hpl & Hi).
  destruct (place_recorded _ _ _ _ _ _ _ _ _ _ Hpl (proj1 Hok) ltac:(lia)) as [Hs Hrec]. pose proof Hpl as [El _ _ Hl Hr _].
  destruct (resv_add_run s start end_ flags _ _ _ _ _ _ Hpl Hi) as [(s' & Hrun & Hl' & Hm & Hz)|(-> & -> & Hf & Hrun)]; [left|right].
  - exists s'. rewrite Hl'. split; [done|]. split; [split; [done|apply Hz, Hok]|]. split; [done|]. split; [exact Hrec|].
    by exists pre, g1, g2, suf, a, b.
  - split; [destruct Hok; lia|]. split; [|done]. destruct Hl as [[_ ?]|(_ & _ & H1)]; [done|]. destruct Hr as [[_ ?]|(_ & _ & H2)]; [done|].
    intros r Hin [He|He]; [by apply H1|by apply H2].
Qed.
End proofs.

(** ** Small arrays *)

Definition demo_spill (start end_ flags : Z) (m : list region) : option (bool * list region) := Some (true, mkRegion start end_ flags :: m).
Definition demo_resv : rst (list region) := mkRst [mkRegion 0x1000 0x5000 7; mkRegion 0x8000 0x9000 0] 2 [].

Lemma demo_regions_ok : regions_ok (resv demo_resv).
Proof. split; [cbn; lia|done]. Qed.

Lemma resv_remove_carves_witness :
  resv_remove demo_spill 0x2000 0x3000 demo_resv
    = Some (mkRst [mkRegion 0x1000 0x2000 7; mkRegion 0x3000 0x5000 7; mkRegion 0x8000 0x9000 0] 3 []) /\
  exists s' top, regions_ok (resv s') /\
    (forall va, resv_at (resv s') va = if (0x2000 <=? va) && (va <? top) then None else resv_at (resv demo_resv) va) /\
    ((top = 0x3000 /\ resv_remove demo_spill 0x2000 0x3000 demo_resv = Some s' /\ env s' = env demo_resv) \/
     (exists fl, zlen (resv demo_resv) = PROC64_RESV_MAX /\ 0x3000 < top /\ (forall va, 0x3000 <= va < top -> resv_at (resv demo_resv) va = Some fl) /\
        resv_remove demo_spill 0x2000 0x3000 demo_resv = ('(_, m) ← demo_spill 0x3000 top fl (env demo_resv); Some (set_env m s')))).
Proof. split; [reflexivity|]. apply resv_remove_carves; [exact demo_regions_ok|lia]. Defined.

(** Between two regions with its flags: one region is left of the three. *)
Definition demo_gap : rst (list region) := mkRst [mkRegion 0x1000 0x5000 7; mkRegion 0x8000 0x9000 7] 2 [].

Lemma resv_add_records_witness :
  resv_add demo_spill 0x5000 0x8000 7 demo_gap = Some (true, mkRst [mkRegion 0x1000 0x9000 7] 2 []) /\
  exists pre g1 g2 suf a b, resv demo_gap = pre ++ g1 ++ g2 ++ suf /\ [mkRegion 0x1000 0x9000 7] = pre ++ mkRegion a b 7 :: suf /\
    left_of (resv demo_gap) g1 a 0x5000 7 /\ right_of (resv demo_gap) g2 b 0x8000 7.
Proof.
  split; [reflexivity|].
  destruct (resv_add_records demo_spill demo_gap 0x5000 0x8000 7) as [(s' & Hr & _ & _ & _ & H)|[Hz _]].
  - split; [cbn; lia|done].
  - lia.
  - intros va Hva. cbn. destruct (Z.leb_spec 0x1000 va), (Z.ltb_spec va 0x5000), (Z.leb_spec 0x8000 va); cbn; try lia; done.
  - change (resv_add demo_spill 0x5000 0x8000 7 demo_gap) with (Some (true, mkRst [mkRegion 0x1000 0x9000 7] 2 (@nil region))) in Hr.
    injection Hr as <-. exact H.
  - discriminate Hz.
Defined.
