(* ===== verification/Signal64.v ===== *)
(** * Signals ([kernel/signal64.c])

    The tables of handlers, of pending signals and of masks; [kill], the masks
    and their calls, delivery to a handler and the return from it.  Who is
    running and which process is in which slot comes through the interface
    [TaskView], which the scheduler and the process table implement; the
    memory of the process that runs, and whether a page of it is there or can
    be backed, through the interface [UserMemory].  A sigset is a word; the
    kernel's has bit [sig] where the user's has bit [sig - 1].  The trace line
    of a delivery is left out. *)

From S2P Require Import Prelude FrameAlloc.
From S2P Require Pipe64 Pmm64 Ramfs64 Proc64 Sched64.
Import Sched64 (registers64, mkRegs, rax, rbx, rcx, rdx, rsi, rdi, rbp, r8, r9, r10, r11, r12, r13, r14, r15, int_no, err_code, rip, cs, rflags, rsp, ss).

Definition NSIG : Z := 64.
Definition PROC64_MAX : Z := 128.
Definition SCHED64_MAX_TASKS : Z := 1024.
Definition SIG64_TRAP : Z := 5.
Definition SIG64_KILLSIG : Z := 9.
Definition SIG64_SEGV : Z := 11.
Definition SIG64_TERM : Z := 15.
Definition SIG64_CHLD : Z := 17.
Definition SIG64_CONT : Z := 18.
Definition SIG64_STOP : Z := 19.
Definition SIG64_TSTP : Z := 20.
Definition SIG64_TTIN : Z := 21.
Definition SIG64_TTOU : Z := 22.
Definition SIG64_URG : Z := 23.
Definition SIG64_WINCH : Z := 28.
Definition SA_ONSTACK : Z := 0x08000000.
Definition SA_RESTORER : Z := 0x04000000.
Definition SA_NODEFER : Z := 0x40000000.
Definition SA_RESETHAND : Z := 0x80000000.
Definition SIG64_BLOCK : Z := 0.
Definition SIG64_UNBLOCK : Z := 1.
Definition SIG64_SETMASK : Z := 2.
Definition SS_ONSTACK : Z := 1.
Definition SS_DISABLE : Z := 2.
Definition SIG64_IGN : Z := 1.
Definition SIG64_DISP_TERM : Z := 0.
Definition SIG64_DISP_IGNORE : Z := 1.
Definition SIG64_DISP_HANDLER : Z := 2.
Definition NTASK : nat := Z.to_nat SCHED64_MAX_TASKS.
Definition NSLOT : nat := Z.to_nat PROC64_MAX.

(** The size of a [rt_sigframe64_t], and where its parts are: the ucontext,
    the sigcontext and the mask in the ucontext, the siginfo. *)
Definition FRAME_SIZE : Z := 560.
Definition FRAME_UC : Z := 8.
Definition UC_MCONTEXT : Z := 40.
Definition UC_SIGMASK : Z := 296.
Definition FRAME_INFO : Z := 432.

(** ** What the signals see of the rest *)

(** The floating-point state, MXCSR without its reserved bits. *)
Definition clean_fx (fx : list Z) : list Z :=
  let w := zget fx 3 in zset fx 3 (Z.lor (Z.land w 0xFFFF) (Z.shiftl (Z.shiftr w 32) 32)).

Class TaskView (W : Type) := {
  tv_current : W -> Z;               (* [sched64_current] *)
  tv_task_pid : Z -> W -> Z;         (* [sched64_task_pid] *)
  tv_current_pid : W -> Z;           (* [proc64_current_pid] *)
  tv_slot_of : Z -> W -> Z;          (* [proc64_slot_of] *)
  tv_slot_range pid w : -1 <= tv_slot_of pid w < PROC64_MAX
}.

(** The memory is read and written in words, from any address on; [None] is a
    page fault in the kernel.  [um_touch] makes a page be there:
    [paging64_translate], and [uspace64_fault] if that fails.  By
    [um_write_else] a store shows at no address but its own: no two user pages
    are taken to be on one frame, as a shared mapping could put them. *)
Class UserMemory (U : Type) := {
  um_read : Z -> nat -> U -> option (list Z);
  um_write : Z -> list Z -> U -> option U;
  um_touch : Z -> U -> bool * U;
  um_fxsave : U -> list Z;
  um_fxrstor : list Z -> U -> U;
  um_there : U -> Z -> Prop;

  um_fx_len u : length (um_fxsave u) = 64%nat;
  um_fx_words u : Forall is_word (um_fxsave u);
  um_touch_there p u : fst (um_touch p u) = true -> um_there (snd (um_touch p u)) p;
  um_touch_again p u : um_there u p -> um_touch p u = (true, u);
  um_touch_keeps p q u : um_there u q -> um_there (snd (um_touch p u)) q;
  um_touch_read p a n u x : um_read a n u = Some x -> um_read a n (snd (um_touch p u)) = Some x;
  um_touch_fx p u : um_fxsave (snd (um_touch p u)) = um_fxsave u;
  um_write_ok a ws u : (forall q, a / 4096 <= q <= (a + 8 * Z.of_nat (length ws) - 1) / 4096 -> um_there u (q * 4096)) -> is_Some (um_write a ws u);
  um_write_keeps a ws u u' q : um_write a ws u = Some u' -> um_there u q -> um_there u' q;
  um_write_read a ws u u' : um_write a ws u = Some u' -> um_read a (length ws) u' = Some (map u64 ws);
  um_read_part a n u ws k m : um_read a n u = Some ws -> (k + m <= n)%nat ->
    um_read (a + 8 * Z.of_nat k) m u = Some (take m (drop k ws));
  um_write_else a ws u u' b n x : um_write a ws u = Some u' -> um_read b n u = Some x ->
    b + 8 * Z.of_nat n <= a \/ a + 8 * Z.of_nat (length ws) <= b -> um_read b n u' = Some x;
  um_write_fx a ws u u' : um_write a ws u = Some u' -> um_fxsave u' = um_fxsave u;
  um_fx_clean u : clean_fx (um_fxsave u) = um_fxsave u;
  um_restore_fx u u' : um_fxsave (um_fxrstor (um_fxsave u) u') = um_fxsave u;
  um_restore_read fx u a n : um_read a n (um_fxrstor fx u) = um_read a n u;
  um_restore_there fx u q : um_there u q -> um_there (um_fxrstor fx u) q
}.

Record ksigaction64 := mkAct { sa_handler : Z; sa_flags : Z; sa_restorer : Z; sa_mask : Z }.
Definition no_act : ksigaction64 := mkAct 0 0 0 0.
#[export] Instance ksigaction64_inhabited : Inhabited ksigaction64 := populate no_act.

Definition bit (sig : Z) : Z := Z.shiftl 1 sig.
Definition UNBLOCKABLE : Z := Z.lor (bit SIG64_KILLSIG) (bit SIG64_STOP).

(** [(u << 1) & ~UNBLOCKABLE], and back. *)
Definition from_user_set (u : Z) : Z := Z.ldiff (u64 (Z.shiftl u 1)) UNBLOCKABLE.
Definition to_user_set (k : Z) : Z := Z.shiftr k 1.

Definition is_task (t : Z) : bool := (0 <=? t) && (t <? SCHED64_MAX_TASKS).
Definition is_slot (i : Z) : bool := (0 <=? i) && (i <? PROC64_MAX).

(** The lowest signal of a set, [for (sig = 1; sig < NSIG; sig++)]. *)
Definition lowest (set : Z) : option Z := find_up 63 1 (fun sig => Z.testbit set sig).

Definition default_is_ignore (sig : Z) : bool :=
  (sig =? SIG64_CHLD) || (sig =? SIG64_CONT) || (sig =? SIG64_URG) || (sig =? SIG64_WINCH) ||
  (sig =? SIG64_STOP) || (sig =? SIG64_TSTP) || (sig =? SIG64_TTIN) || (sig =? SIG64_TTOU).

Section signal64.
  Context {W U : Type} `{!TaskView W, !UserMemory U}.

Record sst := mkSst {
  handlers_by_slot : list (list ksigaction64);
  delivered : Z;
  returns : Z;
  raised : Z;
  pending_by_slot : list Z;
  pending_by_task : list Z;
  sender_by_slot : list (list Z);
  sender_by_task : list (list Z);
  blocked_by_task : list Z;
  saved_by_task : list Z;
  has_saved_by_task : list bool;
  sas_sp_by_task : list Z;
  sas_size_by_task : list Z;
  world : W;
  umem : U
}.

Definition set_handlers_by_slot (v : list (list ksigaction64)) (s : sst) : sst :=
  mkSst v (delivered s) (returns s) (raised s) (pending_by_slot s) (pending_by_task s) (sender_by_slot s) (sender_by_task s) (blocked_by_task s) (saved_by_task s) (has_saved_by_task s) (sas_sp_by_task s) (sas_size_by_task s) (world s) (umem s).
Definition set_delivered (v : Z) (s : sst) : sst :=
  mkSst (handlers_by_slot s) v (returns s) (raised s) (pending_by_slot s) (pending_by_task s) (sender_by_slot s) (sender_by_task s) (blocked_by_task s) (saved_by_task s) (has_saved_by_task s) (sas_sp_by_task s) (sas_size_by_task s) (world s) (umem s).
Definition set_returns (v : Z) (s : sst) : sst :=
  mkSst (handlers_by_slot s) (delivered s) v (raised s) (pending_by_slot s) (pending_by_task s) (sender_by_slot s) (sender_by_task s) (blocked_by_task s) (saved_by_task s) (has_saved_by_task s) (sas_sp_by_task s) (sas_size_by_task s) (world s) (umem s).
Definition set_raised (v : Z) (s : sst) : sst :=
  mkSst (handlers_by_slot s) (delivered s) (returns s) v (pending_by_slot s) (pending_by_task s) (sender_by_slot s) (sender_by_task s) (blocked_by_task s) (saved_by_task s) (has_saved_by_task s) (sas_sp_by_task s) (sas_size_by_task s) (world s) (umem s).
Definition set_pending_by_slot (v : list Z) (s : sst) : sst :=
  mkSst (handlers_by_slot s) (delivered s) (returns s) (raised s) v (pending_by_task s) (sender_by_slot s) (sender_by_task s) (blocked_by_task s) (saved_by_task s) (has_saved_by_task s) (sas_sp_by_task s) (sas_size_by_task s) (world s) (umem s).
Definition set_pending_by_task (v : list Z) (s : sst) : sst :=
  mkSst (handlers_by_slot s) (delivered s) (returns s) (raised s) (pending_by_slot s) v (sender_by_slot s) (sender_by_task s) (blocked_by_task s) (saved_by_task s) (has_saved_by_task s) (sas_sp_by_task s) (sas_size_by_task s) (world s) (umem s).
Definition set_sender_by_slot (v : list (list Z)) (s : sst) : sst :=
  mkSst (handlers_by_slot s) (delivered s) (returns s) (raised s) (pending_by_slot s) (pending_by_task s) v (sender_by_task s) (blocked_by_task s) (saved_by_task s) (has_saved_by_task s) (sas_sp_by_task s) (sas_size_by_task s) (world s) (umem s).
Definition set_sender_by_task (v : list (list Z)) (s : sst) : sst :=
  mkSst (handlers_by_slot s) (delivered s) (returns s) (raised s) (pending_by_slot s) (pending_by_task s) (sender_by_slot s) v (blocked_by_task s) (saved_by_task s) (has_saved_by_task s) (sas_sp_by_task s) (sas_size_by_task s) (world s) (umem s).
Definition set_blocked_by_task (v : list Z) (s : sst) : sst :=
  mkSst (handlers_by_slot s) (delivered s) (returns s) (raised s) (pending_by_slot s) (pending_by_task s) (sender_by_slot s) (sender_by_task s) v (saved_by_task s) (has_saved_by_task s) (sas_sp_by_task s) (sas_size_by_task s) (world s) (umem s).
Definition set_saved_by_task (v : list Z) (s : sst) : sst :=
  mkSst (handlers_by_slot s) (delivered s) (returns s) (raised s) (pending_by_slot s) (pending_by_task s) (sender_by_slot s) (sender_by_task s) (blocked_by_task s) v (has_saved_by_task s) (sas_sp_by_task s) (sas_size_by_task s) (world s) (umem s).
Definition set_has_saved_by_task (v : list bool) (s : sst) : sst :=
  mkSst (handlers_by_slot s) (delivered s) (returns s) (raised s) (pending_by_slot s) (pending_by_task s) (sender_by_slot s) (sender_by_task s) (blocked_by_task s) (saved_by_task s) v (sas_sp_by_task s) (sas_size_by_task s) (world s) (umem s).
Definition set_sas_sp_by_task (v : list Z) (s : sst) : sst :=
  mkSst (handlers_by_slot s) (delivered s) (returns s) (raised s) (pending_by_slot s) (pending_by_task s) (sender_by_slot s) (sender_by_task s) (blocked_by_task s) (saved_by_task s) (has_saved_by_task s) v (sas_size_by_task s) (world s) (umem s).
Definition set_sas_size_by_task (v : list Z) (s : sst) : sst :=
  mkSst (handlers_by_slot s) (delivered s) (returns s) (raised s) (pending_by_slot s) (pending_by_task s) (sender_by_slot s) (sender_by_task s) (blocked_by_task s) (saved_by_task s) (has_saved_by_task s) (sas_sp_by_task s) v (world s) (umem s).
Definition set_world (v : W) (s : sst) : sst :=
  mkSst (handlers_by_slot s) (delivered s) (returns s) (raised s) (pending_by_slot s) (pending_by_task s) (sender_by_slot s) (sender_by_task s) (blocked_by_task s) (saved_by_task s) (has_saved_by_task s) (sas_sp_by_task s) (sas_size_by_task s) v (umem s).
Definition set_umem (v : U) (s : sst) : sst :=
  mkSst (handlers_by_slot s) (delivered s) (returns s) (raised s) (pending_by_slot s) (pending_by_task s) (sender_by_slot s) (sender_by_task s) (blocked_by_task s) (saved_by_task s) (has_saved_by_task s) (sas_sp_by_task s) (sas_size_by_task s) (world s) v.

Definition cur_task (s : sst) : Z := tv_current (world s).
Definition slot_of (pid : Z) (s : sst) : Z := tv_slot_of pid (world s).
Definition cur_slot (s : sst) : Z := slot_of (tv_current_pid (world s)) s.

(** The index of a process's table: slot 0 where there is no process. *)
Definition handlers_of (slot : Z) : Z := if is_slot slot then slot else 0.
Definition handler (slot sig : Z) (s : sst) : ksigaction64 := zget (zget (handlers_by_slot s) (handlers_of slot)) sig.
Definition put_handlers (slot : Z) (l : list ksigaction64) (s : sst) : sst :=
  set_handlers_by_slot (zset (handlers_by_slot s) (handlers_of slot) l) s.
Definition put_handler (slot sig : Z) (a : ksigaction64) (s : sst) : sst :=
  put_handlers slot (zset (zget (handlers_by_slot s) (handlers_of slot)) sig a) s.

Definition my_task (s : sst) : Z := if is_task (cur_task s) then cur_task s else -1.

(** [*my_blocked()]: without a task, a word that is always 0. *)
Definition my_blocked (s : sst) : Z := if is_task (cur_task s) then zget (blocked_by_task s) (cur_task s) else 0.
Definition put_blocked (t v : Z) (s : sst) : sst := set_blocked_by_task (zset (blocked_by_task s) t v) s.
Definition set_my_blocked (v : Z) (s : sst) : sst := if is_task (cur_task s) then put_blocked (cur_task s) v s else s.

Definition put_has_saved (t : Z) (b : bool) (s : sst) : sst := set_has_saved_by_task (zset (has_saved_by_task s) t b) s.
Definition put_pending_slot (i v : Z) (s : sst) : sst := set_pending_by_slot (zset (pending_by_slot s) i v) s.
Definition put_pending_task (t v : Z) (s : sst) : sst := set_pending_by_task (zset (pending_by_task s) t v) s.
Definition put_altstack (t sp size : Z) (s : sst) : sst :=
  set_sas_size_by_task (zset (sas_size_by_task s) t size) (set_sas_sp_by_task (zset (sas_sp_by_task s) t sp) s).

(** ** Masks *)

Definition signal64_push_mask (user_set : Z) (s : sst) : sst :=
  let t := cur_task s in
  if negb (is_task t) then s else
  let s := if negb (zget (has_saved_by_task s) t)
           then put_has_saved t true (set_saved_by_task (zset (saved_by_task s) t (zget (blocked_by_task s) t)) s) else s in
  put_blocked t (from_user_set user_set) s.

Definition signal64_pop_mask (s : sst) : bool * sst :=
  let t := cur_task s in
  if negb (is_task t) || negb (zget (has_saved_by_task s) t) then (false, s) else
  (true, put_has_saved t false (put_blocked t (zget (saved_by_task s) t) s)).

Definition signal64_blocked (tid : Z) (s : sst) : Z := if is_task tid then zget (blocked_by_task s) tid else 0.

(** The result and what is stored in [*oldset]. *)
Definition signal64_sigprocmask (how : Z) (set : option Z) (setsize : Z) (s : sst) : Z * option Z * sst :=
  let was := my_blocked s in
  if negb (setsize =? 8) then (-22, None, s) else
  let r := match set with
           | None => Some s
           | Some u =>
               let k := from_user_set u in
               if how =? SIG64_BLOCK then Some (set_my_blocked (Z.lor was k) s)
               else if how =? SIG64_UNBLOCK then Some (set_my_blocked (Z.ldiff was k) s)
               else if how =? SIG64_SETMASK then Some (set_my_blocked k s)
               else None
           end in
  match r with
  | None => (-22, None, s)
  | Some s' => (0, Some (to_user_set was), s')
  end.

Definition signal64_sigpending (s : sst) : Z :=
  let k := if is_task (cur_task s) then zget (pending_by_task s) (cur_task s) else 0 in
  let k := if is_slot (cur_slot s) then Z.lor k (zget (pending_by_slot s) (cur_slot s)) else k in
  Z.land (to_user_set k) (Z.shiftr (my_blocked s) 1).

Definition signal64_task_start (tid from_tid : Z) (s : sst) : sst :=
  if negb (is_task tid) then s else
  let s := put_pending_task tid 0 s in
  let s := put_blocked tid (if is_task from_tid then zget (blocked_by_task s) from_tid else 0) s in
  put_altstack tid 0 0 (put_has_saved tid false s).

(** ** Sending and taking *)

Definition signal64_disposition (pid sig : Z) (s : sst) : Z :=
  if (sig <=? 0) || (NSIG <=? sig) then SIG64_DISP_IGNORE else
  if sig =? SIG64_KILLSIG then SIG64_DISP_TERM else
  let h := handler (slot_of pid s) sig s in
  if sa_handler h =? SIG64_IGN then SIG64_DISP_IGNORE else
  if nz (sa_handler h) then SIG64_DISP_HANDLER else
  if default_is_ignore sig then SIG64_DISP_IGNORE else SIG64_DISP_TERM.

Definition signal64_raise (pid sig : Z) (s : sst) : Z * sst :=
  let slot := slot_of pid s in
  if (sig <=? 0) || (NSIG <=? sig) then (-22, s) else
  if negb (is_slot slot) then (-3, s) else
  let s := put_pending_slot slot (Z.lor (zget (pending_by_slot s) slot) (bit sig)) s in
  let s := set_sender_by_slot (zset (sender_by_slot s) slot (zset (zget (sender_by_slot s) slot) sig (tv_current_pid (world s)))) s in
  (0, set_raised (u64 (raised s + 1)) s).

Definition signal64_has_pending (pid : Z) (s : sst) : bool :=
  let slot := slot_of pid s in
  if negb (is_slot slot) then false else nz (Z.ldiff (zget (pending_by_slot s) slot) (my_blocked s)).

Definition signal64_take_pending (pid : Z) (s : sst) : Z * sst :=
  let slot := slot_of pid s in
  if negb (is_slot slot) then (0, s) else
  let set := Z.ldiff (zget (pending_by_slot s) slot) (my_blocked s) in
  if set =? 0 then (0, s) else
  match lowest set with
  | Some sig => (sig, put_pending_slot slot (Z.ldiff (zget (pending_by_slot s) slot) (bit sig)) s)
  | None => (0, s)
  end.

Definition signal64_raise_task (tid sig : Z) (s : sst) : Z * sst :=
  if (sig <=? 0) || (NSIG <=? sig) then (-22, s) else
  if negb (is_task tid) then (-3, s) else
  if tv_task_pid tid (world s) <? 0 then (-3, s) else
  let s := put_pending_task tid (Z.lor (zget (pending_by_task s) tid) (bit sig)) s in
  let s := set_sender_by_task (zset (sender_by_task s) tid (zset (zget (sender_by_task s) tid) sig (tv_current_pid (world s)))) s in
  (0, set_raised (u64 (raised s + 1)) s).

Definition signal64_has_pending_task (tid : Z) (s : sst) : bool :=
  if negb (is_task tid) then false else nz (Z.ldiff (zget (pending_by_task s) tid) (zget (blocked_by_task s) tid)).

Definition signal64_take_pending_task (tid : Z) (s : sst) : Z * sst :=
  if negb (is_task tid) then (0, s) else
  let set := Z.ldiff (zget (pending_by_task s) tid) (zget (blocked_by_task s) tid) in
  if set =? 0 then (0, s) else
  match lowest set with
  | Some sig => (sig, put_pending_task tid (Z.ldiff (zget (pending_by_task s) tid) (bit sig)) s)
  | None => (0, s)
  end.

(** The signal, [*to_thread] and [*sender]. *)
Definition signal64_take_in_set (user_set : Z) (s : sst) : Z * option (bool * Z) * sst :=
  let want := from_user_set user_set in
  let t := cur_task s in
  let slot := cur_slot s in
  match (if is_task t then lowest (Z.land (zget (pending_by_task s) t) want) else None) with
  | Some sig => (sig, Some (true, zget (zget (sender_by_task s) t) sig), put_pending_task t (Z.ldiff (zget (pending_by_task s) t) (bit sig)) s)
  | None =>
      match (if is_slot slot then lowest (Z.land (zget (pending_by_slot s) slot) want) else None) with
      | Some sig => (sig, Some (false, zget (zget (sender_by_slot s) slot) sig),
                     put_pending_slot slot (Z.ldiff (zget (pending_by_slot s) slot) (bit sig)) s)
      | None => (0, None, s)
      end
  end.

Definition signal64_pending_in_set (user_set : Z) (s : sst) : bool :=
  let have := if is_task (cur_task s) then zget (pending_by_task s) (cur_task s) else 0 in
  let have := if is_slot (cur_slot s) then Z.lor have (zget (pending_by_slot s) (cur_slot s)) else have in
  nz (Z.land have (from_user_set user_set)).

Definition signal64_clear_task (tid : Z) (s : sst) : sst := if is_task tid then put_pending_task tid 0 s else s.

Definition signal64_pending_set (pid : Z) (s : sst) : Z :=
  let slot := slot_of pid s in
  if is_slot slot then Z.ldiff (zget (pending_by_slot s) slot) (my_blocked s) else 0.
Definition signal64_pending_set_task (tid : Z) (s : sst) : Z :=
  if is_task tid then Z.ldiff (zget (pending_by_task s) tid) (zget (blocked_by_task s) tid) else 0.

(** ** The tables over the life of a process *)

Definition signal64_reset (s : sst) : sst :=
  let s := for_up 64 0 (fun i s => put_handler (cur_slot s) i no_act s) s in
  let s := for_up NSLOT 0 (fun i s => put_pending_slot i 0 s) s in
  let s := for_up NTASK 0 (fun i s => put_altstack i 0 0 (put_has_saved i false (put_blocked i 0 (put_pending_task i 0 s)))) s in
  set_raised 0 (set_returns 0 (set_delivered 0 s)).

Definition signal64_fork (parent_pid child_pid : Z) (s : sst) : sst :=
  let cslot := slot_of child_pid s in
  let from := slot_of parent_pid s in
  let s := if is_slot cslot then put_pending_slot cslot 0 s else s in
  if handlers_of from =? handlers_of cslot then s else
  for_up 64 0 (fun i s => put_handler cslot i (handler from i s) s) s.

Definition signal64_exec (s : sst) : sst :=
  let s := if 0 <=? my_task s then put_altstack (my_task s) 0 0 s else s in
  for_up 64 0 (fun i s => if sa_handler (handler (cur_slot s) i s) =? SIG64_IGN then s else put_handler (cur_slot s) i no_act s) s.

(** The result and what is stored in [*oact]. *)
Definition signal64_sigaction (sig : Z) (act : option ksigaction64) (s : sst) : Z * option ksigaction64 * sst :=
  if (sig <=? 0) || (NSIG <=? sig) then (-22, None, s) else
  let old := handler (cur_slot s) sig s in
  match act with
  | None => (0, Some old, s)
  | Some a =>
      if nz (sa_handler a) && negb (nz (Z.land (sa_flags a) SA_RESTORER)) then (-22, Some old, s)
      else (0, Some old, put_handler (cur_slot s) sig a s)
  end.

Definition on_altstack (sp : Z) (s : sst) : bool :=
  let t := my_task s in
  (0 <=? t) && nz (zget (sas_size_by_task s) t) && (zget (sas_sp_by_task s) t <=? sp) &&
  (sp <? u64 (zget (sas_sp_by_task s) t + zget (sas_size_by_task s) t)).

Definition signal64_task_inherit_altstack (tid from_tid : Z) (s : sst) : sst :=
  if negb (is_task tid) then s else if negb (is_task from_tid) then s else
  put_altstack tid (zget (sas_sp_by_task s) from_tid) (zget (sas_size_by_task s) from_tid) s.

(** [ss] is the sp, flags and size asked for; [*oss] comes back the same way. *)
Definition signal64_sigaltstack (new : option (Z * Z * Z)) (cur_rsp : Z) (s : sst) : Z * option (Z * Z * Z) * sst :=
  let t := my_task s in
  if t <? 0 then (-22, None, s) else
  let oss := (zget (sas_sp_by_task s) t,
              (if on_altstack cur_rsp s then SS_ONSTACK else if nz (zget (sas_size_by_task s) t) then 0 else SS_DISABLE),
              zget (sas_size_by_task s) t) in
  match new with
  | None => (0, Some oss, s)
  | Some (sp, flags, size) =>
      if on_altstack cur_rsp s then (-1, Some oss, s) else
      if nz (Z.land flags SS_DISABLE) then (0, Some oss, put_altstack t 0 0 s) else
      if size <? 2048 then (-12, Some oss, s) else (0, Some oss, put_altstack t sp size s)
  end.

(** ** Delivery *)

(** [for (p = addr & ~0xFFF; p < addr + len; p += 0x1000)]; [None] is a loop
    that goes on past the pages of the range. *)
Fixpoint present_loop (fuel : nat) (p limit : Z) (u : U) : option (bool * U) :=
  if negb (p <? limit) then Some (true, u) else
  match fuel with
  | O => None
  | S fuel' =>
      let '(ok, u) := um_touch p u in
      if (ok : bool) then present_loop fuel' (u64 (p + 0x1000)) limit u else Some (false, u)
  end.

Definition range_present (addr len : Z) (u : U) : option (bool * U) :=
  present_loop (Z.to_nat (len / 4096 + 2)) (and_not64 addr 0xFFF) (u64 (addr + len)) u.

(** The stack the handler starts on, above the frame. *)
Definition frame_top (sa : ksigaction64) (r : registers64) (s : sst) : Z :=
  let t := my_task s in
  if nz (Z.land (sa_flags sa) SA_ONSTACK) && (0 <=? t) && nz (zget (sas_size_by_task s) t) && negb (on_altstack (rsp r) s)
  then u64 (zget (sas_sp_by_task s) t + zget (sas_size_by_task s) t) else u64 (rsp r - 128).

Definition fpsp_of (sp : Z) : Z := and_not64 (u64 (sp - 512)) 63.
Definition frame_sp (fpsp : Z) : Z := u64 (and_not64 (u64 (fpsp - FRAME_SIZE)) 15 - 8).

(** The words of the frame. *)
Definition frame_words (sig fault_addr fpsp mask : Z) (sa : ksigaction64) (r : registers64) : list Z :=
  [sa_restorer sa; 0; 0; 0; 0; 0;
   r8 r; r9 r; r10 r; r11 r; r12 r; r13 r; r14 r; r15 r; rdi r; rsi r; rbp r; rbx r; rdx r; rax r; rcx r; rsp r; rip r; rflags r;
   Z.lor (u16 (cs r)) (Z.shiftl (u16 (ss r)) 48); err_code r; int_no r; mask; fault_addr; fpsp]
  ++ replicate 8 0 ++ mask :: replicate 15 0 ++ u32 sig :: 1 :: fault_addr :: replicate 13 0.

Definition enter_handler (sig sp : Z) (sa : ksigaction64) (r : registers64) : registers64 :=
  mkRegs (rax r) (rbx r) (rcx r) (u64 (sp + FRAME_UC)) (u64 (sp + FRAME_INFO)) sig (rbp r) (r8 r) (r9 r) (r10 r) (r11 r) (r12 r) (r13 r) (r14 r) (r15 r)
    (int_no r) (err_code r) (sa_handler sa) (cs r) (Z.ldiff (rflags r) (Z.lor (bit 10) (bit 8))) sp (ss r).

(** The mask for the handler's duration. *)
Definition handler_mask (sig : Z) (sa : ksigaction64) (b : Z) : Z :=
  let b := Z.lor b (from_user_set (sa_mask sa)) in
  let b := if nz (Z.land (sa_flags sa) SA_NODEFER) then b else Z.lor b (bit sig) in
  Z.ldiff b UNBLOCKABLE.

(** 1 and the registers that enter the handler, or 0; [None] is a page fault
    in the kernel. *)
Definition signal64_deliver (sig : Z) (r : registers64) (fault_addr : Z) (s : sst) : option (bool * registers64 * sst) :=
  if (sig <=? 0) || (NSIG <=? sig) then Some (false, r, s) else
  if Z.testbit (my_blocked s) sig then Some (false, r, s) else
  let sa := handler (cur_slot s) sig s in
  if sa_handler sa =? 0 then Some (false, r, s) else
  if sa_handler sa =? SIG64_IGN then Some (false, r, s) else
  if negb (Z.land (cs r) 3 =? 3) then Some (false, r, s) else
  let fpsp := fpsp_of (frame_top sa r s) in
  let sp := frame_sp fpsp in
  '(ok, u) ← range_present sp (u64 (fpsp + 512 - sp)) (umem s);
  let s := set_umem u s in
  if negb (ok : bool) then Some (false, r, s) else
  let t := cur_task s in
  let saved := is_task t && zget (has_saved_by_task s) t in
  let back := if saved then zget (saved_by_task s) t else my_blocked s in
  u ← um_write fpsp (um_fxsave u) u;
  u ← um_write sp (frame_words sig fault_addr fpsp (to_user_set back) sa r) u;
  let s := set_umem u s in
  let s := if saved then put_has_saved t false s else s in
  let s := set_my_blocked (handler_mask sig sa (my_blocked s)) s in
  let s := if nz (Z.land (sa_flags sa) SA_RESETHAND) then put_handler (cur_slot s) sig no_act s else s in
  Some (true, enter_handler sig sp sa r, set_delivered (u64 (delivered s + 1)) s).

Definition signal64_sigreturn (user_rsp : Z) (s : sst) : option (registers64 * sst) :=
  sc ← um_read (u64 (user_rsp + UC_MCONTEXT)) 24 (umem s);
  mask ← um_read (u64 (user_rsp + UC_SIGMASK)) 1 (umem s);
  let g := zget sc in
  let out := mkRegs (g 13) (g 11) (g 14) (g 12) (g 9) (g 8) (g 10) (g 0) (g 1) (g 2) (g 3) (g 4) (g 5) (g 6) (g 7)
    0 0 (g 16) 0x23 (Z.lor (Z.land (g 17) 0x0CD5) 0x202) (g 15) 0x1B in
  let s := set_my_blocked (from_user_set (zget mask 0)) s in
  let fp := g 23 in
  u ← (if nz fp && negb (nz (Z.land fp 15)) then
         '(ok, u) ← range_present fp 512 (umem s);
         if (ok : bool) then fx ← um_read fp 64 u; Some (um_fxrstor (clean_fx fx) u) else Some u
       else Some (umem s));
  let s := set_umem u s in
  Some (out, set_returns (u64 (returns s + 1)) s).
End signal64.

Arguments sst : clear implicits.

(** ** Sets of signals *)

(** A word without the bits [B]. *)
Definition lacks (B : Z -> Prop) (k : Z) : Prop := 0 <= k /\ forall i, 64 <= i \/ B i -> Z.testbit k i = false.
Definition never_blocked (i : Z) : Prop := i = 0 \/ i = SIG64_KILLSIG \/ i = SIG64_STOP.
Definition no_signal (i : Z) : Prop := i = 0.

(** A mask: no bit for what cannot be blocked.  A pending set: no bit 0. *)
Abbreviation mask_ok := (lacks never_blocked).
Abbreviation pend_ok := (lacks no_signal).

Lemma lacks_sub B B' k : (forall i, B' i -> B i) -> lacks B k -> lacks B' k.
Proof. intros Hs [Hk Hi]. split; [done|]. intros i [?|?]; apply Hi; [by left|right; by apply Hs]. Qed.

Lemma lacks_lor B a b : lacks B a -> lacks B b -> lacks B (Z.lor a b).
Proof. intros [Ha Ia] [Hb Ib]. split; [by apply Z.lor_nonneg|]. intros i Hi. by rewrite Z.lor_spec, Ia, Ib. Qed.

Lemma lacks_ldiff B a b : lacks B a -> lacks B (Z.ldiff a b).
Proof. intros [Ha Ia]. split; [apply Z.ldiff_nonneg; by left|]. intros i Hi. by rewrite Z.ldiff_spec, Ia. Qed.

Lemma lacks_0 B : lacks B 0.
Proof. split; [lia|]. intros. apply Z.bits_0. Qed.

Lemma lacks_word B k : lacks B k -> is_word k.
Proof.
  intros [Hk Hi]. split; [done|]. destruct (Z.eq_dec k 0) as [->|]; [done|]. destruct (Z.lt_ge_cases k (2 ^ 64)) as [|Hge]; [done|].
  assert (64 <= Z.log2 k) by (by apply Z.log2_le_pow2; lia). pose proof (Z.bit_log2 k ltac:(lia)) as Hb. rewrite Hi in Hb by (by left). done.
Qed.

Lemma bit_spec sig i : 0 <= sig -> Z.testbit (bit sig) i = (i =? sig).
Proof.
  intros Hs. unfold bit. rewrite Z.shiftl_mul_pow2, Z.mul_1_l by done. rewrite Z.pow2_bits_eqb by done. apply Z.eqb_sym.
Qed.

Lemma lacks_bit B sig : 0 <= sig < 64 -> ~ B sig -> lacks B (bit sig).
Proof.
  intros Hs HB. split; [unfold bit; apply Z.shiftl_nonneg; lia|]. intros i Hi. rewrite bit_spec by lia. apply Z.eqb_neq. intros ->. destruct Hi; [lia|done].
Qed.

Lemma unblockable_spec i : Z.testbit UNBLOCKABLE i = (i =? SIG64_KILLSIG) || (i =? SIG64_STOP).
Proof. unfold UNBLOCKABLE. by rewrite Z.lor_spec, !bit_spec. Qed.

Lemma from_user_set_spec u i : 0 <= i -> Z.testbit (from_user_set u) i =
  (1 <=? i) && (i <? 64) && Z.testbit u (i - 1) && negb ((i =? SIG64_KILLSIG) || (i =? SIG64_STOP)).
Proof.
  intros Hi. unfold from_user_set, u64. rewrite Z.ldiff_spec, unblockable_spec. f_equal.
  destruct (Z.ltb_spec i 64).
  - rewrite Z.mod_pow2_bits_low by lia. destruct (Z.leb_spec 1 i); [|by rewrite Z.shiftl_spec_low by lia].
    rewrite Z.shiftl_spec by lia. done.
  - rewrite Z.mod_pow2_bits_high by lia. by rewrite andb_false_r.
Qed.

(** Whatever set it is given, [from_user_set] makes a mask of it. *)
Lemma from_user_set_ok u : mask_ok (from_user_set u).
Proof.
  split; [apply Z.ldiff_nonneg; left; apply u64_range|]. intros i Hi.
  destruct (Z.lt_ge_cases i 0); [by apply Z.testbit_neg_r|]. rewrite from_user_set_spec by done.
  destruct Hi as [Hi|[->|[->| ->]]]; [|done|by rewrite andb_false_r|by rewrite andb_false_r].
  by rewrite (proj2 (Z.ltb_ge i 64)), andb_false_r by lia.
Qed.

Lemma to_from_user_set k : mask_ok k -> from_user_set (to_user_set k) = k.
Proof.
  intros [Hk Hi]. apply Z.bits_inj'. intros i Hi0. rewrite from_user_set_spec by done. unfold to_user_set.
  destruct (Z.leb_spec 1 i); [|replace i with 0 by lia; rewrite Hi; [done|right; by left]]. rewrite Z.shiftr_spec, Z.sub_add by lia.
  destruct (Z.ltb_spec i 64); [|rewrite Hi; [done|by left]]. cbn [andb].
  destruct (Z.eqb_spec i SIG64_KILLSIG) as [->|]; [rewrite Hi; [done|right; right; by left]|].
  destruct (Z.eqb_spec i SIG64_STOP) as [->|]; [rewrite Hi; [done|right; right; by right]|]. by rewrite andb_true_r.
Qed.

Lemma handler_mask_ok sig sa b : mask_ok b -> 0 < sig < 64 -> mask_ok (handler_mask sig sa b).
Proof.
  intros Hb Hs. unfold handler_mask. assert (pend_ok (Z.lor b (from_user_set (sa_mask sa)))) as H1.
  { apply (lacks_sub never_blocked); [by left|]. by apply lacks_lor, from_user_set_ok. }
  assert (forall k, pend_ok k -> mask_ok (Z.ldiff k UNBLOCKABLE)) as Hd.
  { intros k [Hk Hi]. split; [apply Z.ldiff_nonneg; by left|]. intros i Hii. rewrite Z.ldiff_spec, unblockable_spec.
    destruct Hii as [?|[?|[->| ->]]]; [rewrite Hi by (by left); done|rewrite Hi by (by right); done|by rewrite andb_false_r|by rewrite andb_false_r]. }
  apply Hd. destruct (nz _); [done|]. apply lacks_lor; [done|]. apply lacks_bit; [lia|unfold no_signal; lia].
Qed.

Lemma lowest_Some set sig : lowest set = Some sig -> 1 <= sig < 64 /\ Z.testbit set sig = true /\ forall i, 1 <= i < sig -> Z.testbit set i = false.
Proof. unfold lowest. intros (? & ? & Hm)%find_up_Some. split; [lia|]. done. Qed.

Lemma lowest_None set : lowest set = None -> forall i, 1 <= i < 64 -> Z.testbit set i = false.
Proof. unfold lowest. rewrite find_up_None. intros E i Hi. apply E. lia. Qed.

(** A pending set that is not empty has a lowest signal. *)
Lemma lowest_is_Some k : pend_ok k -> k <> 0 -> exists sig, lowest k = Some sig.
Proof.
  intros [Hk Hi] Hne. destruct (lowest k) as [sig|] eqn:E; [by eexists|]. destruct Hne. apply Z.bits_inj'. intros i Hi0. rewrite Z.bits_0.
  destruct (decide (i = 0)) as [->|]; [apply Hi; by right|]. destruct (decide (64 <= i)); [apply Hi; by left|]. apply (lowest_None k E). lia.
Qed.

(** ** The tables *)

Definition array_ok {A} (n : Z) (P : A -> Prop) (l : list A) : Prop := zlen l = n /\ Forall P l.

Lemma array_put {A} n (P : A -> Prop) l i v : array_ok n P l -> P v -> array_ok n P (zset l i v).
Proof. intros [Hl HF] Hv. split; [by rewrite zlen_zset|by apply zset_Forall]. Qed.

Lemma array_get {A} `{!Inhabited A} n (P : A -> Prop) l i : array_ok n P l -> 0 <= i < n -> P (zget l i).
Proof. intros [Hl HF] Hi. apply zget_Forall; [done|by rewrite Hl]. Qed.

(** A handler that can be called has a way back. *)
Definition act_ok (a : ksigaction64) : Prop := sa_handler a = 0 \/ Z.land (sa_flags a) SA_RESTORER <> 0.
Definition anything {A} (a : A) : Prop := True.

Section spec.
  Context {W U : Type} `{!TaskView W, !UserMemory U}.
  Implicit Types s : sst W U.

Record sig_ok s : Prop := {
  so_handlers : array_ok PROC64_MAX (array_ok NSIG act_ok) (handlers_by_slot s);
  so_slot : array_ok PROC64_MAX pend_ok (pending_by_slot s);
  so_task : array_ok SCHED64_MAX_TASKS pend_ok (pending_by_task s);
  so_blocked : array_ok SCHED64_MAX_TASKS mask_ok (blocked_by_task s);
  so_saved : array_ok SCHED64_MAX_TASKS mask_ok (saved_by_task s);
  so_has : array_ok SCHED64_MAX_TASKS anything (has_saved_by_task s);
  so_sp : array_ok SCHED64_MAX_TASKS anything (sas_sp_by_task s);
  so_size : array_ok SCHED64_MAX_TASKS anything (sas_size_by_task s)
}.

Lemma is_task_true t : is_task t = true <-> 0 <= t < SCHED64_MAX_TASKS.
Proof. unfold is_task. rewrite andb_true_iff, Z.leb_le, Z.ltb_lt. done. Qed.

Lemma is_slot_true i : is_slot i = true <-> 0 <= i < PROC64_MAX.
Proof. unfold is_slot. rewrite andb_true_iff, Z.leb_le, Z.ltb_lt. done. Qed.

Lemma handlers_of_range i : 0 <= handlers_of i < PROC64_MAX.
Proof. unfold handlers_of. destruct (is_slot i) eqn:E; [by apply is_slot_true|done]. Qed.

Lemma my_blocked_ok s : sig_ok s -> mask_ok (my_blocked s).
Proof.
  intros Hok. unfold my_blocked. destruct (is_task _) eqn:E; [|apply lacks_0]. apply (array_get _ _ _ _ (so_blocked _ Hok)). by apply is_task_true.
Qed.

Lemma blocked_ok s t : sig_ok s -> is_task t = true -> mask_ok (zget (blocked_by_task s) t).
Proof. intros Hok Ht. apply (array_get _ _ _ _ (so_blocked _ Hok)). by apply is_task_true. Qed.

Lemma saved_ok s t : sig_ok s -> is_task t = true -> mask_ok (zget (saved_by_task s) t).
Proof. intros Hok Ht. apply (array_get _ _ _ _ (so_saved _ Hok)). by apply is_task_true. Qed.

Lemma pslot_ok s i : sig_ok s -> is_slot i = true -> pend_ok (zget (pending_by_slot s) i).
Proof. intros Hok Ht. apply (array_get _ _ _ _ (so_slot _ Hok)). by apply is_slot_true. Qed.

Lemma ptask_ok s t : sig_ok s -> is_task t = true -> pend_ok (zget (pending_by_task s) t).
Proof. intros Hok Ht. apply (array_get _ _ _ _ (so_task _ Hok)). by apply is_task_true. Qed.

Lemma handler_ok s i sig : sig_ok s -> 0 <= sig < NSIG -> act_ok (handler i sig s).
Proof.
  intros Hok Hs. unfold handler. apply (array_get NSIG act_ok); [|done].
  exact (array_get _ _ _ _ (so_handlers _ Hok) (handlers_of_range i)).
Qed.

(** What each assignment to a table needs. *)
Lemma put_blocked_ok t v s : sig_ok s -> mask_ok v -> sig_ok (put_blocked t v s).
Proof. intros [] ?. split; cbn; try done. by apply array_put. Qed.

Lemma set_my_blocked_ok v s : sig_ok s -> mask_ok v -> sig_ok (set_my_blocked v s).
Proof. intros ? ?. unfold set_my_blocked. destruct (is_task _); [by apply put_blocked_ok|done]. Qed.

Lemma put_saved_ok t v s : sig_ok s -> mask_ok v -> sig_ok (set_saved_by_task (zset (saved_by_task s) t v) s).
Proof. intros [] ?. split; cbn; try done. by apply array_put. Qed.

Lemma put_has_saved_ok t b s : sig_ok s -> sig_ok (put_has_saved t b s).
Proof. intros []. split; cbn; try done. by apply array_put. Qed.

Lemma put_pending_slot_ok i v s : sig_ok s -> pend_ok v -> sig_ok (put_pending_slot i v s).
Proof. intros [] ?. split; cbn; try done. by apply array_put. Qed.

Lemma put_pending_task_ok t v s : sig_ok s -> pend_ok v -> sig_ok (put_pending_task t v s).
Proof. intros [] ?. split; cbn; try done. by apply array_put. Qed.

Lemma put_altstack_ok t a b s : sig_ok s -> sig_ok (put_altstack t a b s).
Proof. intros []. split; cbn; try done; by apply array_put. Qed.

Lemma put_handler_ok i sig a s : sig_ok s -> act_ok a -> sig_ok (put_handler i sig a s).
Proof.
  intros Hok Ha. pose proof (array_get _ _ _ _ (so_handlers _ Hok) (handlers_of_range i)) as Hl. destruct Hok. split; cbn; try done.
  apply array_put; [done|]. by apply array_put.
Qed.

Lemma same_tables_ok s s' : sig_ok s -> handlers_by_slot s' = handlers_by_slot s -> pending_by_slot s' = pending_by_slot s ->
  pending_by_task s' = pending_by_task s -> blocked_by_task s' = blocked_by_task s -> saved_by_task s' = saved_by_task s ->
  has_saved_by_task s' = has_saved_by_task s -> sas_sp_by_task s' = sas_sp_by_task s -> sas_size_by_task s' = sas_size_by_task s -> sig_ok s'.
Proof. intros [] E1 E2 E3 E4 E5 E6 E7 E8. split; [by rewrite E1|by rewrite E2|by rewrite E3|by rewrite E4|by rewrite E5|by rewrite E6|by rewrite E7|by rewrite E8]. Qed.

Lemma set_counts_ok s a b c : sig_ok s -> sig_ok (set_raised a (set_returns b (set_delivered c s))).
Proof. intros Hok. by apply (same_tables_ok s). Qed.

Lemma for_up_ok n i (f : Z -> sst W U -> sst W U) s : sig_ok s -> (forall k t, i <= k < i + Z.of_nat n -> sig_ok t -> sig_ok (f k t)) -> sig_ok (for_up n i f s).
Proof. intros H0 Hf. exact (for_up_ind (fun _ t => sig_ok t) f n i s H0 Hf). Qed.

Lemma no_act_ok : act_ok no_act.
Proof. by left. Qed.

(** ** The calls *)

Inductive sigop :=
  | OPush (set : Z) | OPop | OMask (how : Z) (set : option Z) (setsize : Z)
  | OAction (sig : Z) (act : option ksigaction64) | OAltstack (new : option (Z * Z * Z)) (sp : Z) | OExec
  | ORaise (pid sig : Z) | ORaiseTask (tid sig : Z) | OTake (pid : Z) | OTakeTask (tid : Z) | OTakeSet (set : Z)
  | OClear (tid : Z) | OStart (tid from : Z) | OInherit (tid from : Z) | OFork (parent child : Z) | OReset
  | ODeliver (sig : Z) (r : registers64) (addr : Z) | OReturn (sp : Z)
  | OWorld (w : W) | OMemory (u : U).

(** One of them, with its result; the last two are the rest of the system. *)
Definition sig_do (o : sigop) (s : sst W U) : option (Z * sst W U) :=
  match o with
  | OPush set => Some (0, signal64_push_mask set s)
  | OPop => let '(b, s) := signal64_pop_mask s in Some (if (b : bool) then 1 else 0, s)
  | OMask how set size => let '(r, _, s) := signal64_sigprocmask how set size s in Some (r, s)
  | OAction sig act => let '(r, _, s) := signal64_sigaction sig act s in Some (r, s)
  | OAltstack new sp => let '(r, _, s) := signal64_sigaltstack new sp s in Some (r, s)
  | OExec => Some (0, signal64_exec s)
  | ORaise pid sig => Some (signal64_raise pid sig s)
  | ORaiseTask tid sig => Some (signal64_raise_task tid sig s)
  | OTake pid => Some (signal64_take_pending pid s)
  | OTakeTask tid => Some (signal64_take_pending_task tid s)
  | OTakeSet set => let '(r, _, s) := signal64_take_in_set set s in Some (r, s)
  | OClear tid => Some (0, signal64_clear_task tid s)
  | OStart tid from => Some (0, signal64_task_start tid from s)
  | OInherit tid from => Some (0, signal64_task_inherit_altstack tid from s)
  | OFork p c => Some (0, signal64_fork p c s)
  | OReset => Some (0, signal64_reset s)
  | ODeliver sig r addr => '(ok, _, s) ← signal64_deliver sig r addr s; Some (if (ok : bool) then 1 else 0, s)
  | OReturn sp => '(_, s) ← signal64_sigreturn sp s; Some (1, s)
  | OWorld w => Some (0, set_world w s)
  | OMemory u => Some (0, set_umem u s)
  end.

Lemma deliver_ok sig r addr s b r' s' : sig_ok s -> signal64_deliver sig r addr s = Some (b, r', s') -> sig_ok s'.
Proof.
  intros Hok. unfold signal64_deliver. destruct ((sig <=? 0) || (NSIG <=? sig)) eqn:Hs; [by intros [= _ _ <-]|].
  apply orb_false_iff in Hs as [Hs1%Z.leb_gt Hs2%Z.leb_gt].
  destruct (Z.testbit _ _); [by intros [= _ _ <-]|]. destruct (_ =? 0); [by intros [= _ _ <-]|]. destruct (_ =? SIG64_IGN); [by intros [= _ _ <-]|].
  destruct (negb _); [by intros [= _ _ <-]|]. cbv zeta. destruct (range_present _ _ _) as [[ok u]|]; cbn [mbind option_bind]; [|done].
  assert (forall u, sig_ok (set_umem u s)) as Hu by (intros u'; by apply (same_tables_ok s)). destruct ok; cbn [negb]; [|intros [= _ _ <-]; apply Hu].
  destruct (um_write _ _ u) as [u1|]; cbn [mbind option_bind]; [|done]. destruct (um_write _ _ u1) as [u2|]; cbn [mbind option_bind]; [|done].
  intros E. apply (inj Some), pair_equal_spec in E as [_ <-].
  match goal with |- sig_ok (set_delivered _ ?x) => apply (same_tables_ok x); try done end.
  match goal with |- sig_ok (if _ then put_handler _ _ _ ?x else ?x) => assert (sig_ok x) as Hx end.
  { apply set_my_blocked_ok; [|apply handler_mask_ok; [apply my_blocked_ok|unfold NSIG in *; lia]]; destruct (_ && _); try apply put_has_saved_ok; apply Hu. }
  destruct (nz _); [|done]. apply put_handler_ok; [done|apply no_act_ok].
Qed.

Lemma sigreturn_ok sp s out s' : sig_ok s -> signal64_sigreturn sp s = Some (out, s') -> sig_ok s'.
Proof.
  intros Hok. unfold signal64_sigreturn. destruct (um_read _ 24 _) as [sc|]; cbn [mbind option_bind]; [|done].
  destruct (um_read _ 1 _) as [mask|]; cbn [mbind option_bind]; [|done]. cbv zeta.
  match goal with |- context [set_my_blocked ?v s] => assert (sig_ok (set_my_blocked v s)) as Hx by (apply set_my_blocked_ok; [done|apply from_user_set_ok]); set (x := set_my_blocked v s) in * end.
  match goal with |- mbind _ ?c = _ -> _ => destruct c as [u|] end; cbn [mbind option_bind]; [|done].
  intros E. apply (inj Some), pair_equal_spec in E as [_ <-]. by apply (same_tables_ok x).
Qed.

Lemma sigaltstack_ok new sp s r o s' : sig_ok s -> signal64_sigaltstack new sp s = (r, o, s') -> sig_ok s'.
Proof.
  intros Hok. unfold signal64_sigaltstack. destruct (_ <? 0); [by intros [= _ _ <-]|]. cbv zeta. destruct new as [[[a b] c]|]; [|by intros [= _ _ <-]].
  destruct (on_altstack _ _); [by intros [= _ _ <-]|]. destruct (nz (Z.land b _)); [intros [= _ _ <-]; by apply put_altstack_ok|].
  destruct (_ <? 2048); [by intros [= _ _ <-]|]. intros [= _ _ <-]. by apply put_altstack_ok.
Qed.

Lemma sigprocmask_ok how set size s r o s' : sig_ok s -> signal64_sigprocmask how set size s = (r, o, s') -> sig_ok s'.
Proof.
  intros Hok. pose proof (my_blocked_ok s Hok) as Hb. unfold signal64_sigprocmask. destruct (negb _); [by intros [= _ _ <-]|].
  destruct set as [u|]; [|by intros [= _ _ <-]]. pose proof (from_user_set_ok u) as Hu. cbv zeta. destruct (_ =? _).
  - intros [= _ _ <-]. apply set_my_blocked_ok; [done|by apply lacks_lor].
  - destruct (_ =? _); [intros [= _ _ <-]; apply set_my_blocked_ok; [done|by apply lacks_ldiff]|].
    destruct (_ =? _); [intros [= _ _ <-]; by apply set_my_blocked_ok|by intros [= _ _ <-]].
Qed.

Lemma raise_ok pid sig s r s' : sig_ok s -> signal64_raise pid sig s = (r, s') -> sig_ok s'.
Proof.
  intros Hok. unfold signal64_raise. destruct (_ || _) eqn:Hs; [by intros [= _ <-]|]. unfold NSIG in Hs. zbool. destruct (is_slot _) eqn:Hi; [|by intros [= _ <-]].
  intros [= _ <-]. eapply same_tables_ok; [apply (put_pending_slot_ok (slot_of pid s) (Z.lor (zget (pending_by_slot s) (slot_of pid s)) (bit sig)) s Hok)|done..].
  apply lacks_lor; [by apply pslot_ok|]. apply lacks_bit; [lia|unfold no_signal; lia].
Qed.

Lemma raise_task_ok tid sig s r s' : sig_ok s -> signal64_raise_task tid sig s = (r, s') -> sig_ok s'.
Proof.
  intros Hok. unfold signal64_raise_task. destruct (_ || _) eqn:Hs; [by intros [= _ <-]|]. unfold NSIG in Hs. zbool. destruct (is_task _) eqn:Hi; [|by intros [= _ <-]].
  cbn [negb]. destruct (_ <? 0); [by intros [= _ <-]|].
  intros [= _ <-]. eapply same_tables_ok; [apply (put_pending_task_ok tid (Z.lor (zget (pending_by_task s) tid) (bit sig)) s Hok)|done..].
  apply lacks_lor; [by apply ptask_ok|]. apply lacks_bit; [lia|unfold no_signal; lia].
Qed.

Lemma take_ok pid s r s' : sig_ok s -> signal64_take_pending pid s = (r, s') -> sig_ok s'.
Proof.
  intros Hok. unfold signal64_take_pending. destruct (is_slot _) eqn:Hi; [|by intros [= _ <-]]. cbn [negb]. cbv zeta. destruct (_ =? 0); [by intros [= _ <-]|].
  destruct (lowest _); intros [= _ <-]; [|done]. apply put_pending_slot_ok; [done|]. apply lacks_ldiff. by apply pslot_ok.
Qed.

Lemma take_task_ok tid s r s' : sig_ok s -> signal64_take_pending_task tid s = (r, s') -> sig_ok s'.
Proof.
  intros Hok. unfold signal64_take_pending_task. destruct (is_task _) eqn:Hi; [|by intros [= _ <-]]. cbn [negb]. cbv zeta. destruct (_ =? 0); [by intros [= _ <-]|].
  destruct (lowest _); intros [= _ <-]; [|done]. apply put_pending_task_ok; [done|]. apply lacks_ldiff. by apply ptask_ok.
Qed.

Lemma take_in_set_ok set s r o s' : sig_ok s -> signal64_take_in_set set s = (r, o, s') -> sig_ok s'.
Proof.
  intros Hok. unfold signal64_take_in_set. cbv zeta. destruct (is_task (cur_task s)) eqn:Ht, (is_slot (cur_slot s)) eqn:Hi;
    repeat (match goal with |- context [lowest ?x] => destruct (lowest x) end); intros [= _ _ <-]; try done;
    first [apply put_pending_task_ok; [done|apply lacks_ldiff; by apply ptask_ok]|apply put_pending_slot_ok; [done|apply lacks_ldiff; by apply pslot_ok]].
Qed.

Lemma fork_ok p c s : sig_ok s -> sig_ok (signal64_fork p c s).
Proof.
  intros Hok. unfold signal64_fork. cbv zeta.
  assert (sig_ok (if is_slot (slot_of c s) then put_pending_slot (slot_of c s) 0 s else s)) as Hx by (destruct (is_slot _); [apply put_pending_slot_ok; [done|apply lacks_0]|done]).
  destruct (_ =? _); [done|]. apply for_up_ok; [done|]. intros k t Hk Ht. apply put_handler_ok; [done|]. apply handler_ok; [done|unfold NSIG; lia].
Qed.

Lemma sigaction_ok sig act s r o s' : sig_ok s -> signal64_sigaction sig act s = (r, o, s') -> sig_ok s'.
Proof.
  intros Hok. unfold signal64_sigaction. destruct (_ || _) eqn:Hs; [by intros [= _ _ <-]|]. cbv zeta. destruct act as [a|]; [|by intros [= _ _ <-]].
  destruct (_ && _) eqn:Ha; [by intros [= _ _ <-]|]. intros [= _ _ <-]. apply put_handler_ok; [done|]. apply andb_false_iff in Ha as [Ha|Ha]; zbool; [by left|].
  right. unfold nz in Ha. by zbool.
Qed.

(** The type of the tables is kept by every call. *)
Lemma sig_do_ok o s r s' : sig_ok s -> sig_do o s = Some (r, s') -> sig_ok s'.
Proof.
  intros Hok. destruct o; cbn [sig_do].
  - intros [= _ <-]. unfold signal64_push_mask. cbv zeta. destruct (is_task _) eqn:Ht; [|done]. cbn [negb].
    apply put_blocked_ok; [|apply from_user_set_ok]. destruct (negb _); [|done]. apply put_has_saved_ok, put_saved_ok; [done|by apply blocked_ok].
  - unfold signal64_pop_mask. cbv zeta. destruct (is_task _) eqn:Ht; cbn [negb orb]; [|by intros [= _ <-]]. destruct (negb _); intros [= _ <-]; [done|].
    apply put_has_saved_ok, put_blocked_ok; [done|by apply saved_ok].
  - destruct (signal64_sigprocmask _ _ _ _) as [[? ?] ?] eqn:E. intros [= _ <-]. by apply (sigprocmask_ok _ _ _ _ _ _ _ Hok E).
  - destruct (signal64_sigaction _ _ _) as [[? ?] ?] eqn:E. intros [= _ <-]. by apply (sigaction_ok _ _ _ _ _ _ Hok E).
  - destruct (signal64_sigaltstack _ _ _) as [[? ?] ?] eqn:E. intros [= _ <-]. by apply (sigaltstack_ok _ _ _ _ _ _ Hok E).
  - intros [= _ <-]. unfold signal64_exec. apply for_up_ok; [destruct (0 <=? _); [by apply put_altstack_ok|done]|].
    intros k t _ Ht. destruct (_ =? SIG64_IGN); [done|]. apply put_handler_ok; [done|apply no_act_ok].
  - intros E. apply (inj Some) in E. by apply (raise_ok _ _ _ _ _ Hok E).
  - intros E. apply (inj Some) in E. by apply (raise_task_ok _ _ _ _ _ Hok E).
  - intros E. apply (inj Some) in E. by apply (take_ok _ _ _ _ Hok E).
  - intros E. apply (inj Some) in E. by apply (take_task_ok _ _ _ _ Hok E).
  - destruct (signal64_take_in_set _ _) as [[? ?] ?] eqn:E. intros [= _ <-]. by apply (take_in_set_ok _ _ _ _ _ Hok E).
  - intros [= _ <-]. unfold signal64_clear_task. destruct (is_task _); [apply put_pending_task_ok; [done|apply lacks_0]|done].
  - intros [= _ <-]. unfold signal64_task_start. destruct (is_task tid) eqn:Ht; [|done]. cbn [negb]. apply put_altstack_ok, put_has_saved_ok, put_blocked_ok.
    + apply put_pending_task_ok; [done|apply lacks_0].
    + destruct (is_task from) eqn:Hf; [exact (blocked_ok s from Hok Hf)|apply lacks_0].
  - intros [= _ <-]. unfold signal64_task_inherit_altstack. destruct (is_task tid), (is_task from); try done. by apply put_altstack_ok.
  - intros [= _ <-]. by apply fork_ok.
  - intros [= _ <-]. unfold signal64_reset. apply set_counts_ok, for_up_ok; [apply for_up_ok; [apply for_up_ok; [done|]|]|]; intros k t _ Ht.
    + apply put_handler_ok; [done|apply no_act_ok].
    + apply put_pending_slot_ok; [done|apply lacks_0].
    + apply put_altstack_ok, put_has_saved_ok, put_blocked_ok, lacks_0. apply put_pending_task_ok, lacks_0. done.
  - destruct (signal64_deliver _ _ _ _) as [[[? ?] ?]|] eqn:E; cbn [mbind option_bind]; [|done]. intros [= _ <-]. by apply (deliver_ok _ _ _ _ _ _ _ Hok E).
  - destruct (signal64_sigreturn _ _) as [[? ?]|] eqn:E; cbn [mbind option_bind]; [|done]. intros [= _ <-]. by apply (sigreturn_ok _ _ _ _ Hok E).
  - intros [= _ <-]. by apply (same_tables_ok s).
  - intros [= _ <-]. by apply (same_tables_ok s).
Qed.

Inductive runs : sst W U -> list (sigop * Z) -> sst W U -> Prop :=
  | runs_nil s : runs s [] s
  | runs_cons s o r s1 l s2 : sig_do o s = Some (r, s1) -> runs s1 l s2 -> runs s ((o, r) :: l) s2.

(** C18: the tables keep their types under any sequence of calls by any
    processes, with any arguments: the masks in force and the masks saved are
    64-bit sets without SIGKILL, without SIGSTOP and without the bit that is no
    signal, what is pending is a set of signals 1 to 63, and a handler that is
    installed has a way back. *)
Theorem signal64_tables_typed s l s' : sig_ok s -> runs s l s' ->
  sig_ok s' /\ forall tid, is_word (signal64_blocked tid s') /\
    Z.testbit (signal64_blocked tid s') SIG64_KILLSIG = false /\ Z.testbit (signal64_blocked tid s') SIG64_STOP = false.
Proof.
  intros Hok Hr. assert (sig_ok s') as Hok'.
  { induction Hr as [|s o r s1 l s2 Hdo _ IH]; [done|]. apply IH. by apply (sig_do_ok o s r). }
  split; [done|]. intros tid. assert (mask_ok (signal64_blocked tid s')) as Hm.
  { unfold signal64_blocked. destruct (is_task tid) eqn:E; [by apply blocked_ok|apply lacks_0]. }
  split; [by apply (lacks_word never_blocked)|]. destruct Hm as [_ Hi]. split; apply Hi; right; right; [by left|by right].
Qed.

(** ** SIGKILL *)

(** The calls that touch neither the pending sets of processes nor the world. *)
Definition quiet (s s' : sst W U) : Prop := pending_by_slot s' = pending_by_slot s /\ world s' = world s.

Lemma sig_quiet_trans s1 s2 s3 : quiet s1 s2 -> quiet s2 s3 -> quiet s1 s3.
Proof. unfold quiet. intros [] []. split; congruence. Qed.

Lemma quiet_my_blocked v s : quiet s (set_my_blocked v s).
Proof. unfold set_my_blocked. by destruct (is_task _). Qed.

Lemma quiet_for_up n i (f : Z -> sst W U -> sst W U) s : (forall k t, quiet t (f k t)) -> quiet s (for_up n i f s).
Proof.
  intros Hf. apply (for_up_ind (fun _ t => quiet s t) f n i s); [done|]. intros k t _ Ht. by apply (sig_quiet_trans s t).
Qed.

Lemma quiet_deliver sig r addr s b r' s' : signal64_deliver sig r addr s = Some (b, r', s') -> quiet s s'.
Proof.
  unfold signal64_deliver. destruct (_ || _); [by intros [= _ _ <-]|]. destruct (Z.testbit _ _); [by intros [= _ _ <-]|].
  destruct (_ =? 0); [by intros [= _ _ <-]|]. destruct (_ =? SIG64_IGN); [by intros [= _ _ <-]|]. destruct (negb _); [by intros [= _ _ <-]|]. cbv zeta.
  destruct (range_present _ _ _) as [[ok u]|]; cbn [mbind option_bind]; [|done]. destruct ok; cbn [negb]; [|by intros [= _ _ <-]].
  destruct (um_write _ _ u) as [u1|]; cbn [mbind option_bind]; [|done]. destruct (um_write _ _ u1) as [u2|]; cbn [mbind option_bind]; [|done].
  intros E. apply (inj Some), pair_equal_spec in E as [_ <-].
  match goal with |- quiet s (set_delivered _ (if _ then put_handler _ _ _ ?x else ?x)) => apply (sig_quiet_trans s x); [|by destruct (nz _)] end.
  match goal with |- quiet s (set_my_blocked _ ?x) => apply (sig_quiet_trans s x); [by destruct (_ && _)|apply quiet_my_blocked] end.
Qed.

Lemma quiet_sigreturn sp s out s' : signal64_sigreturn sp s = Some (out, s') -> quiet s s'.
Proof.
  unfold signal64_sigreturn. destruct (um_read _ 24 _) as [sc|]; cbn [mbind option_bind]; [|done].
  destruct (um_read _ 1 _) as [mask|]; cbn [mbind option_bind]; [|done]. cbv zeta.
  match goal with |- mbind _ ?c = _ -> _ => destruct c as [u|] end; cbn [mbind option_bind]; [|done].
  intros E. apply (inj Some), pair_equal_spec in E as [_ <-]. apply quiet_my_blocked.
Qed.

Lemma sig_do_quiet o s r s' : sig_do o s = Some (r, s') ->
  match o with ORaise _ _ | OTake _ | OTakeSet _ | OFork _ _ | OReset | OWorld _ => True | _ => quiet s s' end.
Proof.
  destruct o; cbn [sig_do]; try done.
  - intros [= _ <-]. unfold signal64_push_mask. cbv zeta. destruct (negb _); [done|]. by destruct (negb _).
  - unfold signal64_pop_mask. cbv zeta. destruct (_ || _); by intros [= _ <-].
  - unfold signal64_sigprocmask. destruct (negb _); [by intros [= _ <-]|]. destruct set as [u|]; [|by intros [= _ <-]]. cbv zeta.
    repeat (destruct (_ =? _); [intros [= _ <-]; apply quiet_my_blocked|]). by intros [= _ <-].
  - unfold signal64_sigaction. destruct (_ || _); [by intros [= _ <-]|]. destruct act; [|by intros [= _ <-]]. cbv zeta. destruct (_ && _); by intros [= _ <-].
  - unfold signal64_sigaltstack. destruct (_ <? 0); [by intros [= _ <-]|]. destruct new as [[[a b] c]|]; [|by intros [= _ <-]]. cbv zeta.
    destruct (on_altstack _ _); [by intros [= _ <-]|]. destruct (nz _); [by intros [= _ <-]|]. destruct (_ <? 2048); by intros [= _ <-].
  - intros [= _ <-]. unfold signal64_exec. cbv zeta.
    match goal with |- quiet s (for_up _ _ _ ?x) => apply (sig_quiet_trans s x); [by destruct (0 <=? _)|] end. apply quiet_for_up. intros k t. by destruct (_ =? SIG64_IGN).
  - unfold signal64_raise_task. destruct (_ || _); [by intros [= _ <-]|]. destruct (negb _); [by intros [= _ <-]|]. destruct (_ <? 0); by intros [= _ <-].
  - unfold signal64_take_pending_task. destruct (negb _); [by intros [= _ <-]|]. cbv zeta. destruct (_ =? 0); [by intros [= _ <-]|]. destruct (lowest _); by intros [= _ <-].
  - intros [= _ <-]. unfold signal64_clear_task. by destruct (is_task _).
  - intros [= _ <-]. unfold signal64_task_start. cbv zeta. by destruct (negb _).
  - intros [= _ <-]. unfold signal64_task_inherit_altstack. destruct (negb _); [done|]. by destruct (negb _).
  - destruct (signal64_deliver _ _ _ _) as [[[? ?] ?]|] eqn:E; cbn [mbind option_bind]; [|done]. intros [= _ <-]. by apply quiet_deliver in E.
  - destruct (signal64_sigreturn _ _) as [[? ?]|] eqn:E; cbn [mbind option_bind]; [|done]. intros [= _ <-]. by apply quiet_sigreturn in E.
  - by intros [= _ <-].
Qed.

(** SIGKILL is recorded against the process. *)
Definition kill_pending (pid : Z) (s : sst W U) : Prop :=
  is_slot (slot_of pid s) = true /\ Z.testbit (zget (pending_by_slot s) (slot_of pid s)) SIG64_KILLSIG = true.

(** The call is not one that ends the process's claim to the signal: the boot's
    reset, another process in its slot, or the taking of the SIGKILL itself. *)
Definition spares (pid : Z) (s : sst W U) (o : sigop) (r : Z) : Prop :=
  match o with
  | OReset => False
  | OFork _ c => slot_of c s <> slot_of pid s
  | OTake q => slot_of q s = slot_of pid s -> r <> SIG64_KILLSIG
  | OWorld w => tv_slot_of pid w = slot_of pid s
  | _ => True
  end.

Inductive spared (pid : Z) : sst W U -> sst W U -> Prop :=
  | spared_nil s : spared pid s s
  | spared_cons s o r s1 s2 : sig_do o s = Some (r, s1) -> spares pid s o r -> spared pid s1 s2 -> spared pid s s2.

Lemma kill_quiet pid s s' : quiet s s' -> kill_pending pid s -> kill_pending pid s'.
Proof. unfold kill_pending, slot_of. by intros [-> ->]. Qed.

Lemma kill_put pid i v s : sig_ok s -> is_slot i = true -> kill_pending pid s ->
  (i = slot_of pid s -> Z.testbit v SIG64_KILLSIG = true) -> kill_pending pid (put_pending_slot i v s).
Proof.
  intros Hok Hi%is_slot_true [Hs Hb] Hv. split; [done|]. change (slot_of pid (put_pending_slot i v s)) with (slot_of pid s). cbn [pending_by_slot put_pending_slot set_pending_by_slot].
  rewrite zget_zset; [|by rewrite (proj1 (so_slot _ Hok))|by apply is_slot_true in Hs as []]. destruct (Z.eqb_spec i (slot_of pid s)); [by apply Hv|done].
Qed.

Lemma clear_other k sig : 0 <= sig -> sig <> SIG64_KILLSIG -> Z.testbit (Z.ldiff k (bit sig)) SIG64_KILLSIG = Z.testbit k SIG64_KILLSIG.
Proof. intros Hs Hne. rewrite Z.ldiff_spec, bit_spec by done. rewrite (proj2 (Z.eqb_neq _ _)) by congruence. apply andb_true_r. Qed.

Lemma kill_step pid o s r s1 : sig_ok s -> sig_do o s = Some (r, s1) -> spares pid s o r -> kill_pending pid s -> kill_pending pid s1.
Proof.
  intros Hok Hdo Hsp Hk. pose proof (sig_do_quiet o s r s1 Hdo) as Hq. destruct o; try (by apply (kill_quiet pid s)); cbn [sig_do spares] in *; clear Hq.
  - unfold signal64_raise in Hdo. destruct (_ || _) eqn:Hs; [injection Hdo as _ <-; done|]. destruct (is_slot (slot_of pid0 s)) eqn:Hi; [|injection Hdo as _ <-; done].
    injection Hdo as _ <-. apply (kill_put pid (slot_of pid0 s)); [done|done|done|]. intros E. rewrite Z.lor_spec, E. by rewrite (proj2 Hk).
  - unfold signal64_take_pending in Hdo. destruct (is_slot (slot_of pid0 s)) eqn:Hi; [|injection Hdo as _ <-; done]. cbn [negb] in Hdo. cbv zeta in Hdo.
    destruct (_ =? 0); [injection Hdo as _ <-; done|]. destruct (lowest _) as [sig|] eqn:El; [|injection Hdo as _ <-; done]. injection Hdo as <- <-.
    apply lowest_Some in El as (Hr & _ & _). apply kill_put; [done|done|done|]. intros E. rewrite clear_other by (lia || by apply Hsp). by rewrite E, (proj2 Hk).
  - unfold signal64_take_in_set in Hdo. cbv zeta in Hdo. destruct (if is_task _ then _ else _) as [sig|]; [injection Hdo as _ <-; done|].
    destruct (is_slot (cur_slot s)) eqn:Hi; [|injection Hdo as _ <-; done]. destruct (lowest _) as [sig|] eqn:El; [|injection Hdo as _ <-; done]. injection Hdo as _ <-.
    apply lowest_Some in El as (Hr & Hb & _). apply kill_put; [done|done|done|]. intros E. rewrite clear_other; [by rewrite E, (proj2 Hk)|lia|].
    intros ->. rewrite Z.land_spec in Hb. apply andb_true_iff in Hb as [_ Hb]. destruct (from_user_set_ok set) as [_ Hm]. rewrite Hm in Hb; [done|right; right; by left].
  - injection Hdo as _ <-. unfold signal64_fork. cbv zeta. assert (kill_pending pid (if is_slot (slot_of child s) then put_pending_slot (slot_of child s) 0 s else s)) as Hx.
    { destruct (is_slot _) eqn:Hi; [|done]. apply kill_put; [done|done|done|]. intros E. by destruct Hsp. }
    destruct (_ =? _); [done|]. eapply kill_quiet; [|exact Hx]. by apply quiet_for_up.
  - injection Hdo as _ <-. unfold kill_pending, slot_of in *. cbn. by rewrite Hsp.
Qed.

(** C15: nothing a process does saves it from SIGKILL.  Once it is raised, then
    after any calls, by it or by others - masks, handlers, waits for signals,
    other signals sent and taken - whichever thread of the process asks is told
    of a pending signal, what is taken is SIGKILL or a signal before it, which
    leaves SIGKILL pending, and its disposition is to end the process. *)
Theorem signal64_kill_is_final s pid s1 s2 : sig_ok s -> signal64_raise pid SIG64_KILLSIG s = (0, s1) -> spared pid s1 s2 ->
  signal64_has_pending pid s2 = true /\ signal64_disposition pid SIG64_KILLSIG s2 = SIG64_DISP_TERM /\
  (let '(sig, s3) := signal64_take_pending pid s2 in 1 <= sig <= SIG64_KILLSIG /\ (sig = SIG64_KILLSIG \/ signal64_has_pending pid s3 = true)).
Proof.
  intros Hok Hr Hsp. assert (sig_ok s1 /\ kill_pending pid s1) as [Hok1 Hk1].
  { split; [by apply (raise_ok pid SIG64_KILLSIG s 0)|]. unfold signal64_raise in Hr. cbn [orb] in Hr. destruct (is_slot (slot_of pid s)) eqn:Hi; [|done].
    injection Hr as <-. split; [done|]. change (slot_of pid _) with (slot_of pid s). cbn [pending_by_slot set_raised set_sender_by_slot put_pending_slot set_pending_by_slot]. apply is_slot_true in Hi.
    rewrite zget_zset_eq by (rewrite (proj1 (so_slot _ Hok)); done). rewrite Z.lor_spec, bit_spec by done. by rewrite orb_true_r. }
  assert (sig_ok s2 /\ kill_pending pid s2) as [Hok2 Hk2].
  { clear Hr Hok. induction Hsp as [|s1 o r s' s2 Hdo Hs _ IH]; [done|]. apply IH; [by apply (sig_do_ok o s1 r)|by apply (kill_step pid o s1 r)]. }
  assert (forall t, sig_ok t -> kill_pending pid t -> Z.testbit (Z.ldiff (zget (pending_by_slot t) (slot_of pid t)) (my_blocked t)) SIG64_KILLSIG = true) as Hb.
  { intros t Ht [_ Hb]. rewrite Z.ldiff_spec, Hb. destruct (my_blocked_ok t Ht) as [_ ->]; [done|right; right; by left]. }
  assert (forall t, sig_ok t -> kill_pending pid t -> signal64_has_pending pid t = true) as Hhas.
  { intros t Ht Hk. unfold signal64_has_pending. rewrite (proj1 Hk). cbn [negb]. apply nz_true. intros E. specialize (Hb t Ht Hk). rewrite E in Hb. done. }
  split; [by apply Hhas|]. split; [done|]. destruct (signal64_take_pending pid s2) as [sig s3] eqn:Et.
  pose proof (take_ok pid s2 sig s3 Hok2 Et) as Hok3. pose proof (kill_step pid (OTake pid) s2 sig s3 Hok2) as Hstep. cbn [sig_do spares] in Hstep. rewrite Et in Hstep.
  unfold signal64_take_pending in Et. rewrite (proj1 Hk2) in Et. cbn [negb] in Et. cbv zeta in Et. specialize (Hb s2 Hok2 Hk2).
  destruct (Z.eqb_spec (Z.ldiff (zget (pending_by_slot s2) (slot_of pid s2)) (my_blocked s2)) 0) as [E|_]; [by rewrite E in Hb|].
  destruct (lowest _) as [sg|] eqn:El.
  - injection Et as Esg _. subst sg. apply lowest_Some in El as (Hr1 & _ & Hmin). split.
    + destruct (Z.le_gt_cases sig SIG64_KILLSIG); [lia|]. rewrite Hmin in Hb; [done|unfold SIG64_KILLSIG in *; lia].
    + destruct (Z.eq_dec sig SIG64_KILLSIG); [by left|]. right. apply Hhas; [done|]. by apply Hstep.
  - rewrite (lowest_None _ El) in Hb; [done|unfold SIG64_KILLSIG; lia].
Qed.

(** ** The frame *)

Lemma round_down v n : 0 <= n <= 64 -> 0 <= v < 2 ^ 64 -> and_not64 v (2 ^ n - 1) = v / 2 ^ n * 2 ^ n.
Proof.
  intros Hn Hv. unfold and_not64. replace (2 ^ 64 - 1 - (2 ^ n - 1)) with (Z.shiftl (Z.ones (64 - n)) n).
  - rewrite land_field by lia. f_equal. apply Z.mod_small. split; [apply Z.div_pos; lia|]. apply Z.div_lt_upper_bound; [lia|].
    rewrite <-Z.pow_add_r by lia. replace (n + (64 - n)) with 64 by lia. lia.
  - rewrite Z.shiftl_mul_pow2, Z.ones_equiv by lia. rewrite <-Z.sub_1_r, Z.mul_sub_distr_r, <-Z.pow_add_r by lia.
    replace (64 - n + n) with 64 by lia. lia.
Qed.

(** Where the parts of the frame are, from the top of the stack it is on. *)
Lemma frame_places top : 2048 <= top < 2 ^ 47 ->
  let fp := fpsp_of top in let sp := frame_sp fp in
  fp mod 64 = 0 /\ sp mod 16 = 8 /\ 0 < sp /\ sp + FRAME_SIZE <= fp /\ fp + 512 <= top /\ top <= sp + 2048.
Proof.
  intros Ht fp sp. assert (fp = (top - 512) / 64 * 64) as Hfp.
  { unfold fp, fpsp_of. rewrite u64_small by lia. change 63 with (2 ^ 6 - 1). by rewrite round_down by lia. }
  clearbody fp. assert (0 <= fp - FRAME_SIZE < 2 ^ 47 /\ fp mod 64 = 0) as [Hr Hm].
  { rewrite Hfp, Z.mod_mul by lia. unfold FRAME_SIZE. split; [|done]. Z.to_euclidean_division_equations. lia. }
  assert (sp = (fp - FRAME_SIZE) / 16 * 16 - 8) as Hsp.
  { unfold sp, frame_sp. rewrite (u64_small (fp - FRAME_SIZE)) by lia. change 15 with (2 ^ 4 - 1). rewrite round_down by lia. change (2 ^ 4) with 16.
    apply u64_small. unfold FRAME_SIZE in *. subst fp. Z.to_euclidean_division_equations. lia. }
  clearbody sp. unfold FRAME_SIZE in *. split; [done|]. subst. Z.to_euclidean_division_equations. lia.
Qed.

(** Memory where more pages may be there, but every word is as it was. *)
Definition keeps (u u' : U) : Prop :=
  (forall q, um_there u q -> um_there u' q) /\ (forall a n x, um_read a n u = Some x -> um_read a n u' = Some x) /\ um_fxsave u' = um_fxsave u.

Lemma kept_refl u : keeps u u.
Proof. done. Qed.

Lemma kept_trans u1 u2 u3 : keeps u1 u2 -> keeps u2 u3 -> keeps u1 u3.
Proof. intros (A1 & A2 & A3) (B1 & B2 & B3). split_and!; [eauto|eauto|congruence]. Qed.

Lemma keeps_touch p u : keeps u (snd (um_touch p u)).
Proof. split_and!; [intros; by apply um_touch_keeps|intros; by apply um_touch_read|apply um_touch_fx]. Qed.

Lemma present_loop_spec fuel k limit u : 0 <= k -> limit <= 2 ^ 64 - 4096 -> limit <= (k + Z.of_nat fuel) * 4096 ->
  exists ok u', present_loop fuel (k * 4096) limit u = Some (ok, u') /\ keeps u u' /\
    (ok = true -> forall q, k <= q -> q * 4096 < limit -> um_there u' (q * 4096)) /\
    ((forall q, k <= q -> q * 4096 < limit -> um_there u (q * 4096)) -> ok = true /\ u' = u).
Proof.
  intros Hk Hl Hf. revert k u Hk Hf. induction fuel as [|fuel IH]; intros k u Hk Hf; cbn [present_loop].
  - rewrite (proj2 (Z.ltb_ge _ _)) by lia. exists true, u. split_and!; [done|apply kept_refl|intros; lia|done].
  - destruct (Z.ltb_spec (k * 4096) limit); cbn [negb].
    2: { exists true, u. split_and!; [done|apply kept_refl|intros; lia|done]. }
    destruct (um_touch (k * 4096) u) as [ok u1] eqn:Et. pose proof (keeps_touch (k * 4096) u) as Hk1. pose proof (um_touch_there (k * 4096) u) as Hth.
    rewrite Et in Hk1, Hth. cbn [fst snd] in Hk1, Hth. destruct ok.
    + rewrite u64_small by lia. replace (k * 4096 + 0x1000) with ((k + 1) * 4096) by lia.
      destruct (IH (k + 1) u1 ltac:(lia) ltac:(lia)) as (ok' & u' & Hr & Hke & Hall & Hsame). exists ok', u'. split; [done|].
      split; [by apply (kept_trans u u1)|]. split.
      * intros Hok q Hq1 Hq2. destruct (Z.eq_dec q k) as [->|]; [apply Hke; by apply Hth|]. apply Hall; [done|lia|done].
      * intros Hth2. rewrite um_touch_again in Et by (apply Hth2; lia). injection Et as <-. apply Hsame. intros q Hq1 Hq2. apply Hth2; lia.
    + exists false, u1. split_and!; [done|done|done|]. intros Hth2. rewrite um_touch_again in Et by (apply Hth2; lia). done.
Qed.

Lemma range_present_spec addr len u : 0 <= addr -> 0 < len -> addr + len <= 2 ^ 64 - 4096 ->
  exists ok u', range_present addr len u = Some (ok, u') /\ keeps u u' /\
    (ok = true -> forall q, addr / 4096 <= q <= (addr + len - 1) / 4096 -> um_there u' (q * 4096)) /\
    ((forall q, addr / 4096 <= q <= (addr + len - 1) / 4096 -> um_there u (q * 4096)) -> ok = true /\ u' = u).
Proof.
  intros Ha Hl Hs. unfold range_present. rewrite (u64_small (addr + len)) by lia. change 0xFFF with (2 ^ 12 - 1). rewrite round_down by lia. change (2 ^ 12) with 4096.
  assert (forall q, addr / 4096 <= q <= (addr + len - 1) / 4096 <-> addr / 4096 <= q /\ q * 4096 < addr + len) as Heq.
  { intros q. Z.to_euclidean_division_equations. lia. }
  destruct (present_loop_spec (Z.to_nat (len / 4096 + 2)) (addr / 4096) (addr + len) u) as (ok & u' & H1 & H2 & H3 & H4).
  - apply Z.div_pos; lia.
  - lia.
  - rewrite Z2Nat.id by (apply Z.add_nonneg_nonneg; [apply Z.div_pos; lia|lia]). Z.to_euclidean_division_equations. lia.
  - exists ok, u'. split; [done|]. split; [done|]. split.
    + intros Hok q [? ?]%Heq. by apply H3.
    + intros Hth. apply H4. intros q ? ?. apply Hth. by apply Heq.
Qed.

Lemma frame_words_length sig addr fp mask sa r : length (frame_words sig addr fp mask sa r) = 70%nat.
Proof. done. Qed.

(** The mask the interrupted code goes on with: inside [rt_sigsuspend] or
    [ppoll] the one from before the call. *)
Definition back_mask s : Z :=
  if is_task (cur_task s) && zget (has_saved_by_task s) (cur_task s) then zget (saved_by_task s) (cur_task s) else my_blocked s.

(** The signal is for a handler, and the fault is the program's. *)
Definition for_handler (sig : Z) (r : registers64) s : bool :=
  (0 <? sig) && (sig <? NSIG) && negb (Z.testbit (my_blocked s) sig) &&
  negb (sa_handler (handler (cur_slot s) sig s) =? 0) && negb (sa_handler (handler (cur_slot s) sig s) =? SIG64_IGN) && (Z.land (cs r) 3 =? 3).

(** What a delivery to the frame at [sp] with the floating-point state at [fp]
    leaves. *)
Record entered (sig : Z) (r : registers64) (addr sp fp : Z) s (r1 : registers64) (s1 : sst W U) : Prop := {
  en_regs : r1 = enter_handler sig sp (handler (cur_slot s) sig s) r;
  en_world : world s1 = world s;
  en_mask : is_task (cur_task s) = true -> my_blocked s1 = handler_mask sig (handler (cur_slot s) sig s) (my_blocked s);
  en_frame : um_read sp 70 (umem s1) = Some (map u64 (frame_words sig addr fp (to_user_set (back_mask s)) (handler (cur_slot s) sig s) r));
  en_fx : um_read fp 64 (umem s1) = Some (um_fxsave (umem s));
  en_there q : sp / 4096 <= q <= (fp + 511) / 4096 -> um_there (umem s1) (q * 4096);
  en_else a n x : um_read a n (umem s) = Some x -> a + 8 * Z.of_nat n <= sp \/ fp + 512 <= a -> um_read a n (umem s1) = Some x
}.

Lemma my_blocked_set v s : sig_ok s -> is_task (cur_task s) = true -> my_blocked (set_my_blocked v s) = v.
Proof.
  intros Hok Ht. unfold set_my_blocked. rewrite Ht. unfold my_blocked. change (cur_task (put_blocked (cur_task s) v s)) with (cur_task s). rewrite Ht.
  cbn [blocked_by_task put_blocked set_blocked_by_task]. apply zget_zset_eq. rewrite (proj1 (so_blocked _ Hok)). by apply is_task_true.
Qed.

Lemma map_u64_words l : Forall is_word l -> map u64 l = l.
Proof. induction 1 as [|w l Hw _ IH]; [done|]. cbn [map]. rewrite IH. f_equal. by apply u64_small. Qed.

(** The words of the frame and of the floating-point state, once they are
    written. *)
Lemma frame_written sp fp u0 ws : 0 < sp -> sp + FRAME_SIZE <= fp -> length ws = 70%nat ->
  (forall q, sp / 4096 <= q <= (fp + 511) / 4096 -> um_there u0 (q * 4096)) ->
  exists u1 u2, um_write fp (um_fxsave u0) u0 = Some u1 /\ um_write sp ws u1 = Some u2 /\
    um_read sp 70 u2 = Some (map u64 ws) /\ um_read fp 64 u2 = Some (um_fxsave u0) /\
    (forall q, um_there u0 q -> um_there u2 q) /\
    (forall a n x, um_read a n u0 = Some x -> a + 8 * Z.of_nat n <= sp \/ fp + 512 <= a -> um_read a n u2 = Some x).
Proof.
  unfold FRAME_SIZE. intros Hsp Hfp Hlen Hth.
  destruct (um_write_ok fp (um_fxsave u0) u0) as [u1 H1].
  { intros q. rewrite um_fx_len. intros Hq. apply Hth. Z.to_euclidean_division_equations. lia. }
  destruct (um_write_ok sp ws u1) as [u2 H2].
  { intros q. rewrite Hlen. intros Hq. apply (um_write_keeps _ _ _ _ _ H1). apply Hth. Z.to_euclidean_division_equations. lia. }
  exists u1, u2. split_and!; [done|done| | | |].
  - rewrite <-Hlen. by apply (um_write_read _ _ _ _ H2).
  - apply (um_write_else _ _ _ _ _ _ _ H2); [|rewrite Hlen; lia]. rewrite <-(um_fx_len u0), (um_write_read _ _ _ _ H1). by rewrite map_u64_words by apply um_fx_words.
  - intros q Hq. by apply (um_write_keeps _ _ _ _ _ H2), (um_write_keeps _ _ _ _ _ H1).
  - intros a n x Hx Hr. apply (um_write_else _ _ _ _ _ _ _ H2); [|rewrite Hlen; lia].
    apply (um_write_else _ _ _ _ _ _ _ H1); [done|]. rewrite um_fx_len. lia.
Qed.

Lemma deliver_for_handler sig r addr s : for_handler sig r s = false -> signal64_deliver sig r addr s = Some (false, r, s).
Proof.
  unfold for_handler, signal64_deliver. intros H.
  destruct (Z.ltb_spec 0 sig), (Z.leb_spec sig 0); try lia; [|done]. cbn [andb orb] in *.
  destruct (Z.ltb_spec sig NSIG), (Z.leb_spec NSIG sig); try lia; [|done]. cbn [andb orb] in *.
  destruct (Z.testbit _ _); [done|]. cbn [andb negb] in *. cbv zeta. destruct (_ =? 0); [done|]. cbn [andb negb] in *.
  destruct (_ =? SIG64_IGN); [done|]. cbn [andb negb] in *. by rewrite H.
Qed.

(** Every delivery, for a stack in the program's half of the address space. *)
Lemma deliver_spec sig r addr s : sig_ok s -> for_handler sig r s = true ->
  let top := frame_top (handler (cur_slot s) sig s) r s in
  let fp := fpsp_of top in let sp := frame_sp fp in
  2048 <= top < 2 ^ 47 ->
  exists b r1 s1, signal64_deliver sig r addr s = Some (b, r1, s1) /\
    (b = false -> r1 = r /\ exists u, s1 = set_umem u s /\ keeps (umem s) u /\ range_present sp (fp + 512 - sp) (umem s) = Some (false, u)) /\
    (b = true -> entered sig r addr sp fp s r1 s1) /\
    ((forall q, sp / 4096 <= q <= (fp + 511) / 4096 -> um_there (umem s) (q * 4096)) -> b = true).
Proof.
  intros Hok Hfh top fp sp Ht. pose proof (frame_places top Ht) as Hpl. cbv zeta in Hpl.
  change (fpsp_of top) with fp in Hpl. change (frame_sp fp) with sp in Hpl. destruct Hpl as (Hfm & Hsm & Hsp & Hfr & Htop & Hlow).
  unfold for_handler in Hfh. rewrite !andb_true_iff, !negb_true_iff, !Z.ltb_lt in Hfh. destruct Hfh as (((((Hs1 & Hs2) & Hb) & Hh0) & Hh1) & Hcs).
  unfold signal64_deliver. rewrite (proj2 (Z.leb_gt _ _) Hs1), (proj2 (Z.leb_gt _ _) Hs2), Hb. cbn [orb]. cbv zeta. rewrite Hh0, Hh1, Hcs. cbn [negb].
  change (frame_top (handler (cur_slot s) sig s) r s) with top. change (fpsp_of top) with fp. change (frame_sp fp) with sp. clearbody sp fp. unfold FRAME_SIZE in Hfr.
  destruct (range_present_spec sp (fp + 512 - sp) (umem s)) as (ok & u & Hrp & Hke & Hall & Hsame); [lia|lia|lia|].
  rewrite u64_small, Hrp by lia. replace (sp + (fp + 512 - sp) - 1) with (fp + 511) in * by lia. cbn [mbind option_bind]. destruct ok; cbn [negb].
  2: { exists false, r, (set_umem u s). split; [done|]. split; [intros _; split; [done|]; by exists u|]. split; [done|]. intros Hq. by destruct (Hsame Hq). }
  set (sa := handler (cur_slot s) sig s) in *.
  destruct (frame_written sp fp u (frame_words sig addr fp (to_user_set (back_mask s)) sa r)) as (u1 & u2 & W1 & W2 & R1 & R2 & K & E).
  { done. } { unfold FRAME_SIZE. lia. } { apply frame_words_length. } { by apply Hall. }
  change (cur_task (set_umem u s)) with (cur_task s). change (has_saved_by_task (set_umem u s)) with (has_saved_by_task s).
  change (saved_by_task (set_umem u s)) with (saved_by_task s). change (my_blocked (set_umem u s)) with (my_blocked s).
  change (if is_task (cur_task s) && zget (has_saved_by_task s) (cur_task s) then zget (saved_by_task s) (cur_task s) else my_blocked s) with (back_mask s).
  rewrite W1. cbn [mbind option_bind]. rewrite W2. cbn [mbind option_bind].
  do 3 eexists. split; [reflexivity|]. split; [done|]. split; [intros _|done].
  match goal with |- entered _ _ _ _ _ _ _ (set_delivered _ (if _ then put_handler _ _ _ (set_my_blocked ?v ?x) else _)) =>
    assert (sig_ok x /\ cur_task x = cur_task s /\ world x = world s /\ umem x = u2 /\ my_blocked x = my_blocked s) as (Hx & Hxt & Hxw & Hxu & Hxb);
    [|set (y := x) in *; clearbody y] end.
  { assert (sig_ok (set_umem u2 (set_umem u s))) by (by apply (same_tables_ok s)). destruct (_ && _); [split; [by apply put_has_saved_ok|done]|done]. }
  rewrite Hxb. set (v := handler_mask _ _ _). assert (world (set_my_blocked v y) = world s /\ umem (set_my_blocked v y) = u2) as [Hyw Hyu].
  { unfold set_my_blocked. by destruct (is_task _). }
  assert (is_task (cur_task s) = true -> my_blocked (set_my_blocked v y) = v) as Hym by (intros; apply my_blocked_set; [done|by rewrite Hxt]).
  set (z := set_my_blocked v y) in *. clearbody z.
  split.
  - done.
  - by destruct (nz _).
  - intros Htk. transitivity (my_blocked z); [by destruct (nz _)|exact (Hym Htk)].
  - destruct (nz _); cbn; by rewrite Hyu.
  - rewrite <-(proj2 (proj2 Hke)). destruct (nz _); cbn; by rewrite Hyu.
  - intros q Hq. destruct (nz _); cbn; rewrite Hyu; by apply K, Hall.
  - intros a n x Hr1 Hr2. destruct (nz _); cbn; rewrite Hyu; (apply E; [by apply Hke|done]).
Qed.

(** C19: delivery of a signal, on a stack in the program's half of the address
    space, never faults in the kernel.  It says 0, changing nothing but that
    pages of the stack may be backed, if the signal is not for a handler or a
    page of the frame cannot be had; if the pages are there it does say 1.
    Then the program goes on at the handler, with the signal, the siginfo and
    the ucontext as its arguments and the stack as a call leaves it; the frame
    and the floating-point state are written below the red zone, or on the
    alternate stack, within 2048 bytes of its top, and nothing else is; and the
    thread's mask is the handler's, with the signal itself unless the handler
    asked otherwise. *)
Theorem signal64_deliver_enters sig r addr s : sig_ok s -> let sa := handler (cur_slot s) sig s in
  let top := frame_top sa r s in let fp := fpsp_of top in let sp := frame_sp fp in
  2048 <= top < 2 ^ 47 ->
  exists b r1 s1, signal64_deliver sig r addr s = Some (b, r1, s1) /\
    (b = false -> r1 = r /\ exists u, s1 = set_umem u s /\ keeps (umem s) u /\
       (for_handler sig r s = false \/ range_present sp (fp + 512 - sp) (umem s) = Some (false, u))) /\
    (for_handler sig r s = true -> (forall q, sp / 4096 <= q <= (fp + 511) / 4096 -> um_there (umem s) (q * 4096)) -> b = true) /\
    (b = true -> for_handler sig r s = true /\ entered sig r addr sp fp s r1 s1 /\
       rip r1 = sa_handler sa /\ rdi r1 = sig /\ rsi r1 = sp + FRAME_INFO /\ rdx r1 = sp + FRAME_UC /\ rsp r1 = sp /\
       (rsp r1 + 8) mod 16 = 0 /\ sp + FRAME_SIZE <= fp /\ fp mod 64 = 0 /\ fp + 512 <= top <= sp + 2048 /\
       (is_task (cur_task s) = true -> mask_ok (my_blocked s1) /\
          (nz (Z.land (sa_flags sa) SA_NODEFER) = false -> sig <> SIG64_KILLSIG -> sig <> SIG64_STOP -> Z.testbit (my_blocked s1) sig = true))).
Proof.
  intros Hok sa top fp sp Ht. destruct (for_handler sig r s) eqn:Hfh.
  2: { exists false, r, s. split; [by apply deliver_for_handler|]. split; [|done]. intros _. split; [done|]. exists (umem s).
       split; [by destruct s|]. split; [apply kept_refl|]. by left. }
  destruct (deliver_spec sig r addr s Hok Hfh Ht) as (b & r1 & s1 & Hd & Hf & He & Hth). exists b, r1, s1. split; [done|].
  split; [intros Hb; destruct (Hf Hb) as (-> & u & H1 & H2 & H3); split; [done|]; exists u; split_and!; [done|done|by right]|].
  split; [by intros _|]. intros Hb. specialize (He Hb). split; [done|]. split; [done|].
  pose proof (frame_places top Ht) as Hpl. cbv zeta in Hpl. change (fpsp_of top) with fp in Hpl. change (frame_sp fp) with sp in Hpl.
  destruct Hpl as (Hfm & Hsm & Hsp & Hfr & Htop & Hlow). rewrite (en_regs _ _ _ _ _ _ _ _ He). pose proof (en_mask _ _ _ _ _ _ _ _ He) as Hm. clear He Hf Hth Hd Hb.
  change (fpsp_of (frame_top (handler (cur_slot s) sig s) r s)) with fp. change (frame_sp fp) with sp. change (handler (cur_slot s) sig s) with sa in Hm |- *. clearbody sp fp top.
  cbn [rip rdi rsi rdx rsp enter_handler]. unfold FRAME_SIZE, FRAME_INFO, FRAME_UC in *.
  split_and!; [done|done|apply u64_small; lia|apply u64_small; lia|done|Z.to_euclidean_division_equations; lia|lia|done|lia|lia|].
  unfold for_handler in Hfh. rewrite !andb_true_iff, !Z.ltb_lt in Hfh. destruct Hfh as (((((Hs1 & Hs2) & _) & _) & _) & _). unfold NSIG in Hs2.
  intros Htk. rewrite (Hm Htk). split; [by apply handler_mask_ok; [apply my_blocked_ok|]|]. intros Hnd Hk Hst. unfold handler_mask. rewrite Hnd.
  rewrite Z.ldiff_spec, Z.lor_spec, bit_spec, unblockable_spec, Z.eqb_refl, orb_true_r by lia. by rewrite (proj2 (Z.eqb_neq _ _) Hk), (proj2 (Z.eqb_neq _ _) Hst).
Qed.

(** What a handler comes back to: the program's registers, with the selectors
    and the interrupt flag the kernel's. *)
Definition resumed (r : registers64) : registers64 :=
  mkRegs (rax r) (rbx r) (rcx r) (rdx r) (rsi r) (rdi r) (rbp r) (r8 r) (r9 r) (r10 r) (r11 r) (r12 r) (r13 r) (r14 r) (r15 r)
    0 0 (rip r) 0x23 (Z.lor (Z.land (rflags r) 0x0CD5) 0x202) (rsp r) 0x1B.

(** The registers that the frame keeps. *)
Definition regs_words (r : registers64) : Prop :=
  Forall is_word [rax r; rbx r; rcx r; rdx r; rsi r; rdi r; rbp r; r8 r; r9 r; r10 r; r11 r; r12 r; r13 r; r14 r; r15 r; rip r; rflags r; rsp r].

(** The handler left what was written for it. *)
Definition left_frame (sp fp : Z) s s' : Prop :=
  (forall q, um_there (umem s) q -> um_there (umem s') q) /\
  (forall a n x, sp <= a -> a + 8 * Z.of_nat n <= fp + 512 -> um_read a n (umem s) = Some x -> um_read a n (umem s') = Some x).

Lemma back_mask_ok s : sig_ok s -> mask_ok (back_mask s).
Proof.
  intros Hok. unfold back_mask. destruct (is_task _) eqn:Ht; cbn [andb]; [|by apply my_blocked_ok]. destruct (zget _ _); [by apply saved_ok|by apply my_blocked_ok].
Qed.

Lemma sigreturn_frame sig r addr sp fp s r1 s1 s2 : sig_ok s -> regs_words r -> sig_ok s2 -> entered sig r addr sp fp s r1 s1 -> left_frame sp fp s1 s2 ->
  0 < sp -> sp + FRAME_SIZE <= fp -> fp mod 64 = 0 -> fp + 512 < 2 ^ 47 ->
  exists u, signal64_sigreturn (u64 (sp + 8)) s2 =
    Some (resumed r, set_returns (u64 (returns s2 + 1)) (set_umem u (set_my_blocked (back_mask s) s2))) /\
    u = um_fxrstor (um_fxsave (umem s)) (umem s2).
Proof.
  intros Hok Hrw Hok2 [Hregs Hw Hm Hf Hx Hth _] [Hlt Hlr] Hsp Hfr Hfm Htop. unfold FRAME_SIZE in Hfr. eexists. split; [|reflexivity].
  unfold signal64_sigreturn. unfold UC_MCONTEXT, UC_SIGMASK. rewrite (u64_small (sp + 8)) by lia. rewrite !u64_small by lia.
  apply (fun H => Hlr sp 70%nat _ H ltac:(lia)) in Hf; [|lia]. apply (fun H => Hlr fp 64%nat _ H ltac:(lia)) in Hx; [|lia].
  replace (sp + 8 + 40) with (sp + 8 * Z.of_nat 6) by lia. replace (sp + 8 + 296) with (sp + 8 * Z.of_nat 38) by lia.
  rewrite (um_read_part _ _ _ _ 6 24 Hf) by lia. rewrite (um_read_part _ _ _ _ 38 1 Hf) by lia.
  assert (from_user_set (to_user_set (back_mask s)) = back_mask s) as Hback by (by apply to_from_user_set, back_mask_ok).
  assert (u64 (to_user_set (back_mask s)) = to_user_set (back_mask s)) as Hmw.
  { apply u64_small. destruct (lacks_word _ _ (back_mask_ok s Hok)) as [Hb1 Hb2]. unfold to_user_set. rewrite Z.shiftr_div_pow2 by lia. change (2 ^ 1) with 2. Z.to_euclidean_division_equations. lia. }
  set (m := to_user_set (back_mask s)) in *. clearbody m.
  match goal with |- context [take 24 (drop 6 ?l)] => set (sc := take 24 (drop 6 l)) end.
  assert (zget sc 23 = fp) as Hfp by (change (zget sc 23) with (u64 fp); apply u64_small; lia). cbn [mbind option_bind]. cbv zeta. rewrite Hfp.
  change (zget (take 1 (drop 38 (map u64 (frame_words sig addr fp m (handler (cur_slot s) sig s) r)))) 0) with (u64 m). rewrite Hmw, Hback.
  replace (nz fp) with true by (symmetry; apply nz_true; lia). replace (Z.land fp 15) with 0.
  2: { change 15 with (Z.ones 4). rewrite Z.land_ones by lia. Z.to_euclidean_division_equations. lia. }
  cbn [nz negb andb Z.eqb]. 
  destruct (range_present_spec fp 512 (umem s2)) as (ok & u & Hrp & _ & _ & Hsame); [lia|lia|lia|].
  destruct Hsame as [-> ->]. { intros q Hq. apply Hlt, Hth. Z.to_euclidean_division_equations. lia. }
  replace (umem (set_my_blocked (back_mask s) s2)) with (umem s2) by (unfold set_my_blocked; by destruct (is_task (cur_task s2))).
  rewrite Hrp. cbn [mbind option_bind]. rewrite Hx. cbn [mbind option_bind]. rewrite um_fx_clean.
  assert (forall (a b : registers64) (x : sst W U), a = b -> Some (a, set_returns (u64 (returns s2 + 1)) x) = Some (b, set_returns (u64 (returns s2 + 1)) x)) as Hpair by (by intros a b x ->).
  transitivity (Some (resumed r, set_returns (u64 (returns s2 + 1)) (set_umem (um_fxrstor (um_fxsave (umem s)) (umem s2)) (set_my_blocked (back_mask s) s2)))); [|done].
  replace (returns (set_umem _ _)) with (returns s2) by (unfold set_my_blocked; by destruct (is_task (cur_task s2))).
  apply Hpair. unfold resumed. clear - Hrw. unfold regs_words in Hrw. repeat (apply Forall_cons in Hrw as [?%u64_small Hrw]).
  transitivity (mkRegs (u64 (rax r)) (u64 (rbx r)) (u64 (rcx r)) (u64 (rdx r)) (u64 (rsi r)) (u64 (rdi r)) (u64 (rbp r)) (u64 (r8 r)) (u64 (r9 r)) (u64 (r10 r))
    (u64 (r11 r)) (u64 (r12 r)) (u64 (r13 r)) (u64 (r14 r)) (u64 (r15 r)) 0 0 (u64 (rip r)) 0x23 (Z.lor (Z.land (u64 (rflags r)) 0x0CD5) 0x202) (u64 (rsp r)) 0x1B); [reflexivity|].
  by repeat match goal with E : u64 ?x = ?x |- _ => rewrite E; clear E end.
Qed.

(** C13: what a handler comes back to.  If a signal was delivered and the
    handler, whatever else it and the system did in between, left the frame as
    it was, then [rt_sigreturn] does not fault: the program goes on with the
    registers it had, its general ones and its instruction pointer to the bit,
    the selectors and the interrupt flag the kernel's; with the floating-point
    state it had; and with the mask it had, which inside [rt_sigsuspend] or
    [ppoll] is the mask from before the call.  Memory is as the handler left
    it. *)
Theorem signal64_return_resumes sig r addr s r1 s1 s2 : sig_ok s -> regs_words r -> let top := frame_top (handler (cur_slot s) sig s) r s in
  2048 <= top < 2 ^ 47 -> signal64_deliver sig r addr s = Some (true, r1, s1) ->
  sig_ok s2 -> cur_task s2 = cur_task s -> left_frame (rsp r1) (fpsp_of top) s1 s2 ->
  exists s3, signal64_sigreturn (u64 (rsp r1 + 8)) s2 = Some (resumed r, s3) /\
    my_blocked s3 = back_mask s /\ um_fxsave (umem s3) = um_fxsave (umem s) /\
    (forall a n, um_read a n (umem s3) = um_read a n (umem s2)) /\ world s3 = world s2.
Proof.
  intros Hok Hrw top Ht Hd Hok2 Htask Hleft. destruct (for_handler sig r s) eqn:Hfh; [|by rewrite deliver_for_handler in Hd].
  destruct (deliver_spec sig r addr s Hok Hfh Ht) as (b & r1' & s1' & Hd' & _ & He & _). rewrite Hd in Hd'. injection Hd' as <- <- <-. specialize (He eq_refl).
  pose proof (frame_places top Ht) as (Hfm & Hsm & Hsp & Hfr & Htop & Hlow). change (frame_top (handler (cur_slot s) sig s) r s) with top in He.
  assert (rsp r1 = frame_sp (fpsp_of top)) as Hr1 by (by rewrite (en_regs _ _ _ _ _ _ _ _ He)).
  rewrite Hr1 in *. destruct (sigreturn_frame sig r addr _ _ s r1 s1 s2 Hok Hrw Hok2 He Hleft) as (u & Hret & ->); [done|done|done|lia|].
  eexists. split; [exact Hret|]. set (x := set_my_blocked (back_mask s) s2).
  assert (my_blocked x = back_mask s) as Hx.
  { unfold x. destruct (is_task (cur_task s2)) eqn:Htk; [by apply my_blocked_set|]. unfold set_my_blocked, my_blocked. rewrite !Htk.
    unfold back_mask, my_blocked. rewrite <-Htask. by rewrite Htk. }
  assert (world x = world s2) as Hw by (unfold x, set_my_blocked; by destruct (is_task _)).
  clearbody x. split; [exact Hx|]. split; [apply um_restore_fx|]. split; [intros a n; apply um_restore_read|done].
Qed.
End spec.

(** ** Who is running, by the scheduler and the process table *)

#[export] Instance kernel_tasks {H A} `{!Pipe64.KernelHeap H, !FrameAllocator A} : TaskView (Sched64.sched * Proc64.pst H A).
Proof.
  refine {| tv_current w := Sched64.current w.1; tv_task_pid t w := Sched64.sched64_task_pid t w.1;
            tv_current_pid w := Proc64.proc64_current_pid w.2; tv_slot_of p w := Proc64.proc64_slot_of p w.2 |}.
  intros p [w s]. cbn [snd]. unfold Proc64.proc64_slot_of, PROC64_MAX. destruct (find_up _ _ _) as [i|] eqn:E; [|lia].
  apply find_up_Some in E as (Hi & _). unfold Proc64.NPROC, Proc64.PROC64_MAX in Hi. lia.
Defined.

(** ** A memory, for the witnesses: bytes, on pages that are there and pages
    that can be backed. *)
Definition fx_good (l : list Z) : bool := bool_decide (length l = 64%nat /\ Forall is_word l /\ clean_fx l = l).

Record flat := mkFlat { fl_pages : list Z; fl_lazy : list Z; fl_bytes : gmap Z Z; fl_fx : { l : list Z | fx_good l = true } }.

Definition has_page (u : flat) (a : Z) : bool := bool_decide (a / 4096 ∈ fl_pages u).
Definition has_bytes (a : Z) (n : nat) (u : flat) : bool := forallb (fun i => has_page u (a + Z.of_nat i)) (seq 0 (8 * n)).
Definition byte_of (m : gmap Z Z) (a : Z) : Z := default 0 (m !! a).

(** The word at [a], low byte first. *)
Definition word_at (m : gmap Z Z) (a : Z) : Z :=
  byte_of m a + 2 ^ 8 * (byte_of m (a + 1) + 2 ^ 8 * (byte_of m (a + 2) + 2 ^ 8 * (byte_of m (a + 3) + 2 ^ 8 * (byte_of m (a + 4) + 2 ^ 8 * (byte_of m (a + 5) + 2 ^ 8 * (byte_of m (a + 6) + 2 ^ 8 * byte_of m (a + 7))))))).
Definition put_word (a w : Z) (m : gmap Z Z) : gmap Z Z :=
  <[a := w mod 2 ^ 8]> (<[a + 1 := w / 2 ^ 8 mod 2 ^ 8]> (<[a + 2 := w / 2 ^ 16 mod 2 ^ 8]> (<[a + 3 := w / 2 ^ 24 mod 2 ^ 8]>
  (<[a + 4 := w / 2 ^ 32 mod 2 ^ 8]> (<[a + 5 := w / 2 ^ 40 mod 2 ^ 8]> (<[a + 6 := w / 2 ^ 48 mod 2 ^ 8]> (<[a + 7 := w / 2 ^ 56 mod 2 ^ 8]> m))))))).
Fixpoint put_words (a : Z) (ws : list Z) (m : gmap Z Z) : gmap Z Z :=
  match ws with [] => m | w :: ws => put_word a w (put_words (a + 8) ws m) end.

Definition fl_read (a : Z) (n : nat) (u : flat) : option (list Z) :=
  if has_bytes a n u then Some (map (fun k => word_at (fl_bytes u) (a + 8 * Z.of_nat k)) (seq 0 n)) else None.
Definition fl_write (a : Z) (ws : list Z) (u : flat) : option flat :=
  if has_bytes a (length ws) u then Some (mkFlat (fl_pages u) (fl_lazy u) (put_words a ws (fl_bytes u)) (fl_fx u)) else None.
Definition fl_touch (a : Z) (u : flat) : bool * flat :=
  if has_page u a then (true, u) else
  if bool_decide (a / 4096 ∈ fl_lazy u) then (true, mkFlat (a / 4096 :: fl_pages u) (fl_lazy u) (fl_bytes u) (fl_fx u)) else (false, u).
Definition fl_fxrstor (l : list Z) (u : flat) : flat :=
  match decide (fx_good l = true) with left E => mkFlat (fl_pages u) (fl_lazy u) (fl_bytes u) (exist _ l E) | right _ => u end.

Lemma word_put_eq m a w : word_at (put_word a w m) a = u64 w.
Proof.
  unfold word_at, put_word, byte_of.
  assert (forall i j v (k : gmap Z Z), i <> j -> <[a + i := v]> k !! (a + j) = k !! (a + j)) as Hne by (intros; apply lookup_insert_ne; lia).
  assert (forall j v (k : gmap Z Z), 0 <> j -> <[a := v]> k !! (a + j) = k !! (a + j)) as Hne0 by (intros; apply lookup_insert_ne; lia).
  rewrite lookup_insert_eq. repeat (first [rewrite Hne0 by lia|rewrite Hne by lia|rewrite lookup_insert_eq]). cbn [default].
  unfold u64. clear. change (2 ^ 64) with (2 ^ 8 * (2 ^ 8 * (2 ^ 8 * (2 ^ 8 * (2 ^ 8 * (2 ^ 8 * (2 ^ 8 * 2 ^ 8))))))).
  rewrite !Z.rem_mul_r by lia. rewrite !Z.div_div by lia. reflexivity.
Qed.

Lemma word_put_ne m a b w : b + 8 <= a \/ a + 8 <= b -> word_at (put_word a w m) b = word_at m b.
Proof.
  intros H. unfold word_at. assert (forall i, 0 <= i < 8 -> byte_of (put_word a w m) (b + i) = byte_of m (b + i)) as Hb.
  { intros i Hi. unfold byte_of, put_word. rewrite !lookup_insert_ne by lia. done. }
  rewrite !Hb by lia. pose proof (Hb 0) as Hb0. rewrite Z.add_0_r in Hb0. by rewrite Hb0 by lia.
Qed.

Lemma word_puts_ne m ws a b : b + 8 <= a \/ a + 8 * Z.of_nat (length ws) <= b -> word_at (put_words a ws m) b = word_at m b.
Proof.
  revert a. induction ws as [|w ws IH]; intros a H; [done|]. cbn [put_words length] in *. rewrite word_put_ne by lia. apply IH. lia.
Qed.

Lemma word_puts_eq m ws a : map (fun k => word_at (put_words a ws m) (a + 8 * Z.of_nat k)) (seq 0 (length ws)) = map u64 ws.
Proof.
  revert a. induction ws as [|w ws IH]; intros a; [done|]. cbn [length seq map put_words]. f_equal.
  - rewrite Z.add_0_r. apply word_put_eq.
  - rewrite <-(IH (a + 8)), <-seq_shift, map_map. apply map_ext_in. intros k _. rewrite word_put_ne by lia. f_equal. lia.
Qed.

Lemma has_bytes_true a n u : has_bytes a n u = true <-> forall i, 0 <= i < 8 * Z.of_nat n -> has_page u (a + i) = true.
Proof.
  unfold has_bytes. rewrite forallb_forall. split; intros H i Hi.
  - rewrite <-(Z2Nat.id i) by lia. apply H. apply in_seq. lia.
  - apply in_seq in Hi. apply H. lia.
Qed.

#[export] Instance flat_memory : UserMemory flat.
Proof.
  refine {| um_read := fl_read; um_write := fl_write; um_touch := fl_touch; um_fxsave u := proj1_sig (fl_fx u); um_fxrstor := fl_fxrstor;
            um_there u p := has_page u p = true |}.
  - intros [pg lz b [l E]]. cbn. unfold fx_good in E. by apply bool_decide_eq_true in E as (? & _).
  - intros [pg lz b [l E]]. cbn. unfold fx_good in E. by apply bool_decide_eq_true in E as (_ & ? & _).
  - intros p u. unfold fl_touch. destruct (has_page u p) eqn:Hp; [done|]. case_bool_decide; [|done]. intros _. unfold has_page. cbn. apply bool_decide_eq_true. by left.
  - intros p u Hp. unfold fl_touch. by rewrite Hp.
  - intros p q u Hq. unfold fl_touch. destruct (has_page u p); [done|]. case_bool_decide; [|done]. unfold has_page in *. cbn.
    apply bool_decide_eq_true in Hq. apply bool_decide_eq_true. by right.
  - intros p a n u x. unfold fl_touch. destruct (has_page u p); [done|]. case_bool_decide; [|done]. unfold fl_read. destruct (has_bytes a n u) eqn:Hb; [|done].
    cbn [snd]. intros [= <-]. match goal with |- (if ?c then _ else _) = _ => replace c with true; [done|] end. symmetry. rewrite has_bytes_true in Hb |- *. intros i Hi. specialize (Hb i Hi).
    unfold has_page in *. cbn. apply bool_decide_eq_true in Hb. apply bool_decide_eq_true. by right.
  - intros p u. unfold fl_touch. destruct (has_page u p); [done|]. by case_bool_decide.
  - intros a ws u Hq. unfold fl_write. replace (has_bytes a (length ws) u) with true; [by eexists|]. symmetry. apply has_bytes_true. intros i Hi.
    specialize (Hq ((a + i) / 4096)). unfold has_page in *. rewrite Z.div_mul in Hq by lia. apply Hq. split; apply Z.div_le_mono; lia.
  - intros a ws u u' q. unfold fl_write. destruct (has_bytes _ _ _); [|done]. by intros [= <-].
  - intros a ws u u'. unfold fl_write. destruct (has_bytes a (length ws) u) eqn:Hb; [|done]. intros [= <-]. unfold fl_read.
    change (has_bytes a (length ws) (mkFlat _ _ _ _)) with (has_bytes a (length ws) u). rewrite Hb. cbn. by rewrite word_puts_eq.
  - intros a n u ws k m. unfold fl_read. destruct (has_bytes a n u) eqn:Hb; [|done]. intros [= <-] Hkm. replace (has_bytes (a + 8 * Z.of_nat k) m u) with true.
    + f_equal. change (@map nat Z) with (@fmap list _ nat Z). rewrite <-fmap_drop, <-fmap_take, drop_seq, take_seq, Nat.min_l by lia. cbn [Nat.add].
      replace (seq k m) with (Nat.add k <$> seq 0 m) by (by rewrite fmap_add_seq, Nat.add_0_r). rewrite <-list_fmap_compose.
      apply map_ext_in. intros j _. cbn. f_equal. lia.
    + symmetry. rewrite has_bytes_true in Hb |- *. intros i Hi. rewrite <-Z.add_assoc. apply Hb. lia.
  - intros a ws u u' b n x. unfold fl_write. destruct (has_bytes a _ u) eqn:Hb; [|done]. intros [= <-]. unfold fl_read.
    change (has_bytes b n (mkFlat _ _ _ _)) with (has_bytes b n u). destruct (has_bytes b n u); [|done]. intros [= <-] Hr. f_equal. apply map_ext_in. intros k Hk%in_seq.
    cbn. apply word_puts_ne. lia.
  - intros a ws u u'. unfold fl_write. destruct (has_bytes _ _ _); [|done]. by intros [= <-].
  - intros [pg lz b [l E]]. cbn. unfold fx_good in E. by apply bool_decide_eq_true in E as (_ & _ & ?).
  - intros [pg lz b [l E]] u'. unfold fl_fxrstor. cbn. destruct (decide _); [done|contradiction].
  - intros l u a n. unfold fl_fxrstor. by destruct (decide _).
  - intros l u q. unfold fl_fxrstor. by destruct (decide _).
Defined.

(** ** Inputs *)

#[local] Existing Instances Pmm64.pmm64_frame_allocator Proc64.demo_heap.

Lemma zero_fx_good : fx_good (replicate 64 0) = true.
Proof. apply bool_decide_eq_true. split; [done|]. split; [by apply Forall_replicate|done]. Qed.

(** A page of stack. *)
Definition demo_flat : flat := mkFlat [0x7fff00000] [] ∅ (exist _ (replicate 64 0) zero_fx_good).

Abbreviation KERNEL := (Sched64.sched * Proc64.pst Z Pmm64.pmm)%type.

(** Task 0 of the scheduler, running process 1 in slot 0, which handles SIGSEGV. *)
Definition demo_act : ksigaction64 := mkAct 0x401000 SA_RESTORER 0x402000 0.
Definition demo_handlers : list (list ksigaction64) := zset (replicate 128 (replicate 64 no_act)) 0 (zset (replicate 64 no_act) 11 demo_act).
Definition demo_sig : sst KERNEL flat :=
  mkSst demo_handlers 0 0 0 (replicate 128 0) (replicate 1024 0) (replicate 128 (replicate 64 0)) (replicate 1024 (replicate 64 0))
    (replicate 1024 0) (replicate 1024 0) (replicate 1024 false) (replicate 1024 0) (replicate 1024 0) (Sched64.demo, Proc64.demo_pst) demo_flat.

(** The program at 0x400123, with its stack pointer in that page. *)
Definition demo_regs : registers64 := mkRegs 1 2 3 4 5 6 7 8 9 10 11 12 13 14 15 14 6 0x400123 0x23 0x246 0x7fff00000f00 0x1b.

Lemma array_replicate {A} n k (P : A -> Prop) x : n = Z.of_nat k -> P x -> array_ok n P (replicate k x).
Proof. intros -> Hx. split; [unfold zlen; by rewrite length_replicate|by apply Forall_replicate]. Qed.

Lemma demo_handlers_ok : array_ok PROC64_MAX (array_ok NSIG act_ok) demo_handlers.
Proof.
  unfold demo_handlers. apply array_put; [apply array_replicate; [reflexivity|]|apply array_put]; [apply array_replicate; [reflexivity|apply no_act_ok]..|by right].
Qed.

Lemma demo_sig_ok : sig_ok demo_sig.
Proof.
  exact (Build_sig_ok demo_sig demo_handlers_ok (array_replicate _ 128 _ _ eq_refl (lacks_0 _)) (array_replicate _ 1024 _ _ eq_refl (lacks_0 _))
    (array_replicate _ 1024 _ _ eq_refl (lacks_0 _)) (array_replicate _ 1024 _ _ eq_refl (lacks_0 _)) (array_replicate _ 1024 _ _ eq_refl I)
    (array_replicate _ 1024 _ _ eq_refl I) (array_replicate _ 1024 _ _ eq_refl I)).
Qed.

Lemma demo_cur_slot : slot_of 1 demo_sig = 0 /\ cur_slot demo_sig = 0.
Proof.
  assert (slot_of 1 demo_sig = 0) as E; [|by split]. transitivity (Proc64.proc64_slot_of 1 Proc64.demo_pst); [done|].
  rewrite Proc64.slot_of_eq, (proj1 Proc64.demo_slot_for). done.
Qed.

Lemma demo_handler : handler (cur_slot demo_sig) 11 demo_sig = demo_act.
Proof. rewrite (proj2 demo_cur_slot). done. Qed.

Lemma demo_mask : my_blocked demo_sig = 0 /\ cur_task demo_sig = 0 /\ back_mask demo_sig = 0.
Proof. done. Qed.

Lemma demo_top : frame_top (handler (cur_slot demo_sig) 11 demo_sig) demo_regs demo_sig = 0x7fff00000e80.
Proof. by rewrite demo_handler. Qed.

Lemma demo_range : 2048 <= frame_top (handler (cur_slot demo_sig) 11 demo_sig) demo_regs demo_sig < 2 ^ 47.
Proof. by rewrite demo_top. Qed.

Lemma demo_regs_words : regs_words demo_regs.
Proof. unfold regs_words, is_word. repeat (apply List.Forall_cons; [by cbn|]). constructor. Qed.

Lemma demo_pages q : frame_sp (fpsp_of 0x7fff00000e80) / 4096 <= q <= (fpsp_of 0x7fff00000e80 + 511) / 4096 -> um_there (umem demo_sig) (q * 4096).
Proof.
  intros Hq. assert (q = 0x7fff00000) as ->; [|done]. replace (frame_sp _ / 4096) with 0x7fff00000 in Hq by (symmetry; by vm_compute).
  replace ((_ + 511) / 4096) with 0x7fff00000 in Hq by (symmetry; by vm_compute). lia.
Qed.

Lemma demo_for_handler : for_handler 11 demo_regs demo_sig = true.
Proof. unfold for_handler. by rewrite demo_handler. Qed.

Lemma demo_delivers : exists r1 s1, signal64_deliver 11 demo_regs 0x10 demo_sig = Some (true, r1, s1) /\ sig_ok s1 /\ cur_task s1 = 0 /\
  rsp r1 = frame_sp (fpsp_of 0x7fff00000e80).
Proof.
  pose proof demo_range as Ht.
  destruct (deliver_spec 11 demo_regs 0x10 demo_sig demo_sig_ok demo_for_handler Ht) as (b & r1 & s1 & Hd & _ & He & Hth).
  rewrite demo_top in *. specialize (Hth demo_pages). subst b. specialize (He eq_refl). exists r1, s1. split; [done|].
  split; [exact (deliver_ok _ _ _ _ _ _ _ demo_sig_ok Hd)|]. split; [|rewrite (en_regs _ _ _ _ _ _ _ _ He); reflexivity].
  unfold cur_task. rewrite (en_world _ _ _ _ _ _ _ _ He). reflexivity.
Qed.

Lemma signal64_deliver_enters_witness :
  exists b r1 s1, signal64_deliver 11 demo_regs 0x10 demo_sig = Some (b, r1, s1) /\ b = true /\ rip r1 = 0x401000 /\ rdi r1 = 11 /\
    my_blocked s1 = bit 11.
Proof.
  pose proof demo_range as Ht.
  destruct (signal64_deliver_enters 11 demo_regs 0x10 demo_sig demo_sig_ok Ht) as (b & r1 & s1 & Hd & _ & Hth & He).
  rewrite demo_top in *. specialize (Hth demo_for_handler demo_pages). subst b. destruct (He eq_refl) as (_ & Hen & Hrip & Hrdi & _).
  exists true, r1, s1. rewrite demo_handler in Hrip. split; [exact Hd|]. split; [reflexivity|]. split; [exact Hrip|]. split; [exact Hrdi|].
  rewrite (en_mask _ _ _ _ _ _ _ _ Hen eq_refl), demo_handler. reflexivity.
Defined.

(** The handler takes all signals off its mask and returns. *)
Lemma signal64_return_resumes_witness :
  exists r1 s1, signal64_deliver 11 demo_regs 0x10 demo_sig = Some (true, r1, s1) /\
    let s2 := (signal64_sigprocmask SIG64_SETMASK (Some 0xff) 8 s1).2 in
    exists s3, signal64_sigreturn (u64 (rsp r1 + 8)) s2 = Some (resumed demo_regs, s3) /\ my_blocked s3 = 0 /\ rip (resumed demo_regs) = 0x400123.
Proof.
  destruct demo_delivers as (r1 & s1 & Hd & Hok1 & Ht1 & Hsp). exists r1, s1. split; [exact Hd|]. intros s2.
  assert (umem s2 = umem s1 /\ world s2 = world s1) as [Hu Hw].
  { unfold s2, signal64_sigprocmask. cbn [snd negb Z.eqb Pos.eqb SIG64_SETMASK SIG64_BLOCK SIG64_UNBLOCK]. unfold set_my_blocked. destruct (is_task (cur_task s1)); split; reflexivity. }
  pose proof demo_range as Ht.
  pose proof demo_regs_words as Hrw.
  assert (sig_ok s2) as Hok2 by (unfold s2; destruct (signal64_sigprocmask _ _ _ s1) as [[o v] s'] eqn:E; exact (sigprocmask_ok _ _ _ _ _ _ _ Hok1 E)).
  assert (cur_task s2 = cur_task demo_sig) as Hts by (unfold cur_task; rewrite Hw; exact Ht1).
  assert (left_frame (rsp r1) (fpsp_of (frame_top (handler (cur_slot demo_sig) 11 demo_sig) demo_regs demo_sig)) s1 s2) as Hl by (split; rewrite Hu; intros; assumption).
  destruct (signal64_return_resumes 11 demo_regs 0x10 demo_sig r1 s1 s2 demo_sig_ok Hrw Ht Hd Hok2 Hts Hl) as (s3 & Hr & Hb & _).
  exists s3. split; [exact Hr|]. split; [exact Hb|reflexivity].
Defined.

Lemma signal64_tables_typed_witness :
  exists s', sig_do (OMask SIG64_BLOCK (Some (2 ^ 64 - 1)) 8) demo_sig = Some (0, s') /\ sig_ok s' /\
    Z.testbit (signal64_blocked 0 s') SIG64_TERM = true /\ Z.testbit (signal64_blocked 0 s') SIG64_KILLSIG = false.
Proof.
  eexists. split; [reflexivity|]. match goal with |- sig_ok ?s' /\ _ => pose proof (signal64_tables_typed demo_sig [(OMask SIG64_BLOCK (Some (2 ^ 64 - 1)) 8, 0)] s') as H end.
  destruct H as [Hok Ht]; [exact demo_sig_ok|eapply runs_cons; [reflexivity|constructor]|]. split; [exact Hok|]. split; [reflexivity|exact (proj1 (proj2 (Ht 0)))].
Defined.

Lemma signal64_kill_is_final_witness :
  exists s1 s2, signal64_raise 1 SIG64_KILLSIG demo_sig = (0, s1) /\ sig_do (OMask SIG64_BLOCK (Some (2 ^ 64 - 1)) 8) s1 = Some (0, s2) /\
    signal64_has_pending 1 s2 = true.
Proof.
  assert (signal64_raise 1 SIG64_KILLSIG demo_sig = (0, (signal64_raise 1 SIG64_KILLSIG demo_sig).2)) as Hr.
  { unfold signal64_raise. rewrite (proj1 demo_cur_slot). reflexivity. }
  set (s1 := (signal64_raise 1 SIG64_KILLSIG demo_sig).2) in *. clearbody s1.
  exists s1. eexists. split; [exact Hr|]. split; [reflexivity|].
  apply (signal64_kill_is_final demo_sig 1 s1 _ demo_sig_ok Hr). eapply (spared_cons 1 s1 (OMask SIG64_BLOCK (Some (2 ^ 64 - 1)) 8)); [reflexivity|exact I|constructor].
Defined.

(** [rt_sigreturn] reads where the program's stack pointer says, before any
    check that something is there. *)
Example sigreturn_faults : signal64_sigreturn 0x5000 demo_sig = None.
Proof. done. Qed.
